(* ===== verification/_CoqProject ===== *)
-Q . S2P
Prelude.v
Types.v
Crc.v
Policies.v
Paths.v
Queue.v
Config.v
Intervals.v
Store.v
DataServer.v
Race.v
Wire.v
Sessions.v
Client.v
BlockService.v
FileIO.v
Posix.v
EndToEnd.v
Comms.v
MetaStore.v
Elasticity.v
Scaling.v
MetaServer.v
Datasets.v
Lifecycle.v
MetaClient.v
LocalMap.v
Files.v
FileLife.v
Calls.v
Variants.v
Process.v
Attributes.v
Sharing.v
Migration.v
Prefetch.v
Settings.v
Moves.v
Removal.v
Snapshots.v
Dispatcher.v
Connect.v
Worker.v
Server.v
Tree.v
Transport.v
Vectored.v
PrefetchMap.v
Segments.v
Fork.v
