(* ===== verification/Prelude.v ===== *)
(** * Verification of the Hercules ad-hoc in-memory file system

    Hercules spreads the files of an application over the memory of the nodes
    of a job.  A preloaded library (src/tools/imss_posix.c) takes the file
    calls of the application whose paths lie below a mount point; the file
    layer (src/fuse/imss_posix_api.c) splits byte ranges into blocks of one
    size, block 0 being the header with the attributes, and keeps a map of the
    files the process knows (src/fuse/hierarchical_map.cpp); the client library
    (src/src/imss.c) finds the servers of a block with a placement policy
    (src/src/policies.c), formats request lines and sends them over UCX
    (src/src/comms.c); data servers (src/src/workers.c, [srv_worker_helper])
    parse the lines and keep the blocks in maps per directory
    (src/src/records.cpp, src/src/hierarchical_records.cpp).  Metadata servers
    (src/src/workers.c, [stat_worker_helper]) keep the structure of every
    dataset in the same kind of maps, count who has it open, collect the
    performance reports of the clients and start further data servers.

    ** The files, in dependency order

    - Prelude: outcomes of C code ([Ret], [Exit], [Undef]), machine integers as
      [Z] with their wrap-around written out, byte strings as [list ascii],
      bounds-checked memory copies, [printf]/[scanf] conversions, tactics and
      list lemmas.
    - Types: constants and structures of src/include/imss.h and [struct stat].
    - Crc: src/src/crc.c.  Policies: src/src/policies.c.
    - Paths: path functions of imss.c, imss_posix.c, imss_posix_api.c and
      src/tools/resolvepath.c.
    - Queue: src/src/queue.c over a heap of cells.
    - Config: src/src/cfg_parse.c.
    - Intervals: the block placement intervals of imss.c.
    - Store: the maps of a server, generic in what an entry holds (class
      [ServerType]).  DataServer: the handler [srv_worker_helper] as a function
      from an environment (payload, network, allocator), a request line and a
      server state to replies and a new state.
    - Race: the write path of the handler as atomic actions of threads, run
      under an arbitrary schedule.
    - Wire: the request lines the client prints, parsed by the server.
    - Sessions: the tables of datasets and instances of the client.
    - Client: [get_data_location], [set_data], [get_ndata] against a cluster of
      servers; a request is handled by its server and the replies are queued.
    - BlockService: the interface (operations and laws) between the file layer
      and the client library.
    - FileIO: [imss_write] and [imss_sread] over that interface.
    - Posix: the descriptor calls over the file layer.
    - EndToEnd: Client implements BlockService, so FileIO and Posix hold on
      a cluster; examples on two servers.
    - Comms: the memory of datasets and instances, and how
      [send_dynamic_stream] and [recv_dynamic_stream] move it.
    - MetaStore: the metadata variants of the maps: deletion, listing,
      directory renames, cleaning.
    - Elasticity: reports with IEEE doubles (Stdlib's [SpecFloat]), the scaling
      decision, commissioning as a sequence of actions, waiting clients
      (workers.c).  Scaling: the worker threads that take these actions at the
      same time.
    - MetaServer: [stat_worker_helper], every mode and operation.
    - Datasets: the dataset functions of imss.c against the metadata and data
      servers.  Lifecycle and MetaClient: their theorems.
    - LocalMap: the map of open files (src/fuse/map.cpp,
      src/fuse/hierarchical_map.cpp).
    - Files: attributes, opening, creating, closing, removing, renaming and
      listing of files and directories (imss_posix_api.c).  FileLife: their
      theorems.
    - Calls: the interposed calls on names and descriptors with the table of
      descriptors (imss_posix.c, mapfd.cpp).  Variants: the other members of
      their families, streams, vectored calls, what is handed to the C library.
      Process: what a process sees of them.  Removal: [remove], [mkstemp] and the
      calls that end in others.
    - Attributes: block 0 of a file on the cluster.  Sharing: two processes, each
      with a session and a map of open files, over the same servers.
    - Migration: the move of blocks when a server leaves or the number of
      servers changes (workers.c, [set_data_server] of imss.c).
    - Prefetch: the prefetching read of imss_posix_api.c over an interface that
      [get_ndata_prefetch] implements.
    - Moves: renames between Hercules and another file system.
    - Settings: the settings of a process from its environment and a
      configuration file (src/src/hercules.cpp, [imss_posix_init], server.c).
    - Snapshots: copying files to disk ([Snapshot], records.cpp, workers.c), with
      what the other servers do meanwhile as a schedule.  The program never
      fills the map in which the blocks are looked up, so nothing is copied
      ([snapshot_copies_nothing]); collecting, merging and writing are modelled
      as functions of what they are given.
    - Dispatcher: the thread of a server that gives clients the address of a
      worker.  Connect: how a process joins and leaves a deployment (imss.c,
      [connect_common]).  Worker: the threads that serve requests, over the
      interface [Handler] that both kinds of server implement.  Server: [main] of
      src/app/server.c and its signal handler.
    - Tree: the directory tree of src/src/directory.c over GLib as an interface.
    - Transport: sending, polling and asynchronous operations of
      src/src/comms.c over UCX as an interface with laws.
    - Vectored: reads and writes that ask a server for many blocks (imss.c,
      imss_posix_api.c).  PrefetchMap: the map of prefetched buffers
      (mapprefetch.cpp), the thread that fills it and the reads that use it.
    - Segments: System V shared memory (src/src/shared_memory.c).
    - Fork: processes that fork, and the end of a process (imss_posix.c).

    ** What the theorems show

    - Data path.  A write is stored and read back: on one server
      ([write_then_read]), through the client with replication
      ([set_data_get_ndata]), for byte ranges of files ([imss_write_stores],
      [imss_sread_in_range]), on a cluster from the application's buffer and
      back ([cluster_write_read]), for sequences of descriptor calls
      ([sequential_writes_read_back]), between two processes
      ([written_file_is_shared]) and for files that come from the disk
      ([moved_file_is_stored]).  Everything outside the range is kept, and the
      block loops end ([block_loops_terminate]).  Prefetching and vectored calls
      give what the plain ones give ([prefetch_read_is_plain],
      [vectored_is_plain]).  Blocks scattered into one message per server come
      back in their order ([split_blocks_return]), prefetched blocks are copied
      for the range that is asked ([vread_prefetch_hits]), and a segment of
      shared memory carries them on a node ([segment_exchange]); the map of
      segments in DataServer and Client is what the kernel's table holds
      ([contents_refined], [free_refined]).
    - Life cycle.  A created dataset is found by its client and by every other
      one ([create_then_stat], [created_is_found]), a removed one stays until
      its last user closes it ([unlinked_until_last_close]), a directory lists
      exactly its entries ([get_dir_spec], [readdir_lists]) and is not removed
      while it has one ([rmdir_keeps_nonempty]).
    - Deployment.  Servers that start in order all join the instance
      ([deployment_lists_servers], [data_server_joins]); a process that starts is
      connected to every server ([client_start_connects]), whose threads share
      the clients evenly ([workers_shared_evenly]) and serve their requests as
      the handler does ([worker_serves]); polling UCX is a queue of replies
      ([receives_in_order]); settings saved to a file are those a process starts
      with ([saved_settings_apply], [file_settings_fit]).
    - Elasticity.  When the number of servers changes, every block is found where
      the new placement puts it ([rebalanced_blocks_found]).  The test whether a
      launch is going on is not atomic with its mark, so between two connections
      every worker thread can launch a server, and no more
      ([launches_bounded], [concurrent_reports_launch_twice]).
    - Safety.  Every request keeps the stores well formed
      ([data_server_invariant], [meta_inv_preserved]); threads that write
      different bytes never lose data under any interleaving and always finish
      ([racing_writers_keep_data]), threads that write the same bytes leave what
      some order of their writes leaves ([racing_writes_in_some_order]); the
      queue is memory safe and first-in first-out
      ([queue_refines_fifo]); the map of open files is a map from paths
      ([local_map_refines]); asynchronous sends are bounded and all over in the
      end ([async_sends_bounded], [async_data_worker_progress_ends]).
    - Directories in a tree.  The search is exact ([GTree_search_correct]), an
      insertion adds its entry and nothing else ([GTree_insert_lists]), a removal
      takes out what is below ([GTree_delete_removes]).
    - Formats.  Request lines, configuration files, dataset and instance
      streams, reports and attributes round trip ([wire_roundtrip],
      [cfg_save_load], [dataset_stream_roundtrip], [imss_stream_roundtrip],
      [metrics_roundtrip], [stat_roundtrip]); the CRC tables are the
      polynomials ([crc16_table_correct], [crc64_table_correct]); paths resolve
      to their component stack ([ResolvePath_correct]).
    - Defects.  Where the code departs from what it means to do, the theorem
      states what it does.  Data and files: [write_moves_to_size],
      [rename_across_directories_loses_blocks], [get_ndata_marker_collision],
      [set_data_async_confuses_next_read], [open_link_loses_name],
      [deleted_still_known], [rename_into_known_dir_fails],
      [type_query_breaks_placement], [partial_block_breaks_merge],
      [snapset_overwrites_block], [snapshot_copies_nothing].  Messages: [update_shifts_replies],
      [long_message_overflows], [send_data_hides_failure],
      [received_table_overflows].  Servers and connections:
      [metadata_rename_aborts], [concurrent_reports_launch_twice],
      [early_server_stops_metadata],
      [finishing_server_is_silent], [shutdown_outcomes], [signal_outcomes],
      [hostfile_too_short], [local_server_by_prefix],
      [rejoining_uses_freed_tables], [default_file_crashes],
      [fork_child_uncounted], [run_me_last_forgets].  Requests for many blocks:
      [vectored_read_overwrites_stack], [split_read_never_answered],
      [split_write_crashes_server], [gather_offset_shifts],
      [scatter_reads_past_buffer], [short_hit_returns_too_much],
      [prefetch_thread_crashes].  Shared memory: [host_key_overflows],
      [blocks_share_keys], [key_file_missing].  The tree:
      [insert_twice_duplicates], [delete_leaves_parent_dangling],
      [file_hides_directory].

    ** Assumptions and bounds

    Parameters stand for what is outside the modelled code: [malloc] and the
    bytes of fresh memory, the success of sends, receives and connections,
    addresses inside a sent structure, identifiers of shared-memory segments,
    uninitialised stack bytes, the order of a GLib hash table, the clock and
    the user, the C library behind the interposed calls, and [ceil] of a
    quotient of doubles, which is exact below 2^53 ([dceil]).  Of the
    repository's own code, the attribute fetch of Posix is a parameter.  UCX and
    GLib trees are interfaces whose laws state their documented behaviour, with
    an instance that satisfies them.  The measurements a process has collected are an argument of the close.
    Requests are handled one at a time except in Race and Scaling, where a
    schedule says which thread acts next, and in Snapshots, where it lists what
    the rest of the cluster does; [curr_dataset] and
    [curr_global_imss], pointers into tables, are the keys they point at.
    Loops that are not structural run on fuel computed from their bounds (the
    number of blocks of a range, of digits of a number, of records of a
    prefetch buffer); the theorems show that the fuel suffices by giving the
    full result or that more of it changes nothing.  Loops without a bound, as
    polling for a message, give [Undef Deadlock] when the fuel is used up, and
    their theorems name an amount from which on the result is there.  File offsets are below
    2^53, block numbers below 2^31, request sizes and offsets below 2^32, as
    the widths in the request line demand.

    ** Not modelled

    UCX itself and the creation of its contexts and workers; the FUSE front end
    (src/fuse/imss_fuse_api.c, imssfs.c), which is commented out of the build;
    functions that nobody calls (release_network_resources,
    stat_imss_info, get_dataloc, get_data_mall, set_data_mall, set_ndata,
    start_block_request in imss.c; imss_read_async in imss_posix_api.c;
    map_ep.cpp; the members of the maps in records.cpp outside the two handlers;
    the command-line parser of arg_parser.c); the metadata file of src/src/stat.cpp, which is
    written and read only by commented calls; the end of [main] in server.c,
    which joins the threads and releases what UCX holds; the text that is
    logged. *)

From Stdlib Require Export ZArith Lia Ascii.
From stdpp Require Export base gmap strings list fin_maps.

#[global] Set Default Goal Selector "!".
#[global] Open Scope Z_scope.

(** ** Outcomes of C code

    A C function returns, terminates the process ([exit]), or runs into
    behaviour the language leaves undefined. *)

Inductive undefined_behaviour :=
| DivByZero
| OutOfBounds
| UseAfterFree
| NullDeref
| Uninitialised
| SignedOverflow
| Deadlock.

#[global] Instance undefined_behaviour_eq_dec : EqDecision undefined_behaviour.
Proof. solve_decision. Defined.

Inductive outcome (A : Type) :=
| Ret (a : A)
| Exit (code : Z)
| Undef (why : undefined_behaviour).
Arguments Ret {A} a.
Arguments Exit {A} code.
Arguments Undef {A} why.

Definition obind {A B} (m : outcome A) (f : A -> outcome B) : outcome B :=
  match m with
  | Ret a => f a
  | Exit c => Exit c
  | Undef w => Undef w
  end.

Declare Scope outcome_scope.
Delimit Scope outcome_scope with outcome.
Notation "'let*' x ':=' m 'in' k" := (obind m (fun x => k))
  (at level 10, x pattern, m at level 100, k at level 200) : outcome_scope.
#[global] Open Scope outcome_scope.

(** [guard b w] is undefined behaviour [w] unless the access condition [b]
    holds. *)
Definition guard (b : bool) (w : undefined_behaviour) : outcome unit :=
  if b then Ret tt else Undef w.

(** [on_ret P m]: whatever [m] returns satisfies [P]. *)
Definition on_ret {A} (P : A -> Prop) (m : outcome A) : Prop :=
  match m with Ret a => P a | _ => True end.

Lemma on_ret_bind {A B} (P : B -> Prop) (m : outcome A) (f : A -> outcome B) :
  on_ret (fun a => on_ret P (f a)) m -> on_ret P (obind m f).
Proof. by destruct m. Qed.

Lemma on_ret_impl {A} (P Q : A -> Prop) (m : outcome A) :
  on_ret P m -> (forall a, m = Ret a -> P a -> Q a) -> on_ret Q m.
Proof. destruct m; simpl; auto. Qed.

Lemma obind_Ret {A C} (m : outcome A) (f : A -> outcome C) r : obind m f = Ret r -> exists x, m = Ret x /\ f x = Ret r.
Proof. destruct m; simpl; [eauto|done|done]. Qed.

Lemma on_ret_intro {A} (P : A -> Prop) (m : outcome A) : (forall a, m = Ret a -> P a) -> on_ret P m.
Proof. destruct m; simpl; auto. Qed.

(** ** Machine integers

    Values of a fixed-width C type are integers; each conversion to the type
    is written out. *)

Definition u8 (x : Z) : Z := x mod 2 ^ 8.
Definition u16 (x : Z) : Z := x mod 2 ^ 16.
Definition u32 (x : Z) : Z := x mod 2 ^ 32.
Definition u64 (x : Z) : Z := x mod 2 ^ 64.
Definition i32 (x : Z) : Z := (x + 2 ^ 31) mod 2 ^ 32 - 2 ^ 31.
Definition i64 (x : Z) : Z := (x + 2 ^ 63) mod 2 ^ 64 - 2 ^ 63.

Definition INT32_MAX : Z := 2 ^ 31 - 1.
Definition in_i32 (x : Z) : bool := (- 2 ^ 31 <=? x) && (x <? 2 ^ 31).

(** Signed [+] on [int]: overflow is undefined. *)
Definition add_i32 (x y : Z) : outcome Z :=
  if in_i32 (x + y) then Ret (x + y) else Undef SignedOverflow.

(** Signed [%] on [int] truncates towards zero. *)
Definition rem_i32 (x y : Z) : outcome Z :=
  if y =? 0 then Undef DivByZero else Ret (Z.rem x y).

Lemma u8_range x : 0 <= u8 x < 256.
Proof. apply Z.mod_pos_bound. lia. Qed.
Lemma u16_range x : 0 <= u16 x < 65536.
Proof. apply Z.mod_pos_bound. lia. Qed.
Lemma u32_range x : 0 <= u32 x < 2 ^ 32.
Proof. apply Z.mod_pos_bound. lia. Qed.
Lemma u64_range x : 0 <= u64 x < 2 ^ 64.
Proof. apply Z.mod_pos_bound. lia. Qed.

Lemma u16_small x : 0 <= x < 65536 -> u16 x = x.
Proof. intros. apply Z.mod_small. lia. Qed.
Lemma u32_small x : 0 <= x < 2 ^ 32 -> u32 x = x.
Proof. intros. by apply Z.mod_small. Qed.
Lemma u64_small x : 0 <= x < 2 ^ 64 -> u64 x = x.
Proof. intros. by apply Z.mod_small. Qed.
Lemma i32_small x : - 2 ^ 31 <= x < 2 ^ 31 -> i32 x = x.
Proof. intros. unfold i32. rewrite Z.mod_small; lia. Qed.
Lemma i64_small x : - 2 ^ 63 <= x < 2 ^ 63 -> i64 x = x.
Proof. intros. unfold i64. rewrite Z.mod_small; lia. Qed.

Lemma in_i32_spec x : in_i32 x = true <-> - 2 ^ 31 <= x < 2 ^ 31.
Proof. unfold in_i32. rewrite andb_true_iff, Z.leb_le, Z.ltb_lt. lia. Qed.

Lemma add_i32_ok x y : - 2 ^ 31 <= x + y < 2 ^ 31 -> add_i32 x y = Ret (x + y).
Proof. intros H. unfold add_i32. by apply in_i32_spec in H as ->. Qed.

Lemma rem_i32_pos x y : 0 <= x -> 0 < y -> rem_i32 x y = Ret (x mod y).
Proof.
  intros Hx Hy. unfold rem_i32.
  destruct (Z.eqb_spec y 0); [lia|]. by rewrite Z.rem_mod_nonneg by lia.
Qed.

(** ** C strings and byte buffers

    A NUL-terminated string is the list of the characters before its
    terminator. *)

Abbreviation bytes := (list ascii).

Definition B (s : string) : bytes := String.list_ascii_of_string s.
Arguments B !s /.

Definition byteZ (a : ascii) : Z := Z.of_N (N_of_ascii a).
Definition scharZ (a : ascii) : Z := if byteZ a <? 128 then byteZ a else byteZ a - 256.
Definition chr (n : Z) : ascii := ascii_of_N (Z.to_N n).

Definition strlen (s : bytes) : Z := Z.of_nat (length s).

Lemma byteZ_range a : 0 <= byteZ a < 256.
Proof.
  unfold byteZ. pose proof (N_ascii_bounded a). lia.
Qed.

Definition slash : ascii := "/"%char.
Definition dollar : ascii := "$"%char.
Definition comma : ascii := ","%char.

Definition ascii_eqb (a b : ascii) : bool := bool_decide (a = b).
Definition streq (a b : bytes) : bool := bool_decide (a = b).

(** [strncmp(p, s, strlen(p)) == 0]. *)
Fixpoint prefixb (p s : bytes) : bool :=
  match p, s with
  | [], _ => true
  | a :: p', b :: s' => ascii_eqb a b && prefixb p' s'
  | _ :: _, [] => false
  end.

(** [strncmp(a, b, n) == 0]: both strings agree on their first [n]
    characters, the terminator included. *)
Definition strneq (n : nat) (a b : bytes) : bool := bool_decide (take n a = take n b).

Definition last_is (c : ascii) (s : bytes) : bool :=
  match last s with Some d => ascii_eqb c d | None => false end.

Lemma ascii_eqb_true a b : ascii_eqb a b = true <-> a = b.
Proof. unfold ascii_eqb. by rewrite bool_decide_eq_true. Qed.
Lemma ascii_eqb_refl a : ascii_eqb a a = true.
Proof. by apply ascii_eqb_true. Qed.
Lemma ascii_eqb_false a b : ascii_eqb a b = false <-> a <> b.
Proof. unfold ascii_eqb. by rewrite bool_decide_eq_false. Qed.
Lemma streq_true a b : streq a b = true <-> a = b.
Proof. unfold streq. by rewrite bool_decide_eq_true. Qed.
Lemma streq_refl a : streq a a = true.
Proof. by apply streq_true. Qed.
Lemma streq_false a b : streq a b = false <-> a <> b.
Proof. unfold streq. by rewrite bool_decide_eq_false. Qed.

Lemma prefixb_spec p s : prefixb p s = true <-> exists t, s = p ++ t.
Proof.
  revert s. induction p as [|a p IH]; intros s; simpl.
  - split; eauto.
  - destruct s as [|b s]; [split; [done|by intros [??]]|].
    rewrite andb_true_iff, ascii_eqb_true, IH. split.
    + intros [-> [t ->]]. eauto.
    + intros [t [= -> ->]]. eauto.
Qed.

Lemma last_is_snoc c s d : last_is c (s ++ [d]) = ascii_eqb c d.
Proof. unfold last_is. by rewrite last_snoc. Qed.

(** [strchr]: position of the first occurrence. *)
Fixpoint strchr (c : ascii) (s : bytes) : option nat :=
  match s with
  | [] => None
  | a :: s' => if ascii_eqb a c then Some O else S <$> strchr c s'
  end.

(** [strrchr]: position of the last occurrence. *)
Fixpoint strrchr (c : ascii) (s : bytes) : option nat :=
  match s with
  | [] => None
  | a :: s' =>
      match strrchr c s' with
      | Some i => Some (S i)
      | None => if ascii_eqb a c then Some O else None
      end
  end.

Lemma strchr_None c s : strchr c s = None <-> c ∉ s.
Proof.
  induction s as [|a s IH]; simpl; [split; [|done]; intros _; apply not_elem_of_nil|].
  destruct (ascii_eqb a c) eqn:E.
  - apply ascii_eqb_true in E as ->. split; [done|]. set_solver.
  - apply ascii_eqb_false in E.
    rewrite fmap_None, IH. set_solver.
Qed.

Lemma strchr_app_first c u v : c ∉ u -> strchr c (u ++ c :: v) = Some (length u).
Proof.
  induction u as [|a u IH]; intros Hn; simpl.
  - by rewrite ascii_eqb_refl.
  - destruct (ascii_eqb a c) eqn:E.
    { apply ascii_eqb_true in E as ->. set_solver. }
    rewrite IH by set_solver. done.
Qed.

Lemma strchr_Some c s i :
  strchr c s = Some i -> s = take i s ++ c :: drop (S i) s /\ c ∉ take i s.
Proof.
  revert i. induction s as [|a s IH]; intros i; simpl; [done|].
  destruct (ascii_eqb a c) eqn:E.
  - intros [= <-]. apply ascii_eqb_true in E as ->. split; [done|]. apply not_elem_of_nil.
  - destruct (strchr c s) as [j|] eqn:Hj; [|done]. intros [= <-].
    destruct (IH j eq_refl) as [Hs Hn]. simpl. split; [by f_equal|].
    apply ascii_eqb_false in E.
    set_solver.
Qed.

Lemma strrchr_None c s : strrchr c s = None <-> c ∉ s.
Proof.
  induction s as [|a s IH]; simpl; [split; [|done]; intros _; apply not_elem_of_nil|].
  destruct (strrchr c s) eqn:Hs.
  - split; [done|]. intros Hn. assert (c ∉ s) as Hc by set_solver. by apply IH in Hc.
  - destruct (ascii_eqb a c) eqn:E.
    + apply ascii_eqb_true in E as ->. set_solver.
    + apply ascii_eqb_false in E.
      assert (c ∉ s) by by apply IH. set_solver.
Qed.

Lemma strrchr_app_last c u v : c ∉ v -> strrchr c (u ++ c :: v) = Some (length u).
Proof.
  intros Hv. induction u as [|a u IH]; simpl.
  - rewrite (proj2 (strrchr_None c v)) by done. by rewrite ascii_eqb_refl.
  - by rewrite IH.
Qed.

Lemma strrchr_Some c s i :
  strrchr c s = Some i -> s = take i s ++ c :: drop (S i) s /\ c ∉ drop (S i) s.
Proof.
  revert i. induction s as [|a s IH]; intros i; simpl; [done|].
  destruct (strrchr c s) as [j|] eqn:Hj.
  - intros [= <-]. destruct (IH j eq_refl) as [Hs Hn]. simpl. split; [by f_equal|done].
  - destruct (ascii_eqb a c) eqn:E; [|done]. intros [= <-].
    apply ascii_eqb_true in E as ->. split; [done|]. by apply strrchr_None.
Qed.

(** ** Buffers *)

(** The [n] bytes at offset [off] of a buffer, when they lie inside it. *)
Definition read_at (buf : bytes) (off n : Z) : outcome bytes :=
  if (0 <=? off) && (0 <=? n) && (off + n <=? strlen buf)
  then Ret (take (Z.to_nat n) (drop (Z.to_nat off) buf))
  else Undef OutOfBounds.

(** [memcpy(buf + off, src, strlen(src))] inside the buffer. *)
Definition write_at (buf : bytes) (off : Z) (src : bytes) : outcome bytes :=
  if (0 <=? off) && (off + strlen src <=? strlen buf)
  then Ret (take (Z.to_nat off) buf ++ src ++ drop (Z.to_nat off + length src) buf)
  else Undef OutOfBounds.

Lemma strlen_pos (p : bytes) : p <> [] -> 0 < strlen p.
Proof. unfold strlen. destruct p; [done|]. simpl. lia. Qed.

Lemma strlen_app (a b : bytes) : strlen (a ++ b) = strlen a + strlen b.
Proof. unfold strlen. rewrite length_app. lia. Qed.

Lemma strlen_nonneg (a : bytes) : 0 <= strlen a.
Proof. unfold strlen. lia. Qed.

Lemma take_eq_lookup (a b : bytes) n :
  (Z.to_nat n <= length a)%nat -> (Z.to_nat n <= length b)%nat ->
  (forall i, 0 <= i < n -> a !! Z.to_nat i = b !! Z.to_nat i) ->
  take (Z.to_nat n) a = take (Z.to_nat n) b.
Proof.
  intros Ha Hb Hi. apply list_eq. intros i. destruct (decide (i < Z.to_nat n)%nat).
  - rewrite !lookup_take_lt by done. specialize (Hi (Z.of_nat i)). rewrite Nat2Z.id in Hi. apply Hi. lia.
  - rewrite !lookup_take_ge by lia. done.
Qed.

Lemma write_at_length buf off src buf' :
  write_at buf off src = Ret buf' -> length buf' = length buf.
Proof.
  unfold write_at, strlen. case_match eqn:H; [|done]. intros [= <-].
  apply andb_true_iff in H as [H1%Z.leb_le H2%Z.leb_le].
  rewrite !length_app, length_take, length_drop. lia.
Qed.

Lemma write_at_lookup buf off src buf' i :
  write_at buf off src = Ret buf' ->
  buf' !! i = if decide (Z.to_nat off <= i < Z.to_nat off + length src)%nat
              then src !! (i - Z.to_nat off)%nat else buf !! i.
Proof.
  unfold write_at, strlen. case_match eqn:H; [|done]. intros [= <-].
  apply andb_true_iff in H as [H1%Z.leb_le H2%Z.leb_le].
  assert (length (take (Z.to_nat off) buf) = Z.to_nat off) as Ht by (rewrite length_take; lia).
  case_decide as Hd.
  - rewrite lookup_app_r by lia. rewrite lookup_app_l by lia. by rewrite Ht.
  - destruct (decide (i < Z.to_nat off)%nat) as [Hlt|Hge].
    + rewrite lookup_app_l by lia. by rewrite lookup_take_lt by lia.
    + rewrite lookup_app_r, lookup_app_r by lia. rewrite lookup_drop. f_equal. lia.
Qed.

Lemma read_at_lookup buf off n out i :
  read_at buf off n = Ret out -> (i < Z.to_nat n)%nat ->
  out !! i = buf !! (Z.to_nat off + i)%nat.
Proof.
  unfold read_at. case_match; [|done]. intros [= <-] Hi.
  by rewrite lookup_take_lt, lookup_drop by lia.
Qed.

Lemma read_at_length buf off n out :
  read_at buf off n = Ret out -> strlen out = n.
Proof.
  unfold read_at, strlen. case_match eqn:H; [|done]. intros [= <-].
  rewrite !andb_true_iff, !Z.leb_le in H. rewrite length_take, length_drop. lia.
Qed.

(** ** Decimal conversions of [sprintf] and [sscanf] *)

Definition digit (d : Z) : ascii := chr (48 + d).
Definition is_digit (a : ascii) : bool := (48 <=? byteZ a) && (byteZ a <=? 57).

(** [isspace] of the C locale. *)
Definition isspace (a : ascii) : bool :=
  (byteZ a =? 32) || ((9 <=? byteZ a) && (byteZ a <=? 13)).

Fixpoint digits (fuel : nat) (n : Z) : list Z :=
  match fuel with
  | O => []
  | S f => (if n <? 10 then [] else digits f (n / 10)) ++ [n mod 10]
  end.

(** Twenty digits print every 64-bit value. *)
Definition print_u (n : Z) : bytes := digit <$> digits 20 n.
Definition print_d (n : Z) : bytes :=
  if n <? 0 then "-"%char :: print_u (- n) else print_u n.

Fixpoint scan_digits (k : Z) (s : bytes) : Z * bytes :=
  match s with
  | a :: s' => if is_digit a then scan_digits (k * 10 + (byteZ a - 48)) s' else (k, s)
  | [] => (k, [])
  end.

Fixpoint skip_space (s : bytes) : bytes :=
  match s with
  | a :: s' => if isspace a then skip_space s' else s
  | [] => []
  end.

(** The [%s] conversion: the word up to the next white space. *)
Fixpoint scan_word (s : bytes) : bytes * bytes :=
  match s with
  | a :: s' => if isspace a then ([], s) else let '(w, r) := scan_word s' in (a :: w, r)
  | [] => ([], [])
  end.

(** [%s], [%u]/[%lu] and [%d]: [None] is a matching failure. *)
Definition scan_s (s : bytes) : option (bytes * bytes) :=
  match skip_space s with
  | [] => None
  | s' => Some (scan_word s')
  end.

Definition scan_u (s : bytes) : option (Z * bytes) :=
  match skip_space s with
  | a :: s' => if is_digit a then Some (scan_digits 0 (a :: s')) else None
  | [] => None
  end.

Definition scan_d (s : bytes) : option (Z * bytes) :=
  match skip_space s with
  | a :: s' =>
      if ascii_eqb a "-"%char || ascii_eqb a "+"%char
      then match scan_u s' with
           | Some (n, r) => if match s' with b :: _ => is_digit b | [] => false end
                            then Some (if ascii_eqb a "-"%char then - n else n, r) else None
           | None => None
           end
      else scan_u (a :: s')
  | [] => None
  end.

Lemma byteZ_digit d : 0 <= d < 10 -> byteZ (digit d) = 48 + d.
Proof.
  intros H. unfold byteZ, digit, chr. rewrite N_ascii_embedding by lia. lia.
Qed.

Lemma is_digit_digit d : 0 <= d < 10 -> is_digit (digit d) = true.
Proof.
  intros H. unfold is_digit. rewrite byteZ_digit by done.
  apply andb_true_iff. rewrite !Z.leb_le. lia.
Qed.

Lemma isspace_digit d : 0 <= d < 10 -> isspace (digit d) = false.
Proof.
  intros H. unfold isspace. rewrite byteZ_digit by done.
  apply orb_false_iff. rewrite andb_false_iff, Z.eqb_neq, !Z.leb_gt. lia.
Qed.

Lemma digits_range fuel n : 0 <= n -> Forall (fun d => 0 <= d < 10) (digits fuel n).
Proof.
  revert n. induction fuel as [|f IH]; intros n Hn; simpl; [constructor|].
  apply Forall_app; split.
  - case_match; [constructor|]. apply IH. apply Z.div_pos; lia.
  - constructor; [apply Z.mod_pos_bound; lia|constructor].
Qed.

Lemma digits_value fuel n :
  0 <= n < 10 ^ Z.of_nat fuel ->
  fold_left (fun a d => a * 10 + d) (digits fuel n) 0 = n.
Proof.
  revert n. induction fuel as [|f IH]; intros n Hn; simpl; [change (10 ^ Z.of_nat 0) with 1 in Hn; lia|].
  rewrite fold_left_app. simpl.
  destruct (Z.ltb_spec n 10).
  - simpl. rewrite Z.mod_small; lia.
  - rewrite IH.
    + pose proof (Z.div_mod n 10). lia.
    + rewrite Nat2Z.inj_succ, Z.pow_succ_r in Hn by lia. split.
      * apply Z.div_pos; lia.
      * apply Z.div_lt_upper_bound; lia.
Qed.

Lemma scan_digits_list ds k rest :
  Forall (fun d => 0 <= d < 10) ds ->
  match rest with a :: _ => is_digit a = false | [] => True end ->
  scan_digits k ((digit <$> ds) ++ rest) = (fold_left (fun a d => a * 10 + d) ds k, rest).
Proof.
  intros Hds Hr. revert k. induction Hds as [|d ds Hd Hds IH]; intros k; simpl.
  - destruct rest as [|a r]; simpl; [done|]. by rewrite Hr.
  - rewrite is_digit_digit, byteZ_digit by done. rewrite IH. do 2 f_equal. lia.
Qed.

Lemma digits_nonempty fuel n : exists d ds, digits (S fuel) n = d :: ds.
Proof. simpl. case_match; simpl; eauto. destruct (digits fuel (n / 10)); simpl; eauto. Qed.

(** Printing then scanning an unsigned value gives it back. *)
Lemma scan_u_print n rest :
  0 <= n < 2 ^ 64 ->
  match rest with a :: _ => is_digit a = false | [] => True end ->
  scan_u (print_u n ++ rest) = Some (n, rest).
Proof.
  intros Hn Hr. pose proof (scan_digits_list (digits 20 n) 0 rest) as Hs.
  rewrite digits_value in Hs by lia.
  specialize (Hs (digits_range 20 n ltac:(lia)) Hr).
  pose proof (digits_range 20 n ltac:(lia)) as Hf.
  unfold scan_u, print_u. destruct (digits_nonempty 19 n) as (d & ds & Hd).
  rewrite Hd in *. apply Forall_cons in Hf as [Hd0 _]. simpl in *.
  rewrite isspace_digit, is_digit_digit by done.
  rewrite is_digit_digit in Hs by done. by rewrite Hs.
Qed.

Lemma skip_space_space s : skip_space (" "%char :: s) = skip_space s.
Proof. done. Qed.

Lemma print_u_no c n : is_digit c = false -> 0 <= n -> c ∉ print_u n.
Proof.
  intros Hc Hn Hin. unfold print_u in Hin. apply list_elem_of_fmap in Hin as (d & -> & Hd).
  pose proof (digits_range 20 n Hn) as Hf. rewrite Forall_forall in Hf.
  rewrite is_digit_digit in Hc by (apply Hf; done). done.
Qed.

Lemma scan_word_app w r :
  Forall (fun a => isspace a = false) w ->
  match r with a :: _ => isspace a = true | [] => True end ->
  scan_word (w ++ r) = (w, r).
Proof.
  intros Hw Hr. induction Hw as [|a w Ha Hw IH]; simpl.
  - destruct r as [|a r]; simpl; [done|]. by rewrite Hr.
  - by rewrite Ha, IH.
Qed.

Lemma scan_s_word w r :
  w <> [] -> Forall (fun a => isspace a = false) w ->
  match r with a :: _ => isspace a = true | [] => True end ->
  scan_s (w ++ r) = Some (w, r).
Proof.
  intros Hne Hw Hr. unfold scan_s. destruct w as [|a w]; [done|].
  pose proof Hw as Hw'. apply Forall_cons in Hw' as [Ha _].
  simpl. rewrite Ha. f_equal. by apply (scan_word_app (a :: w) r).
Qed.

Lemma print_u_nospace n : 0 <= n -> Forall (fun a => isspace a = false) (print_u n).
Proof.
  intros Hn. unfold print_u. apply Forall_fmap. eapply Forall_impl; [by apply digits_range|].
  intros d Hd. by apply isspace_digit.
Qed.

Lemma print_u_inj n m : 0 <= n < 2 ^ 64 -> 0 <= m < 2 ^ 64 -> print_u n = print_u m -> n = m.
Proof.
  intros Hn Hm E. pose proof (scan_u_print n [] Hn I) as H1.
  pose proof (scan_u_print m [] Hm I) as H2. rewrite E, H2 in H1. by injection H1.
Qed.

(** ** Automation *)

Create HintDb hercules.
Create Rewrite HintDb booldb.
#[export] Hint Resolve u8_range u16_range u32_range u64_range byteZ_range streq_refl
  ascii_eqb_refl : hercules.
#[export] Hint Rewrite streq_true streq_false ascii_eqb_true ascii_eqb_false andb_true_iff
  orb_true_iff negb_true_iff andb_false_iff orb_false_iff negb_false_iff Z.eqb_eq Z.eqb_neq
  Z.leb_le Z.leb_gt Z.ltb_lt Z.ltb_ge : booldb.

(** Turns the boolean tests among the hypotheses into propositions. *)
Ltac btests :=
  repeat match goal with
         | H : _ = true |- _ => progress (autorewrite with booldb in H)
         | H : _ = false |- _ => progress (autorewrite with booldb in H)
         end.

(** Splits on the tests of the goal, keeping arithmetic facts. *)
Ltac csplit :=
  repeat match goal with
         | |- context [if ?b then _ else _] =>
             lazymatch type of b with bool => destruct b eqn:? end
         end; btests.

(** Inverts a computation known to return. *)
Ltac ret_inv H :=
  repeat match type of H with
         | obind ?m _ = Ret _ => destruct m eqn:?; simpl in H; [|discriminate H|discriminate H]
         | Ret _ = Ret _ => injection H as H; subst
         | (if ?b then _ else _) = Ret _ =>
             lazymatch type of b with bool => destruct b eqn:?; try discriminate H end
         end.
