(* ===== verification/Types.v ===== *)
(** * Shared data types

    The structures of [include/imss.h], the part of [struct stat] the code
    reads and writes, and the constants of [include/workers.h] and
    [include/policies.h] that components exchange. *)

From S2P Require Import Prelude.

(** Limits of [include/imss.h] and [include/comms.h]. *)
Definition URI_ : Z := 256.
Definition MODE_SIZE : Z := 24.
Definition REQUEST_SIZE : Z := 1024.
Definition PATH_MAX : Z := 4096.

(** The root every Hercules URI starts with. *)
Definition IMSS_ROOT : bytes := B "imss://".
Definition IMSS_ROOT_LEN : nat := 7.

(** Policy numbers of [include/policies.h]. *)
Definition ROUND_ROBIN_ : Z := 0.
Definition BUCKETS_ : Z := 1.
Definition HASHED_ : Z := 2.
Definition CRC16_ : Z := 3.
Definition CRC64_ : Z := 4.
Definition LOCAL_ : Z := 5.
Definition ZCOPY_ : Z := 6.

(** Operation kinds of [include/policies.h]. *)
Definition GET : Z := 6.
Definition SET : Z := 7.

(** [IntervalEntry]: blocks [left_interval..right_interval] were written
    while [value] servers were active. *)
Record IntervalEntry := mkInterval {
  value : Z;
  left_interval : Z;
  right_interval : Z
}.

#[global] Instance IntervalEntry_eq_dec : EqDecision IntervalEntry.
Proof. solve_decision. Defined.

(** [dataset_info]. [dsize] is the field [size]; [intervals] is [None] when the
    pointer is NULL and otherwise the allocated array of pointers. *)
Record dataset_info := mkDataset {
  uri_ : bytes;
  type_ : ascii;
  policy : bytes;
  original_name : bytes;
  first_parent_dir : bytes;
  session_plcy : Z;
  num_data_elem : Z;
  data_entity_size : Z;
  repl_factor : Z;
  repl_type : Z;
  imss_d : Z;
  local_conn : Z;
  dsize : Z;
  n_servers : Z;
  link : bytes;
  is_link : Z;
  n_open : Z;
  status : bytes;
  n_servers_when_created : Z;
  num_intervals : Z;
  capacity : Z;
  first_block_id : Z;
  last_block_id : Z;
  intervals : option (list (option IntervalEntry))
}.

#[global] Instance dataset_info_eq_dec : EqDecision dataset_info.
Proof. solve_decision. Defined.

Definition set_session_plcy (p : Z) (d : dataset_info) : dataset_info :=
  mkDataset (uri_ d) (type_ d) (policy d) (original_name d) (first_parent_dir d) p
    (num_data_elem d) (data_entity_size d) (repl_factor d) (repl_type d) (imss_d d)
    (local_conn d) (dsize d) (n_servers d) (link d) (is_link d) (n_open d) (status d)
    (n_servers_when_created d) (num_intervals d) (capacity d) (first_block_id d)
    (last_block_id d) (intervals d).

Definition set_block_ids (fst_ lst_ : Z) (d : dataset_info) : dataset_info :=
  mkDataset (uri_ d) (type_ d) (policy d) (original_name d) (first_parent_dir d) (session_plcy d)
    (num_data_elem d) (data_entity_size d) (repl_factor d) (repl_type d) (imss_d d)
    (local_conn d) (dsize d) (n_servers d) (link d) (is_link d) (n_open d) (status d)
    (n_servers_when_created d) (num_intervals d) (capacity d) fst_ lst_ (intervals d).

Definition set_intervals (n : Z) (iv : option (list (option IntervalEntry))) (d : dataset_info) : dataset_info :=
  mkDataset (uri_ d) (type_ d) (policy d) (original_name d) (first_parent_dir d) (session_plcy d)
    (num_data_elem d) (data_entity_size d) (repl_factor d) (repl_type d) (imss_d d)
    (local_conn d) (dsize d) (n_servers d) (link d) (is_link d) (n_open d) (status d)
    (n_servers_when_created d) n (capacity d) (first_block_id d) (last_block_id d) iv.

Definition set_uri (u : bytes) (d : dataset_info) : dataset_info :=
  mkDataset u (type_ d) (policy d) (original_name d) (first_parent_dir d) (session_plcy d)
    (num_data_elem d) (data_entity_size d) (repl_factor d) (repl_type d) (imss_d d)
    (local_conn d) (dsize d) (n_servers d) (link d) (is_link d) (n_open d) (status d)
    (n_servers_when_created d) (num_intervals d) (capacity d) (first_block_id d)
    (last_block_id d) (intervals d).

Definition set_n_open (n : Z) (d : dataset_info) : dataset_info :=
  mkDataset (uri_ d) (type_ d) (policy d) (original_name d) (first_parent_dir d) (session_plcy d)
    (num_data_elem d) (data_entity_size d) (repl_factor d) (repl_type d) (imss_d d)
    (local_conn d) (dsize d) (n_servers d) (link d) (is_link d) n (status d)
    (n_servers_when_created d) (num_intervals d) (capacity d) (first_block_id d)
    (last_block_id d) (intervals d).

Definition set_status (st : bytes) (d : dataset_info) : dataset_info :=
  mkDataset (uri_ d) (type_ d) (policy d) (original_name d) (first_parent_dir d) (session_plcy d)
    (num_data_elem d) (data_entity_size d) (repl_factor d) (repl_type d) (imss_d d)
    (local_conn d) (dsize d) (n_servers d) (link d) (is_link d) (n_open d) st
    (n_servers_when_created d) (num_intervals d) (capacity d) (first_block_id d)
    (last_block_id d) (intervals d).

Definition set_connection (im conn : Z) (d : dataset_info) : dataset_info :=
  mkDataset (uri_ d) (type_ d) (policy d) (original_name d) (first_parent_dir d) (session_plcy d)
    (num_data_elem d) (data_entity_size d) (repl_factor d) (repl_type d) im conn
    (dsize d) (n_servers d) (link d) (is_link d) (n_open d) (status d)
    (n_servers_when_created d) (num_intervals d) (capacity d) (first_block_id d)
    (last_block_id d) (intervals d).

(** [imss_info]: what a client or the metadata server knows of an instance;
    [imss_type] and [imss_session_plcy] are the fields [type] and
    [session_plcy]. *)
Record imss_info := mkImss {
  imss_uri : bytes;
  imss_type : ascii;
  ips : list bytes;
  num_active_storages : Z;
  num_storages : Z;
  imss_session_plcy : Z;
  conn_port : Z
}.

#[global] Instance imss_info_eq_dec : EqDecision imss_info.
Proof. solve_decision. Defined.

(** Sizes of arrays and types of include/imss.h and include/comms.h. *)
Definition MAX_POLICY_LEN : Z := 16.
Definition LINE_LENGTH : Z := 512.
Definition MAX_NUM_INTERVALS : Z := 100.
Definition TYPE_HERCULES_INSTANCE : ascii := "I"%char.
Definition TYPE_REGULAR_FILE : ascii := "R"%char.
Definition TYPE_DIRECTORY : ascii := "D"%char.
Definition STATUS_ATACH : bytes := B "ATTACH".
Definition STATUS_DEST : bytes := B "DEST".
Definition STATUS_DIRTY : bytes := B "DIRTY".

(** [struct stat], the content of block 0 of a file; each [timespec] as
    seconds and nanoseconds. *)
Record stat := mkAttr {
  st_dev : Z;
  st_ino : Z;
  st_nlink : Z;
  st_mode : Z;
  st_uid : Z;
  st_gid : Z;
  st_rdev : Z;
  st_size : Z;
  st_blksize : Z;
  st_blocks : Z;
  st_atim : Z * Z;
  st_mtim : Z * Z;
  st_ctim : Z * Z
}.

(** Zeroed except for the given fields. *)
Definition mkStat (size blocks nlink mode : Z) : stat :=
  mkAttr 0 0 nlink mode 0 0 0 size 0 blocks (0, 0) (0, 0) (0, 0).

Definition set_size (size blocks : Z) (st : stat) : stat :=
  mkAttr (st_dev st) (st_ino st) (st_nlink st) (st_mode st) (st_uid st) (st_gid st) (st_rdev st) size
    (st_blksize st) blocks (st_atim st) (st_mtim st) (st_ctim st).
Definition set_link_mode (nlink mode : Z) (st : stat) : stat :=
  mkAttr (st_dev st) (st_ino st) nlink mode (st_uid st) (st_gid st) (st_rdev st) (st_size st)
    (st_blksize st) (st_blocks st) (st_atim st) (st_mtim st) (st_ctim st).
Definition set_owner (uid gid : Z) (st : stat) : stat :=
  mkAttr (st_dev st) (st_ino st) (st_nlink st) (st_mode st) uid gid (st_rdev st) (st_size st)
    (st_blksize st) (st_blocks st) (st_atim st) (st_mtim st) (st_ctim st).
Definition set_times (m c : Z * Z) (st : stat) : stat :=
  mkAttr (st_dev st) (st_ino st) (st_nlink st) (st_mode st) (st_uid st) (st_gid st) (st_rdev st) (st_size st)
    (st_blksize st) (st_blocks st) (st_atim st) m c.

#[global] Instance stat_eq_dec : EqDecision stat.
Proof. solve_decision. Defined.

(** [sizeof(struct stat)] on the supported 64-bit Linux targets. *)
Definition sizeof_stat : Z := 144.
