(* ===== verification/Crc.v ===== *)
(** * CRC checksums

    The table-driven CRC-16 and CRC-64 of [src/crc.c], which place files and
    directories on servers, and their equivalence with the bit-by-bit
    polynomial divisions the tables abbreviate. *)

From S2P Require Import Prelude.

(** ** Tables *)

Definition crc16tab : list Z :=
  [0x0000; 0x1021; 0x2042; 0x3063; 0x4084; 0x50a5; 0x60c6; 0x70e7;
   0x8108; 0x9129; 0xa14a; 0xb16b; 0xc18c; 0xd1ad; 0xe1ce; 0xf1ef;
   0x1231; 0x0210; 0x3273; 0x2252; 0x52b5; 0x4294; 0x72f7; 0x62d6;
   0x9339; 0x8318; 0xb37b; 0xa35a; 0xd3bd; 0xc39c; 0xf3ff; 0xe3de;
   0x2462; 0x3443; 0x0420; 0x1401; 0x64e6; 0x74c7; 0x44a4; 0x5485;
   0xa56a; 0xb54b; 0x8528; 0x9509; 0xe5ee; 0xf5cf; 0xc5ac; 0xd58d;
   0x3653; 0x2672; 0x1611; 0x0630; 0x76d7; 0x66f6; 0x5695; 0x46b4;
   0xb75b; 0xa77a; 0x9719; 0x8738; 0xf7df; 0xe7fe; 0xd79d; 0xc7bc;
   0x48c4; 0x58e5; 0x6886; 0x78a7; 0x0840; 0x1861; 0x2802; 0x3823;
   0xc9cc; 0xd9ed; 0xe98e; 0xf9af; 0x8948; 0x9969; 0xa90a; 0xb92b;
   0x5af5; 0x4ad4; 0x7ab7; 0x6a96; 0x1a71; 0x0a50; 0x3a33; 0x2a12;
   0xdbfd; 0xcbdc; 0xfbbf; 0xeb9e; 0x9b79; 0x8b58; 0xbb3b; 0xab1a;
   0x6ca6; 0x7c87; 0x4ce4; 0x5cc5; 0x2c22; 0x3c03; 0x0c60; 0x1c41;
   0xedae; 0xfd8f; 0xcdec; 0xddcd; 0xad2a; 0xbd0b; 0x8d68; 0x9d49;
   0x7e97; 0x6eb6; 0x5ed5; 0x4ef4; 0x3e13; 0x2e32; 0x1e51; 0x0e70;
   0xff9f; 0xefbe; 0xdfdd; 0xcffc; 0xbf1b; 0xaf3a; 0x9f59; 0x8f78;
   0x9188; 0x81a9; 0xb1ca; 0xa1eb; 0xd10c; 0xc12d; 0xf14e; 0xe16f;
   0x1080; 0x00a1; 0x30c2; 0x20e3; 0x5004; 0x4025; 0x7046; 0x6067;
   0x83b9; 0x9398; 0xa3fb; 0xb3da; 0xc33d; 0xd31c; 0xe37f; 0xf35e;
   0x02b1; 0x1290; 0x22f3; 0x32d2; 0x4235; 0x5214; 0x6277; 0x7256;
   0xb5ea; 0xa5cb; 0x95a8; 0x8589; 0xf56e; 0xe54f; 0xd52c; 0xc50d;
   0x34e2; 0x24c3; 0x14a0; 0x0481; 0x7466; 0x6447; 0x5424; 0x4405;
   0xa7db; 0xb7fa; 0x8799; 0x97b8; 0xe75f; 0xf77e; 0xc71d; 0xd73c;
   0x26d3; 0x36f2; 0x0691; 0x16b0; 0x6657; 0x7676; 0x4615; 0x5634;
   0xd94c; 0xc96d; 0xf90e; 0xe92f; 0x99c8; 0x89e9; 0xb98a; 0xa9ab;
   0x5844; 0x4865; 0x7806; 0x6827; 0x18c0; 0x08e1; 0x3882; 0x28a3;
   0xcb7d; 0xdb5c; 0xeb3f; 0xfb1e; 0x8bf9; 0x9bd8; 0xabbb; 0xbb9a;
   0x4a75; 0x5a54; 0x6a37; 0x7a16; 0x0af1; 0x1ad0; 0x2ab3; 0x3a92;
   0xfd2e; 0xed0f; 0xdd6c; 0xcd4d; 0xbdaa; 0xad8b; 0x9de8; 0x8dc9;
   0x7c26; 0x6c07; 0x5c64; 0x4c45; 0x3ca2; 0x2c83; 0x1ce0; 0x0cc1;
   0xef1f; 0xff3e; 0xcf5d; 0xdf7c; 0xaf9b; 0xbfba; 0x8fd9; 0x9ff8;
   0x6e17; 0x7e36; 0x4e55; 0x5e74; 0x2e93; 0x3eb2; 0x0ed1; 0x1ef0].

Definition crc64_tab : list Z :=
  [0x0000000000000000; 0x7ad870c830358979; 0xf5b0e190606b12f2;
   0x8f689158505e9b8b; 0xc038e5739841b68f; 0xbae095bba8743ff6;
   0x358804e3f82aa47d; 0x4f50742bc81f2d04; 0xab28ecb46814fe75;
   0xd1f09c7c5821770c; 0x5e980d24087fec87; 0x24407dec384a65fe;
   0x6b1009c7f05548fa; 0x11c8790fc060c183; 0x9ea0e857903e5a08;
   0xe478989fa00bd371; 0x7d08ff3b88be6f81; 0x07d08ff3b88be6f8;
   0x88b81eabe8d57d73; 0xf2606e63d8e0f40a; 0xbd301a4810ffd90e;
   0xc7e86a8020ca5077; 0x4880fbd87094cbfc; 0x32588b1040a14285;
   0xd620138fe0aa91f4; 0xacf86347d09f188d; 0x2390f21f80c18306;
   0x594882d7b0f40a7f; 0x1618f6fc78eb277b; 0x6cc0863448deae02;
   0xe3a8176c18803589; 0x997067a428b5bcf0; 0xfa11fe77117cdf02;
   0x80c98ebf2149567b; 0x0fa11fe77117cdf0; 0x75796f2f41224489;
   0x3a291b04893d698d; 0x40f16bccb908e0f4; 0xcf99fa94e9567b7f;
   0xb5418a5cd963f206; 0x513912c379682177; 0x2be1620b495da80e;
   0xa489f35319033385; 0xde51839b2936bafc; 0x9101f7b0e12997f8;
   0xebd98778d11c1e81; 0x64b116208142850a; 0x1e6966e8b1770c73;
   0x8719014c99c2b083; 0xfdc17184a9f739fa; 0x72a9e0dcf9a9a271;
   0x08719014c99c2b08; 0x4721e43f0183060c; 0x3df994f731b68f75;
   0xb29105af61e814fe; 0xc849756751dd9d87; 0x2c31edf8f1d64ef6;
   0x56e99d30c1e3c78f; 0xd9810c6891bd5c04; 0xa3597ca0a188d57d;
   0xec09088b6997f879; 0x96d1784359a27100; 0x19b9e91b09fcea8b;
   0x636199d339c963f2; 0xdf7adabd7a6e2d6f; 0xa5a2aa754a5ba416;
   0x2aca3b2d1a053f9d; 0x50124be52a30b6e4; 0x1f423fcee22f9be0;
   0x659a4f06d21a1299; 0xeaf2de5e82448912; 0x902aae96b271006b;
   0x74523609127ad31a; 0x0e8a46c1224f5a63; 0x81e2d7997211c1e8;
   0xfb3aa75142244891; 0xb46ad37a8a3b6595; 0xceb2a3b2ba0eecec;
   0x41da32eaea507767; 0x3b024222da65fe1e; 0xa2722586f2d042ee;
   0xd8aa554ec2e5cb97; 0x57c2c41692bb501c; 0x2d1ab4dea28ed965;
   0x624ac0f56a91f461; 0x1892b03d5aa47d18; 0x97fa21650afae693;
   0xed2251ad3acf6fea; 0x095ac9329ac4bc9b; 0x7382b9faaaf135e2;
   0xfcea28a2faafae69; 0x8632586aca9a2710; 0xc9622c4102850a14;
   0xb3ba5c8932b0836d; 0x3cd2cdd162ee18e6; 0x460abd1952db919f;
   0x256b24ca6b12f26d; 0x5fb354025b277b14; 0xd0dbc55a0b79e09f;
   0xaa03b5923b4c69e6; 0xe553c1b9f35344e2; 0x9f8bb171c366cd9b;
   0x10e3202993385610; 0x6a3b50e1a30ddf69; 0x8e43c87e03060c18;
   0xf49bb8b633338561; 0x7bf329ee636d1eea; 0x012b592653589793;
   0x4e7b2d0d9b47ba97; 0x34a35dc5ab7233ee; 0xbbcbcc9dfb2ca865;
   0xc113bc55cb19211c; 0x5863dbf1e3ac9dec; 0x22bbab39d3991495;
   0xadd33a6183c78f1e; 0xd70b4aa9b3f20667; 0x985b3e827bed2b63;
   0xe2834e4a4bd8a21a; 0x6debdf121b863991; 0x1733afda2bb3b0e8;
   0xf34b37458bb86399; 0x8993478dbb8deae0; 0x06fbd6d5ebd3716b;
   0x7c23a61ddbe6f812; 0x3373d23613f9d516; 0x49aba2fe23cc5c6f;
   0xc6c333a67392c7e4; 0xbc1b436e43a74e9d; 0x95ac9329ac4bc9b5;
   0xef74e3e19c7e40cc; 0x601c72b9cc20db47; 0x1ac40271fc15523e;
   0x5594765a340a7f3a; 0x2f4c0692043ff643; 0xa02497ca54616dc8;
   0xdafce7026454e4b1; 0x3e847f9dc45f37c0; 0x445c0f55f46abeb9;
   0xcb349e0da4342532; 0xb1eceec59401ac4b; 0xfebc9aee5c1e814f;
   0x8464ea266c2b0836; 0x0b0c7b7e3c7593bd; 0x71d40bb60c401ac4;
   0xe8a46c1224f5a634; 0x927c1cda14c02f4d; 0x1d148d82449eb4c6;
   0x67ccfd4a74ab3dbf; 0x289c8961bcb410bb; 0x5244f9a98c8199c2;
   0xdd2c68f1dcdf0249; 0xa7f41839ecea8b30; 0x438c80a64ce15841;
   0x3954f06e7cd4d138; 0xb63c61362c8a4ab3; 0xcce411fe1cbfc3ca;
   0x83b465d5d4a0eece; 0xf96c151de49567b7; 0x76048445b4cbfc3c;
   0x0cdcf48d84fe7545; 0x6fbd6d5ebd3716b7; 0x15651d968d029fce;
   0x9a0d8ccedd5c0445; 0xe0d5fc06ed698d3c; 0xaf85882d2576a038;
   0xd55df8e515432941; 0x5a3569bd451db2ca; 0x20ed197575283bb3;
   0xc49581ead523e8c2; 0xbe4df122e51661bb; 0x3125607ab548fa30;
   0x4bfd10b2857d7349; 0x04ad64994d625e4d; 0x7e7514517d57d734;
   0xf11d85092d094cbf; 0x8bc5f5c11d3cc5c6; 0x12b5926535897936;
   0x686de2ad05bcf04f; 0xe70573f555e26bc4; 0x9ddd033d65d7e2bd;
   0xd28d7716adc8cfb9; 0xa85507de9dfd46c0; 0x273d9686cda3dd4b;
   0x5de5e64efd965432; 0xb99d7ed15d9d8743; 0xc3450e196da80e3a;
   0x4c2d9f413df695b1; 0x36f5ef890dc31cc8; 0x79a59ba2c5dc31cc;
   0x037deb6af5e9b8b5; 0x8c157a32a5b7233e; 0xf6cd0afa9582aa47;
   0x4ad64994d625e4da; 0x300e395ce6106da3; 0xbf66a804b64ef628;
   0xc5bed8cc867b7f51; 0x8aeeace74e645255; 0xf036dc2f7e51db2c;
   0x7f5e4d772e0f40a7; 0x05863dbf1e3ac9de; 0xe1fea520be311aaf;
   0x9b26d5e88e0493d6; 0x144e44b0de5a085d; 0x6e963478ee6f8124;
   0x21c640532670ac20; 0x5b1e309b16452559; 0xd476a1c3461bbed2;
   0xaeaed10b762e37ab; 0x37deb6af5e9b8b5b; 0x4d06c6676eae0222;
   0xc26e573f3ef099a9; 0xb8b627f70ec510d0; 0xf7e653dcc6da3dd4;
   0x8d3e2314f6efb4ad; 0x0256b24ca6b12f26; 0x788ec2849684a65f;
   0x9cf65a1b368f752e; 0xe62e2ad306bafc57; 0x6946bb8b56e467dc;
   0x139ecb4366d1eea5; 0x5ccebf68aecec3a1; 0x2616cfa09efb4ad8;
   0xa97e5ef8cea5d153; 0xd3a62e30fe90582a; 0xb0c7b7e3c7593bd8;
   0xca1fc72bf76cb2a1; 0x45775673a732292a; 0x3faf26bb9707a053;
   0x70ff52905f188d57; 0x0a2722586f2d042e; 0x854fb3003f739fa5;
   0xff97c3c80f4616dc; 0x1bef5b57af4dc5ad; 0x61372b9f9f784cd4;
   0xee5fbac7cf26d75f; 0x9487ca0fff135e26; 0xdbd7be24370c7322;
   0xa10fceec0739fa5b; 0x2e675fb4576761d0; 0x54bf2f7c6752e8a9;
   0xcdcf48d84fe75459; 0xb71738107fd2dd20; 0x387fa9482f8c46ab;
   0x42a7d9801fb9cfd2; 0x0df7adabd7a6e2d6; 0x772fdd63e7936baf;
   0xf8474c3bb7cdf024; 0x829f3cf387f8795d; 0x66e7a46c27f3aa2c;
   0x1c3fd4a417c62355; 0x935745fc4798b8de; 0xe98f353477ad31a7;
   0xa6df411fbfb21ca3; 0xdc0731d78f8795da; 0x536fa08fdfd90e51;
   0x29b7d047efec8728].

(** ** The loops of [crc.c] *)

(** One iteration of [crc16]: [crc<<8] is computed in [int] and stored in a
    [uint16_t]; [*buf] is a (signed) [char]. *)
Definition crc16_step (crc : Z) (b : ascii) : Z :=
  let ix := Z.land (Z.lxor (Z.shiftr crc 8) (scharZ b)) 0x00FF in
  u16 (Z.lxor (Z.shiftl crc 8) (nth (Z.to_nat ix) crc16tab 0)).

Definition crc16 (buf : bytes) : Z := fold_left crc16_step buf 0.

(** One iteration of [crc64]. *)
Definition crc64_step (crc : Z) (b : ascii) : Z :=
  let byte := byteZ b in
  Z.lxor (nth (Z.to_nat (Z.lxor (u8 crc) byte)) crc64_tab 0) (Z.shiftr crc 8).

Definition crc64 (crc : Z) (s : bytes) : Z := fold_left crc64_step s crc.

(** ** Reference definitions: polynomial division, one bit at a time *)

(** x^16 + x^12 + x^5 + 1, most significant bit first. *)
Definition ref16_bit (c : Z) : Z :=
  Z.lxor (Z.land (Z.shiftl c 1) 0xFFFF) (if Z.testbit c 15 then 0x1021 else 0).
Definition ref16_byte (c : Z) (b : ascii) : Z :=
  Nat.iter 8 ref16_bit (Z.lxor c (Z.shiftl (byteZ b) 8)).
Definition crc16_ref (buf : bytes) : Z := fold_left ref16_byte buf 0.

(** The Jones polynomial, least significant bit first. *)
Definition ref64_bit (c : Z) : Z :=
  Z.lxor (Z.shiftr c 1) (if Z.testbit c 0 then 0x95ac9329ac4bc9b5 else 0).
Definition ref64_byte (c : Z) (b : ascii) : Z :=
  Nat.iter 8 ref64_bit (Z.lxor c (byteZ b)).
Definition crc64_ref (crc : Z) (s : bytes) : Z := fold_left ref64_byte s crc.

(** ** Bit-step linearity *)

Lemma ref16_bit_lxor x y : ref16_bit (Z.lxor x y) = Z.lxor (ref16_bit x) (ref16_bit y).
Proof.
  unfold ref16_bit. rewrite Z.shiftl_lxor, Z.lxor_spec.
  assert (forall a b m, Z.land (Z.lxor a b) m = Z.lxor (Z.land a m) (Z.land b m)) as Hd.
  { intros. apply Z.bits_inj'. intros n Hn. rewrite !Z.land_spec, !Z.lxor_spec, !Z.land_spec.
    by destruct (Z.testbit a n), (Z.testbit b n), (Z.testbit m n). }
  rewrite Hd. apply Z.bits_inj'. intros n Hn.
  destruct (Z.testbit x 15), (Z.testbit y 15); cbn [xorb]; rewrite !Z.lxor_spec, ?Z.testbit_0_l;
    destruct (Z.testbit (Z.land _ _) n), (Z.testbit (Z.land _ _) n);
    destruct (Z.testbit 0x1021 n); done.
Qed.

Lemma ref64_bit_lxor x y : ref64_bit (Z.lxor x y) = Z.lxor (ref64_bit x) (ref64_bit y).
Proof.
  unfold ref64_bit. rewrite Z.shiftr_lxor, Z.lxor_spec.
  apply Z.bits_inj'. intros n Hn.
  destruct (Z.testbit x 0), (Z.testbit y 0); cbn [xorb]; rewrite !Z.lxor_spec, ?Z.testbit_0_l;
    destruct (Z.testbit (Z.shiftr _ _) n), (Z.testbit (Z.shiftr _ _) n);
    destruct (Z.testbit 0x95ac9329ac4bc9b5 n); done.
Qed.

Lemma iter_lxor f n x y :
  (forall a b, f (Z.lxor a b) = Z.lxor (f a) (f b)) ->
  Nat.iter n f (Z.lxor x y) = Z.lxor (Nat.iter n f x) (Nat.iter n f y).
Proof. intros Hf. induction n as [|n IH]; simpl; [done|]. by rewrite IH, Hf. Qed.

(** ** The tables are the bit-steps of every byte *)

Definition all_bytes : list Z := seqZ 0 256.

Lemma all_bytes_in n : 0 <= n < 256 -> n ∈ all_bytes.
Proof. intros. unfold all_bytes. apply elem_of_seqZ. lia. Qed.

Lemma forallb_bytes (P : Z -> bool) n :
  forallb P all_bytes = true -> 0 <= n < 256 -> P n = true.
Proof.
  intros H Hn. rewrite forallb_forall in H. apply H, list_elem_of_In. by apply all_bytes_in.
Qed.

Lemma crc16tab_spec n :
  0 <= n < 256 -> Nat.iter 8 ref16_bit (Z.shiftl n 8) = nth (Z.to_nat n) crc16tab 0.
Proof.
  intros Hn. apply Z.eqb_eq.
  by apply (forallb_bytes (fun n => Nat.iter 8 ref16_bit (Z.shiftl n 8)
                                    =? nth (Z.to_nat n) crc16tab 0)).
Qed.

Lemma ref16_low n : 0 <= n < 256 -> Nat.iter 8 ref16_bit n = Z.shiftl n 8.
Proof.
  intros Hn. apply Z.eqb_eq.
  by apply (forallb_bytes (fun n => Nat.iter 8 ref16_bit n =? Z.shiftl n 8)).
Qed.

Lemma crc16tab_range n : 0 <= nth n crc16tab 0 < 65536.
Proof.
  destruct (decide (n < 256)%nat) as [H|H].
  - assert (forallb (fun n => (0 <=? nth (Z.to_nat n) crc16tab 0)
                              && (nth (Z.to_nat n) crc16tab 0 <? 65536)) all_bytes = true)
      as Hall by by vm_compute.
    pose proof (forallb_bytes _ (Z.of_nat n) Hall ltac:(lia)) as Hn. cbv beta in Hn.
    rewrite Nat2Z.id in Hn. btests. lia.
  - rewrite nth_overflow; [lia|]. change (length crc16tab) with 256%nat. lia.
Qed.

Lemma crc64_tab_spec n :
  0 <= n < 256 -> Nat.iter 8 ref64_bit n = nth (Z.to_nat n) crc64_tab 0.
Proof.
  intros Hn. apply Z.eqb_eq.
  by apply (forallb_bytes (fun n => Nat.iter 8 ref64_bit n =? nth (Z.to_nat n) crc64_tab 0)).
Qed.

(** ** Step equivalence *)

Lemma lxor_lt n x y : 0 <= n -> 0 <= x < 2 ^ n -> 0 <= y < 2 ^ n -> 0 <= Z.lxor x y < 2 ^ n.
Proof.
  intros Hn Hx Hy. assert (0 <= Z.lxor x y) by (apply Z.lxor_nonneg; lia). split; [done|].
  destruct (Z.eq_dec (Z.lxor x y) 0) as [->|]; [lia|].
  apply Z.log2_lt_pow2; [lia|]. pose proof (Z.log2_lxor x y).
  assert (forall z, 0 <= z < 2 ^ n -> z = 0 \/ Z.log2 z < n) as Hl.
  { intros z Hz. destruct (Z.eq_dec z 0); [by left|right]. apply Z.log2_lt_pow2; lia. }
  destruct (Hl x Hx), (Hl y Hy); subst; rewrite ?Z.lxor_0_l, ?Z.lxor_0_r in *; lia.
Qed.

Lemma land255_lxor_schar c b :
  0 <= c < 256 -> Z.land (Z.lxor c (scharZ b)) 0x00FF = Z.lxor c (byteZ b).
Proof.
  intros Hc. pose proof (byteZ_range b).
  change 0xFF with (Z.ones 8). rewrite Z.land_ones by lia.
  transitivity (Z.lxor c (byteZ b) mod 2 ^ 8).
  - apply Z.bits_inj'. intros n Hn. rewrite !Z.testbit_mod_pow2 by lia.
    destruct (Z.ltb_spec n 8); [|done]. simpl. rewrite !Z.lxor_spec. f_equal.
    unfold scharZ. destruct (Z.ltb_spec (byteZ b) 128); [done|].
    rewrite <- (Z.mod_pow2_bits_low _ 8 n), <- (Z.mod_pow2_bits_low (byteZ b) 8 n) by lia.
    f_equal. change (2 ^ 8) with 256. by rewrite <- (Z.mod_add (byteZ b - 256) 1) by lia;
      replace (byteZ b - 256 + 1 * 256) with (byteZ b) by lia.
  - apply Z.mod_small. change (2 ^ 8) with 256. apply (lxor_lt 8); lia.
Qed.

Lemma lxor_shiftl_split hi lo :
  0 <= hi -> 0 <= lo < 256 -> Z.lxor (Z.shiftl hi 8) lo = hi * 256 + lo.
Proof.
  intros Hh Hl. rewrite <- Z.add_nocarry_lxor.
  - by rewrite Z.shiftl_mul_pow2 by lia.
  - apply Z.bits_inj'. intros n Hn. rewrite Z.land_spec, Z.testbit_0_l.
    destruct (Z.ltb_spec n 8).
    + by rewrite Z.shiftl_spec_low by lia.
    + rewrite (Z.bits_above_log2 lo); [by rewrite andb_false_r|lia|].
      destruct (Z.eq_dec lo 0) as [->|]; [simpl; lia|].
      apply Z.log2_lt_pow2; [lia|]. assert (2 ^ 8 <= 2 ^ n) by (apply Z.pow_le_mono_r; lia).
      lia.
Qed.

Lemma crc16_step_ref c b :
  0 <= c < 65536 -> crc16_step c b = ref16_byte c b /\ 0 <= crc16_step c b < 65536.
Proof.
  intros Hc. split; [|apply u16_range].
  unfold crc16_step, ref16_byte.
  assert (0 <= Z.shiftr c 8 < 256) as Hh.
  { rewrite Z.shiftr_div_pow2 by lia. change (2 ^ 8) with 256.
    split; [apply Z.div_pos; lia|apply Z.div_lt_upper_bound; lia]. }
  rewrite land255_lxor_schar by done.
  set (hi := Z.shiftr c 8) in *. set (lo := c mod 256).
  assert (0 <= lo < 256) by (apply Z.mod_pos_bound; lia).
  assert (c = Z.lxor (Z.shiftl hi 8) lo) as Hc'.
  { rewrite lxor_shiftl_split by lia. unfold hi, lo. rewrite Z.shiftr_div_pow2 by lia.
    pose proof (Z.div_mod c 256). change (2 ^ 8) with 256. lia. }
  pose proof (byteZ_range b). assert (0 <= Z.lxor hi (byteZ b) < 256) by (apply (lxor_lt 8); lia).
  replace (Z.lxor c (Z.shiftl (byteZ b) 8)) with (Z.lxor (Z.shiftl (Z.lxor hi (byteZ b)) 8) lo).
  2:{ rewrite Z.shiftl_lxor. rewrite Hc' at 1. rewrite !Z.lxor_assoc. f_equal. apply Z.lxor_comm. }
  rewrite iter_lxor by apply ref16_bit_lxor.
  rewrite crc16tab_spec, ref16_low by done.
  pose proof (crc16tab_range (Z.to_nat (Z.lxor hi (byteZ b)))) as Ht.
  generalize dependent (nth (Z.to_nat (Z.lxor hi (byteZ b))) crc16tab 0). intros tv Ht.
  rewrite Z.lxor_comm. apply Z.bits_inj'. intros n Hn. unfold u16.
  rewrite Z.testbit_mod_pow2 by lia. rewrite !Z.lxor_spec.
  destruct (Z.ltb_spec n 16) as [Hn16|Hn16]; simpl.
  - f_equal. rewrite !Z.shiftl_spec by lia. unfold lo.
    change 256 with (2 ^ 8). destruct (Z.ltb_spec n 8).
    + by rewrite !Z.testbit_neg_r by lia.
    + by rewrite Z.mod_pow2_bits_low by lia.
  - rewrite <- (Z.mod_small tv (2 ^ 16)) by done.
    rewrite Z.mod_pow2_bits_high by lia.
    rewrite Z.shiftl_spec by lia. unfold lo. change 256 with (2 ^ 8).
    by rewrite Z.mod_pow2_bits_high by lia.
Qed.

Lemma ref64_shift n c :
  0 <= c -> Nat.iter n ref64_bit (Z.shiftl c (Z.of_nat n)) = c.
Proof.
  intros Hc. induction n as [|n IH]; [by rewrite Z.shiftl_0_r|].
  rewrite Nat.iter_succ_r. unfold ref64_bit at 2.
  rewrite Z.shiftl_spec_low by lia. rewrite Z.lxor_0_r.
  rewrite Z.shiftr_shiftl_l by lia. replace (Z.of_nat (S n) - 1) with (Z.of_nat n) by lia. done.
Qed.

Lemma crc64_step_ref c b : 0 <= c -> crc64_step c b = ref64_byte c b.
Proof.
  intros Hc. unfold crc64_step, ref64_byte, u8. change (2 ^ 8) with 256.
  set (hi := Z.shiftr c 8). set (lo := c mod 256).
  assert (0 <= lo < 256) by (apply Z.mod_pos_bound; lia).
  assert (0 <= hi) by (apply Z.shiftr_nonneg; lia).
  assert (c = Z.lxor (Z.shiftl hi 8) lo) as Hc'.
  { rewrite lxor_shiftl_split by lia. unfold hi, lo. rewrite Z.shiftr_div_pow2 by lia.
    pose proof (Z.div_mod c 256). change (2 ^ 8) with 256. lia. }
  pose proof (byteZ_range b). assert (0 <= Z.lxor lo (byteZ b) < 256) by (apply (lxor_lt 8); lia).
  rewrite Hc' at 1. rewrite Z.lxor_assoc, iter_lxor by apply ref64_bit_lxor.
  pose proof (ref64_shift 8 hi ltac:(done)) as Hs. change (Z.of_nat 8) with 8 in Hs. rewrite Hs.
  rewrite crc64_tab_spec by done. apply Z.lxor_comm.
Qed.

(** Two steps that agree on an invariant have the same fold. *)
Lemma fold_left_agree {A B} (P : A -> Prop) (f g : A -> B -> A) :
  (forall c b, P c -> f c b = g c b /\ P (f c b)) ->
  forall s c, P c -> fold_left f s c = fold_left g s c /\ P (fold_left f s c).
Proof.
  intros Hfg s. induction s as [|b s IH]; intros c Hc; simpl; [done|].
  destruct (Hfg c b Hc) as [He Hr]. rewrite <- He. by apply IH.
Qed.

Lemma crc16_fold_ref s c :
  0 <= c < 65536 ->
  fold_left crc16_step s c = fold_left ref16_byte s c /\ 0 <= fold_left crc16_step s c < 65536.
Proof. exact (fold_left_agree (fun c => 0 <= c < 65536) crc16_step ref16_byte crc16_step_ref s c). Qed.

Lemma crc16_range s : 0 <= crc16 s < 65536.
Proof. by apply crc16_fold_ref. Qed.

Lemma ref64_bit_range c : 0 <= c < 2 ^ 64 -> 0 <= ref64_bit c < 2 ^ 64.
Proof.
  intros Hc. unfold ref64_bit. apply lxor_lt; [lia| |by case_match].
  rewrite Z.shiftr_div_pow2 by lia. change (2 ^ 1) with 2.
  split; [apply Z.div_pos; lia|apply Z.div_lt_upper_bound; lia].
Qed.

Lemma ref64_byte_range c b : 0 <= c < 2 ^ 64 -> 0 <= ref64_byte c b < 2 ^ 64.
Proof.
  intros Hc. unfold ref64_byte. apply Nat.iter_invariant; [intros; by apply ref64_bit_range|].
  pose proof (byteZ_range b). apply lxor_lt; lia.
Qed.

Lemma crc64_fold_ref s c :
  0 <= c < 2 ^ 64 ->
  fold_left crc64_step s c = fold_left ref64_byte s c /\ 0 <= fold_left crc64_step s c < 2 ^ 64.
Proof.
  apply (fold_left_agree (fun c => 0 <= c < 2 ^ 64) crc64_step ref64_byte). clear. intros c b Hc.
  rewrite (crc64_step_ref c b) by apply Hc. split; [reflexivity|exact (ref64_byte_range c b Hc)].
Qed.

Lemma crc64_range c s : 0 <= c < 2 ^ 64 -> 0 <= crc64 c s < 2 ^ 64.
Proof. intros Hc. by apply crc64_fold_ref. Qed.

(** The table-driven CRC-16 of the placement policies is, on every
    string, the bit-by-bit division by x^16 + x^12 + x^5 + 1, and fits the
    [uint16_t] it is stored in. *)
Theorem crc16_table_correct (s : bytes) : crc16 s = crc16_ref s /\ 0 <= crc16 s < 2 ^ 16.
Proof. by apply crc16_fold_ref. Qed.

(** C33. The table-driven CRC-64 is, on every string and from every 64-bit
    starting value, the bit-by-bit reflected division by the Jones
    polynomial, and stays within 64 bits. *)
Theorem crc64_table_correct (c : Z) (s : bytes) (Hc : 0 <= c < 2 ^ 64) :
  crc64 c s = crc64_ref c s /\ 0 <= crc64 c s < 2 ^ 64.
Proof. by apply crc64_fold_ref. Qed.

(** The check value of CRC-64/Jones on "123456789". *)
Lemma crc64_table_correct_witness :
  0 <= 0 < 2 ^ 64 /\ crc64 0 (B "123456789") = 0xe9c6d914c4b8d9ca /\
  crc64 0 (B "123456789") = crc64_ref 0 (B "123456789").
Proof.
  split; [lia|]. split; [by vm_compute|].
  apply (crc64_table_correct 0 (B "123456789")). lia.
Defined.
