(* ===== verification/Policies.v ===== *)
(** * Distribution policies

    [src/policies.c]: which server holds block [n_msg] of a file. *)

From S2P Require Import Prelude Types Crc.

(** ** Operations *)

Definition get_policy_number (policy_string : bytes) : Z :=
  u32 (if streq policy_string (B "RR") then 0
       else if streq policy_string (B "BUCKETS") then 1
       else if streq policy_string (B "HASH") then 2
       else if streq policy_string (B "CRC16b") then 3
       else if streq policy_string (B "CRC64b") then 4
       else if streq policy_string (B "LOCAL") then 5
       else if streq policy_string (B "ZCOPY") then 6
       else -1).

(** Returns the new value of the global [matching_node_socket], the updated
    dataset and the result. *)
Definition set_policy_dataset (dataset : dataset_info) : Z * dataset_info * Z :=
  let matching_node_socket := local_conn dataset in
  let dataset := set_session_plcy (i32 (get_policy_number (policy dataset))) dataset in
  if session_plcy dataset <? 0
  then (matching_node_socket, dataset, -1)
  else (matching_node_socket, dataset, session_plcy dataset).

Definition RoundRobin (n_servers n_msg : Z) (fname : bytes) : outcome Z :=
  let crc_ := crc16 fname in
  let* next_server := rem_i32 crc_ n_servers in
  let* sum := add_i32 next_server n_msg in
  rem_i32 sum n_servers.

(** [sprintf(key, "%s%c%d", fname, '$', n_msg)]. *)
Definition Hashed_key (fname : bytes) (n_msg : Z) : bytes := fname ++ dollar :: print_d n_msg.

(** The hashing loop: the state is the pair of [hash] and [a]. *)
Definition Hashed_step (st : Z * Z) (c : ascii) : Z * Z :=
  let '(hash, a) := st in (u32 (hash * a + scharZ c), u32 (a * 378551)).

Definition Hashed (n_servers n_msg : Z) (fname : bytes) : outcome Z :=
  let '(hash, _) := fold_left Hashed_step (Hashed_key fname n_msg) (0, 63689) in
  if n_servers =? 0 then Undef DivByZero
  else Ret (i32 (hash mod u32 n_servers)).

(** [CRC] never writes its local array [key]: the characters it reads are
    whatever the stack holds, here [stack]. *)
Definition CRC (stack : bytes) (n_servers : Z) (fname : bytes) (bytes_ : Z) : outcome Z :=
  if strlen fname + 64 <=? strlen stack then Undef OutOfBounds
  else if bytes_ =? 16 then rem_i32 (crc16 stack) n_servers
  else if bytes_ =? 64
       then if n_servers =? 0 then Undef DivByZero
            else Ret (i32 (crc64 0 stack mod u64 n_servers))
  else Ret (-1).

(** [find_server]. The statements after the [break] of the [LOCAL_]/[ZCOPY_]
    case are unreachable. *)
Definition find_server (stack : bytes) (n_servers n_msg : Z) (fname : bytes)
    (op_type : Z) (server_type : ascii) (session_plcy : Z) : outcome Z :=
  let* next_server :=
    (if session_plcy =? ROUND_ROBIN_ then RoundRobin n_servers n_msg fname
     else if session_plcy =? HASHED_ then Hashed n_servers n_msg fname
     else if session_plcy =? CRC16_ then CRC stack n_servers fname 16
     else if session_plcy =? CRC64_ then CRC stack n_servers fname 64
     else if (session_plcy =? LOCAL_) || (session_plcy =? ZCOPY_)
          then RoundRobin n_servers n_msg fname
     else Ret (-1)) in
  if (next_server <? 0) || (n_servers <=? next_server) then Exit (-1) else Ret next_server.

(** ** Lemmas *)

Lemma RoundRobin_eq n k f :
  0 < n -> 0 <= k -> n + k <= 2 ^ 31 ->
  RoundRobin n k f = Ret ((crc16 f + k) mod n).
Proof.
  intros Hn Hk Hb. unfold RoundRobin. pose proof (crc16_range f).
  rewrite rem_i32_pos by lia. simpl.
  pose proof (Z.mod_pos_bound (crc16 f) n Hn). rewrite add_i32_ok by lia. simpl.
  rewrite rem_i32_pos by lia. by rewrite Z.add_mod_idemp_l by lia.
Qed.

Lemma Hashed_range n k f :
  0 < n < 2 ^ 31 -> exists s, Hashed n k f = Ret s /\ 0 <= s < n.
Proof.
  intros Hn. unfold Hashed. destruct (fold_left _ _ _) as [hash a].
  destruct (Z.eqb_spec n 0); [lia|]. rewrite u32_small by lia.
  pose proof (Z.mod_pos_bound hash n ltac:(lia)). rewrite i32_small by lia. eauto.
Qed.

Lemma CRC_range stack n f w :
  0 < n < 2 ^ 31 -> strlen stack < strlen f + 64 -> w = 16 \/ w = 64 ->
  exists s, CRC stack n f w = Ret s /\ 0 <= s < n.
Proof.
  intros Hn Hs Hw. unfold CRC. destruct (Z.leb_spec (strlen f + 64) (strlen stack)); [lia|].
  destruct Hw as [-> | ->]; simpl.
  - pose proof (crc16_range stack). rewrite rem_i32_pos by lia.
    eexists; split; [done|]. apply Z.mod_pos_bound. lia.
  - destruct (Z.eqb_spec n 0); [lia|]. rewrite u64_small by lia.
    pose proof (Z.mod_pos_bound (crc64 0 stack) n ltac:(lia)).
    rewrite i32_small by lia. eauto.
Qed.

Lemma find_server_ret s0 n k f op ty plcy s :
  find_server s0 n k f op ty plcy = Ret s -> 0 <= s < n.
Proof. unfold find_server. intros H. ret_inv H. btests. lia. Qed.

(** ** Properties *)

(** The policies [find_server] serves. *)
Definition served_policy (p : Z) : bool :=
  (p =? ROUND_ROBIN_) || (p =? HASHED_) || (p =? CRC16_) || (p =? CRC64_)
  || (p =? LOCAL_) || (p =? ZCOPY_).

(** Every served policy yields a server. *)
Lemma find_server_served (stack : bytes) (n k : Z) (f : bytes) (op : Z) (ty : ascii) (p : Z)
  (Hn : 0 < n < 2 ^ 31) (Hk : 0 <= k) (Hb : n + k <= 2 ^ 31)
  (Hs : strlen stack < strlen f + 64) (Hp : served_policy p = true) :
  exists s, find_server stack n k f op ty p = Ret s /\ 0 <= s < n.
Proof.
  assert (forall m, (exists s, m = Ret s /\ 0 <= s < n) ->
    exists s, (let* x := m in if (x <? 0) || (n <=? x) then Exit (-1) else Ret x) = Ret s
              /\ 0 <= s < n) as Hfin.
  { intros m (s & -> & Hr). simpl. exists s. split; [|done].
    destruct (Z.ltb_spec s 0), (Z.leb_spec n s); done || lia. }
  assert (exists s, RoundRobin n k f = Ret s /\ 0 <= s < n) as Hrr.
  { rewrite RoundRobin_eq by lia. eexists; split; [done|]. apply Z.mod_pos_bound. lia. }
  unfold find_server. apply Hfin. unfold served_policy in Hp.
  csplit; auto using Hashed_range, CRC_range; intuition lia.
Qed.

(** C28. Under every served policy, for a positive number of servers and a
    block number that does not overflow [int] arithmetic, [find_server]
    returns, and returns the index of a server. *)
Theorem find_server_in_range (stack : bytes) (n k : Z) (f : bytes) (op : Z) (ty : ascii) (p : Z)
  (Hn : 0 < n < 2 ^ 31) (Hk : 0 <= k) (Hb : n + k <= 2 ^ 31)
  (Hs : strlen stack < strlen f + 64) (Hp : served_policy p = true) :
  exists s, find_server stack n k f op ty p = Ret s /\ 0 <= s < n.
Proof. by apply find_server_served. Qed.

Lemma find_server_in_range_witness :
  exists s, find_server [] 4 10 (B "imss://data") GET "d" ROUND_ROBIN_ = Ret s /\ 0 <= s < 4.
Proof. apply (find_server_in_range [] 4 10 (B "imss://data") GET "d" ROUND_ROBIN_); done. Defined.

(** Round robin balances a file perfectly: among any [n] consecutive
    blocks, every one of the [n] servers receives exactly one. *)
Theorem RoundRobin_balanced (n b : Z) (f : bytes) (s : Z)
  (Hn : 0 < n) (Hb : 0 <= b) (Hbound : 2 * n + b <= 2 ^ 31) (Hs : 0 <= s < n) :
  exists k, (b <= k < b + n /\ RoundRobin n k f = Ret s) /\
            forall k', b <= k' < b + n -> RoundRobin n k' f = Ret s -> k' = k.
Proof.
  set (k := b + (s - (crc16 f + b)) mod n).
  pose proof (Z.mod_pos_bound (s - (crc16 f + b)) n Hn) as Hm.
  exists k. split; [split; [lia|]|].
  - rewrite RoundRobin_eq by lia. f_equal. unfold k.
    rewrite Z.add_assoc, Z.add_mod_idemp_r by lia.
    replace (crc16 f + b + (s - (crc16 f + b))) with s by lia. by apply Z.mod_small.
  - intros k' Hk'. rewrite RoundRobin_eq by lia. intros [= Heq].
    assert (k' - b = (s - (crc16 f + b)) mod n) as He; [|lia].
    rewrite <- Heq, Zminus_mod_idemp_l.
    replace (crc16 f + k' - (crc16 f + b)) with (k' - b) by lia. rewrite Z.mod_small; lia.
Qed.

Lemma RoundRobin_balanced_witness :
  exists k, (1 <= k < 1 + 3 /\ RoundRobin 3 k (B "imss://f") = Ret 2) /\
            forall k', 1 <= k' < 1 + 3 -> RoundRobin 3 k' (B "imss://f") = Ret 2 -> k' = k.
Proof. apply (RoundRobin_balanced 3 1 (B "imss://f") 2); lia. Defined.

(** A dataset may be given the policy name BUCKETS, which
    [set_policy_dataset] accepts, but placing any of its blocks terminates
    the process instead of returning the documented -1. *)
Theorem buckets_policy_exits (d : dataset_info) (stack : bytes) (n k op : Z) (ty : ascii)
  (Hp : policy d = B "BUCKETS") :
  let '(_, d', r) := set_policy_dataset d in
  r = BUCKETS_ /\ find_server stack n k (original_name d') op ty (session_plcy d') = Exit (-1).
Proof.
  unfold set_policy_dataset. rewrite Hp. simpl. split; [done|].
  unfold find_server. simpl. done.
Qed.

Lemma buckets_policy_exits_witness :
  let d := mkDataset (B "imss://f") "R" (B "BUCKETS") (B "imss://f") [] 0 1 4 1 0 0 0 0 2 [] 0 0 STATUS_ATACH 2 0 10 0 0 None in
  let '(_, d', r) := set_policy_dataset d in
  r = BUCKETS_ /\ find_server [] 2 1 (original_name d') GET "d" (session_plcy d') = Exit (-1).
Proof.
  apply (buckets_policy_exits
    (mkDataset (B "imss://f") "R" (B "BUCKETS") (B "imss://f") [] 0 1 4 1 0 0 0 0 2 [] 0 0 STATUS_ATACH 2 0 10 0 0 None)
    [] 2 1 GET "d"). reflexivity.
Defined.

(** Under the CRC16 and CRC64 policies the server of a block depends on
    uninitialised stack bytes and not on the file: two evaluations for the
    same file, block and policy can name different servers, so a block can be
    written to one server and read from another. *)
Theorem crc_policies_unstable (f : bytes) (k op : Z) (ty : ascii) (p : Z)
  (Hp : p = CRC16_ \/ p = CRC64_) :
  exists stack1 stack2 s1 s2,
    find_server stack1 2 k f op ty p = Ret s1 /\ find_server stack2 2 k f op ty p = Ret s2 /\
    s1 <> s2.
Proof.
  assert (forall t : bytes, (length t <= 1)%nat -> (strlen f + 64 <=? strlen t) = false) as E.
  { intros t Ht. apply Z.leb_gt. unfold strlen. lia. }
  destruct Hp as [-> | ->]; [exists [], (B "a"), 0, 1|exists [], (B "b"), 0, 1];
    unfold find_server, CRC; rewrite !E by (simpl; lia); by vm_compute.
Qed.

Lemma crc_policies_unstable_witness :
  exists stack1 stack2 s1 s2,
    find_server stack1 2 3 (B "imss://f") GET "d" CRC16_ = Ret s1 /\
    find_server stack2 2 3 (B "imss://f") GET "d" CRC16_ = Ret s2 /\ s1 <> s2.
Proof. apply (crc_policies_unstable (B "imss://f") 3 GET "d" CRC16_). by left. Defined.

(** The policy names of the configuration map to the policy numbers of
    [policies.h], and every other name is rejected with -1. *)
Theorem set_policy_dataset_spec (d : dataset_info) :
  let '(sock, d', r) := set_policy_dataset d in
  sock = local_conn d /\ session_plcy d' = r /\
  r = match policy d with
      | s => if streq s (B "RR") then ROUND_ROBIN_ else if streq s (B "BUCKETS") then BUCKETS_
             else if streq s (B "HASH") then HASHED_ else if streq s (B "CRC16b") then CRC16_
             else if streq s (B "CRC64b") then CRC64_ else if streq s (B "LOCAL") then LOCAL_
             else if streq s (B "ZCOPY") then ZCOPY_ else -1
      end.
Proof.
  unfold set_policy_dataset, get_policy_number.
  repeat match goal with |- context [streq (policy d) ?x] => destruct (streq (policy d) x); [done|] end.
  done.
Qed.
