(* ===== verification/Paths.v ===== *)
(** * URIs and paths

    The path helpers of [src/imss.c], [fuse/imss_posix_api.c] and
    [tools/imss_posix.c], and the path resolution of [tools/resolvepath.c]. *)

From S2P Require Import Prelude Types.

(** ** Trailing slashes *)

(** [ConcatLastSlashC] and the [std::string] variant [ConcatLastSlash]: the
    result and the updated path. *)
Definition ConcatLastSlashC (pathname : bytes) : Z * bytes :=
  if (0 <? strlen pathname) && negb (last_is slash pathname)
  then (1, pathname ++ [slash]) else (0, pathname).

Definition RemoveLastSlashC (pathname : bytes) : Z * bytes :=
  if (0 <? strlen pathname) && last_is slash pathname
  then (1, take (length pathname - 1) pathname) else (0, pathname).

Definition ConcatLastSlash (pathname : bytes) : Z * bytes :=
  match last pathname with
  | Some c => if ascii_eqb slash c then (0, pathname) else (1, pathname ++ [slash])
  | None => (0, pathname)
  end.

Definition RemoveLastSlash (pathname : bytes) : Z * bytes :=
  match last pathname with
  | Some c => if ascii_eqb slash c then (1, removelast pathname) else (0, pathname)
  | None => (0, pathname)
  end.

(** [paths_equal]. *)
Definition paths_equal (a b : bytes) : bool :=
  if streq a b then true
  else if (strlen a =? strlen b + 1) && last_is slash a && strneq (length b) a b then true
  else if (strlen b =? strlen a + 1) && last_is slash b && strneq (length a) b a then true
  else false.

(** ** Parent directories *)

(** [find_first_parent_dir]: offset and directory. *)
Definition find_first_parent_dir (dataset_uri : bytes) : Z * bytes :=
  match strchr slash (drop 7 dataset_uri) with
  | Some j => (Z.of_nat (7 + j), take (7 + j) dataset_uri)
  | None => (0, dataset_uri)
  end.

(** [find_last_parent_dir] with a zero-filled result buffer. A URI shorter
    than the root makes [uri_len - IMSS_ROOT_LEN] wrap around. *)
Definition find_last_parent_dir (dataset_uri : bytes) : outcome (Z * bytes) :=
  if (length dataset_uri <? IMSS_ROOT_LEN)%nat then Undef OutOfBounds
  else
    let path_start := drop IMSS_ROOT_LEN dataset_uri in
    let path_len := length path_start in
    let actual_path_len := if last_is slash path_start then (path_len - 1)%nat else path_len in
    match strrchr slash (take actual_path_len path_start) with
    | Some j => Ret (Z.of_nat (IMSS_ROOT_LEN + j), take (IMSS_ROOT_LEN + j) dataset_uri)
    | None => Ret (0, IMSS_ROOT)
    end.

(** [get_basename] of a non-NULL path: the component. *)
Fixpoint drop_slashes_rev (r : bytes) : bytes :=
  match r with
  | a :: t =>
      match t with
      | [] => r
      | _ => if ascii_eqb a slash then drop_slashes_rev t else r
      end
  | [] => []
  end.

Definition get_basename (path : bytes) : bytes :=
  match path with
  | [] => B "."
  | _ =>
      let upto_end := rev (drop_slashes_rev (rev path)) in
      if streq upto_end [slash] then [slash]
      else match strrchr slash upto_end with
           | Some i => drop (S i) upto_end
           | None => upto_end
           end
  end.

(** [get_iuri] with an empty output buffer. *)
Definition get_iuri (path : bytes) : bytes :=
  if prefixb (B "imss:/") path then path else B "imss:/" ++ path.

Definition IsAbsolutePath (pathname : bytes) : Z :=
  if prefixb [slash] pathname then 1 else 0.

(** ** ResolvePath *)

(** Appends the separator when it is missing; [None] is [ENAMETOOLONG]. *)
Definition ensure_slash (resolved : bytes) : option bytes :=
  if last_is slash resolved then Some resolved
  else if PATH_MAX <=? strlen resolved + 1 then None
  else Some (resolved ++ [slash]).

(** The treatment of one path component once [resolved] ends in a slash.  The
    bound of [strncat] is on what it appends, so a name that does not fit is
    written past the array of the caller, which has [PATH_MAX] bytes; the test
    for [ENAMETOOLONG] that follows comes too late. *)
Definition resolve_token (resolved token : bytes) : outcome bytes :=
  if streq token [] || streq token (B ".") then Ret resolved
  else if streq token (B "..")
  then if 1 <? strlen resolved
       then let stripped := take (length resolved - 1) resolved in
            match strrchr slash stripped with
            | Some i => Ret (take (S i) stripped)
            | None => Undef NullDeref
            end
       else Ret resolved
  else let resolved := resolved ++ token in
       let* _ := guard (strlen resolved <? PATH_MAX) OutOfBounds in
       Ret resolved.

(** The component loop. [left] is the C string in the buffer and [left_len]
    the separate counter of the code, which the slashes consumed do not
    decrease. [Ret None] is the error return -1. *)
Fixpoint resolve_loop (fuel : nat) (left : bytes) (left_len : Z) (resolved : bytes)
  : outcome (option bytes) :=
  match fuel with
  | O => Ret None
  | S f =>
      if left_len =? 0 then Ret (Some resolved)
      else
        let '(token, consumed, left') :=
          match strchr slash left with
          | Some i => (take i left, Z.of_nat i, drop (S i) left)
          | None => (left, left_len, left)
          end in
        if PATH_MAX <=? consumed then Ret None
        else
          let left_len' := left_len - consumed in
          let* _ := guard (left_len + 2 <=? PATH_MAX) OutOfBounds in
          match ensure_slash resolved with
          | None => Ret None
          | Some resolved =>
              let* resolved := resolve_token resolved token in
              resolve_loop f left' left_len' resolved
          end
  end.

(** [ResolvePath]: [cwd] is what [getcwd] stores. The result is the return
    value and the resolved path. *)
Definition ResolvePath (cwd : option bytes) (path : bytes) : outcome (Z * bytes) :=
  if PATH_MAX <=? strlen path then Undef OutOfBounds
  else
    let finish left resolved :=
      if PATH_MAX <=? strlen resolved then Ret (-1, resolved)
      else
        let* r := resolve_loop (S (S (length left))) left (strlen left) resolved in
        Ret (match r with Some r => (strlen r, r) | None => (-1, resolved) end) in
    match path with
    | a :: rest =>
        if ascii_eqb a slash
        then match rest with
             | [] => Ret (1, [slash])
             | _ => finish rest [slash]
             end
        else match cwd with
             | None => Ret (-1, B ".")
             | Some cwd => finish path cwd
             end
    | [] => match cwd with
            | None => Ret (-1, B ".")
            | Some cwd => finish path cwd
            end
    end.

(** ** Mount-point paths *)

(** The [strstr]/[memmove] loop that deletes every occurrence of [mp]. *)
Fixpoint remove_all (fuel : nat) (mp s : bytes) : bytes :=
  match fuel with
  | O => s
  | S f =>
      if prefixb mp s then remove_all f mp (drop (length mp) s)
      else match s with
           | a :: s' => a :: remove_all f mp s'
           | [] => []
           end
  end.

Fixpoint count_slashes (s : bytes) : nat :=
  match s with
  | a :: s' => if ascii_eqb a slash then S (count_slashes s') else O
  | [] => O
  end.

(** [convert_path]. When nothing of the name is left, [path[len_path - 1]]
    reads before the buffer. *)
Definition convert_path (MOUNT_POINT name : bytes) : outcome bytes :=
  if PATH_MAX <=? strlen name then Undef OutOfBounds
  else
    let path := match MOUNT_POINT with
                | [] => name
                | _ => remove_all (S (length name)) MOUNT_POINT name
                end in
    let len := length path in
    let desplacements := count_slashes path in
    let path' := drop desplacements path in
    match path', desplacements with
    | [], O => Undef OutOfBounds
    | _, _ =>
        let path'' := if last_is slash path' then take (length path' - 1) path' else path' in
        if (desplacements <? len)%nat
        then if PATH_MAX <=? strlen (IMSS_ROOT ++ path'') then Undef OutOfBounds
             else Ret (IMSS_ROOT ++ path'')
        else Ret IMSS_ROOT
    end.

(** [checkHerculesPath] of a non-NULL path: [workdir] is the environment's
    [PWD]. *)
Definition checkHerculesPath (MOUNT_POINT : bytes) (workdir cwd : option bytes)
    (pathname : bytes) : outcome (option bytes) :=
  let mpl := length MOUNT_POINT in
  let pl := length pathname in
  let compare_len :=
    if (mpl <=? pl)%nat
    then if last_is slash pathname then (pl - 1)%nat else pl
    else if last_is slash MOUNT_POINT then (mpl - 1)%nat else mpl in
  (* [strncmp(w, MOUNT_POINT, strlen(MOUNT_POINT) - 1) == 0] *)
  let under w := match MOUNT_POINT with
                 | [] => streq w []
                 | _ => strneq (mpl - 1) w MOUNT_POINT
                 end in
  if strneq compare_len pathname MOUNT_POINT then Ret (Some IMSS_ROOT)
  else
    let* inside :=
      (if under pathname then Ret true
       else if prefixb [slash] pathname then Ret false
       else match workdir with
            | None => Undef NullDeref
            | Some w => Ret (under w)
            end) in
    if inside
    then
      let convert p := let* q := convert_path MOUNT_POINT p in Ret (Some q) in
      if strneq pl pathname (B ".")
      then match workdir with None => Undef NullDeref | Some w => convert w end
      else if prefixb (B "./") pathname then convert (drop 2 pathname)
      else
        let* r := ResolvePath cwd pathname in
        let '(ret, absolute_pathname) := r in
        if 0 <? ret then convert absolute_pathname else convert pathname
    else Ret None.

(** ** Slash and parent lemmas *)

Lemma last_is_app_slash s : last_is slash (s ++ [slash]) = true.
Proof. by rewrite last_is_snoc. Qed.

Lemma last_is_true c s : last_is c s = true <-> exists t, s = t ++ [c].
Proof.
  unfold last_is. split.
  - destruct (last s) as [d|] eqn:E; [|done]. intros ->%ascii_eqb_true.
    apply last_Some in E as [t ->]. eauto.
  - intros [t ->]. by rewrite last_snoc, ascii_eqb_refl.
Qed.

Lemma last_is_false_app c s d t : last_is c (s ++ d :: t) = last_is c (d :: t).
Proof. unfold last_is. by rewrite last_app_cons. Qed.

Lemma last_is_notin c s : c ∉ s -> last_is c s = false.
Proof.
  intros Hn. destruct (last_is c s) eqn:E; [|done].
  apply last_is_true in E as [t ->]. set_solver.
Qed.

Lemma last_is_notin_app dir name :
  slash ∉ name -> name <> [] -> last_is slash (dir ++ slash :: name) = false.
Proof.
  intros Hn Hne. destruct name as [|a name]; [done|].
  replace (dir ++ slash :: a :: name) with ((dir ++ [slash]) ++ a :: name)
    by (rewrite <- app_assoc; done).
  rewrite last_is_false_app. by apply last_is_notin.
Qed.

Lemma take_app_snoc (s : bytes) c : take (length (s ++ [c]) - 1) (s ++ [c]) = s.
Proof.
  rewrite length_app. simpl. replace (length s + 1 - 1)%nat with (length s) by lia.
  by rewrite take_app_length.
Qed.

(** The parent found behind the root is the text before the last slash,
    whether or not the URI ends in one. *)
Lemma find_last_parent_dir_in dir name trail :
  slash ∉ name -> name <> [] ->
  trail = [] \/ trail = [slash] ->
  find_last_parent_dir (IMSS_ROOT ++ dir ++ slash :: name ++ trail)
  = Ret (Z.of_nat (7 + length dir), IMSS_ROOT ++ dir).
Proof.
  intros Hn Hne Ht. unfold find_last_parent_dir.
  assert ((length (IMSS_ROOT ++ dir ++ slash :: name ++ trail) <? IMSS_ROOT_LEN)%nat = false) as ->.
  { apply Nat.ltb_ge. rewrite length_app. unfold IMSS_ROOT_LEN. simpl. lia. }
  replace (drop IMSS_ROOT_LEN (IMSS_ROOT ++ dir ++ slash :: name ++ trail))
    with (dir ++ slash :: name ++ trail) by done.
  assert (strrchr slash (take (if last_is slash (dir ++ slash :: name ++ trail)
    then (length (dir ++ slash :: name ++ trail) - 1)%nat
    else length (dir ++ slash :: name ++ trail)) (dir ++ slash :: name ++ trail))
    = Some (length dir)) as ->.
  { destruct Ht as [-> | ->].
    - rewrite app_nil_r. rewrite last_is_notin_app by done. rewrite firstn_all.
      by apply strrchr_app_last.
    - replace (dir ++ slash :: name ++ [slash]) with ((dir ++ slash :: name) ++ [slash])
        by (rewrite <- app_assoc; done).
      rewrite last_is_app_slash, take_app_snoc. by apply strrchr_app_last. }
  f_equal. f_equal. unfold IMSS_ROOT_LEN.
  rewrite (app_assoc IMSS_ROOT dir). apply take_app_length'. rewrite length_app. done.
Qed.

Lemma find_last_parent_dir_root name trail :
  slash ∉ name -> trail = [] \/ trail = [slash] ->
  find_last_parent_dir (IMSS_ROOT ++ name ++ trail) = Ret (0, IMSS_ROOT).
Proof.
  intros Hn Ht. unfold find_last_parent_dir.
  assert ((length (IMSS_ROOT ++ name ++ trail) <? IMSS_ROOT_LEN)%nat = false) as ->.
  { apply Nat.ltb_ge. rewrite length_app. unfold IMSS_ROOT_LEN. simpl. lia. }
  replace (drop IMSS_ROOT_LEN (IMSS_ROOT ++ name ++ trail)) with (name ++ trail) by done.
  destruct Ht as [-> | ->].
  - rewrite app_nil_r, last_is_notin, firstn_all by done.
    by rewrite (proj2 (strrchr_None slash name)).
  - rewrite last_is_app_slash, take_app_snoc. by rewrite (proj2 (strrchr_None slash name)).
Qed.

(** Every URI under the root has a parent: the function is total there. *)
Lemma find_last_parent_dir_total p :
  exists o d, find_last_parent_dir (IMSS_ROOT ++ p) = Ret (o, d).
Proof.
  unfold find_last_parent_dir.
  assert ((length (IMSS_ROOT ++ p) <? IMSS_ROOT_LEN)%nat = false) as ->.
  { apply Nat.ltb_ge. rewrite length_app. unfold IMSS_ROOT_LEN. simpl. lia. }
  case_match; eauto.
Qed.

(** Parent directories: for every URI below the root, with or without a
    trailing slash, [find_last_parent_dir] yields the directory that contains
    the last component, and the root for top-level names. *)
Theorem find_last_parent_dir_spec (dir name trail : bytes)
  (Hn : slash ∉ name) (Hne : name <> []) (Ht : trail = [] \/ trail = [slash]) :
  find_last_parent_dir (IMSS_ROOT ++ dir ++ slash :: name ++ trail)
  = Ret (Z.of_nat (7 + length dir), IMSS_ROOT ++ dir) /\
  find_last_parent_dir (IMSS_ROOT ++ name ++ trail) = Ret (0, IMSS_ROOT).
Proof. auto using find_last_parent_dir_in, find_last_parent_dir_root. Qed.

Lemma find_last_parent_dir_spec_witness :
  find_last_parent_dir (B "imss://a/b/c/") = Ret (10, B "imss://a/b") /\
  find_last_parent_dir (B "imss://c/") = Ret (0, B "imss://").
Proof.
  apply (find_last_parent_dir_spec (B "a/b") (B "c") [slash]).
  - apply strchr_None. reflexivity.
  - discriminate.
  - right. reflexivity.
Defined.

(** Normalising trailing slashes: adding then removing a slash restores a
    slash-free path, removing then adding restores a slashed one, and the
    [char *] and [std::string] versions agree on every path. *)
Theorem last_slash_roundtrip (p : bytes) :
  ConcatLastSlash p = ConcatLastSlashC p /\ RemoveLastSlash p = RemoveLastSlashC p /\
  (fst (ConcatLastSlashC p) = 1 -> RemoveLastSlashC (snd (ConcatLastSlashC p)) = (1, p)) /\
  (fst (RemoveLastSlashC p) = 1 ->
   ConcatLastSlash (snd (RemoveLastSlashC p) ++ [slash]) = (0, p)).
Proof.
  destruct p as [|c p _] using rev_ind; [by vm_compute|].
  unfold ConcatLastSlash, ConcatLastSlashC, RemoveLastSlash, RemoveLastSlashC.
  assert ((0 <? strlen (p ++ [c])) = true) as ->.
  { apply Z.ltb_lt. unfold strlen. rewrite length_app. simpl. lia. }
  rewrite last_snoc, last_is_snoc, removelast_last, take_app_snoc.
  destruct (ascii_eqb slash c) eqn:E; simpl; (split; [done|split; [done|split; [try done|]]]).
  - apply ascii_eqb_true in E as <-. intros _. by rewrite last_snoc, ascii_eqb_refl.
  - intros _. rewrite last_is_snoc, ascii_eqb_refl, take_app_snoc. simpl.
    assert ((0 <? strlen ((p ++ [c]) ++ [slash])) = true) as ->; [|done].
    apply Z.ltb_lt. unfold strlen. rewrite length_app. simpl. lia.
  - done.
Qed.

(** [paths_equal] identifies exactly the paths equal up to one trailing
    slash. *)
Lemma strneq_self_app (a : bytes) t : strneq (length a) (a ++ t) a = true.
Proof. unfold strneq. by rewrite take_app_length, firstn_all, bool_decide_eq_true. Qed.

(** [paths_equal] holds exactly when the two paths are equal or differ by
    one trailing slash. *)
Theorem paths_equal_spec (a b : bytes) :
  paths_equal a b = true <-> a = b \/ a = b ++ [slash] \/ b = a ++ [slash].
Proof.
  assert (forall x y : bytes, (strlen x =? strlen y + 1) && last_is slash x
    && strneq (length y) x y = true <-> x = y ++ [slash]) as Hone.
  { intros x y. rewrite !andb_true_iff, Z.eqb_eq, last_is_true. unfold strlen, strneq.
    rewrite bool_decide_eq_true, firstn_all. split.
    - intros [[Hl [t ->]] Hp]. rewrite length_app in Hl. simpl in Hl.
      rewrite take_app_length' in Hp by lia. by subst.
    - intros ->. rewrite length_app. simpl. split; [split; [lia|eauto]|]. by rewrite take_app_length. }
  unfold paths_equal. destruct (streq a b) eqn:E.
  { apply streq_true in E. tauto. }
  apply streq_false in E. rewrite <- (Hone a b), <- (Hone b a).
  destruct (_ && strneq (length b) a b), (_ && strneq (length a) b a); intuition congruence.
Qed.

(** ** Path resolution against a reference *)

(** The components between slashes, empty ones included. *)
Fixpoint split_slash (s : bytes) : list bytes :=
  match s with
  | [] => [[]]
  | a :: s' =>
      if ascii_eqb a slash then [] :: split_slash s'
      else match split_slash s' with
           | w :: ws => (a :: w) :: ws
           | [] => [[a]]
           end
  end.

(** Reference semantics of a component on the stack of directories. *)
Definition norm_step (stk : list bytes) (tok : bytes) : list bytes :=
  if streq tok [] || streq tok (B ".") then stk
  else if streq tok (B "..") then take (length stk - 1) stk
  else stk ++ [tok].

Definition normalise (stk : list bytes) (path : bytes) : list bytes :=
  fold_left norm_step (split_slash path) stk.

(** The absolute path of a stack, with its trailing slash. *)
Definition dirstr (stk : list bytes) : bytes :=
  slash :: concat (map (fun c => c ++ [slash]) stk).

(** A string names a stack when it is its path with or without the last
    slash. *)
Definition renders (r : bytes) (stk : list bytes) : Prop :=
  r = dirstr stk \/ exists s c, stk = s ++ [c] /\ r = dirstr s ++ c.

Definition plain (c : bytes) : Prop :=
  (slash ∉ c) /\ c <> [] /\ c <> B "." /\ c <> B "..".

(** Components that leave the current directory's trailing slash in place. *)
Definition special (tok : bytes) : bool :=
  streq tok [] || streq tok (B ".") || streq tok (B "..").
Definition last_component (path : bytes) : bytes := List.last (split_slash path) [].

Lemma split_slash_nonempty s : split_slash s <> [].
Proof. destruct s as [|a s]; simpl; [done|]. case_match; [done|]. by case_match. Qed.

Lemma split_slash_strchr s :
  split_slash s = match strchr slash s with
                  | Some i => take i s :: split_slash (drop (S i) s)
                  | None => [s]
                  end.
Proof.
  induction s as [|a s IH]; simpl; [done|].
  destruct (ascii_eqb a slash) eqn:E; [done|].
  rewrite IH. by destruct (strchr slash s).
Qed.

Lemma dirstr_snoc s c : dirstr (s ++ [c]) = (dirstr s ++ c) ++ [slash].
Proof. unfold dirstr. rewrite map_app, concat_app. simpl. by rewrite app_nil_r, <- app_assoc. Qed.

Lemma dirstr_last s : last_is slash (dirstr s) = true.
Proof.
  destruct s as [|c s _] using rev_ind; [done|]. rewrite dirstr_snoc. apply last_is_app_slash.
Qed.

Lemma ensure_slash_renders r stk :
  renders r stk -> Forall plain stk -> strlen r + 1 < PATH_MAX ->
  ensure_slash r = Some (dirstr stk).
Proof.
  intros [-> | (s & c & -> & ->)] Hp Hlen; unfold ensure_slash.
  - by rewrite dirstr_last.
  - apply Forall_app in Hp as [_ Hc]. apply Forall_cons in Hc as [(Hc1 & Hc2 & _) _].
    destruct c as [|a c]; [done|]. rewrite last_is_false_app, last_is_notin by done.
    destruct (Z.leb_spec PATH_MAX (strlen (dirstr s ++ a :: c) + 1)); [lia|].
    by rewrite dirstr_snoc.
Qed.

Lemma resolve_token_dirstr stk tok :
  Forall plain stk -> slash ∉ tok -> strlen (dirstr stk) + strlen tok < PATH_MAX ->
  exists r, resolve_token (dirstr stk) tok = Ret r /\
    renders r (norm_step stk tok) /\ Forall plain (norm_step stk tok) /\
    strlen r <= strlen (dirstr stk) + strlen tok /\ last_is slash r = special tok.
Proof.
  intros Hp Ht Hlen. unfold resolve_token, norm_step, special.
  destruct (streq tok [] || streq tok (B ".")) eqn:E1.
  { eexists. split; [done|]. split; [by left|]. split; [done|].
    split; [unfold strlen; lia|apply dirstr_last]. }
  destruct (streq tok (B "..")) eqn:E2.
  - destruct stk as [|c stk _] using rev_ind.
    { exists (dirstr []). split; [done|]. split; [by left|]. split; [done|].
      split; [unfold strlen; lia|done]. }
    apply Forall_app in Hp as [Hp Hc]. apply Forall_cons in Hc as [(Hc & Hne & _) _].
    rewrite dirstr_snoc, take_app_snoc in *.
    assert ((1 <? strlen ((dirstr stk ++ c) ++ [slash])) = true) as ->.
    { apply Z.ltb_lt. unfold strlen, dirstr. rewrite !length_app. simpl. lia. }
    replace (take (length (stk ++ [c]) - 1) (stk ++ [c])) with stk.
    2:{ rewrite length_app. simpl. replace (length stk + 1 - 1)%nat with (length stk) by lia.
        by rewrite take_app_length. }
    assert (exists d, dirstr stk = d ++ [slash]) as [d Hd] by (apply last_is_true, dirstr_last).
    rewrite Hd, <- app_assoc. simpl. rewrite strrchr_app_last by done.
    exists (dirstr stk). split; [|split; [by left|split; [done|split; [|apply dirstr_last]]]].
    + f_equal. rewrite Hd. replace (d ++ slash :: c) with ((d ++ [slash]) ++ c)
        by (rewrite <- app_assoc; done). apply take_app_length'. rewrite length_app. simpl. lia.
    + rewrite Hd. unfold strlen. rewrite !length_app. simpl. lia.
  - apply orb_false_iff in E1 as [E0 E1]. rewrite streq_false in E0, E1, E2.
    assert ((strlen (dirstr stk ++ tok) <? PATH_MAX) = true) as ->.
    { apply Z.ltb_lt. unfold strlen in *. rewrite length_app. lia. }
    eexists. split; [done|]. split; [right; eauto|]. split.
    + apply Forall_app. split; [done|]. constructor; [done|constructor].
    + split; [unfold strlen; rewrite length_app; lia|].
      destruct tok as [|a tok]; [done|]. by rewrite last_is_false_app, last_is_notin.
Qed.

Lemma resolve_loop_spec fuel left left_len r stk :
  (S (length left) < fuel)%nat ->
  renders r stk -> Forall plain stk ->
  strlen left <= left_len -> (left <> [] -> left_len <> 0) ->
  strlen r + 1 + left_len + strlen left + 2 < PATH_MAX ->
  exists r', resolve_loop fuel left left_len r = Ret (Some r') /\
    renders r' (if left_len =? 0 then stk else normalise stk left) /\
    Forall plain (if left_len =? 0 then stk else normalise stk left) /\
    (left_len <> 0 -> last_is slash r' = special (last_component left)).
Proof.
  revert left left_len r stk. induction fuel as [|f IH]; intros left left_len r stk Hf Hr Hp Hl Hz Hb;
    [lia|]. simpl. destruct (Z.eqb_spec left_len 0) as [->|Hnz].
  { exists r. split; [done|]. split; [done|]. split; [done|]. by intros []. }
  unfold strlen in *.
  rewrite (ensure_slash_renders r stk) by (done || unfold strlen; lia).
  assert (length (dirstr stk) <= length r + 1)%nat as Hdl.
  { destruct Hr as [-> | (s & c & -> & ->)]; [lia|]. rewrite dirstr_snoc, length_app. simpl. lia. }
  assert ((left_len + 2 <=? PATH_MAX) = true) as -> by (apply Z.leb_le; lia). simpl.
  unfold normalise. rewrite split_slash_strchr.
  destruct (strchr slash left) as [i|] eqn:Hi.
  - pose proof Hi as Hi'. apply strchr_Some in Hi' as [Hs Hn].
    assert (length left = i + S (length (drop (S i) left)) /\ length (take i left) = i)%nat as [Hlen Hti].
    { rewrite Hs at 1. rewrite length_app. simpl.
      assert (length (take i left) = i); [|lia].
      rewrite length_take. apply (f_equal length) in Hs. rewrite length_app, length_take in Hs.
      simpl in Hs. lia. }
    destruct (Z.leb_spec PATH_MAX (Z.of_nat i)); [lia|].
    destruct (resolve_token_dirstr stk (take i left)) as (r1 & -> & Hr1 & Hp1 & Hl1 & Hs1);
      [done|done|unfold strlen; lia|]. simpl. unfold strlen in Hl1.
    destruct (IH (drop (S i) left) (left_len - Z.of_nat i) r1 (norm_step stk (take i left)))
      as (r' & Hr' & Hren & Hpl & Hsl); try done; try (intros; lia).
    rewrite Hr'. exists r'. split; [done|].
    destruct (Z.eqb_spec (left_len - Z.of_nat i) 0) as [|Hne]; [lia|].
    split; [done|]. split; [done|]. intros _. rewrite (Hsl Hne). unfold last_component.
    rewrite (split_slash_strchr left), Hi. simpl.
    destruct (split_slash (drop (S i) left)) eqn:E; [by apply split_slash_nonempty in E|done].
  - pose proof Hi as Hi'. apply strchr_None in Hi'. destruct (Z.leb_spec PATH_MAX left_len); [lia|].
    destruct (resolve_token_dirstr stk left) as (r1 & -> & Hr1 & Hp1 & Hl1 & Hs1);
      [done|done|unfold strlen; lia|]. simpl. rewrite Z.sub_diag.
    destruct f as [|f]; [lia|]. simpl. exists r1. split; [done|]. split; [done|]. split; [done|].
    intros _. unfold last_component. by rewrite split_slash_strchr, Hi.
Qed.

(** The loop and the start of [ResolvePath] together, on the stack of
    components. *)
Lemma ResolvePath_renders (cwd : option bytes) (base : list bytes) (path : bytes)
  (Hcwd : cwd = Some (match base with [] => [slash] | _ => removelast (dirstr base) end))
  (Hbase : Forall plain base)
  (Hlen : strlen (dirstr base) + 2 * strlen path + 4 < PATH_MAX) :
  let start := if prefixb [slash] path then [] else base in
  exists r, ResolvePath cwd path = Ret (strlen r, r) /\
    renders r (normalise start path) /\ Forall plain (normalise start path) /\
    (path <> [] -> last_is slash r = special (last_component path)).
Proof.
  assert (forall stk left r, renders r stk -> Forall plain stk -> strlen r <= strlen (dirstr base) ->
    strlen left <= strlen path -> left <> [] ->
    exists r', (if PATH_MAX <=? strlen r then Ret (-1, r)
      else let* x := resolve_loop (S (S (length left))) left (strlen left) r in
           Ret (match x with Some x => (strlen x, x) | None => (-1, r) end)) = Ret (strlen r', r')
      /\ renders r' (normalise stk left) /\ Forall plain (normalise stk left)
      /\ last_is slash r' = special (last_component left)) as Hloop.
  { intros stk left r Hr Hp Hl1 Hl2 Hne.
    destruct (resolve_loop_spec (S (S (length left))) left (strlen left) r stk)
      as (r' & Hr' & H1 & H2 & H3); try done; try (unfold strlen in *; lia).
    { intros _. unfold strlen. destruct left; [done|]. simpl. lia. }
    destruct (Z.leb_spec PATH_MAX (strlen r)); [unfold strlen in *; lia|].
    rewrite Hr'. cbn [obind]. exists r'. split; [done|].
    destruct (Z.eqb_spec (strlen left) 0) as [E|E]; [|auto].
    unfold strlen in E. destruct left; [done|]. simpl in E. lia. }
  assert (renders (match base with [] => [slash] | _ => removelast (dirstr base) end) base
    /\ strlen (match base with [] => [slash] | _ => removelast (dirstr base) end)
       <= strlen (dirstr base)) as [Hcr Hcl].
  { destruct base as [|c base _] using rev_ind; [split; [by left|done]|].
    rewrite dirstr_snoc, removelast_last. destruct (base ++ [c]) eqn:E.
    { by destruct base. } rewrite <- E. split; [right; eauto|].
    unfold strlen. rewrite !length_app. lia. }
  unfold ResolvePath. destruct (Z.leb_spec PATH_MAX (strlen path)); [unfold strlen in *; lia|].
  generalize dependent (match base with [] => [slash] | _ => removelast (dirstr base) end).
  intros c Hc Hcr Hcl. subst cwd.
  destruct path as [|a rest].
  { exists c. destruct (Z.leb_spec PATH_MAX (strlen c)); [unfold strlen in *; simpl in *; lia|].
    by cbn. }
  simpl prefixb. rewrite andb_true_r. destruct (ascii_eqb a slash) eqn:Ea.
  - assert (ascii_eqb slash a = true) as -> by by apply ascii_eqb_true; apply ascii_eqb_true in Ea.
    assert (normalise [] (a :: rest) = normalise [] rest
            /\ last_component (a :: rest) = last_component rest) as [-> ->].
    { unfold normalise, last_component. cbn [split_slash]. rewrite Ea. split; [done|].
      destruct (split_slash rest) eqn:E; [by apply split_slash_nonempty in E|done]. }
    destruct rest as [|b rest];
      [exists [slash]; split; [done|]; split; [by left|split; [constructor|done]]|].
    destruct (Hloop [] (b :: rest) [slash]) as (r & H1 & H2 & H3 & H4);
      [by left|constructor|unfold strlen; simpl; lia..|done|]. eauto.
  - assert (ascii_eqb slash a = false) as ->.
    { apply ascii_eqb_false. apply ascii_eqb_false in Ea. congruence. }
    destruct (Hloop base (a :: rest) c) as (r & H1 & H2 & H3 & H4); try done. eauto.
Qed.

(** C29. Path resolution is correct: for an absolute path (and, with a
    normalised working directory, for a relative one) whose resolution fits
    the buffers, [ResolvePath] returns the length of its result, and the
    result is the absolute path of the component stack obtained by dropping
    empty and "." components and popping at "..", with no such component
    left; it ends in a slash exactly when the last component of the path is
    empty, "." or "..". *)
Theorem ResolvePath_correct (cwd : option bytes) (base : list bytes) (path : bytes)
  (Hcwd : cwd = Some (match base with [] => [slash] | _ => removelast (dirstr base) end))
  (Hbase : Forall plain base)
  (Hlen : strlen (dirstr base) + 2 * strlen path + 4 < PATH_MAX) :
  let start := if prefixb [slash] path then [] else base in
  exists r, ResolvePath cwd path = Ret (strlen r, r) /\
    renders r (normalise start path) /\ Forall plain (normalise start path) /\
    (path <> [] -> last_is slash r = special (last_component path)).
Proof. by apply ResolvePath_renders. Qed.

Lemma ResolvePath_correct_witness :
  let r := B "/home/x/c" in
  ResolvePath (Some (B "/home/u")) (B "./../x//b/../c") = Ret (strlen r, r) /\
  renders r (normalise [B "home"; B "u"] (B "./../x//b/../c")).
Proof.
  destruct (ResolvePath_correct (Some (B "/home/u")) [B "home"; B "u"] (B "./../x//b/../c"))
    as (r & Hr & Hren & _).
  - reflexivity.
  - repeat constructor; try discriminate; apply strchr_None; reflexivity.
  - vm_compute. reflexivity.
  - assert (ResolvePath (Some (B "/home/u")) (B "./../x//b/../c") = Ret (9, B "/home/x/c")) as E
      by (vm_compute; reflexivity).
    rewrite E in Hr. injection Hr as _ <-. split; [exact E|exact Hren].
Defined.

(** ** Interception of mount-point paths *)

Lemma remove_all_none fuel mp s :
  mp <> [] -> (forall u v, s <> u ++ mp ++ v) -> remove_all fuel mp s = s.
Proof.
  intros Hmp. revert s. induction fuel as [|f IH]; intros s Hs; simpl; [done|].
  destruct (prefixb mp s) eqn:E.
  { apply prefixb_spec in E as [t ->]. by destruct (Hs [] t). }
  destruct s as [|a s]; [done|]. f_equal. apply IH. intros u v ->. by apply (Hs (a :: u) v).
Qed.

Lemma remove_all_prefix f mp s :
  mp <> [] -> (forall u v, s <> u ++ mp ++ v) -> remove_all (S f) mp (mp ++ s) = s.
Proof.
  intros Hmp Hs. simpl. rewrite (proj2 (prefixb_spec mp (mp ++ s))) by eauto.
  rewrite drop_app_length. by apply remove_all_none.
Qed.

Lemma convert_path_under mp rel :
  mp <> [] -> (forall u v, rel <> u ++ mp ++ v) ->
  rel <> [] -> prefixb [slash] rel = false -> last_is slash rel = false ->
  strlen mp + strlen rel + 7 < PATH_MAX ->
  convert_path mp (mp ++ rel) = Ret (IMSS_ROOT ++ rel).
Proof.
  intros Hmp Hno Hne Hp Hl Hlen. unfold convert_path, strlen in *. rewrite length_app.
  destruct (Z.leb_spec PATH_MAX (Z.of_nat (length mp + length rel))); [lia|].
  destruct mp as [|m mp']; [done|]. rewrite remove_all_prefix by done.
  destruct rel as [|a rel]; [done|]. simpl in Hp. rewrite andb_true_r in Hp.
  simpl count_slashes. assert (ascii_eqb a slash = false) as ->.
  { rewrite ascii_eqb_false in *. congruence. }
  simpl drop. rewrite Hl. cbn [length Nat.ltb Nat.leb]. change (0 <? S (length rel))%nat with true.
  cbv iota. rewrite length_app. change (length IMSS_ROOT) with 7%nat.
  destruct (Z.leb_spec PATH_MAX (Z.of_nat (7 + length (a :: rel)))); [lia|done].
Qed.


Definition relstr (s : list bytes) (c : bytes) : bytes :=
  concat (map (fun x => x ++ [slash]) s) ++ c.

Lemma dirstr_relstr mnt s c : dirstr (mnt ++ s) ++ c = dirstr mnt ++ relstr s c.
Proof. unfold dirstr, relstr. rewrite map_app, concat_app. simpl. by rewrite <- !app_assoc. Qed.

Lemma split_slash_app_slash w s : slash ∉ w -> split_slash (w ++ slash :: s) = w :: split_slash s.
Proof.
  intros Hw. rewrite split_slash_strchr, strchr_app_first by done.
  rewrite take_app_length. f_equal. f_equal.
  replace (w ++ slash :: s) with ((w ++ [slash]) ++ s) by (rewrite <- app_assoc; done).
  apply drop_app_length'. rewrite length_app. simpl. lia.
Qed.

Lemma split_slash_relstr s c :
  Forall plain s -> slash ∉ c -> split_slash (relstr s c) = s ++ [c].
Proof.
  intros Hs Hc. unfold relstr. induction Hs as [|w s [Hw _] Hs IH]; simpl.
  - by rewrite split_slash_strchr, (proj2 (strchr_None slash c)).
  - rewrite <- !app_assoc. simpl. rewrite split_slash_app_slash by done. by f_equal.
Qed.

Lemma norm_plain toks stk : Forall plain toks -> fold_left norm_step toks stk = stk ++ toks.
Proof.
  intros Ht. revert stk. induction Ht as [|t ts (_ & H1 & H2 & H3) Ht IH]; intros stk; simpl.
  - by rewrite app_nil_r.
  - rewrite IH. unfold norm_step. apply streq_false in H1, H2, H3. rewrite H1, H2, H3. simpl.
    by rewrite <- app_assoc.
Qed.

Lemma special_plain c : plain c -> special c = false.
Proof. intros (_ & H1 & H2 & H3). unfold special. apply streq_false in H1, H2, H3. by rewrite H1, H2, H3. Qed.

Lemma dirstr_cons s t : exists x, dirstr s ++ t = slash :: x.
Proof. unfold dirstr. simpl. eauto. Qed.

(** An absolute path already in normal form resolves to itself. *)
Lemma ResolvePath_normal s c :
  Forall plain (s ++ [c]) -> 2 * strlen (dirstr s ++ c) + 8 < PATH_MAX ->
  ResolvePath (Some [slash]) (dirstr s ++ c) = Ret (strlen (dirstr s ++ c), dirstr s ++ c).
Proof.
  intros Hp Hlen. pose proof Hp as Hp'. apply Forall_app in Hp' as [Hs Hc].
  apply Forall_cons in Hc as [Hc _].
  assert (split_slash (dirstr s ++ c) = [] :: s ++ [c]) as Hsp.
  { change (dirstr s ++ c) with (slash :: relstr s c). cbn [split_slash].
    rewrite ascii_eqb_refl, split_slash_relstr by (done || apply Hc). done. }
  destruct (ResolvePath_renders (Some [slash]) [] (dirstr s ++ c)) as (r & Hr & Hren & _ & Hl);
    [done|constructor|change (strlen (dirstr [])) with 1; lia|].
  change (prefixb [slash] (dirstr s ++ c)) with (ascii_eqb slash slash && true) in Hren.
  rewrite ascii_eqb_refl in Hren. simpl andb in Hren. cbv iota in Hren.
  unfold normalise in Hren. rewrite Hsp in Hren. simpl fold_left in Hren.
  change (norm_step [] []) with (@nil bytes) in Hren. rewrite norm_plain in Hren by done.
  assert (last_is slash r = false) as Hf.
  { rewrite Hl by (unfold dirstr; done). unfold last_component. rewrite Hsp.
    rewrite app_comm_cons, List.last_last. by apply special_plain. }
  destruct Hren as [-> | (s' & c' & He & ->)].
  - by rewrite dirstr_last in Hf.
  - apply app_inj_tail in He as [<- <-]. exact Hr.
Qed.

(** Interception: a resolved path below the mount point is mapped to the
    same relative path below the Hercules root, provided the relative path
    does not contain the mount point again. *)
Theorem checkHerculesPath_under (mnt s : list bytes) (c : bytes) (workdir : option bytes)
  (Hmnt : mnt <> []) (Hp : Forall plain (mnt ++ s ++ [c]))
  (Hno : forall u v, relstr s c <> u ++ dirstr mnt ++ v)
  (Hlen : 2 * strlen (dirstr mnt ++ relstr s c) + 8 < PATH_MAX) :
  checkHerculesPath (dirstr mnt) workdir (Some [slash]) (dirstr mnt ++ relstr s c)
  = Ret (Some (IMSS_ROOT ++ relstr s c)).
Proof.
  assert (Forall plain s /\ plain c) as [Hs Hc].
  { apply Forall_app in Hp as [_ Hp]. apply Forall_app in Hp as [? Hp].
    by apply Forall_cons in Hp as [? _]. }
  assert (relstr s c <> [] /\ last_is slash (relstr s c) = false
          /\ prefixb [slash] (relstr s c) = false) as (Hne & Hls & Hpre).
  { destruct Hc as (Hc1 & Hc2 & _). destruct c as [|a c]; [done|]. unfold relstr.
    split; [by intros [_ [=]]%app_nil|]. split.
    - by rewrite last_is_false_app, last_is_notin.
    - destruct s as [|w s]; simpl.
      + rewrite andb_true_r. apply ascii_eqb_false. set_solver.
      + apply Forall_cons in Hs as [(Hw1 & Hw2 & _) _]. destruct w as [|b w]; [done|].
        simpl. rewrite andb_true_r. apply ascii_eqb_false. set_solver. }
  unfold checkHerculesPath.
  set (mp := dirstr mnt) in *. set (rel := relstr s c) in *.
  assert ((length mp <=? length (mp ++ rel))%nat = true) as ->.
  { apply Nat.leb_le. rewrite length_app. lia. }
  assert (last_is slash (mp ++ rel) = false) as Hl.
  { destruct rel as [|a rel']; [done|]. by rewrite last_is_false_app. }
  rewrite Hl. cbv iota zeta.
  assert (strneq (length (mp ++ rel)) (mp ++ rel) mp = false) as ->.
  { unfold strneq. apply bool_decide_eq_false. rewrite firstn_all, take_ge.
    - intros E. rewrite <- (app_nil_r mp) in E at 2. by apply app_inv_head in E.
    - rewrite length_app. lia. }
  assert (exists x, mp = slash :: x) as [x Hx] by (unfold mp, dirstr; eauto).
  assert (match mp with [] => streq (mp ++ rel) [] | _ => strneq (length mp - 1) (mp ++ rel) mp end
          = true) as Hu.
  { rewrite Hx at 1. unfold strneq. apply bool_decide_eq_true. by rewrite take_app_le by lia. }
  rewrite Hu. cbn [obind].
  assert (strneq (length (mp ++ rel)) (mp ++ rel) (B ".") = false) as ->.
  { unfold strneq. apply bool_decide_eq_false. by rewrite firstn_all, Hx. }
  assert (prefixb (B "./") (mp ++ rel) = false) as -> by by rewrite Hx.
  unfold mp, rel in *. rewrite <- dirstr_relstr in *.
  rewrite ResolvePath_normal; [|by rewrite <- app_assoc|done]. cbn [obind].
  assert ((0 <? strlen (dirstr (mnt ++ s) ++ c)) = true) as ->.
  { apply Z.ltb_lt. unfold strlen, dirstr. simpl. lia. }
  rewrite dirstr_relstr in *. rewrite convert_path_under; try done.
  unfold strlen in *. rewrite length_app in Hlen. lia.
Qed.

Lemma checkHerculesPath_under_witness :
  checkHerculesPath (B "/mnt/hercules/") None (Some [slash]) (B "/mnt/hercules/a/b")
  = Ret (Some (B "imss://a/b")).
Proof.
  apply (checkHerculesPath_under [B "mnt"; B "hercules"] [B "a"] (B "b") None).
  - discriminate.
  - repeat constructor; try discriminate; apply strchr_None; reflexivity.
  - intros u v E. apply (f_equal (length (A := ascii))) in E.
    rewrite !length_app in E. change (length (dirstr [B "mnt"; B "hercules"])) with 14%nat in E.
    change (length (relstr [B "a"] (B "b"))) with 3%nat in E. lia.
  - vm_compute. reflexivity.
Defined.

(** Two defects of the interception: distinct files alias when a path
    repeats the mount point below it, because every occurrence is deleted and
    not only the prefix; and a sibling of the mount point that shares its
    name as a prefix is captured. *)
Theorem checkHerculesPath_defects :
  let mp := B "/mnt/hercules/" in
  checkHerculesPath mp None (Some [slash]) (B "/mnt/hercules/a/mnt/hercules/x")
  = checkHerculesPath mp None (Some [slash]) (B "/mnt/hercules/ax") /\
  checkHerculesPath mp None (Some [slash]) (B "/mnt/hercules/ax") = Ret (Some (B "imss://ax")) /\
  checkHerculesPath mp None (Some [slash]) (B "/mnt/hercules-old/x")
  = Ret (Some (B "imss://mnt/hercules-old/x")).
Proof. by vm_compute. Qed.

(** Converting the mount point itself reads before the start of the path
    buffer. *)
Theorem convert_path_mount_point (mp : bytes) (Hne : mp <> []) (Hlen : strlen mp < PATH_MAX) :
  convert_path mp mp = Undef OutOfBounds.
Proof.
  unfold convert_path. destruct (Z.leb_spec PATH_MAX (strlen mp)); [lia|].
  destruct mp as [|m mp]; [done|].
  pose proof (remove_all_prefix (length (m :: mp)) (m :: mp) []) as E. rewrite app_nil_r in E.
  rewrite E; [done|done|]. intros u v. by destruct u.
Qed.

Lemma convert_path_mount_point_witness :
  convert_path (B "/mnt/hercules/") (B "/mnt/hercules/") = Undef OutOfBounds.
Proof. apply (convert_path_mount_point (B "/mnt/hercules/")); [discriminate|reflexivity]. Defined.
