(* ===== verification/Queue.v ===== *)
(** * The shared queue of free blocks

    [src/queue.c]: a mutex-protected linked list. The heap is explicit, so
    that allocation, freeing and dangling pointers are visible; the mutex
    makes every operation atomic, so operations are functions on the state.
    The counter of elements is an [int]. *)

From S2P Require Import Prelude.

(** [StsElement]: the value and the next pointer ([None] is NULL). *)
Record StsElement := mkElem { elem_value : Z; elem_next : option positive }.

(** [StsHeader] together with the heap of its elements. *)
Record StsHeader := mkHeader {
  head : option positive;
  tail : option positive;
  qsize : Z;
  heap : gmap positive StsElement
}.

Definition create : StsHeader := mkHeader None None 0 ∅.

(** [destroy] frees the mutex and the header; the elements still linked are
    not freed. Returns the cells that remain allocated. *)
Definition destroy (q : StsHeader) : gmap positive StsElement := heap q.

Definition size (q : StsHeader) : Z := qsize q.

(** [header->size++]. *)
Definition count_up (q : StsHeader) : outcome StsHeader :=
  let* _ := guard (qsize q <? 2 ^ 31 - 1) SignedOverflow in
  Ret (mkHeader (head q) (tail q) (qsize q + 1) (heap q)).

(** [push]: [addr] is the address [malloc] returns. *)
Definition push (addr : positive) (elem : Z) (q : StsHeader) : outcome StsHeader :=
  let h := <[addr := mkElem elem None]> (heap q) in
  match head q with
  | None => count_up (mkHeader (Some addr) (Some addr) (qsize q) h)
  | Some _ =>
      match tail q with
      | None => Undef NullDeref
      | Some oldTail =>
          match h !! oldTail with
          | None => Undef UseAfterFree
          | Some e =>
              count_up (mkHeader (head q) (Some addr) (qsize q)
                      (<[oldTail := mkElem (elem_value e) (Some addr)]> h))
          end
      end
  end.

(** [pop]: [None] is the NULL result of an empty queue. *)
Definition pop (q : StsHeader) : outcome (option Z * StsHeader) :=
  match head q with
  | None => Ret (None, q)
  | Some a =>
      match heap q !! a with
      | None => Undef UseAfterFree
      | Some e =>
          Ret (Some (elem_value e),
               mkHeader (elem_next e) (tail q) (qsize q - 1) (delete a (heap q)))
      end
  end.

(** ** Representation *)

(** The cells from [from] hold the values [vs] at the addresses [addrs]. *)
Fixpoint chain (h : gmap positive StsElement) (from : option positive)
    (addrs : list positive) (vs : list Z) : Prop :=
  match addrs, vs with
  | [], [] => from = None
  | a :: addrs', v :: vs' =>
      from = Some a /\ exists n, h !! a = Some (mkElem v n) /\ chain h n addrs' vs'
  | _, _ => False
  end.

(** The queue holds [vs]; its cells are exactly the allocated ones. After
    the last [pop] the tail pointer dangles, which the invariant allows. *)
Definition repr (q : StsHeader) (vs : list Z) : Prop :=
  exists addrs,
    chain (heap q) (head q) addrs vs /\ NoDup addrs /\
    (addrs <> [] -> tail q = last addrs) /\
    dom (heap q) = list_to_set addrs /\ qsize q = Z.of_nat (length vs).

Lemma chain_length h from addrs vs : chain h from addrs vs -> length addrs = length vs.
Proof.
  revert from vs. induction addrs as [|a addrs IH]; intros from [|v vs]; simpl; try done.
  intros (_ & n & _ & Hc). by rewrite (IH n vs).
Qed.

Lemma chain_frame h h' from addrs vs :
  (forall a, a ∈ addrs -> h !! a = h' !! a) -> chain h from addrs vs -> chain h' from addrs vs.
Proof.
  revert from vs. induction addrs as [|a addrs IH]; intros from [|v vs] Heq; simpl; try done.
  intros (-> & n & Ha & Hc). split; [done|]. exists n. split.
  - rewrite <- Heq by set_solver. done.
  - apply (IH n vs); [|done]. intros b Hb. apply Heq. set_solver.
Qed.

Lemma chain_snoc h from addrs a vs v new w :
  chain h from (addrs ++ [a]) (vs ++ [v]) -> NoDup (addrs ++ [a]) -> new ∉ addrs ++ [a] ->
  h !! new = Some (mkElem w None) ->
  chain (<[a := mkElem v (Some new)]> h) from (addrs ++ [a; new]) (vs ++ [v; w]).
Proof.
  revert from vs. induction addrs as [|b addrs IH]; intros from [|u vs] Hc Hnd Hnew Hw.
  - simpl in *. destruct Hc as (-> & n & Ha & ->). split; [done|].
    exists (Some new). split; [by rewrite lookup_insert_eq|]. split; [done|]. exists None. split; [|done].
    rewrite lookup_insert_ne by set_solver. done.
  - apply chain_length in Hc. rewrite !length_app in Hc. simpl in Hc. lia.
  - apply chain_length in Hc. rewrite !length_app in Hc. simpl in Hc. lia.
  - simpl in *. destruct Hc as (-> & n & Hb & Hc). apply NoDup_cons in Hnd as [Hnb Hnd].
    split; [done|]. exists n. split.
    + rewrite lookup_insert_ne by set_solver. done.
    + apply IH; [done|done|set_solver|done].
Qed.

Lemma create_repr : repr create [].
Proof. exists []. split; [done|]. split; [constructor|]. split; [done|]. split; [set_solver|done]. Qed.

Lemma push_repr q vs addr v :
  repr q vs -> heap q !! addr = None -> Z.of_nat (length vs) < 2 ^ 31 - 1 ->
  exists q', push addr v q = Ret q' /\ repr q' (vs ++ [v]).
Proof.
  intros (addrs & Hc & Hnd & Htl & Hdom & Hsz) Hfresh Hroom.
  assert (guard (qsize q <? 2 ^ 31 - 1) SignedOverflow = Ret ()) as Hgrow.
  { destruct (Z.ltb_spec (qsize q) (2 ^ 31 - 1)); [done|lia]. }
  assert (addr ∉ addrs) as Hna.
  { apply not_elem_of_dom in Hfresh. rewrite Hdom in Hfresh. set_solver. }
  unfold push, count_up. cbn [qsize head tail heap]. rewrite Hgrow. cbn [obind].
  destruct addrs as [|a0 addrs _] using rev_ind.
  - destruct vs as [|]; [|by apply chain_length in Hc]. simpl in Hc. rewrite Hc.
    eexists. split; [done|]. exists [addr]. simpl. split.
    { split; [done|]. exists None. by rewrite lookup_insert_eq. }
    split; [apply NoDup_singleton|]. split; [done|]. split; [|by rewrite Hsz].
    rewrite dom_insert_L, Hdom. set_solver.
  - destruct vs as [|v0 vs _] using rev_ind.
    { apply chain_length in Hc. rewrite length_app in Hc. simpl in Hc. lia. }
    rewrite Htl by (by intros [_ [=]]%app_nil). rewrite last_snoc.
    assert (exists h0, head q = Some h0) as [h0 Hh].
    { destruct addrs, vs; simpl in Hc; destruct Hc as [-> _] || done; eauto. }
    rewrite Hh.
    assert (chain (<[addr:=mkElem v None]> (heap q)) (head q) (addrs ++ [a0]) (vs ++ [v0])) as Hc'.
    { eapply chain_frame; [|done]. intros b Hb. rewrite lookup_insert_ne; set_solver. }
    assert (exists n, <[addr:=mkElem v None]> (heap q) !! a0 = Some (mkElem v0 n)) as [n Ha0].
    { clear -Hc'. generalize dependent (head q). generalize dependent vs.
      induction addrs as [|b addrs IH]; intros [|u vs] from Hc.
      - simpl in Hc. destruct Hc as (_ & n & Hn & _). eauto.
      - apply chain_length in Hc. rewrite !length_app in Hc. simpl in Hc. lia.
      - apply chain_length in Hc. rewrite !length_app in Hc. simpl in Hc. lia.
      - simpl in Hc. destruct Hc as (_ & n & _ & Hc). by apply IH in Hc. }
    rewrite Ha0. eexists. split; [done|]. exists (addrs ++ [a0; addr]). simpl. split.
    { rewrite <- Hh, <- app_assoc. simpl. apply chain_snoc; [done|done|set_solver|].
      by rewrite lookup_insert_eq. }
    split.
    { replace (addrs ++ [a0; addr]) with ((addrs ++ [a0]) ++ [addr]) by (by rewrite <- app_assoc).
      apply NoDup_app. split; [done|]. split; [set_solver|apply NoDup_singleton]. }
    split; [intros _; by rewrite last_app|]. split.
    { rewrite !dom_insert_L, Hdom. set_solver. }
    rewrite Hsz, !length_app. simpl. lia.
Qed.

Lemma pop_repr q v vs :
  repr q (v :: vs) -> exists q', pop q = Ret (Some v, q') /\ repr q' vs.
Proof.
  intros (addrs & Hc & Hnd & Htl & Hdom & Hsz). destruct addrs as [|a addrs]; [done|].
  simpl in Hc. destruct Hc as (Hh & n & Ha & Hc). unfold pop. rewrite Hh, Ha.
  eexists. split; [done|]. apply NoDup_cons in Hnd as [Hna Hnd]. exists addrs. simpl. split.
  { eapply chain_frame; [|done]. intros b Hb. rewrite lookup_delete_ne; set_solver. }
  split; [done|]. split.
  { intros Hne. rewrite Htl by done. by destruct addrs. }
  split; [rewrite dom_delete_L, Hdom; set_solver|]. rewrite Hsz. simpl. lia.
Qed.

Lemma pop_empty q : repr q [] -> pop q = Ret (None, q).
Proof.
  intros (addrs & Hc & _). destruct addrs; [|done]. simpl in Hc. unfold pop. by rewrite Hc.
Qed.

(** ** Sequences of operations *)

Inductive qop := QPush (addr : positive) (v : Z) | QPop.

(** The addresses a run passes to [push] must be fresh, as [malloc]'s are. *)
Fixpoint run (ops : list qop) (q : StsHeader) : outcome (list (option Z) * StsHeader) :=
  match ops with
  | [] => Ret ([], q)
  | QPush a v :: ops' =>
      match heap q !! a with
      | Some _ => Exit 0
      | None => let* q' := push a v q in run ops' q'
      end
  | QPop :: ops' =>
      let* r := pop q in
      let '(o, q') := r in
      let* r' := run ops' q' in
      let '(os, q'') := r' in Ret (o :: os, q'')
  end.

(** The abstract first-in first-out queue. *)
Fixpoint fifo (ops : list qop) (vs : list Z) : list (option Z) * list Z :=
  match ops with
  | [] => ([], vs)
  | QPush _ v :: ops' => fifo ops' (vs ++ [v])
  | QPop :: ops' =>
      match vs with
      | [] => let '(os, r) := fifo ops' [] in (None :: os, r)
      | v :: vs' => let '(os, r) := fifo ops' vs' in (Some v :: os, r)
      end
  end.

(** No more elements at any time than the counter can count. *)
Definition countable (ops : list qop) (vs : list Z) : Prop :=
  forall pre, pre `prefix_of` ops -> Z.of_nat (length (snd (fifo pre vs))) < 2 ^ 31.

Lemma fifo_length ops vs : (length (snd (fifo ops vs)) <= length vs + length ops)%nat.
Proof.
  revert vs. induction ops as [|[a v|] ops IH]; intros vs; simpl; [lia|..].
  - specialize (IH (vs ++ [v])). rewrite length_app in IH. simpl in IH. lia.
  - destruct vs as [|v vs]; [specialize (IH [])|specialize (IH vs)]; destruct (fifo ops _); simpl in *; lia.
Qed.

Lemma countable_short ops vs : Z.of_nat (length vs + length ops) < 2 ^ 31 -> countable ops vs.
Proof. intros Hl pre Hpre%prefix_length. pose proof (fifo_length pre vs). lia. Qed.

Lemma countable_push a v ops vs : countable (QPush a v :: ops) vs ->
  Z.of_nat (length vs) < 2 ^ 31 - 1 /\ countable ops (vs ++ [v]).
Proof.
  intros Hc. split.
  - assert ([QPush a v] `prefix_of` QPush a v :: ops) as Hp by (by exists ops).
    specialize (Hc _ Hp). cbn in Hc. rewrite length_app in Hc. simpl in Hc. lia.
  - intros pre Hp. apply (Hc (QPush a v :: pre)). by apply prefix_cons.
Qed.

Lemma countable_pop ops vs : countable (QPop :: ops) vs -> countable ops (List.tl vs).
Proof.
  intros Hc pre Hp. assert (QPop :: pre `prefix_of` QPop :: ops) as Hp' by (by apply prefix_cons).
  specialize (Hc _ Hp'). cbn in Hc. destruct vs; simpl; by destruct (fifo pre _).
Qed.

Lemma run_fifo ops q vs :
  repr q vs -> countable ops vs ->
  run ops q = Exit 0 \/
  exists q', run ops q = Ret (fst (fifo ops vs), q') /\ repr q' (snd (fifo ops vs)).
Proof.
  revert q vs. induction ops as [|[a v|] ops IH]; intros q vs Hq Hcount; simpl; [eauto|..].
  - apply countable_push in Hcount as [Hl Hcount]. destruct (heap q !! a) eqn:E; [by left|].
    destruct (push_repr q vs a v Hq E Hl) as (q' & -> & Hq'). simpl. by apply IH.
  - apply countable_pop in Hcount. destruct vs as [|v vs]; cbn [List.tl] in Hcount.
    + rewrite (pop_empty q Hq). simpl. destruct (IH q [] Hq Hcount) as [-> | (q' & -> & Hq')]; [by left|].
      right. destruct (fifo ops []) as [os r]. simpl in *. eauto.
    + destruct (pop_repr q v vs Hq) as (q1 & -> & Hq1). simpl.
      destruct (IH q1 vs Hq1 Hcount) as [-> | (q' & -> & Hq')]; [by left|].
      right. destruct (fifo ops vs) as [os r]. simpl in *. eauto.
Qed.

(** C30. Refinement: every sequence of [push] and [pop] on a fresh queue, with
    the addresses [malloc] hands out and never 2^31 elements at once, which the
    counter could not count, is memory safe, returns what a
    first-in first-out queue returns (NULL exactly when it is empty), and
    leaves a size equal to the number of stored elements and no other cell
    allocated. *)
Theorem queue_refines_fifo (ops : list qop) (Hmalloc : run ops create <> Exit 0) (Hcount : countable ops []) :
  exists q, run ops create = Ret (fst (fifo ops []), q) /\ repr q (snd (fifo ops [])) /\
            size q = Z.of_nat (length (snd (fifo ops []))).
Proof.
  destruct (run_fifo ops create [] create_repr Hcount) as [?|(q & Hq & Hr)]; [done|].
  exists q. split; [done|]. split; [done|]. destruct Hr as (? & _ & _ & _ & _ & Hs). exact Hs.
Qed.

(** A cell freed by [pop] is reused; the dangling tail is never followed. *)
Lemma queue_refines_fifo_witness :
  let ops := [QPush 1 7; QPush 2 8; QPop; QPop; QPop; QPush 1 9; QPush 2 10; QPop]%positive in
  exists q, run ops create = Ret ([Some 7; Some 8; None; Some 9], q) /\ size q = 1.
Proof.
  destruct (queue_refines_fifo
    [QPush 1 7; QPush 2 8; QPop; QPop; QPop; QPush 1 9; QPush 2 10; QPop]%positive)
    as (q & H1 & _ & H3).
  - vm_compute. discriminate.
  - apply countable_short. vm_compute. reflexivity.
  - exists q. split; [exact H1|exact H3].
Defined.
