(* ===== verification/Config.v ===== *)
(** * Configuration files

    [src/cfg_parse.c]: an ordered list of key/value pairs with normalised
    keys, its file format, and loading and saving. A NULL pointer argument is
    [None]. *)

From S2P Require Import Prelude.

Record cfg_node := mkNode { key : bytes; val : bytes }.
#[global] Instance cfg_node_eq_dec : EqDecision cfg_node.
Proof. solve_decision. Defined.

(** [struct cfg_struct]: the nodes from [head] on. *)
Abbreviation cfg_struct := (list cfg_node).

Definition EXIT_SUCCESS : Z := 0.
Definition EXIT_FAILURE : Z := 1.
Definition CFG_MAX_LINE : nat := 256.

(** ** Helpers *)

Definition tolower (a : ascii) : ascii :=
  if (65 <=? byteZ a) && (byteZ a <=? 90) then chr (byteZ a + 32) else a.

(** [while (tlen > 0 && isspace(str[tlen - 1])) tlen --]. *)
Fixpoint rtrim (s : bytes) : bytes :=
  match s with
  | [] => []
  | a :: s' => match rtrim s' with
               | [] => if isspace a then [] else [a]
               | t => a :: t
               end
  end.

Definition cfg_trim (str : bytes) : bytes := rtrim (skip_space str).

Definition cfg_norm_key (k : bytes) : option bytes :=
  match rtrim (skip_space k) with
  | [] => None
  | t => Some (tolower <$> t)
  end.

Definition cfg_create_node (k v : bytes) : cfg_node := mkNode k v.

(** ** Public operations *)

Definition cfg_init : cfg_struct := [].

(** Every node is unlinked and freed. *)
Fixpoint cfg_free (cfg : cfg_struct) : cfg_struct :=
  match cfg with
  | [] => []
  | _ :: rest => cfg_free rest
  end.

Fixpoint lookup_key (tkey : bytes) (cur : cfg_struct) : option bytes :=
  match cur with
  | [] => None
  | n :: rest => if streq tkey (key n) then Some (val n) else lookup_key tkey rest
  end.

Definition cfg_get (cfg : option cfg_struct) (k : option bytes) : option bytes :=
  match cfg, k with
  | Some (n :: rest), Some k =>
      match cfg_norm_key k with
      | None => None
      | Some tkey => lookup_key tkey (n :: rest)
      end
  | _, _ => None
  end.

Definition cfg_get_keys (cfg : option cfg_struct) : option (list bytes) :=
  match cfg with
  | Some (n :: rest) =>
      if 2 ^ 61 - 1 <? Z.of_nat (length (n :: rest)) then None else Some (map key (n :: rest))
  | _ => None
  end.

(** The loop of [cfg_delete]: splices out the first match. *)
Fixpoint delete_key (tkey : bytes) (cur : cfg_struct) : cfg_struct :=
  match cur with
  | [] => []
  | n :: rest => if streq tkey (key n) then rest else n :: delete_key tkey rest
  end.

Definition cfg_delete (cfg : option cfg_struct) (k : option bytes) : option cfg_struct :=
  match cfg, k with
  | Some (n :: rest), Some k =>
      match cfg_norm_key k with
      | None => cfg
      | Some tkey => Some (delete_key tkey (n :: rest))
      end
  | _, _ => cfg
  end.

(** The loop of [cfg_set]: updates the first match or appends. *)
Fixpoint set_key (tkey tvalue : bytes) (cur : cfg_struct) : cfg_struct :=
  match cur with
  | [] => [cfg_create_node tkey tvalue]
  | n :: rest => if streq tkey (key n) then mkNode (key n) tvalue :: rest
                 else n :: set_key tkey tvalue rest
  end.

Definition cfg_set (cfg : option cfg_struct) (k v : option bytes) : option cfg_struct :=
  match v with
  | None => cfg_delete cfg k
  | Some v =>
      match cfg, k with
      | Some c, Some k =>
          match cfg_norm_key k with
          | None => cfg
          | Some tkey => Some (set_key tkey (cfg_trim v) c)
          end
      | _, _ => cfg
      end
  end.

Definition cfg_set_array (cfg : option cfg_struct) (kvs : list (option bytes * option bytes))
  : option cfg_struct :=
  match cfg with
  | None => None
  | Some _ => fold_left (fun c kv => cfg_set c (fst kv) (snd kv)) kvs cfg
  end.

Definition cfg_delete_array (cfg : option cfg_struct) (keys : list (option bytes))
  : option cfg_struct :=
  match cfg with
  | Some (_ :: _) => fold_left cfg_delete keys cfg
  | _ => cfg
  end.

(** The first loop of [cfg_prune]: the normalised keys to keep. *)
Definition norm_keys (keys : list (option bytes)) : list bytes :=
  omap (fun k => match k with Some k => cfg_norm_key k | None => None end) keys.

Fixpoint prune_loop (tkeys : list bytes) (cur : cfg_struct) : cfg_struct :=
  match cur with
  | [] => []
  | n :: rest => if existsb (fun t => streq t (key n)) tkeys then n :: prune_loop tkeys rest
                 else prune_loop tkeys rest
  end.

Definition cfg_prune (cfg : option cfg_struct) (keys : list (option bytes)) : option cfg_struct :=
  match cfg with
  | Some (n :: rest) =>
      match norm_keys keys with
      | [] => cfg
      | tkeys => Some (prune_loop tkeys (n :: rest))
      end
  | _ => cfg
  end.

(** ** Files *)

Definition newline : ascii := "010"%char.
Definition NUL : ascii := "000"%char.
Definition hash_sign : ascii := "#"%char.
Definition equals : ascii := "="%char.

(** [fgets(buffer, n + 1, fp)]: at most [n] characters, up to and including
    a newline. *)
Fixpoint fgets (n : nat) (s : bytes) : bytes * bytes :=
  match n, s with
  | S n', a :: s' => if ascii_eqb a newline then ([a], s')
                     else let '(l, r) := fgets n' s' in (a :: l, r)
  | _, _ => ([], s)
  end.

#[global] Arguments fgets : simpl never.

(** The text of a buffer before the first [c]. *)
Definition cut (c : ascii) (s : bytes) : bytes :=
  match strchr c s with Some i => take i s | None => s end.

(** The body of the loop of [cfg_load] on one buffer. *)
Definition load_line (cfg : option cfg_struct) (buffer : bytes) : option cfg_struct :=
  let buffer := cut hash_sign (cut NUL buffer) in
  match strchr equals buffer with
  | Some i => cfg_set cfg (Some (take i buffer)) (Some (drop (S i) buffer))
  | None => cfg
  end.

Fixpoint load_loop (fuel : nat) (s : bytes) (cfg : option cfg_struct) : option cfg_struct :=
  match fuel, s with
  | S f, _ :: _ => let '(line, rest) := fgets CFG_MAX_LINE s in load_loop f rest (load_line cfg line)
  | _, _ => cfg
  end.

(** [cfg_load]: [file] is the content [fopen] gives access to, [None] when
    it fails. *)
Definition cfg_load (cfg : option cfg_struct) (filename : option bytes) (file : option bytes)
  : Z * option cfg_struct :=
  match cfg, filename, file with
  | Some _, Some _, Some content => (EXIT_SUCCESS, load_loop (length content) content cfg)
  | _, _, _ => (EXIT_FAILURE, cfg)
  end.

(** [cfg_save]: the text written and the result; [put_ok i] tells whether the
    output call number [i] succeeds. *)
Fixpoint save_loop (put_ok : nat -> bool) (i : nat) (cur : cfg_struct) : Z * bytes :=
  match cur with
  | [] => (EXIT_SUCCESS, [])
  | n :: rest =>
      if negb (put_ok i) then (EXIT_FAILURE, [])
      else if negb (put_ok (S i)) then (EXIT_FAILURE, key n)
      else if negb (put_ok (S (S i))) then (EXIT_FAILURE, key n ++ [equals])
      else if negb (put_ok (S (S (S i)))) then (EXIT_FAILURE, key n ++ equals :: val n)
      else let '(r, t) := save_loop put_ok (4 + i) rest in
           (r, key n ++ equals :: val n ++ newline :: t)
  end.

Definition cfg_save (cfg : option cfg_struct) (filename : option bytes) (opened : bool)
    (put_ok : nat -> bool) : Z * bytes :=
  match cfg, filename with
  | Some c, Some _ => if opened then save_loop put_ok 0 c else (EXIT_FAILURE, [])
  | _, _ => (EXIT_FAILURE, [])
  end.

(** ** Invariant *)

(** A stored key is the normal form of some text; stored values are
    trimmed. *)
Definition normal_key (k : bytes) : Prop := exists s, cfg_norm_key s = Some k.
Definition trimmed (v : bytes) : Prop := cfg_trim v = v.

Definition cfg_wf (cfg : cfg_struct) : Prop :=
  NoDup (map key cfg) /\ Forall (fun n => normal_key (key n) /\ trimmed (val n)) cfg.

(** ** Trimming *)

Definition no_space_head (s : bytes) : Prop :=
  match s with a :: _ => isspace a = false | [] => True end.

Lemma skip_space_head s : no_space_head (skip_space s).
Proof. induction s as [|a s IH]; simpl; [done|]. destruct (isspace a) eqn:E; [done|]. simpl. done. Qed.

Lemma skip_space_id s : no_space_head s -> skip_space s = s.
Proof. destruct s as [|a s]; simpl; [done|]. by intros ->. Qed.

Lemma rtrim_id s : rtrim (rtrim s) = rtrim s.
Proof.
  induction s as [|a s IH]; simpl; [done|].
  destruct (rtrim s) as [|b t] eqn:E.
  - destruct (isspace a) eqn:Ea; simpl; [done|]. by rewrite Ea.
  - simpl in *. by rewrite IH.
Qed.

Lemma rtrim_head s : no_space_head s -> no_space_head (rtrim s).
Proof.
  destruct s as [|a s]; simpl; [done|]. intros Ha. destruct (rtrim s); simpl; [|done].
  by rewrite Ha.
Qed.

Lemma trimmed_cfg_trim v : trimmed (cfg_trim v).
Proof.
  unfold trimmed, cfg_trim. rewrite (skip_space_id (rtrim _)).
  - apply rtrim_id.
  - apply rtrim_head, skip_space_head.
Qed.

Lemma rtrim_incl s a : a ∈ rtrim s -> a ∈ s.
Proof.
  induction s as [|b s IH]; simpl; [done|]. destruct (rtrim s) as [|c t] eqn:E.
  - destruct (isspace b); set_solver.
  - set_solver.
Qed.

Lemma isspace_tolower a : isspace (tolower a) = isspace a.
Proof. revert a. intros [[] [] [] [] [] [] [] []]; by vm_compute. Qed.

Lemma tolower_idemp a : tolower (tolower a) = tolower a.
Proof. revert a. intros [[] [] [] [] [] [] [] []]; by vm_compute. Qed.

Lemma rtrim_tolower s : rtrim (tolower <$> s) = tolower <$> rtrim s.
Proof.
  induction s as [|a s IH]; [done|]. rewrite fmap_cons. cbn [rtrim]. rewrite IH.
  destruct (rtrim s); [|done]. cbn. rewrite isspace_tolower. by destruct (isspace a).
Qed.

(** Normalisation is idempotent on the keys the structure stores. *)
Lemma norm_normal k : normal_key k -> cfg_norm_key k = Some k.
Proof.
  intros [s Hs]. unfold cfg_norm_key in *. pose proof (rtrim_id (skip_space s)) as Hi.
  pose proof (rtrim_head _ (skip_space_head s)) as Hh.
  destruct (rtrim (skip_space s)) as [|a t] eqn:E; [done|]. injection Hs as <-.
  rewrite skip_space_id.
  - change (tolower a :: list_fmap _ _ tolower t) with (tolower <$> a :: t).
    rewrite rtrim_tolower, Hi. transitivity (Some (tolower <$> (tolower <$> a :: t))); [done|].
    f_equal. rewrite <- list_fmap_compose. apply list_fmap_ext. intros i x _. apply tolower_idemp.
  - simpl in *. by rewrite isspace_tolower.
Qed.

(** ** List lemmas *)

Lemma lookup_set_key k k' v c :
  lookup_key k' (set_key k v c) = if streq k' k then Some v else lookup_key k' c.
Proof.
  induction c as [|n c IH]; simpl; [done|].
  destruct (streq k (key n)) eqn:E; simpl.
  - apply streq_true in E as ->. by destruct (streq k' (key n)).
  - rewrite IH. destruct (streq k' (key n)) eqn:E'; [|done].
    apply streq_true in E' as ->. destruct (streq (key n) k) eqn:E2; [|done].
    apply streq_true in E2. apply streq_false in E. congruence.
Qed.

Lemma set_key_keys k v c :
  map key (set_key k v c) = if decide (k ∈ map key c) then map key c else (map key c) ++ [k].
Proof.
  induction c as [|n c IH]; simpl; [done|]. destruct (streq k (key n)) eqn:E; simpl.
  - apply streq_true in E as ->. rewrite decide_True by set_solver. done.
  - rewrite IH. apply streq_false in E. case_decide.
    + rewrite decide_True by set_solver. done.
    + rewrite decide_False by set_solver. done.
Qed.

Lemma set_key_wf k v c : normal_key k -> trimmed v -> cfg_wf c -> cfg_wf (set_key k v c).
Proof.
  intros Hk Hv [Hnd Hf]. split.
  - rewrite set_key_keys. case_decide; [done|]. apply NoDup_app.
    split; [done|]. split; [set_solver|apply NoDup_singleton].
  - clear Hnd. induction Hf as [|n c [H1 H2] Hf IH]; simpl; [repeat constructor; done|].
    case_match; repeat constructor; done.
Qed.

Lemma delete_key_sub k c : sublist (map key (delete_key k c)) (map key c).
Proof.
  induction c as [|n c IH]; simpl; [done|]. case_match; simpl; [by apply sublist_cons|].
  by apply sublist_skip.
Qed.

Lemma Forall_delete_key P k c : Forall P c -> Forall P (delete_key k c).
Proof. induction 1; simpl; [done|]. case_match; [done|]. by constructor. Qed.

Lemma delete_key_wf k c : cfg_wf c -> cfg_wf (delete_key k c).
Proof.
  intros [Hnd Hf]. split; [|by apply Forall_delete_key].
  eapply sublist_NoDup; [done|apply delete_key_sub].
Qed.

Lemma lookup_key_notin k c : k ∉ map key c -> lookup_key k c = None.
Proof.
  induction c as [|n c IH]; simpl; [done|]. intros Hn. destruct (streq k (key n)) eqn:E.
  - apply streq_true in E. set_solver.
  - apply IH. set_solver.
Qed.

Lemma lookup_delete_key k k' c :
  NoDup (map key c) -> lookup_key k' (delete_key k c) = if streq k' k then None else lookup_key k' c.
Proof.
  induction c as [|n c IH]; simpl; [by case_match|]. intros [Hn Hnd]%NoDup_cons.
  destruct (streq k (key n)) eqn:E.
  - apply streq_true in E as ->. destruct (streq k' (key n)) eqn:E'; [|done].
    apply streq_true in E' as ->. by apply lookup_key_notin.
  - simpl. rewrite IH by done. destruct (streq k' (key n)) eqn:E'; [|done].
    apply streq_true in E' as ->. destruct (streq (key n) k) eqn:E2; [|done].
    apply streq_true in E2. apply streq_false in E. congruence.
Qed.

Lemma prune_loop_filter ts c :
  prune_loop ts c = List.filter (fun n => existsb (fun t => streq t (key n)) ts) c.
Proof. induction c as [|n c IH]; simpl; [done|]. case_match; by rewrite IH. Qed.

Lemma existsb_streq ts k : existsb (fun t => streq t k) ts = true <-> k ∈ ts.
Proof.
  rewrite existsb_exists, list_elem_of_In. split.
  - intros (t & Ht & ->%streq_true). done.
  - intros Hk. exists k. by rewrite streq_true.
Qed.

Lemma lookup_prune ts k c :
  lookup_key k (prune_loop ts c) = if bool_decide (k ∈ ts) then lookup_key k c else None.
Proof.
  induction c as [|n c IH]; simpl; [by case_bool_decide|].
  destruct (existsb _ ts) eqn:E; simpl; rewrite IH; [|].
  - apply existsb_streq in E. destruct (streq k (key n)) eqn:E'; [|done].
    apply streq_true in E' as ->. by rewrite bool_decide_eq_true_2.
  - destruct (streq k (key n)) eqn:E'; [|done]. apply streq_true in E' as ->.
    rewrite bool_decide_eq_false_2; [done|]. intros Hin%existsb_streq. congruence.
Qed.

(** ** Preservation of the invariant *)

Lemma cfg_norm_key_normal s k : cfg_norm_key s = Some k -> normal_key k.
Proof. intros H. by exists s. Qed.

Lemma prune_loop_wf ts c : cfg_wf c -> cfg_wf (prune_loop ts c).
Proof.
  intros [Hnd Hf]. rewrite prune_loop_filter. split.
  - clear Hf. induction c as [|n c IH]; simpl; [constructor|]. apply NoDup_cons in Hnd as [Hn Hnd].
    case_match; [|by apply IH]. simpl. apply NoDup_cons. split; [|by apply IH].
    intros Hin. apply Hn. apply list_elem_of_In, in_map_iff in Hin as (m & <- & Hm%List.filter_In).
    apply list_elem_of_In, in_map. tauto.
  - clear Hnd. induction Hf; simpl; [constructor|]. case_match; [by constructor|done].
Qed.

Lemma cfg_delete_wf c k c' : cfg_wf c -> cfg_delete (Some c) k = Some c' -> cfg_wf c'.
Proof.
  intros Hwf. unfold cfg_delete. destruct c as [|n c]; [by intros [= <-]|].
  destruct k as [k|]; [|by intros [= <-]]. destruct (cfg_norm_key k); intros [= <-]; [|done].
  by apply (delete_key_wf _ (n :: c)).
Qed.

Lemma cfg_set_wf c k v c' : cfg_wf c -> cfg_set (Some c) k v = Some c' -> cfg_wf c'.
Proof.
  intros Hwf. unfold cfg_set. destruct v as [v|]; [|by apply cfg_delete_wf].
  destruct k as [k|]; [|by intros [= <-]].
  destruct (cfg_norm_key k) eqn:E; intros [= <-]; [|done].
  apply set_key_wf; [by eapply cfg_norm_key_normal|apply trimmed_cfg_trim|done].
Qed.

Lemma cfg_set_Some c k v : exists c', cfg_set (Some c) k v = Some c'.
Proof.
  unfold cfg_set, cfg_delete. destruct v as [v|], k as [k|], c as [|n c]; simpl; eauto;
    destruct (cfg_norm_key k); eauto.
Qed.

Lemma load_loop_wf fuel s c :
  cfg_wf c -> exists c', load_loop fuel s (Some c) = Some c' /\ cfg_wf c'.
Proof.
  revert s c. induction fuel as [|f IH]; intros s c Hwf; simpl; [eauto|].
  destruct s as [|a s]; [eauto|]. destruct (fgets CFG_MAX_LINE (a :: s)) as [line rest].
  unfold load_line. set (b := cut hash_sign (cut NUL line)).
  destruct (strchr equals b) as [i|]; [|by apply IH].
  destruct (cfg_set_Some c (Some (take i b)) (Some (drop (S i) b))) as [c' Hc'].
  rewrite Hc'. apply IH. by eapply cfg_set_wf.
Qed.

Lemma fold_cfg_wf {X} (f : option cfg_struct -> X -> option cfg_struct) xs c :
  (forall c x, cfg_wf c -> exists c', f (Some c) x = Some c' /\ cfg_wf c') ->
  cfg_wf c -> exists c', fold_left f xs (Some c) = Some c' /\ cfg_wf c'.
Proof.
  intros Hf. revert c. induction xs as [|x xs IH]; intros c Hwf; simpl; [eauto|].
  destruct (Hf c x Hwf) as (c' & -> & Hwf'). by apply IH.
Qed.

(** Every operation that changes a configuration keeps its keys unique
    and normalised and its values trimmed. *)
Theorem cfg_invariant (c : cfg_struct) (Hwf : cfg_wf c) :
  (forall k v, exists c', cfg_set (Some c) k v = Some c' /\ cfg_wf c') /\
  (forall kvs, exists c', cfg_set_array (Some c) kvs = Some c' /\ cfg_wf c') /\
  (forall k, exists c', cfg_delete (Some c) k = Some c' /\ cfg_wf c') /\
  (forall ks, exists c', cfg_delete_array (Some c) ks = Some c' /\ cfg_wf c') /\
  (forall ks, exists c', cfg_prune (Some c) ks = Some c' /\ cfg_wf c') /\
  (forall fn text, exists c', snd (cfg_load (Some c) fn text) = Some c' /\ cfg_wf c').
Proof.
  assert (forall c k v, cfg_wf c -> exists c', cfg_set (Some c) k v = Some c' /\ cfg_wf c') as Hset.
  { intros c0 k v H0. destruct (cfg_set_Some c0 k v) as [c' Hc']. eauto using cfg_set_wf. }
  split; [auto|]. split; [intros; apply fold_cfg_wf; auto|].
  split; [intros k; apply (Hset c k None); done|]. split.
  { intros ks. unfold cfg_delete_array. destruct c; [eauto|].
    apply (fold_cfg_wf cfg_delete); [|done]. intros c' k H'. by apply (Hset c' k None). }
  split.
  - intros ks. unfold cfg_prune. destruct c as [|n c]; [eauto|]. destruct (norm_keys ks); [eauto|].
    eauto using prune_loop_wf.
  - intros [fn|] [text|]; simpl; eauto using load_loop_wf.
Qed.

Lemma cfg_invariant_witness :
  exists c', cfg_set (Some [mkNode (B "policy") (B "RR")]) (Some (B " Block_Size ")) (Some (B "512 "))
             = Some c' /\ cfg_wf c'.
Proof.
  apply (cfg_invariant [mkNode (B "policy") (B "RR")]). split.
  - apply NoDup_singleton.
  - constructor; [|constructor]. split; [exists (B "policy")|]; reflexivity.
Defined.

(** Lookups after updates: setting a key makes every spelling of it (up
    to case and surrounding white space) read the trimmed value and leaves
    the other keys alone; deleting removes it; pruning keeps exactly the
    named keys. *)
Theorem cfg_get_updates (c : cfg_struct) (k v k' : bytes) (tk tk' : bytes) (ks : list (option bytes))
  (Hwf : cfg_wf c) (Hk : cfg_norm_key k = Some tk) (Hk' : cfg_norm_key k' = Some tk')
  (Hks : norm_keys ks <> []) :
  cfg_get (cfg_set (Some c) (Some k) (Some v)) (Some k')
    = (if streq tk' tk then Some (cfg_trim v) else cfg_get (Some c) (Some k')) /\
  cfg_get (cfg_delete (Some c) (Some k)) (Some k')
    = (if streq tk' tk then None else cfg_get (Some c) (Some k')) /\
  cfg_get (cfg_prune (Some c) ks) (Some k')
    = (if bool_decide (tk' ∈ norm_keys ks) then cfg_get (Some c) (Some k') else None).
Proof.
  destruct Hwf as [Hnd _].
  assert (forall c, cfg_get (Some c) (Some k') = lookup_key tk' c) as Hget.
  { intros [|n c0]; simpl; [done|]. by rewrite Hk'. }
  split; [|split].
  - unfold cfg_set. rewrite Hk, !Hget. apply lookup_set_key.
  - unfold cfg_delete. destruct c as [|n c]; [by destruct (streq tk' tk)|].
    rewrite Hk, !Hget. by apply lookup_delete_key.
  - unfold cfg_prune. destruct c as [|n c]; [by case_bool_decide|].
    destruct (norm_keys ks) eqn:E; [done|]. rewrite !Hget. apply lookup_prune.
Qed.

Lemma cfg_get_updates_witness :
  cfg_get (cfg_set (Some []) (Some (B "URI")) (Some (B " imss:// "))) (Some (B " uri"))
  = Some (B "imss://").
Proof.
  apply (cfg_get_updates [] (B "URI") (B " imss:// ") (B " uri") (B "uri") (B "uri") [Some (B "a")]).
  - split; constructor.
  - reflexivity.
  - reflexivity.
  - discriminate.
Defined.

(** ** Saving and loading *)

(** What the text format can carry: neither delimiter, comment sign, newline
    nor NUL in the key, no comment sign, newline or NUL in the value, and a
    line that fits the read buffer. *)
Definition printable (n : cfg_node) : Prop :=
  (equals ∉ key n) /\
  (forall c, c ∈ [hash_sign; newline; NUL] -> (c ∉ key n) /\ (c ∉ val n)) /\
  (length (key n) + length (val n) + 2 <= CFG_MAX_LINE)%nat.

Lemma fgets_cons n a s :
  fgets (S n) (a :: s) = if ascii_eqb a newline then ([a], s)
                         else let '(l, r) := fgets n s in (a :: l, r).
Proof. done. Qed.

Lemma fgets_line l rest n :
  newline ∉ l -> (S (length l) <= n)%nat -> fgets n (l ++ newline :: rest) = (l ++ [newline], rest).
Proof.
  revert n. induction l as [|a l IH]; intros n Hn Hl; (destruct n as [|n]; [simpl in Hl; lia|]).
  - done.
  - simpl app. rewrite fgets_cons. destruct (ascii_eqb a newline) eqn:E.
    { apply ascii_eqb_true in E. set_solver. }
    rewrite IH; [done|set_solver|simpl in Hl; lia].
Qed.

Lemma cut_none c s : c ∉ s -> cut c s = s.
Proof. intros Hc. unfold cut. by rewrite (proj2 (strchr_None c s)). Qed.

Lemma rtrim_app_space s : rtrim (s ++ [newline]) = rtrim s.
Proof.
  induction s as [|a s IH]; simpl; [done|]. by rewrite IH.
Qed.

Lemma skip_space_app_space s :
  skip_space (s ++ [newline]) = if bool_decide (skip_space s = []) then [] else skip_space s ++ [newline].
Proof.
  induction s as [|a s IH]; simpl; [done|]. destruct (isspace a); [done|].
  by rewrite bool_decide_eq_false_2.
Qed.

Lemma cfg_trim_newline s : cfg_trim (s ++ [newline]) = cfg_trim s.
Proof.
  unfold cfg_trim. rewrite skip_space_app_space. case_bool_decide as E.
  - by rewrite E.
  - apply rtrim_app_space.
Qed.

Lemma load_line_node n c :
  printable n -> normal_key (key n) -> trimmed (val n) ->
  load_line (Some c) (key n ++ equals :: val n ++ [newline]) = Some (set_key (key n) (val n) c).
Proof.
  intros (He & Hc & _) Hk Hv. unfold load_line.
  assert (forall x, x ∈ [hash_sign; NUL] -> x ∉ key n ++ equals :: val n ++ [newline]) as Hx.
  { intros x Hx. destruct (Hc x) as [H1 H2]; [set_solver|].
    assert (x <> equals /\ x <> newline) as [? ?]; [|set_solver].
    split; intros ->; [|]; repeat (apply elem_of_cons in Hx as [Hx|Hx]; [done|]); by apply elem_of_nil in Hx. }
  rewrite (cut_none NUL), (cut_none hash_sign) by (apply Hx; set_solver).
  rewrite strchr_app_first by done. rewrite take_app_length.
  replace (drop (S (length (key n))) (key n ++ equals :: val n ++ [newline])) with (val n ++ [newline]).
  - unfold cfg_set. rewrite norm_normal by done. by rewrite cfg_trim_newline, Hv.
  - replace (key n ++ equals :: val n ++ [newline]) with ((key n ++ [equals]) ++ val n ++ [newline])
      by (rewrite <- app_assoc; done).
    rewrite drop_app_length'; [done|]. rewrite length_app. simpl. lia.
Qed.

Lemma set_key_fresh k v c : k ∉ map key c -> set_key k v c = c ++ [mkNode k v].
Proof.
  induction c as [|n c IH]; simpl; [done|]. intros Hn. destruct (streq k (key n)) eqn:E.
  - apply streq_true in E. set_solver.
  - rewrite IH by set_solver. done.
Qed.

Definition save_text (c : cfg_struct) : bytes :=
  concat (map (fun n => key n ++ equals :: val n ++ [newline]) c).

Lemma save_loop_text i c : save_loop (fun _ => true) i c = (EXIT_SUCCESS, save_text c).
Proof.
  revert i. induction c as [|n c IH]; intros i; [done|]. cbn [save_loop negb]. rewrite IH.
  unfold save_text. simpl. f_equal. rewrite <- app_assoc. simpl. by rewrite <- app_assoc.
Qed.

Lemma load_save_text fuel done_ c :
  (length (save_text c) <= fuel)%nat ->
  cfg_wf (done_ ++ c) -> Forall printable c ->
  load_loop fuel (save_text c) (Some done_) = Some (done_ ++ c).
Proof.
  revert fuel done_. induction c as [|n c IH]; intros fuel done_ Hf Hwf Hp.
  { rewrite app_nil_r. destruct fuel; done. }
  apply Forall_cons in Hp as [Hn Hp].
  assert (save_text (n :: c) = (key n ++ equals :: val n) ++ newline :: save_text c) as Ht.
  { unfold save_text. simpl. rewrite <- !app_assoc. simpl. by rewrite <- app_assoc. }
  rewrite Ht in *. rewrite length_app in Hf. simpl in Hf. destruct fuel as [|f]; [lia|].
  assert (exists a t, (key n ++ equals :: val n) ++ newline :: save_text c = a :: t) as (a & t & Ha).
  { destruct (key n); simpl; eauto. }
  cbn [load_loop]. rewrite Ha at 1. rewrite fgets_line.
  2:{ destruct Hn as (_ & Hc & _). destruct (Hc newline); [set_solver|]. set_solver. }
  2:{ destruct Hn as (_ & _ & Hl). rewrite length_app. simpl. lia. }
  pose proof Hwf as [Hnd Hall]. rewrite map_app in Hnd. simpl in Hnd.
  apply Forall_app in Hall as [_ Hall]. apply Forall_cons in Hall as [[Hk Hv] _].
  rewrite <- app_assoc. simpl. rewrite load_line_node by done.
  rewrite set_key_fresh by (apply NoDup_app in Hnd as (_ & Hd & _); set_solver).
  replace (done_ ++ n :: c) with ((done_ ++ [mkNode (key n) (val n)]) ++ c)
    by (rewrite <- app_assoc; by destruct n).
  apply IH; [lia| |done]. rewrite <- app_assoc. by destruct n.
Qed.

(** C31. Round trip: saving a configuration and loading the file into an empty
    one restores it exactly, order included, when its entries are expressible
    in the file format and fit the line buffer. *)
Theorem cfg_save_load (c : cfg_struct) (Hwf : cfg_wf c) (Hp : Forall printable c) :
  let '(r, text) := cfg_save (Some c) (Some (B "f")) true (fun _ => true) in
  r = EXIT_SUCCESS /\
  cfg_load (Some cfg_init) (Some (B "f")) (Some text) = (EXIT_SUCCESS, Some c).
Proof.
  unfold cfg_save. rewrite save_loop_text. split; [done|]. unfold cfg_load. f_equal.
  by apply (load_save_text _ [] c).
Qed.

Lemma cfg_save_load_witness :
  let c := [mkNode (B "policy") (B "RR"); mkNode (B "uri") (B "imss://")] in
  let '(r, text) := cfg_save (Some c) (Some (B "f")) true (fun _ => true) in
  r = EXIT_SUCCESS /\
  cfg_load (Some cfg_init) (Some (B "f")) (Some text) = (EXIT_SUCCESS, Some c).
Proof.
  apply (cfg_save_load [mkNode (B "policy") (B "RR"); mkNode (B "uri") (B "imss://")]).
  - split.
    + apply NoDup_cons. split; [|apply NoDup_singleton]. by intros E%list_elem_of_singleton.
    + repeat constructor; try reflexivity; [exists (B "policy")|exists (B "uri")]; reflexivity.
  - repeat constructor; try (apply strchr_None; reflexivity);
      try (match goal with H : _ ∈ _ |- _ =>
             repeat (apply elem_of_cons in H as [->|H]; [apply strchr_None; reflexivity|]);
             by apply elem_of_nil in H end);
      simpl; unfold CFG_MAX_LINE; lia.
Defined.

(** A configuration line longer than the read buffer is not one entry: its
    tail is read as a further line, which can define another key. *)
Theorem cfg_load_long_line :
  let long := B "a=" ++ repeat "x"%char 254 ++ B "b=1" in
  strlen long = 259 /\
  exists c, cfg_load (Some cfg_init) (Some (B "f")) (Some long) = (EXIT_SUCCESS, Some c) /\
            cfg_get (Some c) (Some (B "b")) = Some (B "1").
Proof. split; [by vm_compute|]. eexists. split; by vm_compute. Qed.
