(* ===== verification/Intervals.v ===== *)
(** * Placement intervals

    The interval table of a dataset ([src/imss.c]): which number of servers
    was active when each range of blocks was written. The table is a
    calloc'ed array of [capacity] pointers; an index outside it is undefined
    behaviour. *)

From S2P Require Import Prelude Types.

(** ** Operations *)

(** [curr_dataset->intervals[i]], dereferenced. *)
Definition interval_at (iv : option (list (option IntervalEntry))) (i : nat) : outcome IntervalEntry :=
  match iv with
  | None => Undef NullDeref
  | Some arr =>
      match arr !! i with
      | None => Undef OutOfBounds
      | Some None => Undef NullDeref
      | Some (Some e) => Ret e
      end
  end.

Definition covers (e : IntervalEntry) (data_id : Z) : bool :=
  (left_interval e <=? data_id) && (data_id <=? right_interval e).

(** The scans of the loops over the first [n] entries: index and entry of
    the first one satisfying [P]. *)
Fixpoint scan_intervals (P : IntervalEntry -> bool) (iv : option (list (option IntervalEntry)))
    (i n : nat) : outcome (option (nat * IntervalEntry)) :=
  match n with
  | O => Ret None
  | S n' =>
      let* e := interval_at iv i in
      if P e then Ret (Some (i, e)) else scan_intervals P iv (S i) n'
  end.

Definition GetValueFromInterval (d : dataset_info) (data_id : Z) : outcome Z :=
  if num_intervals d <=? 0 then Ret (-1)
  else
    let* r := scan_intervals (fun e => covers e data_id) (intervals d) 0
                (Z.to_nat (num_intervals d)) in
    Ret (match r with Some (_, e) => value e | None => -1 end).

(** [GetIntervalPointer]: allocates the array on first use; the result is
    the position of the first entry that contains the requested range. *)
Definition GetIntervalPointer (d : dataset_info) (left right : Z)
  : outcome (dataset_info * option (nat * IntervalEntry)) :=
  let d := match intervals d with
           | None => set_intervals (num_intervals d) (Some (repeat None (Z.to_nat (capacity d)))) d
           | Some _ => d
           end in
  let* r := scan_intervals
              (fun e => (left_interval e <=? left) && (right <=? right_interval e))
              (intervals d) 0 (Z.to_nat (num_intervals d)) in
  Ret (d, r).

(** Storing a pointer into slot [i] of the array. *)
Definition store_interval (d : dataset_info) (i : nat) (e : IntervalEntry) (n : Z) : outcome dataset_info :=
  match intervals d with
  | None => Undef NullDeref
  | Some arr => if (i <? length arr)%nat then Ret (set_intervals n (Some (<[i := Some e]> arr)) d)
                else Undef OutOfBounds
  end.

Definition SetInterval (d : dataset_info) (v left right : Z) : outcome dataset_info :=
  if right <? left then Ret d
  else
    let* r := GetIntervalPointer d left right in
    let '(d, entry) := r in
    match entry with
    | None => store_interval d (Z.to_nat (num_intervals d)) (mkInterval v left right) (num_intervals d + 1)
    | Some (i, e) =>
        if (left =? 0) && (right =? 0) then Ret d
        else store_interval d i (mkInterval v (left_interval e) right) (num_intervals d)
    end.

Definition ClearIntervalsStructure (d : dataset_info) : dataset_info :=
  match intervals d with
  | None => d
  | Some _ => if num_intervals d =? 0 then d else set_intervals 0 None d
  end.

(** The [qsort] comparison. *)
Definition compare_intervals (a b : IntervalEntry) : Z :=
  if left_interval a <? left_interval b then -1
  else if left_interval b <? left_interval a then 1 else 0.

(** ** Representation: the table as a list of entries *)

Record table (d : dataset_info) (es : list IntervalEntry) : Prop := {
  table_num : num_intervals d = Z.of_nat (length es);
  table_cap : (length es <= Z.to_nat (capacity d))%nat;
  table_arr : intervals d = None /\ es = []
    \/ intervals d = Some ((Some <$> es) ++ repeat None (Z.to_nat (capacity d) - length es))
}.

Definition ordered (es : list IntervalEntry) : Prop :=
  Forall (fun e => left_interval e <= right_interval e) es.

(** Reference lookup and update on the list of entries: the first entry whose
    range has the block, the first whose range includes the range. *)
Definition covering (k : Z) (e : IntervalEntry) : Prop := left_interval e <= k <= right_interval e.
Definition containing (l r : Z) (e : IntervalEntry) : Prop := left_interval e <= l /\ r <= right_interval e.
#[global] Instance covering_dec k e : Decision (covering k e).
Proof. unfold covering. apply _. Defined.
#[global] Instance containing_dec l r e : Decision (containing l r e).
Proof. unfold containing. apply _. Defined.

Definition find_value (es : list IntervalEntry) (k : Z) : Z :=
  match list_find (covering k) es with Some (_, e) => value e | None => -1 end.

Definition contains (l r : Z) (e : IntervalEntry) : bool :=
  (left_interval e <=? l) && (r <=? right_interval e).

Definition set_entries (es : list IntervalEntry) (v l r : Z) : list IntervalEntry :=
  match list_find (containing l r) es with
  | None => es ++ [mkInterval v l r]
  | Some (i, e) => if (l =? 0) && (r =? 0) then es
                   else <[i := mkInterval v (left_interval e) r]> es
  end.

(** ** Lemmas *)

Lemma scan_intervals_find P es extra pre :
  scan_intervals P (Some ((Some <$> (pre ++ es)) ++ extra)) (length pre) (length es)
  = Ret (match list_find (fun e => P e = true) es with
         | Some (i, e) => Some ((length pre + i)%nat, e)
         | None => None
         end).
Proof.
  revert pre. induction es as [|e es IH]; intros pre; [done|].
  cbn [length scan_intervals]. unfold interval_at at 1.
  rewrite lookup_app_l by (rewrite length_fmap, length_app; simpl; lia).
  rewrite list_lookup_fmap, list_lookup_middle by done. simpl.
  destruct (decide (P e = true)) as [Hp|Hp].
  - rewrite Hp. do 3 f_equal. lia.
  - apply not_true_is_false in Hp. rewrite Hp.
    specialize (IH (pre ++ [e])). rewrite <- app_assoc in IH. simpl in IH.
    rewrite length_app in IH. simpl in IH. replace (length pre + 1)%nat with (S (length pre)) in IH by lia.
    rewrite IH. destruct (list_find _ es) as [[i e']|]; [|done]. simpl. do 3 f_equal. lia.
Qed.

Lemma scan_table P d es :
  table d es ->
  scan_intervals P (intervals d) 0 (Z.to_nat (num_intervals d))
  = Ret (match list_find (fun e => P e = true) es with Some (i, e) => Some (i, e) | None => None end).
Proof.
  intros [Hn Hc Ha]. rewrite Hn, Nat2Z.id. destruct Ha as [[-> ->] | ->]; [done|].
  apply (scan_intervals_find P es _ []).
Qed.

Lemma table_alloc d es :
  table d es ->
  let d' := match intervals d with
            | None => set_intervals (num_intervals d) (Some (repeat None (Z.to_nat (capacity d)))) d
            | Some _ => d
            end in
  table d' es /\
  intervals d' = Some ((Some <$> es) ++ repeat None (Z.to_nat (capacity d') - length es)) /\
  capacity d' = capacity d.
Proof.
  intros [Hn Hc Ha]. destruct Ha as [[Hi ->] | Hi]; rewrite Hi; simpl.
  - split; [|split; [by rewrite Nat.sub_0_r|done]]. split; simpl; [done|done|].
    right. by rewrite Nat.sub_0_r.
  - split; [split; auto|auto].
Qed.

Lemma list_find_lookup {A} (P : A -> Prop) `{forall x, Decision (P x)} l i x :
  list_find P l = Some (i, x) -> l !! i = Some x /\ P x.
Proof. intros Hf. apply list_find_Some in Hf. tauto. Qed.

(** The tests of the code are those ranges. *)
Lemma covers_spec k es : list_find (fun e => covers e k = true) es = list_find (covering k) es.
Proof. apply list_find_ext. intros e. unfold covers, covering. rewrite andb_true_iff, !Z.leb_le. done. Qed.

Lemma contains_spec l r es : list_find (fun e => contains l r e = true) es = list_find (containing l r) es.
Proof. apply list_find_ext. intros e. unfold contains, containing. rewrite andb_true_iff, !Z.leb_le. done. Qed.

Lemma GetValue_table d es k : table d es -> GetValueFromInterval d k = Ret (find_value es k).
Proof.
  intros Ht. unfold GetValueFromInterval, find_value. rewrite (scan_table _ d es Ht), covers_spec.
  destruct Ht as [Hn _ _]. destruct (Z.leb_spec (num_intervals d) 0) as [Hz|_].
  - destruct es; [done|simpl in Hn; lia].
  - simpl. by destruct (list_find _ es) as [[i e]|].
Qed.

Lemma SetInterval_table d es v l r :
  table d es -> l <= r -> Z.of_nat (length es) < capacity d ->
  exists d', SetInterval d v l r = Ret d' /\ table d' (set_entries es v l r).
Proof.
  intros Ht Hlr Hroom.
  unfold SetInterval. destruct (Z.ltb_spec r l); [lia|]. unfold GetIntervalPointer.
  destruct (table_alloc d es Ht) as (Ht' & Hi & Hcap). cbv zeta in *.
  set (d' := match intervals d with None => _ | Some _ => d end) in *. clearbody d'.
  rewrite (scan_table _ d' es Ht'). cbn [obind]. unfold set_entries. rewrite <- contains_spec. unfold contains.
  destruct (list_find _ es) as [[i e]|] eqn:Hf.
  + destruct ((l =? 0) && (r =? 0)); [eauto|]. apply list_find_lookup in Hf as [Hl _].
    apply lookup_lt_Some in Hl as Hlt. unfold store_interval. rewrite Hi.
    destruct (Nat.ltb_spec i (length ((Some <$> es) ++ repeat None (Z.to_nat (capacity d') - length es))))
      as [_|Hge]; [|rewrite length_app, length_fmap in Hge; lia].
    eexists. split; [done|]. destruct Ht' as [Hn Hc _]. split; simpl; rewrite ?length_insert; try done.
    right. rewrite insert_app_l by (rewrite length_fmap; lia). by rewrite list_fmap_insert.
  + destruct Ht' as [Hn Hc _]. unfold store_interval. rewrite Hi, Hn, Nat2Z.id.
    destruct (Nat.ltb_spec (length es) (length ((Some <$> es) ++ repeat None (Z.to_nat (capacity d') - length es))))
      as [_|Hge].
    2:{ rewrite length_app, length_fmap, repeat_length in Hge. lia. }
    eexists. split; [done|]. split; simpl; rewrite ?length_app; simpl; [lia|lia|].
    right. rewrite insert_app_r_alt by (rewrite length_fmap; lia).
    rewrite length_fmap, Nat.sub_diag, fmap_app, <- app_assoc. do 2 f_equal.
    replace (Z.to_nat (capacity d') - length es)%nat
      with (S (Z.to_nat (capacity d') - (length es + 1)))%nat by lia. done.
Qed.

(** C32. The interval table behaves as its reference: lookups return the value
    of the first interval whose range has the block and -1 when there is none;
    an update narrows the first interval that contains the requested range,
    or appends a new one while the array has room. *)
Theorem intervals_refine (d : dataset_info) (es : list IntervalEntry) (v l r k : Z)
  (Ht : table d es) (Hlr : l <= r) (Hroom : Z.of_nat (length es) < capacity d) :
  GetValueFromInterval d k = Ret (find_value es k) /\
  exists d', SetInterval d v l r = Ret d' /\ table d' (set_entries es v l r).
Proof. eauto using GetValue_table, SetInterval_table. Qed.

Definition sample_dataset (cap : Z) : dataset_info :=
  mkDataset (B "imss://f") "R" (B "RR") (B "imss://f") [] 0 1 4 1 0 0 0 0 2 [] 0 0 STATUS_ATACH 2 0 cap (-1) (-1) None.

Lemma sample_table cap : table (sample_dataset cap) [].
Proof. split; simpl; [done|lia|by left]. Qed.

Lemma intervals_refine_witness :
  GetValueFromInterval (sample_dataset 4) 3 = Ret (-1) /\
  exists d', SetInterval (sample_dataset 4) 2 1 8 = Ret d' /\ table d' [mkInterval 2 1 8].
Proof.
  apply (intervals_refine (sample_dataset 4) [] 2 1 8 3).
  - apply sample_table.
  - lia.
  - simpl. lia.
Defined.

(** Recording a range of blocks that no earlier interval touches makes
    every block of it read the recorded number of servers and changes no
    other block. *)
Theorem SetInterval_get (d : dataset_info) (es : list IntervalEntry) (v l r : Z)
  (Ht : table d es) (Hlr : l <= r) (Hroom : Z.of_nat (length es) < capacity d)
  (Hfresh : Forall (fun e => left_interval e <= right_interval e
                             /\ (right_interval e < l \/ r < left_interval e)) es) :
  exists d', SetInterval d v l r = Ret d' /\
    forall k, GetValueFromInterval d' k
              = if (l <=? k) && (k <=? r) then Ret v else GetValueFromInterval d k.
Proof.
  destruct (SetInterval_table d es v l r Ht Hlr Hroom) as (d' & Hset & Ht').
  exists d'. split; [done|]. intros k.
  assert (set_entries es v l r = es ++ [mkInterval v l r]) as He.
  { unfold set_entries. destruct (list_find _ es) as [[i e]|] eqn:Hf; [|done].
    apply list_find_lookup in Hf as [Hl Hc]. eapply Forall_lookup_1 in Hfresh; [|done].
    unfold containing in Hc. simpl in Hfresh. lia. }
  rewrite He in Ht'.
  rewrite (GetValue_table d' _ k Ht'), (GetValue_table d es k Ht). unfold find_value.
  destruct (list_find (covering k) es) as [[i e]|] eqn:Hf.
  - rewrite (list_find_app_l _ _ _ _ _ Hf). apply list_find_lookup in Hf as [Hl Hc].
    eapply Forall_lookup_1 in Hfresh; [|done]. unfold covering in Hc. simpl in Hfresh. csplit; btests; lia || done.
  - rewrite list_find_app_r by done. cbn [list_find]. case_decide as E; unfold covering in E; simpl in E.
    + by rewrite (proj2 (Z.leb_le _ _)), (proj2 (Z.leb_le _ _)) by lia.
    + destruct (Z.leb_spec l k), (Z.leb_spec k r); try done. lia.
Qed.

Lemma SetInterval_get_witness :
  exists d', SetInterval (sample_dataset 4) 2 1 8 = Ret d' /\
    forall k, GetValueFromInterval d' k
              = if (1 <=? k) && (k <=? 8) then Ret 2 else GetValueFromInterval (sample_dataset 4) k.
Proof.
  apply (SetInterval_get (sample_dataset 4) [] 2 1 8).
  - apply sample_table.
  - lia.
  - simpl. lia.
  - constructor.
Defined.

(** Nothing bounds the number of intervals by the allocated capacity:
    recording a new interval in a full table writes past the array. *)
Theorem SetInterval_overflow (d : dataset_info) (es : list IntervalEntry) (v l r : Z)
  (Ht : table d es) (Hlr : l <= r) (Hfull : Z.of_nat (length es) = capacity d)
  (Hnone : Forall (fun e => contains l r e = false) es) :
  SetInterval d v l r = Undef OutOfBounds.
Proof.
  unfold SetInterval. destruct (Z.ltb_spec r l); [lia|]. unfold GetIntervalPointer.
  destruct (table_alloc d es Ht) as (Ht' & Hi & Hcap). cbv zeta in *.
  set (d' := match intervals d with None => _ | Some _ => d end) in *. clearbody d'.
  rewrite (scan_table _ d' es Ht'). cbn [obind].
  assert (list_find (fun e => (left_interval e <=? l) && (r <=? right_interval e) = true) es = None) as ->.
  { apply list_find_None. eapply Forall_impl; [done|]. intros e He. by rewrite <- not_true_iff_false in He. }
  destruct Ht' as [Hn Hc _]. unfold store_interval. rewrite Hi, Hn, Nat2Z.id.
  destruct (Nat.ltb_spec (length es) (length ((Some <$> es) ++ repeat None (Z.to_nat (capacity d') - length es))))
    as [Hlt|_]; [|done].
  rewrite length_app, length_fmap, repeat_length in Hlt. lia.
Qed.

Lemma SetInterval_overflow_witness :
  SetInterval (sample_dataset 0) 2 1 8 = Undef OutOfBounds.
Proof.
  apply (SetInterval_overflow (sample_dataset 0) [] 2 1 8).
  - apply sample_table.
  - lia.
  - reflexivity.
  - constructor.
Defined.

(** Re-recording a sub-range is not local: the covering interval is cut at
    the new right end, so the blocks behind it lose their placement and the
    blocks before it change theirs. *)
Theorem SetInterval_narrows :
  exists d1 d2,
    SetInterval (sample_dataset 4) 4 1 10 = Ret d1 /\ SetInterval d1 2 3 5 = Ret d2 /\
    GetValueFromInterval d1 8 = Ret 4 /\ GetValueFromInterval d2 8 = Ret (-1) /\
    GetValueFromInterval d1 1 = Ret 4 /\ GetValueFromInterval d2 1 = Ret 2.
Proof. do 2 eexists. repeat split; by vm_compute. Qed.
