(* ===== verification/Store.v ===== *)
(** * The block store of a data server

    [map_records] (src/src/records.cpp) and [HierarchicalRecords]
    (src/src/hierarchical_records.cpp): blocks are kept in one [std::map] per
    directory, the directories in an outer map; unlinked names wait in a
    garbage vector per directory, and freed buffers of the block size go to a
    memory pool.  A buffer is owned by one entry, so an entry carries the
    buffer's contents.  The tree pointer of an entry is NULL on data servers
    and left out. *)

From S2P Require Import Prelude Types Paths.

(** The address of an entry is [void *]: blocks on a data server, metadata
    structures on a metadata server.  [A] is what it points to. *)
Record BufferValue (A : Type) := mkBuf { data : A; bsize : Z }.
Arguments mkBuf {A}.
Arguments data {A}.
Arguments bsize {A}.

#[global] Instance BufferValue_eq_dec {A} `{EqDecision A} : EqDecision (BufferValue A).
Proof. solve_decision. Defined.

Record map_records (A : Type) := mkMap {
  buffer : gmap bytes (BufferValue A);
  buffer_garbage_collector : list bytes
}.
Arguments mkMap {A}.
Arguments buffer {A}.
Arguments buffer_garbage_collector {A}.

(** [quantity_occupied] and [max_storage_size] are the process-wide counters,
    [mem_pool] the process-wide queue of reusable buffers. *)
Record HierarchicalRecords (A : Type) := mkHier {
  hiermap : gmap bytes (map_records A);
  quantity_occupied : Z;
  max_storage_size : Z;
  mem_pool : list A
}.
Arguments mkHier {A}.
Arguments hiermap {A}.
Arguments quantity_occupied {A}.
Arguments max_storage_size {A}.
Arguments mem_pool {A}.

(** The [switch (SERVER_TYPE)] of [CheckIfDirectory]: how a server sees that
    the structure at an address describes a directory. *)
Class ServerType (A : Type) := is_directory : A -> outcome bool.

Section Operations.
Context {A : Type}.

Definition empty_map : map_records A := mkMap ∅ [].

Definition set_buffer (b : gmap bytes (BufferValue A)) (m : map_records A) : map_records A :=
  mkMap b (buffer_garbage_collector m).
Definition set_garbage (g : list bytes) (m : map_records A) : map_records A :=
  mkMap (buffer m) g.
Definition set_hiermap (x : gmap bytes (map_records A)) (h : HierarchicalRecords A) : HierarchicalRecords A :=
  mkHier x (quantity_occupied h) (max_storage_size h) (mem_pool h).
Definition set_occupied (q : Z) (h : HierarchicalRecords A) : HierarchicalRecords A :=
  mkHier (hiermap h) q (max_storage_size h) (mem_pool h).
Definition set_pool (p : list A) (h : HierarchicalRecords A) : HierarchicalRecords A :=
  mkHier (hiermap h) (quantity_occupied h) (max_storage_size h) p.

(** ** Keys *)

(** [key.substr(0, key.find('$'))]: the file a block belongs to; the whole key
    when it has no ['$']. *)
Definition base_key (key : bytes) : bytes :=
  match strchr dollar key with
  | Some i => take i key
  | None => key
  end.

(** [key.substr(key.find('$'), ...)] throws when there is no ['$'], and
    nothing catches it. *)
Definition ABORTED : Z := 134.
Definition block_suffix (key : bytes) : outcome bytes :=
  match strchr dollar key with
  | Some i => Ret (drop i key)
  | None => Exit ABORTED
  end.

(** [s.find(p)]. *)
Fixpoint find_sub (p s : bytes) : option nat :=
  if prefixb p s then Some O
  else match s with
       | [] => None
       | _ :: s' => S <$> find_sub p s'
       end.

(** [std::map] iterates in the lexicographic order of the bytes. *)
Fixpoint bytes_leb (a b : bytes) : bool :=
  match a, b with
  | [], _ => true
  | _ :: _, [] => false
  | x :: a', y :: b' =>
      if byteZ x <? byteZ y then true
      else if byteZ y <? byteZ x then false else bytes_leb a' b'
  end.

Fixpoint insert_key (k : bytes) (l : list bytes) : list bytes :=
  match l with
  | [] => [k]
  | x :: l' => if bytes_leb k x then k :: l else x :: insert_key k l'
  end.

Definition keys_of (b : gmap bytes (BufferValue A)) : list bytes :=
  foldr insert_key [] ((map_to_list b).*1).

(** ** [map_records] *)

(** [std::map::insert] keeps an entry that is already there. *)
Definition put (key : bytes) (v : BufferValue A) (m : map_records A) : map_records A :=
  match buffer m !! key with
  | Some _ => m
  | None => set_buffer (<[key := v]> (buffer m)) m
  end.

Definition get (key : bytes) (m : map_records A) : option (BufferValue A) := buffer m !! key.

Definition put_garbage_collector (key : bytes) (m : map_records A) : map_records A :=
  set_garbage (buffer_garbage_collector m ++ [key]) m.

Definition garbage_collector_search (key : bytes) (m : map_records A) : Z :=
  if bool_decide (base_key key ∈ buffer_garbage_collector m) then 1 else 0.

(** [vector::erase] of the first entry equal to [key]. *)
Fixpoint erase_first (key : bytes) (l : list bytes) : list bytes :=
  match l with
  | [] => []
  | x :: l' => if streq x key then l' else x :: erase_first key l'
  end.

Definition garbage_collector_pop (key : bytes) (m : map_records A) : Z * map_records A :=
  if bool_decide (base_key key ∈ buffer_garbage_collector m)
  then (1, set_garbage (erase_first (base_key key) (buffer_garbage_collector m)) m)
  else (0, m).

(** [extract], change of key and [insert] of a node: the node is dropped when
    the new key is taken. *)
Definition move_node (old new : bytes) (b : gmap bytes (BufferValue A)) : gmap bytes (BufferValue A) :=
  match b !! old with
  | None => b
  | Some v =>
      let b' := delete old b in
      match b' !! new with Some _ => b' | None => <[new := v]> b' end
  end.

Definition update_key (old_key new_key : bytes) (m : map_records A) : Z * map_records A :=
  match buffer m !! old_key with
  | None => (-1, m)
  | Some _ =>
      if streq old_key new_key then (0, m)
      else match buffer m !! new_key with
           | Some _ => (-1, m)
           | None => (0, set_buffer (move_node old_key new_key (buffer m)) m)
           end
  end.

(** The keys an operation collects with [vec.insert(vec.begin(), key)]. *)
Definition collect (P : bytes -> bool) (b : gmap bytes (BufferValue A)) : list bytes :=
  rev (List.filter P (keys_of b)).

Fixpoint check_suffixes (ks : list bytes) : outcome unit :=
  match ks with
  | [] => Ret tt
  | k :: ks' => let* _ := block_suffix k in check_suffixes ks'
  end.

Fixpoint rename_loop (new_key : bytes) (vec : list bytes) (b : gmap bytes (BufferValue A))
  : outcome (gmap bytes (BufferValue A)) :=
  match vec with
  | [] => Ret b
  | k :: vec' =>
      let* s := block_suffix k in
      rename_loop new_key vec' (move_node k (new_key ++ s) b)
  end.

Definition rename_data_srv_worker (old_key new_key : bytes) (m : map_records A)
  : outcome (Z * map_records A) :=
  let* _ := check_suffixes (keys_of (buffer m)) in
  match collect (fun k => streq (base_key k) old_key) (buffer m) with
  | [] => Ret (-1, m)
  | vec =>
      let* b := rename_loop new_key vec (buffer m) in
      Ret (0, set_buffer b m)
  end.

(** The keys a directory rename takes: [old_dir] occurs in the key and the
    character after its length is a separator. *)
Definition in_old_dir (old_dir key : bytes) : bool :=
  match find_sub old_dir key with
  | None => false
  | Some _ =>
      match key !! length old_dir with
      | Some c => ascii_eqb c slash || ascii_eqb c dollar
      | None => true
      end
  end.

Definition rename_data_dir_srv_worker (old_dir rdir_dest : bytes) (m : map_records A)
  : Z * map_records A :=
  let vec := collect (in_old_dir old_dir) (buffer m) in
  (0, set_buffer
        (fold_left (fun b k => move_node k (rdir_dest ++ drop (length old_dir) k) b) vec (buffer m))
        m).

(** [FreeMemory]: bytes given back to the system, and the pool. [total] is the
    map's [total_size]. *)
Definition FreeMemory (BLOCK_SIZE total : Z) (v : BufferValue A) (pool : list A) : Z * list A :=
  if (total <=? Z.of_nat (length pool) + bsize v) || negb (bsize v =? BLOCK_SIZE)
  then (bsize v, pool)
  else (0, pool ++ [data v]).

Fixpoint free_blocks (BLOCK_SIZE total : Z) (vec : list bytes)
    (st : gmap bytes (BufferValue A) * Z * list A) : gmap bytes (BufferValue A) * Z * list A :=
  match vec with
  | [] => st
  | k :: vec' =>
      let '(b, freed, pool) := st in
      match b !! k with
      | Some v =>
          let '(n, pool') := FreeMemory BLOCK_SIZE total v pool in
          free_blocks BLOCK_SIZE total vec' (delete k b, freed + n, pool')
      | None => free_blocks BLOCK_SIZE total vec' st
      end
  end.

Fixpoint clean_loop (BLOCK_SIZE total : Z) (garbage : list bytes)
    (st : gmap bytes (BufferValue A) * Z * list A) : gmap bytes (BufferValue A) * Z * list A :=
  match garbage with
  | [] => st
  | g :: garbage' =>
      let '(b, freed, pool) := st in
      clean_loop BLOCK_SIZE total garbage'
        (free_blocks BLOCK_SIZE total (collect (fun k => streq (base_key k) g) b) st)
  end.

(** [cleaning('d')]: freed bytes (returned as [int32_t]), map and pool. *)
Definition cleaning (BLOCK_SIZE total : Z) (m : map_records A) (pool : list A)
  : Z * map_records A * list A :=
  let '(b, freed, pool') :=
    clean_loop BLOCK_SIZE total (buffer_garbage_collector m) (buffer m, 0, pool) in
  (i32 freed, mkMap b [], pool').

(** ** [HierarchicalRecords] *)

Definition parent_dir (k : bytes) : outcome bytes :=
  let* (_, d) := find_last_parent_dir k in Ret d.

Definition get_dir_unsafe (k : bytes) (h : HierarchicalRecords A) : option (map_records A) :=
  hiermap h !! k.

Definition get_child_unsafe (k : bytes) (h : HierarchicalRecords A) : outcome (option (map_records A)) :=
  let* d := parent_dir k in Ret (hiermap h !! d).

Definition HierarchicalMapGet (k : bytes) (h : HierarchicalRecords A) : outcome (option (BufferValue A)) :=
  let* m := get_child_unsafe k h in
  Ret (match m with Some m => get k m | None => None end).

(** The comparison with the unsigned [max_storage_size] is unsigned. *)
Definition IncreaseMemoryOccupied (required_space : Z) (h : HierarchicalRecords A)
  : Z * HierarchicalRecords A :=
  if max_storage_size h <? u64 (quantity_occupied h + required_space) then (0, h)
  else (1, set_occupied (quantity_occupied h + required_space) h).

Definition DecreaseMemoryOccupied (freed_space : Z) (h : HierarchicalRecords A)
  : Z * HierarchicalRecords A :=
  if quantity_occupied h - freed_space <? 0 then (0, h)
  else (1, set_occupied (quantity_occupied h - freed_space) h).

Definition CheckForMemorySpace (required_space : Z) (h : HierarchicalRecords A) : Z :=
  if max_storage_size h <? u64 (quantity_occupied h + required_space) then 0 else 1.

(** Little-endian fields of the [struct stat] at the start of block 0 (x86-64
    layout). *)
Fixpoint le_get (b : bytes) : Z :=
  match b with [] => 0 | a :: b' => byteZ a + 256 * le_get b' end.
Fixpoint le_put (n : nat) (z : Z) : bytes :=
  match n with O => [] | S n' => chr (z mod 256) :: le_put n' (z / 256) end.

Definition st_nlink_off : Z := 16.
Definition st_mode_off : Z := 24.
Definition st_size_off : Z := 48.
Definition load_field (b : bytes) (off : Z) (n : Z) : outcome Z :=
  let* f := read_at b off n in Ret (le_get f).
Definition store_field (b : bytes) (off : Z) (n : nat) (z : Z) : outcome bytes :=
  write_at b off (le_put n z).

(** [S_ISDIR]. *)
Definition S_ISDIR (mode : Z) : bool := Z.land mode 61440 =? 16384.

Definition InsertDirectory (key : bytes) (h : HierarchicalRecords A) : HierarchicalRecords A :=
  match hiermap h !! base_key key with
  | Some _ => h
  | None => set_hiermap (<[base_key key := empty_map]> (hiermap h)) h
  end.

Definition CheckIfDirectory `{ServerType A} (key : bytes) (address : A) (h : HierarchicalRecords A)
  : outcome (HierarchicalRecords A) :=
  let* dir := is_directory address in
  Ret (if dir then InsertDirectory key h else h).

(** [HierarchicalMapPut] returns 0 whatever the accounting says. *)
Definition HierarchicalMapPut `{ServerType A} (key : bytes) (address : A) (length_ : Z)
    (reused_buffer is_zero_block : bool)
    (h : HierarchicalRecords A) : outcome (Z * HierarchicalRecords A) :=
  let h := if reused_buffer then h else snd (IncreaseMemoryOccupied length_ h) in
  let* d := parent_dir key in
  let m := default empty_map (hiermap h !! d) in
  let h := set_hiermap (<[d := put key (mkBuf address length_) m]> (hiermap h)) h in
  let* h := if is_zero_block then CheckIfDirectory key address h else Ret h in
  Ret (0, h).

(** Writing through the address that [HierarchicalMapGet] returned. *)
Definition store_block (k : bytes) (v : BufferValue A) (h : HierarchicalRecords A)
  : outcome (HierarchicalRecords A) :=
  let* d := parent_dir k in
  match hiermap h !! d with
  | Some m => Ret (set_hiermap (<[d := set_buffer (<[k := v]> (buffer m)) m]> (hiermap h)) h)
  | None => Undef NullDeref
  end.

Definition HierarchicalMapRenameKey (old_dir new_dir : bytes) (h : HierarchicalRecords A)
  : Z * HierarchicalRecords A :=
  match hiermap h !! old_dir with
  | Some m => (0, set_hiermap (delete old_dir (<[new_dir := m]> (hiermap h))) h)
  | None => (-1, h)
  end.

Definition HierarchicalMapRenameRegularFile (oldname newname : bytes) (h : HierarchicalRecords A)
  : outcome (Z * HierarchicalRecords A) :=
  let* d := parent_dir oldname in
  match hiermap h !! d with
  | None => Ret (-1, h)
  | Some m =>
      let* (r, m') := rename_data_srv_worker oldname newname m in
      Ret (r, set_hiermap (<[d := m']> (hiermap h)) h)
  end.

(** [BackEndHierarchicalMapRenameDirDir] of a data server.  [append] changes
    [old_dir] and [rdir_dest] themselves, so the entries are searched with the
    suffixed names. *)
Definition BackEndHierarchicalMapRenameDirDir (old_dir rdir_dest : bytes) (h : HierarchicalRecords A)
  : outcome (Z * HierarchicalRecords A) :=
  match get_dir_unsafe old_dir h with
  | None => Ret (-1, h)
  | Some m =>
      let* d := parent_dir old_dir in
      match get_dir_unsafe d h with
      | None => Ret (-1, h)
      | Some _ =>
          let old_dir0 := old_dir ++ B "$0" in
          let rdir_dest0 := rdir_dest ++ B "$0" in
          let '(_, m') := rename_data_dir_srv_worker old_dir0 rdir_dest0 m in
          let h := set_hiermap (<[old_dir := m']> (hiermap h)) h in
          let pm := default empty_map (hiermap h !! d) in
          let '(_, pm') := update_key old_dir0 rdir_dest0 pm in
          Ret (0, set_hiermap (<[d := pm']> (hiermap h)) h)
      end
  end.

Definition HierarchicalMapPutInGarbageCollector (key : bytes) (h : HierarchicalRecords A)
  : outcome (Z * HierarchicalRecords A) :=
  let* d := parent_dir key in
  match hiermap h !! d with
  | Some m => Ret (0, set_hiermap (<[d := put_garbage_collector key m]> (hiermap h)) h)
  | None => Ret (-1, h)
  end.

Definition HierarchicalMapPopFromGarbageCollector (key : bytes) (h : HierarchicalRecords A)
  : outcome (Z * HierarchicalRecords A) :=
  let* d := parent_dir key in
  match hiermap h !! d with
  | Some m =>
      let '(r, m') := garbage_collector_pop key m in
      Ret (r, set_hiermap (<[d := m']> (hiermap h)) h)
  | None => Ret (-1, h)
  end.

Definition HierarchicalMapSearchInGarbageCollector (key : bytes) (h : HierarchicalRecords A)
  : outcome Z :=
  let* d := parent_dir key in
  Ret (match hiermap h !! d with
       | Some m => garbage_collector_search key m
       | None => -1
       end).

(** [HierarchicalMapCleanGarbageCollector] over the directories in key order. *)
Definition clean_dir (BLOCK_SIZE : Z) (st : HierarchicalRecords A * Z) (d : bytes)
  : HierarchicalRecords A * Z :=
  let '(h, total) := st in
  match hiermap h !! d with
  | Some m =>
      let '(n, m', pool) := cleaning BLOCK_SIZE (max_storage_size h) m (mem_pool h) in
      (set_pool pool (set_hiermap (<[d := m']> (hiermap h)) h), u64 (total + n))
  | None => st
  end.

Definition dirs_of (h : HierarchicalRecords A) : list bytes :=
  foldr insert_key [] ((map_to_list (hiermap h)).*1).

Definition HierarchicalMapCleanGarbageCollector (BLOCK_SIZE : Z) (h : HierarchicalRecords A)
  : HierarchicalRecords A :=
  let '(h', total) := fold_left (clean_dir BLOCK_SIZE) (dirs_of h) (h, 0) in
  snd (DecreaseMemoryOccupied (i64 total) h').


End Operations.

(** [TYPE_DATA_SERVER]: the mode of the [struct stat] in block 0. *)
#[global] Instance data_server_type : ServerType bytes := fun address =>
  let* mode := load_field address st_mode_off 4 in Ret (S_ISDIR mode).

(** ** Lookups *)

Definition rooted (k : bytes) : Prop := exists p, k = IMSS_ROOT ++ p.

Lemma parent_dir_rooted k : rooted k -> exists d, parent_dir k = Ret d.
Proof.
  intros [p ->]. destruct (find_last_parent_dir_total p) as (o & d & H).
  exists d. unfold parent_dir. by rewrite H.
Qed.

Lemma strrchr_app_notin c u v : c ∉ v -> strrchr c (u ++ v) = strrchr c u.
Proof.
  intros Hv. induction u as [|a u IH]; simpl.
  - by apply strrchr_None.
  - by rewrite IH.
Qed.

(** A block's key has the parent directory of its file. *)
Lemma parent_dir_block u s :
  rooted u -> last_is slash (drop IMSS_ROOT_LEN u) = false -> s <> [] -> slash ∉ s ->
  parent_dir (u ++ s) = parent_dir u.
Proof.
  intros [p ->] Hl Hs Hn. unfold parent_dir, find_last_parent_dir.
  change (drop IMSS_ROOT_LEN (IMSS_ROOT ++ p)) with p in *.
  rewrite <- app_assoc.
  change (drop IMSS_ROOT_LEN (IMSS_ROOT ++ p ++ s)) with (p ++ s).
  assert (last_is slash (p ++ s) = false) as ->.
  { destruct s as [|x s _] using rev_ind; [done|].
    rewrite app_assoc, last_is_snoc. apply ascii_eqb_false. set_solver. }
  rewrite Hl, !firstn_all, strrchr_app_notin by done.
  rewrite !length_app. simpl.
  destruct (strrchr slash p) as [j|] eqn:Hj; [|done].
  apply strrchr_Some in Hj as [Hj _].
  assert (j < length p)%nat.
  { apply (f_equal length) in Hj. rewrite length_app, length_take, length_cons, length_drop in Hj. lia. }
  f_equal. simpl. do 7 f_equal. by rewrite take_app_le by lia.
Qed.

Section Lookups.
Context {A : Type}.
Implicit Types (h : HierarchicalRecords A) (m : map_records A) (b : gmap bytes (BufferValue A)).

Lemma HGet_eq k d h :
  parent_dir k = Ret d ->
  HierarchicalMapGet k h = Ret (match hiermap h !! d with Some m => buffer m !! k | None => None end).
Proof. intros H. unfold HierarchicalMapGet, get_child_unsafe. by rewrite H. Qed.

Lemma store_block_get k v h h' :
  store_block k v h = Ret h' ->
  HierarchicalMapGet k h' = Ret (Some v) /\
  forall k', k' <> k -> HierarchicalMapGet k' h' = HierarchicalMapGet k' h.
Proof.
  unfold store_block. destruct (parent_dir k) as [d| |] eqn:Hd; try done. simpl.
  destruct (hiermap h !! d) as [m|] eqn:Hm; [|done]. intros [= <-]. split.
  - rewrite (HGet_eq _ _ _ Hd). simpl. by rewrite lookup_insert_eq; simpl; rewrite lookup_insert_eq.
  - intros k' Hk. destruct (parent_dir k') as [d'| |] eqn:Hd'.
    2,3: unfold HierarchicalMapGet, get_child_unsafe; by rewrite Hd'.
    rewrite !(HGet_eq _ _ _ Hd'). simpl.
    destruct (decide (d' = d)) as [->|Hne].
    + rewrite lookup_insert_eq, Hm. simpl. by rewrite lookup_insert_ne.
    + by rewrite lookup_insert_ne.
Qed.

Lemma IncreaseMemoryOccupied_hiermap n h :
  hiermap (snd (IncreaseMemoryOccupied n h)) = hiermap h.
Proof. unfold IncreaseMemoryOccupied. by case_match. Qed.

(** A directory map that appears empty changes no lookup. *)
Lemma InsertDirectory_get key h k :
  HierarchicalMapGet k (InsertDirectory key h) = HierarchicalMapGet k h.
Proof.
  unfold InsertDirectory. destruct (hiermap h !! base_key key) eqn:He; [done|].
  unfold HierarchicalMapGet, get_child_unsafe. destruct (parent_dir k) as [d| |]; try done. simpl.
  destruct (decide (d = base_key key)) as [->|Hne].
  - by rewrite lookup_insert_eq, He.
  - by rewrite lookup_insert_ne.
Qed.

(** An entry put under a new key is found, and no other lookup changes. *)
Lemma HierarchicalMapPut_new `{ServerType A} key (a : A) n reused zero h :
  rooted key -> HierarchicalMapGet key h = Ret None ->
  (zero = true -> exists dir, is_directory a = Ret dir) ->
  exists h', HierarchicalMapPut key a n reused zero h = Ret (0, h') /\
    HierarchicalMapGet key h' = Ret (Some (mkBuf a n)) /\
    forall k', k' <> key -> HierarchicalMapGet k' h' = HierarchicalMapGet k' h.
Proof.
  intros Hr Hnone Hz. destruct (parent_dir_rooted key Hr) as [d Hd].
  unfold HierarchicalMapPut. rewrite Hd. simpl.
  set (h0 := if reused then h else snd (IncreaseMemoryOccupied n h)).
  assert (hiermap h0 = hiermap h) as Hh0.
  { unfold h0. destruct reused; [done|apply IncreaseMemoryOccupied_hiermap]. }
  set (h1 := set_hiermap (<[d := put key (mkBuf a n) (default empty_map (hiermap h0 !! d))]> (hiermap h0)) h0).
  rewrite (HGet_eq _ _ _ Hd) in Hnone.
  assert (buffer (default empty_map (hiermap h0 !! d)) !! key = None) as Hb.
  { rewrite Hh0. destruct (hiermap h !! d) as [m|] eqn:Hm; simpl; [by injection Hnone|done]. }
  assert (HierarchicalMapGet key h1 = Ret (Some (mkBuf a n))) as H1.
  { rewrite (HGet_eq _ _ _ Hd). unfold h1. simpl. rewrite lookup_insert_eq. unfold put. rewrite Hb.
    simpl. by rewrite lookup_insert_eq. }
  assert (forall k', k' <> key -> HierarchicalMapGet k' h1 = HierarchicalMapGet k' h) as H2.
  { intros k' Hk. destruct (parent_dir k') as [d'| |] eqn:Hd'.
    2,3: unfold HierarchicalMapGet, get_child_unsafe; by rewrite Hd'.
    rewrite !(HGet_eq _ _ _ Hd'). unfold h1. simpl.
    destruct (decide (d' = d)) as [->|Hne].
    - rewrite lookup_insert_eq. unfold put. rewrite Hb. simpl. rewrite lookup_insert_ne by done.
      rewrite Hh0. by destruct (hiermap h !! d).
    - rewrite lookup_insert_ne by done. by rewrite Hh0. }
  destruct zero; [|exists h1; done].
  unfold CheckIfDirectory. destruct (Hz eq_refl) as [dir ->].
  simpl. eexists. split; [done|].
  destruct dir; [|done]. rewrite InsertDirectory_get. split; [done|].
  intros. rewrite InsertDirectory_get. by apply H2.
Qed.

Lemma HGet_hiermap k h h' : hiermap h' = hiermap h -> HierarchicalMapGet k h' = HierarchicalMapGet k h.
Proof. intros H. unfold HierarchicalMapGet, get_child_unsafe. by rewrite H. Qed.

Lemma HGet_rooted k h : rooted k -> exists r, HierarchicalMapGet k h = Ret r.
Proof. intros [d Hd]%parent_dir_rooted. rewrite (HGet_eq _ _ _ Hd). eauto. Qed.

Lemma store_block_ok k v v' h :
  HierarchicalMapGet k h = Ret (Some v) -> exists h', store_block k v' h = Ret h'.
Proof.
  unfold HierarchicalMapGet, get_child_unsafe, store_block. destruct (parent_dir k); try done. simpl.
  destruct (hiermap h !! _); [eauto|done].
Qed.

Lemma HierarchicalMapPutInGarbage_get k k' h r h' :
  HierarchicalMapPutInGarbageCollector k h = Ret (r, h') ->
  HierarchicalMapGet k' h' = HierarchicalMapGet k' h.
Proof.
  unfold HierarchicalMapPutInGarbageCollector.
  destruct (parent_dir k) as [d| |]; try done. simpl.
  destruct (hiermap h !! d) as [m|] eqn:Hm; intros [= _ <-]; [|done].
  unfold HierarchicalMapGet, get_child_unsafe. destruct (parent_dir k') as [d'| |]; try done. simpl.
  destruct (decide (d' = d)) as [->|Hne].
  - by rewrite lookup_insert_eq, Hm.
  - by rewrite lookup_insert_ne.
Qed.

Lemma wf_garbage_pop_get k h r h' v :
  HierarchicalMapGet k h = Ret (Some v) ->
  HierarchicalMapPopFromGarbageCollector k h = Ret (r, h') -> HierarchicalMapGet k h' = Ret (Some v).
Proof.
  intros Hg. unfold HierarchicalMapPopFromGarbageCollector.
  destruct (parent_dir k) as [d| |] eqn:Hd; try done. simpl.
  rewrite (HGet_eq _ _ _ Hd) in Hg.
  destruct (hiermap h !! d) as [m|] eqn:Hm; [|done].
  unfold garbage_collector_pop. case_bool_decide; intros [= _ <-];
    (rewrite (HGet_eq _ _ _ Hd); simpl; by rewrite lookup_insert_eq).
Qed.

(** ** Collected keys *)

Lemma insert_key_perm k l : insert_key k l ≡ₚ k :: l.
Proof.
  induction l as [|x l IH]; simpl; [done|].
  case_match; [done|]. rewrite IH. apply Permutation_swap.
Qed.

Lemma sort_keys_perm l : foldr insert_key [] l ≡ₚ l.
Proof. induction l as [|k l IH]; simpl; [done|]. by rewrite insert_key_perm, IH. Qed.

Lemma keys_of_perm b : keys_of b ≡ₚ (map_to_list b).*1.
Proof. apply sort_keys_perm. Qed.

Lemma elem_of_keys_of k b : k ∈ keys_of b <-> is_Some (b !! k).
Proof.
  rewrite keys_of_perm, list_elem_of_fmap. split.
  - intros [[k' v] [-> H%elem_of_map_to_list]]. by exists v.
  - intros [v H]. exists (k, v). split; [done|]. by apply elem_of_map_to_list.
Qed.

Lemma elem_of_collect P b k : k ∈ collect P b <-> P k = true /\ is_Some (b !! k).
Proof.
  unfold collect. rewrite list_elem_of_In, <- in_rev, filter_In, <- list_elem_of_In, elem_of_keys_of.
  tauto.
Qed.

Lemma NoDup_collect P b : NoDup (collect P b).
Proof.
  unfold collect. apply NoDup_ListNoDup, List.NoDup_rev, List.NoDup_filter, NoDup_ListNoDup.
  rewrite keys_of_perm. apply NoDup_fst_map_to_list.
Qed.

(** ** Names and blocks *)

Lemma base_key_app u s : dollar ∉ u -> base_key (u ++ dollar :: s) = u.
Proof.
  intros Hu. unfold base_key. rewrite strchr_app_first by done. by rewrite take_app_length.
Qed.

Lemma block_suffix_app u s : dollar ∉ u -> block_suffix (u ++ dollar :: s) = Ret (dollar :: s).
Proof.
  intros Hu. unfold block_suffix. rewrite strchr_app_first by done. by rewrite drop_app_length.
Qed.

Lemma base_key_no_dollar k : dollar ∈ k -> dollar ∉ base_key k.
Proof.
  unfold base_key. destruct (strchr dollar k) as [i|] eqn:E.
  - intros _. by apply strchr_Some in E as [_ ?].
  - by apply strchr_None in E.
Qed.

Lemma base_key_split k u : dollar ∈ k -> base_key k = u -> exists s, k = u ++ dollar :: s.
Proof.
  unfold base_key. intros Hin. destruct (strchr dollar k) as [i|] eqn:E.
  - apply strchr_Some in E as [E _]. intros <-. eauto.
  - by apply strchr_None in E.
Qed.

Lemma move_node_lookup old new b x :
  old <> new ->
  move_node old new b !! x =
    if decide (x = old) then None
    else if decide (x = new)
         then match b !! new with Some w => Some w | None => b !! old end
         else b !! x.
Proof.
  intros Hne. unfold move_node. destruct (b !! old) as [v|] eqn:Ho.
  - rewrite lookup_delete_ne by done. destruct (b !! new) as [w|] eqn:Hn.
    + repeat case_decide; subst; [by rewrite lookup_delete_eq| |]; by rewrite lookup_delete_ne.
    + repeat case_decide; subst.
      * rewrite lookup_insert_ne by done. by rewrite lookup_delete_eq.
      * by rewrite lookup_insert_eq.
      * by rewrite lookup_insert_ne, lookup_delete_ne.
  - repeat case_decide; subst; try done. by destruct (b !! new).
Qed.

(** The rename loop on the blocks of [old]: every block moves to the new name
    unless the new name already has that block. *)
Lemma rename_loop_spec old new vec b :
  dollar ∉ old -> dollar ∉ new -> old <> new ->
  Forall (fun k => exists s, k = old ++ dollar :: s) vec ->
  exists b', rename_loop new vec b = Ret b' /\
    (forall s, b' !! (old ++ dollar :: s) =
       if decide (old ++ dollar :: s ∈ vec) then None else b !! (old ++ dollar :: s)) /\
    (forall s, b' !! (new ++ dollar :: s) =
       match b !! (new ++ dollar :: s) with
       | Some w => Some w
       | None => if decide (old ++ dollar :: s ∈ vec) then b !! (old ++ dollar :: s) else None
       end) /\
    (forall x, base_key x <> old -> base_key x <> new -> b' !! x = b !! x).
Proof.
  intros Ho Hn Hne. revert b. induction vec as [|k vec IH]; intros b Hf.
  - exists b. simpl. split; [done|]. split; [|split]; [done| |done].
    intros s. by destruct (b !! _).
  - apply Forall_cons in Hf as [[s0 ->] Hf]. simpl. rewrite block_suffix_app by done. simpl.
    set (b1 := move_node (old ++ dollar :: s0) (new ++ dollar :: s0) b).
    assert (old ++ dollar :: s0 <> new ++ dollar :: s0) as Hne0.
    { intros He. apply (f_equal base_key) in He. by rewrite !base_key_app in He by done. }
    destruct (IH b1 Hf) as (b' & Hb' & HA & HB & HC). exists b'. split; [done|].
    assert (forall s s', old ++ dollar :: s <> new ++ dollar :: s') as Hdiff.
    { intros s s' He. apply (f_equal base_key) in He. by rewrite !base_key_app in He by done. }
    split; [|split].
    + intros s. rewrite HA. unfold b1. rewrite move_node_lookup by done.
      destruct (decide (s = s0)) as [->|Hs].
      * rewrite (decide_True (P := old ++ dollar :: s0 = _)) by done.
        rewrite (decide_True (P := _ ∈ _ :: _)) by set_solver. by case_decide.
      * assert (old ++ dollar :: s <> old ++ dollar :: s0) by (intros [= ?]%(inj (app old)); done).
        repeat case_decide; try done; set_solver.
    + intros s. rewrite HB. unfold b1. rewrite !move_node_lookup by done.
      destruct (decide (s = s0)) as [->|Hs].
      * rewrite (decide_False (P := new ++ _ = old ++ _)) by (intros e; by edestruct Hdiff).
        rewrite (decide_True (P := new ++ _ = new ++ _)) by done.
        rewrite (decide_True (P := old ++ _ = old ++ _)) by done.
        rewrite (decide_True (P := _ ∈ _ :: _)) by set_solver.
        destruct (b !! (new ++ _)); [done|]. destruct (b !! (old ++ _)); [done|]. by case_decide.
      * assert (old ++ dollar :: s <> old ++ dollar :: s0) by (intros [= ?]%(inj (app old)); done).
        assert (new ++ dollar :: s <> new ++ dollar :: s0) by (intros [= ?]%(inj (app new)); done).
        rewrite (decide_False (P := new ++ _ = old ++ _)) by (intros e; by edestruct Hdiff).
        rewrite (decide_False (P := new ++ _ = new ++ _)) by done.
        rewrite (decide_False (P := old ++ _ = old ++ _)) by done.
        rewrite (decide_False (P := old ++ _ = new ++ _)) by (intros e; by edestruct Hdiff).
        destruct (b !! (new ++ _)); [done|]. repeat case_decide; try done; set_solver.
    + intros x Hx1 Hx2. rewrite HC by done. unfold b1. rewrite move_node_lookup by done.
      repeat case_decide; subst; try done.
      * by rewrite base_key_app in Hx1.
      * by rewrite base_key_app in Hx2.
Qed.

End Lookups.

Lemma HierarchicalMapPut_get key (a : bytes) n reused zero h :
  rooted key -> HierarchicalMapGet key h = Ret None ->
  (zero = true -> sizeof_stat <= strlen a) ->
  exists h', HierarchicalMapPut key a n reused zero h = Ret (0, h') /\
    HierarchicalMapGet key h' = Ret (Some (mkBuf a n)) /\
    forall k', k' <> key -> HierarchicalMapGet k' h' = HierarchicalMapGet k' h.
Proof.
  intros Hr Hn Hz. apply HierarchicalMapPut_new; [done..|]. intros Hzero.
  unfold is_directory, data_server_type, load_field, read_at.
  assert ((0 <=? st_mode_off) && (0 <=? 4) && (st_mode_off + 4 <=? strlen a) = true) as ->.
  { specialize (Hz Hzero). unfold sizeof_stat, st_mode_off in *. btests. lia. }
  simpl. eauto.
Qed.

(** Every key of a data server's map names a block. *)
Definition all_blocks (m : map_records bytes) : Prop := forall k, is_Some (buffer m !! k) -> dollar ∈ k.

Lemma check_suffixes_ok ks : (forall k, k ∈ ks -> dollar ∈ k) -> check_suffixes ks = Ret tt.
Proof.
  induction ks as [|k ks IH]; intros H; simpl; [done|].
  unfold block_suffix at 1. destruct (strchr dollar k) eqn:E.
  - simpl. apply IH. set_solver.
  - apply strchr_None in E. exfalso. apply E, H. set_solver.
Qed.

Lemma rename_data_srv_worker_spec old new (m : map_records bytes) :
  dollar ∉ old -> dollar ∉ new -> old <> new -> all_blocks m ->
  (exists s, is_Some (buffer m !! (old ++ dollar :: s))) ->
  exists m', rename_data_srv_worker old new m = Ret (0, m') /\
    (forall s, buffer m' !! (old ++ dollar :: s) = None) /\
    (forall s, buffer m' !! (new ++ dollar :: s) =
       match buffer m !! (new ++ dollar :: s) with
       | Some w => Some w
       | None => buffer m !! (old ++ dollar :: s)
       end) /\
    (forall x, base_key x <> old -> base_key x <> new -> buffer m' !! x = buffer m !! x).
Proof.
  intros Ho Hn Hne Hall [s0 Hs0]. unfold rename_data_srv_worker.
  rewrite check_suffixes_ok by (intros k; rewrite elem_of_keys_of; apply Hall). simpl.
  set (vec := collect _ _).
  assert (forall s, old ++ dollar :: s ∈ vec <-> is_Some (buffer m !! (old ++ dollar :: s))) as Hvec.
  { intros s. unfold vec. rewrite elem_of_collect, base_key_app, streq_refl by done. tauto. }
  destruct (rename_loop_spec old new vec (buffer m) Ho Hn Hne) as (b' & Hb & HA & HB & HC).
  { apply Forall_forall. intros k [Hk Hin]%elem_of_collect. apply streq_true in Hk.
    by apply base_key_split; [apply Hall|]. }
  destruct vec as [|v0 vec'] eqn:Ev.
  { apply Hvec in Hs0. set_solver. }
  simpl in Hb. rewrite Hb. simpl. exists (set_buffer b' m). split; [done|]. simpl. split; [|split; [|done]].
  - intros s. rewrite HA. case_decide as Hd; [done|]. rewrite Hvec in Hd.
    by apply eq_None_not_Some.
  - intros s. rewrite HB. destruct (buffer m !! (new ++ _)); [done|].
    case_decide as Hd; [done|]. rewrite Hvec in Hd. symmetry. by apply eq_None_not_Some.
Qed.

(** A file name of the store: rooted, without ['$'] and trailing slash. *)
Definition file_name (u : bytes) : Prop :=
  rooted u /\ last_is slash (drop IMSS_ROOT_LEN u) = false /\ dollar ∉ u.

Lemma parent_dir_of_block u s :
  file_name u -> slash ∉ s -> parent_dir (u ++ dollar :: s) = parent_dir u.
Proof.
  intros (Hr & Hl & _) Hs. apply parent_dir_block; try done. set_solver.
Qed.

Section rename_regular.
Context (old new d : bytes) (h : HierarchicalRecords bytes) (m : map_records bytes).
Context (Ho : file_name old) (Hn : file_name new) (Hne : old <> new).
Context (Hd : parent_dir old = Ret d) (Hm : hiermap h !! d = Some m).
Context (Hall : all_blocks m) (Hex : exists s, is_Some (buffer m !! (old ++ dollar :: s))).

(** Both cases of a rename: the blocks move inside the old parent's map. *)
Lemma rename_regular_spec :
    exists h', HierarchicalMapRenameRegularFile old new h = Ret (0, h') /\
      forall s, slash ∉ s ->
        HierarchicalMapGet (old ++ dollar :: s) h' = Ret None /\
        (parent_dir new = Ret d ->
         HierarchicalMapGet (new ++ dollar :: s) h' =
           match buffer m !! (new ++ dollar :: s) with
           | Some w => Ret (Some w)
           | None => HierarchicalMapGet (old ++ dollar :: s) h
           end) /\
        (parent_dir new <> Ret d ->
         HierarchicalMapGet (new ++ dollar :: s) h' = HierarchicalMapGet (new ++ dollar :: s) h).
  Proof.
    destruct (rename_data_srv_worker_spec old new m) as (m' & Hr & HA & HB & _);
      try done; [apply Ho|apply Hn|].
    unfold HierarchicalMapRenameRegularFile. rewrite Hd. simpl. rewrite Hm, Hr. simpl.
    eexists. split; [done|]. intros s Hs.
    pose proof (parent_dir_of_block old s Ho Hs) as Hpo. rewrite Hd in Hpo.
    pose proof (parent_dir_of_block new s Hn Hs) as Hpn.
    split; [|split].
    - rewrite (HGet_eq _ _ _ Hpo). simpl. by rewrite lookup_insert_eq, HA.
    - intros Hdn. rewrite Hdn in Hpn. rewrite (HGet_eq _ _ _ Hpn), (HGet_eq _ _ _ Hpo). simpl.
      rewrite lookup_insert_eq, HB, Hm. by destruct (buffer m !! (new ++ _)).
    - intros Hdn. destruct (parent_dir_rooted new (proj1 Hn)) as [dn Hdn'].
      rewrite Hdn' in Hpn, Hdn. rewrite !(HGet_eq _ _ _ Hpn). simpl.
      by rewrite lookup_insert_ne by congruence.
  Qed.
End rename_regular.

(** Renaming a regular file inside its directory moves every block of the
    file to the new name and leaves none under the old one; a block the new
    name already had is kept. *)
Theorem rename_same_directory (old new d : bytes) (h : HierarchicalRecords bytes) (m : map_records bytes)
  (Ho : file_name old) (Hn : file_name new) (Hne : old <> new)
  (Hd : parent_dir old = Ret d) (Hdn : parent_dir new = Ret d) (Hm : hiermap h !! d = Some m)
  (Hall : all_blocks m) (Hex : exists s, is_Some (buffer m !! (old ++ dollar :: s))) :
  exists h', HierarchicalMapRenameRegularFile old new h = Ret (0, h') /\
    forall s, slash ∉ s ->
      HierarchicalMapGet (old ++ dollar :: s) h' = Ret None /\
      HierarchicalMapGet (new ++ dollar :: s) h' =
        match buffer m !! (new ++ dollar :: s) with
        | Some w => Ret (Some w)
        | None => HierarchicalMapGet (old ++ dollar :: s) h
        end.
Proof.
  destruct (rename_regular_spec old new d h m) as (h' & Hr & Hs); try done.
  exists h'. split; [done|]. intros s Hns. destruct (Hs s Hns) as (H1 & H2 & _). auto.
Qed.

(** Renaming a regular file into another directory succeeds, but the blocks
    stay in the map of the old directory: no lookup of the new name finds
    them, and the old name has none. *)
Theorem rename_across_directories_loses_blocks (old new d : bytes) (h : HierarchicalRecords bytes)
  (m : map_records bytes)
  (Ho : file_name old) (Hn : file_name new) (Hne : old <> new)
  (Hd : parent_dir old = Ret d) (Hdn : parent_dir new <> Ret d) (Hm : hiermap h !! d = Some m)
  (Hall : all_blocks m) (Hex : exists s, is_Some (buffer m !! (old ++ dollar :: s))) :
  exists h', HierarchicalMapRenameRegularFile old new h = Ret (0, h') /\
    forall s, slash ∉ s ->
      HierarchicalMapGet (old ++ dollar :: s) h' = Ret None /\
      HierarchicalMapGet (new ++ dollar :: s) h' = HierarchicalMapGet (new ++ dollar :: s) h.
Proof.
  destruct (rename_regular_spec old new d h m) as (h' & Hr & Hs); try done.
  exists h'. split; [done|]. intros s Hns. destruct (Hs s Hns) as (H1 & _ & H2). auto.
Qed.

(** A one-block store for the examples. *)
Definition sample_map : map_records bytes := mkMap {[ B "imss://a$1" := mkBuf (B "data") 4 ]} [].
Definition sample_store : HierarchicalRecords bytes :=
  mkHier {[ IMSS_ROOT := sample_map ]} 4 1000 [].

Lemma sample_all_blocks : all_blocks sample_map.
Proof.
  intros k [v Hk]. unfold sample_map in Hk; simpl in Hk. apply lookup_singleton_Some in Hk as [<- _]. apply dec_stable.
  rewrite <- strchr_None. discriminate.
Qed.

Lemma file_name_intro p :
  last_is slash p = false -> strchr dollar p = None -> file_name (IMSS_ROOT ++ p).
Proof.
  intros Hl Hd. split; [by exists p|]. split; [done|]. apply strchr_None.
  unfold IMSS_ROOT. simpl. by rewrite Hd.
Qed.

Lemma rename_same_directory_witness :
  exists h', HierarchicalMapRenameRegularFile (B "imss://a") (B "imss://b") sample_store = Ret (0, h') /\
    forall s, slash ∉ s ->
      HierarchicalMapGet (B "imss://a" ++ dollar :: s) h' = Ret None /\
      HierarchicalMapGet (B "imss://b" ++ dollar :: s) h' =
        match buffer sample_map !! (B "imss://b" ++ dollar :: s) with
        | Some w => Ret (Some w)
        | None => HierarchicalMapGet (B "imss://a" ++ dollar :: s) sample_store
        end.
Proof.
  apply (rename_same_directory _ _ IMSS_ROOT); try reflexivity.
  - by apply (file_name_intro (B "a")).
  - by apply (file_name_intro (B "b")).
  - discriminate.
  - apply sample_all_blocks.
  - exists (B "1"). by eexists.
Defined.

Lemma rename_across_directories_loses_blocks_witness :
  exists h', HierarchicalMapRenameRegularFile (B "imss://a") (B "imss://d/a") sample_store = Ret (0, h') /\
    forall s, slash ∉ s ->
      HierarchicalMapGet (B "imss://a" ++ dollar :: s) h' = Ret None /\
      HierarchicalMapGet (B "imss://d/a" ++ dollar :: s) h'
        = HierarchicalMapGet (B "imss://d/a" ++ dollar :: s) sample_store.
Proof.
  apply (rename_across_directories_loses_blocks _ _ IMSS_ROOT _ sample_map); try reflexivity.
  - by apply (file_name_intro (B "a")).
  - by apply (file_name_intro (B "d/a")).
  - discriminate.
  - discriminate.
  - apply sample_all_blocks.
  - exists (B "1"). by eexists.
Defined.

(** ** Garbage collection *)

Lemma free_blocks_lookup {A} (bs total : Z) (vec : list bytes)
  (b : gmap bytes (BufferValue A)) (freed : Z) (pool : list A) (k : bytes) :
  fst (fst (free_blocks bs total vec (b, freed, pool))) !! k
  = if decide (k ∈ vec) then None else b !! k.
Proof.
  revert b freed pool. induction vec as [|x vec IH]; intros b freed pool; simpl; [done|].
  destruct (b !! x) as [v|] eqn:Hx.
  - destruct (FreeMemory bs total v pool) as [n pool']. rewrite IH.
    destruct (decide (k = x)) as [->|Hne].
    + rewrite lookup_delete_eq. repeat case_decide; try done; set_solver.
    + rewrite lookup_delete_ne by done. repeat case_decide; try done; set_solver.
  - rewrite IH. destruct (decide (k = x)) as [->|Hne].
    + repeat case_decide; try done; set_solver.
    + repeat case_decide; try done; set_solver.
Qed.

Lemma clean_loop_lookup {A} (bs total : Z) (garbage : list bytes)
  (b : gmap bytes (BufferValue A)) (freed : Z) (pool : list A) (k : bytes) :
  fst (fst (clean_loop bs total garbage (b, freed, pool))) !! k
  = if decide (base_key k ∈ garbage) then None else b !! k.
Proof.
  revert b freed pool. induction garbage as [|g garbage IH]; intros b freed pool; simpl; [done|].
  pose proof (free_blocks_lookup bs total (collect (fun k => streq (base_key k) g) b) b freed pool k)
    as Hf.
  destruct (free_blocks bs total _ (b, freed, pool)) as [[b1 f1] p1]. simpl in Hf.
  rewrite IH, Hf. destruct (decide (base_key k = g)) as [<-|Hne].
  - rewrite (decide_True (P := _ ∈ _ :: _)) by set_solver.
    destruct (decide (k ∈ collect _ _)) as [?|Hc]; [by case_decide|].
    rewrite elem_of_collect, streq_refl in Hc.
    assert (b !! k = None) as -> by (apply eq_None_not_Some; tauto). by case_decide.
  - rewrite (decide_False (P := k ∈ collect _ _)).
    2:{ rewrite elem_of_collect. intros [H%streq_true _]. done. }
    repeat case_decide; try done; set_solver.
Qed.

(** A cleaning pass empties the garbage vector of a directory and removes
    exactly the blocks whose file name is listed there: a name with a block
    suffix, as the unlink request stores it, removes nothing. *)
Theorem cleaning_removes_listed_files (bs total : Z) (m : map_records bytes) (pool : list bytes) :
  let '(_, m', _) := cleaning bs total m pool in
  buffer_garbage_collector m' = [] /\
  (forall k, buffer m' !! k =
     if decide (base_key k ∈ buffer_garbage_collector m) then None else buffer m !! k) /\
  (forall u s, all_blocks m -> buffer_garbage_collector m = [u ++ dollar :: s] ->
     forall k, buffer m' !! k = buffer m !! k).
Proof.
  unfold cleaning.
  pose proof (clean_loop_lookup bs total (buffer_garbage_collector m) (buffer m) 0 pool) as H.
  destruct (clean_loop _ _ _ _) as [[b f] p]. simpl in *. split; [done|]. split; [exact H|].
  intros u s Hall Hg k. rewrite H, Hg. case_decide as Hin; [|done].
  apply list_elem_of_singleton in Hin. destruct (buffer m !! k) eqn:Hk; [|done].
  destruct (base_key_no_dollar k); [apply Hall; by eexists|]. rewrite Hin. set_solver.
Qed.

Lemma cleaning_removes_listed_files_witness :
  let '(_, m', _) := cleaning 4 1000 (put_garbage_collector (B "imss://a$0") sample_map) [] in
  buffer_garbage_collector m' = [] /\
  (forall k, buffer m' !! k =
     if decide (base_key k ∈ [B "imss://a$0"]) then None else buffer sample_map !! k) /\
  (forall u s, all_blocks sample_map -> [B "imss://a$0"] = [u ++ dollar :: s] ->
     forall k, buffer m' !! k = buffer sample_map !! k).
Proof.
  exact (cleaning_removes_listed_files 4 1000 (put_garbage_collector (B "imss://a$0") sample_map) []).
Defined.

(** ** Directory renames *)

Lemma rename_data_dir_nothing {A} old_dir dest (m : map_records A) :
  (forall k, is_Some (buffer m !! k) -> find_sub old_dir k = None) ->
  snd (rename_data_dir_srv_worker old_dir dest m) = m.
Proof.
  intros H. unfold rename_data_dir_srv_worker. simpl.
  assert (collect (in_old_dir old_dir) (buffer m) = []) as ->.
  { apply elem_of_nil_inv. intros k [Hi Hk]%elem_of_collect.
    unfold in_old_dir in Hi. by rewrite (H k Hk) in Hi. }
  by destruct m.
Qed.

Lemma parent_dir_in d c s :
  rooted d -> slash ∉ c -> slash ∉ s -> c <> [] ->
  parent_dir (d ++ slash :: c ++ dollar :: s) = Ret d.
Proof.
  intros [p ->] Hc Hs Hne. unfold parent_dir.
  replace ((IMSS_ROOT ++ p) ++ slash :: c ++ dollar :: s)
    with (IMSS_ROOT ++ p ++ slash :: (c ++ dollar :: s) ++ []) by (by rewrite app_nil_r, <- app_assoc).
  rewrite find_last_parent_dir_in; try done.
  - set_solver.
  - by destruct c.
  - by left.
Qed.

Lemma entries_differ old new c s r :
  old <> new -> slash ∉ c -> slash ∉ s -> prefixb (old ++ [slash]) new = false ->
  new ++ slash :: c ++ dollar :: s <> old ++ slash :: r.
Proof.
  intros Hne Hc Hs Hp He. apply app_eq_inv in He as [(l & H1 & H2)|(l & H1 & H2)].
  - destruct l as [|x l]; simpl in *; [by rewrite app_nil_r in H1|].
    injection H2 as Hx H2. subst x new.
    enough (prefixb (old ++ [slash]) (old ++ slash :: l) = true) by congruence.
    apply prefixb_spec. exists l. by rewrite <- app_assoc.
  - destruct l as [|x l]; simpl in *; [by rewrite app_nil_r in H1|].
    injection H2 as Hx H2. subst x.
    assert (slash ∈ c ++ dollar :: s) by (rewrite H2; set_solver). set_solver.
Qed.

(** Renaming a directory on a data server: the map of its entries moves to
    the new name, but the entries keep the keys of the old name (the loop
    searches them with ["$0"] appended), so no block of a file inside the
    directory can be found afterwards, under either name. *)
Theorem rename_directory_loses_entries (old new d : bytes) (h : HierarchicalRecords bytes)
  (m pm : map_records bytes)
  (Ho : rooted old) (Hn : rooted new) (Hpd : parent_dir old = Ret d)
  (Hm : hiermap h !! old = Some m) (Hpm : hiermap h !! d = Some pm)
  (Hdo : d <> old) (Hdn : d <> new) (Hne : old <> new)
  (Hkeys : forall k, is_Some (buffer m !! k) -> exists r, k = old ++ slash :: r)
  (Hsub : forall k, is_Some (buffer m !! k) -> find_sub (old ++ B "$0") k = None)
  (Hpre : prefixb (old ++ [slash]) new = false) :
  exists h1 h2,
    BackEndHierarchicalMapRenameDirDir old new h = Ret (0, h1) /\
    HierarchicalMapRenameKey old new h1 = (0, h2) /\
    hiermap h2 !! new = Some m /\
    forall c s, slash ∉ c -> slash ∉ s -> c <> [] ->
      HierarchicalMapGet (new ++ slash :: c ++ dollar :: s) h2 = Ret None /\
      HierarchicalMapGet (old ++ slash :: c ++ dollar :: s) h2 = Ret None.
Proof.
  unfold BackEndHierarchicalMapRenameDirDir, get_dir_unsafe. rewrite Hm, Hpd.
  cbn [obind]. rewrite Hpm. destruct (rename_data_dir_srv_worker _ _ m) as [r m'] eqn:Hr.
  assert (m' = m) as ->.
  { pose proof (rename_data_dir_nothing (old ++ B "$0") (new ++ B "$0") m Hsub) as H.
    by rewrite Hr in H. }
  simpl. rewrite lookup_insert_ne, Hpm by done. simpl.
  destruct (update_key _ _ pm) as [r' pm']. do 2 eexists. split; [done|].
  unfold HierarchicalMapRenameKey. simpl. rewrite lookup_insert_ne, lookup_insert_eq by done.
  split; [done|]. simpl. rewrite lookup_delete_ne, lookup_insert_eq by done. split; [done|].
  intros c s Hc Hs Hcne. split.
  - rewrite (HGet_eq _ new) by by apply parent_dir_in. simpl.
    rewrite lookup_delete_ne, lookup_insert_eq by done.
    destruct (buffer m !! _) eqn:Hb; [|done].
    destruct (Hkeys (new ++ slash :: c ++ dollar :: s)) as [r0 Hr0]; [by eexists|].
    exfalso. by eapply (entries_differ old new c s r0).
  - rewrite (HGet_eq _ old) by by apply parent_dir_in. simpl. by rewrite lookup_delete_eq.
Qed.

Definition sample_dir_store : HierarchicalRecords bytes :=
  mkHier {[ IMSS_ROOT := empty_map;
            B "imss://d" := mkMap {[ B "imss://d/f$1" := mkBuf (B "data") 4 ]} [] ]} 4 1000 [].

Lemma rename_directory_loses_entries_witness :
  exists h1 h2,
    BackEndHierarchicalMapRenameDirDir (B "imss://d") (B "imss://e") sample_dir_store = Ret (0, h1) /\
    HierarchicalMapRenameKey (B "imss://d") (B "imss://e") h1 = (0, h2) /\
    hiermap h2 !! B "imss://e" = Some (mkMap {[ B "imss://d/f$1" := mkBuf (B "data") 4 ]} []) /\
    forall c s, slash ∉ c -> slash ∉ s -> c <> [] ->
      HierarchicalMapGet (B "imss://e" ++ slash :: c ++ dollar :: s) h2 = Ret None /\
      HierarchicalMapGet (B "imss://d" ++ slash :: c ++ dollar :: s) h2 = Ret None.
Proof.
  apply (rename_directory_loses_entries _ _ IMSS_ROOT _ _ empty_map); try reflexivity; try discriminate.
  - by exists (B "d").
  - by exists (B "e").
  - simpl. intros k [v [<- _]%lookup_singleton_Some]. by exists (B "f$1").
  - simpl. intros k [v [<- _]%lookup_singleton_Some]. reflexivity.
Defined.

(** ** Memory accounting *)

Lemma CheckIfDirectory_occupied {A} `{ServerType A} key (a : A) h h' :
  CheckIfDirectory key a h = Ret h' -> quantity_occupied h' = quantity_occupied h.
Proof.
  unfold CheckIfDirectory. destruct (is_directory a); try done. simpl. intros [= <-].
  case_match; [|done]. unfold InsertDirectory. by case_match.
Qed.

Lemma HierarchicalMapPut_occupied {A} `{ServerType A} key (a : A) n reused zero h r h' :
  HierarchicalMapPut key a n reused zero h = Ret (r, h') ->
  quantity_occupied h' = quantity_occupied (if reused then h else snd (IncreaseMemoryOccupied n h)).
Proof.
  unfold HierarchicalMapPut. destruct (parent_dir key); try done. simpl.
  destruct zero; [|by intros [= _ <-]].
  destruct (CheckIfDirectory _ _ _) eqn:Hc; try done. simpl. intros [= _ <-].
  by apply CheckIfDirectory_occupied in Hc as ->.
Qed.

(** Storing a new block always succeeds: a block that fits is counted, a
    recycled buffer is not counted again, and a block that exceeds the
    configured storage is stored all the same, uncounted, with the return
    value of a success. *)
Theorem put_never_refuses (key a : bytes) (n : Z) (reused : bool) (h : HierarchicalRecords bytes)
  (Hr : rooted key) (Hnew : HierarchicalMapGet key h = Ret None) :
  exists h', HierarchicalMapPut key a n reused false h = Ret (0, h') /\
    HierarchicalMapGet key h' = Ret (Some (mkBuf a n)) /\
    (forall k', k' <> key -> HierarchicalMapGet k' h' = HierarchicalMapGet k' h) /\
    quantity_occupied h' =
      (if negb reused && (u64 (quantity_occupied h + n) <=? max_storage_size h)
       then quantity_occupied h + n else quantity_occupied h).
Proof.
  destruct (HierarchicalMapPut_get key a n reused false h) as (h' & Hp & Hg & Hf); try done.
  exists h'. repeat (split; [done|]). apply HierarchicalMapPut_occupied in Hp as ->.
  destruct reused; [done|]. simpl. unfold IncreaseMemoryOccupied.
  destruct (Z.ltb_spec (max_storage_size h) (u64 (quantity_occupied h + n)));
    destruct (Z.leb_spec (u64 (quantity_occupied h + n)) (max_storage_size h)); simpl; (done || lia).
Qed.

Lemma put_never_refuses_witness :
  exists h', HierarchicalMapPut (B "imss://a$2") (B "more") 4 false false
               (set_occupied 1000 sample_store) = Ret (0, h') /\
    HierarchicalMapGet (B "imss://a$2") h' = Ret (Some (mkBuf (B "more") 4)) /\
    (forall k', k' <> B "imss://a$2" ->
       HierarchicalMapGet k' h' = HierarchicalMapGet k' (set_occupied 1000 sample_store)) /\
    quantity_occupied h' = 1000.
Proof.
  apply (put_never_refuses (B "imss://a$2") (B "more") 4 false (set_occupied 1000 sample_store)).
  - by exists (B "a$2").
  - reflexivity.
Defined.

(** ** Fields of [struct stat] *)

Lemma length_le_put n z : length (le_put n z) = n.
Proof. revert z. induction n; intros z; simpl; [done|]. by rewrite IHn. Qed.

Lemma byteZ_chr z : 0 <= z < 256 -> byteZ (chr z) = z.
Proof. intros. unfold byteZ, chr. rewrite N_ascii_embedding by lia. lia. Qed.

Lemma le_get_put n z : le_get (le_put n z) = z mod 2 ^ (8 * Z.of_nat n).
Proof.
  revert z. induction n as [|n IH]; intros z.
  - simpl. by rewrite Z.mod_1_r.
  - change (le_put (S n) z) with (chr (z mod 256) :: le_put n (z / 256)).
    change (le_get (chr (z mod 256) :: le_put n (z / 256)))
      with (byteZ (chr (z mod 256)) + 256 * le_get (le_put n (z / 256))).
    rewrite byteZ_chr by (apply Z.mod_pos_bound; lia). rewrite IH.
    replace (2 ^ (8 * Z.of_nat (S n))) with (256 * 2 ^ (8 * Z.of_nat n)).
    2:{ replace (8 * Z.of_nat (S n)) with (8 + 8 * Z.of_nat n) by lia. by rewrite Z.pow_add_r by lia. }
    rewrite Z.rem_mul_r by lia. done.
Qed.

Lemma read_write_same buf off src buf' :
  write_at buf off src = Ret buf' -> read_at buf' off (strlen src) = Ret src.
Proof.
  intros H. pose proof (write_at_length _ _ _ _ H) as Hl.
  pose proof (fun i => write_at_lookup _ _ _ _ i H) as Hk.
  unfold write_at, read_at, strlen in *. destruct (_ && _) eqn:E in H; [|done]. clear H.
  assert ((0 <=? off) && (0 <=? Z.of_nat (length src)) && (off + Z.of_nat (length src) <=? Z.of_nat (length buf')) = true)
    as -> by (btests; lia).
  f_equal. apply list_eq. intros i. rewrite Nat2Z.id.
  destruct (decide (i < length src)%nat).
  - rewrite lookup_take_lt, lookup_drop, Hk by lia. rewrite decide_True by lia. f_equal. lia.
  - rewrite lookup_take_ge by lia. symmetry. apply lookup_ge_None. lia.
Qed.

Lemma load_store_field b off n z b' :
  store_field b off n z = Ret b' -> load_field b' off (Z.of_nat n) = Ret (z mod 2 ^ (8 * Z.of_nat n)).
Proof.
  unfold store_field, load_field. intros H. pose proof (read_write_same _ _ _ _ H) as Hr.
  unfold strlen in Hr. rewrite length_le_put in Hr. rewrite Hr. simpl. by rewrite le_get_put.
Qed.

(** Bytes outside the written range read the same. *)
Lemma read_write_apart b off p d off' n q :
  write_at b off p = Ret d -> read_at b off' n = Ret q ->
  (off' + n <= off \/ off + strlen p <= off') -> read_at d off' n = Ret q.
Proof.
  intros Hd Hr Hap. pose proof (write_at_length _ _ _ _ Hd) as Hl. unfold read_at in *.
  assert (strlen d = strlen b) as -> by (unfold strlen; lia).
  assert (0 <= off) by (unfold write_at in Hd; destruct (Z.leb_spec 0 off); [done|simpl in Hd; done]).
  destruct (_ && _) eqn:E in Hr |- *; [|done]. injection Hr as <-. f_equal. apply list_eq. intros i.
  btests. unfold strlen in *. destruct (decide (i < Z.to_nat n)%nat).
  - rewrite !lookup_take_lt, !lookup_drop by done. rewrite (write_at_lookup _ _ _ _ _ Hd), decide_False by lia. done.
  - by rewrite !lookup_take_ge by lia.
Qed.
