(* ===== verification/DataServer.v ===== *)
(** * The data server

    [srv_worker_helper] (src/src/workers.c): a request line selects an
    operation on the block store of Store.v, a payload may follow on the data
    channel, and replies go back to the client.  The network and the allocator
    are the environment [env] of a request; the shared-memory segments of the
    node are part of the server state. *)

From S2P Require Import Prelude Types Paths Store.

(** ** Protocol constants (src/include/workers.h, src/include/comms.h) *)
Definition READ_OP : Z := 0.
Definition WRITE_OP : Z := 1.
Definition RELEASE : Z := 2.
Definition WHO : Z := 3.
Definition DELETE_OP : Z := 4.
Definition RENAME_OP : Z := 5.
Definition RENAME_DIR_DIR_OP : Z := 6.
Definition READV : Z := 8.
Definition SPLIT_READV : Z := 9.
Definition READV2_OP : Z := 11.
Definition UNLINK_OP : Z := 12.
Definition MSG_ERROR_OP : bytes := B "ERROR".
Definition MSG_OK_OP : bytes := B "OK".
Definition MSG_RENAME_OP : bytes := B "RENAME".
Definition MSG_DELETE_OP : bytes := B "DELETE".
Definition MSG_NODELETE_OP : bytes := B "NODELETE".
Definition MSG_SPACE_OP : bytes := B "NO_SPACE_LEFT".
Definition err_code : bytes := B "$ERRIMSS_NO_KEY_AVAIL$".

(** A confirmation or error string, or the bytes of a block. *)
Inductive reply := Msg (m : bytes) | Data (b : bytes).

(** What one request sees of the outside: the configured sizes and identity,
    the allocator ([None] when [malloc] fails, otherwise the contents of the
    fresh memory), the payload waiting on the data channel (empty when
    [get_recv_data_length] returns 0), and whether [recv_data] and the sends
    succeed. *)
Record env := mkEnv {
  BLOCK_SIZE : Z;
  my_uri : bytes;
  arg_prefetch_size : Z;
  num_data_servers : Z;
  worker_uid : Z;
  malloc : Z -> option bytes;
  payload : bytes;
  recv_ok : bool;
  send_ok : bool
}.

(** The same environment when the message [p] is next on the data channel. *)
Definition with_payload (p : bytes) (e : env) : env :=
  mkEnv (BLOCK_SIZE e) (my_uri e) (arg_prefetch_size e) (num_data_servers e) (worker_uid e)
    (malloc e) p (recv_ok e) (send_ok e).

Record server := mkServer {
  hr : HierarchicalRecords bytes;
  buffer_snapshot : gmap bytes Z;
  buffer_broadcast : gmap bytes (BufferValue bytes);
  shm : gmap Z bytes;
  eps : gset Z;
  malleability_on : bool;
  waiting_clients : Z;
  pending_requests : list bytes;
  srv_id : Z;
  id_server_to_modify : Z;
  number_active_storage_servers : Z;
  finish_dispatcher : bool;
  movers : nat
}.

Definition set_hr (h : HierarchicalRecords bytes) (s : server) : server :=
  mkServer h (buffer_snapshot s) (buffer_broadcast s) (shm s) (eps s) (malleability_on s)
    (waiting_clients s) (pending_requests s) (srv_id s) (id_server_to_modify s)
    (number_active_storage_servers s) (finish_dispatcher s) (movers s).
Definition set_snapshot (x : gmap bytes Z) (s : server) : server :=
  mkServer (hr s) x (buffer_broadcast s) (shm s) (eps s) (malleability_on s)
    (waiting_clients s) (pending_requests s) (srv_id s) (id_server_to_modify s)
    (number_active_storage_servers s) (finish_dispatcher s) (movers s).
Definition set_broadcast (x : gmap bytes (BufferValue bytes)) (s : server) : server :=
  mkServer (hr s) (buffer_snapshot s) x (shm s) (eps s) (malleability_on s)
    (waiting_clients s) (pending_requests s) (srv_id s) (id_server_to_modify s)
    (number_active_storage_servers s) (finish_dispatcher s) (movers s).
Definition set_shm (x : gmap Z bytes) (s : server) : server :=
  mkServer (hr s) (buffer_snapshot s) (buffer_broadcast s) x (eps s) (malleability_on s)
    (waiting_clients s) (pending_requests s) (srv_id s) (id_server_to_modify s)
    (number_active_storage_servers s) (finish_dispatcher s) (movers s).
Definition set_eps (x : gset Z) (s : server) : server :=
  mkServer (hr s) (buffer_snapshot s) (buffer_broadcast s) (shm s) x (malleability_on s)
    (waiting_clients s) (pending_requests s) (srv_id s) (id_server_to_modify s)
    (number_active_storage_servers s) (finish_dispatcher s) (movers s).

(** Ret code of the handler, replies in the order they are sent, new state. *)
Definition result : Type := outcome (Z * list reply * server).

(** ** Shared memory (src/src/shared_memory.c) *)

(** Attaching fails for a negative identifier or one that names no segment. *)
Definition getContentSMByID (id : Z) (s : server) : option bytes :=
  if id <? 0 then None else shm s !! id.

Definition setContentSMByID (id : Z) (content : bytes) (s : server) : outcome (option server) :=
  match getContentSMByID id s with
  | None => Ret None
  | Some seg => let* seg' := write_at seg 0 content in Ret (Some (set_shm (<[id := seg']> (shm s)) s))
  end.

Definition freeSM (id : Z) (s : server) : server := set_shm (delete id (shm s)) s.

(** ** Malleability gate *)

(** [CheckForMalleability]: while servers are being added or removed, reads
    are queued. *)
Definition CheckForMalleability (req : bytes) (s : server) : Z * server :=
  if malleability_on s
  then (1, mkServer (hr s) (buffer_snapshot s) (buffer_broadcast s) (shm s) (eps s) true
             (waiting_clients s + 1) (pending_requests s ++ [take (Z.to_nat (PATH_MAX - 1)) req])
             (srv_id s) (id_server_to_modify s) (number_active_storage_servers s)
             (finish_dispatcher s) (movers s))
  else (0, s).

(** [STOPSERVER] and [REORDERSERVER] start a thread that moves the blocks. *)
Definition stop_server (n : option Z) (s : server) : server :=
  mkServer (hr s) (buffer_snapshot s) (buffer_broadcast s) (shm s) (eps s) true
    (waiting_clients s) (pending_requests s) (srv_id s) (srv_id s)
    (default (number_active_storage_servers s) n) true (S (movers s)).
Definition reorder_server (n new_id : option Z) (s : server) : server :=
  mkServer (hr s) (buffer_snapshot s) (buffer_broadcast s) (shm s) (eps s) (malleability_on s)
    (waiting_clients s) (pending_requests s) (default 0 new_id) (id_server_to_modify s)
    (default (number_active_storage_servers s) n) (finish_dispatcher s) (S (movers s)).

(** ** Request lines *)

Record request := mkReq {
  block_size_recv : Z;
  block_offset : Z;
  shm_key : Z;
  key : bytes;
  to_read : Z
}.

(** [%s] into an array of [n] bytes. *)
Definition scan_str (n : Z) (s : bytes) : option (outcome bytes * bytes) :=
  match scan_s s with
  | Some (w, r) => Some (if strlen w <? n then Ret w else Undef OutOfBounds, r)
  | None => None
  end.
Definition scan_u32 (s : bytes) : option (Z * bytes) :=
  match scan_d s with Some (n, r) => Some (u32 n, r) | None => None end.
Definition scan_u64 (s : bytes) : option (Z * bytes) :=
  match scan_d s with Some (n, r) => Some (u64 n, r) | None => None end.

Definition scan_mode (req : bytes) : outcome (bytes * bytes) :=
  match scan_str MODE_SIZE req with
  | Some (w, r) => let* w := w in Ret (w, r)
  | None => Ret ([], [])
  end.

(** The tail of both formats: [" %s %lu"]; a field that does not match keeps
    its initial value. *)
Definition scan_tail (size off shm_ : Z) (s : bytes) : outcome request :=
  match scan_str URI_ s with
  | None => Ret (mkReq size off shm_ [] 0)
  | Some (u, r) =>
      let* u := u in
      Ret (mkReq size off shm_ u (match scan_u64 r with Some (n, _) => n | None => 0 end))
  end.

(** ["%s %u %u %s %lu"], and ["%s %u %u %d %s %lu"] for the shared-memory
    modes: the mode and the other fields.  [block_size_recv] and [block_offset]
    have no initial value. *)
Definition parse_request (default_params : bool) (req : bytes) : outcome (bytes * request) :=
  let* (mode, r0) := scan_mode req in
  match scan_u32 r0 with
  | None => Undef Uninitialised
  | Some (size, r1) =>
      match scan_u32 r1 with
      | None => Undef Uninitialised
      | Some (off, r2) =>
          let* rq := if default_params then scan_tail size off (-1) r2
                     else match scan_d r2 with
                          | None => Ret (mkReq size off (-1) [] 0)
                          | Some (k, r3) => scan_tail size off (i32 k) r3
                          end in
          Ret (mode, rq)
      end
  end.

Definition is_block_zero (k : bytes) : bool :=
  match find_sub (B "$0") k with Some _ => true | None => false end.

(** [SendConfirmationMessage] and [send_dynamic_stream] deliver when the
    network does. *)
Definition say (e : env) (m : bytes) : list reply := if send_ok e then [Msg m] else [].

(** Reply once and finish: -1 when the reply could not be sent. *)
Definition confirm (e : env) (m : bytes) (s : server) : result :=
  Ret (if send_ok e then 0 else -1, say e m, s).

(** ** Reads *)

(** [READ_OP] of a [GET]: the bytes at [block_offset], the whole block when
    no length is given, or a copy into the client's segment. *)
Definition read_block (e : env) (is_shared_memory : bool) (rq : request) (s : server) : result :=
  let* found := HierarchicalMapGet (key rq) (hr s) in
  match found with
  | None => Ret (if send_ok e then (0, [Msg err_code], s) else (-1, [], s))
  | Some v =>
      let n := if to_read rq <=? 0 then bsize v else to_read rq in
      let* d := read_at (data v) (block_offset rq) n in
      if is_shared_memory
      then let* r := setContentSMByID (shm_key rq) d s in
           match r with
           | Some s' => confirm e MSG_OK_OP s'
           | None => confirm e MSG_ERROR_OP s
           end
      else Ret (0, if send_ok e then [Data d] else [], s)
  end.

(** [std::stoul] and [std::stoi]: [None] when they throw. *)
Definition stoul (s : bytes) : option Z :=
  match scan_u64 s with Some (n, _) => Some n | None => None end.
Definition stoi (s : bytes) : option Z :=
  match scan_d s with
  | Some (n, _) => if (- 2 ^ 31 <=? n) && (n <? 2 ^ 31) then Some n else None
  | None => None
  end.

(** [HierarchicalMapGetPrefetch]: records of a 4-byte block id and a full
    block, while they fit and the blocks exist. [fuel] bounds the number of
    records that fit. *)
Fixpoint prefetch_loop (BS : Z) (fuel : nat) (base : bytes) (id step room : Z) (m : map_records bytes) : bytes :=
  match fuel with
  | O => []
  | S f =>
      if room <? 4 + BS then []
      else match get (base ++ dollar :: print_u id) m with
           | None => []
           | Some v =>
               if negb (bsize v =? BS) then []
               else le_put 4 id ++ data v
                    ++ prefetch_loop BS f base (u32 (id + step)) step (room - (4 + BS)) m
           end
  end.

Definition HierarchicalMapGetPrefetch (BS : Z) (base : bytes) (id step size : Z) (h : HierarchicalRecords bytes)
  : outcome bytes :=
  let* m := get_child_unsafe (base ++ dollar :: print_u id) h in
  Ret (match m with
       | Some m => prefetch_loop BS (Z.to_nat (size / (4 + BS))) base id step size m
       | None => []
       end).

(** [READV2_OP]; the size is unsigned, so only 0 asks for the default. *)
Definition read_prefetch (e : env) (rq : request) (s : server) : result :=
  let record := 4 + BLOCK_SIZE e in
  let size := if u64 (to_read rq) <=? 0 then arg_prefetch_size e else u64 (to_read rq) in
  let size := if size <? record then record else size in
  match malloc e size with
  | None => Ret (-1, [], s)
  | Some _ =>
      match strchr dollar (key rq) with
      | None => Ret (-1, [], s)
      | Some i =>
          match stoul (drop (S i) (key rq)) with
          | None => Exit ABORTED
          | Some id =>
              let* b := HierarchicalMapGetPrefetch (BLOCK_SIZE e) (take i (key rq)) (u32 id)
                          (num_data_servers e) size (hr s) in
              match b with
              | [] => Ret (if send_ok e then (0, [Msg err_code], s) else (-1, [], s))
              | _ => Ret (0, if send_ok e then [Data b] else [], s)
              end
          end
      end
  end.

(** [stoi(key.substr(0, found))] and [key.erase(0, found + 1)] for the next
    space: without one, the field is the rest of the key and nothing is
    erased. *)
Definition next_field (k : bytes) : bytes * bytes :=
  match strchr " "%char k with
  | Some j => (take j k, drop (S j) k)
  | None => (k, k)
  end.
Fixpoint int_fields (n : nat) (k : bytes) : option (list Z) :=
  match n with
  | O => Some []
  | S n' =>
      let '(w, k') := next_field k in
      match stoi w, int_fields n' k' with
      | Some z, Some l => Some (z :: l)
      | _, _ => None
      end
  end.

(** [READV].  The blocks are looked up in the map [arguments->map], in which
    the handler never stores one: every block is missing, and what is sent
    after the error strings is the fresh buffer. *)
Definition readv_op (e : env) (rq : request) (s : server) : result :=
  match strchr dollar (key rq) with
  | None => Ret (0, [], s)
  | Some i =>
      match int_fields 5 (drop (S i) (key rq)) with
      | Some [curr_blk; end_blk; _; _; size] =>
          let missing := Z.to_nat (end_blk - curr_blk + 1) in
          if (curr_blk <=? end_blk) && negb (send_ok e) then Ret (-1, [], s)
          else if (curr_blk <=? end_blk) && (end_blk =? 2 ^ 31 - 1) then Undef SignedOverflow
          else match malloc e (u64 size) with
               | None => Undef NullDeref
               | Some buf =>
                   Ret (if send_ok e && negb (size =? 0) then 0 else -1,
                        repeat (Msg err_code) missing ++ (if send_ok e then [Data buf] else []), s)
               end
      | _ => Exit ABORTED
      end
  end.

(** The string at the start of a message, without a terminator out of bounds. *)
Definition message_string (b : bytes) : outcome bytes :=
  match strchr "000"%char b with Some i => Ret (take i b) | None => Undef OutOfBounds end.

(** The blocks of a [SPLIT_READV]: the first one is missing, and its bytes are
    then copied from a null pointer. *)
Definition split_blocks (e : env) (amount : Z) (list : bytes) (s : server) : result :=
  if amount <=? 0 then Ret (-1, if send_ok e then [Data []] else [], s)
  else match stoi (match strchr dollar list with Some j => take j list | None => list end) with
       | None => Exit ABORTED
       | Some _ => if send_ok e then Undef NullDeref else Ret (-1, [], s)
       end.

(** [SPLIT_READV]: nothing is done for a key without a space, and [%s] never
    stores one.  The last number is cut where the one before it ended. *)
Definition split_readv_op (e : env) (rq : request) (s : server) : result :=
  match strchr " "%char (key rq) with
  | None => Ret (0, [], s)
  | Some j =>
      let '(w1, k2) := next_field (drop (S j) (key rq)) in
      let '(w2, k3) := next_field k2 in
      let '(w3, k4) := next_field k3 in
      match stoi w1, stoi w2, stoi w3, stoi (take (length w3) k4) with
      | Some kb, Some _, Some _, Some _ =>
          let blocksize := i32 (kb * 1024) in
          if strlen (payload e) =? 0 then Ret (-1, [], s)
          else if match malloc e (strlen (payload e)) with None => true | Some _ => false end
          then Undef NullDeref
          else if negb (recv_ok e) then Ret (-1, [], s)
          else
            let* msg := message_string (payload e) in
            let found := strchr dollar msg in
            match stoi (match found with Some i => take i msg | None => msg end) with
            | None => Exit ABORTED
            | Some amount =>
                if (- 2 ^ 31 <=? amount * blocksize) && (amount * blocksize <? 2 ^ 31)
                then split_blocks e amount (match found with Some i => drop (S i) msg | None => msg end) s
                else Undef SignedOverflow
            end
      | _, _, _, _ => Exit ABORTED
      end
  end.

(** ** Name operations *)

(** [UNLINK_OP].  The header is decremented even after the error reply for a
    missing block, through a NULL pointer. *)
Definition unlink_op (e : env) (rq : request) (s : server) : result :=
  let num_opened := i32 (block_offset rq) in
  let* found := HierarchicalMapGet (key rq) (hr s) in
  match found with
  | None => if send_ok e then Undef NullDeref else Ret (-1, [], s)
  | Some v =>
      let* n := load_field (data v) st_nlink_off 8 in
      let n' := u64 (n - 1) in
      let* d := store_field (data v) st_nlink_off 8 n' in
      let* h := store_block (key rq) (mkBuf d (bsize v)) (hr s) in
      if (n' =? 0) && (num_opened =? 0)
      then let* (_, h') := HierarchicalMapPutInGarbageCollector (key rq) h in
           confirm e MSG_DELETE_OP (set_hr h' s)
      else confirm e MSG_NODELETE_OP (set_hr h s)
  end.

Definition delete_op (e : env) (rq : request) (s : server) : result :=
  let* (_, h) := HierarchicalMapPutInGarbageCollector (key rq) (hr s) in
  confirm e MSG_OK_OP (set_hr h s).

Definition rename_op (e : env) (rq : request) (s : server) : result :=
  match strchr comma (key rq) with
  | None => confirm e MSG_ERROR_OP s
  | Some i =>
      let* (r, h) := HierarchicalMapRenameRegularFile (take i (key rq)) (drop (S i) (key rq)) (hr s) in
      confirm e (if r =? 0 then MSG_OK_OP else MSG_ERROR_OP) (set_hr h s)
  end.

(** The result of the first step is overwritten by the second. *)
Definition rename_dir_dir_op (e : env) (rq : request) (s : server) : result :=
  let answer (m : bytes) (s' : server) : result :=
    Ret (if send_ok e then 0 else 1, say e m, s') in
  match strchr comma (key rq) with
  | None => answer MSG_ERROR_OP s
  | Some i =>
      let old_dir := take i (key rq) in
      let rdir_dest := drop (S i) (key rq) in
      let* (_, h) := BackEndHierarchicalMapRenameDirDir old_dir rdir_dest (hr s) in
      let '(r, h') := HierarchicalMapRenameKey old_dir rdir_dest h in
      answer (if r =? 0 then MSG_RENAME_OP else MSG_ERROR_OP) (set_hr h' s)
  end.

(** ** Writes *)

(** The buffer of a new block: exactly the message for block 0 and snapshots,
    otherwise a buffer of the pool or a fresh one of the block size.  Gives the
    buffer, its size, and whether it was recycled. *)
Definition new_buffer (e : env) (exact : bool) (msg_length : Z) (h : HierarchicalRecords bytes)
  : option (bytes * Z * bool) * HierarchicalRecords bytes :=
  if exact
  then ((fun b => (b, msg_length, false)) <$> malloc e msg_length, h)
  else match mem_pool h with
       | b :: pool => (Some (b, BLOCK_SIZE e, true), set_pool pool h)
       | [] => ((fun b => (b, BLOCK_SIZE e, false)) <$> malloc e (BLOCK_SIZE e), h)
       end.

(** Insertion of a received block, after the second lookup under the lock. *)
Definition insert_block (e : env) (snapshot_op : bool) (rq : request) (b : bytes) (size msg_length : Z)
    (reused : bool) (s : server) : outcome (Z * server) :=
  let* race_check := HierarchicalMapGet (key rq) (hr s) in
  match race_check with
  | None =>
      if snapshot_op
      then Ret (0, match buffer_broadcast s !! key rq with
                   | Some _ => s
                   | None => set_broadcast (<[key rq := mkBuf b msg_length]> (buffer_broadcast s)) s
                   end)
      else let* (r, h) := HierarchicalMapPut (key rq) b size reused (is_block_zero (key rq)) (hr s) in
           Ret (r, set_hr h s)
  | Some v =>
      let* src := read_at b (block_offset rq) msg_length in
      let* d := write_at (data v) (block_offset rq) src in
      let* h := store_block (key rq) (mkBuf d (bsize v)) (hr s) in
      Ret (0, set_hr h s)
  end.

(** Final confirmation of an insertion; [sent] are the earlier replies. *)
Definition finish_insert (e : env) (sent : list reply) (r : outcome (Z * server)) : result :=
  let* (insert_successful, s) := r in
  Ret (if insert_successful =? 0 then (0, sent ++ say e MSG_OK_OP, s)
       else (-1, sent ++ say e (if insert_successful =? 2 then MSG_SPACE_OP else MSG_ERROR_OP), s)).

Definition write_new_msg (e : env) (snapshot_op : bool) (rq : request) (s : server) : result :=
  let msg_length := strlen (payload e) in
  if msg_length =? 0 then Ret (-1, say e MSG_ERROR_OP, s)
  else
    let '(nb, h) := new_buffer e (is_block_zero (key rq) || snapshot_op) msg_length (hr s) in
    let s := set_hr h s in
    match nb with
    | None => Ret (-1, say e MSG_ERROR_OP, s)
    | Some (b, size, reused) =>
        let* b' := write_at b (block_offset rq) (payload e) in
        if negb (recv_ok e) then Ret (-1, say e MSG_ERROR_OP, s)
        else finish_insert e [] (insert_block e snapshot_op rq b' size msg_length reused s)
    end.

Definition write_new_shm (e : env) (snapshot_op : bool) (rq : request) (s : server) : result :=
  match getContentSMByID (shm_key rq) s with
  | None => Ret (-1, [], s)
  | Some content =>
      if negb (send_ok e) then Ret (-1, [], s)
      else
        let msg_length := block_size_recv rq in
        let '(nb, h) := new_buffer e (is_block_zero (key rq) || snapshot_op) msg_length (hr s) in
        let s := set_hr h s in
        match nb with
        | None => Ret (-1, [Msg MSG_OK_OP], s)
        | Some (b, size, reused) =>
            let* src := read_at content 0 (block_size_recv rq) in
            let* b' := write_at b (block_offset rq) src in
            let s := freeSM (shm_key rq) s in
            finish_insert e [Msg MSG_OK_OP] (insert_block e snapshot_op rq b' size msg_length reused s)
        end
  end.

(** [latest->st_size = std::max(latest->st_size, old->st_size)]. *)
Definition merge_size (old latest : bytes) : outcome bytes :=
  let* o := load_field old st_size_off 8 in
  let* l := load_field latest st_size_off 8 in
  store_field latest st_size_off 8 (Z.max (i64 l) (i64 o)).

Definition write_zero (e : env) (is_shared_memory : bool) (rq : request) (v : BufferValue bytes) (s : server)
  : result :=
  let* (_, h) := HierarchicalMapPopFromGarbageCollector (key rq) (hr s) in
  let s := set_hr h s in
  if negb is_shared_memory
  then
    if strlen (payload e) =? 0 then Ret (-1, [], s)
    else match malloc e (strlen (payload e)) with
         | None => Ret (-1, say e MSG_ERROR_OP, s)
         | Some _ =>
             if negb (recv_ok e) then Ret (-1, say e MSG_ERROR_OP, s)
             else
               let* latest := merge_size (data v) (payload e) in
               let* d := write_at (data v) (block_offset rq) latest in
               let* h := store_block (key rq) (mkBuf d (bsize v)) (hr s) in
               Ret (0, say e MSG_OK_OP, set_hr h s)
         end
  else
    match getContentSMByID (shm_key rq) s with
    | None => Ret (-1, [], s)
    | Some content =>
        let* latest := merge_size (data v) content in
        let* src := read_at latest 0 (block_size_recv rq) in
        let* d := write_at (data v) (block_offset rq) src in
        let* h := store_block (key rq) (mkBuf d (bsize v)) (hr s) in
        let s := set_shm (<[shm_key rq := latest]> (shm s)) (set_hr h s) in
        if negb (send_ok e) then Ret (-1, [], s)
        else Ret (0, [Msg MSG_OK_OP; Msg MSG_OK_OP], freeSM (shm_key rq) s)
    end.

(** [map->update_simple(key, 1)]: only a key that is there is updated. *)
Definition update_simple (k : bytes) (s : server) : server :=
  match buffer_snapshot s !! k with
  | Some _ => set_snapshot (<[k := 1]> (buffer_snapshot s)) s
  | None => s
  end.

Definition write_existing (e : env) (is_shared_memory : bool) (rq : request) (v : BufferValue bytes) (s : server)
  : result :=
  if negb is_shared_memory
  then
    if strlen (payload e) =? 0 then Ret (-1, say e MSG_ERROR_OP, s)
    else
      let* d := write_at (data v) (block_offset rq) (payload e) in
      let* h := store_block (key rq) (mkBuf d (bsize v)) (hr s) in
      let s := set_hr h s in
      if negb (recv_ok e) then Ret (-1, say e MSG_ERROR_OP, s)
      else Ret (0, say e MSG_OK_OP, update_simple (key rq) s)
  else
    match getContentSMByID (shm_key rq) s with
    | None => Ret (-1, [], s)
    | Some content =>
        let* src := read_at content 0 (block_size_recv rq) in
        let* d := write_at (data v) (block_offset rq) src in
        let* h := store_block (key rq) (mkBuf d (bsize v)) (hr s) in
        let s := set_hr h s in
        if negb (send_ok e) then Ret (-1, [], s)
        else Ret (0, [Msg MSG_OK_OP; Msg MSG_OK_OP], freeSM (shm_key rq) s)
    end.

(** [WRITE_OP]: a snapshot is never looked up first. *)
Definition write_op (e : env) (is_shared_memory snapshot_op : bool) (rq : request) (s : server) : result :=
  let* found := if snapshot_op then Ret None else HierarchicalMapGet (key rq) (hr s) in
  match found with
  | None => if is_shared_memory then write_new_shm e snapshot_op rq s
            else write_new_msg e snapshot_op rq s
  | Some v => if is_block_zero (key rq) then write_zero e is_shared_memory rq v s
              else write_existing e is_shared_memory rq v s
  end.

(** ** The handler *)

(** [READ_OP]: the type of the request travels in its size field. *)
Definition read_op (e : env) (is_shared_memory : bool) (rq : request) (s : server) : result :=
    let op := block_size_recv rq in
    if op =? READ_OP then read_block e is_shared_memory rq s
    else if op =? READV2_OP then read_prefetch e rq s
    else if op =? RELEASE then Ret (0, [], set_eps (eps s ∖ {[ worker_uid e ]}) s)
    else if op =? UNLINK_OP then unlink_op e rq s
    else if op =? DELETE_OP then delete_op e rq s
    else if op =? RENAME_OP then rename_op e rq s
    else if op =? RENAME_DIR_DIR_OP then rename_dir_dir_op e rq s
    else if op =? READV then readv_op e rq s
    else if op =? SPLIT_READV then split_readv_op e rq s
    else if op =? WHO then confirm e (my_uri e) s
    else Ret (0, [], s).

Definition srv_worker_helper (e : env) (req : bytes) (s : server) : result :=
    let* (mode, rest) := scan_mode req in
    let run (more : Z) (is_shared_memory default_params snapshot_op : bool) (s : server) : result :=
      let* (_, rq) := parse_request default_params req in
      if more =? READ_OP then read_op e is_shared_memory rq s
      else write_op e is_shared_memory snapshot_op rq s in
    if streq mode (B "BROADCAST") then
      match scan_str URI_ rest with
      | None => Ret (0, [], match buffer_snapshot s !! [] with
                            | Some _ => s
                            | None => set_snapshot (<[ [] := 0 ]> (buffer_snapshot s)) s
                            end)
      | Some (u, r) =>
          let* u := u in
          let sender := match scan_d r with Some (n, _) => i32 n | None => 0 end in
          Ret (0, [], match buffer_snapshot s !! u with
                      | Some _ => s
                      | None => set_snapshot (<[u := sender]> (buffer_snapshot s)) s
                      end)
      end
    else if streq mode (B "GET") then
      let '(ret, s) := CheckForMalleability req s in
      if negb (ret =? 0) then Ret (1, [], s) else run READ_OP false true false s
    else if streq mode (B "SET") then run WRITE_OP false true false s
    else if streq mode (B "LOCALGET") then run READ_OP true true false s
    else if streq mode (B "LOCALGETBLOCK") then run READ_OP true false false s
    else if streq mode (B "LOCALSETBLOCK") then run WRITE_OP true false false s
    else if streq mode (B "SNAPSET") then run WRITE_OP false true true s
    else if streq mode (B "STOPSERVER") then
      match scan_u32 rest with
      | None => Ret (1, [], stop_server None s)
      | Some (n, r) =>
          (* the format has a second conversion without an argument *)
          match scan_u32 r with
          | None => Ret (1, [], stop_server (Some n) s)
          | Some _ => Undef OutOfBounds
          end
      end
    else if streq mode (B "REORDERSERVER") then
      match scan_u32 rest with
      | None => Ret (1, [], reorder_server None None s)
      | Some (n, r) =>
          Ret (1, [], reorder_server (Some n) (match scan_u32 r with
                                               | Some (i, _) => Some (i32 i)
                                               | None => None
                                               end) s)
      end
    else Ret (-1, [], s).

(** ** Invariant of the store

    Every entry's recorded size is the size of its buffer, and the pool only
    holds buffers of the block size. *)
Definition wf_map (m : map_records bytes) : Prop :=
  map_Forall (fun _ v => strlen (data v) = bsize v) (buffer m).
Definition wf_store (BS : Z) (h : HierarchicalRecords bytes) : Prop :=
  map_Forall (fun _ m => wf_map m) (hiermap h) /\ Forall (fun b => strlen b = BS) (mem_pool h).

(** [malloc] gives memory of the requested size. *)
Definition malloc_ok (e : env) : Prop := forall n b, malloc e n = Some b -> strlen b = n.

Lemma wf_set_hiermap BS x h :
  wf_store BS h -> map_Forall (fun _ m => wf_map m) x -> wf_store BS (set_hiermap x h).
Proof. intros [_ Hp] Hx. by split. Qed.

Lemma wf_update_dir BS d m h :
  wf_store BS h -> wf_map m -> wf_store BS (set_hiermap (<[d := m]> (hiermap h)) h).
Proof. intros [Hh Hp] Hm. split; [|done]. by apply map_Forall_insert_2. Qed.

Lemma wf_lookup_dir BS h d m : wf_store BS h -> hiermap h !! d = Some m -> wf_map m.
Proof. intros [Hh _] Hd. by apply (Hh d m). Qed.

Lemma wf_get BS h k v :
  wf_store BS h -> HierarchicalMapGet k h = Ret (Some v) -> strlen (data v) = bsize v.
Proof.
  intros Hwf. unfold HierarchicalMapGet, get_child_unsafe. destruct (parent_dir k) as [d| |]; try done.
  simpl. destruct (hiermap h !! d) as [m|] eqn:Hm; [|done]. intros [= Hv].
  by apply (wf_lookup_dir _ _ _ _ Hwf Hm k).
Qed.

Lemma wf_store_block BS k v h h' :
  wf_store BS h -> strlen (data v) = bsize v -> store_block k v h = Ret h' -> wf_store BS h'.
Proof.
  unfold store_block. intros Hwf Hv. destruct (parent_dir k) as [d| |]; try done. simpl.
  destruct (hiermap h !! d) as [m|] eqn:Hm; [|done]. intros [= <-].
  apply wf_update_dir; [done|]. apply map_Forall_insert_2; [done|]. by eapply wf_lookup_dir.
Qed.

Lemma wf_put BS k a n reused zero h r h' :
  wf_store BS h -> strlen a = n ->
  HierarchicalMapPut k a n reused zero h = Ret (r, h') -> wf_store BS h'.
Proof.
  intros Hwf Hn. unfold HierarchicalMapPut. destruct (parent_dir k) as [d| |]; try done. simpl.
  set (h0 := if reused then h else _).
  assert (wf_store BS h0) as Hwf0.
  { unfold h0, IncreaseMemoryOccupied. destruct reused; [done|]. by case_match. }
  assert (wf_store BS (set_hiermap (<[d := put k (mkBuf a n) (default empty_map (hiermap h0 !! d))]>
            (hiermap h0)) h0)) as Hwf1.
  { apply wf_update_dir; [done|]. unfold put.
    assert (wf_map (default empty_map (hiermap h0 !! d))) as Hm.
    { destruct (hiermap h0 !! d) as [m|] eqn:Hm; simpl; [by eapply wf_lookup_dir|].
      apply map_Forall_empty. }
    case_match; [done|]. by apply map_Forall_insert_2. }
  destruct zero; [|by intros [= _ <-]].
  unfold CheckIfDirectory. destruct (is_directory a); try done. simpl. intros [= _ <-].
  case_match; [|done]. unfold InsertDirectory. case_match; [done|].
  apply wf_update_dir; [done|]. apply map_Forall_empty.
Qed.

Lemma wf_move_node old new b :
  map_Forall (fun _ v => strlen (data v) = bsize v) b ->
  map_Forall (fun _ v => strlen (data v) = bsize v) (move_node old new b).
Proof.
  intros Hb. unfold move_node. destruct (b !! old) as [v|] eqn:Hv; [|done].
  assert (map_Forall (fun _ v => strlen (data v) = bsize v) (delete old b)) by by apply map_Forall_delete.
  case_match; [done|]. apply map_Forall_insert_2; [|done]. by apply (Hb old).
Qed.

Lemma wf_update_key old new m r m' : wf_map m -> update_key old new m = (r, m') -> wf_map m'.
Proof.
  intros Hm. unfold update_key. repeat case_match; intros [= _ <-]; try done. by apply wf_move_node.
Qed.

Lemma wf_rename_loop new vec b b' :
  map_Forall (fun _ v => strlen (data v) = bsize v) b ->
  rename_loop new vec b = Ret b' -> map_Forall (fun _ v => strlen (data v) = bsize v) b'.
Proof.
  revert b. induction vec as [|k vec IH]; intros b Hb; simpl; [by intros [= <-]|].
  destruct (block_suffix k); try done. simpl. apply IH. by apply wf_move_node.
Qed.

Lemma wf_rename_data old new m r m' :
  wf_map m -> rename_data_srv_worker old new m = Ret (r, m') -> wf_map m'.
Proof.
  intros Hm. unfold rename_data_srv_worker. destruct (check_suffixes _); try done. cbn [obind].
  set (vec := collect _ _). destruct vec as [|v0 vec0] eqn:Ev; [by intros [= _ <-]|].
  destruct (rename_loop _ _ _) eqn:Hr; try done. simpl. intros [= _ <-].
  by eapply wf_rename_loop.
Qed.

Lemma wf_rename_data_dir old new m : wf_map m -> wf_map (snd (rename_data_dir_srv_worker old new m)).
Proof.
  unfold rename_data_dir_srv_worker, wf_map. simpl. generalize (collect (in_old_dir old) (buffer m)).
  intros vec. generalize (buffer m). induction vec as [|k vec IH]; intros b Hb; simpl; [done|].
  apply IH. by apply wf_move_node.
Qed.

Lemma wf_rename_regular BS old new h r h' :
  wf_store BS h -> HierarchicalMapRenameRegularFile old new h = Ret (r, h') -> wf_store BS h'.
Proof.
  intros Hwf. unfold HierarchicalMapRenameRegularFile. destruct (parent_dir old) as [d| |]; try done.
  simpl. destruct (hiermap h !! d) as [m|] eqn:Hm; [|by intros [= _ <-]].
  destruct (rename_data_srv_worker old new m) as [[r' m']| |] eqn:Hr; try done. simpl.
  intros [= _ <-]. apply wf_update_dir; [done|]. eapply wf_rename_data; [|done]. by eapply wf_lookup_dir.
Qed.

Lemma wf_rename_dir BS old new h r h' :
  wf_store BS h -> BackEndHierarchicalMapRenameDirDir old new h = Ret (r, h') -> wf_store BS h'.
Proof.
  intros Hwf. unfold BackEndHierarchicalMapRenameDirDir, get_dir_unsafe.
  destruct (hiermap h !! old) as [m|] eqn:Hm; [|by intros [= _ <-]].
  destruct (parent_dir old) as [d| |]; try done. cbn [obind].
  destruct (hiermap h !! d) as [pm|] eqn:Hpm; [|by intros [= _ <-]].
  destruct (rename_data_dir_srv_worker _ _ m) as [r1 m'] eqn:Hr1.
  assert (wf_map m') as Hm'.
  { change m' with (snd (r1, m')). rewrite <- Hr1. apply wf_rename_data_dir. by eapply wf_lookup_dir. }
  assert (wf_store BS (set_hiermap (<[old:=m']> (hiermap h)) h)) as Hwf1 by by apply wf_update_dir.
  destruct (update_key _ _ _) as [r2 pm'] eqn:Hr2. intros [= _ <-].
  apply wf_set_hiermap; [done|]. apply map_Forall_insert_2; [|apply Hwf1]. eapply wf_update_key; [|done].
  destruct (hiermap (set_hiermap _ _) !! d) as [x|] eqn:Hx; simpl;
    [by eapply wf_lookup_dir|apply map_Forall_empty].
Qed.

Lemma wf_rename_key BS old new h : wf_store BS h -> wf_store BS (snd (HierarchicalMapRenameKey old new h)).
Proof.
  intros Hwf. unfold HierarchicalMapRenameKey. destruct (hiermap h !! old) as [m|] eqn:Hm; [|done].
  apply wf_set_hiermap; [done|]. apply map_Forall_delete, map_Forall_insert_2; [|apply Hwf].
  by eapply wf_lookup_dir.
Qed.

Lemma wf_garbage_put BS k h r h' :
  wf_store BS h -> HierarchicalMapPutInGarbageCollector k h = Ret (r, h') -> wf_store BS h'.
Proof.
  intros Hwf. unfold HierarchicalMapPutInGarbageCollector. destruct (parent_dir k); try done. simpl.
  destruct (hiermap h !! _) eqn:Hm; intros [= _ <-]; [|done].
  apply wf_update_dir; [done|]. exact (wf_lookup_dir _ _ _ _ Hwf Hm).
Qed.

Lemma wf_garbage_pop BS k h r h' :
  wf_store BS h -> HierarchicalMapPopFromGarbageCollector k h = Ret (r, h') -> wf_store BS h'.
Proof.
  intros Hwf. unfold HierarchicalMapPopFromGarbageCollector. destruct (parent_dir k); try done. simpl.
  destruct (hiermap h !! _) as [m|] eqn:Hm; [|by intros [= _ <-]].
  unfold garbage_collector_pop. case_bool_decide; intros [= _ <-];
    (apply wf_update_dir; [done|]; exact (wf_lookup_dir _ _ _ _ Hwf Hm)).
Qed.

(** Opens every test and match of a computation known to return. *)
Ltac ret_cases H :=
  repeat match type of H with
         | obind ?m _ = Ret _ => destruct m eqn:?; simpl in H; try discriminate H
         | Ret _ = Ret _ => injection H as H; subst
         | confirm _ _ _ = Ret _ => unfold confirm in H
         | match ?x with _ => _ end = Ret _ => destruct x eqn:?; try discriminate H
         | (if ?b then _ else _) = (_, _, _) => destruct b eqn:?
         | (_, _) = (_, _) => injection H as H; subst
         end.

Section invariant.
Context (e : env).
Context (Hmalloc : malloc_ok e).

#[local] Abbreviation wf s := (wf_store (BLOCK_SIZE e) (hr s)).

Lemma wf_new_buffer exact n h nb h' :
  wf_store (BLOCK_SIZE e) h -> new_buffer e exact n h = (nb, h') ->
  wf_store (BLOCK_SIZE e) h' /\
  forall b size reused, nb = Some (b, size, reused) -> strlen b = size.
Proof.
  intros Hwf. unfold new_buffer. destruct exact.
  - intros [= <- <-]. split; [done|]. intros b size reused.
    destruct (malloc e n) eqn:Hm; [|done]. intros [= <- <- _]. by apply Hmalloc.
  - destruct (mem_pool h) as [|b0 pool] eqn:Hp; intros [= <- <-].
    + split; [done|]. intros b size reused.
      destruct (malloc e (BLOCK_SIZE e)) eqn:Hm; [|done]. intros [= <- <- _]. by apply Hmalloc.
    + destruct Hwf as [Hh Hpool]. rewrite Hp in Hpool. apply Forall_cons in Hpool as [Hb Hpool].
      split; [by split|]. by intros b size reused [= <- <- _].
Qed.

Lemma strlen_write_at b off p b' : write_at b off p = Ret b' -> strlen b' = strlen b.
Proof. intros H%write_at_length. unfold strlen. by rewrite H. Qed.

Lemma wf_insert_block snap rq b size n reused s r s' :
  wf s -> strlen b = size -> insert_block e snap rq b size n reused s = Ret (r, s') -> wf s'.
Proof.
  intros Hwf Hb. unfold insert_block. intros H. ret_cases H; try done.
  - eapply wf_store_block; [done| |done]. simpl. erewrite strlen_write_at by done. by eapply wf_get.
  - case_match; done.
  - by eapply wf_put.
Qed.

Lemma finish_insert_ret sent x r out s' :
  finish_insert e sent x = Ret (r, out, s') -> exists i, x = Ret (i, s').
Proof. unfold finish_insert. intros H. destruct x as [[i s0]| |]; try done. simpl in H. ret_cases H; eauto. Qed.

Lemma wf_write_new_msg snap rq s r out s' :
  wf s -> write_new_msg e snap rq s = Ret (r, out, s') -> wf s'.
Proof.
  intros Hwf. unfold write_new_msg. case_match; [by intros [= _ _ <-]|].
  destruct (new_buffer _ _ _ _) as [nb h] eqn:Hnb.
  destruct (wf_new_buffer _ _ _ _ _ Hwf Hnb) as [Hh Hs].
  destruct nb as [[[b size] reused]|]; [|by intros [= _ _ <-]].
  intros Hr. ret_inv Hr; [done|].
  apply finish_insert_ret in Hr as [i Hr]. eapply wf_insert_block; [| |done]; [done|].
  erewrite strlen_write_at by done. by eapply Hs.
Qed.

Lemma wf_write_new_shm snap rq s r out s' :
  wf s -> write_new_shm e snap rq s = Ret (r, out, s') -> wf s'.
Proof.
  intros Hwf. unfold write_new_shm. case_match; [|by intros [= _ _ <-]].
  case_match; [by intros [= _ _ <-]|].
  destruct (new_buffer _ _ _ _) as [nb h] eqn:Hnb.
  destruct (wf_new_buffer _ _ _ _ _ Hwf Hnb) as [Hh Hs].
  destruct nb as [[[b size] reused]|]; [|by intros [= _ _ <-]].
  intros Hr. ret_inv Hr.
  apply finish_insert_ret in Hr as [i Hr]. eapply wf_insert_block; [| |done]; [done|].
  erewrite strlen_write_at by done. by eapply Hs.
Qed.

Lemma wf_overwrite k v off p d h h' :
  wf_store (BLOCK_SIZE e) h -> HierarchicalMapGet k h = Ret (Some v) ->
  write_at (data v) off p = Ret d -> store_block k (mkBuf d (bsize v)) h = Ret h' ->
  wf_store (BLOCK_SIZE e) h'.
Proof.
  intros Hwf Hv Hd. apply wf_store_block; [done|]. simpl.
  erewrite strlen_write_at by done. by eapply wf_get.
Qed.

Lemma wf_write_zero shared rq v s r out s' :
  wf s -> HierarchicalMapGet (key rq) (hr s) = Ret (Some v) ->
  write_zero e shared rq v s = Ret (r, out, s') -> wf s'.
Proof.
  intros Hwf Hv. unfold write_zero.
  destruct (HierarchicalMapPopFromGarbageCollector _ _) as [[i h]| |] eqn:Hp; try done. cbn [obind].
  pose proof (wf_garbage_pop _ _ _ _ _ Hwf Hp) as Hwf'.
  pose proof (wf_garbage_pop_get _ _ _ _ _ Hv Hp) as Hv'.
  intros H. ret_cases H; try done; by eapply wf_overwrite.
Qed.

Lemma wf_write_existing shared rq v s r out s' :
  wf s -> HierarchicalMapGet (key rq) (hr s) = Ret (Some v) ->
  write_existing e shared rq v s = Ret (r, out, s') -> wf s'.
Proof.
  intros Hwf Hv. unfold write_existing, update_simple.
  intros H. ret_cases H; try done; repeat case_match; by eapply wf_overwrite.
Qed.

Lemma wf_write_op shared snap rq s r out s' :
  wf s -> write_op e shared snap rq s = Ret (r, out, s') -> wf s'.
Proof.
  intros Hwf. unfold write_op.
  destruct (if snap then _ else _) as [[v|]| |] eqn:Hg; try done; cbn [obind].
  - destruct snap; [done|]. case_match; [by eapply wf_write_zero|by eapply wf_write_existing].
  - destruct shared; [by eapply wf_write_new_shm|by eapply wf_write_new_msg].
Qed.

(** The vector reads change nothing. *)
Lemma readv_keeps rq s s' r out : readv_op e rq s = Ret (r, out, s') -> s' = s.
Proof. unfold readv_op. intros H. ret_cases H; done. Qed.

Lemma split_readv_keeps rq s s' r out : split_readv_op e rq s = Ret (r, out, s') -> s' = s.
Proof. unfold split_readv_op, split_blocks. intros H. ret_cases H; done. Qed.

Lemma wf_read_op shared rq s r out s' :
  wf s -> read_op e shared rq s = Ret (r, out, s') -> wf s'.
Proof.
  intros Hwf. unfold read_op, read_block, read_prefetch, unlink_op, delete_op, rename_op,
    rename_dir_dir_op, setContentSMByID, store_field. intros H. ret_cases H; try done.
  - match goal with H : _ = Ret (Some s') |- _ => ret_cases H end. done.
  - eapply wf_garbage_put; [|done]. by eapply wf_overwrite.
  - by eapply wf_overwrite.
  - by eapply wf_garbage_put.
  - by eapply wf_rename_regular.
  - match goal with H : HierarchicalMapRenameKey ?a ?b ?x = (_, ?y) |- _ =>
      replace y with (snd (HierarchicalMapRenameKey a b x)) by by rewrite H
    end.
    apply wf_rename_key. by eapply wf_rename_dir.
  - by erewrite (readv_keeps _ _ s').
  - by erewrite (split_readv_keeps _ _ s').
Qed.

Lemma wf_srv_worker_helper req s r out s' :
  wf s -> srv_worker_helper e req s = Ret (r, out, s') -> wf s'.
Proof.
  intros Hwf. unfold srv_worker_helper.
  destruct (scan_mode req) as [[mode rest]| |]; try done. cbn [obind].
  destruct (CheckForMalleability req s) as [g sg] eqn:Hg.
  assert (wf sg).
  { unfold CheckForMalleability in Hg. destruct (malleability_on s); by injection Hg as _ <-. }
  intros H0. ret_cases H0; try done; repeat case_match; try done;
    (eapply wf_read_op + eapply wf_write_op; [|exact H0]; done).
Qed.
End invariant.

(** C8. Store safety: whatever request a data server handles, the recorded
    size of every block stays the size of its buffer and every pooled buffer
    keeps the block size. *)
Theorem data_server_invariant (e : env) (req : bytes)
  (s : server) (r : Z) (out : list reply) (s' : server)
  (Hmalloc : malloc_ok e) (Hwf : wf_store (BLOCK_SIZE e) (hr s))
  (Hrun : srv_worker_helper e req s = Ret (r, out, s')) :
  wf_store (BLOCK_SIZE e) (hr s').
Proof. by eapply wf_srv_worker_helper. Qed.

(** ** Writing and reading blocks *)

(** A request that stores a block of data over a working network. *)
Definition good_write (e : env) (rq : request) (s : server) : Prop :=
  rooted (key rq) /\ is_block_zero (key rq) = false /\
  recv_ok e = true /\ send_ok e = true /\ payload e <> [] /\
  0 <= block_offset rq /\ block_offset rq + strlen (payload e) <= BLOCK_SIZE e /\
  malloc_ok e /\ (forall n, 0 <= n -> is_Some (malloc e n)) /\ wf_store (BLOCK_SIZE e) (hr s) /\
  (forall v, HierarchicalMapGet (key rq) (hr s) = Ret (Some v) -> bsize v = BLOCK_SIZE e).

(** The parts of the state a write of data leaves alone. *)
Definition same_control (s s' : server) : Prop :=
  malleability_on s' = malleability_on s /\ shm s' = shm s /\ eps s' = eps s.

(** What a write does to the store: the block is the old one, or a buffer of
    unspecified contents, with the payload at the offset. *)
Definition block_written (e : env) (rq : request) (s s' : server) : Prop :=
  exists b0 d,
    strlen b0 = BLOCK_SIZE e /\
    (forall v, HierarchicalMapGet (key rq) (hr s) = Ret (Some v) -> b0 = data v) /\
    write_at b0 (block_offset rq) (payload e) = Ret d /\
    HierarchicalMapGet (key rq) (hr s') = Ret (Some (mkBuf d (BLOCK_SIZE e))) /\
    forall k, k <> key rq -> HierarchicalMapGet k (hr s') = HierarchicalMapGet k (hr s).

Lemma write_at_ok b off p :
  0 <= off -> off + strlen p <= strlen b -> exists d, write_at b off p = Ret d.
Proof.
  intros H1 H2. unfold write_at.
  assert ((0 <=? off) && (off + strlen p <=? strlen b) = true) as -> by lia. eauto.
Qed.

Lemma new_buffer_data e h :
  0 <= BLOCK_SIZE e -> (forall n, 0 <= n -> is_Some (malloc e n)) -> malloc_ok e -> wf_store (BLOCK_SIZE e) h ->
  exists b reused h', new_buffer e false (strlen (payload e)) h = (Some (b, BLOCK_SIZE e, reused), h') /\
    strlen b = BLOCK_SIZE e /\ hiermap h' = hiermap h.
Proof.
  intros Hbs Hm Hmo [_ Hp]. unfold new_buffer. destruct (mem_pool h) as [|b pool].
  - destruct (Hm (BLOCK_SIZE e) Hbs) as [b Hb]. rewrite Hb. simpl. do 3 eexists. split; [done|].
    split; [by apply Hmo|done].
  - apply Forall_cons in Hp as [Hb _]. do 3 eexists. split; [done|]. done.
Qed.

Lemma write_op_new e rq s :
  good_write e rq s -> HierarchicalMapGet (key rq) (hr s) = Ret None ->
  exists s', write_op e false false rq s = Ret (0, [Msg MSG_OK_OP], s') /\
    block_written e rq s s' /\ same_control s s'.
Proof.
  intros (Hr & Hz & Hrecv & Hsend & Hp & Ho & Hb & Hmo & Hm & Hwf & _) Hg.
  unfold write_op. rewrite Hg. simpl. unfold write_new_msg.
  pose proof (strlen_pos _ Hp). destruct (Z.eqb_spec (strlen (payload e)) 0); [lia|].
  rewrite Hz. cbn [orb].
  destruct (new_buffer_data e (hr s)) as (b & reused & h & Hnb & Hlen & Hh); try done; [lia|].
  rewrite Hnb. destruct (write_at_ok b (block_offset rq) (payload e)) as [d Hd]; [lia|lia|].
  rewrite Hd. simpl. rewrite Hrecv. simpl. unfold insert_block. simpl.
  rewrite (HGet_hiermap _ _ _ Hh), Hg. simpl. rewrite Hz.
  destruct (HierarchicalMapPut_get (key rq) d (BLOCK_SIZE e) reused false h) as (h' & Hput & Hget & Hframe);
    [done|by rewrite (HGet_hiermap _ _ _ Hh)|done|].
  rewrite Hput. simpl. unfold say. rewrite Hsend. eexists. split; [done|]. split; [|done].
  exists b, d. repeat split; try done; [by rewrite Hg|].
  intros k Hk. simpl. by rewrite Hframe, (HGet_hiermap _ _ _ Hh).
Qed.

Lemma write_op_old e rq s v :
  good_write e rq s -> HierarchicalMapGet (key rq) (hr s) = Ret (Some v) ->
  exists s', write_op e false false rq s = Ret (0, [Msg MSG_OK_OP], s') /\
    block_written e rq s s' /\ same_control s s'.
Proof.
  intros (Hr & Hz & Hrecv & Hsend & Hp & Ho & Hb & Hmo & Hm & Hwf & Hsz) Hg.
  pose proof (Hsz v Hg) as Hv. pose proof (wf_get _ _ _ _ Hwf Hg) as Hl.
  unfold write_op. rewrite Hg. simpl. rewrite Hz. unfold write_existing. simpl.
  pose proof (strlen_pos _ Hp). destruct (Z.eqb_spec (strlen (payload e)) 0); [lia|].
  destruct (write_at_ok (data v) (block_offset rq) (payload e)) as [d Hd]; [lia|lia|].
  rewrite Hd. simpl. destruct (store_block_ok _ _ (mkBuf d (bsize v)) _ Hg) as [h Hh].
  rewrite Hh. simpl. rewrite Hrecv. simpl. unfold say. rewrite Hsend.
  destruct (store_block_get _ _ _ _ Hh) as [Hget Hframe].
  eexists. split; [done|]. split.
  - exists (data v), d. unfold update_simple. simpl. split; [lia|]. split; [congruence|]. split; [done|].
    rewrite Hv in Hget. case_match; split; done.
  - unfold update_simple. by case_match.
Qed.

(** A well-formed write is confirmed once and changes only its block. *)
Lemma write_op_spec e rq s :
  good_write e rq s ->
  exists s', write_op e false false rq s = Ret (0, [Msg MSG_OK_OP], s') /\
    block_written e rq s s' /\ same_control s s'.
Proof.
  intros H. destruct (HGet_rooted (key rq) (hr s)) as [[v|] Hv]; [apply H| |].
  - by eapply write_op_old.
  - by apply write_op_new.
Qed.

(** C6. A block written to a data server is confirmed and read back: the bytes
    of the payload come back from the offset they were written to, the other
    bytes of an existing block and all other blocks are unchanged. *)
Theorem write_then_read (e e' : env) (rq : request) (s : server)
  (Hw : good_write e rq s) (Hs : send_ok e' = true) :
  exists s', write_op e false false rq s = Ret (0, [Msg MSG_OK_OP], s') /\
    read_block e' false (mkReq READ_OP (block_offset rq) (-1) (key rq) (strlen (payload e))) s'
      = Ret (0, [Data (payload e)], s') /\
    (forall v i, HierarchicalMapGet (key rq) (hr s) = Ret (Some v) ->
       (i < Z.to_nat (block_offset rq) \/ Z.to_nat (block_offset rq) + length (payload e) <= i)%nat ->
       exists v', HierarchicalMapGet (key rq) (hr s') = Ret (Some v') /\ data v' !! i = data v !! i) /\
    (forall k, k <> key rq -> HierarchicalMapGet k (hr s') = HierarchicalMapGet k (hr s)).
Proof.
  destruct (write_op_spec e rq s Hw) as (s' & Hrun & (b0 & d & Hl & Hold & Hd & Hg & Hf) & _).
  exists s'. split; [done|]. split; [|split; [|done]].
  - unfold read_block. simpl. rewrite Hg. simpl.
    assert (0 < strlen (payload e)) by (apply strlen_pos, Hw).
    destruct (Z.leb_spec (strlen (payload e)) 0); [lia|].
    rewrite (read_write_same _ _ _ _ Hd). simpl. by rewrite Hs.
  - intros v i Hv Hi. exists (mkBuf d (BLOCK_SIZE e)). split; [done|]. simpl.
    rewrite (write_at_lookup _ _ _ _ i Hd), decide_False by lia. by rewrite (Hold v Hv).
Qed.

(** A server for the examples: blocks of 4 bytes, one empty root directory. *)
Definition sample_server : server :=
  mkServer (mkHier {[ IMSS_ROOT := empty_map ]} 0 1000 []) ∅ ∅ ∅ ∅ false 0 [] 0 (-1) 1 false 0.
Definition zeroed (n : Z) : option bytes :=
  if n <? 0 then None else Some (repeat "000"%char (Z.to_nat n)).
Definition sample_env (p : bytes) : env := mkEnv 4 (B "imss://") 0 1 7 zeroed p true true.

Lemma sample_wf : wf_store 4 (hr sample_server).
Proof. split; [|constructor]. apply map_Forall_singleton. apply map_Forall_empty. Qed.

Lemma zeroed_some n : 0 <= n -> is_Some (zeroed n).
Proof. intros. unfold zeroed. destruct (Z.ltb_spec n 0); [lia|eauto]. Qed.

Lemma zeroed_length n b : zeroed n = Some b -> strlen b = n.
Proof.
  unfold zeroed. destruct (Z.ltb_spec n 0); [done|]. intros [= <-]. unfold strlen.
  rewrite repeat_length. lia.
Qed.

Lemma sample_good_write :
  good_write (sample_env (B "xy")) (mkReq 2 1 (-1) (B "imss://a$1") 0) sample_server.
Proof.
  split; [by exists (B "a$1")|]. do 3 (split; [done|]). split; [discriminate|].
  do 2 (split; [by vm_compute|]). split; [exact zeroed_length|]. split; [exact zeroed_some|].
  split; [exact sample_wf|]. by vm_compute.
Qed.

Lemma write_then_read_witness :
  exists s', write_op (sample_env (B "xy")) false false (mkReq 2 1 (-1) (B "imss://a$1") 0) sample_server
               = Ret (0, [Msg MSG_OK_OP], s') /\
    read_block (sample_env []) false (mkReq READ_OP 1 (-1) (B "imss://a$1") 2) s'
      = Ret (0, [Data (B "xy")], s').
Proof.
  destruct (write_then_read (sample_env (B "xy")) (sample_env []) (mkReq 2 1 (-1) (B "imss://a$1") 0)
    sample_server) as (s' & H1 & H2 & _).
  - apply sample_good_write.
  - reflexivity.
  - exists s'. split; [exact H1|exact H2].
Defined.

Lemma data_server_invariant_witness :
  wf_store 4 (hr sample_server) /\
  exists out s', srv_worker_helper (sample_env (B "xy"))
                   (B "SET 2 1 imss://a$1") sample_server = Ret (0, out, s') /\ wf_store 4 (hr s').
Proof.
  split; [exact sample_wf|]. do 2 eexists. split; [vm_compute; reflexivity|].
  apply (data_server_invariant (sample_env (B "xy"))
    (B "SET 2 1 imss://a$1") sample_server 0 [Msg MSG_OK_OP]).
  - exact zeroed_length.
  - exact sample_wf.
  - vm_compute. reflexivity.
Defined.

(** ** Block 0 *)

Definition header_size (b : bytes) : outcome Z :=
  let* z := load_field b st_size_off 8 in Ret (i64 z).

Lemma i64_u64 z : - 2 ^ 63 <= z < 2 ^ 63 -> i64 (z mod 2 ^ 64) = z.
Proof.
  intros. unfold i64. rewrite Z.add_mod_idemp_l by lia. rewrite Z.mod_small; lia.
Qed.

Lemma i64_range z : - 2 ^ 63 <= i64 z < 2 ^ 63.
Proof. unfold i64. pose proof (Z.mod_pos_bound (z + 2 ^ 63) (2 ^ 64)). lia. Qed.

Lemma write_at_whole b p d : strlen p = strlen b -> write_at b 0 p = Ret d -> d = p.
Proof.
  unfold write_at, strlen. intros Hl. case_match; [|done]. intros [= <-]. simpl.
  rewrite drop_ge by lia. by rewrite app_nil_r.
Qed.

Lemma merge_size_spec old latest o l :
  header_size old = Ret o -> header_size latest = Ret l ->
  exists d, merge_size old latest = Ret d /\ strlen d = strlen latest /\
    header_size d = Ret (Z.max l o) /\
    forall i, (i < 48 \/ 56 <= i)%nat -> d !! i = latest !! i.
Proof.
  unfold header_size, merge_size. intros Ho Hl.
  destruct (load_field old st_size_off 8) as [zo| |]; try done.
  destruct (load_field latest st_size_off 8) as [zl| |] eqn:El; try done.
  simpl in *. injection Ho as <-. injection Hl as <-.
  assert (st_size_off + 8 <= strlen latest).
  { revert El. unfold load_field, read_at. destruct (_ && _) eqn:E; [|done]. btests. lia. }
  destruct (write_at_ok latest st_size_off (le_put 8 (Z.max (i64 zl) (i64 zo)))) as [d Hd].
  { done. } { unfold strlen in *. rewrite length_le_put. lia. }
  exists d. unfold store_field. split; [done|]. split; [by eapply strlen_write_at|]. split.
  - pose proof (load_store_field latest st_size_off 8 (Z.max (i64 zl) (i64 zo)) d Hd) as Hld.
    change (Z.of_nat 8) with 8 in Hld. rewrite Hld. simpl. f_equal. apply i64_u64. pose proof (i64_range zl). pose proof (i64_range zo). lia.
  - intros i Hi. rewrite (write_at_lookup _ _ _ _ i Hd), length_le_put, decide_False; [done|].
    change (Z.to_nat st_size_off) with 48%nat. lia.
Qed.

(** Writing the header block of a file: the server keeps the larger of the
    stored and the received file size, so no header a client sends makes a
    file shorter, and takes every other field from the client. *)
Theorem header_write_keeps_larger_size (e : env) (rq : request) (s : server) (v : BufferValue bytes) (o l : Z)
  (Hz : is_block_zero (key rq) = true) (Hv : HierarchicalMapGet (key rq) (hr s) = Ret (Some v))
  (Hoff : block_offset rq = 0) (Hlen : strlen (payload e) = strlen (data v))
  (Ho : header_size (data v) = Ret o) (Hl : header_size (payload e) = Ret l)
  (Hr : recv_ok e = true) (Hs : send_ok e = true) (Hm : is_Some (malloc e (strlen (payload e)))) :
  exists s' v', write_op e false false rq s = Ret (0, [Msg MSG_OK_OP], s') /\
    HierarchicalMapGet (key rq) (hr s') = Ret (Some v') /\
    header_size (data v') = Ret (Z.max l o) /\
    forall i, (i < 48 \/ 56 <= i)%nat -> data v' !! i = payload e !! i.
Proof.
  unfold write_op. rewrite Hv. cbn [obind]. rewrite Hz. unfold write_zero.
  destruct (HierarchicalMapPopFromGarbageCollector (key rq) (hr s)) as [[i h]| |] eqn:Hp.
  2,3: exfalso; unfold HierarchicalMapPopFromGarbageCollector in Hp;
    unfold HierarchicalMapGet, get_child_unsafe in Hv; destruct (parent_dir _); try done;
    simpl in *; destruct (hiermap (hr s) !! _); [|done];
    by destruct (garbage_collector_pop (key rq) m).
  pose proof (wf_garbage_pop_get _ _ _ _ _ Hv Hp) as Hv'. cbn [obind negb].
  destruct (merge_size_spec _ _ _ _ Ho Hl) as (d & Hd & Hdl & Hsz & Hother).
  assert ((strlen (payload e) =? 0) = false) as ->.
  { apply Z.eqb_neq. revert Hl. unfold header_size, load_field, read_at.
    destruct (_ && _) eqn:E; [|done]. unfold st_size_off in E. btests. lia. }
  destruct Hm as [b Hm]. rewrite Hm, Hr, Hd. cbn [obind negb]. rewrite Hoff.
  destruct (write_at_ok (data v) 0 d) as [d' Hd']; [done|lia|]. rewrite Hd'. cbn [obind].
  rewrite (write_at_whole (data v) d d' ltac:(lia) Hd'). simpl hr.
  destruct (store_block_ok _ _ (mkBuf d (bsize v)) _ Hv') as [h' Hh']. rewrite Hh'. simpl.
  unfold say. rewrite Hs. destruct (store_block_get _ _ _ _ Hh') as [Hg _].
  do 2 eexists. split; [done|]. split; [exact Hg|]. done.
Qed.

(** A header block: the link count, mode and size fields of [struct stat]. *)
Definition header_bytes (nlink mode size : Z) : bytes :=
  repeat "000"%char 16 ++ le_put 8 nlink ++ le_put 4 mode ++ repeat "000"%char 20
  ++ le_put 8 size ++ repeat "000"%char 88.
Definition header_server : server :=
  set_hr (mkHier {[ IMSS_ROOT := mkMap {[ B "imss://a$0" := mkBuf (header_bytes 1 33188 10) 144 ]} [] ]}
            144 1000 []) sample_server.

Lemma header_write_keeps_larger_size_witness :
  exists s' v', write_op (sample_env (header_bytes 1 33188 7)) false false (mkReq 144 0 (-1) (B "imss://a$0") 0)
                  header_server = Ret (0, [Msg MSG_OK_OP], s') /\
    HierarchicalMapGet (B "imss://a$0") (hr s') = Ret (Some v') /\
    header_size (data v') = Ret 10 /\
    forall i, (i < 48 \/ 56 <= i)%nat -> data v' !! i = header_bytes 1 33188 7 !! i.
Proof.
  apply (header_write_keeps_larger_size (sample_env (header_bytes 1 33188 7))
    (mkReq 144 0 (-1) (B "imss://a$0") 0) header_server (mkBuf (header_bytes 1 33188 10) 144) 10 7);
    try (vm_compute; reflexivity).
  vm_compute. eauto.
Defined.

(** ** Writes through shared memory *)

(** A [LOCALSETBLOCK] whose segment holds the bytes [src] of the request. *)
Definition good_local_write (e : env) (rq : request) (src : bytes) (s : server) : Prop :=
  good_write (with_payload src e) rq s /\ block_size_recv rq = strlen src /\
  exists content, getContentSMByID (shm_key rq) s = Some content /\
    read_at content 0 (strlen src) = Ret src.

(** A local write copies the client's segment into the block exactly like
    a write over the network and releases the segment, but confirms twice:
    the client's [set_data] waits for one of the two confirmations. *)
Theorem local_write_confirms_twice (e : env) (rq : request) (src : bytes) (s : server)
  (Hw : good_local_write e rq src s) :
  exists s', write_op e true false rq s = Ret (0, [Msg MSG_OK_OP; Msg MSG_OK_OP], s') /\
    block_written (with_payload src e) rq s s' /\ shm s' = delete (shm_key rq) (shm s).
Proof.
  destruct Hw as ((Hr & Hz & _ & Hsend & Hp & Ho & Hb & Hmo & Hm & Hwf & Hsz) & Hn & content & Hc & Hsrc).
  cbn [with_payload BLOCK_SIZE payload send_ok malloc malloc_ok] in *. pose proof (strlen_pos _ Hp).
  unfold write_op. destruct (HGet_rooted (key rq) (hr s) Hr) as [[v|] Hg]; rewrite Hg; cbn [obind].
  - rewrite Hz. unfold write_existing. cbn [negb]. rewrite Hc, Hn, Hsrc. cbn [obind].
    pose proof (Hsz v Hg) as Hv. pose proof (wf_get _ _ _ _ Hwf Hg) as Hl.
    destruct (write_at_ok (data v) (block_offset rq) src) as [d Hd]; [lia|lia|]. rewrite Hd. cbn [obind].
    destruct (store_block_ok _ _ (mkBuf d (bsize v)) _ Hg) as [h Hh]. rewrite Hh. cbn [obind]. rewrite Hsend.
    destruct (store_block_get _ _ _ _ Hh) as [Hget Hframe]. rewrite Hv in Hget.
    eexists. split; [done|]. split; [|done]. exists (data v), d. simpl. split; [lia|]. split; [congruence|]. done.
  - unfold write_new_shm. rewrite Hc, Hsend, Hz, Hn. cbn [negb orb].
    destruct (new_buffer_data (with_payload src e) (hr s)) as (b & reused & h & Hnb & Hlen & Hh); try done; [simpl; lia|].
    change (new_buffer e false (strlen src) (hr s) = (Some (b, BLOCK_SIZE e, reused), h)) in Hnb.
    rewrite Hnb, Hsrc. cbn [obind with_payload BLOCK_SIZE] in *.
    destruct (write_at_ok b (block_offset rq) src) as [d Hd]; [lia|lia|]. rewrite Hd. cbn [obind].
    unfold insert_block. cbn [hr set_hr freeSM set_shm]. rewrite (HGet_hiermap _ _ _ Hh), Hg. cbn [obind]. rewrite Hz.
    destruct (HierarchicalMapPut_get (key rq) d (BLOCK_SIZE e) reused false h) as (h' & Hput & Hget & Hframe);
      [done|by rewrite (HGet_hiermap _ _ _ Hh)|done|].
    rewrite Hput. simpl. unfold say. rewrite Hsend. eexists. split; [done|]. split; [|done].
    exists b, d. simpl. split; [done|]. split; [by rewrite Hg|]. split; [done|]. split; [done|].
    intros k Hk. by rewrite Hframe, (HGet_hiermap _ _ _ Hh).
Qed.

Definition segment_server : server := set_shm {[ 9 := B "xy" ]} sample_server.

Lemma local_write_confirms_twice_witness :
  exists s', write_op (sample_env []) true false (mkReq 2 1 9 (B "imss://a$1") 0) segment_server
               = Ret (0, [Msg MSG_OK_OP; Msg MSG_OK_OP], s') /\ shm s' = delete 9 {[ 9 := B "xy" ]}.
Proof.
  destruct (local_write_confirms_twice (sample_env []) (mkReq 2 1 9 (B "imss://a$1") 0) (B "xy") segment_server)
    as (s' & H1 & _ & H2).
  - split; [|split; [reflexivity|]].
    + split; [by exists (B "a$1")|]. do 3 (split; [done|]). split; [discriminate|].
      do 2 (split; [by vm_compute|]). split; [exact zeroed_length|]. split; [exact zeroed_some|].
      split; [exact sample_wf|]. by vm_compute.
    + exists (B "xy"). split; [|reflexivity]. by vm_compute.
  - exists s'. split; [exact H1|exact H2].
Defined.
