(* ===== verification/Race.v ===== *)
(** * Concurrent writers

    The worker threads of a data server handle requests in parallel.  A
    [SET] of a data block is three atomic actions (src/src/workers.c, case
    [WRITE_OP]): the lookup of the key; for a missing key, taking a buffer and
    receiving the message into it; and, under [memory_protect], the second
    lookup with the insertion or the copy into the block another thread stored
    meanwhile.  An existing block is received into under the same lock.  A
    schedule is a list of thread numbers. *)

From S2P Require Import Prelude Types Paths Store DataServer.

Inductive phase :=
| Looking
| Missing
| Received (b : bytes) (size : Z) (reused : bool)
| Overwriting
| Done (ret : Z) (out : list reply).

Record writer := mkWriter { w_rq : request; w_msg : bytes; w_phase : phase }.

Definition at_phase (w : writer) (p : phase) : writer := mkWriter (w_rq w) (w_msg w) p.

(** One action of one thread; a block that vanished under a pointer to it is a
    use after free. *)
Definition writer_step (e : env) (w : writer) (s : server) : outcome (writer * server) :=
  let e := with_payload (w_msg w) e in
  let rq := w_rq w in
  match w_phase w with
  | Looking =>
      let* found := HierarchicalMapGet (key rq) (hr s) in
      Ret (at_phase w (match found with None => Missing | Some _ => Overwriting end), s)
  | Missing =>
      if strlen (w_msg w) =? 0 then Ret (at_phase w (Done (-1) (say e MSG_ERROR_OP)), s)
      else
        let '(nb, h) := new_buffer e (is_block_zero (key rq)) (strlen (w_msg w)) (hr s) in
        let s := set_hr h s in
        match nb with
        | None => Ret (at_phase w (Done (-1) (say e MSG_ERROR_OP)), s)
        | Some (b, size, reused) =>
            let* b' := write_at b (block_offset rq) (w_msg w) in
            Ret (at_phase w (if recv_ok e then Received b' size reused
                             else Done (-1) (say e MSG_ERROR_OP)), s)
        end
  | Received b size reused =>
      let* (r, out, s') :=
        finish_insert e [] (insert_block e false rq b size (strlen (w_msg w)) reused s) in
      Ret (at_phase w (Done r out), s')
  | Overwriting =>
      let* found := HierarchicalMapGet (key rq) (hr s) in
      match found with
      | None => Undef UseAfterFree
      | Some v =>
          let* (r, out, s') := if is_block_zero (key rq) then write_zero e false rq v s
                               else write_existing e false rq v s in
          Ret (at_phase w (Done r out), s')
      end
  | Done _ _ => Ret (w, s)
  end.

Definition step (e : env) (i : nat) (c : server * list writer) : outcome (server * list writer) :=
  match snd c !! i with
  | None => Ret c
  | Some w => let* (w', s') := writer_step e w (fst c) in Ret (s', <[i := w']> (snd c))
  end.

Fixpoint run (e : env) (sched : list nat) (c : server * list writer) : outcome (server * list writer) :=
  match sched with
  | [] => Ret c
  | i :: rest => let* c' := step e i c in run e rest c'
  end.

Lemma obind_ret {A B} (a : A) (f : A -> outcome B) : obind (Ret a) f = f a.
Proof. reflexivity. Qed.

(** ** Threads together *)

(** A working network and allocator. *)
Definition env_ok (e : env) : Prop :=
  recv_ok e = true /\ send_ok e = true /\ malloc_ok e /\ (forall n, 0 <= n -> is_Some (malloc e n)).

(** A write of data inside one block. *)
Definition writer_ok (e : env) (w : writer) : Prop :=
  rooted (key (w_rq w)) /\ is_block_zero (key (w_rq w)) = false /\ w_msg w <> [] /\
  0 <= block_offset (w_rq w) /\ block_offset (w_rq w) + strlen (w_msg w) <= BLOCK_SIZE e.

(** Two writes that do not touch the same bytes. *)
Definition apart (w1 w2 : writer) : Prop :=
  key (w_rq w1) <> key (w_rq w2) \/
  block_offset (w_rq w1) + strlen (w_msg w1) <= block_offset (w_rq w2) \/
  block_offset (w_rq w2) + strlen (w_msg w2) <= block_offset (w_rq w1).

(** The bytes of the message are in the store. *)
Definition stored (s : server) (w : writer) : Prop :=
  exists v, HierarchicalMapGet (key (w_rq w)) (hr s) = Ret (Some v) /\
    read_at (data v) (block_offset (w_rq w)) (strlen (w_msg w)) = Ret (w_msg w).

Definition phase_ok (e : env) (s : server) (w : writer) : Prop :=
  match w_phase w with
  | Looking | Missing => True
  | Received b size _ =>
      size = BLOCK_SIZE e /\
      exists b0, strlen b0 = BLOCK_SIZE e /\ write_at b0 (block_offset (w_rq w)) (w_msg w) = Ret b
  | Overwriting => exists v, HierarchicalMapGet (key (w_rq w)) (hr s) = Ret (Some v)
  | Done r out => r = 0 /\ out = [Msg MSG_OK_OP] /\ stored s w
  end.

(** The blocks of the writers have the block size. *)
Definition sized (e : env) (k : bytes) (s : server) : Prop :=
  forall v, HierarchicalMapGet k (hr s) = Ret (Some v) -> bsize v = BLOCK_SIZE e.

(** What one action does to the store. *)
Definition effect (e : env) (w : writer) (s s' : server) : Prop :=
  (forall k, HierarchicalMapGet k (hr s') = HierarchicalMapGet k (hr s)) \/
  block_written (with_payload (w_msg w) e) (w_rq w) s s'.

Definition is_done (p : phase) : bool := match p with Done _ _ => true | _ => false end.

(** Actions a thread still has to take. *)
Definition left_of (w : writer) : nat :=
  match w_phase w with Looking => 3 | Missing => 2 | Received _ _ _ | Overwriting => 1 | Done _ _ => 0 end.

Lemma writer_good e w s :
  env_ok e -> writer_ok e w -> wf_store (BLOCK_SIZE e) (hr s) -> sized e (key (w_rq w)) s ->
  good_write (with_payload (w_msg w) e) (w_rq w) s.
Proof.
  intros (H1 & H2 & H3 & H4) (H5 & H6 & H7 & H8 & H9) Hwf Hsz.
  do 10 (split; [done|]). exact Hsz.
Qed.

Lemma block_written_stored e w s s' :
  block_written (with_payload (w_msg w) e) (w_rq w) s s' -> stored s' w.
Proof.
  intros (b0 & d & _ & _ & Hd & Hg & _). eexists. split; [exact Hg|]. simpl. by eapply read_write_same.
Qed.

(** The insertion of a received block. *)
Lemma insert_step e w s b reused :
  env_ok e -> writer_ok e w -> wf_store (BLOCK_SIZE e) (hr s) -> sized e (key (w_rq w)) s ->
  (exists b0, strlen b0 = BLOCK_SIZE e /\ write_at b0 (block_offset (w_rq w)) (w_msg w) = Ret b) ->
  exists s', insert_block (with_payload (w_msg w) e) false (w_rq w) b (BLOCK_SIZE e) (strlen (w_msg w)) reused s
               = Ret (0, s') /\
    block_written (with_payload (w_msg w) e) (w_rq w) s s'.
Proof.
  intros He (Hr & Hz & Hm & Ho & Hb) Hwf Hsz (b0 & Hl0 & Hw0). unfold insert_block.
  destruct (HGet_rooted (key (w_rq w)) (hr s) Hr) as [[v|] Hg]; rewrite Hg, obind_ret.
  - rewrite (read_write_same _ _ _ _ Hw0), obind_ret.
    pose proof (wf_get _ _ _ _ Hwf Hg) as Hlv. rewrite (Hsz v Hg) in Hlv.
    destruct (write_at_ok (data v) (block_offset (w_rq w)) (w_msg w)) as [d Hd]; [lia|lia|].
    rewrite Hd, obind_ret. destruct (store_block_ok _ _ (mkBuf d (bsize v)) _ Hg) as [h Hh].
    rewrite Hh, obind_ret. destruct (store_block_get _ _ _ _ Hh) as [Hget Hframe].
    eexists. split; [done|]. exists (data v), d. rewrite (Hsz v Hg) in Hget.
    split; [done|]. split; [congruence|]. done.
  - rewrite Hz. cbn [with_payload BLOCK_SIZE].
    destruct (HierarchicalMapPut_get (key (w_rq w)) b (BLOCK_SIZE e) reused false (hr s))
      as (h & Hput & Hget & Hframe); [done|done|done|].
    rewrite Hput, obind_ret. eexists. split; [done|]. exists b0, b. split; [done|]. split; [by rewrite Hg|]. done.
Qed.

(** One action of a thread whose state is sane. *)
Lemma writer_step_ok e w s :
  env_ok e -> writer_ok e w -> wf_store (BLOCK_SIZE e) (hr s) -> sized e (key (w_rq w)) s -> phase_ok e s w ->
  exists p s', writer_step e w s = Ret (at_phase w p, s') /\
    wf_store (BLOCK_SIZE e) (hr s') /\ effect e w s s' /\
    (is_done p = false -> forall k, HierarchicalMapGet k (hr s') = HierarchicalMapGet k (hr s)) /\
    (is_done (w_phase w) = false -> is_done p = true -> block_written (with_payload (w_msg w) e) (w_rq w) s s') /\
    phase_ok e s' (at_phase w p) /\
    (left_of (at_phase w p) <= left_of w - 1)%nat.
Proof.
  intros He Hok Hwf Hsz Hph. pose proof (writer_good e w s He Hok Hwf Hsz) as Hgw.
  pose proof He as (Hrecv & Hsend & Hmo & Hm). pose proof Hok as (Hr & Hz & Hmsg & Ho & Hb).
  pose proof (strlen_pos _ Hmsg). destruct w as [rq msg ph]. unfold phase_ok, at_phase in *.
  cbn [w_rq w_msg w_phase] in *. unfold writer_step, at_phase. cbn [w_rq w_msg w_phase].
  destruct ph as [| |b size reused| |r out].
  - destruct (HGet_rooted (key rq) (hr s) Hr) as [f Hf]. rewrite Hf, obind_ret.
    eexists _, s. split; [done|]. split; [done|]. split; [by left|]. split; [done|]. split; [by destruct f|]. unfold left_of. destruct f; simpl; eauto.
  - destruct (Z.eqb_spec (strlen msg) 0); [lia|]. rewrite Hz.
    destruct (new_buffer_data (with_payload msg e) (hr s)) as (b & reused & h & Hnb & Hlen & Hh); try done.
    { simpl. lia. }
    destruct (wf_new_buffer (with_payload msg e) Hmo _ _ _ _ _ Hwf Hnb) as [Hwf' _].
    cbn [payload with_payload] in Hnb. rewrite Hnb.
    destruct (write_at_ok b (block_offset rq) msg) as [d Hd]; [lia|simpl in Hlen; lia|].
    rewrite Hd, obind_ret. cbn [recv_ok with_payload]. rewrite Hrecv.
    eexists _, _. split; [done|]. split; [done|]. split.
    + left. intros k. by apply HGet_hiermap.
    + split; [intros _ k; by apply HGet_hiermap|]. split; [done|].
      split; [|unfold left_of; simpl; lia]. simpl. split; [done|]. by exists b.
  - destruct Hph as [-> Hbuf]. cbn [BLOCK_SIZE with_payload] in *.
    destruct (insert_step e (mkWriter rq msg (Received b (BLOCK_SIZE e) reused)) s b reused)
      as (s' & Hins & Hbw); try done. cbn [w_rq w_msg] in *.
    pose proof (wf_insert_block (with_payload msg e) false rq b (BLOCK_SIZE e) (strlen msg) reused s 0 s' Hwf) as Hwf'.
    rewrite Hins. unfold finish_insert, say. cbn. rewrite Hsend. eexists _, _. split; [done|].
    split. { apply Hwf'; [|done]. destruct Hbuf as (b0 & Hl & Hw). by rewrite (strlen_write_at _ _ _ _ Hw). }
    split; [by right|]. split; [done|]. split; [done|]. split; [|unfold left_of; simpl; lia]. split; [done|]. split; [done|].
    by apply (block_written_stored e (mkWriter rq msg Looking) s s').
  - destruct Hph as [v Hv]. rewrite Hv, obind_ret, Hz.
    destruct (write_op_old (with_payload msg e) rq s v Hgw Hv) as (s' & Hrun & Hbw & _).
    pose proof Hrun as Hrun'. unfold write_op in Hrun. rewrite Hv, obind_ret, Hz in Hrun.
    rewrite Hrun, obind_ret. eexists _, _. split; [done|]. split.
    { by apply (wf_write_op (with_payload msg e) Hmo false false rq s 0 [Msg MSG_OK_OP] s'). }
    split; [by right|]. split; [done|]. split; [done|]. split; [|unfold left_of; simpl; lia]. split; [done|]. split; [done|].
    by apply (block_written_stored e (mkWriter rq msg Looking) s s').
  - eexists _, s. do 2 (split; [done|]). split; [by left|]. do 3 (split; [done|]). unfold left_of. simpl. lia.
Qed.

(** An action of [w] does not disturb another thread. *)
Lemma effect_stable e w w2 s s' :
  effect e w s s' -> apart w w2 -> writer_ok e w -> writer_ok e w2 ->
  sized e (key (w_rq w2)) s -> phase_ok e s w2 ->
  sized e (key (w_rq w2)) s' /\ phase_ok e s' w2.
Proof.
  intros Heff Hap Hok Hok2 Hsz Hph. destruct Heff as [Heq|(b0 & d & Hl & Hold & Hd & Hg & Hf)].
  { unfold phase_ok, stored, sized in *. rewrite !Heq. done. }
  destruct (decide (key (w_rq w2) = key (w_rq w))) as [E|E].
  2:{ unfold phase_ok, stored, sized in *. rewrite (Hf _ E). done. }
  destruct Hok as (_ & _ & Hm & Ho & _). destruct Hok2 as (_ & _ & Hm2 & Ho2 & _).
  unfold phase_ok, stored, sized in *. rewrite E in *. rewrite Hg.
  split; [by intros v [= <-]|]. destruct (w_phase w2); try done; [eauto|].
  destruct Hph as (-> & -> & v & Hv & Hr). split; [done|]. split; [done|]. eexists. split; [done|]. simpl.
  rewrite <- (Hold v Hv) in Hr. eapply read_write_apart; [done|exact Hr|].
  destruct Hap as [Hk|Hk]; [congruence|]. simpl in *. lia.
Qed.

Record race_inv (e : env) (c : server * list writer) : Prop := {
  ri_wf : wf_store (BLOCK_SIZE e) (hr (fst c));
  ri_each : forall i w, snd c !! i = Some w ->
    writer_ok e w /\ sized e (key (w_rq w)) (fst c) /\ phase_ok e (fst c) w;
  ri_apart : forall i j w1 w2, i <> j -> snd c !! i = Some w1 -> snd c !! j = Some w2 -> apart w1 w2
}.

(** Thread [w'] is a later state of thread [w], [n] actions on. *)
Definition later (n : nat) (w w' : writer) : Prop :=
  w_rq w' = w_rq w /\ w_msg w' = w_msg w /\ (left_of w' <= left_of w - n)%nat.

Lemma later_trans n m w1 w2 w3 : later n w1 w2 -> later m w2 w3 -> later (n + m) w1 w3.
Proof. intros (H1 & H2 & H3) (H4 & H5 & H6). unfold later. rewrite H4, H5. repeat split; try done. lia. Qed.

Lemma step_ok e i c :
  env_ok e -> race_inv e c ->
  exists c', step e i c = Ret c' /\ race_inv e c' /\
    forall j w', snd c' !! j = Some w' ->
      exists w, snd c !! j = Some w /\ later (if decide (i = j) then 1 else 0) w w'.
Proof.
  intros He Hinv. destruct c as [s ws]. unfold step. cbn [fst snd].
  destruct (ws !! i) as [w|] eqn:Hi.
  2:{ exists (s, ws). split; [done|]. split; [done|]. intros j w' Hj. exists w'. split; [done|].
      rewrite decide_False by (intros ->; simpl in *; congruence). split; [done|]. split; [done|]. lia. }
  destruct (ri_each _ _ Hinv i w Hi) as (Hok & Hsz & Hph).
  destruct (writer_step_ok e w s He Hok (ri_wf _ _ Hinv) Hsz Hph) as (p & s' & Hs & Hwf & Heff & _ & _ & Hph' & Hlt).
  rewrite Hs, obind_ret. eexists. split; [done|]. cbn [fst snd].
  assert (sized e (key (w_rq w)) s') as Hsz'.
  { destruct Heff as [Heq|(b0 & d & _ & _ & _ & Hg & _)]; [intros v; rewrite Heq; apply Hsz|].
    intros v. rewrite Hg. by intros [= <-]. }
  split; [split; cbn [fst snd]|].
  - done.
  - intros j w' Hj. destruct (decide (i = j)) as [<-|Hij].
    + rewrite list_lookup_insert_eq in Hj by (by eapply lookup_lt_Some). injection Hj as <-. done.
    + rewrite list_lookup_insert_ne in Hj by done. destruct (ri_each _ _ Hinv j w' Hj) as (Hok2 & Hsz2 & Hph2).
      split; [done|]. eapply effect_stable; try done. by eapply (ri_apart _ _ Hinv i j).
  - intros j k w1 w2 Hjk Hj Hk. destruct (decide (i = j)) as [<-|Hij], (decide (i = k)) as [<-|Hik]; try done.
    + rewrite list_lookup_insert_eq in Hj by (by eapply lookup_lt_Some). injection Hj as <-.
      rewrite list_lookup_insert_ne in Hk by done. by apply (ri_apart _ _ Hinv i k w w2).
    + rewrite list_lookup_insert_eq in Hk by (by eapply lookup_lt_Some). injection Hk as <-.
      rewrite list_lookup_insert_ne in Hj by done. by apply (ri_apart _ _ Hinv j i w1 w).
    + rewrite list_lookup_insert_ne in Hj by done. rewrite list_lookup_insert_ne in Hk by done.
      by apply (ri_apart _ _ Hinv j k).
  - intros j w' Hj. destruct (decide (i = j)) as [<-|Hij].
    + rewrite list_lookup_insert_eq in Hj by (by eapply lookup_lt_Some). injection Hj as <-.
      exists w. done.
    + rewrite list_lookup_insert_ne in Hj by done. exists w'. split; [done|]. split; [done|]. split; [done|]. lia.
Qed.

Lemma run_ok e sched c :
  env_ok e -> race_inv e c ->
  exists c', run e sched c = Ret c' /\ race_inv e c' /\
    forall j w', snd c' !! j = Some w' ->
      exists w, snd c !! j = Some w /\ later (count_occ Nat.eq_dec sched j) w w'.
Proof.
  intros He. revert c. induction sched as [|i sched IH]; intros c Hinv.
  - exists c. split; [done|]. split; [done|]. intros j w' Hj. exists w'. split; [done|].
    split; [done|]. split; [done|]. simpl. lia.
  - destruct (step_ok e i c He Hinv) as (c1 & Hs & Hinv1 & Hl1).
    destruct (IH c1 Hinv1) as (c' & Hr & Hinv' & Hl'). exists c'. cbn [run]. rewrite Hs, obind_ret.
    split; [done|]. split; [done|]. intros j w' Hj.
    destruct (Hl' j w' Hj) as (w1 & Hw1 & Hlat1). destruct (Hl1 j w1 Hw1) as (w & Hw & Hlat).
    exists w. split; [done|]. pose proof (later_trans _ _ _ _ _ Hlat Hlat1) as Hlt.
    cbn [count_occ]. destruct (Nat.eq_dec i j), (decide (i = j)); try done.
Qed.

(** ** Threads that store to the same bytes *)

(** A stored byte, and the byte that a write puts there. *)
Definition byte_at (s : server) (k : bytes) (p : nat) : option ascii :=
  match HierarchicalMapGet k (hr s) with Ret (Some v) => data v !! p | _ => None end.
Definition written (w : writer) (k : bytes) (p : nat) : option ascii :=
  if decide (key (w_rq w) = k /\ Z.to_nat (block_offset (w_rq w)) <= p)%nat
  then w_msg w !! (p - Z.to_nat (block_offset (w_rq w)))%nat else None.

(** What the writes leave there when they are done one after the other in an
    order: the byte of the last one that puts one there. *)
Definition last_write (ws : list writer) (order : list nat) (k : bytes) (p : nat) : option ascii :=
  fold_left (fun b i => match ws !! i ≫= (fun w => written w k p) with Some b' => Some b' | None => b end) order None.

Lemma last_write_snoc ws order i k p w :
  ws !! i = Some w ->
  last_write ws (order ++ [i]) k p
  = match written w k p with Some b => Some b | None => last_write ws order k p end.
Proof. intros Hi. unfold last_write. rewrite fold_left_app. cbn [fold_left]. by rewrite Hi. Qed.

(** The store after the writes in an order. *)
Definition stored_in_order (s : server) (ws : list writer) (order : list nat) (s' : server) : Prop :=
  (forall k p, match last_write ws order k p with
               | Some b => byte_at s' k p = Some b
               | None => forall b, byte_at s k p = Some b -> byte_at s' k p = Some b
               end) /\
  (forall k, (forall i w, i ∈ order -> ws !! i = Some w -> key (w_rq w) <> k) ->
     HierarchicalMapGet k (hr s') = HierarchicalMapGet k (hr s)).

Lemma in_order_same s ws order s1 s2 :
  stored_in_order s ws order s1 -> (forall k, HierarchicalMapGet k (hr s2) = HierarchicalMapGet k (hr s1)) ->
  stored_in_order s ws order s2.
Proof.
  intros [Hb Hf] Heq. split.
  - intros k p. specialize (Hb k p). unfold byte_at in *. by rewrite Heq.
  - intros k Hk. by rewrite Heq, Hf.
Qed.

Lemma block_written_bytes e w s s' k p :
  block_written (with_payload (w_msg w) e) (w_rq w) s s' ->
  match written w k p with
  | Some b => byte_at s' k p = Some b
  | None => forall b, byte_at s k p = Some b -> byte_at s' k p = Some b
  end.
Proof.
  intros (b0 & d & Hl & Hold & Hd & Hg & Hf). cbn [payload with_payload] in Hd. unfold written, byte_at.
  pose proof (fun i => write_at_lookup _ _ _ _ i Hd) as Hlk.
  destruct (decide (k = key (w_rq w))) as [->|Hk].
  - rewrite Hg. cbn [data]. rewrite (Hlk p). case_decide as Hin.
    + destruct Hin as [_ Hin]. destruct (w_msg w !! (p - Z.to_nat (block_offset (w_rq w)))%nat) as [b|] eqn:E.
      * rewrite decide_True; [done|]. apply lookup_lt_Some in E. lia.
      * apply lookup_ge_None in E. rewrite decide_False by lia. intros b.
        destruct (HierarchicalMapGet _ (hr s)) as [[v|]| |] eqn:Hv; try done. by rewrite (Hold v).
    + rewrite decide_False by (intros [? ?]; apply Hin; split; [done|lia]). intros b.
      destruct (HierarchicalMapGet _ (hr s)) as [[v|]| |] eqn:Hv; try done. by rewrite (Hold v).
  - rewrite decide_False by (intros [? _]; congruence). intros b. by rewrite Hf.
Qed.

Lemma writer_step_done e w s : is_done (w_phase w) = true -> writer_step e w s = Ret (w, s).
Proof. unfold writer_step. by destruct (w_phase w). Qed.

(** A thread that finishes is the last of the order. *)
Lemma in_order_next e s ws order s1 s2 i w0 w :
  stored_in_order s ws order s1 -> ws !! i = Some w0 -> w_rq w = w_rq w0 -> w_msg w = w_msg w0 ->
  block_written (with_payload (w_msg w) e) (w_rq w) s1 s2 -> stored_in_order s ws (order ++ [i]) s2.
Proof.
  intros [Hb Hf] Hi Hrq Hmsg Hbw. assert (forall k p, written w k p = written w0 k p) as Hw
    by (intros; unfold written; by rewrite Hrq, Hmsg).
  split.
  - intros k p. rewrite (last_write_snoc _ _ _ _ _ w0) by done. rewrite <- Hw.
    pose proof (block_written_bytes e w s1 s2 k p Hbw) as Hbytes. destruct (written w k p) as [b|]; [done|].
    specialize (Hb k p). destruct (last_write ws order k p) as [b|]; eauto.
  - intros k Hk. destruct Hbw as (_ & _ & _ & _ & _ & _ & Hframe).
    rewrite Hframe, Hf; [done| |].
    + intros j w' Hj. apply Hk. apply elem_of_app. by left.
    + rewrite Hrq. intros ->. apply (Hk i w0); [|done|done]. apply elem_of_app. right. by left.
Qed.

(** A thread in the middle: what its next action needs. *)
Definition live (e : env) (s : server) (w : writer) : Prop :=
  match w_phase w with Done r out => r = 0 /\ out = [Msg MSG_OK_OP] | _ => phase_ok e s w end.

Record order_inv (e : env) (s : server) (ws : list writer) (c : server * list writer) (order : list nat) : Prop := {
  oi_wf : wf_store (BLOCK_SIZE e) (hr (fst c));
  oi_each : forall i w, snd c !! i = Some w -> exists w0, ws !! i = Some w0 /\
    w_rq w = w_rq w0 /\ w_msg w = w_msg w0 /\ writer_ok e w /\ sized e (key (w_rq w)) (fst c) /\
    live e (fst c) w /\ (i ∈ order <-> is_done (w_phase w) = true);
  oi_order : NoDup order /\ Forall (fun i => is_Some (snd c !! i)) order;
  oi_bytes : stored_in_order s ws order (fst c)
}.

(** What a finished action leaves to the other threads. *)
Lemma effect_live e w w2 s s' :
  effect e w s s' -> sized e (key (w_rq w2)) s -> live e s w2 -> sized e (key (w_rq w2)) s' /\ live e s' w2.
Proof.
  intros [Heq|(b0 & d & Hl & Hold & Hd & Hg & Hf)] Hsz Hlive.
  { unfold live, phase_ok, sized in *. rewrite !Heq. by destruct (w_phase w2). }
  destruct (decide (key (w_rq w2) = key (w_rq w))) as [E|E].
  2:{ unfold live, phase_ok, sized in *. rewrite (Hf _ E). by destruct (w_phase w2). }
  unfold live, phase_ok, sized in *. rewrite E in *. rewrite Hg.
  split; [by intros v [= <-]|]. destruct (w_phase w2); try done. eauto.
Qed.

Lemma order_step e s ws i c order :
  env_ok e -> order_inv e s ws c order ->
  exists c' order', step e i c = Ret c' /\ order_inv e s ws c' order' /\
    forall j w', snd c' !! j = Some w' ->
      exists w, snd c !! j = Some w /\ later (if decide (i = j) then 1 else 0) w w'.
Proof.
  intros He Hinv. destruct c as [s1 cs]. unfold step. cbn [fst snd].
  destruct (cs !! i) as [w|] eqn:Hi.
  2:{ exists (s1, cs), order. split; [done|]. split; [done|]. intros j w' Hj. exists w'. split; [done|].
      rewrite decide_False by (intros ->; simpl in *; congruence). split; [done|]. split; [done|]. lia. }
  pose proof (oi_each _ _ _ _ _ Hinv) as Heach. cbn [fst snd] in Heach.
  destruct (Heach i w Hi) as (w0 & Hw0 & Hrq & Hmsg & Hok & Hsz & Hlive & Hord).
  destruct (oi_order _ _ _ _ _ Hinv) as [Hnd Hall]. cbn [snd] in Hall.
  destruct (is_done (w_phase w)) eqn:Hd.
  - rewrite writer_step_done by done.
    rewrite obind_ret, list_insert_id by done. exists (s1, cs), order. split; [reflexivity|]. split; [exact Hinv|].
    intros j w' Hj. exists w'. split; [done|]. split; [done|]. split; [done|].
    case_decide as Hij; [|lia]. subst j. simpl in Hj. rewrite Hi in Hj. injection Hj as <-.
    unfold left_of. by destruct (w_phase w).
  - assert (phase_ok e s1 w) as Hph by (unfold live in Hlive; by destruct (w_phase w)).
    destruct (writer_step_ok e w s1 He Hok (oi_wf _ _ _ _ _ Hinv) Hsz Hph)
      as (p & s2 & Hs & Hwf & Heff & Hsame & Hbw & Hph' & Hlt).
    rewrite Hs, obind_ret. exists (s2, <[i:=at_phase w p]> cs), (if is_done p then order ++ [i] else order).
    assert (i ∉ order) as Hni by (by rewrite Hord).
    split; [done|]. split; [split; cbn [fst snd]|].
    + done.
    + intros j w' Hj. destruct (decide (i = j)) as [<-|Hij].
      * rewrite list_lookup_insert_eq in Hj by (by eapply lookup_lt_Some). injection Hj as <-.
        exists w0. destruct (effect_live e w w s1 s2 Heff Hsz Hlive) as [Hsz' _].
        do 4 (split; [done|]). split; [done|]. split.
        -- unfold live, phase_ok, at_phase in *. cbn [w_phase] in *. destruct p; try done. by destruct Hph' as (? & ? & _).
        -- cbn [w_phase at_phase]. destruct (is_done p); [|by split].
           split; [done|]. intros _. apply elem_of_app. right. by left.
      * rewrite list_lookup_insert_ne in Hj by done.
        destruct (Heach j w' Hj) as (w0' & Hw0' & Hrq' & Hmsg' & Hok' & Hsz' & Hlive' & Hord').
        exists w0'. destruct (effect_live e w w' s1 s2 Heff Hsz' Hlive') as [Hsz2 Hlive2].
        do 4 (split; [done|]). split; [done|]. split; [done|]. rewrite <- Hord'.
        destruct (is_done p); [|done]. rewrite elem_of_app, list_elem_of_singleton. split; [by intros [?| ->]|by left].
    + assert (Forall (fun j => is_Some (<[i:=at_phase w p]> cs !! j)) order) as Hall'.
      { eapply Forall_impl; [exact Hall|]. intros j [x Hx]. destruct (decide (i = j)) as [<-|Hij].
        - rewrite list_lookup_insert_eq by (by eapply lookup_lt_Some). by eexists.
        - rewrite list_lookup_insert_ne by done. by eexists. }
      destruct (is_done p); [|done]. split.
      * apply NoDup_app. split; [done|]. split; [|apply NoDup_singleton].
        intros j Hj ->%list_elem_of_singleton. done.
      * apply Forall_app. split; [done|]. constructor; [|constructor].
        rewrite list_lookup_insert_eq by (by eapply lookup_lt_Some). by eexists.
    + pose proof (oi_bytes _ _ _ _ _ Hinv) as Hby. cbn [fst] in Hby. destruct (is_done p) eqn:Hp.
      * eapply in_order_next; [exact Hby|exact Hw0|exact Hrq|exact Hmsg|]. by apply Hbw.
      * by eapply in_order_same; [|apply Hsame].
    + intros j w' Hj. cbn [snd] in Hj. destruct (decide (i = j)) as [<-|Hij].
      * rewrite list_lookup_insert_eq in Hj by (by eapply lookup_lt_Some). injection Hj as <-. by exists w.
      * rewrite list_lookup_insert_ne in Hj by done. exists w'. split; [done|]. split; [done|]. split; [done|]. lia.
Qed.

Lemma order_run e s ws sched c order :
  env_ok e -> order_inv e s ws c order ->
  exists c' order', run e sched c = Ret c' /\ order_inv e s ws c' order' /\
    forall j w', snd c' !! j = Some w' ->
      exists w, snd c !! j = Some w /\ later (count_occ Nat.eq_dec sched j) w w'.
Proof.
  intros He. revert c order. induction sched as [|i sched IH]; intros c order Hinv.
  - exists c, order. split; [done|]. split; [done|]. intros j w' Hj. exists w'. split; [done|].
    split; [done|]. split; [done|]. simpl. lia.
  - destruct (order_step e s ws i c order He Hinv) as (c1 & order1 & Hs & Hinv1 & Hl1).
    destruct (IH c1 order1 Hinv1) as (c' & order' & Hr & Hinv' & Hl'). exists c', order'. cbn [run]. rewrite Hs, obind_ret.
    split; [done|]. split; [done|]. intros j w' Hj.
    destruct (Hl' j w' Hj) as (w1 & Hw1 & Hlat1). destruct (Hl1 j w1 Hw1) as (w & Hw & Hlat).
    exists w. split; [done|]. pose proof (later_trans _ _ _ _ _ Hlat Hlat1) as Hlt.
    cbn [count_occ]. destruct (Nat.eq_dec i j), (decide (i = j)); try done.
Qed.

Lemma order_start e s ws :
  wf_store (BLOCK_SIZE e) (hr s) ->
  (forall i w, ws !! i = Some w -> w_phase w = Looking /\ writer_ok e w /\ sized e (key (w_rq w)) s) ->
  order_inv e s ws (s, ws) [].
Proof.
  intros Hwf Hws. split; cbn [fst snd]; [done| | |].
  - intros i w Hi. destruct (Hws i w Hi) as (Hl & Hok & Hsz). exists w. do 5 (split; [done|]). unfold live, phase_ok.
    rewrite Hl. split; [done|]. split; [by intros ?%elem_of_nil|done].
  - split; constructor.
  - split; [|done]. intros k p b Hb. exact Hb.
Qed.

(** ** Properties *)

(** C5. Concurrent writes are not lost: any number of threads that store
    different bytes, of the same block or of different blocks, existing or
    not, can be interleaved in every way; no action goes wrong, a finished
    thread confirmed its write once and its bytes are in the store and stay
    there, and a thread that is scheduled three times has finished. *)
Theorem racing_writers_keep_data (e : env) (s : server) (ws : list writer) (sched : list nat)
  (He : env_ok e) (Hwf : wf_store (BLOCK_SIZE e) (hr s))
  (Hws : forall i w, ws !! i = Some w ->
     w_phase w = Looking /\ writer_ok e w /\ sized e (key (w_rq w)) s)
  (Hap : forall i j w1 w2, i <> j -> ws !! i = Some w1 -> ws !! j = Some w2 -> apart w1 w2) :
  exists s' ws', run e sched (s, ws) = Ret (s', ws') /\ wf_store (BLOCK_SIZE e) (hr s') /\
    forall i w', ws' !! i = Some w' ->
      exists w, ws !! i = Some w /\ w_rq w' = w_rq w /\ w_msg w' = w_msg w /\
        (forall r out, w_phase w' = Done r out -> r = 0 /\ out = [Msg MSG_OK_OP] /\ stored s' w') /\
        ((3 <= count_occ Nat.eq_dec sched i)%nat -> exists r out, w_phase w' = Done r out).
Proof.
  assert (race_inv e (s, ws)) as Hinv.
  { split; [done| |exact Hap]. intros i w Hi. destruct (Hws i w Hi) as (Hl & Hok & Hsz).
    split; [done|]. split; [done|]. unfold phase_ok. by rewrite Hl. }
  destruct (run_ok e sched (s, ws) He Hinv) as ([s' ws'] & Hr & Hinv' & Hl).
  exists s', ws'. split; [done|]. split; [apply (ri_wf _ _ Hinv')|]. intros i w' Hi.
  destruct (Hl i w' Hi) as (w & Hw & Hrq & Hmsg & Hleft). exists w. do 3 (split; [done|]).
  destruct (ri_each _ _ Hinv' i w' Hi) as (_ & _ & Hph). unfold phase_ok in Hph. simpl in Hph. split.
  - intros r out Hd. by rewrite Hd in Hph.
  - intros Hc. destruct (Hws i w Hw) as (Hlk & _ & _). unfold left_of in Hleft. rewrite Hlk in Hleft.
    destruct (w_phase w'); try lia. eauto.
Qed.

(** C16. Writers are atomic: any number of threads that store to a data server,
    also to the same bytes, can be interleaved in every way, and the store is as
    if the writes of the finished threads had been done one after the other in
    some order.  Every byte that one of them writes is that of the last one in
    this order, every other byte of a block stays, blocks that none of them
    writes are untouched; a finished thread confirmed once, and a thread that is
    scheduled three times has finished. *)
Theorem racing_writes_in_some_order (e : env) (s : server) (ws : list writer) (sched : list nat)
  (He : env_ok e) (Hwf : wf_store (BLOCK_SIZE e) (hr s))
  (Hws : forall i w, ws !! i = Some w ->
     w_phase w = Looking /\ writer_ok e w /\ sized e (key (w_rq w)) s) :
  exists s' ws' order, run e sched (s, ws) = Ret (s', ws') /\ wf_store (BLOCK_SIZE e) (hr s') /\
    stored_in_order s ws order s' /\ NoDup order /\
    (forall i w', ws' !! i = Some w' ->
       (i ∈ order <-> w_phase w' = Done 0 [Msg MSG_OK_OP]) /\
       ((3 <= count_occ Nat.eq_dec sched i)%nat -> i ∈ order)) /\
    (forall i, i ∈ order -> is_Some (ws' !! i)).
Proof.
  destruct (order_run e s ws sched (s, ws) [] He (order_start e s ws Hwf Hws)) as ([s' ws'] & order & Hr & Hinv & Hl).
  exists s', ws', order. split; [done|]. split; [apply (oi_wf _ _ _ _ _ Hinv)|].
  split; [apply (oi_bytes _ _ _ _ _ Hinv)|]. destruct (oi_order _ _ _ _ _ Hinv) as [Hnd Hall]. split; [done|]. split.
  - intros i w' Hi. destruct (oi_each _ _ _ _ _ Hinv i w' Hi) as (w0 & Hw0 & _ & _ & _ & _ & Hlive & Hord).
    assert (i ∈ order <-> w_phase w' = Done 0 [Msg MSG_OK_OP]) as Hdone.
    { rewrite Hord. unfold live in Hlive. destruct (w_phase w'); try done. destruct Hlive as [-> ->]. done. }
    split; [done|]. intros Hc. rewrite Hord. destruct (Hl i w' Hi) as (w & Hw & _ & _ & Hleft).
    cbn [snd] in Hw. destruct (Hws i w Hw) as (Hlk & _ & _). unfold left_of in Hleft. rewrite Hlk in Hleft.
    destruct (w_phase w'); try done; simpl in Hleft; lia.
  - intros i Hi. rewrite Forall_forall in Hall. by apply Hall.
Qed.

(** Two threads miss the same block, then both insert it. *)
Lemma racing_writers_keep_data_witness :
  let w1 := mkWriter (mkReq 2 0 (-1) (B "imss://a$1") 0) (B "xy") Looking in
  let w2 := mkWriter (mkReq 2 2 (-1) (B "imss://a$1") 0) (B "zt") Looking in
  exists s' ws', run (sample_env []) [0; 1; 0; 1; 0; 1]%nat (sample_server, [w1; w2]) = Ret (s', ws') /\
    forall i w', ws' !! i = Some w' -> (i < 2)%nat -> stored s' w'.
Proof.
  intros w1 w2.
  destruct (racing_writers_keep_data (sample_env []) sample_server [w1; w2] [0; 1; 0; 1; 0; 1]%nat)
    as (s' & ws' & Hr & _ & Hall).
  - do 2 (split; [reflexivity|]). split; [exact zeroed_length|exact zeroed_some].
  - apply sample_wf.
  - assert (forall w, w = w1 \/ w = w2 -> w_phase w = Looking /\ writer_ok (sample_env []) w /\
              sized (sample_env []) (key (w_rq w)) sample_server) as Hw.
    { intros w [-> | ->]; (split; [reflexivity|]; split; [|intros v; vm_compute; discriminate]);
        (split; [by exists (B "a$1")|]; split; [reflexivity|]; split; [discriminate|];
         split; vm_compute; discriminate). }
    intros [|[|i]] w; simpl; intros [= <-]; apply Hw; auto.
  - intros [|[|i]] [|[|j]] a b Hij; simpl; intros [= <-] [= <-]; try done; right; [left|right]; vm_compute; discriminate.
  - exists s', ws'. split; [exact Hr|]. intros i w' Hi Hlt. destruct (Hall i w' Hi) as (w & _ & _ & _ & Hd & Hc).
    destruct Hc as (r & out & Hph); [destruct i as [|[|i]]; simpl; lia|]. by apply (Hd r out).
Defined.

(** Two threads that store to overlapping bytes of a block neither of them
    found: the one that inserts second wins where they overlap. *)
Lemma racing_writes_in_some_order_witness :
  let w1 := mkWriter (mkReq 3 0 (-1) (B "imss://a$1") 0) (B "xyz") Looking in
  let w2 := mkWriter (mkReq 2 1 (-1) (B "imss://a$1") 0) (B "uv") Looking in
  exists s' ws' order, run (sample_env []) [0; 1; 0; 1; 1; 0]%nat (sample_server, [w1; w2]) = Ret (s', ws') /\
    stored_in_order sample_server [w1; w2] order s' /\ NoDup order /\ (0 ∈ order /\ 1 ∈ order)%nat.
Proof.
  intros w1 w2.
  destruct (racing_writes_in_some_order (sample_env []) sample_server [w1; w2] [0; 1; 0; 1; 1; 0]%nat)
    as (s' & ws' & order & Hr & _ & Hst & Hnd & Hall & _).
  - do 2 (split; [reflexivity|]). split; [exact zeroed_length|exact zeroed_some].
  - apply sample_wf.
  - assert (forall w, w = w1 \/ w = w2 -> w_phase w = Looking /\ writer_ok (sample_env []) w /\
              sized (sample_env []) (key (w_rq w)) sample_server) as Hw.
    { intros w [-> | ->]; (split; [reflexivity|]; split; [|intros v; vm_compute; discriminate]);
        (split; [by exists (B "a$1")|]; split; [reflexivity|]; split; [discriminate|];
         split; vm_compute; discriminate). }
    intros [|[|i]] w; simpl; intros [= <-]; apply Hw; auto.
  - exists s', ws', order. split; [exact Hr|]. split; [exact Hst|]. split; [exact Hnd|].
    pose proof Hr as Hr'. vm_compute in Hr'. injection Hr' as _ Hws'.
    split; eapply Hall; try (rewrite <- Hws'; reflexivity); simpl; lia.
Defined.
