(* ===== verification/Wire.v ===== *)
(** * Request lines

    The lines the client prints for the data servers ([set_data], [get_ndata],
    [unlink_dataset] of src/src/imss.c) and their reading by
    [srv_worker_helper] (src/src/workers.c). *)

From S2P Require Import Prelude Types Paths Store DataServer.

(** ** What the client prints *)

(** ["%s$%d"]. *)
Definition block_key (uri : bytes) (id : Z) : bytes := uri ++ dollar :: print_d id.

Definition sp : ascii := " "%char.

(** ["SET %lu %ld %s$%d"]. *)
Definition set_request (size offset : Z) (uri : bytes) (data_id : Z) : bytes :=
  B "SET" ++ sp :: print_u size ++ sp :: print_d offset ++ sp :: block_key uri data_id.

(** ["GET %lu %ld %s$%d %ld"], the first number being 0. *)
Definition get_request (offset : Z) (uri : bytes) (data_id to_read : Z) : bytes :=
  B "GET" ++ sp :: print_u 0 ++ sp :: print_d offset ++ sp :: block_key uri data_id
  ++ sp :: print_d to_read.

(** ["LOCALSETBLOCK %lu %ld %d %s$%d"]. *)
Definition local_set_request (size offset shm_id : Z) (uri : bytes) (data_id : Z) : bytes :=
  B "LOCALSETBLOCK" ++ sp :: print_u size ++ sp :: print_d offset ++ sp :: print_d shm_id
  ++ sp :: block_key uri data_id.

(** ["LOCALGETBLOCK %lu %ld %d %s$%d %ld"]. *)
Definition local_get_request (offset shm_id : Z) (uri : bytes) (data_id to_read : Z) : bytes :=
  B "LOCALGETBLOCK" ++ sp :: print_u 0 ++ sp :: print_d offset ++ sp :: print_d shm_id
  ++ sp :: block_key uri data_id ++ sp :: print_d to_read.

(** ["GET %d 0 %s$0 %d"] with the number of open descriptors last. *)
Definition unlink_request (uri : bytes) (n_open : Z) : bytes :=
  B "GET" ++ sp :: print_d UNLINK_OP ++ sp :: B "0" ++ sp :: uri ++ B "$0" ++ sp :: print_d n_open.

(** ** Reading them back *)

Definition no_space (w : bytes) : Prop := Forall (fun a => isspace a = false) w.

(** A URI that survives the trip: it has no white space and its key fits the
    server's array. *)
Definition wire_uri (uri : bytes) : Prop := no_space uri /\ strlen uri + 12 < URI_.

Lemma print_d_u n : 0 <= n -> print_d n = print_u n.
Proof. intros. unfold print_d. destruct (Z.ltb_spec n 0); [lia|done]. Qed.

Lemma print_u_head n : 0 <= n -> exists a r, print_u n = a :: r /\ is_digit a = true.
Proof.
  intros Hn. unfold print_u. destruct (digits_nonempty 19 n) as (d & ds & Hd).
  pose proof (digits_range 20 n Hn) as Hf. rewrite Hd in *. apply Forall_cons in Hf as [Hd0 _].
  do 2 eexists. split; [done|]. by apply is_digit_digit.
Qed.

Definition ends_number (r : bytes) : Prop :=
  match r with a :: _ => is_digit a = false | [] => True end.
Definition ends_word (r : bytes) : Prop :=
  match r with a :: _ => isspace a = true | [] => True end.

Lemma scan_d_print n r :
  0 <= n < 2 ^ 64 -> ends_number r -> scan_d (sp :: print_u n ++ r) = Some (n, r).
Proof.
  intros Hn Hr. pose proof (scan_u_print n r Hn Hr) as Hs.
  destruct (print_u_head n) as (a & t & Ha & Hd); [lia|].
  unfold scan_d. change (skip_space (sp :: print_u n ++ r)) with (skip_space (print_u n ++ r)).
  rewrite Ha in *. simpl in *.
  assert (isspace a = false) as Hsp.
  { unfold is_digit in Hd. unfold isspace. btests. lia. }
  rewrite Hsp. unfold scan_u in Hs. simpl in Hs. rewrite Hsp in Hs.
  assert (ascii_eqb a "-"%char = false) as ->.
  { apply ascii_eqb_false. intros ->. done. }
  assert (ascii_eqb a "+"%char = false) as ->.
  { apply ascii_eqb_false. intros ->. done. }
  unfold scan_u. simpl. by rewrite Hsp.
Qed.

Lemma scan_s_sp w r : w <> [] -> no_space w -> ends_word r -> scan_s (sp :: w ++ r) = Some (w, r).
Proof. intros. change (scan_s (sp :: w ++ r)) with (scan_s (w ++ r)). by apply scan_s_word. Qed.

Lemma scan_word_nil_space w : no_space w -> w <> [] -> skip_space w = w.
Proof. intros Hw Hne. destruct w as [|a w]; [done|]. apply Forall_cons in Hw as [Ha _]. simpl. by rewrite Ha. Qed.

Lemma scan_mode_word m r :
  m <> [] -> no_space m -> strlen m < MODE_SIZE -> ends_word r ->
  scan_mode (m ++ r) = Ret (m, r).
Proof.
  intros Hne Hm Hl Hr. unfold scan_mode, scan_str. rewrite scan_s_word by done.
  destruct (Z.ltb_spec (strlen m) MODE_SIZE); [done|lia].
Qed.

Lemma scan_u32_print n r :
  0 <= n < 2 ^ 32 -> ends_number r -> scan_u32 (sp :: print_u n ++ r) = Some (n, r).
Proof. intros. unfold scan_u32. rewrite scan_d_print by (done || lia). by rewrite u32_small. Qed.

Lemma scan_tail_word size off k w :
  w <> [] -> no_space w -> strlen w < URI_ -> scan_tail size off k (sp :: w) = Ret (mkReq size off k w 0).
Proof.
  intros Hne Hw Hl. unfold scan_tail, scan_str.
  pose proof (scan_s_sp w [] Hne Hw I) as Hs. rewrite app_nil_r in Hs. rewrite Hs.
  destruct (Z.ltb_spec (strlen w) URI_); [done|lia].
Qed.

Lemma scan_tail_word_num size off k w n :
  w <> [] -> no_space w -> strlen w < URI_ -> 0 <= n < 2 ^ 64 ->
  scan_tail size off k (sp :: w ++ sp :: print_u n) = Ret (mkReq size off k w n).
Proof.
  intros Hne Hw Hl Hn. unfold scan_tail, scan_str. rewrite scan_s_sp by done.
  destruct (Z.ltb_spec (strlen w) URI_); [|lia]. simpl. unfold scan_u64.
  pose proof (scan_d_print n [] Hn I) as Hs. rewrite app_nil_r in Hs. rewrite Hs.
  by rewrite u64_small.
Qed.

(** The common part of the default formats. *)
Lemma parse_default m a b r :
  m <> [] -> no_space m -> strlen m < MODE_SIZE -> 0 <= a < 2 ^ 32 -> 0 <= b < 2 ^ 32 ->
  parse_request true (m ++ sp :: print_u a ++ sp :: print_u b ++ sp :: r)
  = let* rq := scan_tail a b (-1) (sp :: r) in Ret (m, rq).
Proof.
  intros. unfold parse_request. rewrite scan_mode_word by done. cbn [obind].
  by rewrite !scan_u32_print by done.
Qed.

(** The common part of the shared-memory formats. *)
Lemma parse_local m a b k r :
  m <> [] -> no_space m -> strlen m < MODE_SIZE -> 0 <= a < 2 ^ 32 -> 0 <= b < 2 ^ 32 ->
  0 <= k < 2 ^ 31 ->
  parse_request false (m ++ sp :: print_u a ++ sp :: print_u b ++ sp :: print_u k ++ sp :: r)
  = let* rq := scan_tail a b k (sp :: r) in Ret (m, rq).
Proof.
  intros. unfold parse_request. rewrite scan_mode_word by done. cbn [obind].
  rewrite !scan_u32_print by done. rewrite scan_d_print by (done || lia).
  by rewrite i32_small by lia.
Qed.

Lemma no_space_app u v : no_space u -> no_space v -> no_space (u ++ v).
Proof. intros. by apply Forall_app. Qed.

Lemma length_digits fuel n : (length (digits fuel n) <= fuel)%nat.
Proof.
  revert n. induction fuel as [|f IH]; intros n; simpl; [lia|].
  rewrite length_app. simpl. case_match; simpl; [lia|]. specialize (IH (n / 10)). lia.
Qed.

(** A 31-bit number prints in at most ten digits. *)
Lemma digits_bound k fuel n : 0 <= n < 10 ^ Z.of_nat (S k) -> (length (digits fuel n) <= S k)%nat.
Proof.
  revert fuel n. induction k as [|k IH]; intros [|f] n Hn; simpl digits; try (simpl; lia).
  - destruct (Z.ltb_spec n 10); [simpl; lia|]. lia.
  - rewrite length_app. simpl. case_match; simpl; [lia|].
    specialize (IH f (n / 10)). rewrite !Nat2Z.inj_succ, !Z.pow_succ_r in * by lia.
    assert (0 <= n / 10 < 10 * 10 ^ Z.of_nat k).
    { split; [apply Z.div_pos; lia|]. apply Z.div_lt_upper_bound; lia. }
    specialize (IH H0). lia.
Qed.

Lemma strlen_print_u n : strlen (print_u n) <= 20.
Proof. unfold print_u, strlen. rewrite length_fmap. pose proof (length_digits 20 n). lia. Qed.

Lemma strlen_print_u31 n : 0 <= n < 2 ^ 31 -> strlen (print_u n) <= 10.
Proof.
  intros Hn. unfold strlen, print_u. rewrite length_fmap.
  assert (length (digits 20 n) <= 10)%nat; [|lia].
  apply digits_bound. change (10 ^ Z.of_nat 10) with 10000000000. lia.
Qed.

Lemma block_key_wire uri id :
  wire_uri uri -> 0 <= id < 2 ^ 31 ->
  block_key uri id <> [] /\ no_space (block_key uri id) /\ strlen (block_key uri id) < URI_.
Proof.
  intros [Hs Hl] Hid. unfold block_key. rewrite print_d_u by lia. split; [by destruct uri|]. split.
  - apply no_space_app; [done|]. constructor; [done|]. apply print_u_nospace. lia.
  - pose proof (strlen_print_u31 id Hid). unfold strlen in *. rewrite length_app. simpl. lia.
Qed.

(** The server's reading of the four block requests. *)
Lemma wire_parse (uri : bytes) (id size offset shm_id n : Z)
  (Hu : wire_uri uri) (Hid : 0 <= id < 2 ^ 31) (Hsz : 0 <= size < 2 ^ 32)
  (Hoff : 0 <= offset < 2 ^ 32) (Hshm : 0 <= shm_id < 2 ^ 31) (Hn : 0 <= n < 2 ^ 63) :
  parse_request true (set_request size offset uri id)
    = Ret (B "SET", mkReq size offset (-1) (block_key uri id) 0) /\
  parse_request true (get_request offset uri id n)
    = Ret (B "GET", mkReq 0 offset (-1) (block_key uri id) n) /\
  parse_request false (local_set_request size offset shm_id uri id)
    = Ret (B "LOCALSETBLOCK", mkReq size offset shm_id (block_key uri id) 0) /\
  parse_request false (local_get_request offset shm_id uri id n)
    = Ret (B "LOCALGETBLOCK", mkReq 0 offset shm_id (block_key uri id) n).
Proof.
  destruct (block_key_wire uri id Hu Hid) as (Hne & Hs & Hl).
  unfold set_request, get_request, local_set_request, local_get_request.
  rewrite !(print_d_u offset), !(print_d_u n), !(print_d_u shm_id) by lia.
  assert (no_space (B "SET") /\ no_space (B "GET") /\ no_space (B "LOCALSETBLOCK") /\
    no_space (B "LOCALGETBLOCK")) as (H1 & H2 & H3 & H4) by (repeat split; repeat constructor).
  repeat split.
  - rewrite parse_default by done. by rewrite scan_tail_word.
  - rewrite parse_default by done. rewrite scan_tail_word_num; try done. lia.
  - rewrite parse_local by done. by rewrite scan_tail_word.
  - rewrite parse_local by done. rewrite scan_tail_word_num; try done. lia.
Qed.

(** What the handler does with a line of each block mode: the mode alone decides
    between reading and writing, message and shared memory, and the format. *)
Lemma get_line e r s :
  malleability_on s = false ->
  ends_word r ->
  srv_worker_helper e (B "GET" ++ r) s
  = (let* (_, rq) := parse_request true (B "GET" ++ r) in read_op e false rq s).
Proof.
  intros Hm Hr. unfold srv_worker_helper.
  rewrite scan_mode_word by (done || by repeat constructor). cbn [obind].
  unfold CheckForMalleability. rewrite Hm. reflexivity.
Qed.

Lemma get_line_queued e r s :
  malleability_on s = true ->
  ends_word r ->
  srv_worker_helper e (B "GET" ++ r) s = Ret (1, [], snd (CheckForMalleability (B "GET" ++ r) s)).
Proof.
  intros Hm Hr. unfold srv_worker_helper.
  rewrite scan_mode_word by (done || by repeat constructor). cbn [obind].
  unfold CheckForMalleability. rewrite Hm. reflexivity.
Qed.

Lemma set_line e r s :
  ends_word r ->
  srv_worker_helper e (B "SET" ++ r) s
  = (let* (_, rq) := parse_request true (B "SET" ++ r) in write_op e false false rq s).
Proof.
  intros Hr. unfold srv_worker_helper.
  rewrite scan_mode_word by (done || by repeat constructor). reflexivity.
Qed.

Lemma local_set_line e r s :
  ends_word r ->
  srv_worker_helper e (B "LOCALSETBLOCK" ++ r) s
  = (let* (_, rq) := parse_request false (B "LOCALSETBLOCK" ++ r) in write_op e true false rq s).
Proof.
  intros Hr. unfold srv_worker_helper.
  rewrite scan_mode_word by (done || by repeat constructor). reflexivity.
Qed.

Lemma local_get_line e r s :
  ends_word r ->
  srv_worker_helper e (B "LOCALGETBLOCK" ++ r) s
  = (let* (_, rq) := parse_request false (B "LOCALGETBLOCK" ++ r) in read_op e true rq s).
Proof.
  intros Hr. unfold srv_worker_helper.
  rewrite scan_mode_word by (done || by repeat constructor). reflexivity.
Qed.

(** C23. The block requests of the client are served as they were meant: for a
    URI without white space that leaves room for the block number, size and
    offset below 2^32 and a block number below 2^31, the server takes the line
    of [set_data] for a write of the size, offset and key that were printed, the
    line of [get_ndata] for a read of the key, offset and length, which waits
    while servers are being added or removed, and the two lines for shared
    memory for the same through the segment that was printed. *)
Theorem wire_roundtrip (e : env) (s : server) (uri : bytes) (id size offset shm_id n : Z)
  (Hu : wire_uri uri) (Hid : 0 <= id < 2 ^ 31) (Hsz : 0 <= size < 2 ^ 32)
  (Hoff : 0 <= offset < 2 ^ 32) (Hshm : 0 <= shm_id < 2 ^ 31) (Hn : 0 <= n < 2 ^ 63) :
  let key := block_key uri id in
  srv_worker_helper e (set_request size offset uri id) s
    = write_op e false false (mkReq size offset (-1) key 0) s /\
  srv_worker_helper e (get_request offset uri id n) s
    = (if malleability_on s then Ret (1, [], snd (CheckForMalleability (get_request offset uri id n) s))
       else read_op e false (mkReq 0 offset (-1) key n) s) /\
  srv_worker_helper e (local_set_request size offset shm_id uri id) s
    = write_op e true false (mkReq size offset shm_id key 0) s /\
  srv_worker_helper e (local_get_request offset shm_id uri id n) s
    = read_op e true (mkReq 0 offset shm_id key n) s.
Proof.
  intros key. destruct (wire_parse uri id size offset shm_id n) as (P1 & P2 & P3 & P4); try done.
  unfold set_request, get_request, local_set_request, local_get_request in *.
  rewrite set_line, P1, local_set_line, P3, local_get_line, P4 by done. split; [done|]. split; [|done].
  destruct (malleability_on s) eqn:Hm; [by rewrite get_line_queued|by rewrite get_line, P2].
Qed.

Lemma wire_roundtrip_witness :
  srv_worker_helper (sample_env (B "hello")) (set_request 5 3 (B "imss://a") 7) sample_server
    = write_op (sample_env (B "hello")) false false (mkReq 5 3 (-1) (B "imss://a$7") 0) sample_server /\
  srv_worker_helper (sample_env []) (get_request 3 (B "imss://a") 7 10) sample_server
    = read_op (sample_env []) false (mkReq 0 3 (-1) (B "imss://a$7") 10) sample_server.
Proof.
  assert (wire_uri (B "imss://a")) as Hu by (split; [repeat constructor|by vm_compute]).
  split.
  - apply (wire_roundtrip (sample_env (B "hello")) sample_server (B "imss://a") 7 5 3 2 10 Hu); lia.
  - apply (wire_roundtrip (sample_env []) sample_server (B "imss://a") 7 5 3 2 10 Hu); lia.
Defined.

(** URIs the request line cannot carry: a name with a space reaches the
    server cut at the space, without its block number, so that all blocks of
    all such files share one key; and a name whose key does not fit the
    server's 256-byte array overruns it, although a URI of up to 255
    characters is a legal dataset name. *)
Theorem wire_hazards (u v : bytes) (id size offset : Z)
  (Hne : u <> []) (Hu : no_space u) (Hsz : 0 <= size < 2 ^ 32) (Hoff : 0 <= offset < 2 ^ 32)
  (Hid : 0 <= id < 2 ^ 31) :
  (strlen u < URI_ ->
   exists n, parse_request true (set_request size offset (u ++ sp :: v) id)
             = Ret (B "SET", mkReq size offset (-1) u n)) /\
  (URI_ <= strlen (block_key u id) ->
   parse_request true (set_request size offset u id) = Undef OutOfBounds).
Proof.
  unfold set_request. rewrite print_d_u by lia.
  assert (no_space (B "SET")) by repeat constructor.
  rewrite !parse_default by done. split; intros Hl.
  - unfold block_key. rewrite <- app_assoc. unfold scan_tail, scan_str. rewrite scan_s_sp by done.
    destruct (Z.ltb_spec (strlen u) URI_); [|lia]. simpl. eauto.
  - assert (no_space (block_key u id)) as Hk.
    { unfold block_key. rewrite print_d_u by lia. apply no_space_app; [done|].
      constructor; [done|]. apply print_u_nospace. lia. }
    assert (block_key u id <> []) by (by destruct u).
    unfold scan_tail, scan_str. pose proof (scan_s_sp (block_key u id) [] H0 Hk I) as Hs.
    rewrite app_nil_r in Hs. rewrite Hs.
    destruct (Z.ltb_spec (strlen (block_key u id)) URI_); [lia|done].
Qed.

Lemma wire_hazards_witness :
  (strlen (B "imss://my") < URI_ ->
   exists n, parse_request true (set_request 4 0 (B "imss://my" ++ sp :: B "file") 1)
             = Ret (B "SET", mkReq 4 0 (-1) (B "imss://my") n)) /\
  (URI_ <= strlen (block_key (B "imss://my") 1) ->
   parse_request true (set_request 4 0 (B "imss://my") 1) = Undef OutOfBounds).
Proof.
  apply (wire_hazards (B "imss://my") (B "file") 1 4 0); try lia.
  - discriminate.
  - repeat constructor.
Defined.

(** ** Unlinking through the request line *)

Lemma parse_unlink uri n :
  wire_uri uri -> 0 <= n < 2 ^ 31 ->
  parse_request true (unlink_request uri n) = Ret (B "GET", mkReq UNLINK_OP 0 (-1) (uri ++ B "$0") n).
Proof.
  intros [Hs Hl] Hn. unfold unlink_request. rewrite (print_d_u n) by lia.
  change (print_d UNLINK_OP) with (print_u 12). change (B "0") with (print_u 0).
  replace (uri ++ B "$0" ++ sp :: print_u n) with ((uri ++ B "$0") ++ sp :: print_u n)
    by (by rewrite <- app_assoc).
  assert (no_space (B "GET")) by repeat constructor.
  rewrite parse_default by done. rewrite scan_tail_word_num; try lia; [done|..].
  - by destruct uri.
  - apply no_space_app; [done|]. repeat constructor.
  - unfold strlen in *. rewrite length_app. simpl. lia.
Qed.

Lemma load_field_in b off n z : load_field b off n = Ret z -> 0 <= off /\ off + n <= strlen b.
Proof.
  unfold load_field, read_at. destruct (_ && _) eqn:E; [|done]. btests. lia.
Qed.

Lemma store_field_ok b off n z : 0 <= off -> off + Z.of_nat n <= strlen b ->
  exists b', store_field b off n z = Ret b'.
Proof.
  intros. unfold store_field. apply write_at_ok; [done|]. unfold strlen in *.
  rewrite length_le_put. lia.
Qed.

(** Serving an unlink line: the link count in block 0 drops by one, and the
    reply tells the client to delete the file exactly when it was one -
    whatever the number of open descriptors in the line, because the server
    reads that number from the offset field, which is always 0; and for a file
    without block 0 the handler dereferences a null pointer. *)
Theorem unlink_request_served (e : env) (uri : bytes) (n_open : Z)
  (s : server) (Hu : wire_uri uri) (Hn : 0 <= n_open < 2 ^ 31) (Hm : malleability_on s = false)
  (Hs : send_ok e = true) :
  (HierarchicalMapGet (uri ++ B "$0") (hr s) = Ret None ->
   srv_worker_helper e (unlink_request uri n_open) s = Undef NullDeref) /\
  (forall v k, HierarchicalMapGet (uri ++ B "$0") (hr s) = Ret (Some v) ->
     load_field (data v) st_nlink_off 8 = Ret k ->
     exists s' v', srv_worker_helper e (unlink_request uri n_open) s
                   = Ret (0, [Msg (if u64 (k - 1) =? 0 then MSG_DELETE_OP else MSG_NODELETE_OP)], s') /\
       HierarchicalMapGet (uri ++ B "$0") (hr s') = Ret (Some v') /\
       load_field (data v') st_nlink_off 8 = Ret (u64 (k - 1)) /\
       forall k', k' <> uri ++ B "$0" -> HierarchicalMapGet k' (hr s') = HierarchicalMapGet k' (hr s)).
Proof.
  assert (srv_worker_helper e (unlink_request uri n_open) s
          = unlink_op e (mkReq UNLINK_OP 0 (-1) (uri ++ B "$0") n_open) s) as ->.
  { unfold unlink_request. rewrite get_line by done. fold (unlink_request uri n_open).
    change (B "GET" ++ sp :: _) with (unlink_request uri n_open). rewrite parse_unlink by done. done. }
  unfold unlink_op. cbn [key block_offset]. set (k0 := uri ++ B "$0"). split.
  - intros ->. simpl. by rewrite Hs.
  - intros v k Hv Hk. rewrite Hv. simpl. rewrite Hk. simpl.
    pose proof (load_field_in _ _ _ _ Hk) as [_ Hin].
    destruct (store_field_ok (data v) st_nlink_off 8 (u64 (k - 1))) as [d Hd]; [done|lia|].
    rewrite Hd. simpl. destruct (store_block_ok _ _ (mkBuf d (bsize v)) _ Hv) as [h Hh].
    rewrite Hh. simpl. destruct (store_block_get _ _ _ _ Hh) as [Hg Hf].
    pose proof (load_store_field _ _ _ _ _ Hd) as Hl. rewrite Z.mod_small in Hl by apply u64_range.
    unfold confirm, say. rewrite Hs, andb_true_r.
    destruct (u64 (k - 1) =? 0) eqn:Ez.
    + destruct (HierarchicalMapPutInGarbageCollector k0 h) as [[i h']| |] eqn:Hgc.
      2,3: unfold HierarchicalMapPutInGarbageCollector in Hgc; unfold store_block in Hh;
        destruct (parent_dir _); try done; simpl in Hgc; by destruct (hiermap h !! _).
      simpl. exists (set_hr h' s), (mkBuf d (bsize v)). split; [done|]. simpl.
      pose proof (fun x => HierarchicalMapPutInGarbage_get _ x _ _ _ Hgc) as Hx.
      rewrite Hx. split; [done|]. split; [done|]. intros k' Hne. by rewrite Hx, Hf.
    + simpl. exists (set_hr h s), (mkBuf d (bsize v)). done.
Qed.

Lemma unlink_request_served_witness :
  (HierarchicalMapGet (B "imss://b" ++ B "$0") (hr header_server) = Ret None /\
   srv_worker_helper (sample_env []) (unlink_request (B "imss://b") 3)
     header_server = Undef NullDeref) /\
  exists s' v', srv_worker_helper (sample_env [])
                  (unlink_request (B "imss://a") 3) header_server = Ret (0, [Msg MSG_DELETE_OP], s') /\
    HierarchicalMapGet (B "imss://a" ++ B "$0") (hr s') = Ret (Some v') /\
    load_field (data v') st_nlink_off 8 = Ret 0.
Proof.
  assert (forall u, u = B "imss://a" \/ u = B "imss://b" -> wire_uri u) as Hw.
  { intros u [-> | ->]; (split; [repeat constructor|by vm_compute]). }
  split.
  - split; [reflexivity|].
    apply (unlink_request_served (sample_env []) (B "imss://b") 3 header_server);
      try reflexivity; try lia. apply Hw. by right.
  - destruct (unlink_request_served (sample_env []) (B "imss://a") 3
      header_server) as [_ H]; try reflexivity; try lia.
    { apply Hw. by left. }
    destruct (H (mkBuf (header_bytes 1 33188 10) 144) 1) as (s' & v' & H1 & H2 & H3 & _);
      try (vm_compute; reflexivity).
    exists s', v'. split; [exact H1|]. split; [exact H2|exact H3].
Defined.
