(* ===== verification/Sessions.v ===== *)
(** * Session tables of the client

    The tables src/src/imss.c keeps for a session: the pool of hash tables
    with the [dataset_info] of every known dataset, one table per directory,
    and the vector of connected instances with its list of free positions.  A
    hash table holds pointers; each dataset structure is reached from one
    table only, so the model stores the structures themselves. *)

From S2P Require Import Prelude Types Paths Store.

Abbreviation table := (gmap bytes dataset_info).

(** [pool_hash_tables_datasetd]. *)
Abbreviation pool := (gmap bytes table).

Definition FindCorrespondingHashTable (dataset_uri : bytes) (p : pool) : outcome (option table) :=
  let* d := parent_dir dataset_uri in Ret (p !! d).

(** [find_dataset_by_uri_hash_pool]: -1 without writing the result when the
    directory has no table, 1 with the structure, 0 with NULL. *)
Definition find_dataset_by_uri_hash_pool (dataset_uri : bytes) (p : pool)
  : outcome (Z * option dataset_info) :=
  let* d := parent_dir dataset_uri in
  Ret (match p !! d with
       | None => (-1, None)
       | Some t => match t !! dataset_uri with
                   | Some i => (1, Some i)
                   | None => (0, None)
                   end
       end).

(** [AddDirectoryToPool] inserts a new empty table, replacing the one that
    was there. *)
Definition AddDirectoryToPool (dataset_uri : bytes) (p : pool) : pool := <[dataset_uri := ∅]> p.

Definition add_dataset_entry_in_pool (dataset_uri : bytes) (info : dataset_info) (p : pool)
  : outcome (Z * pool) :=
  let* d := parent_dir dataset_uri in
  let p := match p !! d with
           | Some _ => p
           | None => AddDirectoryToPool d p
           end in
  let t := default ∅ (p !! d) in
  let p := <[d := <[dataset_uri := info]> t]> p in
  Ret (0, if ascii_eqb (type_ info) TYPE_DIRECTORY then AddDirectoryToPool dataset_uri p else p).

Definition remove_dataset_entry (t : table) (uri : bytes) : Z * table :=
  match t !! uri with
  | Some _ => (1, delete uri t)
  | None => (0, t)
  end.

(** [replace_uri_base_path_regular_file] on the table of directory [dir]. *)
Definition replace_uri_base_path_regular_file (dir old_base_uri new_base_uri : bytes) (p : pool)
  : outcome (bool * pool) :=
  match p !! dir with
  | None => Ret (false, p)
  | Some t =>
      match t !! old_base_uri with
      | None => Ret (false, p)
      | Some info =>
          let p := <[dir := delete old_base_uri t]> p in
          let* (_, p) := add_dataset_entry_in_pool new_base_uri
                           (set_uri (take (Z.to_nat URI_) new_base_uri) info) p in
          Ret (true, p)
      end
  end.

(** ** The vector of instances *)

(** [GInsert]: the first free position is reused, otherwise the element is
    appended and [max] grows.  Gives the position, the vector, the free list
    and [max]. *)
Definition GInsert {A} (item : A) (max : Z) (garray_insert : list A) (garray_free : list Z)
  : outcome (Z * list A * list Z * Z) :=
  match garray_free with
  | pos :: free' =>
      if pos =? -1
      then Ret (max, garray_insert ++ [item], free', max + 1)
      else
        let i := Z.to_nat pos in
        let v := if pos <? Z.of_nat (length garray_insert) then delete i garray_insert else garray_insert in
        if (0 <=? pos) && (pos <=? Z.of_nat (length v))
        then Ret (pos, take i v ++ item :: drop i v, free', max)
        else Undef OutOfBounds
  | [] => Ret (max, garray_insert ++ [item], [], max + 1)
  end.

(** [Get_fd] only looks at the free list. *)
Definition Get_fd {A} (max : Z) (garray_insert : list A) (garray_free : list Z) : Z * Z :=
  match garray_free with
  | pos :: _ =>
      if pos =? -1 then (max, max + 1)
      else if u32 pos <? Z.of_nat (length garray_insert) then (pos, max) else (-1, max)
  | [] => (max, max + 1)
  end.

(** [imss_check]: the first instance whose URI is a non-empty prefix. *)
Fixpoint imss_check_from (i : Z) (dataset_uri : bytes) (imssd : list imss_info) : Z :=
  match imssd with
  | [] => -1
  | im :: rest =>
      if (0 <? strlen (imss_uri im)) && prefixb (imss_uri im) dataset_uri then i
      else imss_check_from (i + 1) dataset_uri rest
  end.
Definition imss_check (dataset_uri : bytes) (imssd : list imss_info) : Z :=
  imss_check_from 0 dataset_uri imssd.

(** [find_imss]: -1, or the position. *)
Fixpoint find_imss_from (i : Z) (uri : bytes) (imssd : list imss_info) : Z :=
  match imssd with
  | [] => -1
  | im :: rest =>
      if strneq (Z.to_nat URI_) uri (imss_uri im) then i else find_imss_from (i + 1) uri rest
  end.
Definition find_imss (uri : bytes) (imssd : list imss_info) : Z := find_imss_from 0 uri imssd.

Definition delete_imss (uri : bytes) (imssd : list imss_info) : Z * list imss_info :=
  let pos := find_imss uri imssd in
  if pos =? -1 then (-1, imssd) else (0, delete (Z.to_nat pos) imssd).

(** ** Properties of the pool *)

Lemma find_pool_eq uri d p :
  parent_dir uri = Ret d ->
  find_dataset_by_uri_hash_pool uri p =
    Ret (match p !! d with
         | None => (-1, None)
         | Some t => match t !! uri with Some i => (1, Some i) | None => (0, None) end
         end).
Proof. intros H. unfold find_dataset_by_uri_hash_pool. by rewrite H. Qed.

Lemma add_entry_eq uri d info p :
  parent_dir uri = Ret d ->
  add_dataset_entry_in_pool uri info p =
    Ret (0, let p' := <[d := <[uri := info]> (default ∅ (p !! d))]> p in
            if ascii_eqb (type_ info) TYPE_DIRECTORY then <[uri := ∅]> p' else p').
Proof.
  intros H. unfold add_dataset_entry_in_pool, AddDirectoryToPool. rewrite H. simpl.
  destruct (p !! d) as [t|] eqn:Hd; simpl.
  - by rewrite Hd.
  - rewrite lookup_insert_eq, insert_insert_eq. done.
Qed.

(** Registering a dataset in the session makes it found with its structure
    and disturbs no other dataset, unless it is a directory: then whatever the
    session knew about the entries of that directory is forgotten. *)
Theorem add_dataset_entry_spec (uri d : bytes) (info : dataset_info) (p : pool)
  (Hd : parent_dir uri = Ret d) (Hne : d <> uri) :
  exists p', add_dataset_entry_in_pool uri info p = Ret (0, p') /\
    find_dataset_by_uri_hash_pool uri p' = Ret (1, Some info) /\
    (forall u d' i, parent_dir u = Ret d' -> u <> uri ->
       (type_ info <> TYPE_DIRECTORY \/ d' <> uri) ->
       find_dataset_by_uri_hash_pool u p = Ret (1, Some i) ->
       find_dataset_by_uri_hash_pool u p' = Ret (1, Some i)) /\
    (forall u, parent_dir u = Ret uri -> u <> uri -> type_ info = TYPE_DIRECTORY ->
       find_dataset_by_uri_hash_pool u p' = Ret (0, None)).
Proof.
  rewrite (add_entry_eq _ _ _ _ Hd). simpl. eexists. split; [done|].
  destruct (ascii_eqb (type_ info) TYPE_DIRECTORY) eqn:Ht.
  - apply ascii_eqb_true in Ht. split; [|split].
    + rewrite (find_pool_eq _ _ _ Hd), lookup_insert_ne, lookup_insert_eq by done.
      by rewrite lookup_insert_eq.
    + intros u d' i Hu Hune [?|Hd']; [done|]. rewrite !(find_pool_eq _ _ _ Hu).
      rewrite lookup_insert_ne by done. destruct (decide (d' = d)) as [->|Hdd].
      * rewrite lookup_insert_eq, lookup_insert_ne by done. by destruct (p !! d).
      * by rewrite lookup_insert_ne.
    + intros u Hu Hune _. rewrite (find_pool_eq _ _ _ Hu), lookup_insert_eq. done.
  - apply ascii_eqb_false in Ht. split; [|split].
    + rewrite (find_pool_eq _ _ _ Hd), lookup_insert_eq. by rewrite lookup_insert_eq.
    + intros u d' i Hu Hune _. rewrite !(find_pool_eq _ _ _ Hu).
      destruct (decide (d' = d)) as [->|Hdd].
      * rewrite lookup_insert_eq, lookup_insert_ne by done. by destruct (p !! d).
      * by rewrite lookup_insert_ne.
    + intros u _ _ Hc. by rewrite Hc in Ht.
Qed.

Definition sample_info (u : bytes) (ty : ascii) : dataset_info :=
  mkDataset u ty (B "RR") u [] 0 0 4 1 0 0 (-1) 0 1 [] 0 0 STATUS_ATACH 1 0 100 (-1) (-1) None.
Definition sample_pool : pool :=
  {[ IMSS_ROOT := {[ B "imss://d" := sample_info (B "imss://d") "D" ]};
     B "imss://d" := {[ B "imss://d/f" := sample_info (B "imss://d/f") "F" ]} ]}.

Lemma add_dataset_entry_spec_witness :
  find_dataset_by_uri_hash_pool (B "imss://d/f") sample_pool
    = Ret (1, Some (sample_info (B "imss://d/f") "F")) /\
  exists p', add_dataset_entry_in_pool (B "imss://d") (sample_info (B "imss://d") "D") sample_pool = Ret (0, p') /\
    find_dataset_by_uri_hash_pool (B "imss://d") p' = Ret (1, Some (sample_info (B "imss://d") "D")) /\
    find_dataset_by_uri_hash_pool (B "imss://d/f") p' = Ret (0, None).
Proof.
  split; [reflexivity|].
  destruct (add_dataset_entry_spec (B "imss://d") IMSS_ROOT (sample_info (B "imss://d") "D") sample_pool)
    as (p' & H1 & H2 & _ & H4); [reflexivity|discriminate|].
  exists p'. split; [exact H1|]. split; [exact H2|]. apply H4; [reflexivity|discriminate|reflexivity].
Defined.

(** Inserting into the vector of instances puts the element at the returned
    position and keeps every other element where it is, whether a freed
    position is reused or the vector grows. *)
Theorem GInsert_spec {A} (item : A) (v : list A) (free : list Z)
  (Hfree : Forall (fun p => 0 <= p < Z.of_nat (length v)) free) :
  exists pos v' free' max', GInsert item (Z.of_nat (length v)) v free = Ret (pos, v', free', max') /\
    0 <= pos /\ v' !! Z.to_nat pos = Some item /\
    (forall i x, v !! i = Some x -> i <> Z.to_nat pos -> v' !! i = Some x) /\
    max' = Z.of_nat (length v') /\ free' = drop 1 free.
Proof.
  destruct free as [|p free]; simpl.
  - do 4 eexists. split; [done|]. split; [lia|]. rewrite Nat2Z.id. split.
    + by rewrite lookup_app_r, Nat.sub_diag by lia.
    + split; [|split; [rewrite length_app; simpl; lia|done]].
      intros i x Hi _. by apply lookup_app_l_Some.
  - apply Forall_cons in Hfree as [Hp _].
    destruct (Z.eqb_spec p (-1)); [lia|]. destruct (Z.ltb_spec p (Z.of_nat (length v))); [|lia].
    assert (Z.to_nat p < length v)%nat as Hlt by lia.
    destruct (lookup_lt_is_Some_2 v (Z.to_nat p) Hlt) as [y Hy].
    rewrite length_delete by eauto.
    assert ((0 <=? p) && (p <=? Z.of_nat (length v - 1)) = true) as -> by (apply andb_true_iff; rewrite !Z.leb_le; lia).
    do 4 eexists. split; [done|]. split; [lia|].
    assert (take (Z.to_nat p) (delete (Z.to_nat p) v) ++ item :: drop (Z.to_nat p) (delete (Z.to_nat p) v)
            = <[Z.to_nat p := item]> v) as ->.
    { rewrite insert_take_drop by done. rewrite delete_take_drop.
      rewrite take_app_le by (rewrite length_take; lia). rewrite take_take, Nat.min_id.
      f_equal. f_equal. rewrite drop_app_ge by (rewrite length_take; lia).
      rewrite length_take, Nat.min_l, Nat.sub_diag by lia. done. }
    split; [by apply list_lookup_insert_eq|]. split.
    + intros i x Hi Hne. by rewrite list_lookup_insert_ne.
    + rewrite length_insert. done.
Qed.

Lemma GInsert_spec_witness :
  exists pos v' free' max', GInsert 9 3 [5; 6; 7] [1] = Ret (pos, v', free', max') /\
    0 <= pos /\ v' !! Z.to_nat pos = Some 9 /\
    (forall i x, [5; 6; 7] !! i = Some x -> i <> Z.to_nat pos -> v' !! i = Some x) /\
    max' = Z.of_nat (length v') /\ free' = [].
Proof.
  apply (GInsert_spec 9 [5; 6; 7] [1]). constructor; [simpl; lia|constructor].
Defined.
