(* ===== verification/Client.v ===== *)
(** * The client library: block location, writes and reads

    [get_data_location], [set_data] and [get_ndata] (src/src/imss.c) against a
    cluster of the data servers of DataServer.v.  A request is handled by its
    server at once; all replies go to one queue, the [inbox], from which the
    client takes the oldest message, as the receive calls do for their tag.
    Allocation of shared-memory identifiers is the parameter [fresh_shm]. *)

From S2P Require Import Prelude Types Crc Policies Paths Store DataServer Intervals Wire Sessions.

Definition ECANCELED : Z := 125.
Definition EAGAIN : Z := 11.
Definition TYPE_DATA_SERVER : ascii := "d"%char.

Record world := mkWorld {
  servers : list server;
  inbox : list bytes;
  datasets : pool;
  imssd : list imss_info
}.

Definition set_servers (x : list server) (w : world) : world :=
  mkWorld x (inbox w) (datasets w) (imssd w).
Definition set_inbox (x : list bytes) (w : world) : world :=
  mkWorld (servers w) x (datasets w) (imssd w).
Definition set_datasets (x : pool) (w : world) : world :=
  mkWorld (servers w) (inbox w) x (imssd w).

(** Strings travel with their terminator. *)
Definition reply_bytes (r : reply) : bytes :=
  match r with Msg m => m ++ ["000"%char] | Data b => b end.

(** The string at the start of a received buffer. *)
Definition cstring (b : bytes) : bytes :=
  match strchr "000"%char b with Some i => take i b | None => b end.

(** A pointer into the pool is updated in place. *)
Definition update_dataset_entry (uri : bytes) (di : dataset_info) (w : world) : outcome world :=
  let* d := parent_dir uri in
  Ret (match datasets w !! d with
       | Some t => set_datasets (<[d := <[uri := di]> t]> (datasets w)) w
       | None => w
       end).

Section client.
Context (stack : bytes) (e : env).
Context (fresh_shm : gmap Z bytes -> Z) (MALLEABILITY_ON : bool) (matching_server_id : Z).

(** A request and the message that follows it are handled by server [n]. *)
Definition deliver (n : Z) (req msg : bytes) (w : world) : outcome world :=
  if (n <? 0) then Undef OutOfBounds
  else match servers w !! Z.to_nat n with
       | None => Undef OutOfBounds
       | Some s =>
           let* (_, out, s') := srv_worker_helper (with_payload msg e) req s in
           Ret (mkWorld (<[Z.to_nat n := s']> (servers w)) (inbox w ++ map reply_bytes out)
                  (datasets w) (imssd w))
       end.

(** [None] when there is no message. *)
Definition receive (w : world) : option bytes * world :=
  match inbox w with
  | [] => (None, w)
  | m :: rest => (Some m, set_inbox rest w)
  end.

(** [get_data_location]: the server, with the dataset and instance that
    become current. *)
Definition get_data_location (dataset_uri : bytes) (data_id op_type : Z) (w : world)
  : outcome (Z * option (dataset_info * imss_info) * world) :=
  let* (ret, found) := find_dataset_by_uri_hash_pool dataset_uri (datasets w) in
  match found with
  | None => Ret (-1, None, w)
  | Some di =>
      if ret =? 0 then Ret (-1, None, w)
      else if imss_d di <? 0 then Undef OutOfBounds
      else match imssd w !! Z.to_nat (imss_d di) with
           | None => Undef OutOfBounds
           | Some im =>
               let '(_, di, p) := set_policy_dataset di in
               let* w := update_dataset_entry dataset_uri di w in
               if p =? -1 then Ret (-1, Some (di, im), w)
               else
                 let* entry_value := GetValueFromInterval di data_id in
                 let num_storages_ := if entry_value =? -1 then num_storages im else entry_value in
                 let* server := find_server stack num_storages_ data_id (original_name di) op_type
                                  TYPE_DATA_SERVER (session_plcy di) in
                 Ret (if server <? 0 then -1 else server, Some (di, im), w)
           end
  end.

(** [(n_server + i * (storages / repl)) % storages] as [uint32_t]. *)
Definition replica (n_server i storages repl : Z) : outcome Z :=
  if (storages =? 0) || (repl =? 0) then Undef DivByZero
  else Ret (u32 (Z.rem (n_server + i * Z.quot storages repl) storages)).

Definition local_policy (p : Z) : bool := (p =? LOCAL_) || (p =? ZCOPY_).

(** The segments of the client's node are those of its own server. *)
Definition node_shm (w : world) : gmap Z bytes :=
  match servers w !! Z.to_nat matching_server_id with Some s => shm s | None => ∅ end.
Definition set_node_shm (x : gmap Z bytes) (w : world) : world :=
  match servers w !! Z.to_nat matching_server_id with
  | Some s => set_servers (<[Z.to_nat matching_server_id := set_shm x s]> (servers w)) w
  | None => w
  end.

(** ** Writing a block *)

Definition set_local (n_server_ size offset data_id : Z) (uri src : bytes) (w : world)
  : outcome (option Z * world) :=
  let shm_id := fresh_shm (node_shm w) in
  if shm_id =? -1 then Ret (Some (- ECANCELED), w)
  else
    let w := set_node_shm (<[shm_id := src]> (node_shm w)) w in
    if negb (send_ok e) then Ret (Some (- ECANCELED), w)
    else
      let* w := deliver n_server_ (local_set_request size offset shm_id uri data_id) [] w in
      let '(m, w) := receive w in
      Ret (match m with
           | None | Some [] => Some (- ECANCELED)
           | Some resp => match malloc e (strlen resp) with None => Some (- ECANCELED) | Some _ => None end
           end, w).

Definition set_remote (async : bool) (n_server_ size offset data_id : Z) (uri src : bytes) (w : world)
  : outcome (option Z * world) :=
  if negb (send_ok e) then Exit (-1)
  else
    let* w := deliver n_server_ (set_request size offset uri data_id) src w in
    if async then Ret (None, w)
    else
      let '(m, w) := receive w in
      Ret (match m with
           | None | Some [] => Some (- ECANCELED)
           | Some resp =>
               match malloc e (strlen resp) with
               | None => Some (- ECANCELED)
               | Some _ =>
                   let r := cstring resp in
                   if strneq (length r) r MSG_SPACE_OP then Some (- EAGAIN) else None
               end
           end, w).

(** The loop over the replicas. The comparison for the local path uses the
    loop counter. *)
Fixpoint set_loop (async : bool) (di : dataset_info) (n_server storages data_id : Z) (buffer : bytes)
    (offset : Z) (k : nat) (i size : Z) (w : world) : outcome (Z * world) :=
  match k with
  | O => Ret (1, w)
  | S k' =>
      let* n_server_ := replica n_server i storages (repl_factor di) in
      let size := if data_id =? 0 then sizeof_stat
                  else if size =? 0 then data_entity_size di else size in
      let* src := read_at buffer 0 size in
      let* (stop, w) :=
        (if local_policy (session_plcy di) && (i =? matching_server_id)
         then set_local n_server_ size offset data_id (uri_ di) src w
         else set_remote async n_server_ size offset data_id (uri_ di) src w) in
      match stop with
      | Some r => Ret (r, w)
      | None => set_loop async di n_server storages data_id buffer offset k' (i + 1) size w
      end
  end.

Definition track_blocks (data_id : Z) (di : dataset_info) : dataset_info :=
  if negb (data_id =? 0) && MALLEABILITY_ON
  then set_block_ids
         (if first_block_id di =? -1 then data_id else first_block_id di)
         (if last_block_id di <? data_id then data_id else last_block_id di) di
  else di.

Definition set_data (dataset_uri : bytes) (data_id_ : Z) (buffer : bytes) (size offset : Z) (async : bool)
    (w : world) : outcome (Z * world) :=
  let data_id := i32 data_id_ in
  let* (n_server, curr, w) := get_data_location dataset_uri data_id SET w in
  match curr with
  | None => Ret (- ECANCELED, w)
  | Some (di, im) =>
      if n_server =? -1 then Ret (- ECANCELED, w)
      else
        let di := track_blocks data_id di in
        let* w := update_dataset_entry dataset_uri di w in
        set_loop async di n_server (num_storages im) data_id buffer offset
          (Z.to_nat (repl_factor di)) 0 size w
  end.

(** ** Reading a block *)

(** One replica: [None] when the server does not have the key. The reply is
    received into the caller's buffer. *)
Definition get_local (server_id offset data_id to_read : Z) (uri buf : bytes) (w : world)
  : outcome (option Z * bytes * world) :=
  let shm_id := fresh_shm (node_shm w) in
  if (shm_id =? -1) || (to_read <? 0) then Ret (Some (-2), buf, w)
  else
    match malloc e to_read with
    | None => Ret (Some (-2), buf, w)
    | Some seg =>
        let w := set_node_shm (<[shm_id := seg]> (node_shm w)) w in
        if negb (send_ok e) then Ret (Some (-2), buf, w)
        else
          let* w := deliver server_id (local_get_request offset shm_id uri data_id to_read) [] w in
          let '(m, w) := receive w in
          match m with
          | None | Some [] => Ret (Some (-2), buf, w)
          | Some resp =>
              let* buf := write_at buf 0 resp in
              let content := default [] (node_shm w !! shm_id) in
              let freed := set_node_shm (delete shm_id (node_shm w)) w in
              if prefixb err_code buf then Ret (None, buf, freed)
              else let* buf := write_at buf 0 content in Ret (Some to_read, buf, freed)
          end
    end.

Definition get_remote (server_id offset data_id to_read : Z) (uri buf : bytes) (w : world)
  : outcome (option Z * bytes * world) :=
  if negb (send_ok e) then Ret (Some (-2), buf, w)
  else
    let* w := deliver server_id (get_request offset uri data_id to_read) [] w in
    let '(m, w) := receive w in
    match m with
    | None | Some [] => Ret (Some (-2), buf, w)
    | Some resp =>
        let* buf := write_at buf 0 resp in
        if prefixb err_code buf then Ret (None, buf, w) else Ret (Some (strlen resp), buf, w)
    end.

Fixpoint get_loop (di : dataset_info) (n_server storages data_id to_read offset : Z) (k : nat) (i : Z)
    (buf : bytes) (w : world) : outcome (Z * bytes * world) :=
  match k with
  | O => Ret (-1, buf, w)
  | S k' =>
      let* server_id := replica n_server i storages (repl_factor di) in
      let* (r, buf, w) :=
        (if local_policy (session_plcy di) && (server_id =? matching_server_id)
         then get_local server_id offset data_id to_read (uri_ di) buf w
         else get_remote server_id offset data_id to_read (uri_ di) buf w) in
      match r with
      | Some n => Ret (n, buf, w)
      | None => get_loop di n_server storages data_id to_read offset k' (i + 1) buf w
      end
  end.

(** [get_ndata] in its synchronous form. *)
Definition get_ndata (dataset_uri : bytes) (data_id_ : Z) (buf : bytes) (to_read offset : Z) (w : world)
  : outcome (Z * bytes * world) :=
  let data_id := i32 data_id_ in
  let* (n_server, curr, w) := get_data_location dataset_uri data_id GET w in
  match curr with
  | None => Ret (-2, buf, w)
  | Some (di, im) =>
      if n_server =? -1 then Ret (-2, buf, w)
      else
        let* entry_value := GetValueFromInterval di data_id in
        let storages := if entry_value =? -1 then num_storages im else entry_value in
        if (repl_factor di <? 0) || (storages <? 0) then Ret (-1, buf, w)
        else
          let to_read := if data_id =? 0 then sizeof_stat else to_read in
          get_loop di n_server storages data_id to_read offset (Z.to_nat (repl_factor di)) 0 buf w
  end.
End client.

(** ** Block keys *)

Lemma digits_head fuel n :
  1 <= n < 10 ^ Z.of_nat fuel -> exists d ds, digits fuel n = d :: ds /\ 1 <= d < 10.
Proof.
  revert n. induction fuel as [|f IH]; intros n Hn; [simpl in Hn; lia|].
  simpl. destruct (Z.ltb_spec n 10).
  - exists n, []. rewrite Z.mod_small by lia. simpl. split; [done|lia].
  - destruct (IH (n / 10)) as (d & ds & Hd & Hr).
    { rewrite Nat2Z.inj_succ, Z.pow_succ_r in Hn by lia.
      split; [apply Z.div_le_lower_bound; lia|apply Z.div_lt_upper_bound; lia]. }
    exists d, (ds ++ [n mod 10]). by rewrite Hd.
Qed.

Lemma find_sub_None_skip p c s : prefixb p (c :: s) = false -> find_sub p s = None -> find_sub p (c :: s) = None.
Proof. intros H1 H2. cbn [find_sub]. by rewrite H1, H2. Qed.

Lemma find_sub_app_no p u v c q :
  p = c :: q -> c ∉ u -> find_sub p v = None -> find_sub p (u ++ v) = None.
Proof.
  intros -> Hc Hv. induction u as [|a u IH]; [done|].
  simpl app. apply find_sub_None_skip; [|apply IH; set_solver].
  simpl. destruct (ascii_eqb c a) eqn:E; [|done]. apply ascii_eqb_true in E as ->. set_solver.
Qed.

(** The key of a data block is not taken for the header's. *)
Lemma block_key_not_zero u id :
  dollar ∉ u -> 1 <= id < 2 ^ 31 -> is_block_zero (block_key u id) = false.
Proof.
  intros Hu Hid. unfold is_block_zero, block_key. rewrite print_d_u by lia.
  rewrite (find_sub_app_no _ _ _ dollar [ "0"%char ]); [done|done|done|].
  unfold print_u. destruct (digits_head 20 id) as (d & ds & Hd & Hr); [lia|].
  pose proof (print_u_no dollar id eq_refl ltac:(lia)) as Hno. unfold print_u in Hno.
  rewrite Hd in *. rewrite fmap_cons in *.
  apply find_sub_None_skip.
  - change (ascii_eqb dollar dollar && (ascii_eqb "0"%char (digit d) && true) = false).
    apply andb_false_iff. right. rewrite andb_true_r. apply ascii_eqb_false. intros E. apply (f_equal byteZ) in E.
    rewrite byteZ_digit in E by lia. unfold byteZ in E. simpl in E. lia.
  - rewrite <- (app_nil_r (digit d :: _)). by apply (find_sub_app_no _ _ _ dollar [ "0"%char ]).
Qed.

Lemma block_key_inj u i j :
  0 <= i < 2 ^ 31 -> 0 <= j < 2 ^ 31 -> block_key u i = block_key u j -> i = j.
Proof.
  intros Hi Hj E. unfold block_key in E. rewrite !print_d_u in E by lia.
  apply app_inv_head in E. injection E as E. apply print_u_inj in E; lia.
Qed.

Lemma block_key_rooted u id : rooted u -> rooted (block_key u id).
Proof. intros [p ->]. unfold block_key. exists (p ++ dollar :: print_d id). by rewrite <- app_assoc. Qed.

(** ** One server *)

(** Payload [p] was written at [off] of block [k]; and server [s'] is [s] with
    [p] written there, perhaps, and nothing else changed in its blocks. *)
Definition srv_written (BS : Z) (k : bytes) (off : Z) (p : bytes) (s s' : server) : Prop :=
  exists b0 d, strlen b0 = BS /\
    (forall v, HierarchicalMapGet k (hr s) = Ret (Some v) -> b0 = data v) /\
    write_at b0 off p = Ret d /\ HierarchicalMapGet k (hr s') = Ret (Some (mkBuf d BS)).
Definition srv_upd (BS : Z) (k : bytes) (off : Z) (p : bytes) (s s' : server) : Prop :=
  (forall k', k' <> k -> HierarchicalMapGet k' (hr s') = HierarchicalMapGet k' (hr s)) /\
  same_control s s' /\
  (wf_store BS (hr s) -> wf_store BS (hr s')) /\
  (HierarchicalMapGet k (hr s') = HierarchicalMapGet k (hr s) \/ srv_written BS k off p s s').

Lemma srv_upd_refl BS k off p s : srv_upd BS k off p s s.
Proof. do 3 (split; [done|]). by left. Qed.

(** Writing the same bytes twice is writing them once. *)
Lemma write_at_idem b off p d d' : write_at b off p = Ret d -> write_at d off p = Ret d' -> d' = d.
Proof.
  intros H1 H2. apply list_eq. intros i.
  rewrite (write_at_lookup _ _ _ _ i H2). case_decide; [|done].
  by rewrite (write_at_lookup _ _ _ _ i H1), decide_True.
Qed.

(** A written block stays written under further updates with the same bytes. *)
Lemma srv_written_upd BS k off p s1 s2 s3 :
  srv_written BS k off p s1 s2 -> srv_upd BS k off p s2 s3 -> srv_written BS k off p s1 s3.
Proof.
  intros (b1 & d1 & Hb1 & Ho1 & Hd1 & Hg1) (_ & _ & _ & [B2|(b & d & Hb & Ho & Hd & Hg)]).
  - exists b1, d1. by rewrite B2.
  - exists b1, d1. do 3 (split; [done|]).
    rewrite Hg. rewrite (Ho _ Hg1) in Hd. simpl in Hd. by rewrite (write_at_idem _ _ _ _ _ Hd1 Hd).
Qed.

Lemma srv_upd_trans BS k off p s1 s2 s3 :
  srv_upd BS k off p s1 s2 -> srv_upd BS k off p s2 s3 -> srv_upd BS k off p s1 s3.
Proof.
  intros U1 U2. pose proof U1 as (F1 & (C1 & C2 & C3) & W1 & B1).
  pose proof U2 as (F2 & (D1 & D2 & D3) & W2 & B2).
  split; [intros k' Hk; by rewrite F2, F1|]. split; [by repeat split; congruence|].
  split; [auto|]. destruct B1 as [B1|B1]; [|right; by eapply srv_written_upd].
  destruct B2 as [B2|(b & d & Hb & Ho & Hd & Hg)]; [left; by rewrite B2, B1|].
  right. exists b, d. by rewrite <- B1.
Qed.

#[global] Instance srv_upd_preorder BS k off p : PreOrder (srv_upd BS k off p).
Proof. split; [intros s; apply srv_upd_refl|]. intros s1 s2 s3. apply srv_upd_trans. Qed.

(** ** The blocks of one file *)

Section file_blocks.
Context (stack : bytes) (e : env).
Context (fresh_shm : gmap Z bytes -> Z) (matching_server_id : Z).
Context (u : bytes) (di : dataset_info) (im : imss_info).

(** An open file on a cluster that is not being resized, striped by hashing or
    round robin, over a working network. *)
Record file_session : Prop := {
  fs_wire : wire_uri u;
  fs_name : file_name u;
  fs_uri : uri_ di = u;
  fs_policy : session_plcy di = i32 (get_policy_number (policy di));
  fs_striped : session_plcy di = ROUND_ROBIN_ \/ session_plcy di = HASHED_;
  fs_imss : 0 <= imss_d di;
  fs_intervals : num_intervals di <= 0;
  fs_repl : 1 <= repl_factor di < 2 ^ 31;
  fs_servers : 0 < num_storages im < 2 ^ 15;
  fs_stack : strlen stack < 64;
  fs_malloc : malloc_ok e;
  fs_memory : forall n, 0 <= n -> is_Some (malloc e n);
  fs_recv : recv_ok e = true;
  fs_send : send_ok e = true;
  fs_block : 0 < BLOCK_SIZE e < 2 ^ 32
}.

Definition server_ok (s : server) : Prop :=
  wf_store (BLOCK_SIZE e) (hr s) /\ malleability_on s = false /\
  forall id v, 1 <= id < 2 ^ 31 -> HierarchicalMapGet (block_key u id) (hr s) = Ret (Some v) ->
    bsize v = BLOCK_SIZE e.

Definition world_ok (w : world) : Prop :=
  inbox w = [] /\
  find_dataset_by_uri_hash_pool u (datasets w) = Ret (1, Some di) /\
  imssd w !! Z.to_nat (imss_d di) = Some im /\
  Z.of_nat (length (servers w)) = num_storages im /\
  Forall server_ok (servers w).

(** Block numbers the file can use. *)
Definition block_no (id : Z) : Prop := 1 <= id /\ num_storages im + id <= 2 ^ 31.
(** ... and block 0, which holds the attributes. *)
Definition numbered (id : Z) : Prop := 0 <= id /\ num_storages im + id <= 2 ^ 31.

(** The first replica of a block. *)
Definition home (id : Z) : Z :=
  match find_server stack (num_storages im) id (original_name di) GET TYPE_DATA_SERVER (session_plcy di) with
  | Ret n => n
  | _ => 0
  end.

Definition block_of (w : world) (id : Z) : option bytes :=
  match servers w !! Z.to_nat (home id) with
  | Some s => match HierarchicalMapGet (block_key u id) (hr s) with
              | Ret (Some v) => Some (data v)
              | _ => None
              end
  | None => None
  end.

Context (FS : file_session).

Lemma block_numbered id : block_no id -> numbered id.
Proof. unfold block_no, numbered. lia. Qed.

Lemma block_not_zero {A} id (x y : A) : block_no id -> (if id =? 0 then x else y) = y.
Proof. intros [? _]. destruct (Z.eqb_spec id 0); [lia|done]. Qed.

Lemma set_policy_same : set_policy_dataset di = (local_conn di, di, session_plcy di).
Proof.
  unfold set_policy_dataset. rewrite <- (fs_policy FS).
  replace (set_session_plcy (session_plcy di) di) with di by (by destruct di).
  destruct (Z.ltb_spec (session_plcy di) 0); [|done].
  destruct (fs_striped FS) as [H1|H1]; rewrite H1 in *; unfold ROUND_ROBIN_, HASHED_ in *; lia.
Qed.

Lemma not_local : local_policy (session_plcy di) = false.
Proof. destruct (fs_striped FS) as [-> | ->]; done. Qed.

Lemma home_spec id op :
  numbered id ->
  find_server stack (num_storages im) id (original_name di) op TYPE_DATA_SERVER (session_plcy di)
    = Ret (home id) /\ 0 <= home id < num_storages im.
Proof.
  intros [Hid Hb]. pose proof (fs_servers FS) as HN.
  destruct (find_server_served stack (num_storages im) id (original_name di) op TYPE_DATA_SERVER
    (session_plcy di)) as (n & Hn & Hr); try lia.
  { pose proof (fs_stack FS). unfold strlen in *. lia. }
  { destruct (fs_striped FS) as [-> | ->]; done. }
  unfold home. change (find_server stack (num_storages im) id (original_name di) GET _ _)
    with (find_server stack (num_storages im) id (original_name di) op TYPE_DATA_SERVER (session_plcy di)).
  by rewrite Hn.
Qed.

Lemma no_interval id : GetValueFromInterval di id = Ret (-1).
Proof.
  unfold GetValueFromInterval. pose proof (fs_intervals FS).
  destruct (Z.leb_spec (num_intervals di) 0); [done|lia].
Qed.

Lemma update_same w :
  find_dataset_by_uri_hash_pool u (datasets w) = Ret (1, Some di) ->
  update_dataset_entry u di w = Ret w.
Proof.
  unfold find_dataset_by_uri_hash_pool, update_dataset_entry.
  destruct (parent_dir u) as [d| |]; try done. simpl.
  destruct (datasets w !! d) as [t|] eqn:Ht; [|done].
  destruct (t !! u) as [x|] eqn:Hx; [|done]. intros [= ->].
  rewrite (insert_id t u di Hx), (insert_id _ d t Ht). by destruct w.
Qed.

Lemma location_ok w id op :
  world_ok w -> numbered id ->
  get_data_location stack u id op w = Ret (home id, Some (di, im), w).
Proof.
  intros (_ & Hp & Him & _ & _) Hid. unfold get_data_location. rewrite Hp. cbn [obind].
  pose proof (fs_imss FS). destruct (Z.ltb_spec (imss_d di) 0); [lia|].
  rewrite Him. rewrite set_policy_same, update_same by done. cbn [obind Z.eqb].
  assert ((session_plcy di =? -1) = false) as -> by (by destruct (fs_striped FS) as [-> | ->]).
  rewrite no_interval. cbn [obind]. destruct (home_spec id op Hid) as [Hh Hr].
  change (-1 =? -1) with true. cbv iota. rewrite Hh. cbn [obind].
  destruct (Z.ltb_spec (home id) 0); [lia|done].
Qed.

(** A synchronous write to server [n] updates its block and consumes its own
    confirmation. *)
Lemma set_remote_ok w n id off p :
  world_ok w -> 0 <= n < num_storages im -> block_no id ->
  p <> [] -> 0 <= off -> off + strlen p <= BLOCK_SIZE e ->
  exists s s', servers w !! Z.to_nat n = Some s /\
    set_remote e false n (strlen p) off id u p w
      = Ret (None, set_servers (<[Z.to_nat n := s']> (servers w)) w) /\
    srv_upd (BLOCK_SIZE e) (block_key u id) off p s s' /\
    srv_written (BLOCK_SIZE e) (block_key u id) off p s s'.
Proof.
  intros (Hin & _ & _ & Hlen & Hall) Hn [Hid Hidb] Hp Ho Hb.
  pose proof (fs_servers FS) as HN. pose proof (fs_block FS) as HB. pose proof (strlen_pos p Hp) as Hpos.
  destruct (lookup_lt_is_Some_2 (servers w) (Z.to_nat n)) as [s Hs]; [lia|].
  pose proof (Forall_lookup_1 _ _ _ _ Hall Hs) as (Hwf & Hm & Hsz).
  set (rq := mkReq (strlen p) off (-1) (block_key u id) 0).
  assert (good_write (with_payload p e) rq s) as Hgw.
  { split; [apply block_key_rooted, (fs_name FS)|].
    split; [apply block_key_not_zero; [apply (fs_name FS)|lia]|].
    split; [apply (fs_recv FS)|]. split; [apply (fs_send FS)|]. split; [done|].
    split; [done|]. split; [done|]. split; [apply (fs_malloc FS)|]. split; [apply (fs_memory FS)|].
    split; [done|]. intros v Hv. apply (Hsz id v); [lia|done]. }
  destruct (write_op_spec _ _ _ Hgw) as (s' & Hrun & Hbw & Hc).
  exists s, s'. split; [done|]. split.
  - unfold set_remote. rewrite (fs_send FS). cbn [negb]. unfold deliver.
    destruct (Z.ltb_spec n 0); [lia|]. rewrite Hs.
    assert (srv_worker_helper (with_payload p e) (set_request (strlen p) off u id) s
            = Ret (0, [Msg MSG_OK_OP], s')) as ->.
    { unfold set_request. rewrite set_line by done.
      fold (set_request (strlen p) off u id).
      destruct (wire_parse u id (strlen p) off 0 0 (fs_wire FS)) as [-> _]; try lia. exact Hrun. }
    destruct (fs_memory FS 3) as [resp Hresp]; [lia|].
    cbn [obind]. unfold receive. simpl inbox. rewrite Hin.
    change (map reply_bytes [Msg MSG_OK_OP]) with [MSG_OK_OP ++ ["000"%char]]. cbn [app].
    change (strlen ["O"; "K"; "000"]%char) with 3. rewrite Hresp. unfold set_servers. by rewrite Hin.
  - destruct Hbw as (b0 & d & Hl & Hold & Hd & Hg & Hf). split; [|by exists b0, d].
    split; [done|]. split; [done|]. split.
    + intros _. apply (wf_write_op (with_payload p e) (fs_malloc FS) false false rq s 0 [Msg MSG_OK_OP] s' Hwf Hrun).
    + right. by exists b0, d.
Qed.

(** ** All replicas *)

Definition wld_upd (id off : Z) (p : bytes) (w w' : world) : Prop :=
  Forall2 (srv_upd (BLOCK_SIZE e) (block_key u id) off p) (servers w) (servers w') /\
  inbox w' = inbox w /\ datasets w' = datasets w /\ imssd w' = imssd w.

Lemma wld_upd_one id off p w n s s' :
  servers w !! n = Some s -> srv_upd (BLOCK_SIZE e) (block_key u id) off p s s' ->
  wld_upd id off p w (set_servers (<[n := s']> (servers w)) w).
Proof.
  intros Hs Hu. split; [|done]. simpl.
  rewrite <- (list_insert_id (servers w) n s Hs) at 1. apply Forall2_insert; [|done].
  reflexivity.
Qed.

Lemma wld_upd_trans id off p w1 w2 w3 :
  wld_upd id off p w1 w2 -> wld_upd id off p w2 w3 -> wld_upd id off p w1 w3.
Proof.
  intros (F1 & I1 & D1 & M1) (F2 & I2 & D2 & M2). split; [|repeat split; congruence].
  by etrans.
Qed.

Lemma server_ok_upd id off p s s' :
  1 <= id < 2 ^ 31 -> srv_upd (BLOCK_SIZE e) (block_key u id) off p s s' -> server_ok s -> server_ok s'.
Proof.
  intros Hid (F & (C & _) & W & Bk) (Hwf & Hm & Hsz). split; [auto|]. split; [by rewrite C|].
  intros j v Hj Hv. destruct (decide (j = id)) as [->|Hne].
  - destruct Bk as [Bk|(b & d & _ & _ & _ & Hg)].
    + rewrite Bk in Hv. by eapply Hsz.
    + rewrite Hg in Hv. by injection Hv as <-.
  - rewrite F in Hv; [by eapply Hsz|]. intros E. apply block_key_inj in E; lia.
Qed.

Lemma world_ok_upd id off p w w' :
  1 <= id < 2 ^ 31 -> wld_upd id off p w w' -> world_ok w -> world_ok w'.
Proof.
  intros Hid (F & I & D & M) (H1 & H2 & H3 & H4 & H5).
  split; [by rewrite I|]. split; [by rewrite D|]. split; [by rewrite M|].
  split; [by rewrite <- (Forall2_length _ _ _ F)|].
  eapply Forall2_Forall_r; [exact F|]. eapply Forall_impl; [exact H5|].
  intros s Hs s' Hu. by eapply server_ok_upd.
Qed.

Lemma replica_range n i :
  0 <= n < num_storages im -> 0 <= i < repl_factor di ->
  exists r, replica n i (num_storages im) (repl_factor di) = Ret r /\ 0 <= r < num_storages im /\ (i = 0 -> r = n).
Proof.
  intros Hn Hi. pose proof (fs_servers FS). pose proof (fs_repl FS). unfold replica.
  destruct (Z.eqb_spec (num_storages im) 0); [lia|]. destruct (Z.eqb_spec (repl_factor di) 0); [lia|].
  simpl. rewrite Z.quot_div_nonneg by lia.
  assert (0 <= num_storages im / repl_factor di) by (apply Z.div_pos; lia).
  rewrite Z.rem_mod_nonneg by nia.
  pose proof (Z.mod_pos_bound (n + i * (num_storages im / repl_factor di)) (num_storages im)).
  eexists. split; [done|]. rewrite u32_small by lia. split; [lia|].
  intros ->. rewrite Z.mul_0_l, Z.add_0_r, Z.mod_small by lia. done.
Qed.

Lemma set_loop_ok id off buffer p k i w :
  world_ok w -> block_no id -> p <> [] -> 0 <= off -> off + strlen p <= BLOCK_SIZE e ->
  read_at buffer 0 (strlen p) = Ret p -> 0 <= i -> i + Z.of_nat k = repl_factor di ->
  exists w', set_loop e fresh_shm matching_server_id false di (home id) (num_storages im) id
               buffer off k i (strlen p) w = Ret (1, w') /\
    wld_upd id off p w w' /\ world_ok w' /\
    (i = 0 -> forall s s', servers w !! Z.to_nat (home id) = Some s ->
       servers w' !! Z.to_nat (home id) = Some s' ->
       srv_written (BLOCK_SIZE e) (block_key u id) off p s s').
Proof.
  intros Hw Hid Hp Ho Hb Hr. pose proof (strlen_pos p Hp) as Hpos.
  destruct (home_spec id GET (block_numbered _ Hid)) as [_ Hh].
  revert i w Hw. induction k as [|k IH]; intros i w Hw Hi Hk; cbn [set_loop].
  - exists w. split; [done|]. split.
    { split; [|done]. reflexivity. }
    split; [done|]. intros ->. pose proof (fs_repl FS). lia.
  - destruct (replica_range (home id) i Hh) as (n & -> & Hn & Hn0); [lia|]. cbn [obind].
    destruct Hid as [Hid1 Hid2].
    assert (id <> 0) as Hid0 by lia. destruct (Z.eqb_spec id 0) as [?|_]; [done|].
    destruct (Z.eqb_spec (strlen p) 0) as [?|_]; [lia|]. rewrite Hr. cbn [obind].
    rewrite not_local. cbn [andb]. rewrite (fs_uri FS).
    destruct (set_remote_ok w n id off p) as (s & s' & Hs & Hrun & Hu & Hwr); try done.
    rewrite Hrun. cbn [obind].
    pose proof (wld_upd_one _ _ _ _ _ _ _ Hs Hu) as Hwu.
    assert (world_ok (set_servers (<[Z.to_nat n := s']> (servers w)) w)) as Hw1.
    { eapply world_ok_upd; [|exact Hwu|done]. pose proof (fs_servers FS). lia. }
    destruct (IH (i + 1) _ Hw1) as (w' & Hl & Hwu' & Hw' & _); [lia|lia|].
    exists w'. split; [exact Hl|]. split; [by eapply wld_upd_trans|]. split; [done|].
    intros Hi0 s0 s0' Hs0 Hs0'. rewrite <- (Hn0 Hi0) in Hs0, Hs0'. rewrite Hs in Hs0. injection Hs0 as <-.
    eapply srv_written_upd; [exact Hwr|].
    destruct Hwu' as [F _]. simpl in F.
    eapply (Forall2_lookup_lr _ _ _ (Z.to_nat n)); [exact F| |exact Hs0'].
    apply list_lookup_insert_eq. by eapply lookup_lt_Some.
Qed.

Lemma track_same id : track_blocks false id di = di.
Proof. unfold track_blocks. by rewrite andb_false_r. Qed.

(** A write of data to block [id] through the client library, on the
    servers. *)
Lemma set_data_run w id off buffer p :
  world_ok w -> block_no id -> p <> [] -> 0 <= off -> off + strlen p <= BLOCK_SIZE e ->
  read_at buffer 0 (strlen p) = Ret p ->
  exists w', set_data stack e fresh_shm false matching_server_id u id buffer (strlen p) off false w
      = Ret (1, w') /\ wld_upd id off p w w' /\ world_ok w' /\
    exists s s', servers w !! Z.to_nat (home id) = Some s /\ servers w' !! Z.to_nat (home id) = Some s' /\
      srv_written (BLOCK_SIZE e) (block_key u id) off p s s'.
Proof.
  intros Hw Hid Hp Ho Hb Hr. pose proof (fs_servers FS) as HN. pose proof Hid as [Hid1 Hid2].
  destruct (home_spec id GET (block_numbered _ Hid)) as [_ Hh].
  assert (exists s, servers w !! Z.to_nat (home id) = Some s) as [s Hs].
  { apply lookup_lt_is_Some_2. destruct Hw as (_ & _ & _ & Hl & _). lia. }
  destruct (set_loop_ok id off buffer p (Z.to_nat (repl_factor di)) 0 w) as (w' & Hrun & Hu & Hw' & Hwr);
    try done.
  { pose proof (fs_repl FS). lia. }
  assert (exists s', servers w' !! Z.to_nat (home id) = Some s') as [s' Hs'].
  { apply lookup_lt_is_Some_2. destruct Hw' as (_ & _ & _ & Hl & _). lia. }
  exists w'. split.
  { unfold set_data. rewrite i32_small by lia. rewrite location_ok by (done || by apply block_numbered). cbn [obind].
    destruct (Z.eqb_spec (home id) (-1)); [lia|]. rewrite track_same.
    rewrite update_same by apply Hw. cbn [obind]. exact Hrun. }
  split; [done|]. split; [done|]. exists s, s'. auto.
Qed.

(** ... and on the blocks of the file. *)
Lemma set_data_ok w id off buffer p :
  world_ok w -> block_no id -> p <> [] -> 0 <= off -> off + strlen p <= BLOCK_SIZE e ->
  read_at buffer 0 (strlen p) = Ret p ->
  exists w' b0 d,
    set_data stack e fresh_shm false matching_server_id u id buffer (strlen p) off false w
      = Ret (1, w') /\ world_ok w' /\
    strlen b0 = BLOCK_SIZE e /\ (forall b, block_of w id = Some b -> b0 = b) /\
    write_at b0 off p = Ret d /\ block_of w' id = Some d /\
    (forall id', block_no id' -> id' <> id -> block_of w' id' = block_of w id').
Proof.
  intros Hw Hid Hp Ho Hb Hr. pose proof (fs_servers FS) as HN. pose proof Hid as [Hid1 Hid2].
  destruct (set_data_run w id off buffer p Hw Hid Hp Ho Hb Hr) as (w' & Hrun & Hu & Hw' & s & s' & Hs & Hs' & Hwr).
  destruct Hwr as (b0 & d & Hl & Hold & Hd & Hg). exists w', b0, d. split; [done|].
  split; [done|]. split; [done|]. split.
  { intros b Hbk. unfold block_of in Hbk. rewrite Hs in Hbk.
    destruct (HierarchicalMapGet _ (hr s)) as [[v|]| |] eqn:Hv; try done.
    injection Hbk as <-. by apply Hold. }
  split; [done|]. split.
  { unfold block_of. by rewrite Hs', Hg. }
  intros id' Hid' Hne. unfold block_of.
  destruct (servers w !! Z.to_nat (home id')) as [t|] eqn:Ht.
  - destruct Hu as [F _]. destruct (Forall2_lookup_l _ _ _ _ _ F Ht) as (t' & Ht' & (Fr & _)).
    rewrite Ht', Fr; [done|]. destruct Hid' as [? ?]. intros E. apply block_key_inj in E; lia.
  - destruct Hu as [F _]. apply lookup_ge_None in Ht. rewrite (Forall2_length _ _ _ F) in Ht.
    by apply lookup_ge_None in Ht as ->.
Qed.

Lemma get_line_read s id off n b d :
  server_ok s -> numbered id -> HierarchicalMapGet (block_key u id) (hr s) = Ret (Some b) ->
  0 <= off < 2 ^ 32 -> 0 < n < 2 ^ 63 -> read_at (data b) off n = Ret d ->
  srv_worker_helper (with_payload [] e) (get_request off u id n) s = Ret (0, [Data d], s).
Proof.
  intros (_ & Hm & _) [Hid Hidb] Hg Ho Hn Hr. pose proof (fs_servers FS).
  unfold get_request. rewrite get_line by done. fold (get_request off u id n).
  destruct (wire_parse u id 0 off 0 n (fs_wire FS)) as (_ & -> & _); try lia. cbn [obind].
  change (read_op (with_payload [] e) false (mkReq 0 off (-1) (block_key u id) n) s)
    with (read_block (with_payload [] e) false (mkReq 0 off (-1) (block_key u id) n) s).
  unfold read_block. cbn [key to_read block_offset]. rewrite Hg. cbn [obind].
  destruct (Z.leb_spec n 0); [lia|]. rewrite Hr. cbn [obind]. simpl. by rewrite (fs_send FS).
Qed.

Lemma write_at_front buf p : strlen p <= strlen buf -> write_at buf 0 p = Ret (p ++ drop (length p) buf).
Proof.
  intros Hl. unfold write_at. change (0 <=? 0) with true. simpl.
  destruct (Z.leb_spec (0 + strlen p) (strlen buf)); [done|lia].
Qed.

(** A read asks the first replica; its reply lands in the caller's buffer. *)
Lemma get_ndata_first w id off n0 n buf s m :
  world_ok w -> numbered id -> (if id =? 0 then sizeof_stat else n0) = n -> servers w !! Z.to_nat (home id) = Some s ->
  (exists r, reply_bytes r = m /\
     srv_worker_helper (with_payload [] e) (get_request off u id n) s = Ret (0, [r], s)) ->
  m <> [] ->
  get_ndata stack e fresh_shm matching_server_id u id buf n0 off w
  = (let* buf' := write_at buf 0 m in
     if prefixb err_code buf'
     then get_loop e fresh_shm matching_server_id di (home id) (num_storages im) id n off
            (Z.to_nat (repl_factor di) - 1) 1 buf' w
     else Ret (strlen m, buf', w)).
Proof.
  intros Hw Hid Hn Hs (r & Hm & Hsrv) Hne. pose proof (fs_servers FS). pose proof Hid as [Hid1 Hid2].
  destruct (home_spec id GET Hid) as [_ Hh]. pose proof (fs_repl FS) as Hrep.
  unfold get_ndata. rewrite i32_small by lia. rewrite location_ok by (done || by apply block_numbered). cbn [obind].
  destruct (Z.eqb_spec (home id) (-1)); [lia|]. rewrite no_interval. cbn [obind].
  change (-1 =? -1) with true. cbv iota.
  destruct (Z.ltb_spec (repl_factor di) 0); [lia|]. destruct (Z.ltb_spec (num_storages im) 0); [lia|].
  cbn [orb]. rewrite Hn.
  destruct (Z.to_nat (repl_factor di)) as [|k] eqn:Hk; [lia|]. cbn [get_loop Nat.sub].
  destruct (replica_range (home id) 0 Hh) as (x & -> & Hx & Hx0); [lia|]. rewrite (Hx0 eq_refl) in *.
  cbn [obind]. rewrite not_local. cbn [andb]. rewrite (fs_uri FS).
  pose proof Hw as (Hin & _). unfold get_remote. rewrite (fs_send FS). cbn [negb]. unfold deliver.
  destruct (Z.ltb_spec (home id) 0); [lia|]. rewrite Hs, Hsrv. cbn [obind map]. rewrite Hm.
  unfold receive. cbn [inbox]. rewrite Hin. cbn [app].
  assert (set_inbox [] (mkWorld (<[Z.to_nat (home id) := s]> (servers w)) [m] (datasets w) (imssd w)) = w) as ->.
  { unfold set_inbox. cbn [servers datasets imssd]. rewrite list_insert_id by done.
    destruct w. simpl in *. by subst. }
  destruct m as [|c m0]; [done|]. destruct (write_at buf 0 (c :: m0)) as [buf'| |]; try done. cbn [obind].
  destruct (prefixb err_code buf'); cbn [obind]; [|done]. by rewrite Nat.sub_0_r.
Qed.

Lemma home_server w id :
  world_ok w -> block_no id -> exists s, servers w !! Z.to_nat (home id) = Some s /\ server_ok s.
Proof.
  intros (_ & _ & _ & Hl & Hall) Hid. destruct (home_spec id GET (block_numbered _ Hid)) as [_ Hh].
  destruct (lookup_lt_is_Some_2 (servers w) (Z.to_nat (home id))) as [s Hs]; [lia|].
  exists s. split; [done|]. by eapply Forall_lookup_1.
Qed.

(** A read of stored bytes of block [id] through the client library. *)
Lemma get_ndata_stored w id off n buf b d :
  world_ok w -> block_no id -> block_of w id = Some b ->
  0 <= off < 2 ^ 32 -> 0 < n < 2 ^ 63 -> n <= strlen buf -> read_at b off n = Ret d ->
  get_ndata stack e fresh_shm matching_server_id u id buf n off w
  = (let buf' := d ++ drop (length d) buf in
     if prefixb err_code buf'
     then get_loop e fresh_shm matching_server_id di (home id) (num_storages im) id n off
            (Z.to_nat (repl_factor di) - 1) 1 buf' w
     else Ret (n, buf', w)).
Proof.
  intros Hw Hid Hbk Ho Hn Hl Hr. destruct (home_server w id Hw Hid) as (s & Hs & Hok).
  unfold block_of in Hbk. rewrite Hs in Hbk.
  destruct (HierarchicalMapGet _ (hr s)) as [[v|]| |] eqn:Hg; try done. injection Hbk as <-.
  pose proof (read_at_length _ _ _ _ Hr) as Hd.
  rewrite (get_ndata_first w id off n n buf s d); try done; [|by apply block_numbered|by apply block_not_zero| |].
  - rewrite write_at_front by lia. cbn [obind]. by rewrite Hd.
  - exists (Data d). split; [done|]. apply (get_line_read s id off n v d); by try apply block_numbered.
  - intros ->. unfold strlen in Hd. simpl in Hd. lia.
Qed.

(** ... when they do not look like the servers' error string. *)
Lemma get_ndata_ok w id off n buf b d :
  world_ok w -> block_no id -> block_of w id = Some b ->
  0 <= off < 2 ^ 32 -> 0 < n < 2 ^ 63 -> n <= strlen buf -> read_at b off n = Ret d ->
  prefixb err_code (d ++ drop (length d) buf) = false ->
  get_ndata stack e fresh_shm matching_server_id u id buf n off w
    = Ret (n, d ++ drop (length d) buf, w).
Proof. intros. erewrite get_ndata_stored by done. cbv zeta. by case_match. Qed.

(** A read of a block the first replica does not have. *)
Lemma get_ndata_absent w id off n buf :
  world_ok w -> block_no id -> block_of w id = None ->
  0 <= off < 2 ^ 32 -> 0 <= n < 2 ^ 63 ->
  get_ndata stack e fresh_shm matching_server_id u id buf n off w
  = (let* buf' := write_at buf 0 (err_code ++ ["000"%char]) in
     get_loop e fresh_shm matching_server_id di (home id) (num_storages im) id n off
       (Z.to_nat (repl_factor di) - 1) 1 buf' w).
Proof.
  intros Hw Hid Hbk Ho Hn. destruct (home_server w id Hw Hid) as (s & Hs & Hok).
  pose proof Hid as [Hid1 Hid2]. pose proof (fs_servers FS).
  unfold block_of in Hbk. rewrite Hs in Hbk.
  destruct (HGet_rooted (block_key u id) (hr s)) as [r Hg]; [apply block_key_rooted, (fs_name FS)|].
  rewrite Hg in Hbk. destruct r; [done|].
  rewrite (get_ndata_first w id off n n buf s (err_code ++ ["000"%char])); try done;
    [|by apply block_numbered|by apply block_not_zero|].
  - destruct (write_at buf 0 _) as [buf'| |] eqn:Hb; try done. cbn [obind].
    assert (prefixb err_code buf' = true) as ->; [|done]. apply prefixb_spec.
    unfold write_at in Hb. case_match; [|done]. injection Hb as <-. simpl take. by eexists.
  - exists (Msg err_code). split; [done|].
    unfold get_request. rewrite get_line by (done || apply Hok). fold (get_request off u id n).
    destruct (wire_parse u id 0 off 0 n (fs_wire FS)) as (_ & -> & _); try lia. cbn [obind].
    change (read_op (with_payload [] e) false (mkReq 0 off (-1) (block_key u id) n) s)
      with (read_block (with_payload [] e) false (mkReq 0 off (-1) (block_key u id) n) s).
    unfold read_block. cbn [key]. rewrite Hg. cbn [obind]. simpl. by rewrite (fs_send FS).
Qed.
End file_blocks.

(** ** Properties *)

(** C7. Writing a block through the client library and reading the range back
    gives the bytes written, whatever the number of replicas, and leaves every
    other block of the file as it was; the replies are all consumed.  What the
    buffer then holds must not start with the marker of an error reply, which
    travels in band ([get_ndata_marker_collision]). *)
Theorem set_data_get_ndata (stack : bytes) (e : env)
  (fresh_shm : gmap Z bytes -> Z) (mid : Z) (u : bytes) (di : dataset_info) (im : imss_info)
  (w : world) (id off : Z) (p buf : bytes)
  (FS : file_session stack e u di im) (Hw : world_ok e u di im w) (Hid : block_no im id)
  (Hp : p <> []) (Hoff : 0 <= off) (Hfit : off + strlen p <= BLOCK_SIZE e)
  (Hbuf : strlen p <= strlen buf) (Hmark : prefixb err_code (p ++ drop (length p) buf) = false) :
  exists w', set_data stack e fresh_shm false mid u id p (strlen p) off false w = Ret (1, w') /\
    world_ok e u di im w' /\
    get_ndata stack e fresh_shm mid u id buf (strlen p) off w'
      = Ret (strlen p, p ++ drop (length p) buf, w') /\
    (forall id', block_no im id' -> id' <> id ->
       block_of stack u di im w' id' = block_of stack u di im w id').
Proof.
  pose proof (fs_block _ _ _ _ _ FS) as HB. pose proof (strlen_pos p Hp).
  destruct (set_data_ok stack e fresh_shm mid u di im FS w id off p p)
    as (w' & b0 & d & Hset & Hw' & Hl & Hold & Hd & Hb & Hf); try done.
  { unfold read_at. change (0 <=? 0) with true. simpl.
    destruct (Z.leb_spec 0 (strlen p)), (Z.leb_spec (0 + strlen p) (strlen p)); try lia.
    unfold strlen. rewrite Nat2Z.id, drop_0, firstn_all. done. }
  exists w'. split; [done|]. split; [done|]. split; [|done].
  apply (get_ndata_ok stack e fresh_shm mid u di im FS w' id off (strlen p) buf d p); try done; try lia.
  by eapply read_write_same.
Qed.

(** Reading a block that is not stored, of a file without replicas: the
    servers' error string is received into the caller's buffer - overrunning
    one of less than 23 bytes - and the call fails. *)
Theorem get_ndata_missing_block (stack : bytes) (e : env)
  (fresh_shm : gmap Z bytes -> Z) (mid : Z) (u : bytes) (di : dataset_info) (im : imss_info)
  (w : world) (id off n : Z) (buf : bytes)
  (FS : file_session stack e u di im) (Hw : world_ok e u di im w) (Hid : block_no im id)
  (Hrep : repl_factor di = 1) (Hmiss : block_of stack u di im w id = None)
  (Hoff : 0 <= off < 2 ^ 32) (Hn : 0 <= n < 2 ^ 63) :
  get_ndata stack e fresh_shm mid u id buf n off w
  = if strlen buf <? 23 then Undef OutOfBounds
    else Ret (-1, err_code ++ "000"%char :: drop 23 buf, w).
Proof.
  rewrite (get_ndata_absent stack e fresh_shm mid u di im FS) by done. rewrite Hrep.
  change (Z.to_nat 1 - 1)%nat with 0%nat. unfold write_at.
  change (strlen (err_code ++ ["000"%char])) with 23. change (0 <=? 0) with true. cbn [andb].
  destruct (Z.ltb_spec (strlen buf) 23), (Z.leb_spec (0 + 23) (strlen buf)); try lia; done.
Qed.

(** In-band errors: when the bytes stored at the offset start with the
    servers' error string, the read of an unreplicated file reports the block
    as missing although it was delivered. *)
Theorem get_ndata_marker_collision (stack : bytes) (e : env)
  (fresh_shm : gmap Z bytes -> Z) (mid : Z) (u : bytes) (di : dataset_info) (im : imss_info)
  (w : world) (id off n : Z) (buf b rest : bytes)
  (FS : file_session stack e u di im) (Hw : world_ok e u di im w) (Hid : block_no im id)
  (Hrep : repl_factor di = 1) (Hb : block_of stack u di im w id = Some b)
  (Hoff : 0 <= off < 2 ^ 32) (Hn : 0 < n < 2 ^ 63) (Hbuf : n <= strlen buf)
  (Hread : read_at b off n = Ret (err_code ++ rest)) :
  get_ndata stack e fresh_shm mid u id buf n off w
  = Ret (-1, (err_code ++ rest) ++ drop (length (err_code ++ rest)) buf, w).
Proof.
  rewrite (get_ndata_stored stack e fresh_shm mid u di im FS w id off n buf b (err_code ++ rest))
    by done.
  cbv zeta. assert (prefixb err_code ((err_code ++ rest) ++ drop (length (err_code ++ rest)) buf) = true) as ->.
  { apply prefixb_spec. eexists. by rewrite <- app_assoc. }
  by rewrite Hrep.
Qed.

(** A cluster of two servers with one file, for the examples. *)
Definition cluster_file : bytes := B "imss://f".
Definition cluster_info (repl : Z) : dataset_info :=
  mkDataset cluster_file "F" (B "RR") cluster_file [] 0 0 4 repl 0 0 (-1) 0 2 [] 0 0 STATUS_ATACH 2 0 100 (-1) (-1) None.
Definition cluster_imss : imss_info := mkImss IMSS_ROOT TYPE_HERCULES_INSTANCE [B "node0"; B "node1"] 2 2 0 7500.
Definition cluster (repl : Z) : world :=
  mkWorld [sample_server; sample_server] [] {[ IMSS_ROOT := {[ cluster_file := cluster_info repl ]} ]}
    [cluster_imss].
Definition big_env (bs : Z) : env := mkEnv bs IMSS_ROOT 0 2 7 zeroed [] true true.

Lemma cluster_session bs repl :
  0 < bs < 2 ^ 32 -> 1 <= repl < 2 ^ 31 ->
  file_session [] (big_env bs) cluster_file (cluster_info repl) cluster_imss.
Proof.
  intros Hbs Hrep. split; try done.
  - split; [repeat constructor|by vm_compute].
  - by apply (file_name_intro (B "f")).
  - by left.
  - exact zeroed_length.
  - exact zeroed_some.
Qed.

Lemma cluster_ok bs repl :
  world_ok (big_env bs) cluster_file (cluster_info repl) cluster_imss (cluster repl).
Proof.
  assert (server_ok (big_env bs) cluster_file sample_server) as Hs.
  { split; [|split; [done|]].
    - split; [|constructor]. apply map_Forall_singleton. apply map_Forall_empty.
    - intros id v Hid Hv. exfalso. revert Hv.
      rewrite (HGet_eq _ IMSS_ROOT); [done|]. unfold block_key.
      rewrite parent_dir_of_block; [done|by apply (file_name_intro (B "f"))|].
      rewrite print_d_u by lia. apply print_u_no; [done|lia]. }
  split; [done|]. split; [reflexivity|]. split; [reflexivity|]. split; [reflexivity|].
  repeat constructor; exact Hs || apply Hs.
Qed.

Lemma set_data_get_ndata_witness :
  exists w', set_data [] (big_env 4) (fun _ => -1) false 0 cluster_file 3 (B "ab") 2 1 false (cluster 2)
               = Ret (1, w') /\
    get_ndata [] (big_env 4) (fun _ => -1) 0 cluster_file 3 (B "....") 2 1 w'
      = Ret (2, B "ab..", w').
Proof.
  destruct (set_data_get_ndata [] (big_env 4) (fun _ => -1) 0 cluster_file (cluster_info 2)
    cluster_imss (cluster 2) 3 1 (B "ab") (B "....")) as (w' & Hs & _ & Hg & _).
  - apply cluster_session; lia.
  - apply cluster_ok.
  - by vm_compute.
  - discriminate.
  - lia.
  - by vm_compute.
  - by vm_compute.
  - reflexivity.
  - exists w'. split; [exact Hs|exact Hg].
Defined.

Lemma get_ndata_missing_block_witness :
  get_ndata [] (big_env 4) (fun _ => -1) 0 cluster_file 3 (B "....") 4 0 (cluster 1)
  = Undef OutOfBounds.
Proof.
  rewrite (get_ndata_missing_block [] (big_env 4) (fun _ => -1) 0 cluster_file (cluster_info 1)
    cluster_imss (cluster 1) 3 0 4 (B "....")); [reflexivity|..].
  - apply cluster_session; lia.
  - apply cluster_ok.
  - by vm_compute.
  - reflexivity.
  - by vm_compute.
  - lia.
  - lia.
Defined.

Lemma get_ndata_marker_collision_witness :
  exists w', set_data [] (big_env 32) (fun _ => -1) false 0 cluster_file 1 (err_code ++ B "x") 23 0 false
               (cluster 1) = Ret (1, w') /\
    get_ndata [] (big_env 32) (fun _ => -1) 0 cluster_file 1 (repeat "."%char 23) 23 0 w'
      = Ret (-1, err_code ++ B "x", w').
Proof.
  destruct (set_data_ok [] (big_env 32) (fun _ => -1) 0 cluster_file (cluster_info 1) cluster_imss
    (cluster_session 32 1 ltac:(lia) ltac:(lia)) (cluster 1) 1 0 (err_code ++ B "x") (err_code ++ B "x"))
    as (w' & b0 & d & Hs & Hw & Hl & _ & Hd & Hb & _).
  - apply cluster_ok.
  - by vm_compute.
  - discriminate.
  - lia.
  - by vm_compute.
  - reflexivity.
  - exists w'. split; [exact Hs|].
    apply (get_ndata_marker_collision [] (big_env 32) (fun _ => -1) 0 cluster_file (cluster_info 1)
      cluster_imss w' 1 0 23 (repeat "."%char 23) d (B "x")).
    + apply cluster_session; lia.
    + exact Hw.
    + split; simpl; lia.
    + reflexivity.
    + exact Hb.
    + lia.
    + lia.
    + vm_compute. discriminate.
    + exact (read_write_same b0 0 (err_code ++ B "x") d Hd).
Defined.

(** ** Replies left behind *)

(** A failed write is reported as stored: when the server has no memory for
    the block it answers with its error string, the client only looks for the
    out-of-space answer, [set_data] returns 1 and no server has the block. *)
Theorem set_data_hides_server_error :
  let e := mkEnv 4 IMSS_ROOT 0 2 7 (fun n => if n =? 4 then None else zeroed n) [] true true in
  exists w', set_data [] e (fun _ => -1) false 0 cluster_file 3 (B "ab") 2 1 false (cluster 1)
               = Ret (1, w') /\
    block_of [] cluster_file (cluster_info 1) cluster_imss w' 3 = None.
Proof. eexists. split; [by vm_compute|by vm_compute]. Qed.

(** The confirmation of an asynchronous write is never received: the next
    read takes it for the data of its block and reports success with the wrong
    bytes, and the data it asked for stays queued. *)
Theorem set_data_async_confuses_next_read :
  exists w' w'', set_data [] (big_env 4) (fun _ => -1) false 0 cluster_file 3 (B "abcd") 4 0 true
               (cluster 1) = Ret (1, w') /\
    get_ndata [] (big_env 4) (fun _ => -1) 0 cluster_file 3 (B "....") 4 0 w'
      = Ret (3, B "OK" ++ ["000"; "."]%char, w'') /\ inbox w'' = [B "abcd"].
Proof. eexists _, _. split; [by vm_compute|]. split; [by vm_compute|reflexivity]. Qed.
