(* ===== verification/BlockService.v ===== *)
(** * The interface between file operations and the block layer

    What src/fuse/imss_posix_api.c relies on when it calls [set_data] and
    [get_ndata] for the open file: numbered blocks of one size, writes inside
    a block that touch no other block, reads that return the stored bytes. *)

From S2P Require Import Prelude.

Class BlockOps (St : Type) := {
  (** [IMSS_DATA_BSIZE]. *)
  BSIZE : Z;
  (** [set_data(path, ds, id, buffer, size, offset)]: result and new state. *)
  svc_set : Z -> bytes -> Z -> Z -> St -> outcome (Z * St);
  (** [get_ndata(path, ds, id, buf, to_read, offset)]: result, caller's buffer
      and new state. *)
  svc_get : Z -> bytes -> Z -> Z -> St -> outcome (Z * bytes * St)
}.

(** The abstract state of the service: which states are sane, which block
    numbers can be used, what a block holds, and which buffers the client
    takes for an error message. *)
Class BlockService (St : Type) `{BlockOps St} := {
  svc_ok : St -> Prop;
  svc_no : Z -> Prop;
  svc_block : St -> Z -> option bytes;
  svc_error : bytes -> bool;
  BSIZE_pos : 0 < BSIZE < 2 ^ 32;
  svc_block_length : forall s id b, svc_ok s -> svc_no id -> svc_block s id = Some b -> strlen b = BSIZE;
  svc_set_ok : forall s id buffer p off,
    svc_ok s -> svc_no id -> p <> [] -> 0 <= off -> off + strlen p <= BSIZE ->
    read_at buffer 0 (strlen p) = Ret p ->
    exists s' b0 d, svc_set id buffer (strlen p) off s = Ret (1, s') /\ svc_ok s' /\
      strlen b0 = BSIZE /\ (forall b, svc_block s id = Some b -> b0 = b) /\
      write_at b0 off p = Ret d /\ svc_block s' id = Some d /\
      (forall id', svc_no id' -> id' <> id -> svc_block s' id' = svc_block s id');
  svc_get_ok : forall s id buf b n off d,
    svc_ok s -> svc_no id -> svc_block s id = Some b -> 0 <= off -> 0 < n -> n <= strlen buf ->
    read_at b off n = Ret d -> svc_error (d ++ drop (length d) buf) = false ->
    svc_get id buf n off s = Ret (n, d ++ drop (length d) buf, s)
}.
