(* ===== verification/FileIO.v ===== *)
(** * File reads and writes

    [fd_lookup], [imss_write] and [imss_sread] (src/fuse/imss_posix_api.c): a
    byte range of a file is split over its blocks, block 0 being the header.
    The block layer is the interface of BlockService.v; the conversion
    [ceil((double)x / IMSS_DATA_BSIZE)] is the parameter [dceil], of which the
    proofs use that below 2^53 it is the exact quotient rounded up: the rounding
    error of the division is less than the distance to the next integer. *)

From S2P Require Import Prelude Types BlockService.

Definition ENOENT : Z := 2.

(** The block service and the local map from paths to descriptor and
    attributes. *)
Record fstate (St : Type) := mkF { svc : St; files : gmap bytes (Z * stat) }.
Arguments mkF {St} svc files.
Arguments svc {St} f.
Arguments files {St} f.

Definition fd_lookup {St} (path : bytes) (f : fstate St) : Z * option stat :=
  match files f !! path with
  | Some (fd, st) => (fd, Some st)
  | None => (-1, None)
  end.

(** [HierarchicalMapUpdate] of the entry [fd_lookup] found: only its attributes
    change. *)
Definition map_update {St} (path : bytes) (fd : Z) (st : stat) (f : fstate St) : fstate St :=
  mkF (svc f) (<[path := (fd, st)]> (files f)).

Definition set_svc {St} (s : St) (f : fstate St) : fstate St := mkF s (files f).

Section file_io.
Context {St : Type} `{BlockOps St} (dceil : Z -> Z -> Z).

(** ** [imss_write] *)

(** The write loop: [inl] is the error of a block, [inr] the bytes stored and
    the next block. *)
Fixpoint write_loop (fuel : nat) (size curr_blk end_blk block_offset bytes_stored : Z)
    (first_block_stored : bool) (buf : bytes) (s : St) : outcome ((Z + Z * Z) * St) :=
  match fuel with
  | O => Ret (inr (bytes_stored, curr_blk), s)
  | S f =>
      if end_blk <? curr_blk then Ret (inr (bytes_stored, curr_blk), s)
      else if first_block_stored && (curr_blk =? end_blk) && (size =? bytes_stored)
      then Ret (inr (bytes_stored, curr_blk), s)
      else
        let bytes_to_copy :=
          if negb first_block_stored
          then let space_in_block := BSIZE - block_offset in
               if size <? space_in_block then size else space_in_block
          else if curr_blk =? end_blk then size - bytes_stored
          else BSIZE in
        let* (ret_set_data, s) :=
          svc_set curr_blk (drop (Z.to_nat bytes_stored) buf) bytes_to_copy block_offset s in
        if ret_set_data <? 0 then Ret (inl ret_set_data, s)
        else write_loop f size (curr_blk + 1) end_blk 0 (bytes_stored + bytes_to_copy) true buf s
  end.

(** In the default configuration: one request per block ([MULTIPLE_WRITE] 0),
    synchronous, without malleability. [error_print] is not kept. *)
Definition imss_write (path buf : bytes) (size off : Z) (f : fstate St) : outcome (Z * fstate St) :=
  if BSIZE =? 0 then Undef DivByZero
  else
    let start_blk := u64 off / BSIZE + 1 in
    let start_offset := u64 off mod BSIZE in
    let end_blk := dceil (u64 (off + size)) BSIZE in
    match fd_lookup path f with
    | (fd, Some st) =>
        if fd =? -1 then Ret (- ENOENT, f)
        else
          let* (r, s) := write_loop (Z.to_nat (end_blk - start_blk + 1)) size start_blk end_blk
                           start_offset 0 false buf (svc f) in
          let f := set_svc s f in
          match r with
          | inl err => Ret (err, f)
          | inr (bytes_stored, curr_blk) =>
              Ret (bytes_stored,
                   if u64 (st_size st) <? u64 (size + off)
                   then map_update path fd (set_size (i64 (size + off)) (curr_blk - 1) st) f
                   else f)
          end
    | (_, None) => Ret (- ENOENT, f)
    end.

(** ** [imss_sread] *)

(** Bytes to read from the first block, and whether the end of file cuts
    them. *)
Definition first_read (size start_offset offset st_size_ : Z) : Z * bool :=
  let to_read :=
    if (size <? st_size_ - start_offset) && (size <? BSIZE) then size
    else if st_size_ <? BSIZE then st_size_ - start_offset
    else BSIZE - start_offset in
  let to_read := if BSIZE <? start_offset + to_read then BSIZE - start_offset else to_read in
  if st_size_ <? offset + to_read then (st_size_ - offset, true) else (to_read, false).

Fixpoint read_loop (fuel : nat) (size offset st_size_ curr_blk end_blk block_offset byte_count : Z)
    (first : bool) (buf : bytes) (s : St) : outcome (Z * bytes * St) :=
  match fuel with
  | O => Ret (byte_count, buf, s)
  | S f =>
      if end_blk <? curr_blk then Ret (byte_count, buf, s)
      else
        let '(to_read, eof_found) :=
          if first then first_read size block_offset offset st_size_
          else if negb (curr_blk =? end_blk) then (BSIZE, false)
          else (size - byte_count, false) in
        if to_read <=? 0 then Ret (to_read, buf, s)
        else
          let* (been_read, out, s) :=
            svc_get curr_blk (drop (Z.to_nat byte_count) buf) to_read block_offset s in
          let buf := take (Z.to_nat byte_count) buf ++ out in
          if been_read <? 0 then Ret (been_read, buf, s)
          else if eof_found then Ret (byte_count + to_read, buf, s)
          else read_loop f size offset st_size_ (curr_blk + 1) end_blk 0 (byte_count + to_read) false buf s
  end.

Definition imss_sread (path buf : bytes) (size offset : Z) (f : fstate St)
  : outcome (Z * bytes * fstate St) :=
  if BSIZE =? 0 then Undef DivByZero
  else
    let curr_blk := u64 offset / BSIZE + 1 in
    let start_offset := u64 offset mod BSIZE in
    match fd_lookup path f with
    | (fd, Some st) =>
        if fd =? -1 then Ret (- ENOENT, buf, f)
        else
          let end_blk := if u64 (st_size st) <? size then dceil (u64 (offset + st_size st)) BSIZE
                         else dceil (u64 (offset + size)) BSIZE in
          if (st_size st <=? offset) || (u64 (st_size st) <=? start_offset) then Ret (0, buf, f)
          else
            let* (n, buf, s) := read_loop (Z.to_nat (end_blk - curr_blk + 1)) size offset (st_size st)
                                  curr_blk end_blk start_offset 0 true buf (svc f) in
            Ret (n, buf, set_svc s f)
    | (_, None) => Ret (- ENOENT, buf, f)
    end.
End file_io.

(** ** Termination *)

Section termination.
Context {St : Type} `{BlockOps St} (dceil : Z -> Z -> Z).

Lemma write_loop_fuel size end_blk buf n m curr bo stored first s :
  (Z.to_nat (end_blk - curr + 1) <= n)%nat -> (Z.to_nat (end_blk - curr + 1) <= m)%nat ->
  write_loop n size curr end_blk bo stored first buf s = write_loop m size curr end_blk bo stored first buf s.
Proof.
  revert m curr bo stored first s. induction n as [|n IH]; intros [|m] curr bo stored first s Hn Hm; simpl.
  1: done.
  1,2: destruct (Z.ltb_spec end_blk curr); [done|lia].
  destruct (Z.ltb_spec end_blk curr); [done|]. destruct (_ && _ && _); [done|].
  destruct (svc_set _ _ _ _ s) as [[ret s1]| |]; simpl; try done.
  destruct (ret <? 0); [done|]. apply IH; lia.
Qed.

Lemma read_loop_fuel size off sz end_blk n m curr bo count first buf s :
  (Z.to_nat (end_blk - curr + 1) <= n)%nat -> (Z.to_nat (end_blk - curr + 1) <= m)%nat ->
  read_loop n size off sz curr end_blk bo count first buf s = read_loop m size off sz curr end_blk bo count first buf s.
Proof.
  revert m curr bo count first buf s. induction n as [|n IH]; intros [|m] curr bo count first buf s Hn Hm; simpl.
  1: done.
  1,2: destruct (Z.ltb_spec end_blk curr); [done|lia].
  destruct (Z.ltb_spec end_blk curr); [done|].
  destruct (if first then _ else _) as [to_read eof]. destruct (to_read <=? 0); [done|].
  destruct (svc_get _ _ _ _ s) as [[[got out] s1]| |]; simpl; try done.
  destruct (got <? 0); [done|]. destruct eof; [done|]. apply IH; lia.
Qed.

(** C36. The loops of [imss_write] and [imss_sread] end: whatever the block layer
    answers, and from whatever block they start, they leave by the conditions
    of the code after at most one iteration per block up to [end_blk]. More
    iterations never change the result, so the number [imss_write] and
    [imss_sread] give them is enough. *)
Theorem block_loops_terminate (fuel : nat) (size off sz curr end_blk bo count : Z) (first : bool)
    (buf : bytes) (s : St) (Hfuel : (Z.to_nat (end_blk - curr + 1) <= fuel)%nat) :
  write_loop fuel size curr end_blk bo count first buf s
  = write_loop (Z.to_nat (end_blk - curr + 1)) size curr end_blk bo count first buf s /\
  read_loop fuel size off sz curr end_blk bo count first buf s
  = read_loop (Z.to_nat (end_blk - curr + 1)) size off sz curr end_blk bo count first buf s.
Proof. split; [apply write_loop_fuel|apply read_loop_fuel]; lia. Qed.
End termination.

(** ** Files as byte sequences *)

Section properties.
Context {St : Type} `{BlockService St} (dceil : Z -> Z -> Z).
Context (dceil_exact : forall x b, 0 <= x < 2 ^ 53 -> 0 < b < 2 ^ 53 -> dceil x b = (x + b - 1) / b).

(** The byte at position [x] of the file. *)
Definition file_byte (s : St) (x : Z) : option ascii :=
  match svc_block s (x / BSIZE + 1) with
  | Some b => b !! Z.to_nat (x mod BSIZE)
  | None => None
  end.

Lemma div_block x c : c * BSIZE <= x < (c + 1) * BSIZE -> x / BSIZE = c /\ x mod BSIZE = x - c * BSIZE.
Proof.
  pose proof BSIZE_pos. intros Hx. assert (x / BSIZE = c) as Hq.
  { symmetry. apply (Z.div_unique x BSIZE c (x - c * BSIZE)); lia. }
  split; [done|]. rewrite Z.mod_eq by lia. rewrite Hq. lia.
Qed.

(** The bytes of the file after a write inside block [curr]. *)
Lemma byte_after_set s s1 curr bo p b0 d y :
  strlen b0 = BSIZE -> 0 <= bo -> bo + strlen p <= BSIZE ->
  (forall b, svc_block s curr = Some b -> b0 = b) ->
  write_at b0 bo p = Ret d -> svc_block s1 curr = Some d ->
  (forall id', svc_no id' -> id' <> curr -> svc_block s1 id' = svc_block s id') ->
  svc_no (y / BSIZE + 1) -> 0 <= y ->
  let pos := (curr - 1) * BSIZE + bo in
  (pos <= y < pos + strlen p -> file_byte s1 y = p !! Z.to_nat (y - pos)) /\
  ((y < pos \/ pos + strlen p <= y) -> is_Some (file_byte s y) -> file_byte s1 y = file_byte s y).
Proof.
  intros Hl Hbo Hfit Hold Hd Hb Hframe Hno Hy pos. pose proof BSIZE_pos as HB.
  unfold file_byte. split.
  - intros Hin. destruct (div_block y (curr - 1)) as [Hq Hm]; [unfold pos in Hin; lia|].
    rewrite Hq, Hm. replace (curr - 1 + 1) with curr by lia. rewrite Hb.
    rewrite (write_at_lookup _ _ _ _ _ Hd), decide_True.
    + f_equal. unfold pos. lia.
    + unfold strlen, pos in *. lia.
  - intros Hout [a Ha]. destruct (decide (y / BSIZE + 1 = curr)) as [He|He].
    + rewrite He, Hb in *. destruct (svc_block s curr) as [b|] eqn:Hs; [|done].
      rewrite (write_at_lookup _ _ _ _ _ Hd), decide_False.
      * by rewrite (Hold b eq_refl).
      * assert (BSIZE <> 0) as Hnz by lia.
        pose proof (Z.mod_pos_bound y BSIZE (proj1 HB)). pose proof (Z.div_mod y BSIZE Hnz) as Hdm.
        unfold pos, strlen in *. assert (y / BSIZE = curr - 1) as Hq by lia. rewrite Hq in Hdm. lia.
    + by rewrite Hframe.
Qed.

(** The bytes copied by one iteration of the write loop. *)
Definition chunk (r bo : Z) : Z := Z.min r (BSIZE - bo).

Lemma end_block_bounds pos r :
  0 <= pos -> 0 < r ->
  let e := (pos + r + BSIZE - 1) / BSIZE in (e - 1) * BSIZE < pos + r <= e * BSIZE.
Proof.
  intros Hp Hr e. pose proof BSIZE_pos as HB. assert (BSIZE <> 0) as Hnz by lia.
  pose proof (Z.div_mod (pos + r + BSIZE - 1) BSIZE Hnz).
  pose proof (Z.mod_pos_bound (pos + r + BSIZE - 1) BSIZE (proj1 HB)). unfold e in *. lia.
Qed.

Lemma read_prefix buf n : 0 <= n <= strlen buf -> read_at buf 0 n = Ret (take (Z.to_nat n) buf).
Proof.
  intros Hn. unfold read_at. change (0 <=? 0) with true. simpl.
  destruct (Z.leb_spec 0 n), (Z.leb_spec (0 + n) (strlen buf)); (done || lia).
Qed.

Lemma strlen_take buf n : 0 <= n <= strlen buf -> strlen (take (Z.to_nat n) buf) = n.
Proof. intros Hn. unfold strlen in *. rewrite length_take. lia. Qed.

Lemma strlen_drop buf n : 0 <= n <= strlen buf -> strlen (drop (Z.to_nat n) buf) = strlen buf - n.
Proof. intros Hn. unfold strlen in *. rewrite length_drop. lia. Qed.

(** One iteration of the write loop stores the next chunk. *)
Lemma write_step s buf size stored curr bo :
  svc_ok s -> svc_no curr -> 0 <= bo < BSIZE -> 0 <= stored < size -> size <= strlen buf ->
  let n := chunk (size - stored) bo in
  let p := take (Z.to_nat n) (drop (Z.to_nat stored) buf) in
  0 < n /\ strlen p = n /\
  exists s1 b0 d, svc_set curr (drop (Z.to_nat stored) buf) n bo s = Ret (1, s1) /\ svc_ok s1 /\
    strlen b0 = BSIZE /\ (forall b, svc_block s curr = Some b -> b0 = b) /\
    write_at b0 bo p = Ret d /\ svc_block s1 curr = Some d /\
    (forall id', svc_no id' -> id' <> curr -> svc_block s1 id' = svc_block s id').
Proof.
  intros Hok Hno Hbo Hst Hsz n p. pose proof BSIZE_pos.
  assert (0 < n <= size - stored /\ n <= BSIZE - bo) as Hn by (unfold n, chunk; lia).
  assert (strlen p = n) as Hp.
  { unfold p. apply strlen_take. rewrite strlen_drop by lia. lia. }
  split; [lia|]. split; [done|].
  destruct (svc_set_ok s curr (drop (Z.to_nat stored) buf) p bo) as (s1 & b0 & d & Hs & Hrest);
    try done; try lia.
  - intros ->. unfold strlen in Hp. simpl in Hp. lia.
  - rewrite Hp. apply read_prefix. rewrite strlen_drop by lia. lia.
  - rewrite Hp in Hs. by exists s1, b0, d.
Qed.

(** Its effect on the bytes of the file. *)
Lemma write_chunk s buf size stored curr bo :
  svc_ok s -> svc_no curr -> 1 <= curr -> 0 <= bo < BSIZE -> 0 <= stored < size -> size <= strlen buf ->
  let n := chunk (size - stored) bo in
  let pos := (curr - 1) * BSIZE + bo in
  exists s1, svc_set curr (drop (Z.to_nat stored) buf) n bo s = Ret (1, s1) /\ svc_ok s1 /\
    (forall i, 0 <= i < n -> file_byte s1 (pos + i) = buf !! Z.to_nat (stored + i)) /\
    (forall y, 0 <= y -> svc_no (y / BSIZE + 1) -> (y < pos \/ pos + n <= y) ->
       is_Some (file_byte s y) -> file_byte s1 y = file_byte s y).
Proof.
  intros Hok Hno Hc Hbo Hst Hsz n pos. pose proof BSIZE_pos as HB.
  destruct (write_step s buf size stored curr bo) as (Hn & Hp & s1 & b0 & d & Hset & Hok1 & Hl & Hold & Hd & Hb & Hfr);
    try done.
  fold n in Hn, Hp, Hset, Hd. set (p := take (Z.to_nat n) (drop (Z.to_nat stored) buf)) in *.
  assert (forall y, 0 <= y -> svc_no (y / BSIZE + 1) ->
    (pos <= y < pos + n -> file_byte s1 y = p !! Z.to_nat (y - pos)) /\
    ((y < pos \/ pos + n <= y) -> is_Some (file_byte s y) -> file_byte s1 y = file_byte s y)) as Hbytes.
  { intros y Hy Hny. rewrite <- Hp. eapply byte_after_set; try done; [lia|]. rewrite Hp. unfold n, chunk. lia. }
  exists s1. split; [done|]. split; [done|]. split.
  - intros i Hi. assert (i < BSIZE - bo) by (unfold n, chunk in Hi; lia).
    destruct (Hbytes (pos + i)) as [Hin _].
    + unfold pos. nia.
    + destruct (div_block (pos + i) (curr - 1)) as [-> _]; [unfold pos; lia|]. by rewrite Z.sub_add.
    + rewrite Hin by lia. unfold p. replace (pos + i - pos) with i by lia.
      rewrite lookup_take_lt, lookup_drop by lia. f_equal. lia.
  - intros y Hy Hny Hout Hs. by apply Hbytes.
Qed.

(** The number of bytes the loop computes for its block. *)
Lemma write_count first size stored curr bo end_blk :
  (first = true -> bo = 0) -> (first = false -> stored = 0) ->
  (first = true -> curr = end_blk -> size - stored <= BSIZE) ->
  (first = true -> curr <> end_blk -> BSIZE <= size - stored) ->
  (if negb first then if size <? BSIZE - bo then size else BSIZE - bo
   else if curr =? end_blk then size - stored else BSIZE) = chunk (size - stored) bo.
Proof.
  intros Hf1 Hf2 Hl Hm. unfold chunk. destruct first; simpl.
  - rewrite (Hf1 eq_refl) in *. destruct (Z.eqb_spec curr end_blk) as [E|E]; [specialize (Hl eq_refl E)|specialize (Hm eq_refl E)]; lia.
  - rewrite (Hf2 eq_refl) in *. destruct (Z.ltb_spec size (BSIZE - bo)); lia.
Qed.

Lemma write_loop_ok buf size fuel curr stored bo first s :
  let pos := (curr - 1) * BSIZE + bo in
  let r := size - stored in
  let end_blk := (pos + r + BSIZE - 1) / BSIZE in
  svc_ok s -> 1 <= curr -> 0 <= bo < BSIZE -> 0 <= stored < size -> size <= strlen buf ->
  (first = true -> bo = 0) -> (first = false -> stored = 0) ->
  (forall id, curr <= id <= end_blk -> svc_no id) -> Z.of_nat fuel = end_blk - curr + 1 ->
  exists s', write_loop fuel size curr end_blk bo stored first buf s = Ret (inr (size, end_blk + 1), s') /\
    svc_ok s' /\
    (forall i, 0 <= i < r -> file_byte s' (pos + i) = buf !! Z.to_nat (stored + i)) /\
    (forall y, 0 <= y -> svc_no (y / BSIZE + 1) -> (y < pos \/ pos + r <= y) ->
       is_Some (file_byte s y) -> file_byte s' y = file_byte s y).
Proof.
  revert curr stored bo first s. induction fuel as [|fuel IH];
    intros curr stored bo first s pos r end_blk Hok Hc Hbo Hst Hsz Hf1 Hf2 Hno Hfuel;
    pose proof BSIZE_pos as HB;
    assert (0 <= pos) as Hpos by (unfold pos; nia);
    pose proof (end_block_bounds pos r Hpos ltac:(unfold r; lia)) as He; fold end_blk in He.
  { exfalso. assert (curr <= end_blk) by (unfold pos, r in *; nia). lia. }
  assert (curr <= end_blk) as Hce by (unfold pos, r in *; nia).
  destruct (write_chunk s buf size stored curr bo) as (s1 & Hset & Hok1 & Hin & Hfr); try done; [apply Hno; lia|].
  fold pos in Hin, Hfr. cbn [write_loop]. destruct (Z.ltb_spec end_blk curr); [lia|].
  assert (first && (curr =? end_blk) && (size =? stored) = false) as ->.
  { destruct (Z.eqb_spec size stored); [lia|]. apply andb_false_r. }
  rewrite write_count, Hset; try done;
    [|intros E ?; pose proof (Hf1 E); cbv zeta in He; fold r; unfold pos in He; nia
     |intros E ?; pose proof (Hf1 E); cbv zeta in He; fold r; unfold pos in He; nia].
  cbn [obind]. change (1 <? 0) with false. cbv iota. fold r in Hset, Hin, Hfr |- *.
  set (n := chunk r bo) in *. assert (0 < n <= r) as Hn by (unfold n, chunk, r; lia).
  destruct (Z.le_gt_cases r (BSIZE - bo)) as [Hlast|Hmore].
  - assert (n = r) as Hnr by (unfold n, chunk; lia).
    assert (end_blk = curr) as Hec by (unfold pos in *; nia).
    destruct fuel as [|fuel']; [|lia]. cbn [write_loop].
    exists s1. rewrite Hec, Hnr in *. split; [unfold r; do 4 f_equal; lia|]. done.
  - assert (n = BSIZE - bo) as Hnb by (unfold n, chunk; lia).
    specialize (IH (curr + 1) (stored + n) 0 true s1). cbv zeta in IH.
    replace ((curr + 1 - 1) * BSIZE + 0) with (pos + n) in IH by (unfold pos; lia).
    replace (size - (stored + n)) with (r - n) in IH by (unfold r; lia).
    replace (pos + n + (r - n)) with (pos + r) in IH by lia. fold end_blk in IH.
    destruct IH as (s' & Hrun & Hok' & HA & HB'); try done; try lia; try (unfold r in *; lia).
    { intros id Hid. apply Hno. lia. }
    exists s'. split; [exact Hrun|]. split; [done|]. split.
    + intros i Hi. destruct (Z.lt_ge_cases i n) as [Hlt|Hge].
      * rewrite HB'; [apply Hin; lia|lia| |lia|].
        { destruct (div_block (pos + i) (curr - 1)) as [-> _]; [unfold pos; lia|]. apply Hno. lia. }
        rewrite Hin by lia. apply lookup_lt_is_Some. unfold strlen, r in *. lia.
      * replace (pos + i) with (pos + n + (i - n)) by lia. rewrite HA by lia. f_equal. lia.
    + intros y Hy Hny Hout Hs. assert (file_byte s1 y = file_byte s y) as Hy1 by (apply Hfr; [done|done|lia|done]).
      rewrite HB'; [done|done|done|lia|]. by rewrite Hy1.
Qed.

Lemma u64_of x : 0 <= x < 2 ^ 53 -> u64 x = x.
Proof. intros. apply u64_small. lia. Qed.

Lemma i64_of x : 0 <= x < 2 ^ 53 -> i64 x = x.
Proof. intros. apply i64_small. lia. Qed.

(** Blocks a range of the file uses. *)
Definition blocks_usable (last : Z) : Prop := forall id, 1 <= id <= last / BSIZE + 1 -> svc_no id.

Lemma usable_pos last y : blocks_usable last -> 0 <= y <= last -> svc_no (y / BSIZE + 1).
Proof.
  intros Hu Hy. pose proof BSIZE_pos. apply Hu. split.
  - pose proof (Z.div_pos y BSIZE). lia.
  - pose proof (Z.div_le_mono y last BSIZE). lia.
Qed.

(** A write of [size] bytes at [off]: all are stored, the file has them at
    their positions, other stored bytes stay, the size grows when needed, and of the
    attributes nothing else changes but the number of blocks. *)
Lemma imss_write_run path buf size off fd st f :
  svc_ok (svc f) -> files f !! path = Some (fd, st) -> fd <> -1 ->
  0 <= off -> 0 < size <= strlen buf -> off + size < 2 ^ 53 -> 0 <= st_size st < 2 ^ 53 ->
  blocks_usable (off + size - 1) ->
  exists f' st', imss_write dceil path buf size off f = Ret (size, f') /\ svc_ok (svc f') /\
    files f' !! path = Some (fd, st') /\ st_size st' = Z.max (st_size st) (off + size) /\
    (forall i, 0 <= i < size -> file_byte (svc f') (off + i) = buf !! Z.to_nat i) /\
    (forall y, 0 <= y -> svc_no (y / BSIZE + 1) -> (y < off \/ off + size <= y) ->
       is_Some (file_byte (svc f) y) -> file_byte (svc f') y = file_byte (svc f) y) /\
    (st' = st \/ st' = set_size (off + size) ((off + size + BSIZE - 1) / BSIZE) st).
Proof.
  intros Hok Hfile Hfd Hoff Hsz Hmax Hst Hno. pose proof BSIZE_pos as HB.
  assert (BSIZE <> 0) as Hnz by lia.
  pose proof (Z.div_mod off BSIZE Hnz) as Hdm. pose proof (Z.mod_pos_bound off BSIZE (proj1 HB)) as Hm.
  pose proof (Z.div_pos off BSIZE Hoff (proj1 HB)) as Hq.
  assert ((off / BSIZE + 1 - 1) * BSIZE + off mod BSIZE = off) as Hpos by lia.
  pose proof (end_block_bounds off size Hoff (proj1 Hsz)) as He. cbv zeta in He.
  set (end_blk := (off + size + BSIZE - 1) / BSIZE) in *.
  assert (off / BSIZE + 1 <= end_blk) as Hle by nia.
  assert (end_blk <= (off + size - 1) / BSIZE + 1) as Hlast.
  { pose proof (Z.div_le_lower_bound (off + size - 1) BSIZE (end_blk - 1)). lia. }
  destruct (write_loop_ok buf size (Z.to_nat (end_blk - (off / BSIZE + 1) + 1)) (off / BSIZE + 1) 0
    (off mod BSIZE) false (svc f)) as (s' & Hrun & Hok' & HA & HF); try done; try lia.
  { rewrite Hpos, Z.sub_0_r. intros id Hid. apply Hno. fold end_blk in Hid. lia. }
  { rewrite Hpos, Z.sub_0_r. fold end_blk. lia. }
  rewrite Hpos, Z.sub_0_r in Hrun, HA, HF. fold end_blk in Hrun.
  unfold imss_write. destruct (Z.eqb_spec BSIZE 0); [done|]. unfold fd_lookup. rewrite Hfile.
  destruct (Z.eqb_spec fd (-1)); [done|]. rewrite !u64_of by lia. rewrite (Z.add_comm size off).
  rewrite dceil_exact by lia. fold end_blk. rewrite Hrun. cbn [obind].
  destruct (Z.ltb_spec (st_size st) (off + size)) as [Hg|Hg]; do 2 eexists; (split; [done|]).
  - unfold map_update. cbn [set_svc files svc].
    split; [done|]. rewrite lookup_insert_eq. split; [done|]. cbn [st_size set_size].
    rewrite i64_of by lia. split; [lia|]. split; [done|]. split; [exact HF|]. right.
    by rewrite Z.add_simpl_r.
  - cbn [set_svc files svc]. split; [done|]. split; [exact Hfile|]. split; [lia|]. split; [done|]. split; [exact HF|]. by left.
Qed.

Lemma imss_write_ok path buf size off fd st f :
  svc_ok (svc f) -> files f !! path = Some (fd, st) -> fd <> -1 ->
  0 <= off -> 0 < size <= strlen buf -> off + size < 2 ^ 53 -> 0 <= st_size st < 2 ^ 53 ->
  blocks_usable (off + size - 1) ->
  exists f' st', imss_write dceil path buf size off f = Ret (size, f') /\ svc_ok (svc f') /\
    files f' !! path = Some (fd, st') /\ st_size st' = Z.max (st_size st) (off + size) /\
    (forall i, 0 <= i < size -> file_byte (svc f') (off + i) = buf !! Z.to_nat i) /\
    (forall y, 0 <= y -> svc_no (y / BSIZE + 1) -> (y < off \/ off + size <= y) ->
       is_Some (file_byte (svc f) y) -> file_byte (svc f') y = file_byte (svc f) y).
Proof.
  intros. destruct (imss_write_run path buf size off fd st f) as (f' & st' & ? & ? & ? & ? & ? & ? & _); try done.
  by exists f', st'.
Qed.

(** ** Reading *)

(** [d] holds the [n] bytes of the file from position [x]. *)
Definition holds (s : St) (x n : Z) (d : bytes) : Prop :=
  strlen d = n /\ forall i, 0 <= i < n -> file_byte s (x + i) = d !! Z.to_nat i.

(** No chunk of the read, followed by what the caller's buffer holds behind
    it, looks like an error message of the block service. *)
Definition reads_clean (s : St) (buf : bytes) (off size : Z) : Prop :=
  forall x d, off <= x < off + size -> (x = off \/ x mod BSIZE = 0) ->
    holds s x (chunk (off + size - x) (x mod BSIZE)) d ->
    svc_error (d ++ drop (Z.to_nat (x - off) + length d) buf) = false.

Lemma first_read_in_range size offset st_size_ :
  0 <= offset -> 0 < size -> offset + size <= st_size_ ->
  first_read size (offset mod BSIZE) offset st_size_ = (chunk size (offset mod BSIZE), false).
Proof.
  intros Ho Hs Hst. pose proof BSIZE_pos as HB. assert (BSIZE <> 0) as Hnz by lia.
  pose proof (Z.mod_pos_bound offset BSIZE (proj1 HB)). pose proof (Z.mod_le offset BSIZE Ho (proj1 HB)).
  assert (st_size_ < BSIZE -> offset mod BSIZE = offset) by (intros; apply Z.mod_small; lia).
  unfold first_read, chunk.
  destruct (Z.ltb_spec size (st_size_ - offset mod BSIZE)), (Z.ltb_spec size BSIZE),
    (Z.ltb_spec st_size_ BSIZE); simpl;
    match goal with |- context [BSIZE <? ?b] => destruct (Z.ltb_spec BSIZE b) end;
    match goal with |- context [st_size_ <? ?b] => destruct (Z.ltb_spec st_size_ b) end;
    solve [f_equal; lia | exfalso; lia].
Qed.

(** The bytes of one block of a range that is stored. *)
Lemma block_chunk s curr bo n :
  svc_ok s -> svc_no curr -> 1 <= curr -> 0 <= bo -> 0 < n -> bo + n <= BSIZE ->
  is_Some (file_byte s ((curr - 1) * BSIZE + bo)) ->
  exists b d, svc_block s curr = Some b /\ read_at b bo n = Ret d /\
    holds s ((curr - 1) * BSIZE + bo) n d.
Proof.
  intros Hok Hno Hc Hbo Hn Hfit [c Hc0].
  assert (forall i, 0 <= i < n -> ((curr - 1) * BSIZE + bo + i) / BSIZE + 1 = curr /\
            ((curr - 1) * BSIZE + bo + i) mod BSIZE = bo + i) as Hpos.
  { intros i Hi. destruct (div_block ((curr - 1) * BSIZE + bo + i) (curr - 1)) as [-> ->]; lia. }
  unfold file_byte in Hc0. destruct (Hpos 0) as [Hp0 _]; [lia|]. rewrite Z.add_0_r in Hp0.
  rewrite Hp0 in Hc0. destruct (svc_block s curr) as [b|] eqn:Hb; [|done].
  pose proof (svc_block_length s curr b Hok Hno Hb) as Hlen.
  exists b. assert (exists d, read_at b bo n = Ret d) as [d Hd].
  { unfold read_at. assert ((0 <=? bo) && (0 <=? n) && (bo + n <=? strlen b) = true) as ->; [|eauto].
    rewrite !andb_true_iff, !Z.leb_le. lia. }
  exists d. split; [done|]. split; [done|]. split; [by eapply read_at_length|].
  intros i Hi. unfold file_byte. destruct (Hpos i Hi) as [-> ->]. rewrite Hb.
  rewrite (read_at_lookup _ _ _ _ (Z.to_nat i) Hd) by lia. f_equal. lia.
Qed.

Lemma splice_drop (buf d : bytes) (k : nat) :
  (k + length d <= length buf)%nat ->
  let buf' := take k buf ++ d ++ drop (length d) (drop k buf) in
  length buf' = length buf /\ drop (k + length d) buf' = drop (k + length d) buf /\
  (forall i, (i < k)%nat -> buf' !! i = buf !! i) /\
  (forall i, (i < length d)%nat -> buf' !! (k + i)%nat = d !! i).
Proof.
  intros Hl buf'. assert (length (take k buf) = k) as Ht by (rewrite length_take; lia).
  unfold buf'. rewrite drop_drop. split; [|split; [|split]].
  - rewrite !length_app, Ht, length_drop. lia.
  - rewrite app_assoc. rewrite drop_app_length'; [done|]. rewrite length_app. lia.
  - intros i Hi. rewrite lookup_app_l by lia. by rewrite lookup_take_lt.
  - intros i Hi. rewrite lookup_app_r by lia. rewrite lookup_app_l by lia. f_equal. lia.
Qed.

(** One call of [svc_get] in the loop, on the caller's buffer. *)
Lemma read_step s buf0 buf off size count curr bo :
  svc_ok s -> (forall x, off <= x < off + size -> is_Some (file_byte s x)) ->
  reads_clean s buf0 off size -> 0 <= off -> 0 <= count < size -> size <= strlen buf ->
  1 <= curr -> 0 <= bo < BSIZE -> (curr - 1) * BSIZE + bo = off + count -> (count = 0 \/ bo = 0) ->
  svc_no curr -> drop (Z.to_nat count) buf = drop (Z.to_nat count) buf0 ->
  let n := chunk (size - count) bo in
  exists d, svc_get curr (drop (Z.to_nat count) buf) n bo s
              = Ret (n, d ++ drop (length d) (drop (Z.to_nat count) buf), s) /\
    holds s (off + count) n d /\ 0 < n.
Proof.
  intros Hok Hst Hcl Hoff Hct Hsz Hc Hbo Hpos Hfst Hno Htail n. pose proof BSIZE_pos as HB.
  assert (0 < n /\ n <= size - count /\ bo + n <= BSIZE) as (Hn & Hn1 & Hn2) by (unfold n, chunk; lia).
  destruct (block_chunk s curr bo n) as (b & d & Hb & Hd & Hh); try done; try lia.
  { rewrite Hpos. apply Hst. lia. }
  rewrite Hpos in Hh. exists d. split; [|done].
  eapply svc_get_ok; try done; try lia.
  - rewrite strlen_drop by lia. lia.
  - rewrite Htail, drop_drop. assert ((off + count) mod BSIZE = bo) as Hm.
    { destruct (div_block (off + count) (curr - 1)) as [_ ->]; lia. }
    replace (Z.to_nat count) with (Z.to_nat (off + count - off)) by lia.
    apply Hcl; [lia| |].
    + rewrite Hm. destruct Hfst; [left; lia|by right].
    + rewrite Hm. replace (off + size - (off + count)) with (size - count) by lia. exact Hh.
Qed.

Lemma read_loop_ok s buf0 off size fuel curr count bo first buf st_size_ :
  let end_blk := (off + size + BSIZE - 1) / BSIZE in
  svc_ok s -> (forall x, off <= x < off + size -> is_Some (file_byte s x)) ->
  reads_clean s buf0 off size -> 0 <= off -> 0 <= count < size -> size <= strlen buf ->
  1 <= curr -> 0 <= bo < BSIZE -> (curr - 1) * BSIZE + bo = off + count ->
  (first = true -> count = 0 /\ bo = off mod BSIZE) -> (first = false -> bo = 0) ->
  off + size <= st_size_ -> (forall id, curr <= id <= end_blk -> svc_no id) ->
  Z.of_nat fuel = end_blk - curr + 1 ->
  drop (Z.to_nat count) buf = drop (Z.to_nat count) buf0 ->
  (forall i, 0 <= i < count -> file_byte s (off + i) = buf !! Z.to_nat i) ->
  exists buf', read_loop fuel size off st_size_ curr end_blk bo count first buf s = Ret (size, buf', s) /\
    length buf' = length buf /\
    drop (Z.to_nat size) buf' = drop (Z.to_nat size) buf0 /\
    (forall i, 0 <= i < size -> file_byte s (off + i) = buf' !! Z.to_nat i).
Proof.
  intros end_blk Hok Hst Hcl Hoff. revert curr count bo first buf.
  induction fuel as [|fuel IH];
    intros curr count bo first buf Hct Hsz Hc Hbo Hpos Hf1 Hf2 Hst' Hno Hfuel Htail Hdone;
    pose proof BSIZE_pos as HB;
    pose proof (end_block_bounds off size Hoff ltac:(lia)) as He; cbv zeta in He; fold end_blk in He.
  { exfalso. assert (curr <= end_blk) by nia. lia. }
  assert (curr <= end_blk) as Hce by nia.
  destruct (read_step s buf0 buf off size count curr bo) as (d & Hget & [Hdl Hd] & Hn); try done.
  { destruct first; [left; by apply Hf1|right; by apply Hf2]. }
  { apply Hno. lia. }
  set (n := chunk (size - count) bo) in *.
  assert ((if first then first_read size bo off st_size_
           else if negb (curr =? end_blk) then (BSIZE, false) else (size - count, false)) = (n, false)) as Hcnt.
  { destruct first.
    - destruct (Hf1 eq_refl) as [-> ->]. rewrite first_read_in_range by lia. unfold n. by rewrite Z.sub_0_r.
    - rewrite (Hf2 eq_refl) in *. unfold n, chunk.
      destruct (Z.eqb_spec curr end_blk); simpl; f_equal; nia. }
  cbn [read_loop]. destruct (Z.ltb_spec end_blk curr); [lia|]. rewrite Hcnt.
  destruct (Z.leb_spec n 0); [lia|]. rewrite Hget. cbn [obind].
  destruct (Z.ltb_spec n 0); [lia|].
  assert (n <= size - count /\ n <= BSIZE - bo) as [Hn1 Hn2] by (unfold n, chunk; lia).
  destruct (splice_drop buf d (Z.to_nat count)) as (Hl & Htl & Hlo & Hhi); [unfold strlen in *; lia|].
  set (buf1 := take (Z.to_nat count) buf ++ d ++ drop (length d) (drop (Z.to_nat count) buf)) in *.
  assert (Z.to_nat (count + n) = (Z.to_nat count + length d)%nat) as Hcn by (unfold strlen in Hdl; lia).
  assert (drop (Z.to_nat (count + n)) buf1 = drop (Z.to_nat (count + n)) buf0) as Htail1.
  { rewrite Hcn, Htl, <- !drop_drop. by rewrite Htail. }
  assert (forall i, 0 <= i < count + n -> file_byte s (off + i) = buf1 !! Z.to_nat i) as Hdone1.
  { intros i Hi. destruct (Z.lt_ge_cases i count).
    - rewrite Hlo by lia. apply Hdone. lia.
    - replace (off + i) with (off + count + (i - count)) by lia. rewrite Hd by lia.
      rewrite <- Hhi by (unfold strlen in Hdl; lia). f_equal. lia. }
  destruct (Z.eq_dec (count + n) size) as [Hend|Hmore].
  - assert (fuel = 0%nat) as ->.
    { assert (end_blk = curr) by nia. lia. }
    cbn [read_loop]. exists buf1. rewrite Hend in *. done.
  - assert (n = BSIZE - bo) as Hnb by (unfold n, chunk in *; lia).
    destruct (IH (curr + 1) (count + n) 0 false buf1) as (buf' & Hrun & Hl' & Ht' & Hb'); try done; try lia.
    { unfold strlen in *. lia. }
    { intros id Hid. apply Hno. lia. }
    exists buf'. split; [exact Hrun|]. split; [lia|]. done.
Qed.

(** A read inside the file returns all its bytes. *)
Lemma imss_sread_ok path buf size off fd st f :
  svc_ok (svc f) -> files f !! path = Some (fd, st) -> fd <> -1 ->
  0 <= off -> 0 < size <= strlen buf -> off + size <= st_size st < 2 ^ 53 ->
  blocks_usable (off + size - 1) ->
  (forall x, off <= x < off + size -> is_Some (file_byte (svc f) x)) ->
  reads_clean (svc f) buf off size ->
  exists buf', imss_sread dceil path buf size off f = Ret (size, buf', f) /\
    length buf' = length buf /\ drop (Z.to_nat size) buf' = drop (Z.to_nat size) buf /\
    (forall i, 0 <= i < size -> file_byte (svc f) (off + i) = buf' !! Z.to_nat i).
Proof.
  intros Hok Hfile Hfd Hoff Hsz Hst Hno Hstored Hcl. pose proof BSIZE_pos as HB.
  assert (BSIZE <> 0) as Hnz by lia.
  pose proof (Z.div_mod off BSIZE Hnz) as Hdm. pose proof (Z.mod_pos_bound off BSIZE (proj1 HB)) as Hm.
  pose proof (Z.div_pos off BSIZE Hoff (proj1 HB)) as Hq. pose proof (Z.mod_le off BSIZE Hoff (proj1 HB)).
  pose proof (end_block_bounds off size Hoff (proj1 Hsz)) as He. cbv zeta in He.
  set (end_blk := (off + size + BSIZE - 1) / BSIZE) in *.
  assert (off / BSIZE + 1 <= end_blk) as Hle by nia.
  assert (end_blk <= (off + size - 1) / BSIZE + 1) as Hlast.
  { pose proof (Z.div_le_lower_bound (off + size - 1) BSIZE (end_blk - 1)). lia. }
  unfold imss_sread. destruct (Z.eqb_spec BSIZE 0); [done|]. unfold fd_lookup. rewrite Hfile.
  destruct (Z.eqb_spec fd (-1)); [done|]. rewrite (u64_of off), (u64_of (st_size st)) by lia.
  destruct (Z.ltb_spec (st_size st) size); [lia|]. destruct (Z.leb_spec (st_size st) off); [lia|].
  destruct (Z.leb_spec (st_size st) (off mod BSIZE)); [lia|]. cbn [orb].
  rewrite !u64_of, dceil_exact by lia. fold end_blk.
  destruct (read_loop_ok (svc f) buf off size (Z.to_nat (end_blk - (off / BSIZE + 1) + 1)) (off / BSIZE + 1) 0
    (off mod BSIZE) true buf (st_size st)) as (buf' & Hrun & Hl & Ht & Hb); try done; try lia.
  { intros id Hid. apply Hno. fold end_blk in Hid. lia. }
  fold end_blk in Hrun. rewrite Hrun. cbn [obind]. exists buf'. split; [by destruct f|]. done.
Qed.
End properties.

(** ** Properties *)

Section theorems.
Context {St : Type} `{BlockService St} (dceil : Z -> Z -> Z).
Context (dceil_exact : forall x b, 0 <= x < 2 ^ 53 -> 0 < b < 2 ^ 53 -> dceil x b = (x + b - 1) / b).

(** C3. A file write stores what it is given: for every offset and length,
    aligned to the blocks or not, all bytes are accepted, each is at its
    position of the file afterwards, stored bytes outside the range are
    unchanged, and the recorded size is the larger of the old size and the
    end of the write. *)
Theorem imss_write_stores (path buf : bytes) (size off fd : Z) (st : stat) (f : fstate St)
  (Hok : svc_ok (svc f)) (Hfile : files f !! path = Some (fd, st)) (Hfd : fd <> -1)
  (Hoff : 0 <= off) (Hsize : 0 < size <= strlen buf) (Hmax : off + size < 2 ^ 53)
  (Hst : 0 <= st_size st < 2 ^ 53) (Hno : blocks_usable (off + size - 1)) :
  exists f' st', imss_write dceil path buf size off f = Ret (size, f') /\ svc_ok (svc f') /\
    files f' !! path = Some (fd, st') /\ st_size st' = Z.max (st_size st) (off + size) /\
    (forall i, 0 <= i < size -> file_byte (svc f') (off + i) = buf !! Z.to_nat i) /\
    (forall y, 0 <= y -> svc_no (y / BSIZE + 1) -> (y < off \/ off + size <= y) ->
       is_Some (file_byte (svc f) y) -> file_byte (svc f') y = file_byte (svc f) y).
Proof. by apply imss_write_ok. Qed.

(** C4. A file read inside the file returns the stored bytes: every byte of the
    range is delivered at its place of the caller's buffer, the rest of the
    buffer is not touched and nothing else changes, as long as no block of the
    range looks like the block service's error message. *)
Theorem imss_sread_in_range (path buf : bytes) (size off fd : Z) (st : stat) (f : fstate St)
  (Hok : svc_ok (svc f)) (Hfile : files f !! path = Some (fd, st)) (Hfd : fd <> -1)
  (Hoff : 0 <= off) (Hsize : 0 < size <= strlen buf) (Hend : off + size <= st_size st < 2 ^ 53)
  (Hno : blocks_usable (off + size - 1))
  (Hstored : forall x, off <= x < off + size -> is_Some (file_byte (svc f) x))
  (Hcl : reads_clean (svc f) buf off size) :
  exists buf', imss_sread dceil path buf size off f = Ret (size, buf', f) /\
    length buf' = length buf /\ drop (Z.to_nat size) buf' = drop (Z.to_nat size) buf /\
    (forall i, 0 <= i < size -> file_byte (svc f) (off + i) = buf' !! Z.to_nat i).
Proof. by apply (imss_sread_ok dceil dceil_exact path buf size off fd st f). Qed.

(** Reading across the end of a file of between one and two blocks: asked
    for two blocks from the start, the read reports and copies two whole
    blocks, more bytes than the file has. *)
Theorem imss_sread_past_end (path buf b1 b2 : bytes) (fd : Z) (st : stat) (f : fstate St)
  (Hok : svc_ok (svc f)) (Hfile : files f !! path = Some (fd, st)) (Hfd : fd <> -1)
  (Hb1 : svc_block (svc f) 1 = Some b1) (Hb2 : svc_block (svc f) 2 = Some b2)
  (Hno : blocks_usable (2 * BSIZE - 1)) (Hst : BSIZE < st_size st < 2 * BSIZE)
  (Hbuf : 2 * BSIZE <= strlen buf) (Hcl : reads_clean (svc f) buf 0 (2 * BSIZE)) :
  exists buf', imss_sread dceil path buf (2 * BSIZE) 0 f = Ret (2 * BSIZE, buf', f) /\
    st_size st < 2 * BSIZE.
Proof.
  pose proof BSIZE_pos as HB. assert (BSIZE <> 0) as Hnz by lia.
  assert ((2 * BSIZE - 1) / BSIZE = 1) as Hdiv by (symmetry; apply (Z.div_unique _ _ 1 (BSIZE - 1)); lia).
  assert (svc_no 1 /\ svc_no 2) as [Hn1 Hn2] by (split; apply Hno; lia).
  pose proof (svc_block_length _ _ _ Hok Hn1 Hb1). pose proof (svc_block_length _ _ _ Hok Hn2 Hb2).
  assert (forall x, 0 <= x < 0 + 2 * BSIZE -> is_Some (file_byte (svc f) x)) as Hstored.
  { intros x Hx. unfold file_byte. pose proof (Z.mod_pos_bound x BSIZE (proj1 HB)).
    destruct (Z.lt_ge_cases x BSIZE).
    - rewrite Z.div_small by lia. change (0 + 1) with 1. rewrite Hb1. apply lookup_lt_is_Some. unfold strlen in *. lia.
    - destruct (div_block x 1) as [-> Hm]; [lia|]. change (1 + 1) with 2. rewrite Hb2. apply lookup_lt_is_Some.
      unfold strlen in *. lia. }
  unfold imss_sread. destruct (Z.eqb_spec BSIZE 0); [done|]. unfold fd_lookup. rewrite Hfile.
  destruct (Z.eqb_spec fd (-1)); [done|]. rewrite Z.add_0_l, !u64_of by lia.
  destruct (Z.ltb_spec (st_size st) (2 * BSIZE)); [|lia]. destruct (Z.leb_spec (st_size st) 0); [lia|].
  rewrite Z.mod_0_l, Z.div_0_l by done. destruct (Z.leb_spec (st_size st) 0); [lia|]. cbn [orb].
  rewrite dceil_exact by lia.
  assert ((st_size st + BSIZE - 1) / BSIZE = 2) as ->
    by (symmetry; apply (Z.div_unique _ _ 2 (st_size st - BSIZE - 1)); lia).
  change (Z.to_nat (2 - (0 + 1) + 1)) with 2%nat. change (0 + 1) with 1.
  destruct (read_step (svc f) buf buf 0 (2 * BSIZE) 0 1 0) as (d1 & Hg1 & [Hl1 _] & _); try done; try lia.
  assert (chunk (2 * BSIZE - 0) 0 = BSIZE) as Hc1 by (unfold chunk; lia). rewrite Hc1 in *.
  assert (first_read (2 * BSIZE) 0 0 (st_size st) = (BSIZE, false)) as Hfr.
  { unfold first_read. destruct (Z.ltb_spec (2 * BSIZE) (st_size st - 0)); [lia|]. simpl.
    destruct (Z.ltb_spec (st_size st) BSIZE); [lia|].
    rewrite Z.sub_0_r, !Z.add_0_l, Z.ltb_irrefl. destruct (Z.ltb_spec (st_size st) BSIZE); [lia|done]. }
  cbn [read_loop]. change (2 <? 1) with false. cbv iota. rewrite Hfr.
  destruct (Z.leb_spec BSIZE 0); [lia|]. rewrite Hg1. cbn [obind].
  destruct (Z.ltb_spec BSIZE 0); [lia|]. change (1 + 1) with 2. change (2 <? 2) with false. cbv iota.
  change (2 =? 2) with true. cbn [negb]. rewrite Z.add_0_l.
  destruct (splice_drop buf d1 0) as (Hl & Ht & _ & _); [unfold strlen in *; simpl; lia|].
  simpl in Hl, Ht. rewrite drop_0 in Ht. change (Z.to_nat 0) with 0%nat. rewrite drop_0. simpl take. simpl app.
  rewrite drop_0 in Hl. set (buf1 := d1 ++ drop (length d1) buf) in *.
  destruct (read_step (svc f) buf buf1 0 (2 * BSIZE) BSIZE 2 0) as (d2 & Hg2 & _ & _); try done; try lia.
  { unfold strlen in *. lia. }
  { replace (Z.to_nat BSIZE) with (length d1) by (unfold strlen in *; lia). exact Ht. }
  assert (chunk (2 * BSIZE - BSIZE) 0 = BSIZE) as Hc2 by (unfold chunk; lia). rewrite Hc2 in *.
  replace (2 * BSIZE - BSIZE) with BSIZE by lia. destruct (Z.leb_spec BSIZE 0); [lia|].
  rewrite Hg2. cbn [obind]. destruct (Z.ltb_spec BSIZE 0); [lia|].
  eexists. split; [|lia]. replace (BSIZE + BSIZE) with (2 * BSIZE) by lia. destruct f. reflexivity.
Qed.
End theorems.
