(* ===== verification/Posix.v ===== *)
(** * The interposed descriptor calls

    The calls that src/tools/imss_posix.c puts in front of the C library,
    after initialisation: [write], [pwrite], [read], [pread], [lseek],
    [fseek], [ftell], [rewind], [fread], [fwrite], [dup], [dup2], over the
    table of src/tools/mapfd.cpp from descriptors to path and position.  A
    descriptor that is not in the table is passed to the C library, the
    parameter [Libc]; attributes of files that are not in the local map come
    from the metadata server, the parameter [fetch_attr]. *)

From S2P Require Import Prelude Types Paths Store BlockService FileIO.

Definition EIO : Z := 5.
Definition EBADF : Z := 9.
Definition S_IFDIR : Z := 16384.
Definition SEEK_SET : Z := 0.
Definition SEEK_CUR : Z := 1.
Definition SEEK_END : Z := 2.

(** The C library's own calls on its state [K]. *)
Class Libc (K : Type) := {
  real_write : Z -> bytes -> Z -> K -> Z * K;
  real_pwrite : Z -> bytes -> Z -> Z -> K -> Z * K;
  real_read : Z -> bytes -> Z -> K -> Z * bytes * K;
  real_pread : Z -> bytes -> Z -> Z -> K -> Z * bytes * K;
  real_lseek : Z -> Z -> Z -> K -> Z * K;
  real_fwrite : bytes -> Z -> Z -> Z -> K -> Z * K;
  real_fread : bytes -> Z -> Z -> Z -> K -> Z * bytes * K;
  real_fseek : Z -> Z -> Z -> K -> Z * K;
  real_rewind : Z -> K -> K;
  real_ftell : Z -> K -> Z * K;
  real_dup : Z -> K -> Z * K;
  real_dup2 : Z -> Z -> K -> Z * K;
  real_open_null : K -> Z * K
}.

(** ** The descriptor table (src/tools/mapfd.cpp) *)

Abbreviation fd_map := (gmap Z (bytes * Z)).

Definition map_fd_put (pathname : bytes) (fd offset : Z) (m : fd_map) : Z * fd_map :=
  match m !! fd with
  | Some _ => (-1, m)
  | None => (1, <[fd := (pathname, offset)]> m)
  end.

(** The position is kept in a [long]. *)
Definition map_fd_update_value (pathname : bytes) (fd offset : Z) (m : fd_map) : fd_map :=
  match m !! fd with
  | Some _ => <[fd := (pathname, i64 offset)]> m
  | None => m
  end.

Definition map_fd_erase (fd : Z) (m : fd_map) : fd_map := delete fd m.

(** Result and the caller's [unsigned long]. *)
Definition map_fd_search (fd offset : Z) (m : fd_map) : Z * Z :=
  match m !! fd with
  | Some (_, o) => (1, u64 o)
  | None => (-1, offset)
  end.

Definition map_fd_search_by_val (fd : Z) (m : fd_map) : bytes :=
  match m !! fd with Some (p, _) => p | None => [] end.

(** ** The calls *)

Record pstate (St K : Type) := mkP {
  fs : fstate St;
  fds : fd_map;
  kern : K;
  errno : Z;
  eof_seen : gset Z;
  err_seen : gset Z
}.
Arguments mkP {St K} fs fds kern errno eof_seen err_seen.
Arguments fs {St K} p.
Arguments fds {St K} p.
Arguments kern {St K} p.
Arguments errno {St K} p.
Arguments eof_seen {St K} p.
Arguments err_seen {St K} p.

Section setters.
Context {St K : Type}.
Definition set_fs (x : fstate St) (p : pstate St K) : pstate St K :=
  mkP x (fds p) (kern p) (errno p) (eof_seen p) (err_seen p).
Definition set_fds (x : fd_map) (p : pstate St K) : pstate St K :=
  mkP (fs p) x (kern p) (errno p) (eof_seen p) (err_seen p).
Definition set_kern (x : K) (p : pstate St K) : pstate St K :=
  mkP (fs p) (fds p) x (errno p) (eof_seen p) (err_seen p).
Definition set_errno (x : Z) (p : pstate St K) : pstate St K :=
  mkP (fs p) (fds p) (kern p) x (eof_seen p) (err_seen p).
Definition set_eof (fd : Z) (p : pstate St K) : pstate St K :=
  mkP (fs p) (fds p) (kern p) (errno p) (eof_seen p ∪ {[ fd ]}) (err_seen p).
End setters.

Section calls.
Context {St K : Type} `{BlockOps St} `{Libc K} (dceil : Z -> Z -> Z).
Context (fetch_attr : bytes -> fstate St -> Z * stat * fstate St).

(** [SetErrno]: only negative values are stored. *)
Definition SetErrno (value : Z) (p : pstate St K) : pstate St K :=
  if 0 <=? i32 value then p else set_errno (- i32 value) p.

Definition update_pos (path : bytes) (fd offset : Z) (p : pstate St K) : pstate St K :=
  set_fds (map_fd_update_value path fd offset (fds p)) p.

(** [generalWrite]; the offset is a [size_t], its largest value asks for the
    position of the descriptor. *)
Definition generalWrite (pathname : bytes) (fd : Z) (buf : bytes) (size offset : Z) (p : pstate St K)
  : outcome (Z * pstate St K) :=
  let update_offset := u64 offset =? u64 (-1) in
  let offset := if update_offset then snd (map_fd_search fd (u64 offset) (fds p)) else u64 offset in
  let '(fd_lkup, ds_stat_n) := fd_lookup pathname (fs p) in
  if update_offset && (fd_lkup =? -1) then Ret (-1, set_errno ENOENT p)
  else
    let* (ret, f) := imss_write dceil pathname buf size (i64 offset) (fs p) in
    let p := set_fs f p in
    if ret <? 0 then Ret (-1, SetErrno ret p)
    else
      let old_size := match ds_stat_n with Some st => st_size st | None => 0 end in
      Ret (ret, if update_offset && (u64 old_size <? u64 (old_size + size))
                then update_pos pathname fd (u64 (old_size + size)) p else p).

Definition in_table (fd : Z) (p : pstate St K) : option bytes :=
  match map_fd_search_by_val fd (fds p) with [] => None | path => Some path end.

Definition write (fd : Z) (buf : bytes) (size : Z) (p : pstate St K) : outcome (Z * pstate St K) :=
  let p := set_errno 0 p in
  match in_table fd p with
  | Some pathname => generalWrite pathname fd buf size (u64 (-1)) p
  | None => let '(r, k) := real_write fd buf size (kern p) in Ret (r, set_kern k p)
  end.

Definition pwrite (fd : Z) (buf : bytes) (count offset : Z) (p : pstate St K) : outcome (Z * pstate St K) :=
  let p := set_errno 0 p in
  match in_table fd p with
  | Some pathname => generalWrite pathname fd buf count offset p
  | None => let '(r, k) := real_pwrite fd buf count offset (kern p) in Ret (r, set_kern k p)
  end.

(** [fwrite] returns what [generalWrite] does, a number of bytes. *)
Definition fwrite (buf : bytes) (size count fd : Z) (p : pstate St K) : outcome (Z * pstate St K) :=
  let p := set_errno 0 p in
  match in_table fd p with
  | Some pathname =>
      let* (r, p) := generalWrite pathname fd buf (u64 (size * count)) (u64 (-1)) p in
      Ret (u64 r, p)
  | None => let '(r, k) := real_fwrite buf size count fd (kern p) in Ret (r, set_kern k p)
  end.

(** [read] without prefetching. *)
Definition read (fd : Z) (buf : bytes) (size : Z) (p : pstate St K) : outcome (Z * bytes * pstate St K) :=
  let p := set_errno 0 p in
  match in_table fd p with
  | Some pathname =>
      if size <=? 0 then Ret (0, buf, p)
      else if fd <? 0 then Ret (-1, buf, set_errno EBADF p)
      else
        let offset := snd (map_fd_search fd 0 (fds p)) in
        let* (ret, buf, f) := imss_sread dceil pathname buf size (i64 offset) (fs p) in
        let p := set_fs f p in
        let p := if 0 <? ret then update_pos pathname fd (u64 (offset + ret)) p else p in
        if ret =? -1 then Ret (ret, buf, set_errno ENOENT p)
        else if ret =? -2 then Ret (-1, buf, set_errno EIO p)
        else Ret (ret, buf, p)
  | None => let '(r, buf, k) := real_read fd buf size (kern p) in Ret (r, buf, set_kern k p)
  end.

Definition pread (fd : Z) (buf : bytes) (count offset : Z) (p : pstate St K)
  : outcome (Z * bytes * pstate St K) :=
  let p := set_errno 0 p in
  match in_table fd p with
  | Some pathname =>
      let* (ret, buf, f) := imss_sread dceil pathname buf count offset (fs p) in
      Ret (ret, buf, set_fs f p)
  | None => let '(r, buf, k) := real_pread fd buf count offset (kern p) in Ret (r, buf, set_kern k p)
  end.

(** [fread]: the element size only matters when it is 0, and the result of
    [imss_sread] is kept in a [size_t]. *)
Definition fread (buf : bytes) (size count fd : Z) (p : pstate St K) : outcome (Z * bytes * pstate St K) :=
  let p := set_errno 0 p in
  match in_table fd p with
  | Some pathname =>
      if size <=? 0 then Ret (0, buf, p)
      else if fd <? 0
      then Ret (u64 (-1), buf,
                mkP (fs p) (fds p) (kern p) EBADF (eof_seen p) (err_seen p ∪ {[ fd ]}))
      else
        let offset := snd (map_fd_search fd 0 (fds p)) in
        let* (r, buf, f) := imss_sread dceil pathname buf count (i64 offset) (fs p) in
        let p := set_fs f p in
        let ret := u64 r in
        let p := if 0 <? ret then update_pos pathname fd (u64 (offset + ret)) p else p in
        Ret (ret, buf, if ret =? 0 then set_eof fd p else p)
  | None => let '(r, buf, k) := real_fread buf size count fd (kern p) in Ret (r, buf, set_kern k p)
  end.

(** [imss_getattr]: result, the attributes it leaves in the caller's buffer. *)
Definition imss_getattr (path : bytes) (f : fstate St) : Z * stat * fstate St :=
  if streq path IMSS_ROOT then (0, mkStat 4 0 1 (Z.lor S_IFDIR 509), f)
  else
    match fd_lookup path f with
    | (fd, Some st) =>
        if fd <? 0 then fetch_attr path f
        else if S_ISDIR (st_mode st) then (0, set_link_mode 1 (Z.lor S_IFDIR 509) (set_size 4 (st_blocks st) st), f)
        else (0, set_size (st_size st) (dceil (st_size st) 512) st, f)
    | (_, None) => fetch_attr path f
    end.

(** The body of [lseek] and [lseek64] for a file of the table. *)
Definition seek_to (pathname : bytes) (fd offset whence : Z) (p : pstate St K) : Z * pstate St K :=
  if whence =? SEEK_SET then (offset, update_pos pathname fd (u64 offset) p)
  else if whence =? SEEK_CUR then
    let '(r, pos) := map_fd_search fd 0 (fds p) in
    if r <? 0 then (-1, set_errno (- r) p)
    else let ret := i64 (pos + offset) in (ret, update_pos pathname fd (u64 ret) p)
  else if whence =? SEEK_END then
    let '(r, st, f) := imss_getattr pathname (fs p) in
    let p := set_fs f p in
    if r <? 0 then (-1, set_errno (- r) p)
    else let ret := i64 (offset + st_size st) in (ret, update_pos pathname fd (u64 ret) p)
  else (-1, p).

Definition lseek (fd offset whence : Z) (p : pstate St K) : Z * pstate St K :=
  let p := set_errno 0 p in
  match in_table fd p with
  | Some pathname => seek_to pathname fd offset whence p
  | None => let '(r, k) := real_lseek fd offset whence (kern p) in (r, set_kern k p)
  end.

(** [fseek]: from the end, the offset is not used. *)
Definition fseek (fd offset whence : Z) (p : pstate St K) : Z * pstate St K :=
  let p := set_errno 0 p in
  match in_table fd p with
  | Some pathname =>
      let '(ret, p) :=
        if whence =? SEEK_END then
          let '(r, st, f) := imss_getattr pathname (fs p) in
          let p := set_fs f p in
          if r <? 0 then (-1, set_errno (- r) p)
          else (st_size st, update_pos pathname fd (u64 (st_size st)) p)
        else seek_to pathname fd offset whence p in
      (if 0 <=? ret then 0 else ret, p)
  | None => let '(r, k) := real_fseek fd offset whence (kern p) in (r, set_kern k p)
  end.

Definition rewind (fd : Z) (p : pstate St K) : pstate St K :=
  let p := set_errno 0 p in
  match in_table fd p with
  | Some _ => snd (fseek fd 0 SEEK_SET p)
  | None => set_kern (real_rewind fd (kern p)) p
  end.

Definition ftell (fd : Z) (p : pstate St K) : Z * pstate St K :=
  let p := set_errno 0 p in
  match in_table fd p with
  | Some _ =>
      let '(r, pos) := map_fd_search fd 0 (fds p) in
      if r <? 0 then (-1, set_errno (- r) p) else (i64 pos, p)
  | None => let '(r, k) := real_ftell fd (kern p) in (r, set_kern k p)
  end.

(** [dup]: a fresh descriptor of the C library, with the same path and its own
    position 0. *)
Definition dup (oldfd : Z) (p : pstate St K) : Z * pstate St K :=
  let p := set_errno 0 p in
  match in_table oldfd p with
  | Some pathname =>
      let '(lowest_fd, k) := real_open_null (kern p) in
      let p := set_kern k p in
      if lowest_fd =? -1 then (-1, p)
      else
        let '(r, m) := map_fd_put pathname lowest_fd 0 (fds p) in
        if r =? -1 then (-1, set_errno EBADF p) else (lowest_fd, set_fds m p)
  | None => let '(r, k) := real_dup oldfd (kern p) in (r, set_kern k p)
  end.

Definition dup2 (oldfd newfd : Z) (p : pstate St K) : Z * pstate St K :=
  let p := set_errno 0 p in
  match in_table oldfd p with
  | Some pathname =>
      if oldfd =? newfd then (newfd, p)
      else
        let '(r, m) := map_fd_put pathname newfd 0 (fds p) in
        if r =? -1 then (-1, p) else (newfd, set_fds m p)
  | None => let '(r, k) := real_dup2 oldfd newfd (kern p) in (r, set_kern k p)
  end.
End calls.

(** ** Positions *)

Section properties.
Context {St K : Type} `{BlockService St} `{Libc K} (dceil : Z -> Z -> Z).
Context (fetch_attr : bytes -> fstate St -> Z * stat * fstate St).
Context (dceil_exact : forall x b, 0 <= x < 2 ^ 53 -> 0 < b < 2 ^ 53 -> dceil x b = (x + b - 1) / b).

(** Descriptor [fd] is open on [path], at [pos], and the file has attributes
    [st]. *)
Definition opened (p : pstate St K) (fd : Z) (path : bytes) (pos : Z) (d : Z) (st : stat) : Prop :=
  path <> [] /\ fds p !! fd = Some (path, pos) /\ files (fs p) !! path = Some (d, st) /\ d <> -1 /\
  svc_ok (svc (fs p)).

Lemma opened_in_table p fd path pos d st x : opened p fd path pos d st -> in_table fd (set_errno x p) = Some path.
Proof.
  intros (Hp & Hfd & _). unfold in_table, map_fd_search_by_val. simpl. rewrite Hfd. by destruct path.
Qed.

(** A write through a descriptor stores at the position, and the position
    becomes the old size plus the length of the write. *)
Lemma write_opened p fd path pos d st buf size :
  opened p fd path pos d st -> 0 <= pos -> 0 < size <= strlen buf -> pos + size < 2 ^ 53 ->
  0 <= st_size st < 2 ^ 53 -> blocks_usable (pos + size - 1) ->
  exists p' st', write dceil fd buf size p = Ret (size, p') /\
    opened p' fd path (st_size st + size) d st' /\ st_size st' = Z.max (st_size st) (pos + size) /\
    (forall i, 0 <= i < size -> file_byte (svc (fs p')) (pos + i) = buf !! Z.to_nat i) /\
    (forall y, 0 <= y -> svc_no (y / BSIZE + 1) -> (y < pos \/ pos + size <= y) ->
       is_Some (file_byte (svc (fs p)) y) -> file_byte (svc (fs p')) y = file_byte (svc (fs p)) y).
Proof.
  intros Hop Hpos Hsz Hmax Hst Hno. pose proof Hop as (Hp & Hfd & Hfile & Hd & Hok).
  unfold write. rewrite (opened_in_table p fd path pos d st 0 Hop). unfold generalWrite.
  change (u64 (u64 (-1))) with (u64 (-1)). rewrite Z.eqb_refl. cbn [andb].
  unfold fd_lookup, map_fd_search. cbn [fs fds set_errno]. rewrite Hfile, Hfd. cbn [snd].
  destruct (Z.eqb_spec d (-1)) as [|_]; [done|].
  rewrite (u64_of pos) by lia. rewrite (i64_of pos) by lia.
  destruct (imss_write_ok dceil dceil_exact path buf size pos d st (fs p))
    as (f' & st' & Hw & Hok' & Hf' & Hst' & Hb & Hfr); try done.
  rewrite Hw. cbn [obind]. destruct (Z.ltb_spec size 0); [lia|].
  rewrite (u64_small (st_size st)), (u64_small (st_size st + size)) by lia.
  destruct (Z.ltb_spec (st_size st) (st_size st + size)); [|lia].
  eexists _, st'. split; [done|]. split; [|done]. split; [done|]. cbn. unfold map_fd_update_value. rewrite Hfd.
  rewrite (i64_small (st_size st + size)) by lia. split; [apply lookup_insert_eq|]. done.
Qed.

Fixpoint write_all (fd : Z) (chunks : list bytes) (p : pstate St K) : outcome (Z * pstate St K) :=
  match chunks with
  | [] => Ret (0, p)
  | c :: cs =>
      let* (n, p) := write dceil fd c (strlen c) p in
      let* (m, p) := write_all fd cs p in
      Ret (n + m, p)
  end.

Lemma blocks_usable_le a b : blocks_usable b -> 0 <= a <= b -> blocks_usable a.
Proof.
  intros Hb Hab id Hid. apply Hb. pose proof (Z.div_le_mono a b BSIZE (proj1 BSIZE_pos) (proj2 Hab)). lia.
Qed.

(** Writes at the end of the file. *)
Lemma write_all_ok chunks : forall p fd path d st,
  opened p fd path (st_size st) d st -> Forall (fun c => c <> []) chunks -> 0 <= st_size st ->
  st_size st + strlen (concat chunks) < 2 ^ 53 -> blocks_usable (st_size st + strlen (concat chunks) - 1) ->
  exists p' st', write_all fd chunks p = Ret (strlen (concat chunks), p') /\
    opened p' fd path (st_size st') d st' /\ st_size st' = st_size st + strlen (concat chunks) /\
    (forall i, 0 <= i < strlen (concat chunks) ->
       file_byte (svc (fs p')) (st_size st + i) = concat chunks !! Z.to_nat i) /\
    (forall y, 0 <= y < st_size st -> is_Some (file_byte (svc (fs p)) y) ->
       file_byte (svc (fs p')) y = file_byte (svc (fs p)) y).
Proof.
  induction chunks as [|c cs IH]; intros p fd path d st Hop Hne Hst Hmax Hno.
  - exists p, st. change (strlen (concat [])) with 0. split; [done|]. rewrite Z.add_0_r. split; [done|].
    split; [done|]. split; [intros i Hi; lia|done].
  - apply Forall_cons in Hne as [Hc Hcs]. cbn [concat] in *. rewrite strlen_app in *.
    pose proof (strlen_pos c Hc) as Hcp. pose proof (strlen_nonneg (concat cs)) as Hnn.
    destruct (write_opened p fd path (st_size st) d st c (strlen c)) as (p1 & st1 & Hw & Hop1 & Hs1 & Hb1 & Hf1);
      try done; try lia.
    { eapply blocks_usable_le; [exact Hno|lia]. }
    rewrite Z.max_r in Hs1 by lia. rewrite <- Hs1 in Hop1.
    destruct (IH p1 fd path d st1) as (p' & st' & Hr & Hop' & Hs' & Hb' & Hf'); try done; try lia.
    { rewrite Hs1. eapply blocks_usable_le; [exact Hno|lia]. }
    exists p', st'. cbn [write_all]. rewrite Hw. cbn [obind]. rewrite Hr. split; [done|].
    split; [done|]. split; [lia|]. split.
    + intros i Hi. destruct (Z.lt_ge_cases i (strlen c)).
      * rewrite Hf' by (lia || (rewrite Hb1 by lia; apply lookup_lt_is_Some; unfold strlen in *; lia)).
        rewrite Hb1 by lia. rewrite lookup_app_l by (unfold strlen in *; lia). done.
      * replace (st_size st + i) with (st_size st1 + (i - strlen c)) by lia. rewrite Hb' by lia.
        rewrite lookup_app_r by (unfold strlen in *; lia). f_equal. unfold strlen in *. lia.
    + intros y Hy Hsome. assert (svc_no (y / BSIZE + 1)) as Hyno.
      { eapply usable_pos; [exact Hno|lia]. }
      rewrite Hf'.
      * apply Hf1; [lia|done|lia|done].
      * lia.
      * rewrite Hf1; [done|lia|done|lia|done].
Qed.

Lemma lseek_set_opened p fd path pos d st off :
  opened p fd path pos d st -> 0 <= off < 2 ^ 53 ->
  exists p', lseek dceil fetch_attr fd off SEEK_SET p = (off, p') /\ opened p' fd path off d st /\ fs p' = fs p.
Proof.
  intros Hop Ho. pose proof Hop as (Hp & Hfd & Hf & Hd & Hok). unfold lseek.
  rewrite (opened_in_table p fd path pos d st 0 Hop). unfold seek_to. cbn [Z.eqb SEEK_SET].
  eexists. split; [done|]. split; [|done]. unfold opened, update_pos, map_fd_update_value. cbn. rewrite Hfd.
  rewrite u64_of, i64_of by lia. split; [done|]. split; [apply lookup_insert_eq|]. done.
Qed.

Lemma lseek_cur_opened p fd path pos d st :
  opened p fd path pos d st -> 0 <= pos < 2 ^ 63 ->
  fst (lseek dceil fetch_attr fd 0 SEEK_CUR p) = pos.
Proof.
  intros Hop Ho. pose proof Hop as (Hp & Hfd & _). unfold lseek.
  rewrite (opened_in_table p fd path pos d st 0 Hop). unfold seek_to.
  change (SEEK_CUR =? SEEK_SET) with false. change (SEEK_CUR =? SEEK_CUR) with true. cbv iota.
  unfold map_fd_search. cbn [fds set_errno]. rewrite Hfd. change (1 <? 0) with false. cbv iota. cbn [fst].
  rewrite Z.add_0_r, u64_small, i64_small by lia. done.
Qed.

(** A read inside the file, through a descriptor. *)
Lemma read_opened p fd path pos d st buf size :
  opened p fd path pos d st -> 0 <= fd -> 0 <= pos -> 0 < size <= strlen buf ->
  pos + size <= st_size st < 2 ^ 53 -> blocks_usable (pos + size - 1) ->
  (forall x, pos <= x < pos + size -> is_Some (file_byte (svc (fs p)) x)) ->
  reads_clean (svc (fs p)) buf pos size ->
  exists buf' p', read dceil fd buf size p = Ret (size, buf', p') /\ opened p' fd path (pos + size) d st /\
    fs p' = fs p /\ length buf' = length buf /\ drop (Z.to_nat size) buf' = drop (Z.to_nat size) buf /\
    (forall i, 0 <= i < size -> file_byte (svc (fs p)) (pos + i) = buf' !! Z.to_nat i).
Proof.
  intros Hop Hfd0 Hpos Hsz Hst Hno Hstored Hcl. pose proof Hop as (Hp & Hfd & Hf & Hd & Hok). unfold read.
  rewrite (opened_in_table p fd path pos d st 0 Hop). unfold map_fd_search. cbn [fds fs set_errno]. rewrite Hfd.
  destruct (Z.leb_spec size 0); [lia|]. destruct (Z.ltb_spec fd 0); [lia|]. cbn [snd].
  rewrite (u64_of pos), (i64_of pos) by lia.
  destruct (imss_sread_ok dceil dceil_exact path buf size pos d st (fs p)) as (buf' & Hr & Hl & Ht & Hb); try done.
  rewrite Hr. cbn [obind]. destruct (Z.ltb_spec 0 size); [|lia].
  destruct (Z.eqb_spec size (-1)); [lia|]. destruct (Z.eqb_spec size (-2)); [lia|].
  eexists buf', _. split; [done|]. split; [|done]. unfold opened, update_pos, map_fd_update_value. cbn. rewrite Hfd.
  rewrite u64_small, i64_small by lia. split; [done|]. split; [apply lookup_insert_eq|]. done.
Qed.
End properties.

(** ** Properties *)

Section theorems.
Context {St K : Type} `{BlockService St} `{Libc K} (dceil : Z -> Z -> Z).
Context (fetch_attr : bytes -> fstate St -> Z * stat * fstate St).

(** C21. Sequential output: any sequence of writes to a new file through one
    descriptor stores the concatenation of the buffers and leaves the position
    at its end; after seeking to the start, one read returns it all and the
    position is at the end again, if no block starts with the marker of an error
    reply ([reads_clean]). *)
Theorem sequential_writes_read_back (chunks : list bytes) (p : pstate St K) (fd : Z) (path : bytes) (d : Z)
  (st : stat) (out : bytes)
  (dceil_exact : forall x b, 0 <= x < 2 ^ 53 -> 0 < b < 2 ^ 53 -> dceil x b = (x + b - 1) / b)
  (Hop : opened p fd path 0 d st) (Hnew : st_size st = 0) (Hfd : 0 <= fd)
  (Hne : Forall (fun c => c <> []) chunks) (Hpos : 0 < strlen (concat chunks) <= strlen out)
  (Hmax : strlen (concat chunks) < 2 ^ 53) (Hno : blocks_usable (strlen (concat chunks) - 1)) :
  let total := strlen (concat chunks) in
  exists p1 p2, write_all dceil fd chunks p = Ret (total, p1) /\
    fst (lseek dceil fetch_attr fd 0 SEEK_CUR p1) = total /\
    lseek dceil fetch_attr fd 0 SEEK_SET p1 = (0, p2) /\
    (reads_clean (svc (fs p2)) out 0 total ->
     exists p3, read dceil fd out total p2 = Ret (total, concat chunks ++ drop (Z.to_nat total) out, p3) /\
       fst (lseek dceil fetch_attr fd 0 SEEK_CUR p3) = total).
Proof.
  intros total.
  destruct (write_all_ok dceil dceil_exact chunks p fd path d st) as (p1 & st1 & Hw & Hop1 & Hs1 & Hb1 & _);
    rewrite ?Hnew, ?Z.add_0_l; try done; try lia.
  rewrite Hnew in Hs1, Hb1. rewrite Z.add_0_l in Hs1. fold total in Hw, Hs1, Hb1. rewrite Hs1 in Hop1.
  destruct (lseek_set_opened dceil fetch_attr p1 fd path total d st1 0) as (p2 & Hl & Hop2 & Hfs); [done|lia|].
  exists p1, p2. split; [done|]. split.
  { apply (lseek_cur_opened dceil fetch_attr p1 fd path total d st1 Hop1). lia. }
  split; [done|]. intros Hcl.
  destruct (read_opened dceil dceil_exact p2 fd path 0 d st1 out total) as (out' & p3 & Hr & Hop3 & _ & Hlen & Ht & Hb);
    try done; try lia.
  { intros x Hx. rewrite Hfs. replace x with (0 + x) by lia. rewrite Hb1 by lia.
    apply lookup_lt_is_Some. unfold total, strlen in *. lia. }
  exists p3. split; [|apply (lseek_cur_opened dceil fetch_attr p3 fd path (0 + total) d st1 Hop3); lia].
  rewrite Hr. f_equal. f_equal. f_equal.
  assert (length (concat chunks) = Z.to_nat total) as Hct by (unfold total, strlen; lia).
  rewrite <- (take_drop (Z.to_nat total) out'), Ht. f_equal.
  rewrite <- (firstn_all (concat chunks)), Hct. apply take_eq_lookup; [unfold strlen in *; lia|lia|].
  intros i Hi. rewrite <- Hb, Hfs, Hb1 by lia. done.
Qed.

(** A write inside a file misplaces the descriptor: the bytes are stored at
    the position, but the new position is the old size of the file plus the
    length of the write, whatever the position was. *)
Theorem write_moves_to_size (p : pstate St K) (fd : Z) (path : bytes) (pos d : Z) (st : stat) (buf : bytes)
  (size : Z)
  (dceil_exact : forall x b, 0 <= x < 2 ^ 53 -> 0 < b < 2 ^ 53 -> dceil x b = (x + b - 1) / b)
  (Hop : opened p fd path pos d st) (Hpos : 0 <= pos) (Hsz : 0 < size <= strlen buf)
  (Hin : pos + size <= st_size st < 2 ^ 53) (Hno : blocks_usable (pos + size - 1)) :
  exists p', write dceil fd buf size p = Ret (size, p') /\
    (forall i, 0 <= i < size -> file_byte (svc (fs p')) (pos + i) = buf !! Z.to_nat i) /\
    fst (lseek dceil fetch_attr fd 0 SEEK_CUR p') = st_size st + size /\ st_size st + size <> pos + size.
Proof.
  destruct (write_opened dceil dceil_exact p fd path pos d st buf size) as (p' & st' & Hw & Hop' & _ & Hb & _);
    try done; try lia.
  exists p'. split; [done|]. split; [done|]. split; [|lia].
  apply (lseek_cur_opened dceil fetch_attr p' fd path (st_size st + size) d st' Hop'). lia.
Qed.

(** Positional calls leave the descriptor table alone: [pwrite] at any
    offset but the reserved -1, and [pread], change no position, on success
    and on error, for files of the table and of the C library. *)
Theorem positional_calls_keep_positions (fd : Z) (buf : bytes) (n off : Z) (p p' : pstate St K) (r : Z)
  (Hrun : (pwrite dceil fd buf n off p = Ret (r, p') /\ u64 off <> u64 (-1)) \/
          (exists out, pread dceil fd buf n off p = Ret (r, out, p'))) :
  fds p' = fds p.
Proof.
  destruct Hrun as [[Hrun Hoff]|[out Hrun]].
  - unfold pwrite in Hrun. destruct (in_table fd (set_errno 0 p)) as [path|].
    + unfold generalWrite in Hrun. apply Z.eqb_neq in Hoff. rewrite Hoff in Hrun. cbn [andb] in Hrun.
      destruct (fd_lookup path (fs (set_errno 0 p))). destruct (imss_write _ _ _ _ _ _) as [[ret f]| |]; try done.
      cbn [obind] in Hrun. destruct (ret <? 0); injection Hrun as _ <-; [|done].
      unfold SetErrno. by destruct (0 <=? _).
    + destruct (real_pwrite fd buf n off _). by injection Hrun as _ <-.
  - unfold pread in Hrun. destruct (in_table fd (set_errno 0 p)) as [path|].
    + destruct (imss_sread _ _ _ _ _ _) as [[[ret b] f]| |]; try done. by injection Hrun as _ _ <-.
    + destruct (real_pread fd buf n off _) as [[? ?] ?]. by injection Hrun as _ _ <-.
Qed.

(** [fseek] from the end ignores its offset: it goes to the end of the file
    and reports success for every offset, where [lseek] goes to the end plus
    the offset. *)
Theorem fseek_end_ignores_offset (p : pstate St K) (fd : Z) (path : bytes) (pos d off : Z) (st : stat)
  (Hop : opened p fd path pos d st) (Hd : 0 <= d) (Hroot : streq path IMSS_ROOT = false)
  (Hfile : S_ISDIR (st_mode st) = false) (Hst : 0 <= st_size st < 2 ^ 53) (Hoff : 0 <= st_size st + off < 2 ^ 53) :
  exists p1 p2, fseek dceil fetch_attr fd off SEEK_END p = (0, p1) /\ opened p1 fd path (st_size st) d st /\
    lseek dceil fetch_attr fd off SEEK_END p = (st_size st + off, p2) /\
    opened p2 fd path (st_size st + off) d st.
Proof.
  pose proof Hop as (Hp & Hfd & Hf & Hd' & Hok). unfold fseek, lseek.
  rewrite (opened_in_table p fd path pos d st 0 Hop). unfold seek_to, imss_getattr, fd_lookup.
  change (SEEK_END =? SEEK_SET) with false. change (SEEK_END =? SEEK_CUR) with false.
  change (SEEK_END =? SEEK_END) with true. cbv iota. rewrite Hroot. cbn [fs set_errno]. rewrite Hf.
  destruct (Z.ltb_spec d 0); [lia|]. rewrite Hfile. cbn [st_size set_size]. change (0 <? 0) with false. cbv iota.
  destruct (Z.leb_spec 0 (st_size st)); [|lia].
  eexists _, _. split; [done|]. unfold opened, update_pos, map_fd_update_value. cbn. rewrite Hfd.
  rewrite (Z.add_comm off), (i64_of (st_size st + off)), !u64_of, !i64_of by lia.
  split; [split; [done|]; split; [apply lookup_insert_eq|done]|]. split; [done|]. split; [done|].
  split; [apply lookup_insert_eq|done].
Qed.

(** [fread] reads [count] bytes whatever the size of an element, and takes
    a failed read for success: after the error -2 it returns 2^64 - 2 and the
    position moves back by two. *)
Theorem fread_size_and_errors (p : pstate St K) (fd : Z) (path : bytes) (pos : Z)
  (buf buf' : bytes) (size count : Z) (f : fstate St)
  (Hp : path <> []) (Hf : fds p !! fd = Some (path, pos)) (Hfd : 0 <= fd) (Hpos : 2 <= pos < 2 ^ 53) (Hsize : 0 < size)
  (Hfail : imss_sread dceil path buf count pos (fs p) = Ret (-2, buf', f)) :
  fread dceil buf size count fd p = fread dceil buf 1 count fd p /\
  exists p', fread dceil buf size count fd p = Ret (2 ^ 64 - 2, buf', p') /\
    fds p' !! fd = Some (path, pos - 2).
Proof.
  assert (in_table fd (set_errno 0 p) = Some path) as Hin.
  { unfold in_table, map_fd_search_by_val. cbn. rewrite Hf. by destruct path. }
  unfold fread. rewrite Hin. destruct (Z.leb_spec size 0); [lia|].
  destruct (Z.ltb_spec fd 0); [lia|]. split; [done|].
  unfold map_fd_search. cbn [fds fs set_errno]. rewrite Hf. cbn [snd]. rewrite (u64_of pos), (i64_of pos) by lia.
  rewrite Hfail. cbn [obind]. change (u64 (-2)) with (2 ^ 64 - 2). change (0 <? 2 ^ 64 - 2) with true.
  change (2 ^ 64 - 2 =? 0) with false. cbv iota. eexists. split; [done|].
  unfold update_pos, map_fd_update_value. cbn [fds set_fds set_fs set_errno]. rewrite Hf, lookup_insert_eq.
  do 2 f_equal. replace (pos + (2 ^ 64 - 2)) with (pos - 2 + 1 * 2 ^ 64) by lia.
  unfold u64. rewrite Z.mod_add by lia. rewrite Z.mod_small by lia. apply i64_small. lia.
Qed.

(** A duplicated descriptor has a position of its own: it starts at 0
    whatever the position of the original, and seeking it moves only itself. *)
Theorem dup_position_is_separate (p p' : pstate St K) (fd nfd : Z) (path : bytes) (pos d off : Z) (st : stat)
  (Hop : opened p fd path pos d st) (Hdup : dup fd p = (nfd, p')) (Hok : nfd <> -1) (Hpos : 0 <= pos < 2 ^ 53)
  (Hoff : 0 <= off < 2 ^ 53) :
  fst (lseek dceil fetch_attr nfd 0 SEEK_CUR p') = 0 /\
  fst (lseek dceil fetch_attr fd 0 SEEK_CUR (snd (lseek dceil fetch_attr nfd off SEEK_SET p'))) = pos.
Proof.
  pose proof Hop as (Hp & Hf & Hfile & Hd & Hsv). unfold dup in Hdup.
  rewrite (opened_in_table p fd path pos d st 0 Hop) in Hdup.
  destruct (real_open_null _) as [low k]. destruct (Z.eqb_spec low (-1)); [by injection Hdup as <- _|].
  unfold map_fd_put in Hdup. cbn [fds set_kern set_errno] in Hdup.
  destruct (fds p !! low) as [x|] eqn:Hlow; [by injection Hdup as <- _|].
  change (1 =? -1) with false in Hdup. injection Hdup as -> <-.
  assert (nfd <> fd) as Hne by congruence.
  set (p1 := set_fds _ _). assert (opened p1 nfd path 0 d st) as Hnew.
  { split; [done|]. split; [apply lookup_insert_eq|]. done. }
  split; [apply (lseek_cur_opened dceil fetch_attr p1 nfd path 0 d st Hnew); lia|].
  unfold lseek at 2. rewrite (opened_in_table p1 nfd path 0 d st 0 Hnew). unfold seek_to.
  change (SEEK_SET =? SEEK_SET) with true. cbv iota. cbn [snd].
  apply (lseek_cur_opened dceil fetch_attr _ fd path pos d st); [|lia].
  split; [done|]. split; [|done]. unfold update_pos, map_fd_update_value. cbn.
  rewrite lookup_insert_eq, lookup_insert_ne by done. by rewrite lookup_insert_ne.
Qed.
End theorems.
