(* ===== verification/EndToEnd.v ===== *)
(** * Files on a cluster

    The client library of Client.v implements the block interface of
    BlockService.v, so the file operations of FileIO.v hold for a file striped
    over the data servers of DataServer.v, request lines included. *)

From S2P Require Import Prelude Types Policies Paths Store DataServer Wire Sessions Client BlockService FileIO Posix.

Section instance.
Context (stack : bytes) (e : env).
Context (fresh_shm : gmap Z bytes -> Z) (matching_server_id : Z).
Context (u : bytes) (di : dataset_info) (im : imss_info).

(** The calls of the file operations for the file [u]. *)
Definition client_ops : BlockOps world := {|
  BSIZE := BLOCK_SIZE e;
  svc_set id buffer size off w :=
    set_data stack e fresh_shm false matching_server_id u id buffer size off false w;
  svc_get id buf n off w := get_ndata stack e fresh_shm matching_server_id u id buf n off w
|}.

Lemma block_of_length w id b :
  world_ok e u di im w -> block_no im id -> 0 < num_storages im ->
  block_of stack u di im w id = Some b -> strlen b = BLOCK_SIZE e.
Proof.
  intros (_ & _ & _ & _ & Hall) [Hid Hb] HN. unfold block_of.
  destruct (servers w !! _) as [s|] eqn:Hs; [|done].
  destruct (HierarchicalMapGet _ _) as [[v|]| |] eqn:Hv; try done. intros [= <-].
  destruct (Forall_lookup_1 _ _ _ _ Hall Hs) as (Hwf & _ & Hsz).
  rewrite (wf_get _ _ _ _ Hwf Hv). apply (Hsz id v); [lia|done].
Qed.

Context (FS : file_session stack e u di im).

Lemma client_get w id buf b n off d :
  world_ok e u di im w -> block_no im id -> block_of stack u di im w id = Some b ->
  0 <= off -> 0 < n -> n <= strlen buf -> read_at b off n = Ret d ->
  prefixb err_code (d ++ drop (length d) buf) = false ->
  get_ndata stack e fresh_shm matching_server_id u id buf n off w
    = Ret (n, d ++ drop (length d) buf, w).
Proof.
  intros Hw Hid Hb Ho Hn Hl Hr Hm. pose proof (fs_block _ _ _ _ _ FS) as HB.
  pose proof (fs_servers _ _ _ _ _ FS).
  pose proof (block_of_length w id b Hw Hid ltac:(lia) Hb) as Hlen.
  assert (off + n <= strlen b).
  { revert Hr. unfold read_at. destruct (_ && _) eqn:E; [|done]. btests. lia. }
  eapply (get_ndata_ok _ _ _ _ _ _ _ FS); try done; lia.
Qed.

#[global] Program Instance client_service : @BlockService world client_ops := {|
  svc_ok := world_ok e u di im;
  svc_no := block_no im;
  svc_block := block_of stack u di im;
  svc_error b := prefixb err_code b
|}.
Next Obligation. exact (fs_block _ _ _ _ _ FS). Qed.
Next Obligation.
  intros s id b Hs Hno Hb. simpl in *. pose proof (fs_servers _ _ _ _ _ FS).
  by apply (block_of_length s id b Hs Hno ltac:(lia)).
Qed.
Next Obligation.
  intros s id buffer p off Hs Hno Hp Ho Hfit Hr. by apply (set_data_ok _ _ _ _ _ _ _ FS).
Qed.
Next Obligation. intros. simpl in *. by eapply client_get. Qed.
End instance.

(** ** A file on the cluster *)

(** No block of the written range starts like the servers' error string. *)
Definition marker_free (BS off size : Z) (buf : bytes) : Prop :=
  forall i, 0 <= i < size -> (i = 0 \/ (off + i) mod BS = 0) -> buf !! Z.to_nat i <> Some dollar.

Lemma marker_free_clean stack e fresh_shm mid u di im
  (FS : file_session stack e u di im) (w : world) (buf out : bytes) (off size : Z) :
  0 <= off -> 0 < size <= strlen buf -> marker_free (BLOCK_SIZE e) off size buf ->
  (forall i, 0 <= i < size ->
     @file_byte world (client_ops stack e fresh_shm mid u)
       (client_service stack e fresh_shm mid u di im FS) w (off + i) = buf !! Z.to_nat i) ->
  @reads_clean world (client_ops stack e fresh_shm mid u)
    (client_service stack e fresh_shm mid u di im FS) w out off size.
Proof.
  intros Ho Hs Hm Hb x d Hx Hstart [Hl Hd]. pose proof (fs_block _ _ _ _ _ FS) as HB.
  assert (0 < strlen d) as Hpos.
  { rewrite Hl. unfold chunk. pose proof (Z.mod_pos_bound x (BLOCK_SIZE e) (proj1 HB)). simpl in *. lia. }
  destruct d as [|c d]; [unfold strlen in Hpos; simpl in Hpos; lia|].
  specialize (Hd 0 ltac:(lia)). rewrite Z.add_0_r in Hd. simpl in Hd.
  specialize (Hb (x - off) ltac:(lia)). replace (off + (x - off)) with x in Hb by lia.
  rewrite Hd in Hb. specialize (Hm (x - off) ltac:(lia)).
  replace (off + (x - off)) with x in Hm by lia.
  simpl. destruct (ascii_eqb "$"%char c) eqn:Ec; [|done]. apply ascii_eqb_true in Ec as <-.
  exfalso. apply Hm; [|done]. destruct Hstart as [->|Hs0]; [left; lia|by right].
Qed.

(** C1. End to end: an application's write to a file striped and replicated over
    the data servers, followed by a read of the same range, returns the bytes
    written, through block arithmetic, location policy, request lines and the
    servers' stores, whenever no block written starts with the character of
    the servers' error string. *)
Theorem cluster_write_read (stack : bytes) (e : env)
  (fresh_shm : gmap Z bytes -> Z) (mid : Z) (u : bytes) (di : dataset_info) (im : imss_info)
  (dceil : Z -> Z -> Z) (buf out : bytes) (size off fd : Z) (st : stat) (f : fstate world)
  (FS : file_session stack e u di im) (Hw : world_ok e u di im (svc f))
  (Hdc : forall x b, 0 <= x < 2 ^ 53 -> 0 < b < 2 ^ 53 -> dceil x b = (x + b - 1) / b)
  (Hfile : files f !! u = Some (fd, st)) (Hfd : fd <> -1)
  (Hoff : 0 <= off) (Hsize : 0 < size <= strlen buf) (Hout : size <= strlen out)
  (Hmax : off + size < 2 ^ 53) (Hst : 0 <= st_size st < 2 ^ 53)
  (Hblocks : num_storages im + ((off + size - 1) / BLOCK_SIZE e + 1) <= 2 ^ 31)
  (Hmark : marker_free (BLOCK_SIZE e) off size buf) :
  let ops := client_ops stack e fresh_shm mid u in
  exists f', @imss_write world ops dceil u buf size off f = Ret (size, f') /\
    @imss_sread world ops dceil u out size off f'
      = Ret (size, take (Z.to_nat size) buf ++ drop (Z.to_nat size) out, f').
Proof.
  intros ops. pose (I := client_service stack e fresh_shm mid u di im FS).
  assert (@blocks_usable world ops I (off + size - 1)) as Hu.
  { intros id Hid. simpl in *. split; lia. }
  destruct (@imss_write_ok world ops I dceil Hdc u buf size off fd st f)
    as (f' & st' & Hwr & Hok' & Hf' & Hst' & Hbytes & _); try done.
  exists f'. split; [done|].
  assert (@reads_clean world ops I (svc f') out off size) as Hcl by by eapply marker_free_clean.
  destruct (@imss_sread_ok world ops I dceil Hdc u out size off fd st' f') as (out' & Hr & Hl & Ht & Hb);
    try done; try lia.
  { intros x Hx. replace x with (off + (x - off)) by lia. rewrite Hbytes by lia.
    apply lookup_lt_is_Some. unfold strlen in *. lia. }
  rewrite Hr. do 2 f_equal. f_equal. rewrite <- (take_drop (Z.to_nat size) out') at 1. rewrite Ht.
  f_equal. apply take_eq_lookup; unfold strlen in *; try lia.
  intros i Hi. by rewrite <- Hb, Hbytes.
Qed.

(** ** Examples: a file with a block size of 4 on two servers *)

Definition div_up (x b : Z) : Z := (x + b - 1) / b.
Definition cluster_state (size : Z) (w : world) : fstate world :=
  mkF w {[ cluster_file := (0, mkStat size 0 1 33188) ]}.
Abbreviation cluster_ops bs := (client_ops [] (big_env bs) (fun _ => -1) 0 cluster_file).
Definition cluster_service (bs repl : Z) (Hbs : 0 < bs < 2 ^ 32) (Hr : 1 <= repl < 2 ^ 31) :=
  client_service [] (big_env bs) (fun _ => -1) 0 cluster_file (cluster_info repl) cluster_imss
    (cluster_session bs repl Hbs Hr).

Lemma cluster_file_state size w : files (cluster_state size w) !! cluster_file = Some (0, mkStat size 0 1 33188).
Proof. apply lookup_singleton_eq. Qed.

Lemma cluster_write_read_witness :
  exists f', @imss_write world (cluster_ops 4) div_up cluster_file (B "hello world") 11 3 (cluster_state 0 (cluster 2))
               = Ret (11, f') /\
    @imss_sread world (cluster_ops 4) div_up cluster_file (B "............") 11 3 f'
      = Ret (11, B "hello world.", f').
Proof.
  apply (cluster_write_read [] (big_env 4) (fun _ => -1) 0 cluster_file (cluster_info 2) cluster_imss
    div_up (B "hello world") (B "............") 11 3 0 (mkStat 0 0 1 33188) (cluster_state 0 (cluster 2))).
  - apply cluster_session; lia.
  - apply cluster_ok.
  - reflexivity.
  - apply cluster_file_state.
  - lia.
  - lia.
  - vm_compute. split; [reflexivity|discriminate].
  - vm_compute. discriminate.
  - lia.
  - simpl. lia.
  - vm_compute. discriminate.
  - intros i Hi _. assert (exists k, i = Z.of_nat k /\ (k < 11)%nat) as (k & -> & Hk).
    { exists (Z.to_nat i). lia. }
    rewrite Nat2Z.id. do 11 (destruct k as [|k]; [vm_compute; discriminate|]). lia.
Defined.

Lemma cluster_blocks last : 0 <= last < 4 * (2 ^ 31 - 3) ->
  @blocks_usable world (cluster_ops 4) (cluster_service 4 2 ltac:(lia) ltac:(lia)) last.
Proof.
  intros Hl id Hid. pose proof (Z.div_le_mono last (4 * (2 ^ 31 - 3) - 1) 4 ltac:(lia) ltac:(lia)) as Hd.
  change ((4 * (2 ^ 31 - 3) - 1) / 4) with (2 ^ 31 - 4) in Hd. simpl in *. split; simpl; lia.
Qed.

Lemma imss_write_stores_witness :
  exists f' st', @imss_write world (cluster_ops 4) div_up cluster_file (B "abcdef") 6 2 (cluster_state 0 (cluster 2))
                   = Ret (6, f') /\
    files f' !! cluster_file = Some (0, st') /\ st_size st' = 8.
Proof.
  destruct (@imss_write_stores world (cluster_ops 4) (cluster_service 4 2 ltac:(lia) ltac:(lia)) div_up
    (fun x b _ _ => eq_refl) cluster_file (B "abcdef") 6 2 0 (mkStat 0 0 1 33188) (cluster_state 0 (cluster 2)))
    as (f' & st' & Hw & _ & Hf & Hs & _).
  - apply cluster_ok.
  - apply cluster_file_state.
  - lia.
  - lia.
  - vm_compute. split; [reflexivity|discriminate].
  - lia.
  - simpl. lia.
  - apply cluster_blocks. lia.
  - exists f', st'. split; [exact Hw|]. split; [exact Hf|exact Hs].
Defined.

(** Two full blocks, stored. *)
Lemma cluster_two_blocks : exists w,
  let I := cluster_service 4 2 ltac:(lia) ltac:(lia) in
  world_ok (big_env 4) cluster_file (cluster_info 2) cluster_imss w /\
  (forall i, 0 <= i < 8 -> @file_byte world _ I w i = B "abcdefgh" !! Z.to_nat i) /\
  (forall out, @reads_clean world _ I w out 0 8).
Proof.
  destruct (@imss_write_ok world (cluster_ops 4) (cluster_service 4 2 ltac:(lia) ltac:(lia)) div_up
    (fun x b _ _ => eq_refl) cluster_file (B "abcdefgh") 8 0 0 (mkStat 0 0 1 33188) (cluster_state 0 (cluster 2)))
    as (f' & st' & _ & Hok & _ & _ & Hb & _); try done.
  - apply cluster_ok.
  - apply cluster_blocks. lia.
  - exists (svc f'). split; [exact Hok|]. split; [exact Hb|]. intros out.
    apply (marker_free_clean [] (big_env 4) (fun _ => -1) 0 cluster_file (cluster_info 2) cluster_imss
      (cluster_session 4 2 ltac:(lia) ltac:(lia)) (svc f') (B "abcdefgh") out 0 8); [lia|done| |exact Hb].
    intros i Hi _. assert (exists k, i = Z.of_nat k /\ (k < 8)%nat) as (k & -> & Hk).
    { exists (Z.to_nat i). lia. }
    rewrite Nat2Z.id. do 8 (destruct k as [|k]; [vm_compute; discriminate|]). lia.
Qed.

Lemma imss_sread_in_range_witness :
  exists w buf', @imss_sread world (cluster_ops 4) div_up cluster_file (B "..........") 8 0 (cluster_state 8 w)
                 = Ret (8, buf', cluster_state 8 w).
Proof.
  destruct cluster_two_blocks as (w & Hok & Hb & Hcl). exists w.
  destruct (@imss_sread_in_range world (cluster_ops 4) (cluster_service 4 2 ltac:(lia) ltac:(lia)) div_up
    (fun x b _ _ => eq_refl) cluster_file (B "..........") 8 0 0 (mkStat 8 0 1 33188) (cluster_state 8 w))
    as (buf' & Hr & _).
  - exact Hok.
  - apply cluster_file_state.
  - lia.
  - lia.
  - vm_compute. split; [reflexivity|discriminate].
  - simpl. lia.
  - apply cluster_blocks. lia.
  - intros x Hx. rewrite Hb by lia. apply lookup_lt_is_Some. simpl. lia.
  - apply Hcl.
  - exists buf'. exact Hr.
Defined.

Lemma imss_sread_past_end_witness :
  exists w buf', @imss_sread world (cluster_ops 4) div_up cluster_file (B "........") 8 0 (cluster_state 6 w)
                 = Ret (8, buf', cluster_state 6 w).
Proof.
  destruct cluster_two_blocks as (w & Hok & Hb & Hcl). exists w.
  assert (exists b1 b2, block_of [] cluster_file (cluster_info 2) cluster_imss w 1 = Some b1 /\
            block_of [] cluster_file (cluster_info 2) cluster_imss w 2 = Some b2) as (b1 & b2 & H1 & H2).
  { pose proof (Hb 0 ltac:(lia)) as E0. pose proof (Hb 4 ltac:(lia)) as E4. unfold file_byte in E0, E4.
    simpl in E0, E4. change (4 / 4) with 1 in E4. change (0 / 4 + 1) with 1 in E0. change (1 + 1) with 2 in E4.
    destruct (block_of [] cluster_file (cluster_info 2) cluster_imss w 1) as [b1|]; [|done].
    destruct (block_of [] cluster_file (cluster_info 2) cluster_imss w 2) as [b2|]; [|done]. by exists b1, b2. }
  destruct (@imss_sread_past_end world (cluster_ops 4) (cluster_service 4 2 ltac:(lia) ltac:(lia)) div_up
    (fun x b _ _ => eq_refl) cluster_file (B "........") b1 b2 0 (mkStat 6 0 1 33188) (cluster_state 6 w))
    as (buf' & Hr & _).
  - exact Hok.
  - apply cluster_file_state.
  - lia.
  - exact H1.
  - exact H2.
  - apply cluster_blocks. simpl. lia.
  - simpl. lia.
  - vm_compute. discriminate.
  - apply Hcl.
  - exists buf'. exact Hr.
Defined.

(** ** Examples: a descriptor on the cluster's file *)

(** A C library that refuses everything but opening descriptor 7. *)
#[global] Instance no_libc : Libc unit := {|
  real_write _ _ _ k := (-1, k);
  real_pwrite _ _ _ _ k := (-1, k);
  real_read _ b _ k := (-1, b, k);
  real_pread _ b _ _ k := (-1, b, k);
  real_lseek _ _ _ k := (-1, k);
  real_fwrite _ _ _ _ k := (0, k);
  real_fread b _ _ _ k := (0, b, k);
  real_fseek _ _ _ k := (-1, k);
  real_rewind _ k := k;
  real_ftell _ k := (-1, k);
  real_dup _ k := (-1, k);
  real_dup2 _ _ k := (-1, k);
  real_open_null k := (7, k)
|}.

Definition cluster_process (pos : Z) (f : fstate world) : pstate world unit :=
  mkP f {[ 3 := (cluster_file, pos) ]} tt 0 ∅ ∅.
Definition no_fetch (path : bytes) (f : fstate world) : Z * stat * fstate world := (- ENOENT, mkStat 0 0 0 0, f).

Lemma cluster_opened size pos w :
  world_ok (big_env 4) cluster_file (cluster_info 2) cluster_imss w ->
  @opened world unit (cluster_ops 4) (cluster_service 4 2 ltac:(lia) ltac:(lia))
    (cluster_process pos (cluster_state size w)) 3 cluster_file pos 0 (mkStat size 0 1 33188).
Proof.
  intros Hw. split; [done|]. split; [apply lookup_singleton_eq|]. split; [apply cluster_file_state|]. done.
Qed.

Lemma sequential_writes_read_back_witness :
  exists p1 p2, @write_all world unit (cluster_ops 4) no_libc div_up 3 [B "ab"; B "cdefg"]
                  (cluster_process 0 (cluster_state 0 (cluster 2))) = Ret (7, p1) /\
    @lseek world unit no_libc div_up no_fetch 3 0 SEEK_SET p1 = (0, p2).
Proof.
  destruct (@sequential_writes_read_back world unit (cluster_ops 4) (cluster_service 4 2 ltac:(lia) ltac:(lia))
    no_libc div_up no_fetch [B "ab"; B "cdefg"] (cluster_process 0 (cluster_state 0 (cluster 2))) 3 cluster_file 0
    (mkStat 0 0 1 33188) (B "........")) as (p1 & p2 & Hw & _ & Hl & _).
  - reflexivity.
  - apply cluster_opened, cluster_ok.
  - reflexivity.
  - lia.
  - repeat constructor; discriminate.
  - vm_compute. split; [reflexivity|discriminate].
  - vm_compute. reflexivity.
  - apply cluster_blocks. vm_compute. split; [discriminate|reflexivity].
  - exists p1, p2. split; [exact Hw|exact Hl].
Defined.

Lemma write_moves_to_size_witness :
  exists w p', @write world unit (cluster_ops 4) no_libc div_up 3 (B "xy") 2 (cluster_process 1 (cluster_state 8 w))
                 = Ret (2, p') /\
    fst (@lseek world unit no_libc div_up no_fetch 3 0 SEEK_CUR p') = 10.
Proof.
  destruct cluster_two_blocks as (w & Hok & _ & _). exists w.
  destruct (@write_moves_to_size world unit (cluster_ops 4) (cluster_service 4 2 ltac:(lia) ltac:(lia))
    no_libc div_up no_fetch (cluster_process 1 (cluster_state 8 w)) 3 cluster_file 1 0 (mkStat 8 0 1 33188)
    (B "xy") 2) as (p' & Hw & _ & Hl & _).
  - reflexivity.
  - by apply cluster_opened.
  - lia.
  - vm_compute. split; [reflexivity|discriminate].
  - simpl. lia.
  - apply cluster_blocks. lia.
  - exists p'. split; [exact Hw|exact Hl].
Defined.

Lemma positional_calls_keep_positions_witness :
  exists p', @pwrite world unit (cluster_ops 4) no_libc div_up 3 (B "xy") 2 5
               (cluster_process 1 (mkF (cluster 2) ∅)) = Ret (-1, p') /\ fds p' = {[ 3 := (cluster_file, 1) ]}.
Proof.
  eexists. split; [vm_compute; reflexivity|].
  apply (@positional_calls_keep_positions world unit (cluster_ops 4) no_libc div_up 3 (B "xy") 2 5
    (cluster_process 1 (mkF (cluster 2) ∅)) _ (-1)).
  left. split; [vm_compute; reflexivity|vm_compute; discriminate].
Defined.

Lemma fseek_end_ignores_offset_witness :
  exists w p1 p2, @fseek world unit no_libc div_up no_fetch 3 (-2) SEEK_END (cluster_process 1 (cluster_state 8 w))
                 = (0, p1) /\
    @lseek world unit no_libc div_up no_fetch 3 (-2) SEEK_END (cluster_process 1 (cluster_state 8 w)) = (6, p2).
Proof.
  exists (cluster 2).
  destruct (@fseek_end_ignores_offset world unit (cluster_ops 4) (cluster_service 4 2 ltac:(lia) ltac:(lia))
    no_libc div_up no_fetch (cluster_process 1 (cluster_state 8 (cluster 2))) 3 cluster_file 1 0 (-2)
    (mkStat 8 0 1 33188)) as (p1 & p2 & Hf & _ & Hl & _).
  - apply cluster_opened, cluster_ok.
  - lia.
  - reflexivity.
  - reflexivity.
  - simpl. lia.
  - simpl. lia.
  - exists p1, p2. split; [exact Hf|exact Hl].
Defined.

Lemma fread_size_and_errors_witness :
  exists p', @fread world unit (cluster_ops 4) no_libc div_up (B "....") 4 1 3
               (cluster_process 5 (mkF (cluster 2) ∅)) = Ret (2 ^ 64 - 2, B "....", p') /\
    fds p' !! 3 = Some (cluster_file, 3).
Proof.
  destruct (@fread_size_and_errors world unit (cluster_ops 4) no_libc div_up
    (cluster_process 5 (mkF (cluster 2) ∅)) 3 cluster_file 5 (B "....") (B "....") 4 1 (mkF (cluster 2) ∅))
    as (_ & p' & Hr & Hp).
  - discriminate.
  - apply lookup_singleton_eq.
  - lia.
  - lia.
  - lia.
  - vm_compute. reflexivity.
  - exists p'. split; [exact Hr|exact Hp].
Defined.

Lemma dup_position_is_separate_witness :
  let p := cluster_process 5 (cluster_state 8 (cluster 2)) in
  fst (@lseek world unit no_libc div_up no_fetch 7 0 SEEK_CUR (snd (@dup world unit no_libc 3 p))) = 0.
Proof.
  intros p.
  destruct (@dup_position_is_separate world unit (cluster_ops 4) (cluster_service 4 2 ltac:(lia) ltac:(lia))
    no_libc div_up no_fetch p (snd (@dup world unit no_libc 3 p)) 3 7 cluster_file 5 0 2 (mkStat 8 0 1 33188))
    as [H _].
  - apply cluster_opened, cluster_ok.
  - reflexivity.
  - lia.
  - lia.
  - lia.
  - exact H.
Defined.

Lemma block_loops_terminate_witness :
  @write_loop world (cluster_ops 4) 9 6 1 2 0 0 false (B "abcdef") (cluster 2)
  = @write_loop world (cluster_ops 4) 2 6 1 2 0 0 false (B "abcdef") (cluster 2).
Proof.
  apply (@block_loops_terminate world (cluster_ops 4) 9 6 0 8 1 2 0 0 false (B "abcdef") (cluster 2)).
  vm_compute. lia.
Defined.
