(* ===== verification/Comms.v ===== *)
(** * Structures on the wire

    [send_dynamic_stream] and [recv_dynamic_stream] (src/src/comms.c): the
    metadata structures travel as the memory of the C struct followed by the
    data its pointers refer to.  The layout is the one of the supported 64-bit
    Linux targets. *)

From S2P Require Import Prelude Types Store DataServer Intervals.

(** ** Memory of a struct *)

Definition NUL : ascii := "000"%char.

(** A [char] array of [n] bytes that was zero before the string was copied
    into it. *)
Definition put_str (n : nat) (s : bytes) : bytes := s ++ repeat NUL (n - length s).

(** The C string at the start of an array. *)
Definition cstr (b : bytes) : bytes :=
  match strchr NUL b with Some i => take i b | None => b end.

Definition get_i32 (b : bytes) : Z := i32 (le_get b).
Definition get_i64 (b : bytes) : Z := i64 (le_get b).

(** The fields of a struct, by their widths. *)
Fixpoint chunks (ws : list nat) (b : bytes) : list bytes :=
  match ws with
  | [] => []
  | w :: ws' => take w b :: chunks ws' (drop w b)
  end.

Definition sum_widths (ws : list nat) : nat := foldr Nat.add 0%nat ws.

(** Widths of the fields and of the padding of [dataset_info]. *)
Definition dataset_widths : list nat :=
  [256; 1; 16; 256; 256; 3; 4; 4; 4; 4; 4; 4; 4; 8; 4; 256; 4; 4; 128; 4; 4; 4; 4; 4; 8]%nat.
Definition sizeof_dataset : Z := 1248.

Definition dataset_chunks (ptr : Z) (d : dataset_info) : list bytes :=
  [put_str 256 (uri_ d); [type_ d]; put_str 16 (policy d); put_str 256 (original_name d);
   put_str 256 (first_parent_dir d); put_str 3 []; le_put 4 (session_plcy d);
   le_put 4 (num_data_elem d); le_put 4 (data_entity_size d); le_put 4 (repl_factor d);
   le_put 4 (repl_type d); le_put 4 (imss_d d); le_put 4 (local_conn d); le_put 8 (dsize d);
   le_put 4 (n_servers d); put_str 256 (link d); le_put 4 (is_link d); le_put 4 (n_open d);
   put_str 128 (status d); le_put 4 (n_servers_when_created d); le_put 4 (num_intervals d);
   le_put 4 (capacity d); le_put 4 (first_block_id d); le_put 4 (last_block_id d);
   le_put 8 (match intervals d with None => 0 | Some _ => ptr end)].

(** The struct read back, with the given interval array. *)
Definition parse_dataset (iv : option (list (option IntervalEntry))) (cs : list bytes)
  : option dataset_info :=
  match cs with
  | [u; ty; po; on; fp; _; sp; nd; de; rf; rt; im; lc; sz; ns; lk; il; no; st; nc; ni; ca; fb; lb; _] =>
      Some (mkDataset (cstr u) (default NUL (ty !! 0%nat)) (cstr po) (cstr on) (cstr fp) (get_i32 sp)
              (get_i32 nd) (get_i32 de) (get_i32 rf) (get_i32 rt) (get_i32 im) (get_i32 lc) (get_i64 sz)
              (get_i32 ns) (cstr lk) (get_i32 il) (get_i32 no) (cstr st) (get_i32 nc) (get_i32 ni)
              (get_i32 ca) (get_i32 fb) (get_i32 lb) iv)
  | _ => None
  end.

(** [IntervalEntry]: three integers. *)
Definition entry_bytes (e : IntervalEntry) : bytes :=
  le_put 4 (value e) ++ le_put 4 (left_interval e) ++ le_put 4 (right_interval e).
Definition parse_entry (b : bytes) : IntervalEntry :=
  mkInterval (get_i32 (take 4 b)) (get_i32 (take 4 (drop 4 b))) (get_i32 (take 4 (drop 8 b))).

Definition imss_widths : list nat := [256; 1; 7; 8; 4; 4; 4; 2; 2]%nat.
Definition sizeof_imss : Z := 288.

Definition imss_chunks (ptr : Z) (i : imss_info) : list bytes :=
  [put_str 256 (imss_uri i); [imss_type i]; put_str 7 []; le_put 8 ptr;
   le_put 4 (num_active_storages i); le_put 4 (num_storages i); le_put 4 (imss_session_plcy i);
   le_put 2 (conn_port i); put_str 2 []].

Definition parse_imss (lines : list bytes) (cs : list bytes) : option imss_info :=
  match cs with
  | [u; ty; _; _; na; n; sp; po; _] =>
      Some (mkImss (cstr u) (default NUL (ty !! 0%nat)) lines (get_i32 na) (get_i32 n) (get_i32 sp)
              (le_get po))
  | _ => None
  end.

(** ** Sending *)

(** [memcpy(offset_pt, struct_->intervals[i], ...)] for each entry. *)
Fixpoint copy_intervals (iv : option (list (option IntervalEntry))) (i n : nat) : outcome bytes :=
  match n with
  | O => Ret []
  | S n' =>
      let* e := interval_at iv i in
      let* rest := copy_intervals iv (S i) n' in
      Ret (entry_bytes e ++ rest)
  end.

(** [DATASET_INFO].  [ptr] is the address of the interval array in the sender;
    a negative count is converted to a huge unsigned one. *)
Definition send_dataset (ptr : Z) (d : dataset_info) : outcome bytes :=
  if num_intervals d <? 0 then Undef OutOfBounds
  else
    let* es := copy_intervals (intervals d) 0 (Z.to_nat (num_intervals d)) in
    Ret (concat (dataset_chunks ptr d) ++ es).

Fixpoint copy_ips (l : list bytes) (n : nat) : outcome bytes :=
  match n with
  | O => Ret []
  | S n' =>
      match l with
      | [] => Undef OutOfBounds
      | ip :: l' => let* rest := copy_ips l' n' in Ret (put_str 512 ip ++ rest)
      end
  end.

(** [IMSS_INFO]: [None] when the buffer cannot be allocated. *)
Definition send_imss (ptr : Z) (i : imss_info) : outcome (option bytes) :=
  if num_storages i <? 0 then Ret None
  else
    let* ls := copy_ips (ips i) (Z.to_nat (num_storages i)) in
    Ret (Some (concat (imss_chunks ptr i) ++ ls)).

(** [STRING]: the characters and the terminator. *)
Definition send_string (m : bytes) : bytes := m ++ [NUL].

(** ** Receiving *)

(** [strncmp("$ERRIMSS_NO_KEY_AVAIL$", msg_data, 22) == 0]; a shorter message
    that agrees with the code is read past its end. *)
Definition is_error (msg : bytes) : outcome bool :=
  if (length msg <? 22)%nat && prefixb msg err_code then Undef OutOfBounds
  else Ret (prefixb err_code msg).

Fixpoint read_entries (n : nat) (b : bytes) : outcome (list IntervalEntry) :=
  match n with
  | O => Ret []
  | S n' =>
      let* e := read_at b 0 12 in
      let* es := read_entries n' (drop 12 b) in
      Ret (parse_entry e :: es)
  end.

(** [DATASET_INFO]: -1 for the error code, otherwise the length and the
    structure.  The array that is allocated has exactly [num_intervals]
    entries; without entries the pointer of the sender is kept, which no
    process can follow unless it is NULL. *)
Definition recv_dataset (msg : bytes) : outcome (Z * option dataset_info) :=
  let* err := is_error msg in
  if err then Ret (-1, None)
  else
    let* st := read_at msg 0 sizeof_dataset in
    let cs := chunks dataset_widths st in
    match parse_dataset None cs with
    | None => Undef OutOfBounds
    | Some d =>
        if 0 <? num_intervals d
        then let* es := read_entries (Z.to_nat (num_intervals d)) (drop (Z.to_nat sizeof_dataset) msg) in
             Ret (i32 (strlen msg), Some (set_intervals (num_intervals d) (Some (Some <$> es)) d))
        else if le_get (default [] (cs !! 24%nat)) =? 0
        then Ret (i32 (strlen msg), Some d)
        else Undef UseAfterFree
    end.

Fixpoint read_lines (n : nat) (b : bytes) : outcome (list bytes) :=
  match n with
  | O => Ret []
  | S n' =>
      let* l := read_at b 0 LINE_LENGTH in
      let* ls := read_lines n' (drop (Z.to_nat LINE_LENGTH) b) in
      Ret (cstr l :: ls)
  end.

(** [IMSS_INFO].  The length is tested before the code is compared. *)
Definition recv_imss (msg : bytes) : outcome (Z * option imss_info) :=
  if (22 <=? strlen msg) && prefixb err_code msg then Ret (-1, None)
  else
    let* st := read_at msg 0 sizeof_imss in
    match parse_imss [] (chunks imss_widths st) with
    | None => Undef OutOfBounds
    | Some i =>
        let* ls := read_lines (Z.to_nat (num_storages i)) (drop (Z.to_nat sizeof_imss) msg) in
        Ret (i32 (strlen msg),
             Some (mkImss (imss_uri i) (imss_type i) ls (num_active_storages i) (num_storages i)
                     (imss_session_plcy i) (conn_port i)))
    end.

(** [STRING] and [BUFFER]. *)
Definition recv_buffer (msg : bytes) : outcome (Z * option bytes) :=
  let* err := is_error msg in
  Ret (if err then (-1, None) else (i32 (strlen msg), Some msg)).

(** ** Fields *)

Lemma length_put_str n s : (length s <= n)%nat -> length (put_str n s) = n.
Proof. intros. unfold put_str. rewrite length_app, repeat_length. lia. Qed.

Lemma cstr_put_str n s : NUL ∉ s -> cstr (put_str n s) = s.
Proof.
  intros Hs. unfold cstr, put_str. destruct (n - length s)%nat as [|k].
  - rewrite app_nil_r. by rewrite (proj2 (strchr_None NUL s)).
  - simpl. rewrite strchr_app_first by done. by rewrite take_app_length.
Qed.

Lemma get_i32_put z : - 2 ^ 31 <= z < 2 ^ 31 -> get_i32 (le_put 4 z) = z.
Proof.
  intros. unfold get_i32, i32. rewrite le_get_put. change (8 * Z.of_nat 4) with 32.
  rewrite Z.add_mod_idemp_l by lia. rewrite Z.mod_small; lia.
Qed.

Lemma get_i64_put z : - 2 ^ 63 <= z < 2 ^ 63 -> get_i64 (le_put 8 z) = z.
Proof.
  intros. unfold get_i64, i64. rewrite le_get_put. change (8 * Z.of_nat 8) with 64.
  rewrite Z.add_mod_idemp_l by lia. rewrite Z.mod_small; lia.
Qed.

Lemma chunks_concat ws (cs : list bytes) rest :
  Forall2 (fun w c => length c = w) ws cs -> chunks ws (concat cs ++ rest) = cs.
Proof.
  induction 1 as [|w c ws cs Hw _ IH]; simpl; [done|].
  rewrite <- app_assoc. rewrite take_app_length', drop_app_length' by done. by rewrite IH.
Qed.

Lemma length_concat_chunks ws (cs : list bytes) :
  Forall2 (fun w c => length c = w) ws cs -> length (concat cs) = sum_widths ws.
Proof. induction 1 as [|w c ws cs Hw _ IH]; simpl; [done|]. rewrite length_app. lia. Qed.

Definition str_fits (n : nat) (s : bytes) : Prop := (NUL ∉ s) /\ (length s <= n)%nat.
Definition int_fits (z : Z) : Prop := - 2 ^ 31 <= z < 2 ^ 31.

(** The values of the fields are ones the C types can hold. *)
Record dataset_fits (d : dataset_info) : Prop := {
  fits_uri : str_fits 256 (uri_ d);
  fits_policy : str_fits 16 (policy d);
  fits_name : str_fits 256 (original_name d);
  fits_parent : str_fits 256 (first_parent_dir d);
  fits_link : str_fits 256 (link d);
  fits_status : str_fits 128 (status d);
  fits_ints : Forall int_fits [session_plcy d; num_data_elem d; data_entity_size d; repl_factor d;
                repl_type d; imss_d d; local_conn d; n_servers d; is_link d; n_open d;
                n_servers_when_created d; num_intervals d; capacity d; first_block_id d; last_block_id d];
  fits_size : - 2 ^ 63 <= dsize d < 2 ^ 63
}.

Definition entry_fits (e : IntervalEntry) : Prop :=
  int_fits (value e) /\ int_fits (left_interval e) /\ int_fits (right_interval e).

Lemma dataset_chunks_widths ptr d :
  dataset_fits d -> Forall2 (fun w c => length c = w) dataset_widths (dataset_chunks ptr d).
Proof.
  intros [[_ Hu] [_ Hp] [_ Hn] [_ Hf] [_ Hl] [_ Hs] _ _].
  unfold dataset_widths, dataset_chunks.
  repeat (apply Forall2_cons; split; [first [apply length_le_put | by apply length_put_str | done]|]).
  apply Forall2_nil. done.
Qed.

Lemma parse_dataset_chunks ptr d :
  dataset_fits d -> forall iv, parse_dataset iv (dataset_chunks ptr d) = Some (set_intervals (num_intervals d) iv d).
Proof.
  intros [[Hu _] [Hp _] [Hn _] [Hf _] [Hl _] [Hs _] Hi Hz] iv.
  rewrite !Forall_cons in Hi. destruct_and! Hi. unfold parse_dataset, dataset_chunks, set_intervals.
  rewrite !cstr_put_str by done. rewrite !get_i32_put by done. by rewrite get_i64_put by done.
Qed.

Lemma parse_entry_bytes e rest : entry_fits e -> parse_entry (entry_bytes e ++ rest) = e.
Proof.
  intros (Hv & Hl & Hr). unfold parse_entry, entry_bytes.
  rewrite <- !app_assoc. rewrite take_app_length' by (by rewrite length_le_put).
  rewrite drop_app_length' by (by rewrite length_le_put).
  rewrite take_app_length' by (by rewrite length_le_put).
  rewrite (app_assoc (le_put 4 (value e))).
  rewrite drop_app_length' by (rewrite length_app, !length_le_put; done).
  rewrite take_app_length' by (by rewrite length_le_put).
  rewrite !get_i32_put by done. by destruct e.
Qed.

Lemma length_entry_bytes e : length (entry_bytes e) = 12%nat.
Proof. unfold entry_bytes. by rewrite !length_app, !length_le_put. Qed.

(** ** Round trips *)

Lemma is_error_other c m : c <> dollar -> is_error (c :: m) = Ret false.
Proof.
  intros Hc. unfold is_error, err_code, B. simpl.
  assert (ascii_eqb c "$"%char = false) as -> by by apply ascii_eqb_false.
  assert (ascii_eqb "$"%char c = false) as -> by (apply ascii_eqb_false; by intros <-).
  by rewrite andb_false_r.
Qed.

(** The code itself, as the server sends it. *)
Lemma is_error_code : is_error (send_string err_code) = Ret true.
Proof. reflexivity. Qed.

Lemma copy_intervals_list pre es extra :
  copy_intervals (Some ((Some <$> (pre ++ es)) ++ extra)) (length pre) (length es)
  = Ret (concat (entry_bytes <$> es)).
Proof.
  revert pre. induction es as [|e es IH]; intros pre; [done|].
  cbn [length copy_intervals]. unfold interval_at.
  rewrite lookup_app_l by (rewrite length_fmap, length_app; simpl; lia).
  rewrite list_lookup_fmap, lookup_app_r, Nat.sub_diag by lia. cbn [obind lookup fmap option_fmap option_map].
  simpl. specialize (IH (pre ++ [e])). rewrite <- app_assoc in IH. simpl in IH.
  rewrite length_app in IH. simpl in IH. rewrite Nat.add_1_r in IH. rewrite IH. done.
Qed.

(** The entries of a well-formed table, copied behind the struct. *)
Lemma copy_intervals_table d es :
  table d es -> copy_intervals (intervals d) 0 (length es) = Ret (concat (entry_bytes <$> es)).
Proof. intros [_ _ [[-> ->]| ->]]; [done|]. apply (copy_intervals_list [] es). Qed.

Lemma read_at_prefix a b n : n = strlen a -> read_at (a ++ b) 0 n = Ret a.
Proof.
  intros ->. unfold read_at. rewrite strlen_app. pose proof (strlen_nonneg a). pose proof (strlen_nonneg b).
  assert ((0 <=? 0) && (0 <=? strlen a) && (0 + strlen a <=? strlen a + strlen b) = true) as ->
    by (rewrite !andb_true_iff, !Z.leb_le; lia).
  unfold strlen. rewrite Nat2Z.id, drop_0. by rewrite take_app_length.
Qed.

Lemma read_entries_concat es rest :
  Forall entry_fits es ->
  read_entries (length es) (concat (entry_bytes <$> es) ++ rest) = Ret es.
Proof.
  induction 1 as [|e es He _ IH]; [done|]. cbn [length read_entries fmap list_fmap concat].
  rewrite <- app_assoc. rewrite read_at_prefix by (unfold strlen; by rewrite length_entry_bytes).
  cbn [obind]. rewrite drop_app_length' by (by rewrite length_entry_bytes). rewrite IH.
  cbn [obind]. rewrite <- (app_nil_r (entry_bytes e)). by rewrite parse_entry_bytes.
Qed.

Lemma concat_dataset_head ptr d x p :
  uri_ d = x :: p -> exists m, concat (dataset_chunks ptr d) = x :: m.
Proof. intros H. unfold dataset_chunks. rewrite H. simpl. eauto. Qed.

Lemma strlen_dataset ptr d : dataset_fits d -> strlen (concat (dataset_chunks ptr d)) = sizeof_dataset.
Proof.
  intros H%(dataset_chunks_widths ptr). apply length_concat_chunks in H. unfold strlen. by rewrite H.
Qed.

(** What the receiver gets: the same structure, with an array of exactly the
    used entries. *)
Definition received (d : dataset_info) (es : list IntervalEntry) : dataset_info :=
  set_intervals (num_intervals d) (match es with [] => None | _ => Some (Some <$> es) end) d.

Lemma send_dataset_eq ptr d es :
  table d es ->
  send_dataset ptr d = Ret (concat (dataset_chunks ptr d) ++ concat (entry_bytes <$> es)).
Proof.
  intros Ht. unfold send_dataset. rewrite (table_num _ _ Ht).
  destruct (Z.ltb_spec (Z.of_nat (length es)) 0); [lia|].
  rewrite Nat2Z.id, (copy_intervals_table _ _ Ht). done.
Qed.

Lemma recv_dataset_eq ptr d es x p :
  uri_ d = x :: p -> x <> dollar -> dataset_fits d -> table d es -> Forall entry_fits es ->
  (es = [] -> intervals d = None) ->
  let msg := concat (dataset_chunks ptr d) ++ concat (entry_bytes <$> es) in
  recv_dataset msg = Ret (i32 (strlen msg), Some (received d es)).
Proof.
  intros Hu Hx Hf Ht Hes Hnil msg. unfold recv_dataset.
  assert (exists m, msg = x :: m) as [m Hm].
  { destruct (concat_dataset_head ptr d x p Hu) as [m Hm]. unfold msg. rewrite Hm. by eexists. }
  rewrite Hm at 1. rewrite is_error_other by done. cbn [obind].
  unfold msg at 1. rewrite read_at_prefix by by rewrite strlen_dataset. cbn [obind].
  rewrite <- (app_nil_r (concat (dataset_chunks ptr d))).
  rewrite chunks_concat by by apply dataset_chunks_widths.
  rewrite parse_dataset_chunks by done. rewrite ?app_nil_r.
  change (num_intervals (set_intervals (num_intervals d) None d)) with (num_intervals d).
  rewrite (table_num _ _ Ht).
  assert (drop (Z.to_nat sizeof_dataset) msg = concat (entry_bytes <$> es)) as ->.
  { unfold msg. apply drop_app_length'. pose proof (strlen_dataset ptr d Hf) as Hl. unfold strlen in Hl. lia. }
  destruct es as [|e es].
  - assert (dataset_chunks ptr d !! 24%nat = Some (le_put 8 0)) as ->.
    { unfold dataset_chunks. by rewrite Hnil. }
    unfold received. by rewrite (table_num _ _ Ht).
  - destruct (Z.ltb_spec 0 (Z.of_nat (length (e :: es)))); [|simpl in *; lia].
    rewrite Nat2Z.id, <- (app_nil_r (concat _)), read_entries_concat by done. cbn [obind].
    unfold received. rewrite (table_num _ _ Ht). done.
Qed.

(** C24. A dataset structure that is sent arrives field by field: the receiver
    decodes exactly the sender's values and interval entries, the message has
    the size of the struct plus 12 bytes per entry, and it is never taken for
    the error code. *)
Theorem dataset_stream_roundtrip (ptr : Z) (d : dataset_info) (es : list IntervalEntry)
  (Hu : rooted (uri_ d)) (Hf : dataset_fits d) (Ht : table d es) (Hes : Forall entry_fits es)
  (Hnil : es = [] -> intervals d = None) :
  exists msg, send_dataset ptr d = Ret msg /\
    strlen msg = sizeof_dataset + 12 * Z.of_nat (length es) /\
    recv_dataset msg = Ret (i32 (strlen msg), Some (received d es)).
Proof.
  eexists. split; [by apply send_dataset_eq|]. split.
  - rewrite strlen_app, strlen_dataset by done. f_equal. unfold strlen.
    clear. induction es as [|e es IH]; [done|]. cbn [fmap list_fmap concat length].
    rewrite length_app, length_entry_bytes. lia.
  - destruct Hu as [p Hp]. eapply recv_dataset_eq; try done; [exact Hp|discriminate].
Qed.

Lemma sample_fits : dataset_fits (sample_dataset 4).
Proof.
  split; try (split; [apply strchr_None; reflexivity|simpl; lia]); [|simpl; lia].
  repeat constructor; unfold int_fits; simpl; lia.
Qed.

Lemma dataset_stream_roundtrip_witness :
  exists msg, send_dataset 4096 (sample_dataset 4) = Ret msg /\
    strlen msg = sizeof_dataset + 12 * Z.of_nat (length (@nil IntervalEntry)) /\
    recv_dataset msg = Ret (i32 (strlen msg), Some (received (sample_dataset 4) [])).
Proof.
  apply (dataset_stream_roundtrip 4096 (sample_dataset 4) []).
  - by exists (B "f").
  - apply sample_fits.
  - apply sample_table.
  - constructor.
  - done.
Defined.

(** The array of a received dataset has no free slot, whatever its [capacity]
    says: recording an interval that no received one contains writes past the
    allocation, although the sender's table had room for it. *)
Theorem received_table_overflows (d : dataset_info) (es : list IntervalEntry) (v l r : Z)
  (Ht : table d es) (Hne : es <> []) (Hlr : l <= r) (Hroom : Z.of_nat (length es) < capacity d)
  (Hnone : Forall (fun e => contains l r e = false) es) :
  (exists d', SetInterval d v l r = Ret d') /\
  SetInterval (received d es) v l r = Undef OutOfBounds.
Proof.
  split; [destruct (SetInterval_table d es v l r Ht Hlr Hroom) as (d' & ? & _); eauto|].
  unfold SetInterval. destruct (Z.ltb_spec r l); [lia|]. unfold GetIntervalPointer, received.
  destruct es as [|e es]; [done|]. cbn [intervals num_intervals set_intervals].
  rewrite (table_num _ _ Ht), Nat2Z.id.
  pose proof (scan_intervals_find (fun e0 => (left_interval e0 <=? l) && (r <=? right_interval e0))
    (e :: es) [] []) as Hs. rewrite app_nil_r in Hs. cbn [length app] in *. rewrite Hs. cbn [obind].
  assert (list_find (fun e0 => (left_interval e0 <=? l) && (r <=? right_interval e0) = true) (e :: es)
          = None) as ->.
  { apply list_find_None. eapply Forall_impl; [done|]. intros e0 He.
    unfold contains in He. by rewrite <- not_true_iff_false in He. }
  unfold store_interval. cbn [intervals num_intervals set_intervals].
  rewrite Nat2Z.id, length_fmap. by rewrite Nat.ltb_irrefl.
Qed.

Lemma received_table_overflows_witness :
  (exists d', SetInterval (set_intervals 1 (Some [Some (mkInterval 2 1 8); None]) (sample_dataset 2)) 3 9 20
              = Ret d') /\
  SetInterval (received (set_intervals 1 (Some [Some (mkInterval 2 1 8); None]) (sample_dataset 2))
                 [mkInterval 2 1 8]) 3 9 20 = Undef OutOfBounds.
Proof.
  apply (received_table_overflows
           (set_intervals 1 (Some [Some (mkInterval 2 1 8); None]) (sample_dataset 2)) [mkInterval 2 1 8] 3 9 20).
  - split; simpl; [done|lia|by right].
  - done.
  - lia.
  - simpl. lia.
  - by repeat constructor.
Defined.

(** ** Instances *)

Record imss_fits (i : imss_info) : Prop := {
  ifits_uri : str_fits 256 (imss_uri i);
  ifits_ips : Forall (str_fits 512) (ips i);
  ifits_num : num_storages i = Z.of_nat (length (ips i));
  ifits_ints : Forall int_fits [num_active_storages i; num_storages i; imss_session_plcy i];
  ifits_port : 0 <= conn_port i < 2 ^ 16
}.

Lemma imss_chunks_widths ptr i :
  imss_fits i -> Forall2 (fun w c => length c = w) imss_widths (imss_chunks ptr i).
Proof.
  intros [[_ Hu] _ _ _ _]. unfold imss_widths, imss_chunks.
  repeat (apply Forall2_cons; split; [first [apply length_le_put | by apply length_put_str | done]|]).
  apply Forall2_nil. done.
Qed.

Lemma copy_ips_lines l :
  copy_ips l (length l) = Ret (concat (put_str 512 <$> l)).
Proof. induction l as [|ip l IH]; [done|]. cbn [length copy_ips]. by rewrite IH. Qed.

Lemma read_lines_concat l rest :
  Forall (str_fits 512) l -> read_lines (length l) (concat (put_str 512 <$> l) ++ rest) = Ret l.
Proof.
  induction 1 as [|ip l [Hn Hl] _ IH]; [done|]. cbn [length read_lines fmap list_fmap concat].
  rewrite <- app_assoc. rewrite read_at_prefix by (unfold strlen; by rewrite length_put_str).
  cbn [obind]. rewrite drop_app_length' by (by rewrite length_put_str).
  rewrite IH. cbn [obind]. by rewrite cstr_put_str.
Qed.

(** An instance structure with its host names survives the same trip. *)
Theorem imss_stream_roundtrip (ptr : Z) (i : imss_info)
  (Hu : rooted (imss_uri i)) (Hf : imss_fits i) :
  exists msg, send_imss ptr i = Ret (Some msg) /\
    strlen msg = sizeof_imss + LINE_LENGTH * num_storages i /\
    recv_imss msg = Ret (i32 (strlen msg), Some i).
Proof.
  pose proof (imss_chunks_widths ptr i Hf) as Hw. pose proof (length_concat_chunks _ _ Hw) as Hlen.
  destruct Hf as [[Hu0 Hu1] Hips Hnum Hints Hport].
  rewrite !Forall_cons in Hints. destruct_and! Hints.
  unfold send_imss. rewrite Hnum. destruct (Z.ltb_spec (Z.of_nat (length (ips i))) 0); [lia|].
  rewrite Nat2Z.id, copy_ips_lines. cbn [obind]. eexists. split; [done|].
  assert (strlen (concat (imss_chunks ptr i)) = sizeof_imss) as Hs by (unfold strlen; by rewrite Hlen).
  split.
  - rewrite strlen_app, Hs. f_equal. unfold strlen. clear -Hips.
    induction Hips as [|ip l [_ Hl] _ IH]; [done|]. cbn [fmap list_fmap concat length].
    rewrite length_app, length_put_str by done. unfold LINE_LENGTH in *. lia.
  - destruct Hu as [p Hp]. unfold recv_imss.
    assert (prefixb err_code (concat (imss_chunks ptr i) ++ concat (put_str 512 <$> ips i)) = false) as ->.
    { unfold imss_chunks. rewrite Hp. reflexivity. }
    rewrite andb_false_r, read_at_prefix by done. cbn [obind].
    rewrite <- (app_nil_r (concat (imss_chunks ptr i))) at 1. rewrite chunks_concat by done.
    unfold imss_chunks at 1. cbn [parse_imss num_storages imss_uri imss_type num_active_storages
      imss_session_plcy conn_port ips].
    rewrite drop_app_length' by (unfold strlen in Hs; lia).
    rewrite !get_i32_put by done. rewrite Hnum, Nat2Z.id.
    rewrite <- (app_nil_r (concat (put_str 512 <$> ips i))) at 1. rewrite read_lines_concat by done.
    cbn [obind]. rewrite cstr_put_str by done. do 4 f_equal.
    rewrite le_get_put. change (8 * Z.of_nat 2) with 16. rewrite Z.mod_small by done.
    rewrite <- Hnum. by destruct i.
Qed.

Definition sample_imss : imss_info :=
  mkImss (B "imss://") TYPE_HERCULES_INSTANCE [B "node0"; B "node1"] 2 2 0 7500.

Lemma imss_stream_roundtrip_witness :
  exists msg, send_imss 4096 sample_imss = Ret (Some msg) /\
    strlen msg = sizeof_imss + LINE_LENGTH * num_storages sample_imss /\
    recv_imss msg = Ret (i32 (strlen msg), Some sample_imss).
Proof.
  apply (imss_stream_roundtrip 4096 sample_imss); [by exists []|].
  split; [split; [apply strchr_None; reflexivity|simpl; lia]| |done| |simpl; lia].
  - repeat constructor; try (apply strchr_None; reflexivity); simpl; lia.
  - repeat constructor; unfold int_fits; simpl; lia.
Defined.
