(* ===== verification/MetaStore.v ===== *)
(** * The store of a metadata server

    [HierarchicalRecords] and [map_records] of Store.v with metadata
    structures at the addresses: the operations of src/src/records.cpp and
    src/src/hierarchical_records.cpp that only a metadata server runs.  The
    tree pointer of an entry is always NULL there and left out. *)

From Stdlib Require Import Sorted.
From S2P Require Import Prelude Types Paths Store DataServer Comms.

(** What an address of the metadata store points to: an instance, a dataset,
    or memory that was freed after the entry was made. *)
Inductive meta_obj := Instance_ (i : imss_info) | Dataset (d : dataset_info) | Freed.

(** [TYPE_METADATA_SERVER]: the [type] byte, at the same offset of both
    structures. *)
#[global] Instance meta_server_type : ServerType meta_obj := fun o =>
  match o with
  | Dataset d => Ret (ascii_eqb (type_ d) TYPE_DIRECTORY)
  | Instance_ i => Ret (ascii_eqb (imss_type i) TYPE_DIRECTORY)
  | Freed => Undef UseAfterFree
  end.

Abbreviation meta_map := (map_records meta_obj).
Abbreviation meta_store := (HierarchicalRecords meta_obj).

(** ** [map_records] *)

(** [delete_metadata_stat_worker]: -1, or the number of erased entries. *)
Definition delete_metadata_stat_worker (key : bytes) (m : meta_map) : Z * meta_map :=
  match buffer m !! key with
  | None => (-1, m)
  | Some _ => (1, set_buffer (delete key (buffer m)) m)
  end.

(** [strncpy(data->uri_, ..., URI_)]; both structures start with [uri_]. *)
Definition set_obj_uri (u : bytes) (o : meta_obj) : meta_obj :=
  let u := take (Z.to_nat URI_) u in
  match o with
  | Dataset d => Dataset (set_uri u d)
  | Instance_ i => Instance_ (mkImss u (imss_type i) (ips i) (num_active_storages i) (num_storages i)
                               (imss_session_plcy i) (conn_port i))
  | Freed => Freed
  end.

(** The keys of a directory rename: [old_dir] occurs in the key and the
    character after its length is a slash. *)
Definition in_old_meta_dir (old_dir key : bytes) : bool :=
  match find_sub old_dir key with
  | None => false
  | Some _ =>
      match key !! length old_dir with
      | Some c => ascii_eqb c slash
      | None => true
      end
  end.

Definition moved_name (old_dir rdir_dest key : bytes) : bytes :=
  rdir_dest ++ drop (length old_dir) key.

(** [rename_metadata_dir_stat_worker]: first the [uri_] of every entry, then
    the keys, both in key order. *)
Definition rename_metadata_dir_stat_worker (old_dir rdir_dest : bytes) (m : meta_map) : Z * meta_map :=
  let vec := List.filter (in_old_meta_dir old_dir) (keys_of (buffer m)) in
  let b1 := fold_left (fun b k =>
              alter (fun v => mkBuf (set_obj_uri (moved_name old_dir rdir_dest k) (data v)) (bsize v)) k b)
              vec (buffer m) in
  (0, set_buffer (fold_left (fun b k => move_node k (moved_name old_dir rdir_dest k) b) vec b1) m).

(** [cleaning] with the type of a metadata server: the entry of every listed
    name goes, without its last slash; no block memory is counted. *)
Definition clean_metadata (m : meta_map) : meta_map :=
  fold_left (fun m g => snd (delete_metadata_stat_worker (snd (RemoveLastSlash g)) m))
    (buffer_garbage_collector m) (set_garbage [] m).

(** ** [HierarchicalRecords] *)

Definition HierarchicalMapDeleteEntry (key : bytes) (h : meta_store) : outcome (Z * meta_store) :=
  let* d := parent_dir key in
  match hiermap h !! d with
  | Some m =>
      let '(r, m') := delete_metadata_stat_worker key m in
      Ret (r, set_hiermap (<[d := m']> (hiermap h)) h)
  | None => Ret (-1, h)
  end.

(** The loop of [HierarchicalMapListDir]: the name of every entry but the
    directory itself, [URI_] bytes apart.  A longer name runs into the next
    slot. *)
Fixpoint list_entries (desired_dir : bytes) (names : list bytes) (pos : Z) (buf : bytes)
  : outcome (Z * bytes) :=
  match names with
  | [] => Ret (pos, buf)
  | f :: names' =>
      if streq f desired_dir then list_entries desired_dir names' pos buf
      else
        let* buf := write_at buf (pos * URI_) f in
        list_entries desired_dir names' (pos + 1) buf
  end.

Definition zeros (n : Z) : bytes := repeat NUL (Z.to_nat n).

(** [HierarchicalMapListDir]: -1 for an unknown directory, otherwise the
    number of entries with the buffer, which is NULL when there are none. *)
Definition HierarchicalMapListDir (desired_dir : bytes) (h : meta_store) : outcome (Z * option bytes) :=
  match hiermap h !! desired_dir with
  | None => Ret (-1, None)
  | Some m =>
      let names := keys_of (buffer m) in
      match names with
      | [] => Ret (0, None)
      | _ =>
          let* (n, buf) := list_entries desired_dir names 0
                             (zeros ((Z.of_nat (length names) + 1) * URI_)) in
          Ret (n, if n =? 0 then None else Some buf)
      end
  end.

(** [BackEndHierarchicalMapRenameDirDir] of a metadata server. *)
Definition rename_dir_metadata (old_dir rdir_dest : bytes) (h : meta_store) : outcome (Z * meta_store) :=
  match get_dir_unsafe old_dir h with
  | None => Ret (-1, h)
  | Some m =>
      let* d := parent_dir old_dir in
      match get_dir_unsafe d h with
      | None => Ret (-1, h)
      | Some _ =>
          let '(_, m') := rename_metadata_dir_stat_worker old_dir rdir_dest m in
          let h := set_hiermap (<[old_dir := m']> (hiermap h)) h in
          let pm := default empty_map (hiermap h !! d) in
          let '(_, pm') := update_key old_dir rdir_dest pm in
          Ret (0, set_hiermap (<[d := pm']> (hiermap h)) h)
      end
  end.

(** [HierarchicalMapCleanGarbageCollector] of a metadata server. *)
Definition clean_metadata_store (h : meta_store) : meta_store :=
  fold_left (fun h d => match hiermap h !! d with
                        | Some m => set_hiermap (<[d := clean_metadata m]> (hiermap h)) h
                        | None => h
                        end) (dirs_of h) h.

(** ** Lookups and changes *)

Section Changes.
Context {A : Type}.
Implicit Types (h : HierarchicalRecords A) (m : map_records A) (b : gmap bytes (BufferValue A)).

Lemma HGet_set_dir k d d' m h :
  parent_dir k = Ret d ->
  HierarchicalMapGet k (set_hiermap (<[d' := m]> (hiermap h)) h)
  = if decide (d = d') then Ret (buffer m !! k) else HierarchicalMapGet k h.
Proof.
  intros Hd. rewrite !(HGet_eq _ _ _ Hd). simpl. case_decide as E.
  - subst. by rewrite lookup_insert_eq.
  - by rewrite lookup_insert_ne.
Qed.

(** A sequence of moves whose targets are free and no source: every entry is
    found under its new name and nothing else changes. *)
Lemma fold_move_lookup (f : bytes -> bytes) vec b :
  NoDup vec ->
  (forall k k', k ∈ vec -> k' ∈ vec -> f k <> k') ->
  (forall k k', k ∈ vec -> k' ∈ vec -> f k = f k' -> k = k') ->
  (forall k, k ∈ vec -> b !! f k = None) ->
  let b' := fold_left (fun b k => move_node k (f k) b) vec b in
  (forall k, k ∈ vec -> b' !! f k = b !! k /\ b' !! k = None) /\
  (forall x, x ∉ vec -> (forall k, k ∈ vec -> f k <> x) -> b' !! x = b !! x).
Proof.
  intros Hnd. revert b. induction Hnd as [|k vec Hk Hnd IH]; intros b Hne Hinj Hfree; cbv zeta.
  - split; [intros k Hk; by apply not_elem_of_nil in Hk|done].
  - assert (f k <> k) as Hfk by (apply Hne; set_solver).
    assert (k <> f k) as Hfk' by done.
    pose proof (fun x => move_node_lookup k (f k) b x Hfk') as Hmv.
    destruct (IH (move_node k (f k) b)) as [H1 H2]; [set_solver|set_solver| |].
    { intros x Hx. rewrite Hmv. case_decide as E1; [done|]. case_decide as E2.
      - assert (x = k) by (apply Hinj; set_solver). by subst.
      - apply Hfree. set_solver. }
    cbn [fold_left]. split.
    + intros x [->|Hx]%elem_of_cons.
      * assert (forall k0, k0 ∈ vec -> f k0 <> f k) as Hd.
        { intros k0 Hk0 He. assert (k0 = k) by (apply Hinj; set_solver). by subst. }
        split.
        -- rewrite (H2 (f k)), Hmv.
           ++ rewrite decide_False, decide_True by done. by rewrite Hfree by set_solver.
           ++ intros Hin. by eapply (Hne k (f k)); set_solver.
           ++ done.
        -- rewrite (H2 k), Hmv; [by rewrite decide_True|done|].
           intros k0 Hk0. apply Hne; set_solver.
      * destruct (H1 x Hx) as [E1 E2]. split; [|exact E2]. etrans; [exact E1|].
        rewrite Hmv, decide_False, decide_False; [done| |by intros ->].
        intros ->. by eapply (Hne k (f k)); set_solver.
    + intros x Hx Hfx.
      rewrite (H2 x) by set_solver. rewrite Hmv, decide_False, decide_False; [done| |set_solver].
      intros ->. by apply (Hfx k); [set_solver|].
Qed.

Lemma fold_alter_lookup (g : bytes -> BufferValue A -> BufferValue A) vec b x :
  NoDup vec ->
  fold_left (fun b k => alter (g k) k b) vec b !! x = if decide (x ∈ vec) then g x <$> b !! x else b !! x.
Proof.
  intros Hnd. revert b. induction Hnd as [|k vec Hk Hnd IH]; intros b; [done|].
  cbn [fold_left]. rewrite IH. destruct (decide (x = k)) as [->|Hne].
  - rewrite decide_False, decide_True by set_solver. by rewrite lookup_alter_eq.
  - rewrite lookup_alter_ne by done.
    destruct (decide (x ∈ vec)) as [Hx|Hx]; [by rewrite decide_True by set_solver|].
    by rewrite decide_False by set_solver.
Qed.

Lemma NoDup_filter_keys P b : NoDup (List.filter P (keys_of b)).
Proof.
  apply NoDup_ListNoDup, List.NoDup_filter, NoDup_ListNoDup. rewrite keys_of_perm.
  apply NoDup_fst_map_to_list.
Qed.

Lemma elem_of_filter_keys P b k : k ∈ List.filter P (keys_of b) <-> P k = true /\ is_Some (b !! k).
Proof. rewrite list_elem_of_In, filter_In, <- list_elem_of_In, elem_of_keys_of. tauto. Qed.

End Changes.

(** ** Listing *)

Lemma bytes_leb_refl a : bytes_leb a a = true.
Proof. induction a as [|x a IH]; [done|]. simpl. by rewrite Z.ltb_irrefl. Qed.

Lemma bytes_leb_total a b : bytes_leb a b = false -> bytes_leb b a = true.
Proof.
  revert b. induction a as [|x a IH]; intros [|y b]; simpl; try done.
  destruct (byteZ x <? byteZ y); [done|]. destruct (byteZ y <? byteZ x) eqn:E; [done|].
  apply IH.
Qed.

Lemma bytes_leb_trans a b c : bytes_leb a b = true -> bytes_leb b c = true -> bytes_leb a c = true.
Proof.
  revert b c. induction a as [|x a IH]; intros [|y b] [|z c]; simpl; try done.
  destruct (Z.ltb_spec (byteZ x) (byteZ y)); destruct (Z.ltb_spec (byteZ y) (byteZ x));
  destruct (Z.ltb_spec (byteZ y) (byteZ z)); destruct (Z.ltb_spec (byteZ z) (byteZ y));
  destruct (Z.ltb_spec (byteZ x) (byteZ z)); destruct (Z.ltb_spec (byteZ z) (byteZ x));
    try done; try lia. apply IH.
Qed.

Abbreviation key_order := (StronglySorted (fun a b => bytes_leb a b = true)).

Lemma insert_key_sorted k l : key_order l -> key_order (insert_key k l).
Proof.
  induction 1 as [|x l Hs IH Hx]; simpl; [by repeat constructor|].
  destruct (bytes_leb k x) eqn:E.
  - constructor; [by constructor|]. constructor; [done|].
    eapply Forall_impl; [done|]. intros y Hy. by eapply bytes_leb_trans.
  - constructor; [done|]. rewrite insert_key_perm. constructor; [by apply bytes_leb_total|done].
Qed.

Lemma keys_of_sorted {A} (b : gmap bytes (BufferValue A)) : key_order (keys_of b).
Proof.
  unfold keys_of. induction ((map_to_list b).*1) as [|k l IH]; simpl; [constructor|].
  by apply insert_key_sorted.
Qed.

(** The names a listing shows. *)
Definition children (dir : bytes) (m : meta_map) : list bytes :=
  List.filter (fun f => negb (streq f dir)) (keys_of (buffer m)).

Lemma zeros_app a b : 0 <= a -> 0 <= b -> zeros (a + b) = zeros a ++ zeros b.
Proof. intros. unfold zeros. rewrite Z2Nat.inj_add by lia. apply repeat_app. Qed.

Lemma strlen_zeros n : 0 <= n -> strlen (zeros n) = n.
Proof. intros. unfold strlen, zeros. rewrite repeat_length. lia. Qed.

Lemma write_slot pre f k :
  (length f <= 256)%nat -> 1 <= k ->
  write_at (pre ++ zeros (k * URI_)) (strlen pre) f
  = Ret ((pre ++ put_str 256 f) ++ zeros ((k - 1) * URI_)).
Proof.
  intros Hf Hk. unfold write_at, URI_ in *. rewrite strlen_app, strlen_zeros by lia.
  assert ((0 <=? strlen pre) && (strlen pre + strlen f <=? strlen pre + k * 256) = true) as ->.
  { rewrite andb_true_iff, !Z.leb_le. unfold strlen. lia. }
  f_equal. unfold strlen. rewrite Nat2Z.id, take_app_length, <- app_assoc. f_equal.
  rewrite <- drop_drop, drop_app_length. unfold put_str. rewrite <- app_assoc. f_equal.
  replace (k * 256) with (256 + (k - 1) * 256) by lia. rewrite zeros_app by lia.
  rewrite drop_app_le by (unfold zeros; rewrite repeat_length; lia). f_equal.
  unfold zeros. replace (Z.to_nat 256) with (length f + (256 - length f))%nat by lia.
  rewrite repeat_app. apply drop_app_length'. by rewrite repeat_length.
Qed.

Lemma list_entries_spec dir names pos pre k :
  Forall (fun f => (length f <= 256)%nat) names -> strlen pre = pos * URI_ ->
  Z.of_nat (length names) <= k ->
  let shown := List.filter (fun f => negb (streq f dir)) names in
  list_entries dir names pos (pre ++ zeros (k * URI_))
  = Ret (pos + Z.of_nat (length shown),
         (pre ++ concat (put_str 256 <$> shown)) ++ zeros ((k - Z.of_nat (length shown)) * URI_)).
Proof.
  intros Hall. revert pos pre k. induction Hall as [|f names Hf _ IH]; intros pos pre k Hpre Hk; cbv zeta.
  - simpl. rewrite app_nil_r. do 3 f_equal; [|f_equal]; lia.
  - cbn [list_entries List.filter]. simpl length in Hk. destruct (streq f dir); simpl negb; cbv iota.
    + rewrite IH by (done || lia). done.
    + rewrite <- Hpre, write_slot by (done || lia). cbn [obind].
      rewrite IH; [|rewrite strlen_app, Hpre; unfold strlen; rewrite length_put_str by done; unfold URI_; lia|lia].
      cbn [length fmap list_fmap concat]. rewrite <- !app_assoc. do 2 f_equal; [lia|].
      do 3 f_equal. f_equal. lia.
Qed.

(** A directory that has entries answers with exactly their names, in key
    order, each in a zero-padded slot of [URI_] bytes; an empty one with 0 and
    an unknown one with -1. *)
Theorem HierarchicalMapListDir_spec (dir : bytes) (h : meta_store) :
  match hiermap h !! dir with
  | None => HierarchicalMapListDir dir h = Ret (-1, None)
  | Some m =>
      Forall (fun f => (length f <= 256)%nat) (keys_of (buffer m)) ->
      key_order (children dir m) /\
      (forall f, f ∈ children dir m <-> is_Some (buffer m !! f) /\ f <> dir) /\
      exists tail, HierarchicalMapListDir dir h =
        Ret (Z.of_nat (length (children dir m)),
             if decide (children dir m = []) then None
             else Some (concat (put_str 256 <$> children dir m) ++ tail))
  end.
Proof.
  destruct (hiermap h !! dir) as [m|] eqn:Hm; unfold HierarchicalMapListDir; rewrite Hm; [|done].
  intros Hall. split; [|split].
  - unfold children. pose proof (keys_of_sorted (buffer m)) as Hs. clear Hall.
    induction Hs as [|x l _ IH Hx]; simpl; [constructor|]. case_match; [|done]. constructor; [done|].
    apply Forall_forall. intros y Hy. rewrite list_elem_of_In, filter_In, <- list_elem_of_In in Hy.
    rewrite Forall_forall in Hx. apply Hx, Hy.
  - intros f. unfold children. rewrite elem_of_filter_keys, negb_true_iff, streq_false. tauto.
  - destruct (keys_of (buffer m)) as [|x l] eqn:Hk.
    + exists []. unfold children. by rewrite Hk.
    + pose proof (list_entries_spec dir (x :: l) 0 [] (Z.of_nat (length (x :: l)) + 1) Hall eq_refl) as Hls.
      cbn [app] in Hls. rewrite Hls by lia. cbn [obind]. rewrite Z.add_0_l.
      change (List.filter _ (x :: l)) with (List.filter (fun f => negb (streq f dir)) (x :: l)).
      unfold children. rewrite Hk.
      set (shown := List.filter (fun f => negb (streq f dir)) (x :: l)). clearbody shown.
      eexists. destruct shown as [|y shown]; [done|]. rewrite decide_False by done.
      destruct (Z.eqb_spec (Z.of_nat (length (y :: shown))) 0); [simpl in *; lia|]. done.
Qed.

(** ** Renaming a directory *)

Lemma parent_dir_child d c :
  rooted d -> slash ∉ c -> c <> [] -> parent_dir (d ++ slash :: c) = Ret d.
Proof.
  intros [p ->] Hc Hne. unfold parent_dir. rewrite <- app_assoc.
  rewrite <- (app_nil_r c), (find_last_parent_dir_in p c []) by auto. done.
Qed.

Lemma parent_dir_length k d : parent_dir k = Ret d -> (length d <= length k)%nat.
Proof.
  unfold parent_dir, find_last_parent_dir. destruct (Nat.ltb_spec (length k) IMSS_ROOT_LEN); [done|].
  destruct (strrchr _ _); intros [= <-]; [rewrite length_take; lia|]. done.
Qed.

Lemma child_inj u v c c' :
  slash ∉ c -> slash ∉ c' -> u ++ slash :: c = v ++ slash :: c' -> u = v /\ c = c'.
Proof.
  intros Hc Hc' He. pose proof (strrchr_app_last slash u c Hc) as H1.
  rewrite He, (strrchr_app_last slash v c' Hc') in H1. injection H1 as H1.
  apply app_inj_1 in He as [-> [= ->]]; auto.
Qed.

Lemma find_sub_prefix p s : find_sub p (p ++ s) = Some O.
Proof.
  assert (prefixb p (p ++ s) = true) as H by (apply prefixb_spec; eauto).
  destruct (p ++ s) eqn:E; cbn [find_sub]; by rewrite H.
Qed.

Lemma in_old_meta_dir_child old c : in_old_meta_dir old (old ++ slash :: c) = true.
Proof.
  unfold in_old_meta_dir. rewrite find_sub_prefix, list_lookup_middle by done. apply ascii_eqb_refl.
Qed.

Lemma moved_name_child old new c : moved_name old new (old ++ slash :: c) = new ++ slash :: c.
Proof. unfold moved_name. by rewrite drop_app_length. Qed.

(** An entry after the rename of its directory. *)
Definition renamed_entry (u : bytes) (v : BufferValue meta_obj) : BufferValue meta_obj :=
  mkBuf (set_obj_uri u (data v)) (bsize v).

(** Every entry of the map of [dir] is a direct child of it. *)
Definition direct_children {A} (dir : bytes) (m : map_records A) : Prop :=
  forall k, is_Some (buffer m !! k) -> exists c, k = dir ++ slash :: c /\ (slash ∉ c) /\ c <> [].

Lemma rename_metadata_dir_spec old new m :
  old <> new -> direct_children old m ->
  exists m', rename_metadata_dir_stat_worker old new m = (0, m') /\
    forall c, slash ∉ c ->
      buffer m' !! (new ++ slash :: c) = renamed_entry (new ++ slash :: c) <$> buffer m !! (old ++ slash :: c) /\
      buffer m' !! (old ++ slash :: c) = None.
Proof.
  intros Hne Hkids. unfold rename_metadata_dir_stat_worker. eexists. split; [done|]. simpl.
  set (g := fun k v => mkBuf (set_obj_uri (moved_name old new k) (data v)) (bsize v)).
  set (vec := List.filter (in_old_meta_dir old) (keys_of (buffer m))).
  set (b1 := fold_left _ vec (buffer m)).
  assert (NoDup vec) as Hnd by apply NoDup_filter_keys.
  assert (forall k, k ∈ vec <-> is_Some (buffer m !! k)) as Hvec.
  { intros k. unfold vec. rewrite elem_of_filter_keys. split; [tauto|]. intros Hk. split; [|done].
    destruct (Hkids k Hk) as (c & -> & _). apply in_old_meta_dir_child. }
  assert (forall k, b1 !! k = if decide (k ∈ vec) then g k <$> buffer m !! k else buffer m !! k) as Hb1
    by (intros k; apply (fold_alter_lookup g vec (buffer m) k Hnd)).
  assert (forall k, k ∈ vec -> exists c, k = old ++ slash :: c /\ (slash ∉ c)) as Hin.
  { intros k Hk. apply Hvec, Hkids in Hk as (c & -> & ? & _). eauto. }
  assert (forall c, slash ∉ c -> buffer m !! (new ++ slash :: c) = None) as Hfree.
  { intros c Hc. apply eq_None_not_Some. intros Hs. destruct (Hkids _ Hs) as (c' & He & Hc' & _).
    apply child_inj in He as [? _]; congruence. }
  destruct (fold_move_lookup (moved_name old new) vec b1 Hnd) as [H1 H2].
  - intros k k' Hk Hk'. destruct (Hin k Hk) as (c & -> & Hc). destruct (Hin k' Hk') as (c' & -> & Hc').
    rewrite moved_name_child. intros He. apply child_inj in He as [? _]; congruence.
  - intros k k' Hk Hk'. destruct (Hin k Hk) as (c & -> & Hc). destruct (Hin k' Hk') as (c' & -> & Hc').
    rewrite !moved_name_child. intros He. by apply child_inj in He as [_ ->].
  - intros k Hk. destruct (Hin k Hk) as (c & -> & Hc). rewrite moved_name_child, Hb1, Hfree by done.
    by case_decide.
  - intros c Hc. destruct (decide (old ++ slash :: c ∈ vec)) as [Hv|Hv].
    + destruct (H1 _ Hv) as [E1 E2]. rewrite moved_name_child in E1. split; [|exact E2].
      etrans; [exact E1|]. rewrite Hb1, decide_True by done. unfold g. by rewrite moved_name_child.
    + assert (buffer m !! (old ++ slash :: c) = None) as Hn.
      { apply eq_None_not_Some. intros Hs. by apply Hv, Hvec. }
      rewrite Hn. split; (etrans; [apply H2|]).
      * intros Hx. destruct (Hin _ Hx) as (c' & He & Hc'). apply child_inj in He as [? _]; congruence.
      * intros k Hk. destruct (Hin k Hk) as (c' & -> & Hc'). rewrite moved_name_child. intros He.
        apply child_inj in He as [_ ->]; [|done..]. done.
      * rewrite Hb1, Hfree by done. by case_decide.
      * done.
      * intros k Hk. destruct (Hin k Hk) as (c' & -> & Hc'). rewrite moved_name_child. intros He.
        apply child_inj in He as [? _]; congruence.
      * by rewrite Hb1, decide_False.
Qed.

(** Renaming a directory on the metadata server: every direct child is found
    under the new name with its [uri_] updated, and no longer under the old
    one; the entry of the directory itself moves inside the map of the old
    parent.  Maps of subdirectories are not touched: their entries keep the
    old names. *)
Theorem rename_dir_metadata_spec (old new d : bytes) (h : meta_store) (m pm : meta_map)
  (e : BufferValue meta_obj)
  (Ho : rooted old) (Hn : rooted new) (Hpd : parent_dir old = Ret d)
  (Hm : hiermap h !! old = Some m) (Hpm : hiermap h !! d = Some pm)
  (Hdo : d <> old) (Hdn : d <> new) (Hne : old <> new) (Hin : prefixb (old ++ [slash]) new = false)
  (Hkids : direct_children old m) (He : buffer pm !! old = Some e) (Hfree : buffer pm !! new = None) :
  exists h1 h2,
    rename_dir_metadata old new h = Ret (0, h1) /\ HierarchicalMapRenameKey old new h1 = (0, h2) /\
    (forall c, slash ∉ c -> c <> [] ->
       HierarchicalMapGet (new ++ slash :: c) h2
         = Ret (renamed_entry (new ++ slash :: c) <$> buffer m !! (old ++ slash :: c)) /\
       HierarchicalMapGet (old ++ slash :: c) h2 = Ret None) /\
    hiermap h2 !! d = Some (set_buffer (<[new := e]> (delete old (buffer pm))) pm) /\
    (forall c f, slash ∉ c -> slash ∉ f -> f <> [] ->
       HierarchicalMapGet ((old ++ slash :: c) ++ slash :: f) h2
       = HierarchicalMapGet ((old ++ slash :: c) ++ slash :: f) h).
Proof.
  destruct (rename_metadata_dir_spec old new m Hne Hkids) as (m' & Hr & Hm').
  unfold rename_dir_metadata, get_dir_unsafe. rewrite Hm, Hpd. cbn [obind]. rewrite Hpm, Hr.
  unfold update_key. simpl hiermap. rewrite lookup_insert_ne, Hpm by done. simpl default.
  rewrite He, Hfree, (proj2 (streq_false old new)) by done.
  assert (move_node old new (buffer pm) = <[new := e]> (delete old (buffer pm))) as ->.
  { unfold move_node. by rewrite He, lookup_delete_ne, Hfree. }
  do 2 eexists. split; [done|]. unfold HierarchicalMapRenameKey. simpl hiermap.
  rewrite lookup_insert_ne, lookup_insert_eq by done. split; [done|].
  split; [|split].
  - intros c Hc Hcne. rewrite (HGet_eq _ new) by (by apply parent_dir_child).
    rewrite (HGet_eq _ old) by (by apply parent_dir_child). simpl.
    rewrite lookup_delete_ne, lookup_insert_eq, lookup_delete_eq by done.
    split; [|done]. f_equal. by apply Hm'.
  - simpl. rewrite lookup_delete_ne, lookup_insert_ne by done. by rewrite lookup_insert_eq.
  - intros c f Hc Hf Hfne.
    assert (parent_dir ((old ++ slash :: c) ++ slash :: f) = Ret (old ++ slash :: c)) as Hp.
    { apply parent_dir_child; [|done..]. destruct Ho as [p ->]. exists (p ++ slash :: c). by rewrite app_assoc. }
    rewrite !(HGet_eq _ _ _ Hp). simpl.
    assert (length (old ++ slash :: c) > length old)%nat as Hl by (rewrite length_app; simpl; lia).
    apply parent_dir_length in Hpd.
    rewrite lookup_delete_ne by (intros E; rewrite <- E in Hl; lia).
    rewrite lookup_insert_ne.
    2:{ intros ->. apply not_true_iff_false in Hin. apply Hin, prefixb_spec. exists c.
        by rewrite <- app_assoc. }
    rewrite lookup_insert_ne by (intros ->; lia).
    rewrite lookup_insert_ne by (intros E; rewrite <- E in Hl; lia). done.
Qed.

Definition sample_meta (u : bytes) (ty : ascii) : dataset_info :=
  mkDataset u ty (B "RR") u [] 0 1 1024 1 0 0 (-1) 0 2 [] 0 0 STATUS_ATACH 2 0 100 (-1) (-1) None.
Definition meta_entry (u : bytes) (ty : ascii) : BufferValue meta_obj :=
  mkBuf (Dataset (sample_meta u ty)) 1248.

(** The root holds directory [d], which holds file [f] and directory [s], which
    holds file [g]. *)
Definition sample_tree : meta_store :=
  mkHier {[ IMSS_ROOT := mkMap {[ B "imss://d" := meta_entry (B "imss://d") "D" ]} [];
            B "imss://d" := mkMap {[ B "imss://d/f" := meta_entry (B "imss://d/f") "R";
                                     B "imss://d/s" := meta_entry (B "imss://d/s") "D" ]} [];
            B "imss://d/s" := mkMap {[ B "imss://d/s/g" := meta_entry (B "imss://d/s/g") "R" ]} [] ]}
    0 1000000 [].

Lemma sample_children : direct_children (B "imss://d")
  (mkMap {[ B "imss://d/f" := meta_entry (B "imss://d/f") "R";
            B "imss://d/s" := meta_entry (B "imss://d/s") "D" ]} []).
Proof.
  intros k [v Hv]. simpl buffer in Hv.
  apply lookup_insert_Some in Hv as [[<- _]|[_ Hv]].
  - exists (B "f"). split; [done|]. split; [apply strchr_None; reflexivity|done].
  - apply lookup_singleton_Some in Hv as [<- _].
    exists (B "s"). split; [done|]. split; [apply strchr_None; reflexivity|done].
Qed.

Lemma rename_dir_metadata_spec_witness :
  exists h1 h2,
    rename_dir_metadata (B "imss://d") (B "imss://e") sample_tree = Ret (0, h1) /\
    HierarchicalMapRenameKey (B "imss://d") (B "imss://e") h1 = (0, h2) /\
    HierarchicalMapGet (B "imss://e/f") h2 = Ret (Some (renamed_entry (B "imss://e/f") (meta_entry (B "imss://d/f") "R"))) /\
    HierarchicalMapGet (B "imss://d/s/g") h2 = Ret (Some (meta_entry (B "imss://d/s/g") "R")) /\
    HierarchicalMapGet (B "imss://e/s/g") h2 = Ret None.
Proof.
  destruct (rename_dir_metadata_spec (B "imss://d") (B "imss://e") IMSS_ROOT sample_tree
    (mkMap {[ B "imss://d/f" := meta_entry (B "imss://d/f") "R";
              B "imss://d/s" := meta_entry (B "imss://d/s") "D" ]} [])
    (mkMap {[ B "imss://d" := meta_entry (B "imss://d") "D" ]} [])
    (meta_entry (B "imss://d") "D")) as (h1 & h2 & H1 & H2 & H3 & _ & H5); try (by vm_compute).
  - by exists (B "d").
  - by exists (B "e").
  - apply sample_children.
  - exists h1, h2. split; [exact H1|]. split; [exact H2|]. split; [|split].
    + apply (H3 (B "f")); [apply strchr_None; reflexivity|discriminate].
    + etrans; [apply (H5 (B "s") (B "g")); [apply strchr_None; reflexivity|apply strchr_None; reflexivity|discriminate]|].
      reflexivity.
    + assert (rename_dir_metadata (B "imss://d") (B "imss://e") sample_tree = Ret (0, h1)) as H1' by exact H1.
      vm_compute in H1'. injection H1' as <-. vm_compute in H2. injection H2 as <-. reflexivity.
Defined.

Lemma HierarchicalMapListDir_spec_witness :
  exists tail, HierarchicalMapListDir (B "imss://d") sample_tree =
    Ret (2, Some (concat (put_str 256 <$> [B "imss://d/f"; B "imss://d/s"]) ++ tail)).
Proof.
  pose proof (HierarchicalMapListDir_spec (B "imss://d") sample_tree) as H.
  change (hiermap sample_tree !! B "imss://d") with
    (Some (mkMap {[ B "imss://d/f" := meta_entry (B "imss://d/f") "R";
                    B "imss://d/s" := meta_entry (B "imss://d/s") "D" ]} [])) in H.
  cbv iota in H. destruct H as (_ & _ & tail & H).
  - assert (keys_of (buffer (mkMap {[ B "imss://d/f" := meta_entry (B "imss://d/f") "R";
              B "imss://d/s" := meta_entry (B "imss://d/s") "D" ]} [])) = [B "imss://d/f"; B "imss://d/s"]) as ->
      by (vm_compute; reflexivity).
    repeat constructor; simpl; lia.
  - exists tail. rewrite H.
    assert (children (B "imss://d") (mkMap {[ B "imss://d/f" := meta_entry (B "imss://d/f") "R";
              B "imss://d/s" := meta_entry (B "imss://d/s") "D" ]} []) = [B "imss://d/f"; B "imss://d/s"]) as ->
      by (vm_compute; reflexivity).
    rewrite decide_False by discriminate. reflexivity.
Defined.
