(* ===== verification/Elasticity.v ===== *)
(** * Scaling decisions and pending requests

    The part of src/src/workers.c that changes the number of data servers:
    clients report the performance of each server ([close_dataset] in
    src/src/imss.c packs it, [Malleability] unpacks it), the metadata server
    keeps a history per host and launches a server when the average of a
    window falls below a threshold ([make_scaling_decision],
    [CommissioningStage]); requests that wait for a reorganisation are answered
    by [AttendPendingRequests].  A [double] is the IEEE 754 binary64 of the
    standard library's specification. *)

From Stdlib Require Import SpecFloat.
From S2P Require Import Prelude Types Store DataServer Comms.

(** ** Doubles *)

Abbreviation double := spec_float.
Definition dadd (x y : double) : double := SFadd 53 1024 x y.
Definition dsub (x y : double) : double := SFsub 53 1024 x y.
Definition ddiv (x y : double) : double := SFdiv 53 1024 x y.
Definition dlt (x y : double) : bool := SFltb x y.
Definition of_int (z : Z) : double := binary_normalize 53 1024 z 0 false.
Definition dzero : double := S754_zero false.

(** 1e-9. *)
Definition epsilon : double := S754_finite false 4835703278458517 (-82).
Definition double_are_equal (a b : double) : bool := dlt (SFabs (dsub a b)) epsilon.

(** Memory of a [double]. *)
Definition double_of_bits (b : Z) : double :=
  let s := Z.testbit b 63 in
  let e := (b / 2 ^ 52) mod 2048 in
  let m := b mod 2 ^ 52 in
  if e =? 2047 then (if m =? 0 then S754_infinity s else S754_nan)
  else if e =? 0 then match m with Zpos p => S754_finite s p (-1074) | _ => S754_zero s end
  else match m + 2 ^ 52 with Zpos p => S754_finite s p (e - 1075) | _ => S754_nan end.

Definition sign_bit (s : bool) : Z := if s then 2 ^ 63 else 0.
Definition bits_of_double (x : double) : Z :=
  match x with
  | S754_zero s => sign_bit s
  | S754_infinity s => sign_bit s + 2047 * 2 ^ 52
  | S754_nan => 2047 * 2 ^ 52 + 2 ^ 51
  | S754_finite s m e =>
      if Zpos m <? 2 ^ 52 then sign_bit s + Zpos m
      else sign_bit s + (e + 1075) * 2 ^ 52 + (Zpos m - 2 ^ 52)
  end.

(** ** What a client reports *)

(** [ServerMetrics] and [IOServerMetrics]. *)
Record ServerMetrics := mkMetrics { total_data_time : double; total_data_size : Z }.
Record IOServerMetrics := mkIO { io_server_id : Z; io_write : ServerMetrics; io_read : ServerMetrics }.

Definition MB : Z := 1048576.

(** Bytes per second, 0 when too little was transferred. *)
Definition performance (m : ServerMetrics) : double :=
  if dlt dzero (total_data_time m) && negb (double_are_equal (of_int (total_data_size m)) dzero)
     && (MB <? total_data_size m)
  then ddiv (of_int (total_data_size m)) (total_data_time m) else dzero.

(** One record of the message: host name with its length, server, write and
    read performance. *)
Record metric := mkMetric { m_host : bytes; m_id : Z; m_write : double; m_read : double }.

Definition metric_bytes (r : metric) : bytes :=
  le_put 8 (strlen (m_host r)) ++ m_host r ++ le_put 4 (m_id r)
  ++ le_put 8 (bits_of_double (m_write r)) ++ le_put 8 (bits_of_double (m_read r)).

(** The message of [close_dataset]: the entries of
    [backend_performance_metrics] in key order. *)
Definition pack_metrics (rs : list metric) : bytes :=
  le_put 8 (Z.of_nat (length rs)) ++ concat (metric_bytes <$> rs).
Definition report (perf : list (bytes * IOServerMetrics)) : bytes :=
  pack_metrics ((fun '(host, io) => mkMetric host (io_server_id io) (performance (io_write io))
                                      (performance (io_read io))) <$> perf).

(** ** What the metadata server reads *)

(** [memcpy] of [n] bytes at the moving pointer. *)
Definition take_bytes (n : Z) (b : bytes) : outcome (bytes * bytes) :=
  let* x := read_at b 0 n in Ret (x, drop (Z.to_nat n) b).

Definition read_metric (b : bytes) : outcome (metric * bytes) :=
  let* (l, b) := take_bytes 8 b in
  let* (host, b) := take_bytes (le_get l) b in
  let* (id, b) := take_bytes 4 b in
  let* (w, b) := take_bytes 8 b in
  let* (r, b) := take_bytes 8 b in
  Ret (mkMetric host (get_i32 id) (double_of_bits (le_get w)) (double_of_bits (le_get r)), b).

Fixpoint read_metrics (n : nat) (b : bytes) : outcome (list metric) :=
  match n with
  | O => Ret []
  | S n' =>
      let* (r, b) := read_metric b in
      let* rs := read_metrics n' b in
      Ret (r :: rs)
  end.

(** [num_entries] records; more than the message holds is a read past it. *)
Definition unpack_metrics (b : bytes) : outcome (list metric) :=
  let* (n, rest) := take_bytes 8 b in
  if strlen b <? le_get n then Undef OutOfBounds else read_metrics (Z.to_nat (le_get n)) rest.

(** ** State *)

(** A record of the history with its [overall_performance]. *)
Record ElasticityMetric := mkElastic { em : metric; overall_performance : double }.

Record elastic := mkElasticity {
  elasticity_records_history : gmap bytes (list ElasticityMetric);
  number_of_history_records : Z;
  consecutive_scale_up_signals : Z;
  comissioning_on : bool;
  mall_on : Z;
  number_active : Z;
  to_modify : Z;
  node_to_use : option bytes;
  acks_received : Z;
  pending : list bytes;
  launched : list (bytes * Z * Z)
}.

(** The configuration of the server, and the hosts of the allocation. *)
Record margs := mkMargs {
  malleability : bool;
  malleability_windows_size : Z;
  malleability_performance_threshold : double;
  malleability_tolerance : Z;
  hosts : list bytes
}.

(** ** [make_scaling_decision] *)

Definition sorted_keys {A} (m : gmap bytes A) : list bytes := foldr insert_key [] ((map_to_list m).*1).
Definition histories (h : gmap bytes (list ElasticityMetric)) : list (list ElasticityMetric) :=
  omap (fun k => h !! k) (sorted_keys h).

(** The sum over the servers that have a record [i], if there is one. *)
Definition total_at (i : nat) (hs : list (list ElasticityMetric)) : option double :=
  match omap (fun v => v !! i) hs with
  | [] => None
  | rs => Some (fold_left (fun t r => dadd t (overall_performance r)) rs dzero)
  end.

Definition moving_average (aggregate : list double) : double :=
  ddiv (fold_left dadd aggregate dzero) (of_int (Z.of_nat (length aggregate))).

(** The window is compared as an unsigned number with the length of the
    history of the first host. *)
Definition make_scaling_decision (h : gmap bytes (list ElasticityMetric)) (window : Z) (threshold : double)
  : bool :=
  match histories h with
  | [] => false
  | first :: _ =>
      let num_records := Z.of_nat (length first) in
      if num_records <? u64 window then false
      else
        let aggregate := omap (fun i => total_at i (histories h))
                           (seq (Z.to_nat (num_records - window)) (Z.to_nat window)) in
        match aggregate with
        | [] => false
        | _ => dlt (moving_average aggregate) threshold
        end
  end.

(** ** [CommissioningStage] *)

(** The first allocated host that is not in use; a stale [node_to_use] stays
    when there is none. *)
Definition pick_node (hosts used : list bytes) (old : option bytes) : option bytes :=
  match list_find (fun x => x ∉ used) hosts with Some (_, x) => Some x | None => old end.

Definition set_commission (consecutive : Z) (on : bool) (n id : Z) (node : option bytes)
    (l : list (bytes * Z * Z)) (st : elastic) : elastic :=
  mkElasticity (elasticity_records_history st) (number_of_history_records st) consecutive on
    (mall_on st) n id node (acks_received st) (pending st) l.
Definition set_signals (n : Z) (st : elastic) : elastic :=
  set_commission n (comissioning_on st) (number_active st) (to_modify st) (node_to_use st) (launched st) st.
Definition set_node_to_use (x : option bytes) (st : elastic) : elastic :=
  set_commission (consecutive_scale_up_signals st) (comissioning_on st) (number_active st) (to_modify st) x (launched st) st.
Definition set_on (n id : Z) (st : elastic) : elastic :=
  set_commission (consecutive_scale_up_signals st) true n id (node_to_use st) (launched st) st.
Definition set_launched (l : list (bytes * Z * Z)) (st : elastic) : elastic :=
  set_commission (consecutive_scale_up_signals st) (comissioning_on st) (number_active st) (to_modify st) (node_to_use st) l st.

Definition set_comissioning (b : bool) (st : elastic) : elastic :=
  set_commission (consecutive_scale_up_signals st) b (number_active st) (to_modify st) (node_to_use st) (launched st) st.

Definition set_active (n : Z) (i : imss_info) : imss_info :=
  mkImss (imss_uri i) (imss_type i) (ips i) n (num_storages i) (imss_session_plcy i) (conn_port i).

(** Where a thread is in the scaling part: each phase is an action that other
    threads cannot interrupt, because it holds [mutext_malleability] ([Deciding],
    [Counting], [Announcing]) or reads one variable.  [Searching] and [Launching]
    hold no lock; they are taken as one action each. *)
Inductive cphase :=
| Testing
| Deciding
| Counting (to_add_server : bool)
| Searching
| Announcing
| Launching
| Passed.

(** One action.  The counter of signals stays below the tolerance, so it does
    not overflow.  What the command names is read from the globals when it is
    printed: the node, the identifier and the number of servers. *)
Definition commission_action (a : margs) (ph : cphase) (st : elastic) (i : imss_info)
  : outcome (cphase * elastic * imss_info) :=
  match ph with
  | Testing => Ret (if malleability a && negb (comissioning_on st) then Deciding else Passed, st, i)
  | Deciding =>
      Ret (Counting (make_scaling_decision (elasticity_records_history st) (malleability_windows_size a)
                       (malleability_performance_threshold a)), st, i)
  | Counting to_add_server =>
      let signals := if to_add_server then consecutive_scale_up_signals st + 1 else 0 in
      if malleability_tolerance a <=? signals then Ret (Searching, set_signals 0 st, i)
      else Ret (Passed, set_signals signals st, i)
  | Searching =>
      let* _ := guard (Z.to_nat (num_storages i) <=? length (ips i))%nat OutOfBounds in
      let node := pick_node (hosts a) (take (Z.to_nat (num_storages i)) (ips i)) (node_to_use st) in
      Ret (match node with None => Passed | Some _ => Announcing end, set_node_to_use node st, i)
  | Announcing =>
      let n := u32 (num_storages i) in
      Ret (Launching, set_on n (i32 (n - 1)) st, set_active (i32 n) i)
  | Launching =>
      match node_to_use st with
      | None => Undef NullDeref
      | Some x => Ret (Passed, set_launched (launched st ++ [(x, to_modify st, num_active_storages i)]) st, i)
      end
  | Passed => Ret (Passed, st, i)
  end.

Fixpoint commission_actions (n : nat) (a : margs) (ph : cphase) (st : elastic) (i : imss_info)
  : outcome (cphase * elastic * imss_info) :=
  match n with
  | O => Ret (ph, st, i)
  | S n' => let* (ph, st, i) := commission_action a ph st i in commission_actions n' a ph st i
  end.

(** The scaling part by a thread that no other thread comes between: the
    counter of consecutive signals, and the launch of a server through [ssh]
    when it reaches the tolerance. *)
Definition commission (a : margs) (st : elastic) (i : imss_info) : outcome (elastic * imss_info) :=
  let* (_, st, i) := commission_actions 6 a Testing st i in Ret (st, i).

(** The hosts in use, separated by commas, in a buffer of [PATH_MAX] bytes. *)
Fixpoint join_commas (l : list bytes) : bytes :=
  match l with
  | [] => []
  | [x] => x
  | x :: l' => x ++ comma :: join_commas l'
  end.

Definition MSG_MALLEABILITY_DATASERVERS : bytes := B "DATASERVERS".

(** The answer [sprintf] builds from the list. *)
Definition dataservers_response (st : elastic) (i : imss_info) : outcome bytes :=
  if (length (ips i) <? Z.to_nat (num_storages i))%nat then Undef OutOfBounds
  else
    let l := join_commas (take (Z.to_nat (num_storages i)) (ips i)) in
    let r := MSG_MALLEABILITY_DATASERVERS ++ " "%char :: print_u (number_active st)
               ++ " "%char :: print_d (to_modify st) ++ " "%char :: l in
    if strlen r <? PATH_MAX then Ret r else Undef OutOfBounds.

(** [CommissioningStage]: the scaling part, then the answer to the client. *)
Definition CommissioningStage (a : margs) (st : elastic) (i : imss_info)
  : outcome (bytes * elastic * imss_info) :=
  let* (st, i) := commission a st i in
  let* r := dataservers_response st i in
  Ret (r, st, i).

(** ** [Malleability] *)

(** An entry of a message with its overall performance; the counter of recorded
    metrics is not reset between the entries. *)
Definition record_metric (recorded : Z) (r : metric) : Z * ElasticityMetric :=
  let recorded := if double_are_equal (m_read r) dzero then recorded else recorded + 1 in
  let recorded := if double_are_equal (m_write r) dzero then recorded else recorded + 1 in
  (recorded, mkElastic r (ddiv (dadd (m_read r) (m_write r)) (of_int recorded))).

(** [elasticity_records_history[host].push_back]. *)
Definition push_metric (m : ElasticityMetric) (h : gmap bytes (list ElasticityMetric))
  : gmap bytes (list ElasticityMetric) :=
  <[m_host (em m) := default [] (h !! m_host (em m)) ++ [m]]> h.

Fixpoint record_metrics (recorded : Z) (rs : list metric)
    (h : gmap bytes (list ElasticityMetric)) : gmap bytes (list ElasticityMetric) :=
  match rs with
  | [] => h
  | r :: rs' => let '(recorded, m) := record_metric recorded r in record_metrics recorded rs' (push_metric m h)
  end.

Definition set_history (h : gmap bytes (list ElasticityMetric)) (n : Z) (st : elastic) : elastic :=
  mkElasticity h n (consecutive_scale_up_signals st) (comissioning_on st) (mall_on st) (number_active st) (to_modify st)
    (node_to_use st) (acks_received st) (pending st) (launched st).

Definition record_report (rs : list metric) (st : elastic) : elastic :=
  set_history (record_metrics 0 rs (elasticity_records_history st)) (number_of_history_records st + 1) st.

(** [Malleability] on the message of a client: [inst] is the instance
    structure that [curr_global_imss] refers to, or that the store has.  An
    empty message ends it; without an instance nothing is answered. *)
Definition Malleability (a : margs) (payload : bytes) (inst : option imss_info) (st : elastic)
  : outcome (option bytes * elastic * option imss_info) :=
  if strlen payload =? 0 then Ret (None, st, inst)
  else
    let* rs := unpack_metrics payload in
    let st := record_report rs st in
    match inst with
    | None => Ret (None, st, None)
    | Some i =>
        let* (r, st, i) := CommissioningStage a st i in
        Ret (Some r, st, Some i)
    end.

(** ** Pending requests *)

(** [AttendPendingRequests]: every waiting client gets the same answer; gives
    the answers that are sent. *)
Definition AttendPendingRequests (inst : option imss_info) (st : elastic)
  : outcome (list bytes * elastic) :=
  if mall_on st <=? 0 then Ret ([], st)
  else if to_modify st <? 0 then Ret ([], st)
  else match inst with
       | None => Undef NullDeref
       | Some i =>
           let* r := dataservers_response st i in
           Ret ((fun _ => r) <$> pending st,
                mkElasticity (elasticity_records_history st) (number_of_history_records st)
                  (consecutive_scale_up_signals st) (comissioning_on st) (mall_on st) (number_active st)
                  (to_modify st) None (acks_received st) [] (launched st))
       end.

(** [AddIPS]: appends a host; a trailing newline is dropped.  An empty line
    reads the character before the buffer, a line of [LINE_LENGTH] characters
    leaves no terminator. *)
Definition AddIPS (line : bytes) (i : imss_info) : outcome (Z * imss_info) :=
  if (strlen line =? 0) || (LINE_LENGTH <=? strlen line) then Undef OutOfBounds
  else if negb (length (ips i) =? Z.to_nat (num_storages i))%nat then Undef OutOfBounds
  else
    let host := if last_is "010"%char line then removelast line else line in
    Ret (0, mkImss (imss_uri i) (imss_type i) (ips i ++ [host]) (num_active_storages i)
              (num_storages i + 1) (imss_session_plcy i) (conn_port i)).

(** [ReadHostfile] on the lines of the file. *)
Fixpoint ReadHostfile (lines : list bytes) (i : imss_info) : outcome (Z * imss_info) :=
  match lines with
  | [] => Ret (0, i)
  | l :: lines' =>
      let* (_, i) := AddIPS l i in
      let* (n, i) := ReadHostfile lines' i in
      Ret (n + 1, i)
  end.

(** ** Doubles and their memory *)

Lemma digits2_pos_bounds m : 2 ^ (Zpos (digits2_pos m) - 1) <= Zpos m < 2 ^ Zpos (digits2_pos m).
Proof.
  induction m as [m IH|m IH|]; cbn [digits2_pos]; [| |by vm_compute].
  all: rewrite Pos2Z.inj_succ; replace (Z.succ (Zpos (digits2_pos m))) with (Zpos (digits2_pos m) - 1 + 2) by lia;
    rewrite !Z.pow_add_r in * by lia;
    replace (Zpos (digits2_pos m) - 1 + 2 - 1) with (Zpos (digits2_pos m) - 1 + 1) by lia;
    rewrite ?Z.pow_add_r by lia; replace (Zpos (digits2_pos m)) with (Zpos (digits2_pos m) - 1 + 1) in IH at 2 by lia;
    rewrite ?Z.pow_add_r in IH by lia; lia.
Qed.

Lemma valid_finite m e :
  valid_binary 53 1024 (S754_finite false m e) = true ->
  (e = -1074 /\ Zpos m < 2 ^ 52) \/ (-1074 <= e <= 971 /\ 2 ^ 52 <= Zpos m < 2 ^ 53).
Proof.
  unfold valid_binary, bounded, canonical_mantissa, fexp, emin. intros [H1 H2]%andb_true_iff.
  apply Z.eqb_eq in H1. apply Z.leb_le in H2.
  pose proof (digits2_pos_bounds m) as [B1 B2].
  destruct (Z.le_gt_cases 53 (Zpos (digits2_pos m))) as [Hd|Hd].
  - assert (Zpos (digits2_pos m) = 53) as Ed by lia. rewrite Ed in B1, B2. right. lia.
  - left. assert (2 ^ Zpos (digits2_pos m) <= 2 ^ 52) by (apply Z.pow_le_mono_r; lia). lia.
Qed.

Lemma bits_roundtrip x : valid_binary 53 1024 x = true -> double_of_bits (bits_of_double x) = x.
Proof.
  destruct x as [s|s| |s m e]; [by destruct s|by destruct s|done|].
  intros Hv. destruct (valid_finite m e Hv) as [[-> Hm]|[He Hm]]; unfold bits_of_double.
  - destruct (Z.ltb_spec (Zpos m) (2 ^ 52)); [|lia]. unfold double_of_bits.
    assert ((sign_bit s + Zpos m) / 2 ^ 52 mod 2048 = 0) as ->.
    { destruct s; unfold sign_bit.
      - replace (2 ^ 63 + Zpos m) with (Zpos m + 2048 * 2 ^ 52) by lia.
        rewrite Z.div_add by lia. rewrite Z.div_small by lia. done.
      - rewrite Z.div_small by lia. done. }
    assert ((sign_bit s + Zpos m) mod 2 ^ 52 = Zpos m) as ->.
    { destruct s; unfold sign_bit.
      - replace (2 ^ 63 + Zpos m) with (Zpos m + 2048 * 2 ^ 52) by lia.
        rewrite Z_mod_plus_full. by apply Z.mod_small.
      - apply Z.mod_small. lia. }
    assert (Z.testbit (sign_bit s + Zpos m) 63 = s) as ->; [|done].
    rewrite Z.testbit_eqb by lia. destruct s; unfold sign_bit.
    + replace (2 ^ 63 + Zpos m) with (Zpos m + 1 * 2 ^ 63) by lia.
      rewrite Z.div_add, Z.div_small by lia. done.
    + rewrite Z.div_small by lia. done.
  - destruct (Z.ltb_spec (Zpos m) (2 ^ 52)); [lia|]. unfold double_of_bits.
    set (b := sign_bit s + (e + 1075) * 2 ^ 52 + (Zpos m - 2 ^ 52)).
    assert (b / 2 ^ 52 mod 2048 = e + 1075) as ->.
    { unfold b. destruct s; unfold sign_bit.
      - replace (2 ^ 63 + (e + 1075) * 2 ^ 52 + (Zpos m - 2 ^ 52))
          with (Zpos m - 2 ^ 52 + (2048 + (e + 1075)) * 2 ^ 52) by lia.
        rewrite Z.div_add, Z.div_small by lia. rewrite Z.add_0_l, <- Z.add_mod_idemp_l by lia.
        rewrite Z_mod_same_full, Z.add_0_l. apply Z.mod_small. lia.
      - replace (0 + (e + 1075) * 2 ^ 52 + (Zpos m - 2 ^ 52))
          with (Zpos m - 2 ^ 52 + (e + 1075) * 2 ^ 52) by lia.
        rewrite Z.div_add, Z.div_small by lia. rewrite Z.add_0_l. apply Z.mod_small. lia. }
    assert (b mod 2 ^ 52 = Zpos m - 2 ^ 52) as ->.
    { unfold b. replace (sign_bit s + (e + 1075) * 2 ^ 52 + (Zpos m - 2 ^ 52))
        with (Zpos m - 2 ^ 52 + ((if s then 2048 else 0) + (e + 1075)) * 2 ^ 52) by (destruct s; unfold sign_bit; lia).
      rewrite Z_mod_plus_full. apply Z.mod_small. lia. }
    assert (Z.testbit b 63 = s) as ->.
    { rewrite Z.testbit_eqb by lia. unfold b.
      replace (sign_bit s + (e + 1075) * 2 ^ 52 + (Zpos m - 2 ^ 52))
        with ((e + 1075) * 2 ^ 52 + (Zpos m - 2 ^ 52) + (if s then 1 else 0) * 2 ^ 63)
        by (destruct s; unfold sign_bit; lia).
      rewrite Z.div_add, Z.div_small by lia. by destruct s. }
    destruct (Z.eqb_spec (e + 1075) 2047); [lia|]. destruct (Z.eqb_spec (e + 1075) 0); [lia|].
    replace (Zpos m - 2 ^ 52 + 2 ^ 52) with (Zpos m) by lia. f_equal. lia.
Qed.

Lemma bits_range x : valid_binary 53 1024 x = true -> 0 <= bits_of_double x < 2 ^ 64.
Proof.
  destruct x as [s|s| |s m e]; [by destruct s; vm_compute; split..| by vm_compute; split|].
  intros Hv. destruct (valid_finite m e Hv) as [[-> Hm]|[He Hm]]; unfold bits_of_double, sign_bit;
    destruct (Z.ltb_spec (Zpos m) (2 ^ 52)); destruct s; lia.
Qed.

(** ** The report of a client arrives *)

Definition metric_fits (r : metric) : Prop :=
  strlen (m_host r) < 2 ^ 63 /\ int_fits (m_id r) /\
  valid_binary 53 1024 (m_write r) = true /\ valid_binary 53 1024 (m_read r) = true.

Lemma take_bytes_app n x rest : n = strlen x -> take_bytes n (x ++ rest) = Ret (x, rest).
Proof.
  intros ->. unfold take_bytes. rewrite read_at_prefix by done. cbn [obind].
  unfold strlen. rewrite Nat2Z.id. by rewrite drop_app_length.
Qed.

Lemma strlen_le_put n z : strlen (le_put n z) = Z.of_nat n.
Proof. unfold strlen. by rewrite length_le_put. Qed.

Lemma le_get_put_small n z : 0 <= z < 2 ^ (8 * Z.of_nat n) -> le_get (le_put n z) = z.
Proof. intros. rewrite le_get_put. by apply Z.mod_small. Qed.

Lemma read_metric_bytes r rest : metric_fits r -> read_metric (metric_bytes r ++ rest) = Ret (r, rest).
Proof.
  intros (Hh & Hi & Hw & Hr). unfold read_metric, metric_bytes. rewrite <- !app_assoc.
  pose proof (bits_range _ Hw). pose proof (bits_range _ Hr). pose proof (strlen_nonneg (m_host r)).
  rewrite take_bytes_app by (by rewrite strlen_le_put). cbn [obind].
  rewrite le_get_put_small by (simpl; lia). rewrite take_bytes_app by done. cbn [obind].
  do 3 (rewrite take_bytes_app by (by rewrite strlen_le_put); cbn [obind]).
  rewrite get_i32_put by done. rewrite !le_get_put_small by (simpl; lia).
  rewrite !bits_roundtrip by done. by destruct r.
Qed.

Lemma read_metrics_concat rs rest :
  Forall metric_fits rs -> read_metrics (length rs) (concat (metric_bytes <$> rs) ++ rest) = Ret rs.
Proof.
  induction 1 as [|r rs Hr _ IH]; [done|]. cbn [length read_metrics fmap list_fmap concat].
  rewrite <- app_assoc, read_metric_bytes by done. cbn [obind]. by rewrite IH.
Qed.

Lemma metrics_length rs : Z.of_nat (length rs) <= strlen (concat (metric_bytes <$> rs)).
Proof.
  induction rs as [|r rs IH]; [done|]. cbn [fmap list_fmap concat length]. rewrite strlen_app.
  unfold metric_bytes at 1. rewrite strlen_app, strlen_le_put.
  pose proof (strlen_nonneg (m_host r ++ le_put 4 (m_id r) ++ le_put 8 (bits_of_double (m_write r))
    ++ le_put 8 (bits_of_double (m_read r)))). lia.
Qed.

(** C34. The performance a client measured per server is read back by the metadata
    server record by record, host names and IEEE values included. *)
Theorem metrics_roundtrip (rs : list metric)
  (Hfit : Forall metric_fits rs) (Hn : Z.of_nat (length rs) < 2 ^ 63) :
  unpack_metrics (pack_metrics rs) = Ret rs.
Proof.
  unfold unpack_metrics, pack_metrics. rewrite take_bytes_app by (by rewrite strlen_le_put).
  cbn [obind]. rewrite le_get_put_small by (simpl; lia). rewrite strlen_app, strlen_le_put.
  pose proof (metrics_length rs). destruct (Z.ltb_spec (Z.of_nat 8 + strlen (concat (metric_bytes <$> rs)))
    (Z.of_nat (length rs))); [lia|].
  rewrite Nat2Z.id, <- (app_nil_r (concat _)). by apply read_metrics_concat.
Qed.

Definition sample_metrics : list metric :=
  [mkMetric (B "node0") 0 (of_int 3000000) (of_int 5000000); mkMetric (B "node1") 1 dzero (of_int 100)].

Lemma metrics_roundtrip_witness : unpack_metrics (pack_metrics sample_metrics) = Ret sample_metrics.
Proof.
  apply (metrics_roundtrip sample_metrics).
  - repeat constructor; vm_compute; done.
  - simpl. lia.
Defined.

(** ** The decision *)

Lemma dadd_nan x : dadd S754_nan x = S754_nan.
Proof. by destruct x. Qed.
Lemma dadd_nan_r x : dadd x S754_nan = S754_nan.
Proof. by destruct x. Qed.

Lemma sum_nan {A} (f : A -> double) l t :
  t = S754_nan \/ Exists (fun r => f r = S754_nan) l ->
  fold_left (fun t r => dadd t (f r)) l t = S754_nan.
Proof.
  revert t. induction l as [|r l IH]; intros t H.
  - by destruct H as [->|H%Exists_nil].
  - cbn [fold_left]. apply IH. destruct H as [->|[Hr|Hl]%Exists_cons].
    + left. apply dadd_nan.
    + left. rewrite Hr. apply dadd_nan_r.
    + by right.
Qed.

(** One report whose two metrics are zero makes an overall performance of
    0/0; as long as that record is in the window, no average is below any
    threshold and no server is ever added. *)
Theorem zero_report_stops_scaling (h : gmap bytes (list ElasticityMetric)) (window : Z)
  (threshold : double) (first : list ElasticityMetric) (rest : list (list ElasticityMetric))
  (i : nat) (v : list ElasticityMetric) (r : ElasticityMetric)
  (Hh : histories h = first :: rest) (Hv : v ∈ first :: rest) (Hi : v !! i = Some r)
  (Hnan : overall_performance r = ddiv (dadd dzero dzero) (of_int 0))
  (Hwin : 0 <= window) (Hin : Z.of_nat (length first) - window <= Z.of_nat i < Z.of_nat (length first)) :
  make_scaling_decision h window threshold = false.
Proof.
  unfold make_scaling_decision. rewrite Hh. case_match; [done|].
  destruct (omap _ _) as [|x agg] eqn:Ha; [done|].
  assert (Exists (fun t => t = S754_nan) (x :: agg)) as Hex.
  { rewrite <- Ha. apply Exists_exists. exists S754_nan. split; [|done].
    apply list_elem_of_omap. exists i. split; [apply elem_of_seq; lia|].
    unfold total_at. destruct (omap (fun v => v !! i) (first :: rest)) as [|r' rs] eqn:Ho.
    - exfalso. assert (r ∈ omap (fun v => v !! i) (first :: rest)) as Hr
        by (apply list_elem_of_omap; eauto). rewrite Ho in Hr. by apply not_elem_of_nil in Hr.
    - f_equal. apply sum_nan. right. rewrite <- Ho. apply Exists_exists. exists r.
      split; [apply list_elem_of_omap; eauto|]. by rewrite Hnan. }
  unfold moving_average. rewrite (sum_nan (fun t => t)); [done|]. by right.
Qed.

Definition zero_history : gmap bytes (list ElasticityMetric) :=
  record_metrics 0 [mkMetric (B "node0") 0 dzero dzero] ∅.

Lemma zero_report_stops_scaling_witness :
  make_scaling_decision zero_history 1 (of_int 1000000000) = false.
Proof.
  pose (r := mkElastic (mkMetric (B "node0") 0 dzero dzero) (ddiv (dadd dzero dzero) (of_int 0))).
  apply (zero_report_stops_scaling zero_history 1 (of_int 1000000000) [r] [] 0 [r] r);
    try (by vm_compute); try (simpl; lia). by apply list_elem_of_singleton.
Defined.

(** The counter of non-zero metrics runs on from one server to the next: of
    two servers with equal performance the second is recorded with half of
    it. *)
Theorem second_server_halved :
  let perf := of_int 100000000 in
  let h := record_metrics 0 [mkMetric (B "node0") 0 perf perf; mkMetric (B "node1") 1 perf perf] ∅ in
  overall_performance <$> default [] (h !! B "node0") = [perf] /\
  overall_performance <$> default [] (h !! B "node1") = [ddiv perf (of_int 2)].
Proof. split; vm_compute; reflexivity. Qed.

(** ** Launches *)

(** The actions of one thread in a row. *)
Lemma commission_alone (a : margs) (st : elastic) (i : imss_info) :
  commission a st i =
  if malleability a && negb (comissioning_on st)
  then
    let to_add := make_scaling_decision (elasticity_records_history st) (malleability_windows_size a)
                    (malleability_performance_threshold a) in
    let signals := if to_add then consecutive_scale_up_signals st + 1 else 0 in
    if malleability_tolerance a <=? signals
    then
      if (Z.to_nat (num_storages i) <=? length (ips i))%nat
      then
        match pick_node (hosts a) (take (Z.to_nat (num_storages i)) (ips i)) (node_to_use st) with
        | None => Ret (set_commission 0 (comissioning_on st) (number_active st) (to_modify st) None
                         (launched st) st, i)
        | Some x =>
            let n := u32 (num_storages i) in
            let id := i32 (n - 1) in
            Ret (set_commission 0 true n id (Some x) (launched st ++ [(x, id, i32 n)]) st, set_active (i32 n) i)
        end
      else Undef OutOfBounds
    else Ret (set_signals signals st, i)
  else Ret (st, i).
Proof.
  unfold commission. cbn [commission_actions commission_action].
  destruct (malleability a && negb (comissioning_on st)); [|done]. cbn [obind commission_action]. cbv zeta.
  destruct (malleability_tolerance a <=? _); [|done]. cbn [obind commission_action].
  destruct (Z.to_nat (num_storages i) <=? length (ips i))%nat; [|done]. cbn [guard obind].
  change (node_to_use (set_signals 0 st)) with (node_to_use st). by destruct (pick_node _ _ _).
Qed.

Definition sample_margs : margs :=
  mkMargs true 1 (of_int 1000000000) 1 [B "node0"; B "node1"; B "node2"].
Definition idle : elastic := mkElasticity ∅ 0 0 false 0 2 (-1) None 0 [] [].
Definition slow_report : bytes := pack_metrics [mkMetric (B "node0") 0 (of_int 5000) (of_int 7000)].

Lemma app_singleton_neq {A} (l : list A) x : l <> l ++ [x].
Proof. intros H%(f_equal length). rewrite length_app in H. simpl in H. lia. Qed.

(** The identifier given to the launched server is the one of the last server
    that is already there: the number of servers is read before the new one
    is added. *)
Theorem launched_id_taken (a : margs) (st st' : elastic) (i i' : imss_info) (x : bytes) (id n : Z)
  (Hc : commission a st i = Ret (st', i')) (Hnew : launched st' = launched st ++ [(x, id, n)])
  (Hn : 0 < num_storages i < 2 ^ 31) :
  id = num_storages i - 1 /\ is_Some (ips i !! Z.to_nat id).
Proof.
  revert Hc. rewrite commission_alone. destruct (malleability a && negb (comissioning_on st)); [|intros [= <- _]].
  2:{ by apply app_singleton_neq in Hnew. }
  cbv zeta. destruct (malleability_tolerance a <=? _).
  2:{ intros [= <- _]. by apply app_singleton_neq in Hnew. }
  destruct (Nat.leb_spec (Z.to_nat (num_storages i)) (length (ips i))) as [Hl|]; [|done].
  destruct (pick_node _ _ _) as [y|].
  2:{ intros [= <- _]. by apply app_singleton_neq in Hnew. }
  intros [= <- _]. simpl in Hnew. apply app_inv_head in Hnew. injection Hnew as _ <- _.
  rewrite u32_small, i32_small by lia. split; [done|]. apply lookup_lt_is_Some_2. lia.
Qed.

Lemma launched_id_taken_witness :
  exists st' i', commission sample_margs (record_report [mkMetric (B "node0") 0 (of_int 5000) (of_int 7000)] idle)
                   sample_imss = Ret (st', i') /\
    launched st' = [(B "node2", 1, 2)] /\ 1 = num_storages sample_imss - 1 /\
    is_Some (ips sample_imss !! Z.to_nat 1).
Proof.
  destruct (commission sample_margs (record_report [mkMetric (B "node0") 0 (of_int 5000) (of_int 7000)] idle)
    sample_imss) as [[st' i']| |] eqn:E; try (vm_compute in E; discriminate).
  assert (launched st' = [(B "node2", 1, 2)]) as Hl by (vm_compute in E; injection E as <- <-; reflexivity).
  exists st', i'. split; [reflexivity|]. split; [exact Hl|].
  apply (launched_id_taken sample_margs _ st' sample_imss i' (B "node2") 1 2 E); [exact Hl|simpl; lia].
Defined.

(** While a reorganisation is on and the instance is known, every waiting
    client is answered with the current servers and none is left waiting; a
    process without an instance structure, as a data server is, dereferences
    NULL instead. *)
Theorem AttendPendingRequests_spec (inst : option imss_info) (st : elastic)
  (Hon : 0 < mall_on st) (Hid : 0 <= to_modify st) :
  match inst with
  | None => AttendPendingRequests inst st = Undef NullDeref
  | Some i =>
      (Z.to_nat (num_storages i) <= length (ips i))%nat ->
      strlen (MSG_MALLEABILITY_DATASERVERS ++ " "%char :: print_u (number_active st)
                ++ " "%char :: print_d (to_modify st) ++ " "%char
                :: join_commas (take (Z.to_nat (num_storages i)) (ips i))) < PATH_MAX ->
      exists answers st', AttendPendingRequests inst st = Ret (answers, st') /\
        length answers = length (pending st) /\ pending st' = [] /\
        Forall (fun r => r = MSG_MALLEABILITY_DATASERVERS ++ " "%char :: print_u (number_active st)
                ++ " "%char :: print_d (to_modify st) ++ " "%char
                :: join_commas (take (Z.to_nat (num_storages i)) (ips i))) answers
  end.
Proof.
  destruct inst as [i|].
  - intros Hl Hfit. unfold AttendPendingRequests, dataservers_response.
    destruct (Z.leb_spec (mall_on st) 0); [lia|]. destruct (Z.ltb_spec (to_modify st) 0); [lia|].
    destruct (Nat.ltb_spec (length (ips i)) (Z.to_nat (num_storages i))); [lia|].
    destruct (Z.ltb_spec (strlen (MSG_MALLEABILITY_DATASERVERS ++ " "%char :: print_u (number_active st)
                ++ " "%char :: print_d (to_modify st) ++ " "%char
                :: join_commas (take (Z.to_nat (num_storages i)) (ips i)))) PATH_MAX); [|lia].
    do 2 eexists. split; [done|]. split; [by rewrite length_fmap|]. split; [done|].
    apply Forall_fmap, Forall_true. done.
  - unfold AttendPendingRequests. destruct (Z.leb_spec (mall_on st) 0); [lia|].
    destruct (Z.ltb_spec (to_modify st) 0); [lia|done].
Qed.

Definition waiting : elastic :=
  mkElasticity ∅ 0 0 false 1 2 1 None 0 [B "GET 0 0 imss://f$1"; B "GET 0 0 imss://f$2"] [].

Lemma AttendPendingRequests_spec_witness :
  AttendPendingRequests None waiting = Undef NullDeref /\
  exists answers st', AttendPendingRequests (Some sample_imss) waiting = Ret (answers, st') /\
    answers = [B "DATASERVERS 2 1 node0,node1"; B "DATASERVERS 2 1 node0,node1"] /\ pending st' = [].
Proof.
  split; [apply (AttendPendingRequests_spec None waiting); simpl; lia|].
  destruct (AttendPendingRequests_spec (Some sample_imss) waiting) as (answers & st' & H1 & H2 & H3 & H4);
    [simpl; lia..|vm_compute; reflexivity|].
  exists answers, st'. split; [exact H1|]. split; [|exact H3].
  vm_compute in H1. injection H1 as <- <-. reflexivity.
Defined.
