(* ===== verification/Scaling.v ===== *)
(** * Reports that arrive together

    The worker threads of a metadata server handle the reports of the clients in
    parallel (src/src/workers.c: [Malleability], [CommissioningStage], case
    [PERFORMANCE_OP]), and a data server that has been launched announces itself
    meanwhile (case [SETSERVER] of [stat_worker_helper]).  [comissioning_on] is
    tested without a lock and set later, so the scaling part is not atomic: a
    thread is a sequence of the actions of Elasticity.v, and a schedule says who
    acts next.  The instance is known to the server. *)

From S2P Require Import Prelude Types Store DataServer Comms Elasticity.

(** ** Threads *)

(** A worker thread: waiting for a request, or in the middle of a report, whose
    entries are put into the history one by one. *)
Inductive phase :=
| Idle
| Recording (recorded : Z) (rs : list metric)
| Scaling (ph : cphase)
| Answered (reply : bytes).

Record pool := mkPool { state : elastic; instance : imss_info; threads : list phase }.

(** An action of a thread on the globals. *)
Definition turn (a : margs) (ph : phase) (st : elastic) (i : imss_info) : outcome (phase * elastic * imss_info) :=
  match ph with
  | Idle => Ret (Idle, st, i)
  | Recording _ [] => Ret (Scaling Testing, st, i)
  | Recording recorded (r :: rs) =>
      let '(recorded, m) := record_metric recorded r in
      Ret (Recording recorded rs,
           set_history (push_metric m (elasticity_records_history st)) (number_of_history_records st) st, i)
  | Scaling Passed => let* r := dataservers_response st i in Ret (Answered r, st, i)
  | Scaling ph => let* (ph, st, i) := commission_action a ph st i in Ret (Scaling ph, st, i)
  | Answered _ => Ret (Idle, st, i)
  end.

(** A waiting thread receives a report and counts it; an empty message is
    dropped. *)
Definition receive (payload : bytes) (ph : phase) (st : elastic) : outcome (phase * elastic) :=
  match ph with
  | Idle =>
      if strlen payload =? 0 then Ret (Idle, st)
      else
        let* rs := unpack_metrics payload in
        Ret (Recording 0 rs, set_history (elasticity_records_history st) (number_of_history_records st + 1) st)
  | _ => Ret (ph, st)
  end.

(** What happens next: a report arrives at a thread, a thread acts, a launched
    server is connected ([comissioning_on] is cleared) and then added to the
    instance, or the clients that wait for a change of the servers are answered,
    which clears [node_to_use]. *)
Inductive event := Report (t : nat) (payload : bytes) | Turn (t : nat) | Connected | Added (host : bytes) | Released.

Definition set_thread (t : nat) (ph : phase) (st : elastic) (i : imss_info) (c : pool) : pool :=
  mkPool st i (<[t := ph]> (threads c)).

Definition happens (a : margs) (e : event) (c : pool) : outcome pool :=
  match e with
  | Report t payload =>
      match threads c !! t with
      | None => Ret c
      | Some ph => let* (ph, st) := receive payload ph (state c) in Ret (set_thread t ph st (instance c) c)
      end
  | Turn t =>
      match threads c !! t with
      | None => Ret c
      | Some ph => let* (ph, st, i) := turn a ph (state c) (instance c) in Ret (set_thread t ph st i c)
      end
  | Connected => Ret (mkPool (set_comissioning false (state c)) (instance c) (threads c))
  | Added host => let* (_, i) := AddIPS host (instance c) in Ret (mkPool (state c) i (threads c))
  | Released =>
      let* (_, st) := AttendPendingRequests (Some (instance c)) (state c) in Ret (mkPool st (instance c) (threads c))
  end.

Fixpoint run (a : margs) (es : list event) (c : pool) : outcome pool :=
  match es with
  | [] => Ret c
  | e :: es' => let* c := happens a e c in run a es' c
  end.

(** ** Counting the threads *)

(** Past the test and not yet decided to launch; about to launch. *)
Definition past_test (ph : phase) : nat :=
  match ph with Scaling (Deciding | Counting _ | Searching | Announcing) => 1 | _ => 0 end.
Definition about_to_launch (ph : phase) : nat := match ph with Scaling Launching => 1 | _ => 0 end.

Definition total (f : phase -> nat) (ts : list phase) : nat := sum_list_with f ts.

Lemma total_insert f ts t p p' : ts !! t = Some p -> (total f (<[t := p']> ts) + f p = total f ts + f p')%nat.
Proof.
  unfold total. revert t. induction ts as [|q ts IH]; intros [|t]; [done..| |]; simpl.
  - intros [= ->]. lia.
  - intros Ht. specialize (IH t Ht). lia.
Qed.

(** The threads are in one of the two, or in none. *)
Lemma total_both ts : (total past_test ts + total about_to_launch ts <= length ts)%nat.
Proof. induction ts as [|[| |[]|] ts IH]; unfold total in *; cbn; lia. Qed.

Lemma total_idle ts : Forall (fun ph => ph = Idle) ts -> total about_to_launch ts = 0%nat.
Proof. by induction 1 as [|ph ts -> _ IH]. Qed.

(** How many launches there can be without another connection. *)
Definition launches (c : pool) : nat := length (launched (state c)).
Definition budget (c : pool) : nat :=
  launches c + total about_to_launch (threads c)
  + (if comissioning_on (state c) then total past_test (threads c) else length (threads c)).

Definition is_connected (e : event) : bool := match e with Connected => true | _ => false end.

(** An action that launches nothing, or launches what was about to be. *)
Definition quiet (p p' : phase) (st st' : elastic) : Prop :=
  comissioning_on st' = comissioning_on st /\
  (length (launched st') + about_to_launch p' <= length (launched st) + about_to_launch p)%nat /\
  (comissioning_on st = true -> (past_test p' <= past_test p)%nat).

Lemma turn_cases a p st i p' st' i' :
  turn a p st i = Ret (p', st', i') ->
  quiet p p' st st' \/
  (p = Scaling Announcing /\ p' = Scaling Launching /\ launched st' = launched st /\ comissioning_on st' = true).
Proof.
  assert (quiet p p st st) as Hrefl by by split.
  destruct p as [|recorded [|r rs]|ph|reply]; unfold turn.
  - intros [= <- <- _]. by left.
  - intros [= <- <- _]. by left.
  - destruct (record_metric recorded r) as [n m]. intros [= <- <- _]. by left.
  - destruct ph; cbn [commission_action obind].
    + intros [= <- <- _]. left. split; [done|]. split; [by destruct (malleability a && _)|].
      intros ->. by rewrite andb_false_r.
    + intros [= <- <- _]. by left.
    + cbv zeta. destruct (malleability_tolerance a <=? _); intros [= <- <- _]; left; (split; [done|]); cbn; split; lia.
    + destruct (guard _ _) as [[]| |]; try done. intros [= <- <- _]. left. split; [done|].
      destruct (pick_node _ _ _); cbn; split; lia.
    + intros [= <- <- _]. by right.
    + destruct (node_to_use st) as [x|]; [|done]. intros [= <- <- _]. left. split; [done|]. cbn.
      rewrite length_app. simpl. split; lia.
    + destruct (dataservers_response st i); [|done..]. intros [= <- <- _]. left. split; [done|]. cbn. split; lia.
  - intros [= <- <- _]. left. split; [done|]. cbn. split; lia.
Qed.

Lemma receive_quiet payload p st p' st' : receive payload p st = Ret (p', st') -> quiet p p' st st'.
Proof.
  unfold receive. destruct p; try (by intros [= <- <-]). destruct (strlen payload =? 0); [by intros [= <- <-]|].
  destruct (unpack_metrics payload); [|done..]. by intros [= <- <-].
Qed.

Lemma quiet_budget t p p' st' i c :
  threads c !! t = Some p -> quiet p p' (state c) st' -> (budget (set_thread t p' st' i c) <= budget c)%nat.
Proof.
  intros Ht (Hon & Hl & Hp). unfold budget, launches, set_thread. cbn [threads state]. rewrite length_insert, Hon.
  pose proof (total_insert about_to_launch _ t p p' Ht). pose proof (total_insert past_test _ t p p' Ht).
  destruct (comissioning_on (state c)); [specialize (Hp eq_refl)|]; lia.
Qed.

Lemma announce_budget t st' i c :
  threads c !! t = Some (Scaling Announcing) -> launched st' = launched (state c) -> comissioning_on st' = true ->
  (budget (set_thread t (Scaling Launching) st' i c) <= budget c)%nat.
Proof.
  intros Ht Hl Hon. unfold budget, launches, set_thread. cbn [threads state]. rewrite Hl, Hon.
  pose proof (total_insert about_to_launch _ t _ (Scaling Launching) Ht) as HA.
  pose proof (total_insert past_test _ t _ (Scaling Launching) Ht) as HP. cbn in HA, HP.
  pose proof (total_both (<[t := Scaling Launching]> (threads c))) as Hb. rewrite length_insert in Hb.
  destruct (comissioning_on (state c)); lia.
Qed.

(** Answering the clients launches nothing. *)
Lemma released_keeps inst st out st' :
  AttendPendingRequests inst st = Ret (out, st') ->
  comissioning_on st' = comissioning_on st /\ launched st' = launched st /\
  (node_to_use st' = node_to_use st \/ node_to_use st' = None).
Proof.
  unfold AttendPendingRequests. destruct (mall_on st <=? 0); [intros [= <- <-]; auto|].
  destruct (to_modify st <? 0); [intros [= <- <-]; auto|]. destruct inst as [i|]; [|done]. intros H.
  apply obind_Ret in H as (r & _ & [= <- <-]). cbn. auto.
Qed.

(** A connection gives every thread another launch, nothing else gives any. *)
Lemma happens_budget a e c c' :
  happens a e c = Ret c' ->
  length (threads c') = length (threads c) /\
  (budget c' <= budget c + (if is_connected e then length (threads c) else 0))%nat.
Proof.
  destruct e as [t payload|t| |host|]; cbn [happens is_connected].
  - destruct (threads c !! t) as [p|] eqn:Ht; [|intros [= <-]; lia]. intros H.
    apply obind_Ret in H as ([p' st'] & Hr & [= <-]). split; [apply length_insert|].
    pose proof (quiet_budget t p p' st' (instance c) c Ht (receive_quiet _ _ _ _ _ Hr)). lia.
  - destruct (threads c !! t) as [p|] eqn:Ht; [|intros [= <-]; lia]. intros H.
    apply obind_Ret in H as ([[p' st'] i'] & Hr & [= <-]). split; [apply length_insert|].
    destruct (turn_cases _ _ _ _ _ _ _ Hr) as [Hq|(-> & -> & Hl & Hon)].
    + pose proof (quiet_budget t p p' st' i' c Ht Hq). lia.
    + pose proof (announce_budget t st' i' c Ht Hl Hon). lia.
  - intros [= <-]. split; [done|]. unfold budget, launches. cbn [threads state comissioning_on set_comissioning set_commission launched].
    destruct (comissioning_on (state c)); lia.
  - intros H. apply obind_Ret in H as ([? i'] & _ & [= <-]). split; [done|]. unfold budget, launches. cbn [threads state comissioning_on set_comissioning set_commission launched]. lia.
  - intros H. apply obind_Ret in H as ([out st'] & Ha & [= <-]). split; [done|].
    apply released_keeps in Ha as (Hon & Hl & _). unfold budget, launches. cbn [threads state]. rewrite Hon, Hl. lia.
Qed.

Lemma run_budget a es c c' :
  run a es c = Ret c' ->
  (budget c' <= budget c + length (threads c) * length (List.filter is_connected es))%nat.
Proof.
  revert c. induction es as [|e es IH]; intros c; cbn [run List.filter]; [intros [= <-]; lia|].
  intros H. apply obind_Ret in H as (c1 & Hc & Hr). destruct (happens_budget a e c c1 Hc) as [Hl Hb].
  specialize (IH c1 Hr). rewrite Hl in IH. destruct (is_connected e); cbn [length]; lia.
Qed.

(** ** What is launched *)

(** The node that would be used is allocated, and so is every node used since
    [st0]. *)
Definition allocated (a : margs) (st0 st : elastic) : Prop :=
  (forall x, node_to_use st = Some x -> x ∈ hosts a) /\
  exists new, launched st = launched st0 ++ new /\ Forall (fun l => l.1.1 ∈ hosts a) new.

Lemma pick_node_allocated hosts used old x :
  (forall y, old = Some y -> y ∈ hosts) -> pick_node hosts used old = Some x -> x ∈ hosts.
Proof.
  intros Hold. unfold pick_node. destruct (list_find _ hosts) as [[n y]|] eqn:E; [|by apply Hold].
  intros [= <-]. apply list_find_Some in E as [E _]. by eapply list_elem_of_lookup_2.
Qed.

Lemma turn_allocated a st0 p st i p' st' i' :
  turn a p st i = Ret (p', st', i') -> allocated a st0 st -> allocated a st0 st'.
Proof.
  intros Ht Hal. pose proof Hal as (Hn & new & Hl & Hf).
  destruct p as [|recorded [|r rs]|ph|reply]; unfold turn in Ht; try (by injection Ht as _ <- _).
  - destruct ph; cbn [commission_action obind] in Ht; try (by injection Ht as _ <- _).
    + by destruct (malleability_tolerance a <=? _); injection Ht as _ <- _.
    + destruct (guard _ _) as [[]| |]; try done. injection Ht as _ <- _. split; [|by exists new]. intros x Hx.
      exact (pick_node_allocated _ _ _ _ Hn Hx).
    + destruct (node_to_use st) as [x|] eqn:Hx; [|done]. injection Ht as _ <- _.
      split; [intros y Hy; apply Hn; by rewrite <- Hx|]. exists (new ++ [(x, to_modify st, num_active_storages i)]).
      cbn. split; [by rewrite Hl, app_assoc|]. apply Forall_app. split; [done|]. constructor; [by apply Hn|constructor].
    + destruct (dataservers_response st i); [|done..]. by injection Ht as _ <- _.
Qed.

Lemma run_allocated a es c c' st0 : run a es c = Ret c' -> allocated a st0 (state c) -> allocated a st0 (state c').
Proof.
  revert c. induction es as [|e es IH]; intros c; cbn [run]; [by intros [= <-]|].
  intros H Hal. apply obind_Ret in H as (c1 & Hc & Hr). apply (IH c1 Hr). clear IH Hr.
  destruct e as [t payload|t| |host|]; cbn [happens] in Hc.
  - destruct (threads c !! t) as [p|]; [|by injection Hc as <-]. apply obind_Ret in Hc as ([p' st'] & Hrecv & [= <-]).
    unfold receive in Hrecv. destruct p; try (by injection Hrecv as _ <-). destruct (strlen payload =? 0); [by injection Hrecv as _ <-|].
    destruct (unpack_metrics payload); [|done..]. by injection Hrecv as _ <-.
  - destruct (threads c !! t) as [p|]; [|by injection Hc as <-].
    apply obind_Ret in Hc as ([[p' st'] i'] & Ht & [= <-]). by eapply turn_allocated.
  - by injection Hc as <-.
  - by apply obind_Ret in Hc as ([? i'] & _ & [= <-]).
  - apply obind_Ret in Hc as ([out st'] & Ha & [= <-]). apply released_keeps in Ha as (_ & Hl & Hn).
    destruct Hal as [Hx Hnew]. split; cbn [state].
    + intros x Hs. apply Hx. destruct Hn as [<-|Hn]; [done|by rewrite Hn in Hs].
    + by rewrite Hl.
Qed.

(** ** Properties *)

(** C27. However the reports arrive and the worker threads are interleaved, the
    launches are bounded by the connections: from a server on which no scaling
    is going on, every connection, and the start, is good for one launch per
    worker thread and no more, so a server with one worker launches one server
    at a time; and only allocated nodes are used. *)
Theorem launches_bounded (a : margs) (es : list event) (c c' : pool)
  (Hidle : Forall (fun ph => ph = Idle) (threads c)) (Hoff : comissioning_on (state c) = false)
  (Hnode : forall x, node_to_use (state c) = Some x -> x ∈ hosts a) (Hrun : run a es c = Ret c') :
  exists new, launched (state c') = launched (state c) ++ new /\
    (length new <= length (threads c) * (length (List.filter is_connected es) + 1))%nat /\
    Forall (fun l => l.1.1 ∈ hosts a) new.
Proof.
  destruct (run_allocated a es c c' (state c) Hrun) as (_ & new & Hl & Hf).
  { split; [done|]. exists []. by rewrite app_nil_r. }
  exists new. split; [done|]. split; [|done]. pose proof (run_budget a es c c' Hrun) as Hb.
  unfold budget, launches in Hb. rewrite Hl, Hoff, length_app in Hb.
  rewrite (total_idle _ Hidle) in Hb. destruct (comissioning_on (state c')); lia.
Qed.

(** ** Examples *)

Definition workers (n : nat) : pool := mkPool idle sample_imss (repeat Idle n).

(** A thread from the message to the reply. *)
Definition report_served (t n : nat) : list event := Report t slow_report :: repeat (Turn t) n.

(** Two threads pass the test before either of them sets the flag: both launch a
    server, on the same node and with the same identifier. *)
Definition both : list event :=
  [Report 0 slow_report; Report 1 slow_report; Turn 0; Turn 1; Turn 0; Turn 1; Turn 0; Turn 1]
  ++ repeat (Turn 0) 6 ++ repeat (Turn 1) 6.

Theorem concurrent_reports_launch_twice :
  exists c, run sample_margs both (workers 2) = Ret c /\
    launched (state c) = [(B "node2", 1, 2); (B "node2", 1, 2)].
Proof. eexists. split; vm_compute; reflexivity. Qed.

Lemma launches_bounded_witness :
  exists c new, run sample_margs (both ++ [Connected; Added (B "node2")]) (workers 2) = Ret c /\
    launched (state c) = new /\ (length new <= 4)%nat /\ Forall (fun l => l.1.1 ∈ [B "node0"; B "node1"; B "node2"]) new.
Proof.
  destruct (run sample_margs (both ++ [Connected; Added (B "node2")]) (workers 2)) as [c| |] eqn:E;
    try (vm_compute in E; discriminate E).
  destruct (launches_bounded sample_margs (both ++ [Connected; Added (B "node2")]) (workers 2) c) as (new & Hl & Hn & Hf).
  - repeat constructor.
  - reflexivity.
  - discriminate.
  - exact E.
  - exists c, new. split; [reflexivity|]. split; [exact Hl|]. split; [exact Hn|exact Hf].
Defined.

(** One worker serves one report after the other: the second launches nothing. *)
Example one_worker_launches_once :
  exists c, run sample_margs (report_served 0 11 ++ report_served 0 11) (workers 1) = Ret c /\ launches c = 1%nat.
Proof. eexists. split; vm_compute; reflexivity. Qed.
