(* ===== verification/MetaServer.v ===== *)
(** * The metadata server

    [stat_worker_helper] (src/src/workers.c): the request line
    ["%u %s %s %s"] selects an operation on the store of MetaStore.v; replies
    and structures go through the streams of Comms.v, reports of clients to
    Elasticity.v.  [curr_global_imss] points into the store and is modelled by
    the key it points to. *)

From S2P Require Import Prelude Types Paths Intervals Store DataServer Wire Comms MetaStore Elasticity.

(** ** Constants (include/workers.h, include/comms.h) *)
Definition GETDIR : Z := 1.
Definition CLOSE_OP : Z := 7.
Definition OPEN_OP : Z := 8.
Definition IMSS_INFO : Z := 6.
Definition MSG_EMPTY_DIRECTORY : bytes := B "EMPTY_DIRECTORY".
Definition MSG_DECOM_DATASERVERS : bytes := B "DECOMISSIONING_COMPLETE".
Definition MSG_CLOSE_OP : bytes := B "CLOSE".
Definition MSG_OPEN_OP : bytes := B "OPEN".

(** What a request sees of the outside: the arguments of the server, the
    message waiting on the channel of the client, whether the allocator, the
    receives, the sends and the connection to a new server succeed, and the
    address of a sent array. *)
Record menv := mkMenv {
  m_imss_uri : bytes;
  m_worker_uid : Z;
  m_args : margs;
  m_num_data_servers : Z;
  m_payload : bytes;
  m_malloc_ok : bool;
  m_recv_ok : bool;
  m_send_ok : bool;
  m_connect_ok : bool;
  m_ptr : Z
}.

Record mserver := mkMserver {
  mstore : meta_store;
  curr_global_imss : option bytes;
  el : elastic;
  meps : gset Z
}.

Definition set_mstore (h : meta_store) (s : mserver) : mserver :=
  mkMserver h (curr_global_imss s) (el s) (meps s).
Definition set_el (e : elastic) (s : mserver) : mserver :=
  mkMserver (mstore s) (curr_global_imss s) e (meps s).

(** Return value, replies in the order they are sent, new state. *)
Definition mresult : Type := outcome (Z * list reply * mserver).

Definition msay (e : menv) (m : bytes) : list reply := if m_send_ok e then [Msg m] else [].

(** [SendConfirmationMessage] and [send_dynamic_stream] of a string, and the
    return value when they fail. *)
Definition mconfirm (e : menv) (m : bytes) (s : mserver) : mresult :=
  Ret (if m_send_ok e then 0 else -1, msay e m, s).

(** ** Request lines *)

Record mreq := mkMreq {
  operation : Z;
  mmode : bytes;
  mnumber : bytes;
  muri : bytes;
  num_input_read : Z;
  extra : bytes
}.

(** [sscanf(req, "%u %s %s %s %n")]: a field that does not match leaves the
    rest at its initial value. *)
Definition parse_meta (req : bytes) : outcome mreq :=
  match scan_u32 req with
  | None => Ret (mkMreq 0 [] [] [] 0 [])
  | Some (op, r1) =>
      match scan_str MODE_SIZE r1 with
      | None => Ret (mkMreq op [] [] [] 1 [])
      | Some (m, r2) =>
          let* m := m in
          match scan_str 16 r2 with
          | None => Ret (mkMreq op m [] [] 2 [])
          | Some (n, r3) =>
              let* n := n in
              match scan_str URI_ r3 with
              | None => Ret (mkMreq op m n [] 3 [])
              | Some (u, r4) => let* u := u in Ret (mkMreq op m n u 4 (skip_space r4))
              end
          end
      end
  end.

(** [(uint64_t)atoi(number)]. *)
Definition atoi (s : bytes) : Z := match scan_d s with Some (n, _) => i32 n | None => 0 end.

(** The key of the map: without its last slash, except the root. *)
Definition map_key (e : menv) (uri : bytes) : bytes :=
  if streq uri (m_imss_uri e) then uri else snd (RemoveLastSlash uri).

(** The dataset at an address.  Behind an instance structure the fields of a
    dataset lie in memory that was never written. *)
Definition as_dataset (v : BufferValue meta_obj) : outcome dataset_info :=
  match data v with
  | Dataset d => Ret d
  | Instance_ _ => Undef Uninitialised
  | Freed => Undef UseAfterFree
  end.

(** Writing through the address of the entry [k]. *)
Definition store_dataset (k : bytes) (v : BufferValue meta_obj) (d : dataset_info) (s : mserver)
  : outcome mserver :=
  let* h := store_block k (mkBuf (Dataset d) (bsize v)) (mstore s) in Ret (set_mstore h s).

Definition is_dirty (d : dataset_info) : bool := prefixb STATUS_DIRTY (status d).
Definition is_dest (d : dataset_info) : bool := prefixb STATUS_DEST (status d).

(** ** Reads *)

Definition getdir_op (e : menv) (key : bytes) (s : mserver) : mresult :=
  let* (n, buf) := HierarchicalMapListDir key (mstore s) in
  match buf with
  | None => mconfirm e (if n =? -1 then err_code else MSG_EMPTY_DIRECTORY) s
  | Some b => Ret (if m_send_ok e then 0 else -1,
                   if m_send_ok e then [Data (take (Z.to_nat (n * URI_)) b)] else [], s)
  end.

(** [READ_OP]: an instance for [IMSS_INFO], otherwise a dataset, which counts
    as opened when [operation] is 1. *)
Definition mread_op (e : menv) (rq : mreq) (key : bytes) (s : mserver) : mresult :=
  let* found := HierarchicalMapGet key (mstore s) in
  match found with
  | None => mconfirm e err_code s
  | Some v =>
      if operation rq =? IMSS_INFO
      then match data v with
           | Instance_ i =>
               let* msg := send_imss (m_ptr e) i in
               Ret (0, match msg with
                       | Some b => if m_send_ok e then [Data b] else []
                       | None => []
                       end, s)
           | Dataset _ => Undef OutOfBounds
           | Freed => Undef UseAfterFree
           end
      else
        let* d := as_dataset v in
        if is_dirty d then mconfirm e err_code s
        else
          let* d := if operation rq =? 1
                    then let* n := add_i32 (n_open d) 1 in Ret (set_n_open n d) else Ret d in
          let* s := store_dataset key v d s in
          let* msg := send_dataset (m_ptr e) d in
          Ret (if m_send_ok e then 0 else -1, if m_send_ok e then [Data msg] else [], s)
  end.

(** ** Deleting, closing and opening *)

(** The entry is marked dirty, listed as garbage and removed. *)
Definition drop_entry (key : bytes) (s : mserver) : outcome mserver :=
  let* (_, h) := HierarchicalMapPutInGarbageCollector key (mstore s) in
  let* (_, h) := HierarchicalMapDeleteEntry key h in
  Ret (set_mstore h s).

Definition mdelete_op (e : menv) (rq : mreq) (key : bytes) (s : mserver) : mresult :=
  let* found := HierarchicalMapGet key (mstore s) in
  match found with
  | None => mconfirm e err_code s
  | Some v =>
      let* d := as_dataset v in
      let d := if operation rq =? 4 then set_status STATUS_DEST d else d in
      if n_open d =? 0
      then let* s := store_dataset key v (set_status STATUS_DIRTY d) s in
           let* s := drop_entry key s in
           mconfirm e MSG_DELETE_OP s
      else let* s := store_dataset key v d s in
           mconfirm e MSG_NODELETE_OP s
  end.

Definition mclose_op (e : menv) (key : bytes) (s : mserver) : mresult :=
  let* found := HierarchicalMapGet key (mstore s) in
  match found with
  | None => mconfirm e err_code s
  | Some v =>
      let* d := as_dataset v in
      let d := if 0 <? n_open d then set_n_open (n_open d - 1) d else d in
      if is_dest d && (n_open d =? 0)
      then let* s := store_dataset key v (set_status STATUS_DIRTY d) s in
           let* s := drop_entry key s in
           mconfirm e MSG_DELETE_OP s
      else let* s := store_dataset key v d s in
           mconfirm e MSG_CLOSE_OP s
  end.

(** A dirty dataset is taken out of the garbage vector and used again. *)
Definition recover (key : bytes) (v : BufferValue meta_obj) (d : dataset_info) (s : mserver)
  : outcome (dataset_info * mserver) :=
  if is_dirty d
  then
    let* (_, h) := HierarchicalMapPopFromGarbageCollector key (mstore s) in
    let d := set_status STATUS_ATACH (ClearIntervalsStructure d) in
    let* s := store_dataset key v d (set_mstore h s) in
    Ret (d, s)
  else Ret (d, s).

Definition mopen_op (e : menv) (key : bytes) (s : mserver) : mresult :=
  let* found := HierarchicalMapGet key (mstore s) in
  match found with
  | None => mconfirm e err_code s
  | Some v =>
      let* d := as_dataset v in
      let* (d, s) := recover key v d s in
      let* n := add_i32 (n_open d) 1 in
      let* s := store_dataset key v (set_n_open n d) s in
      mconfirm e MSG_OPEN_OP s
  end.

(** ** Renaming *)

(** Both names of ["old,new"], without their last slash. *)
Definition rename_names (uri : bytes) : option (bytes * bytes) :=
  match strchr comma uri with
  | Some i => Some (snd (RemoveLastSlash (take i uri)), snd (RemoveLastSlash (drop (S i) uri)))
  | None => None
  end.

Definition mrename_op (e : menv) (uri : bytes) (s : mserver) : mresult :=
  match rename_names uri with
  | None => mconfirm e MSG_ERROR_OP s
  | Some (old_key, new_key) =>
      let* (r, h) := HierarchicalMapRenameRegularFile old_key new_key (mstore s) in
      mconfirm e (if r =? -1 then MSG_ERROR_OP else MSG_RENAME_OP) (set_mstore h s)
  end.

Definition mrename_dir_op (e : menv) (uri : bytes) (s : mserver) : mresult :=
  match rename_names uri with
  | None => Ret (0, msay e MSG_ERROR_OP, s)
  | Some (old_key, new_key) =>
      let* (_, h) := rename_dir_metadata old_key new_key (mstore s) in
      let '(r, h) := HierarchicalMapRenameKey old_key new_key h in
      mconfirm e (if r =? 0 then MSG_RENAME_OP else MSG_ERROR_OP) (set_mstore h s)
  end.

(** ** Writes *)

(** A structure that is new to the server.  A failed allocation locks
    [memory_protect] a second time.  When the receive fails the entry is made
    all the same, from zeroed memory, and its memory is freed. *)
Definition create_op (e : menv) (rq : mreq) (key : bytes) (s : mserver) : outcome (Z * mserver) :=
  if strlen (m_payload e) =? 0 then Ret (-1, s)
  else if negb (m_malloc_ok e) then Undef Deadlock
  else if operation rq =? IMSS_INFO
  then
    if negb (m_recv_ok e) then Undef Uninitialised
    else
      let* (r, i) := recv_imss (m_payload e) in
      match i with
      | None => Undef Uninitialised
      | Some i =>
          let* (_, h) := HierarchicalMapPut key (Instance_ i) (strlen (m_payload e)) true true (mstore s) in
          Ret (0, mkMserver h (Some key) (el s) (meps s))
      end
  else
    let* d := if m_recv_ok e then let* (_, d) := recv_dataset (m_payload e) in Ret d else Ret None in
    match d with
    | Some d =>
        let* (_, h) := HierarchicalMapPut key (Dataset d) (strlen (m_payload e)) true true (mstore s) in
        Ret (0, set_mstore h s)
    | None =>
        let* (_, h) := HierarchicalMapPut key Freed (strlen (m_payload e)) true false (mstore s) in
        Ret (-1, set_mstore h s)
    end.

(** The intervals of a received dataset, recorded one by one. *)
Fixpoint record_intervals (es : list IntervalEntry) (d : dataset_info) : outcome dataset_info :=
  match es with
  | [] => Ret d
  | x :: es' =>
      let* d := SetInterval d (value x) (left_interval x) (right_interval x) in
      record_intervals es' d
  end.

(** The entries of a received dataset. *)
Definition received_entries (d : dataset_info) : list IntervalEntry :=
  match intervals d with Some arr => omap id arr | None => [] end.

(** The update of an instance, applied to the memory of a dataset: the four
    bytes of [num_active_storages] lie on the last byte of [policy] and the
    first three of [original_name]. *)
Definition stamp_active (n : Z) (d : dataset_info) : outcome dataset_info :=
  match le_put 4 n with
  | b0 :: b =>
      if (strlen (policy d) =? 15) && negb (ascii_eqb b0 NUL) then Undef OutOfBounds
      else Ret (mkDataset (uri_ d) (type_ d) (policy d) (cstr (b ++ drop 3 (put_str 256 (original_name d))))
                  (first_parent_dir d) (session_plcy d) (num_data_elem d) (data_entity_size d) (repl_factor d)
                  (repl_type d) (imss_d d) (local_conn d) (dsize d) (n_servers d) (link d) (is_link d)
                  (n_open d) (status d) (n_servers_when_created d) (num_intervals d) (capacity d)
                  (first_block_id d) (last_block_id d) (intervals d))
  | [] => Ret d
  end.

(** A dataset the server already has: text after the URI is taken for the
    update of an instance, otherwise the intervals of the message are
    recorded. *)
Definition update_op (e : menv) (rq : mreq) (key : bytes) (v : BufferValue meta_obj) (s : mserver)
  : outcome (Z * mserver) :=
  let* d := as_dataset v in
  let* (d, s) := recover key v d s in
  match extra rq with
  | _ :: _ =>
      let* d := stamp_active (atoi (mnumber rq)) d in
      let* s := store_dataset key v d s in
      Ret (0, s)
  | [] =>
      if strlen (m_payload e) =? 0 then Ret (-1, s)
      else if negb (m_malloc_ok e && m_recv_ok e) then Ret (-1, s)
      else
        let* (_, r) := recv_dataset (m_payload e) in
        match r with
        | None => Ret (-1, s)
        | Some r =>
            let* d := record_intervals (received_entries r) d in
            let* s := store_dataset key v d s in
            Ret (0, s)
        end
  end.

(** The instance [curr_global_imss] points to. *)
Definition global_instance (s : mserver) : outcome (option imss_info) :=
  match curr_global_imss s with
  | None => Ret None
  | Some k =>
      let* v := HierarchicalMapGet k (mstore s) in
      match v with
      | Some v => match data v with Instance_ i => Ret (Some i) | _ => Undef UseAfterFree end
      | None => Undef UseAfterFree
      end
  end.

(** Writing through [curr_global_imss]. *)
Definition store_instance (i : imss_info) (s : mserver) : outcome mserver :=
  match curr_global_imss s with
  | None => Undef NullDeref
  | Some k =>
      let* v := HierarchicalMapGet k (mstore s) in
      match v with
      | Some v => let* h := store_block k (mkBuf (Instance_ i) (bsize v)) (mstore s) in Ret (set_mstore h s)
      | None => Undef UseAfterFree
      end
  end.

(** [SETPERFORMANCE]: the first report looks the instance up under the URI of
    the server. *)
Definition performance_op (e : menv) (s : mserver) : mresult :=
  let* s := match curr_global_imss s with
            | Some _ => Ret s
            | None =>
                let* v := HierarchicalMapGet (m_imss_uri e) (mstore s) in
                Ret (match v with
                     | Some _ => if (strlen (m_payload e) =? 0) || negb (m_recv_ok e) then s
                                 else mkMserver (mstore s) (Some (m_imss_uri e)) (el s) (meps s)
                     | None => s
                     end)
            end in
  let* inst := global_instance s in
  let* (r, st, inst') := Malleability (m_args e) (if m_recv_ok e then m_payload e else []) inst (el s) in
  let* s := match inst' with
            | Some i => if bool_decide (inst = inst') then Ret s else store_instance i s
            | None => Ret s
            end in
  Ret (0, match r with Some r => msay e r | None => [] end, set_el st s).

(** [SET]: the confirmation is sent before anything else happens. *)
Definition mset_op (e : menv) (rq : mreq) (key : bytes) (perf : bool) (s : mserver) : mresult :=
  if perf
  then let* (r, out, s) := performance_op e s in Ret (r, msay e MSG_OK_OP ++ out, s)
  else
    let* found := HierarchicalMapGet key (mstore s) in
    let* (r, s) := match found with
                   | None => create_op e rq key s
                   | Some v => update_op e rq key v s
                   end in
    Ret (r, msay e MSG_OK_OP, s).

(** ** Other requests *)

(** [SETSERVER]: the new server is added to the instance.  A failed connection
    formats a field that was never set. *)
Definition setserver_op (e : menv) (rq : mreq) (s : mserver) : mresult :=
  if negb (m_connect_ok e) then Undef Uninitialised
  else if 100 <=? operation rq then Undef OutOfBounds
  else
    let s := set_el (set_comissioning false (el s)) s in
    let* inst := global_instance s in
    match inst with
    | None => Undef NullDeref
    | Some i =>
        let* (_, i) := AddIPS (muri rq) i in
        let* s := store_instance i s in
        Ret (0, [], s)
    end.

Definition set_acks (n on : Z) (st : elastic) : elastic :=
  mkElasticity (elasticity_records_history st) (number_of_history_records st)
    (consecutive_scale_up_signals st) (comissioning_on st) on (number_active st) (to_modify st)
    (node_to_use st) n (pending st) (launched st).

(** [MSG_DECOM_DATASERVERS]: the last acknowledgement releases the waiting
    clients. *)
Definition decom_op (e : menv) (s : mserver) : mresult :=
  let n := acks_received (el s) + 1 in
  if m_num_data_servers e + 1 <=? n
  then
    let* inst := global_instance s in
    let* (out, st) := AttendPendingRequests inst (el s) in
    Ret (0, if m_send_ok e then Msg <$> out else [], set_el (set_acks 0 0 st) s)
  else Ret (0, [], set_el (set_acks n (mall_on (el s)) (el s)) s).

Definition release_op (e : menv) (s : mserver) : mresult :=
  Ret (0, [], mkMserver (mstore s) (curr_global_imss s) (el s) (meps s ∖ {[m_worker_uid e]})).

(** ** [stat_worker_helper] *)

Definition mget (e : menv) (rq : mreq) (key : bytes) (s : mserver) : mresult :=
  let op := u64 (atoi (mnumber rq)) in
  if op =? GETDIR then getdir_op e key s
  else if op =? READ_OP then mread_op e rq key s
  else if op =? RELEASE then release_op e s
  else if op =? DELETE_OP then mdelete_op e rq key s
  else if op =? RENAME_OP then mrename_op e (muri rq) s
  else if op =? RENAME_DIR_DIR_OP then mrename_dir_op e (muri rq) s
  else if op =? CLOSE_OP then mclose_op e key s
  else if op =? OPEN_OP then mopen_op e key s
  else Ret (0, [], s).

Definition stat_worker_helper (e : menv) (req : bytes) (s : mserver) : mresult :=
  if streq req MSG_DECOM_DATASERVERS then decom_op e s
  else
    let* rq := parse_meta req in
    if streq (mmode rq) (B "SETSERVER") then setserver_op e rq s
    else
      let key := map_key e (muri rq) in
      if streq (mmode rq) (B "GET") then mget e rq key s
      else if streq (mmode rq) (B "SET") then mset_op e rq key false s
      else if streq (mmode rq) (B "SETPERFORMANCE") then mset_op e rq key true s
      else Ret (0, [], s).

(** ** The lines clients send *)

(** ["%u <mode> <number> <uri>"], as the client formats every request to a
    metadata server. *)
Definition meta_line (op : Z) (mode number uri : bytes) : bytes :=
  print_u op ++ sp :: mode ++ sp :: number ++ sp :: uri.

Definition meta_word (n : Z) (w : bytes) : Prop := w <> [] /\ no_space w /\ strlen w < n.

Lemma scan_str_word n w r :
  meta_word n w -> ends_word r -> scan_str n (sp :: w ++ r) = Some (Ret w, r).
Proof.
  intros (Hne & Hw & Hl) Hr. unfold scan_str. rewrite scan_s_sp by done.
  by destruct (Z.ltb_spec (strlen w) n); [|lia].
Qed.

Lemma parse_meta_line op mode number uri :
  0 <= op < 2 ^ 32 -> meta_word MODE_SIZE mode -> meta_word 16 number -> meta_word URI_ uri ->
  parse_meta (meta_line op mode number uri) = Ret (mkMreq op mode number uri 4 []).
Proof.
  intros Hop Hm Hn Hu. unfold parse_meta, meta_line.
  change (scan_u32 (print_u op ++ ?r)) with (scan_u32 (sp :: print_u op ++ r)).
  rewrite scan_u32_print by done. rewrite scan_str_word by done. cbn [obind].
  rewrite scan_str_word by done. cbn [obind].
  rewrite <- (app_nil_r uri) at 1. rewrite scan_str_word by done. done.
Qed.

Lemma atoi_print k : 0 <= k < 2 ^ 31 -> atoi (print_u k) = k.
Proof.
  intros Hk. unfold atoi. rewrite <- (app_nil_r (print_u k)).
  change (scan_d (print_u k ++ [])) with (scan_d (sp :: print_u k ++ [])).
  rewrite scan_d_print by (done || lia). apply i32_small. lia.
Qed.

Lemma number_word k : 0 <= k < 2 ^ 31 -> meta_word 16 (print_u k).
Proof.
  intros Hk. split; [|split].
  - destruct (print_u_head k) as (a & r & -> & _); [lia|done].
  - apply print_u_nospace. lia.
  - pose proof (strlen_print_u31 k Hk). lia.
Qed.

Lemma meta_line_not_ack op mode number uri :
  0 <= op -> streq (meta_line op mode number uri) MSG_DECOM_DATASERVERS = false.
Proof.
  intros Hop. apply streq_false. unfold meta_line.
  destruct (print_u_head op Hop) as (a & r & -> & Ha). intros [= -> _]. done.
Qed.

(** A [GET] line reaches its operation. *)
Lemma get_line_dispatch e op k uri s :
  0 <= op < 2 ^ 32 -> 0 <= k < 2 ^ 31 -> meta_word URI_ uri ->
  stat_worker_helper e (meta_line op (B "GET") (print_u k) uri) s
  = mget e (mkMreq op (B "GET") (print_u k) uri 4 []) (map_key e uri) s.
Proof.
  intros Hop Hk Hu. unfold stat_worker_helper. rewrite meta_line_not_ack by lia.
  rewrite parse_meta_line; [|done| |by apply number_word|done]; [done|].
  split; [done|]. split; [by repeat constructor|done].
Qed.

(** A [SET] line reaches [create_op] or [update_op] behind its
    confirmation. *)
Lemma set_line_dispatch e op n uri s :
  0 <= op < 2 ^ 32 -> 0 <= n < 2 ^ 31 -> meta_word URI_ uri ->
  stat_worker_helper e (meta_line op (B "SET") (print_u n) uri) s
  = mset_op e (mkMreq op (B "SET") (print_u n) uri 4 []) (map_key e uri) false s.
Proof.
  intros Hop Hk Hu. unfold stat_worker_helper. rewrite meta_line_not_ack by lia.
  rewrite parse_meta_line; [|done| |by apply number_word|done]; [done|].
  split; [done|]. split; [by repeat constructor|done].
Qed.

(** ** The invariant of the store

    Every entry is filed in the map of its parent directory; a stored dataset
    is never marked dirty (marking is followed by removal) and its open
    counter is not negative. *)

Definition good_obj (o : meta_obj) : Prop :=
  match o with Dataset d => is_dirty d = false /\ 0 <= n_open d | _ => True end.
Definition good_entry (d k : bytes) (v : BufferValue meta_obj) : Prop :=
  parent_dir k = Ret d /\ good_obj (data v).
Definition store_inv (h : meta_store) : Prop :=
  forall d m, hiermap h !! d = Some m -> map_Forall (good_entry d) (buffer m).
Definition meta_inv (s : mserver) : Prop := store_inv (mstore s).

Lemma inv_set_dir d m h :
  store_inv h -> map_Forall (good_entry d) (buffer m) ->
  store_inv (set_hiermap (<[d := m]> (hiermap h)) h).
Proof.
  intros Hh Hm d' m' Hl. simpl in Hl. apply lookup_insert_Some in Hl as [[<- <-]|[_ Hl]]; [done|]. by apply Hh.
Qed.

Lemma inv_get h k v : store_inv h -> HierarchicalMapGet k h = Ret (Some v) -> good_obj (data v).
Proof.
  intros Hh Hg. destruct (parent_dir k) as [d| |] eqn:Hd.
  2,3: unfold HierarchicalMapGet, get_child_unsafe in Hg; by rewrite Hd in Hg.
  rewrite (HGet_eq _ _ _ Hd) in Hg. destruct (hiermap h !! d) as [m|] eqn:Hm; [|done].
  injection Hg as Hg. by destruct (Hh d m Hm k v Hg).
Qed.

Lemma inv_store_block k v h h' :
  store_inv h -> good_obj (data v) -> store_block k v h = Ret h' -> store_inv h'.
Proof.
  unfold store_block. intros Hh Hv. destruct (parent_dir k) as [d| |] eqn:Hd; try done. simpl.
  destruct (hiermap h !! d) as [m|] eqn:Hm; [|done]. intros [= <-].
  apply inv_set_dir; [done|]. apply map_Forall_insert_2; [done|]. by apply Hh.
Qed.

Lemma inv_empty : map_Forall (good_entry []) (buffer (@empty_map meta_obj)).
Proof. apply map_Forall_empty. Qed.

Lemma inv_put k (o : meta_obj) n reused zero h r h' :
  store_inv h -> good_obj o -> HierarchicalMapPut k o n reused zero h = Ret (r, h') -> store_inv h'.
Proof.
  intros Hh Ho. unfold HierarchicalMapPut. destruct (parent_dir k) as [d| |] eqn:Hd; try done. simpl.
  set (h0 := if reused then h else _).
  assert (store_inv h0) as Hh0.
  { unfold h0, IncreaseMemoryOccupied. destruct reused; [done|]. by case_match. }
  assert (store_inv (set_hiermap (<[d := put k (mkBuf o n) (default empty_map (hiermap h0 !! d))]>
            (hiermap h0)) h0)) as Hh1.
  { apply inv_set_dir; [done|]. unfold put.
    assert (map_Forall (good_entry d) (buffer (default empty_map (hiermap h0 !! d)))) as Hm.
    { destruct (hiermap h0 !! d) as [m|] eqn:Hm; simpl; [by apply Hh0|]. apply map_Forall_empty. }
    case_match; [done|]. by apply map_Forall_insert_2. }
  destruct zero; [|by intros [= _ <-]]. unfold CheckIfDirectory.
  destruct (is_directory o); try done. simpl. intros [= _ <-].
  case_match; [|done]. unfold InsertDirectory. case_match; [done|].
  apply inv_set_dir; [done|]. apply map_Forall_empty.
Qed.

Lemma inv_garbage_put k h r h' :
  store_inv h -> HierarchicalMapPutInGarbageCollector k h = Ret (r, h') -> store_inv h'.
Proof.
  unfold HierarchicalMapPutInGarbageCollector. intros Hh. destruct (parent_dir k) as [d| |]; try done. simpl.
  destruct (hiermap h !! d) as [m|] eqn:Hm; intros [= _ <-]; [|done]. apply inv_set_dir; [done|]. exact (Hh d m Hm).
Qed.

Lemma inv_garbage_pop k h r h' :
  store_inv h -> HierarchicalMapPopFromGarbageCollector k h = Ret (r, h') -> store_inv h'.
Proof.
  unfold HierarchicalMapPopFromGarbageCollector. intros Hh. destruct (parent_dir k) as [d| |]; try done. simpl.
  destruct (hiermap h !! d) as [m|] eqn:Hm; [|by intros [= _ <-]].
  unfold garbage_collector_pop.
  destruct (bool_decide _); intros [= _ <-]; (apply inv_set_dir; [done|]; exact (Hh d m Hm)).
Qed.

Lemma inv_delete k h r h' :
  store_inv h -> HierarchicalMapDeleteEntry k h = Ret (r, h') -> store_inv h'.
Proof.
  unfold HierarchicalMapDeleteEntry. intros Hh. destruct (parent_dir k) as [d| |]; try done. simpl.
  destruct (hiermap h !! d) as [m|] eqn:Hm; [|by intros [= _ <-]]. unfold delete_metadata_stat_worker.
  destruct (buffer m !! k); intros [= _ <-]; (apply inv_set_dir; [done|]).
  - apply map_Forall_delete. exact (Hh d m Hm).
  - exact (Hh d m Hm).
Qed.

(** Removing an entry whose dataset was just marked: the mark is gone with
    it. *)
Lemma inv_drop k v d s s1 s2 :
  meta_inv s -> store_dataset k v d s = Ret s1 -> drop_entry k s1 = Ret s2 -> meta_inv s2.
Proof.
  unfold meta_inv, store_dataset, drop_entry, store_block. intros Hh.
  destruct (parent_dir k) as [p| |] eqn:Hp; try done. cbn [obind].
  destruct (hiermap (mstore s) !! p) as [m|] eqn:Hm; [|done]. cbn [obind]. intros [= <-].
  unfold HierarchicalMapPutInGarbageCollector, HierarchicalMapDeleteEntry. cbn [set_mstore mstore].
  rewrite Hp. cbn [obind set_hiermap hiermap]. rewrite lookup_insert_eq. cbn [obind set_hiermap hiermap].
  rewrite lookup_insert_eq. unfold delete_metadata_stat_worker. simpl. rewrite lookup_insert_eq.
  intros [= <-]. simpl. intros d' m' Hl. simpl in Hl.
  apply lookup_insert_Some in Hl as [[<- <-]|[Hne Hl]].
  - simpl. rewrite delete_insert_eq. apply map_Forall_delete. by apply (Hh p).
  - rewrite !lookup_insert_ne in Hl by done. by apply Hh.
Qed.

Lemma inv_store_dataset k v d s s' :
  meta_inv s -> is_dirty d = false -> 0 <= n_open d -> store_dataset k v d s = Ret s' -> meta_inv s'.
Proof.
  unfold meta_inv, store_dataset. intros Hh Hd Hn. destruct (store_block _ _ _) as [h| |] eqn:E; try done.
  intros [= <-]. simpl. by eapply inv_store_block; [| |exact E].
Qed.

Lemma add_i32_Ret x y z : add_i32 x y = Ret z -> z = x + y.
Proof. unfold add_i32. case_match; [by intros [= <-]|done]. Qed.

Lemma not_dirty_set n d : is_dirty (set_n_open n d) = is_dirty d.
Proof. done. Qed.

Lemma record_intervals_fields es d d' :
  record_intervals es d = Ret d' -> status d' = status d /\ n_open d' = n_open d.
Proof.
  revert d. induction es as [|x es IH]; intros d; simpl; [by intros [= <-]|].
  destruct (SetInterval d _ _ _) as [d1| |] eqn:E; try done. cbn [obind]. intros H.
  destruct (IH _ H) as [-> ->]. revert E. unfold SetInterval, GetIntervalPointer. case_match; [by intros [= <-]|].
  destruct (intervals d) eqn:Ei;
    (destruct (scan_intervals _ _ _ _) as [[[i e]|]| |]; try done; cbn [obind];
     unfold store_interval; repeat case_match; intros [= <-]; done).
Qed.

Section preservation.
Context (e : menv).
Context (Hpay : forall n d, recv_dataset (m_payload e) = Ret (n, Some d) -> is_dirty d = false /\ 0 <= n_open d).

#[local] Abbreviation keeps m := (on_ret (fun x : Z * list reply * mserver => meta_inv (snd x)) m).
#[local] Abbreviation keeps2 m := (on_ret (fun x : Z * mserver => meta_inv (snd x)) m).

(** Steps through a bind, remembering what the first part returned. *)
Ltac bind_step x H := apply on_ret_bind, on_ret_intro; intros x H.

Lemma keeps_confirm m s : meta_inv s -> keeps (mconfirm e m s).
Proof. done. Qed.

Lemma as_dataset_Ret v d : as_dataset v = Ret d -> data v = Dataset d.
Proof. unfold as_dataset. destruct (data v); try done. by intros [= ->]. Qed.

Lemma keeps_getdir key s : meta_inv s -> keeps (getdir_op e key s).
Proof. intros Hs. unfold getdir_op. bind_step x H. destruct x as [n [b|]]; done. Qed.

Lemma keeps_read rq key s : meta_inv s -> keeps (mread_op e rq key s).
Proof.
  intros Hs. unfold mread_op. bind_step found Hf. destruct found as [v|]; [|done].
  pose proof (inv_get _ _ _ Hs Hf) as Hg. case_match.
  { destruct (data v); [|done..]. by bind_step x Hx. }
  bind_step d Hd. apply as_dataset_Ret in Hd. rewrite Hd in Hg. destruct Hg as [Hg1 Hg2].
  rewrite Hg1. bind_step d' Hd'. bind_step s' Hs'. bind_step msg Hmsg. simpl.
  assert (is_dirty d' = false /\ 0 <= n_open d') as [??].
  { destruct (operation rq =? 1); [|by injection Hd' as <-].
    destruct (add_i32 _ _) as [n| |] eqn:En; try done. apply add_i32_Ret in En as ->.
    injection Hd' as <-. simpl. split; [done|lia]. }
  by eapply inv_store_dataset.
Qed.

Lemma keeps_delete rq key s : meta_inv s -> keeps (mdelete_op e rq key s).
Proof.
  intros Hs. unfold mdelete_op. bind_step found Hf. destruct found as [v|]; [|done].
  pose proof (inv_get _ _ _ Hs Hf) as Hg. bind_step d Hd.
  apply as_dataset_Ret in Hd. rewrite Hd in Hg. destruct Hg as [Hg1 Hg2].
  case_match.
  - bind_step s1 H1. bind_step s2 H2. by eapply inv_drop.
  - bind_step s1 H1. eapply inv_store_dataset; [done| | |exact H1]; by case_match.
Qed.

Lemma keeps_close key s : meta_inv s -> keeps (mclose_op e key s).
Proof.
  intros Hs. unfold mclose_op. bind_step found Hf. destruct found as [v|]; [|done].
  pose proof (inv_get _ _ _ Hs Hf) as Hg. bind_step d Hd.
  apply as_dataset_Ret in Hd. rewrite Hd in Hg. destruct Hg as [Hg1 Hg2].
  case_match.
  - bind_step s1 H1. bind_step s2 H2. by eapply inv_drop.
  - bind_step s1 H1. eapply inv_store_dataset; [done| | |exact H1].
    + by destruct (0 <? n_open d).
    + destruct (Z.ltb_spec 0 (n_open d)); simpl; lia.
Qed.

Lemma recover_clean key v d s : is_dirty d = false -> recover key v d s = Ret (d, s).
Proof. intros H. unfold recover. by rewrite H. Qed.

Lemma keeps_open key s : meta_inv s -> keeps (mopen_op e key s).
Proof.
  intros Hs. unfold mopen_op. bind_step found Hf. destruct found as [v|]; [|done].
  pose proof (inv_get _ _ _ Hs Hf) as Hg. bind_step d Hd.
  apply as_dataset_Ret in Hd. rewrite Hd in Hg. destruct Hg as [Hg1 Hg2].
  rewrite recover_clean by done. cbn [obind]. bind_step n Hn. apply add_i32_Ret in Hn as ->.
  bind_step s1 H1. eapply inv_store_dataset; [done| | |exact H1]; simpl; [done|lia].
Qed.

Lemma keeps_create rq key s : meta_inv s -> keeps2 (create_op e rq key s).
Proof.
  intros Hs. unfold create_op. do 2 (case_match; [done|]). case_match.
  - case_match; [done|]. bind_step x Hx. destruct x as [n [i|]]; [|done].
    bind_step y Hy. destruct y as [z h]. by eapply inv_put; [| |exact Hy].
  - bind_step d Hd. destruct d as [d|].
    + bind_step y Hy. destruct y as [z h]. eapply inv_put; [done| |exact Hy].
      destruct (m_recv_ok e); [|done]. destruct (recv_dataset _) as [[n [d'|]]| |] eqn:Er; try done.
      injection Hd as ->. by eapply Hpay.
    + bind_step y Hy. destruct y as [z h]. by eapply inv_put; [| |exact Hy].
Qed.

Lemma keeps_update rq key v s :
  meta_inv s -> HierarchicalMapGet key (mstore s) = Ret (Some v) -> keeps2 (update_op e rq key v s).
Proof.
  intros Hs Hf. pose proof (inv_get _ _ _ Hs Hf) as Hg. unfold update_op. bind_step d Hd.
  apply as_dataset_Ret in Hd. rewrite Hd in Hg. destruct Hg as [Hg1 Hg2].
  rewrite recover_clean by done. cbn [obind]. destruct (extra rq).
  - do 2 (case_match; [done|]). bind_step x Hx. destruct x as [n [r|]]; [|done].
    bind_step d' Hd'. destruct (record_intervals_fields _ _ _ Hd') as [E1 E2].
    bind_step s1 H1. eapply inv_store_dataset; [done| | |exact H1].
    + unfold is_dirty in *. by rewrite E1.
    + by rewrite E2.
  - bind_step d' Hd'. bind_step s1 H1.
    assert (status d' = status d /\ n_open d' = n_open d) as [E1 E2].
    { revert Hd'. unfold stamp_active. repeat case_match; by intros [= <-]. }
    eapply inv_store_dataset; [done| | |exact H1].
    + unfold is_dirty in *. by rewrite E1.
    + by rewrite E2.
Qed.

Lemma keeps_instance i s s' : meta_inv s -> store_instance i s = Ret s' -> meta_inv s'.
Proof.
  intros Hs. unfold store_instance. destruct (curr_global_imss s) as [k|]; [|done].
  destruct (HierarchicalMapGet k (mstore s)) as [[v|]| |]; try done. cbn [obind].
  destruct (store_block _ _ _) as [h| |] eqn:E; try done. intros [= <-].
  by eapply inv_store_block; [| |exact E].
Qed.

Lemma keeps_performance s : meta_inv s -> keeps (performance_op e s).
Proof.
  intros Hs. unfold performance_op. bind_step s0 H0.
  assert (meta_inv s0) as Hs0.
  { destruct (curr_global_imss s); [by injection H0 as <-|].
    destruct (HierarchicalMapGet _ _) as [o| |]; try done. injection H0 as <-. repeat case_match; done. }
  bind_step oi Hi. bind_step x Hx. destruct x as [[r st] oi']. bind_step s1 H1. simpl.
  unfold meta_inv. simpl. destruct oi' as [i|]; [|by injection H1 as <-].
  case_match; [by injection H1 as <-|]. by apply keeps_instance in H1.
Qed.

Lemma keeps_set rq key perf s : meta_inv s -> keeps (mset_op e rq key perf s).
Proof.
  intros Hs. unfold mset_op. destruct perf.
  - apply on_ret_bind. eapply on_ret_impl; [by apply keeps_performance|]. by intros [[r out] s'] _ ?.
  - bind_step found Hf. apply on_ret_bind. eapply (on_ret_impl (fun x => meta_inv (snd x))).
    + destruct found as [v|]; [by apply keeps_update|by apply keeps_create].
    + by intros [r s'] ?.
Qed.

(** Which requests rename. *)
Definition is_rename (rq : mreq) : bool :=
  streq (mmode rq) (B "GET")
  && ((u64 (atoi (mnumber rq)) =? RENAME_OP) || (u64 (atoi (mnumber rq)) =? RENAME_DIR_DIR_OP)).

Lemma keeps_get rq key s :
  mmode rq = B "GET" -> is_rename rq = false -> meta_inv s -> keeps (mget e rq key s).
Proof.
  intros Hm Hr Hs. unfold is_rename in Hr. rewrite Hm, streq_refl in Hr. simpl in Hr.
  apply orb_false_iff in Hr as [Hr1 Hr2]. unfold mget.
  repeat (case_match; [auto using keeps_getdir, keeps_read, keeps_delete, keeps_close, keeps_open; congruence|]).
  done.
Qed.

End preservation.

(** C11. The invariant of the metadata store is kept by every request that is not
    a rename and whose received structure, if any, is not marked dirty: each
    entry stays filed in the map of its parent directory, no stored dataset is
    ever dirty, and no open counter becomes negative. *)
Theorem meta_inv_preserved (e : menv) (req : bytes) (s : mserver) (r : Z) (out : list reply) (s' : mserver)
  (Hinv : meta_inv s)
  (Hpay : forall n d, recv_dataset (m_payload e) = Ret (n, Some d) -> is_dirty d = false /\ 0 <= n_open d)
  (Hren : forall rq, parse_meta req = Ret rq -> is_rename rq = false)
  (Hret : stat_worker_helper e req s = Ret (r, out, s')) :
  meta_inv s'.
Proof.
  cut (on_ret (fun x => meta_inv (snd x)) (stat_worker_helper e req s)); [by rewrite Hret|].
  clear Hret. unfold stat_worker_helper. case_match.
  { unfold decom_op. case_match; [|done]. do 2 (apply on_ret_bind, on_ret_intro; intros ? _).
    case_match. done. }
  apply on_ret_bind, on_ret_intro. intros rq Hrq. specialize (Hren rq Hrq). case_match.
  { unfold setserver_op. do 2 (case_match; [done|]). apply on_ret_bind, on_ret_intro. intros inst Hi.
    destruct inst; [|done]. apply on_ret_bind, on_ret_intro. intros [z i'] _.
    apply on_ret_bind, on_ret_intro. intros s1 Hs1. by eapply keeps_instance; [|exact Hs1]. }
  case_match; [apply keeps_get; try done; by apply streq_true|].
  repeat (case_match; [by apply keeps_set|]). done.
Qed.

(** A server with one file, opened by two clients. *)
Definition two_users : dataset_info := set_n_open 2 (sample_meta (B "imss://f") "R"%char).
Definition sample_menv : menv :=
  mkMenv IMSS_ROOT 7 sample_margs 2 [] true true true true 4096.
Definition server_with (d : dataset_info) : mserver :=
  mkMserver (mkHier {[ IMSS_ROOT := mkMap {[ uri_ d := mkBuf (Dataset d) sizeof_dataset ]} [] ]} 0 1000000 [])
    None idle ∅.

Lemma sample_word : meta_word URI_ (B "imss://f").
Proof. split; [discriminate|]. split; [by repeat constructor|reflexivity]. Qed.

Lemma meta_inv_preserved_witness :
  exists out s', stat_worker_helper sample_menv (meta_line 1 (B "GET") (print_u OPEN_OP) (B "imss://f")) (server_with two_users)
      = Ret (0, out, s') /\ meta_inv s'.
Proof.
  destruct (stat_worker_helper sample_menv (meta_line 1 (B "GET") (print_u OPEN_OP) (B "imss://f")) (server_with two_users))
    as [[[r out] s']| |] eqn:E; [|vm_compute in E; discriminate..].
  exists out, s'. split.
  - f_equal. f_equal. f_equal. vm_compute in E. by injection E.
  - refine (meta_inv_preserved sample_menv (meta_line 1 (B "GET") (print_u OPEN_OP) (B "imss://f")) (server_with two_users) r out s' _ _ _ E).
    + intros d m Hm. cbn [mstore server_with hiermap] in Hm. apply lookup_singleton_Some in Hm as [<- <-]. apply map_Forall_singleton.
      split; [reflexivity|]. split; [reflexivity|]. vm_compute. discriminate.
    + intros n d Hd. vm_compute in Hd. discriminate.
    + intros rq Hrq. vm_compute in Hrq. injection Hrq as <-. reflexivity.
Defined.
