(* ===== verification/Datasets.v ===== *)
(** * Datasets: the client's metadata operations

    The dataset functions of src/src/imss.c: they look at the tables of the
    session (Sessions.v), ask the metadata server that is responsible for the
    name (MetaServer.v) and, for deletions and renames, the data servers
    (DataServer.v).  Replies of the metadata servers arrive in one queue,
    [mbox], those of the data servers in the [inbox] of Client.v. *)

From S2P Require Import Prelude Types Policies Paths Intervals Store DataServer Wire Sessions Client Comms MetaStore Elasticity MetaServer.

Definition EINVAL : Z := 22.
Definition EEXIST : Z := 17.
Definition ENOENT_ : Z := 2.
Definition NONE : Z := 1.
Definition TRM : Z := 3.
Definition SYNC : Z := 0.
Definition ASYNC : Z := 1.
Definition TYPE_METADATA_SERVER : ascii := "m"%char.
Definition max_retries : nat := 10.

Record session := mkSession {
  wld : world;
  metas : list mserver;
  mbox : list bytes;
  curr_dataset : option bytes;
  curr_imss : imss_info;
  entry_number : Z
}.

Definition set_wld (w : world) (s : session) : session :=
  mkSession w (metas s) (mbox s) (curr_dataset s) (curr_imss s) (entry_number s).
Definition set_mbox (b : list bytes) (s : session) : session :=
  mkSession (wld s) (metas s) b (curr_dataset s) (curr_imss s) (entry_number s).
Definition set_pool (p : pool) (s : session) : session := set_wld (set_datasets p (wld s)) s.
Definition set_curr (k : bytes) (s : session) : session :=
  mkSession (wld s) (metas s) (mbox s) (Some k) (curr_imss s) (entry_number s).
Definition set_curr_imss (i : imss_info) (s : session) : session :=
  mkSession (wld s) (metas s) (mbox s) (curr_dataset s) i (entry_number s).
Definition next_entry (s : session) : session :=
  mkSession (wld s) (metas s) (mbox s) (curr_dataset s) (curr_imss s) (entry_number s + 1).

Definition known (s : session) : pool := datasets (wld s).

Definition with_mpayload (msg : bytes) (x : menv) : menv :=
  mkMenv (m_imss_uri x) (m_worker_uid x) (m_args x) (m_num_data_servers x) msg (m_malloc_ok x)
    (m_recv_ok x) (m_send_ok x) (m_connect_ok x) (m_ptr x).

(** ["%s/"] unless the last slash is there. *)
Definition with_slash (uri : bytes) : bytes := if last_is slash uri then uri else uri ++ [slash].

Section datasets.
Context (stack : bytes) (e : env) (MALLEABILITY_ON : bool) (matching_server_id : Z).
(** The environment of each metadata server, the identifiers the client got
    from them, the position of the instance, and the order in which a hash
    table is traversed. *)
Context (menv_of : Z -> menv) (stat_id : Z -> Z) (imssd_pos : Z).
Context (table_order : table -> list bytes).

(** ** Requests to a metadata server *)

(** The server of a name: [find_first_parent_dir] into a buffer of [size]
    bytes, then [find_server]. *)
Definition meta_home (size : Z) (uri : bytes) (s : session) : outcome Z :=
  let first := snd (find_first_parent_dir uri) in
  if size <=? strlen first then Undef OutOfBounds
  else find_server stack (Z.of_nat (length (metas s))) 0 first GET TYPE_METADATA_SERVER
         (imss_session_plcy (curr_imss s)).

(** A request with the message that follows it; [false] when it cannot be
    sent. *)
Definition ask (n : Z) (req msg : bytes) (s : session) : outcome (bool * session) :=
  if REQUEST_SIZE <=? strlen req then Undef OutOfBounds
  else if negb (send_ok e) then Ret (false, s)
  else match metas s !! Z.to_nat n with
       | None => Undef OutOfBounds
       | Some m =>
           let* (_, out, m') := stat_worker_helper (with_mpayload msg (menv_of n)) req m in
           Ret (true, mkSession (wld s) (<[Z.to_nat n := m']> (metas s)) (mbox s ++ map reply_bytes out)
                        (curr_dataset s) (curr_imss s) (entry_number s))
       end.

(** The oldest reply; [None] when there is none or it is empty. *)
Definition hear (s : session) : option bytes * session :=
  match mbox s with
  | [] => (None, s)
  | [] :: rest => (None, set_mbox rest s)
  | m :: rest => (Some m, set_mbox rest s)
  end.

Definition exchange (n : Z) (req msg : bytes) (s : session) : outcome (option bytes * session) :=
  let* (ok, s) := ask n req msg s in
  Ret (if ok then hear s else (None, s)).

(** ** Requests to data servers *)

Definition ask_data (n : Z) (req : bytes) (w : world) : outcome (option bytes * world) :=
  if REQUEST_SIZE <=? strlen req then Undef OutOfBounds
  else if negb (send_ok e) then Ret (None, w)
  else
    let* w := deliver e n req [] w in
    let '(m, w) := receive w in
    Ret (match m with Some [] => None | _ => m end, w).

(** The array [repl_servers], with the local server swapped to the front. *)
Fixpoint repl_servers (k : nat) (i n_server storages repl local_conn : Z) (arr : list Z) : outcome (list Z) :=
  match k with
  | O => Ret arr
  | S k' =>
      let* n := replica n_server i storages repl in
      let arr := arr ++ [i32 n] in
      let arr := if i32 n =? local_conn
                 then match arr with
                      | a0 :: _ => <[Z.to_nat i := a0]> (<[O := i32 n]> arr)
                      | [] => arr
                      end
                 else arr in
      repl_servers k' (i + 1) n_server storages repl local_conn arr
  end.

Definition servers_of (n_server : Z) (di : dataset_info) (im : imss_info) : outcome (list Z) :=
  if repl_factor di <=? 0 then Undef OutOfBounds
  else repl_servers (Z.to_nat (repl_factor di)) 0 n_server (num_storages im) (repl_factor di) (local_conn di) [].

(** The loop of [delete_dataset_srv_worker]; an error reply is only logged. *)
Fixpoint delete_loop (uri : bytes) (targets : list Z) (w : world) : outcome (Z * world) :=
  match targets with
  | [] => Ret (0, w)
  | n :: rest =>
      let* (m, w) := ask_data n (B "GET 4 0 " ++ uri) w in
      match m with
      | None => Ret (-1, w)
      | Some _ => delete_loop uri rest w
      end
  end.

Definition delete_dataset_srv_worker (uri : bytes) (data_id : Z) (w : world) : outcome (Z * world) :=
  let* (n_server, curr, w) := get_data_location stack uri data_id GET w in
  match curr with
  | None => Ret (-1, w)
  | Some (di, im) =>
      if n_server =? -1 then Ret (-1, w)
      else let* targets := servers_of n_server di im in delete_loop uri targets w
  end.

(** The loop of [unlink_dataset]: the first reply decides, an error stops. *)
Fixpoint unlink_loop (uri : bytes) (n_open_ : Z) (targets : list Z) (ret : Z) (w : world)
  : outcome (Z * world) :=
  match targets with
  | [] => Ret (ret, w)
  | n :: rest =>
      let* (m, w) := ask_data n (unlink_request uri n_open_) w in
      match m with
      | None => Ret (-1, w)
      | Some r =>
          if prefixb MSG_DELETE_OP r then unlink_loop uri n_open_ rest (if ret =? -1 then 0 else ret) w
          else if prefixb MSG_NODELETE_OP r
               then unlink_loop uri n_open_ rest (if ret =? -1 then 1 else ret) w
          else Ret (-1, w)
      end
  end.

(** The descriptor of the dataset is passed as the block number. *)
Definition unlink_dataset (uri : bytes) (dataset_id : Z) (w : world) : outcome (Z * world) :=
  let* (n_server, curr, w) := get_data_location stack uri dataset_id GET w in
  match curr with
  | None => Ret (-1, w)
  | Some (di, im) =>
      if n_server =? -1 then Ret (-1, w)
      else
        let* targets := servers_of n_server di im in
        unlink_loop uri (n_open di) targets (-1) w
  end.

Fixpoint rename_loop_data (old new : bytes) (targets : list Z) (di : dataset_info) (w : world)
  : outcome (Z * world) :=
  match targets with
  | [] => Ret (0, w)
  | n :: rest =>
      let* (m, w) := ask_data n (B "GET 5 0 " ++ old ++ comma :: new) w in
      match m with
      | None => Ret (-1, w)
      | Some _ =>
          if URI_ <=? strlen new then Undef OutOfBounds
          else
            let di := set_uri new di in
            let* w := update_dataset_entry new di w in
            rename_loop_data old new rest di w
      end
  end.

(** The location is that of block [data_id] under the new name; only the
    servers of that block are told. *)
Definition rename_dataset_srv_worker (old new : bytes) (data_id : Z) (w : world) : outcome (Z * world) :=
  let* (n_server, curr, w) := get_data_location stack new data_id GET w in
  match curr with
  | None => Ret (-1, w)
  | Some (di, im) =>
      if n_server =? -1 then Ret (-1, w)
      else let* targets := servers_of n_server di im in rename_loop_data old new targets di w
  end.

(** Requests to every data server, then their replies; a refusal is only
    logged. *)
Fixpoint ask_all (req : bytes) (i : Z) (k : nat) (w : world) : outcome (bool * world) :=
  match k with
  | O => Ret (true, w)
  | S k' =>
      if REQUEST_SIZE <=? strlen req then Undef OutOfBounds
      else if negb (send_ok e) then Ret (false, w)
      else let* w := deliver e i req [] w in ask_all req (i + 1) k' w
  end.
Fixpoint hear_all (k : nat) (w : world) : bool * world :=
  match k with
  | O => (true, w)
  | S k' =>
      let '(m, w) := receive w in
      match m with
      | None | Some [] => (false, w)
      | Some _ => hear_all k' w
      end
  end.

Definition rename_dataset_srv_worker_dir_dir (old_dir rdir_dest : bytes) (data_id : Z) (w : world)
  : outcome (Z * world) :=
  let* (n_server, curr, w) := get_data_location stack rdir_dest data_id GET w in
  match curr with
  | None => Ret (-1, w)
  | Some (di, im) =>
      if n_server =? -1 then Ret (-1, w)
      else
        let* _ := servers_of n_server di im in
        let k := Z.to_nat (num_storages im) in
        let* (ok, w) := ask_all (B "GET 6 0 " ++ old_dir ++ comma :: rdir_dest) 0 k w in
        if ok then let '(ok, w) := hear_all k w in Ret (if ok then 0 else -1, w) else Ret (-1, w)
  end.

(** ** Metadata of a dataset *)

(** [stat_dataset]: 1 with the structure the session has, -3 with the one
    received, -2 with NULL; on -1 the caller's pointer is not written. *)
Definition stat_dataset (uri : bytes) (cur : option dataset_info) (opened : Z) (s : session)
  : outcome (Z * option dataset_info * session) :=
  let* (ret, found) := find_dataset_by_uri_hash_pool uri (known s) in
  if ret =? 1 then Ret (1, found, s)
  else
    let* m_srv := meta_home URI_ uri s in
    let* (m, s) := exchange m_srv (meta_line (u32 opened) (B "GET") (B "0") uri) [] s in
    match m with
    | None => Ret (-1, cur, s)
    | Some msg =>
        let* (r, d) := recv_dataset msg in
        if r <? 0 then Ret (-2, None, s) else Ret (-3, d, s)
    end.

(** The parent directory is asked for until it is found remotely. *)
Fixpoint stat_parent (k : nat) (parent : bytes) (ret : Z) (s : session) : outcome (Z * session) :=
  match k with
  | O => Ret (ret, s)
  | S k' =>
      let* (r, _, s) := stat_dataset parent None 0 s in
      if (r =? 0) || (r =? -3) then Ret (r, s) else stat_parent k' parent r s
  end.

(** The part of [create_dataset] that looks for the parent: -ENOENT, or
    nothing. *)
Definition check_parent (uri : bytes) (s : session) : outcome (option Z * session) :=
  let* (offset, parent) := find_last_parent_dir uri in
  if 0 <? offset
  then
    let* (ret, s) := stat_parent max_retries parent 0 s in
    if (ret <? 0) && negb (ret =? -3) then Ret (Some (- ENOENT_), s)
    else Ret (None, if ret =? -3 then set_pool (AddDirectoryToPool parent (known s)) s else s)
  else Ret (None, s).

(** The structure [create_dataset] fills in; the fields it does not set are
    zero. *)
Definition new_dataset (uri policy_ : bytes) (num_data_elem_ data_elem_size repl_factor_ repl_type_ n_servers_ : Z)
    (link_ : option bytes) (opened : Z) (file_type : ascii) (imss_d_ local : Z) (active : Z) : dataset_info :=
  mkDataset uri file_type policy_ uri [] 0 num_data_elem_ (data_elem_size * 1024)
    (if repl_factor_ <? n_servers_ then repl_factor_ else n_servers_) repl_type_ imss_d_ local 0 n_servers_
    (default [] link_) (if link_ is Some _ then 1 else 0) (if opened =? 1 then 1 else 0) STATUS_ATACH active
    0 MAX_NUM_INTERVALS (-1) (-1) None.

(** The strings copied into the structure fit their arrays. *)
Definition fits_arrays (uri policy_ : bytes) (link_ : option bytes) : bool :=
  (strlen uri <? URI_) && (strlen policy_ <? MAX_POLICY_LEN) && (strlen (default [] link_) <? URI_).

Definition create_line (opened : Z) (d : dataset_info) : bytes :=
  meta_line (u32 opened) (B "SET") (print_u sizeof_dataset)
    (if ascii_eqb (type_ d) TYPE_DIRECTORY then with_slash (uri_ d) else uri_ d).

Definition create_dataset (uri policy_ : bytes) (num_data_elem_ data_elem_size repl_factor_ repl_type_ n_servers_ : Z)
    (link_ : option bytes) (opened : Z) (file_type : ascii) (s : session) : outcome (Z * session) :=
  if (num_data_elem_ =? 0) || (data_elem_size =? 0) || (repl_factor_ <? NONE) || (TRM <? repl_factor_)
     || (repl_type_ <? SYNC) || (ASYNC <? repl_type_) then Ret (- EINVAL, s)
  else
    let idx := imss_check uri (imssd (wld s)) in
    if idx =? -1 then Ret (- ENOENT_, s)
    else
      let* (stop, s) := check_parent uri s in
      match stop with
      | Some r => Ret (r, s)
      | None =>
          let* (ret, found, s) := stat_dataset uri None opened s in
          if (ret =? 1) || (ret =? -3)
          then
            match found with
            | None => Undef NullDeref
            | Some d =>
                let d := set_connection idx matching_server_id d in
                if ret =? -3
                then let* (_, p) := add_dataset_entry_in_pool uri d (known s) in Ret (- EEXIST, set_pool p s)
                else let* w := update_dataset_entry uri (ClearIntervalsStructure d) (wld s) in
                     Ret (- EEXIST, set_wld w s)
            end
          else if negb (fits_arrays uri policy_ link_) then Undef OutOfBounds
          else if negb ((- 2 ^ 31 <=? data_elem_size * 1024) && (data_elem_size * 1024 <? 2 ^ 31))
          then Undef SignedOverflow
          else
            let d := new_dataset uri policy_ num_data_elem_ data_elem_size repl_factor_ repl_type_ n_servers_
                       link_ opened file_type idx matching_server_id (num_active_storages (curr_imss s)) in
            let* m_srv := meta_home PATH_MAX uri s in
            let* msg := send_dataset 0 d in
            let* (ok, s) := ask m_srv (create_line opened d) msg s in
            if negb ok then Ret (-1, s)
            else
              let '(_, s) := hear s in
              let* (_, p) := add_dataset_entry_in_pool uri d (known s) in
              Ret (entry_number s, next_entry (set_pool p s))
      end.

(** [open_dataset]: result, the caller's name (a link overwrites it) and the
    session.  A link is followed once; the test for a link out of the system
    is made on the structure of its target. *)
Definition open_dataset (uri : bytes) (opened : Z) (s : session) : outcome (Z * bytes * session) :=
  if imss_check uri (imssd (wld s)) =? -1 then Undef OutOfBounds
  else
    let* (res, found, s) := stat_dataset uri None opened s in
    if res =? -2 then Ret (-1, uri, s)
    else
      match found with
      | None => Undef NullDeref
      | Some d0 =>
          let* (res, found, at_, out, s) :=
            (if is_link d0 =? 0 then Ret (res, Some d0, uri, None, s)
             else
               let* (res, found, s) := stat_dataset (link d0) (Some d0) 0 s in
               match found with
               | None => Undef NullDeref
               | Some d => Ret (res, Some d, link d0, if prefixb IMSS_ROOT (link d) then None else Some (link d), s)
               end) in
          match out, found with
          | Some name, _ => Ret (-2, name, s)
          | None, None => Undef NullDeref
          | None, Some d =>
              if res =? -1 then Ret (-1, uri, s)
              else if (res =? 1) && negb (local_conn d =? -2) then Ret (res, uri, set_curr at_ s)
              else
                let d := set_connection imssd_pos matching_server_id d in
                let* (_, p) := add_dataset_entry_in_pool uri d (known s) in
                Ret (0, uri, set_curr uri (set_pool p s))
          end
      end.

Definition release_dataset (uri : bytes) (s : session) : outcome (Z * session) :=
  let* d := parent_dir uri in
  match known s !! d with
  | None => Ret (-1, s)
  | Some t => Ret (0, set_pool (<[d := snd (remove_dataset_entry t uri)]> (known s)) s)
  end.

Definition open_local_dataset (uri : bytes) (opened : Z) (s : session) : outcome (Z * session) :=
  let* m_srv := meta_home URI_ uri s in
  let* (m, s) := exchange m_srv (meta_line (u32 opened) (B "GET") (B "8") uri) [] s in
  Ret (match m with None => -1 | Some r => if prefixb MSG_OPEN_OP r then 1 else 0 end, s).

Definition delete_dataset (uri : bytes) (is_dir : bool) (s : session) : outcome (Z * session) :=
  let* m_srv := meta_home URI_ uri s in
  let* (m, s) := exchange m_srv (meta_line 4 (B "GET") (print_u DELETE_OP)
                   (if is_dir then with_slash uri else uri)) [] s in
  Ret (match m with None => -1 | Some r => if prefixb MSG_NODELETE_OP r then 1 else 0 end, s).

(** ** Closing *)

(** [strtok(list, ",")]: the non-empty parts. *)
Fixpoint tokens (acc s : bytes) : list bytes :=
  match s with
  | [] => match acc with [] => [] | _ => [rev acc] end
  | c :: s' => if ascii_eqb c comma
               then match acc with [] => tokens [] s' | _ => rev acc :: tokens [] s' end
               else tokens (c :: acc) s'
  end.

(** The hosts of ["DATASERVERS <n> <id> <list>"]. *)
Definition active_nodes (r : bytes) : list bytes :=
  match scan_s r with
  | None => []
  | Some (_, r) =>
      match scan_d r with
      | None => []
      | Some (_, r) =>
          match scan_d r with
          | None => []
          | Some (_, r) => match scan_s r with Some (l, _) => tokens [] l | None => [] end
          end
      end
  end.

(** Hosts that are not in the instance are added to it. *)
Fixpoint add_nodes (hosts : list bytes) (i : imss_info) : outcome imss_info :=
  match hosts with
  | [] => Ret i
  | h :: rest =>
      if existsb (streq h) (take (Z.to_nat (num_storages i)) (ips i)) then add_nodes rest i
      else let* (_, i) := AddIPS h i in add_nodes rest i
  end.

(** The report of [close_dataset].  The reply is the next message of the
    server, whatever it answers. *)
Definition send_performance (m_srv : Z) (uri : bytes) (perf : list (bytes * IOServerMetrics)) (s : session)
  : outcome (option Z * session) :=
  match perf with
  | [] => Ret (None, s)
  | _ =>
      let* (m, s) := exchange m_srv (meta_line (stat_id m_srv) (B "SETPERFORMANCE") (print_u 10) uri)
                       (report perf) s in
      match m with
      | None => Ret (Some (-1), s)
      | Some r =>
          let* i := add_nodes (active_nodes (cstring r)) (curr_imss s) in
          Ret (None, set_curr_imss i s)
      end
  end.

Definition close_dataset (uri : bytes) (perf : list (bytes * IOServerMetrics)) (s : session)
  : outcome (Z * session) :=
  let* m_srv := meta_home URI_ uri s in
  let* (m, s) := exchange m_srv (meta_line (stat_id m_srv) (B "GET") (B "7") uri) [] s in
  match m with
  | None => Ret (-1, s)
  | Some r =>
      let* (ret, s) :=
        (if prefixb MSG_DELETE_OP r
         then let* (_, w) := delete_dataset_srv_worker uri 0 (wld s) in Ret (0, set_wld w s)
         else Ret (1, s)) in
      if MALLEABILITY_ON
      then let* (stop, s) := send_performance m_srv uri perf s in Ret (default ret stop, s)
      else Ret (ret, s)
  end.

(** ** Renaming *)

(** The keys of a table at or below [old]. *)
Definition below (old key : bytes) : bool :=
  prefixb old key && match key !! length old with Some c => ascii_eqb c slash | None => true end.

(** [replace_uri_base_path_dir]: every entry found moves to the key
    [new] itself, and its [uri_] with it. *)
Definition replace_uri_base_path_dir (old new : bytes) (t : table) : table :=
  fold_left (fun t k =>
    match t !! k with
    | Some info => <[new := set_uri (take (Z.to_nat URI_) new) info]> (delete k t)
    | None => t
    end) (List.filter (below old) (table_order t)) t.

Definition is_renamed (m : option bytes) : bool :=
  match m with Some r => prefixb MSG_RENAME_OP r | None => false end.

Definition rename_dataset_metadata_dir_dir (old_dir rdir_dest : bytes) (s : session) : outcome (Z * session) :=
  let s := match known s !! old_dir with
           | Some t => set_pool (<[old_dir := replace_uri_base_path_dir old_dir rdir_dest t]> (known s)) s
           | None => s
           end in
  let* d := parent_dir old_dir in
  match known s !! d with
  | None => Ret (-1, s)
  | Some _ =>
      let* (_, p) := replace_uri_base_path_regular_file d old_dir rdir_dest (known s) in
      let s := set_pool p s in
      let* m_srv := meta_home URI_ old_dir s in
      let* (m, s) := exchange m_srv (meta_line (stat_id m_srv) (B "GET") (B "6")
                       (old_dir ++ slash :: comma :: rdir_dest ++ [slash])) [] s in
      Ret (if is_renamed m then 0 else -1, s)
  end.

Definition rename_dataset_metadata (old new : bytes) (s : session) : outcome (Z * session) :=
  let* d := parent_dir old in
  match known s !! d with
  | None => Ret (-1, s)
  | Some _ =>
      let* (_, p) := replace_uri_base_path_regular_file d old new (known s) in
      let s := set_pool p s in
      let* m_srv := meta_home URI_ old s in
      let* (m, s) := exchange m_srv (meta_line (stat_id m_srv) (B "GET") (B "5") (old ++ comma :: new)) [] s in
      Ret (if is_renamed m then 0 else -1, s)
  end.

(** ** Updating the intervals *)

(** [update_dataset] sends the structure and does not wait for a reply. *)
Definition update_dataset (uri : bytes) (pid : Z) (ptr : Z) (s : session) : outcome (Z * session) :=
  let* (ret, found) := find_dataset_by_uri_hash_pool uri (known s) in
  match found with
  | None => Ret (-1, s)
  | Some d =>
      let* m_srv := meta_home URI_ uri s in
      let n := num_storages (curr_imss s) in
      let* d := (if (num_intervals d =? 0) && MALLEABILITY_ON
                 then let* d := SetInterval d n 0 0 in
                      SetInterval d n (first_block_id d) (last_block_id d)
                 else Ret d) in
      let* w := update_dataset_entry uri d (wld s) in
      let s := set_curr uri (set_wld w s) in
      let* msg := send_dataset ptr d in
      let* (ok, s) := ask m_srv (meta_line 0 (B "SET") (print_u pid)
                        (if ascii_eqb (type_ d) TYPE_DIRECTORY then with_slash (uri_ d) else uri_ d)) msg s in
      Ret (if ok then 1 else -1, s)
  end.

(** ** Listing a directory *)

(** The loop over the metadata servers: the received names of each, or -1.
    [arr_elements] and [arr_lengths] have [count] places and are written at
    the number of the server. *)
Fixpoint get_dir_loop (k : nat) (i count : Z) (uri : bytes) (acc : list bytes) (s : session)
  : outcome (option (list bytes) * session) :=
  match k with
  | O => Ret (Some acc, s)
  | S k' =>
      let* (m, s) := exchange i (meta_line (stat_id i) (B "GET") (print_u GETDIR) (with_slash uri)) [] s in
      match m with
      | None => Ret (None, s)
      | Some msg =>
          let* (r, buf) := recv_buffer msg in
          let buf := default [] buf in
          if r <? 0 then Ret (None, s)
          else if count <=? i then Undef OutOfBounds
          else if prefixb MSG_EMPTY_DIRECTORY buf then get_dir_loop k' (i + 1) count uri acc s
          else
            let n := Z.to_nat (r / URI_) in
            get_dir_loop k' (i + 1) count uri
              (acc ++ ((fun j => take (Z.to_nat URI_) (drop (j * Z.to_nat URI_) buf)) <$> seq 0 n)) s
      end
  end.

(** [get_dir]: the count and the items, the first of which is the directory;
    -1 becomes the largest [uint32_t]. *)
Definition get_dir (uri : bytes) (s : session) : outcome (Z * list bytes * session) :=
  if uri is [] then Undef OutOfBounds
  else
  let '(offset, _) := find_first_parent_dir uri in
  let n := Z.of_nat (length (metas s)) in
  let* (m_srv, count) := (if 0 <? offset then let* m := meta_home URI_ uri s in Ret (m, 1) else Ret (0, n)) in
  let* (items, s) := get_dir_loop (Z.to_nat count) m_srv count uri [] s in
  match items with
  | None => Ret (u32 (-1), [], s)
  | Some l =>
      if URI_ <? strlen uri then Undef OutOfBounds
      else Ret (Z.of_nat (length l) + 1, put_str 256 uri :: l, s)
  end.

End datasets.
