(* ===== verification/Lifecycle.v ===== *)
(** * Life of a dataset

    What the operations of the metadata server and of the client do together:
    creating and looking up a dataset, counting its users, removing it while
    it is open, and the replies that nobody reads. *)

From S2P Require Import Prelude Types Policies Paths Intervals Store DataServer Wire Sessions Client Comms MetaStore Elasticity MetaServer Datasets.

(** ** Entries of the metadata server *)

Abbreviation entry k s := (HierarchicalMapGet k (mstore s)).

(** Only the entry [k] differs. *)
Definition same_but (k : bytes) (s s' : mserver) : Prop :=
  forall k', k' <> k -> entry k' s' = entry k' s.

Lemma same_but_trans k s1 s2 s3 : same_but k s1 s2 -> same_but k s2 s3 -> same_but k s1 s3.
Proof. intros H1 H2 k' Hk. by rewrite H2, H1. Qed.

Lemma store_dataset_entry k v d s :
  entry k s = Ret (Some v) ->
  exists s', store_dataset k v d s = Ret s' /\ entry k s' = Ret (Some (mkBuf (Dataset d) (bsize v))) /\
    same_but k s s'.
Proof.
  intros Hk. unfold store_dataset.
  destruct (store_block_ok k v (mkBuf (Dataset d) (bsize v)) _ Hk) as [h Hh]. rewrite Hh. cbn [obind].
  eexists. split; [done|]. by apply store_block_get in Hh as [? ?].
Qed.

Lemma DeleteEntry_entry k (h : HierarchicalRecords meta_obj) v :
  HierarchicalMapGet k h = Ret (Some v) ->
  exists h', HierarchicalMapDeleteEntry k h = Ret (1, h') /\ HierarchicalMapGet k h' = Ret None /\
    forall k', k' <> k -> HierarchicalMapGet k' h' = HierarchicalMapGet k' h.
Proof.
  intros Hk. destruct (parent_dir k) as [d| |] eqn:Hd.
  2,3: unfold HierarchicalMapGet, get_child_unsafe in Hk; by rewrite Hd in Hk.
  rewrite (HGet_eq _ _ _ Hd) in Hk. unfold HierarchicalMapDeleteEntry. rewrite Hd. cbn [obind].
  destruct (hiermap h !! d) as [m|] eqn:Hm; [|done]. injection Hk as Hk.
  unfold delete_metadata_stat_worker. rewrite Hk. eexists. split; [done|]. split.
  - rewrite (HGet_eq _ _ _ Hd). simpl. rewrite lookup_insert_eq. simpl. by rewrite lookup_delete_eq.
  - intros k' Hne. unfold HierarchicalMapGet, get_child_unsafe.
    destruct (parent_dir k') as [d'| |]; try done. cbn [obind set_hiermap hiermap].
    destruct (decide (d' = d)) as [->|Hdd].
    + rewrite lookup_insert_eq, Hm. unfold get. cbn [buffer set_buffer]. by rewrite lookup_delete_ne.
    + by rewrite lookup_insert_ne.
Qed.

Lemma PutInGarbage_ok k (h : HierarchicalRecords meta_obj) v :
  HierarchicalMapGet k h = Ret (Some v) -> exists r h', HierarchicalMapPutInGarbageCollector k h = Ret (r, h').
Proof.
  unfold HierarchicalMapGet, get_child_unsafe, HierarchicalMapPutInGarbageCollector.
  destruct (parent_dir k) as [d| |]; try done. simpl. destruct (hiermap h !! d); eauto.
Qed.

Lemma drop_entry_gone k v s :
  entry k s = Ret (Some v) ->
  exists s', drop_entry k s = Ret s' /\ entry k s' = Ret None /\ same_but k s s'.
Proof.
  intros Hk. unfold drop_entry. destruct (PutInGarbage_ok k _ v Hk) as (r & h & Hg). rewrite Hg. cbn [obind].
  pose proof (fun k' => HierarchicalMapPutInGarbage_get k k' _ _ _ Hg) as Hsame.
  destruct (DeleteEntry_entry k h v) as (h' & Hd & Hn & Ho); [by rewrite Hsame|]. rewrite Hd. cbn [obind].
  eexists. split; [done|]. split; [done|]. intros k' Hne. simpl. by rewrite Ho, Hsame.
Qed.

(** ** Removing an open dataset *)

Section life.
Context (x : menv) (uri : bytes).
Context (Huri : meta_word URI_ uri) (Hsend : m_send_ok x = true).
#[local] Abbreviation key := (map_key x uri).

(** The requests of [delete_dataset], [close_dataset] and
    [open_local_dataset] for the client with identifier [id]. *)
Definition unlink_line : bytes := meta_line 4 (B "GET") (print_u DELETE_OP) uri.
Definition close_line (id : Z) : bytes := meta_line id (B "GET") (print_u CLOSE_OP) uri.
Definition open_line : bytes := meta_line 1 (B "GET") (print_u OPEN_OP) uri.

(** A sequence of requests, with all replies. *)
Fixpoint serve (reqs : list bytes) (s : mserver) : outcome (list reply * mserver) :=
  match reqs with
  | [] => Ret ([], s)
  | r :: reqs' =>
      let* (_, out, s) := stat_worker_helper x r s in
      let* (out', s) := serve reqs' s in
      Ret (out ++ out', s)
  end.

(** The entry of the name, with [n] users and perhaps waiting for its
    removal. *)
Definition has_users (n : Z) (doomed : bool) (s : mserver) : Prop :=
  exists v d, entry key s = Ret (Some v) /\ data v = Dataset d /\ n_open d = n /\ is_dest d = doomed.

Lemma unlink_step s n doomed :
  has_users n doomed s -> n <> 0 ->
  exists s', stat_worker_helper x unlink_line s = Ret (0, [Msg MSG_NODELETE_OP], s') /\
    has_users n true s' /\ same_but key s s'.
Proof using Huri Hsend.
  intros (v & d & Hk & Hv & Hn & _) Hne. unfold unlink_line. rewrite get_line_dispatch by (done || lia).
  change (mget _ _ _ _) with (mdelete_op x (mkMreq 4 (B "GET") (print_u DELETE_OP) uri 4 []) key s).
  unfold mdelete_op. rewrite Hk. cbn [obind]. unfold as_dataset. rewrite Hv. cbn [obind operation].
  cbn [Z.eqb Pos.eqb]. change (n_open (set_status STATUS_DEST d)) with (n_open d).
  destruct (Z.eqb_spec (n_open d) 0); [lia|].
  destruct (store_dataset_entry _ v (set_status STATUS_DEST d) _ Hk) as (s' & -> & Hk' & Hs). cbn [obind].
  unfold mconfirm, msay. rewrite Hsend. eexists. split; [done|]. split; [|done].
  eexists _, _. split; [exact Hk'|]. split; [done|]. by split.
Qed.

Lemma close_step s n id :
  0 <= id < 2 ^ 32 -> has_users n true s -> 1 < n ->
  exists s', stat_worker_helper x (close_line id) s = Ret (0, [Msg MSG_CLOSE_OP], s') /\
    has_users (n - 1) true s' /\ same_but key s s'.
Proof using Huri Hsend.
  intros Hid (v & d & Hk & Hv & Hn & Hd) Hlt. unfold close_line. rewrite get_line_dispatch by (done || lia).
  change (mget _ _ _ _) with (mclose_op x key s).
  unfold mclose_op. rewrite Hk. cbn [obind]. unfold as_dataset. rewrite Hv. cbn [obind].
  destruct (Z.ltb_spec 0 (n_open d)); [|lia].
  change (n_open (set_n_open (n_open d - 1) d)) with (n_open d - 1).
  change (is_dest (set_n_open (n_open d - 1) d)) with (is_dest d). rewrite Hd.
  destruct (Z.eqb_spec (n_open d - 1) 0); [lia|]. cbn [andb].
  destruct (store_dataset_entry _ v (set_n_open (n_open d - 1) d) _ Hk) as (s' & -> & Hk' & Hs). cbn [obind].
  unfold mconfirm, msay. rewrite Hsend. eexists. split; [done|]. split; [|done].
  eexists _, _. split; [exact Hk'|]. split; [done|]. split; [simpl; lia|done].
Qed.

Lemma last_close_step s id :
  0 <= id < 2 ^ 32 -> has_users 1 true s ->
  exists s', stat_worker_helper x (close_line id) s = Ret (0, [Msg MSG_DELETE_OP], s') /\
    entry key s' = Ret None /\ same_but key s s'.
Proof using Huri Hsend.
  intros Hid (v & d & Hk & Hv & Hn & Hd). unfold close_line. rewrite get_line_dispatch by (done || lia).
  change (mget _ _ _ _) with (mclose_op x key s).
  unfold mclose_op. rewrite Hk. cbn [obind]. unfold as_dataset. rewrite Hv. cbn [obind].
  rewrite Hn. cbn [Z.ltb Z.compare].
  change (n_open (set_n_open (1 - 1) d)) with 0.
  change (is_dest (set_n_open (1 - 1) d)) with (is_dest d). rewrite Hd. cbn [andb Z.eqb].
  destruct (store_dataset_entry _ v (set_status STATUS_DIRTY (set_n_open (1 - 1) d)) _ Hk) as (s1 & -> & H1 & Hs1).
  cbn [obind]. destruct (drop_entry_gone _ _ _ H1) as (s2 & -> & H2 & Hs2). cbn [obind].
  unfold mconfirm, msay. rewrite Hsend. eexists. split; [done|]. split; [done|].
  by eapply same_but_trans.
Qed.

Lemma closes_run ids s n :
  Forall (fun id => 0 <= id < 2 ^ 32) ids -> has_users n true s -> Z.of_nat (length ids) < n ->
  exists s', serve (close_line <$> ids) s = Ret (repeat (Msg MSG_CLOSE_OP) (length ids), s') /\
    has_users (n - Z.of_nat (length ids)) true s' /\ same_but key s s'.
Proof using Huri Hsend.
  intros Hids. revert s n. induction Hids as [|id ids Hid _ IH]; intros s n Hu Hn.
  - exists s. cbn [length] in *. rewrite Z.sub_0_r. done.
  - cbn [fmap list_fmap length serve] in *. destruct (close_step s n id Hid Hu) as (s1 & -> & Hu1 & Hs1); [lia|].
    cbn [obind]. destruct (IH s1 (n - 1) Hu1) as (s2 & -> & Hu2 & Hs2); [lia|]. cbn [obind].
    exists s2. split; [done|]. split; [|by eapply same_but_trans].
    by replace (n - Z.of_nat (S (length ids))) with (n - 1 - Z.of_nat (length ids)) by lia.
Qed.

Lemma serve_app r1 r2 s :
  serve (r1 ++ r2) s =
    let* (o1, s1) := serve r1 s in let* (o2, s2) := serve r2 s1 in Ret (o1 ++ o2, s2).
Proof.
  revert s. induction r1 as [|r r1 IH]; intros s; cbn [app serve].
  - cbn [obind]. by destruct (serve r2 s) as [[? ?]| |].
  - destruct (stat_worker_helper x r s) as [[[? o] s1]| |]; cbn [obind]; [|done..]. rewrite IH.
    destruct (serve r1 s1) as [[o1 s2]| |]; cbn [obind]; [|done..].
    destruct (serve r2 s2) as [[o2 s3]| |]; cbn [obind]; [|done..]. by rewrite app_assoc.
Qed.

End life.

(** C10. A dataset removed while [n] clients have it open stays until the last of
    them closes it: the removal is answered NODELETE, every close but the last
    CLOSE, with the entry still there, and the last close DELETE, after which
    the entry is gone.  No other entry changes. *)
Theorem unlinked_until_last_close (x : menv) (uri : bytes) (ids : list Z) (id : Z) (doomed : bool) (s : mserver)
  (Huri : meta_word URI_ uri) (Hsend : m_send_ok x = true)
  (Hids : Forall (fun i => 0 <= i < 2 ^ 32) (ids ++ [id]))
  (Hu : has_users x uri (Z.of_nat (length (ids ++ [id]))) doomed s) :
  (forall k, (k <= length ids)%nat ->
     exists s', serve x (unlink_line uri :: (close_line uri <$> take k ids)) s
                = Ret (Msg MSG_NODELETE_OP :: repeat (Msg MSG_CLOSE_OP) k, s') /\
       has_users x uri (Z.of_nat (length (ids ++ [id])) - Z.of_nat k) true s') /\
  exists s', serve x (unlink_line uri :: (close_line uri <$> ids ++ [id])) s
             = Ret (Msg MSG_NODELETE_OP :: repeat (Msg MSG_CLOSE_OP) (length ids) ++ [Msg MSG_DELETE_OP], s') /\
    entry (map_key x uri) s' = Ret None /\ same_but (map_key x uri) s s'.
Proof.
  rewrite length_app in *. cbn [length] in *. apply Forall_app in Hids as [Hids Hid].
  apply Forall_cons in Hid as [Hid _].
  destruct (unlink_step x uri Huri Hsend s _ doomed Hu) as (s1 & E1 & Hu1 & Hs1); [lia|]. split.
  - intros k Hk. cbn [serve]. rewrite E1. cbn [obind].
    destruct (closes_run x uri Huri Hsend (take k ids) s1 (Z.of_nat (length ids + 1))) as (s2 & E2 & Hu2 & _).
    + by apply Forall_take.
    + exact Hu1.
    + rewrite length_take. lia.
    + rewrite length_take, Nat.min_l in * by done. exists s2. rewrite E2. done.
  - cbn [serve]. rewrite E1. cbn [obind].
    rewrite fmap_app, serve_app.
    destruct (closes_run x uri Huri Hsend ids s1 _ Hids Hu1) as (s2 & -> & Hu2 & Hs2); [lia|]. cbn [obind].
    replace (Z.of_nat (length ids + 1) - Z.of_nat (length ids)) with 1 in Hu2 by lia.
    destruct (last_close_step x uri Huri Hsend s2 id Hid Hu2) as (s3 & E3 & Hgone & Hs3).
    cbn [fmap list_fmap serve]. rewrite E3. cbn [obind app]. exists s3. split; [done|]. split; [done|].
    eapply same_but_trans; [exact Hs1|]. by eapply same_but_trans.
Qed.

Lemma unlinked_until_last_close_witness :
  exists s', serve sample_menv (unlink_line (B "imss://f") :: (close_line (B "imss://f") <$> [3; 5]))
               (server_with two_users)
             = Ret ([Msg MSG_NODELETE_OP; Msg MSG_CLOSE_OP; Msg MSG_DELETE_OP], s') /\
    entry (B "imss://f") s' = Ret None.
Proof.
  destruct (unlinked_until_last_close sample_menv (B "imss://f") [3] 5 false (server_with two_users))
    as [_ (s' & H1 & H2 & _)].
  - apply sample_word.
  - reflexivity.
  - repeat constructor; lia.
  - eexists _, two_users. split; [reflexivity|]. split; [reflexivity|]. split; reflexivity.
  - exists s'. split; [exact H1|exact H2].
Defined.


(** ** Renaming a file *)

Lemma check_suffixes_abort k ks : k ∈ ks -> dollar ∉ k -> check_suffixes ks = Exit ABORTED.
Proof.
  intros Hk Hd. induction ks as [|a ks IH]; [by apply not_elem_of_nil in Hk|]. cbn [check_suffixes].
  unfold block_suffix. destruct (strchr dollar a) eqn:E; [|done]. cbn [obind].
  apply elem_of_cons in Hk as [->|Hk]; [|by apply IH]. by rewrite (proj2 (strchr_None _ _) Hd) in E.
Qed.

Lemma RemoveLastSlash_plain u : last_is slash u = false -> snd (RemoveLastSlash u) = u.
Proof.
  unfold last_is, RemoveLastSlash. intros H. destruct (last u) as [c|]; [|done]. by rewrite H.
Qed.

(** C40. A request to rename a file stops the metadata server when the directory
    has any entry: the operation expects the block names of a data server and
    takes the text from the first ['$'], which the name of a dataset does not
    have. *)
Theorem metadata_rename_aborts (x : menv) (op : Z) (old new d k : bytes) (m : meta_map) (s : mserver)
  (Hop : 0 <= op < 2 ^ 32) (Hw : meta_word URI_ (old ++ comma :: new)) (Hc : comma ∉ old)
  (Hl : last_is slash old = false) (Hd : parent_dir old = Ret d) (Hm : hiermap (mstore s) !! d = Some m)
  (Hk : is_Some (buffer m !! k)) (Hdollar : dollar ∉ k) :
  stat_worker_helper x (meta_line op (B "GET") (print_u RENAME_OP) (old ++ comma :: new)) s = Exit ABORTED.
Proof.
  rewrite get_line_dispatch by (done || lia).
  change (mget _ _ _ _) with (mrename_op x (old ++ comma :: new) s).
  unfold mrename_op, rename_names. rewrite strchr_app_first by done. rewrite take_app_length.
  rewrite RemoveLastSlash_plain by done. unfold HierarchicalMapRenameRegularFile. rewrite Hd. cbn [obind].
  rewrite Hm. unfold rename_data_srv_worker.
  by rewrite (check_suffixes_abort k) by (done || by apply elem_of_keys_of).
Qed.

Lemma metadata_rename_aborts_witness :
  stat_worker_helper sample_menv
    (meta_line 0 (B "GET") (print_u RENAME_OP) (B "imss://f" ++ comma :: B "imss://g")) (server_with two_users)
  = Exit ABORTED.
Proof.
  apply (metadata_rename_aborts sample_menv 0 (B "imss://f") (B "imss://g") IMSS_ROOT (B "imss://f")
           (mkMap {[ B "imss://f" := mkBuf (Dataset two_users) sizeof_dataset ]} []) (server_with two_users)).
  - lia.
  - split; [discriminate|]. split; [by repeat constructor|reflexivity].
  - apply strchr_None. reflexivity.
  - reflexivity.
  - reflexivity.
  - reflexivity.
  - eexists. reflexivity.
  - apply strchr_None. reflexivity.
Defined.

(** ** Creating and looking up *)

Lemma fresh_stream ptr d :
  rooted (uri_ d) -> dataset_fits d -> num_intervals d = 0 -> intervals d = None ->
  exists msg, send_dataset ptr d = Ret msg /\ send_dataset 0 d = Ret msg /\ strlen msg = sizeof_dataset /\
    recv_dataset msg = Ret (sizeof_dataset, Some d).
Proof.
  intros [p Hu] Hf Hn Hi.
  assert (Intervals.table d []) as Ht by (split; [done|simpl; lia|by left]).
  exists (concat (dataset_chunks 0 d)).
  assert (concat (dataset_chunks ptr d) = concat (dataset_chunks 0 d)) as E
    by (unfold dataset_chunks; by rewrite Hi).
  pose proof (send_dataset_eq ptr d [] Ht) as H1. pose proof (send_dataset_eq 0 d [] Ht) as H2.
  cbn [fmap list_fmap concat] in H1, H2. rewrite !app_nil_r in H1, H2. rewrite E in H1.
  split; [done|]. split; [done|]. split; [by apply strlen_dataset|].
  assert (uri_ d = "i"%char :: drop 1 IMSS_ROOT ++ p) as Hu' by by rewrite Hu.
  pose proof (recv_dataset_eq 0 d [] _ _ Hu' ltac:(discriminate) Hf Ht (Forall_nil_2 _) (fun _ => Hi)) as H3.
  cbn [fmap list_fmap concat] in H3. rewrite app_nil_r, strlen_dataset in H3 by done.
  rewrite H3. do 3 f_equal. unfold received, set_intervals. destruct d; simpl in *; by subst.
Qed.

Lemma create_entry x rq key d msg n s :
  m_payload x = msg -> strlen msg <> 0 -> m_malloc_ok x = true -> m_recv_ok x = true ->
  operation rq <> IMSS_INFO -> rooted key -> entry key s = Ret None -> recv_dataset msg = Ret (n, Some d) ->
  exists s', create_op x rq key s = Ret (0, s') /\
    entry key s' = Ret (Some (mkBuf (Dataset d) (strlen msg))) /\ same_but key s s'.
Proof.
  intros Hp Hl Hma Hre Hop Hr Hn Hrecv. unfold create_op. rewrite Hp, Hma, Hre, Hrecv.
  destruct (Z.eqb_spec (strlen msg) 0); [done|]. destruct (Z.eqb_spec (operation rq) IMSS_INFO); [done|].
  cbn [negb obind].
  destruct (HierarchicalMapPut_new key (Dataset d) (strlen msg) true true (mstore s) Hr Hn) as (h & Hh & Hk & Ho).
  { intros _. by eexists. }
  rewrite Hh. cbn [obind]. by eexists.
Qed.

Lemma read_entry x rq key v d msg s :
  m_send_ok x = true -> operation rq <> IMSS_INFO -> operation rq <> 1 ->
  entry key s = Ret (Some v) -> data v = Dataset d -> is_dirty d = false -> send_dataset (m_ptr x) d = Ret msg ->
  exists s', mread_op x rq key s = Ret (0, [Data msg], s') /\
    entry key s' = Ret (Some (mkBuf (Dataset d) (bsize v))) /\ same_but key s s'.
Proof.
  intros Hs Ho1 Ho2 Hk Hv Hd Hm. unfold mread_op. rewrite Hk. cbn [obind].
  destruct (Z.eqb_spec (operation rq) IMSS_INFO); [done|]. unfold as_dataset. rewrite Hv. cbn [obind].
  rewrite Hd. destruct (Z.eqb_spec (operation rq) 1); [done|]. cbn [obind].
  destruct (store_dataset_entry key v d s Hk) as (s' & -> & Hk' & Hs'). cbn [obind]. rewrite Hm, Hs. cbn [obind].
  by eexists.
Qed.

(** The state after server [n] has become [m'] and all replies are read. *)
Definition put_meta (n : Z) (m' : mserver) (s : session) : session :=
  mkSession (wld s) (<[Z.to_nat n := m']> (metas s)) (mbox s) (curr_dataset s) (curr_imss s) (entry_number s).

Lemma ask_ok e menv_of n req msg s m r out m' :
  strlen req < REQUEST_SIZE -> send_ok e = true -> metas s !! Z.to_nat n = Some m ->
  stat_worker_helper (with_mpayload msg (menv_of n)) req m = Ret (r, out, m') ->
  ask e menv_of n req msg s = Ret (true, set_mbox (mbox s ++ map reply_bytes out) (put_meta n m' s)).
Proof.
  intros Hl He Hm Hw. unfold ask. destruct (Z.leb_spec REQUEST_SIZE (strlen req)); [lia|].
  rewrite He, Hm, Hw. done.
Qed.

Lemma exchange_ok e menv_of n req msg s m r a m' :
  strlen req < REQUEST_SIZE -> send_ok e = true -> metas s !! Z.to_nat n = Some m -> mbox s = [] ->
  stat_worker_helper (with_mpayload msg (menv_of n)) req m = Ret (r, [a], m') -> reply_bytes a <> [] ->
  exchange e menv_of n req msg s = Ret (Some (reply_bytes a), put_meta n m' s).
Proof.
  intros Hl He Hm Hb Hw Ha. unfold exchange. rewrite (ask_ok _ _ _ _ _ _ _ _ _ _ Hl He Hm Hw). cbn [obind].
  unfold hear. rewrite Hb. cbn [map app set_mbox mbox]. destruct (reply_bytes a) as [|c t] eqn:E; [done|].
  unfold set_mbox, put_meta. cbn. by rewrite Hb.
Qed.

Lemma put_meta_same n m s : metas s !! Z.to_nat n = Some m -> put_meta n m s = s.
Proof. intros H. unfold put_meta. rewrite list_insert_id by done. by destruct s. Qed.

Lemma meta_line_short op mode k uri :
  strlen mode <= 16 -> strlen k <= 20 -> strlen uri <= 600 -> strlen (meta_line op mode k uri) < REQUEST_SIZE.
Proof.
  intros Hm Hk Hu. unfold meta_line, REQUEST_SIZE.
  assert (strlen (print_u op) <= 20).
  { unfold print_u, strlen. rewrite length_fmap. pose proof (length_digits 20 op). lia. }
  rewrite strlen_app. unfold strlen in *. cbn [length]. rewrite length_app. cbn [length].
  rewrite length_app. cbn [length]. lia.
Qed.

(** A name the session does not know and the server does not have. *)
Lemma stat_missing stack e menv_of uri cur opened s r n m :
  find_dataset_by_uri_hash_pool uri (known s) = Ret (r, None) -> r <> 1 ->
  meta_home stack URI_ uri s = Ret n -> metas s !! Z.to_nat n = Some m -> mbox s = [] ->
  0 <= opened < 2 ^ 32 -> opened <> IMSS_INFO -> meta_word URI_ uri -> send_ok e = true ->
  m_send_ok (menv_of n) = true -> entry (map_key (menv_of n) uri) m = Ret None ->
  stat_dataset stack e menv_of uri cur opened s = Ret (-2, None, s).
Proof.
  intros Hf Hr Hh Hm Hb Ho Hni Hu He Hs Hk. unfold stat_dataset. rewrite Hf. cbn [obind].
  destruct (Z.eqb_spec r 1); [done|]. rewrite Hh. cbn [obind]. rewrite u32_small by lia.
  rewrite (exchange_ok e menv_of n _ [] s m 0 (Msg err_code) m); [|..|]; try done.
  - cbn [obind]. by rewrite (put_meta_same n m s Hm).
  - destruct Hu as (_ & _ & Hu). unfold URI_ in Hu. apply meta_line_short; [done|done|lia].
  - change (B "0") with (print_u READ_OP). rewrite get_line_dispatch by (done || lia).
    change (mget ?x ?rq ?k ?s) with (mread_op x rq k s). unfold mread_op.
    change (map_key (with_mpayload [] (menv_of n)) uri) with (map_key (menv_of n) uri). rewrite Hk. cbn [obind].
    unfold mconfirm, msay. cbn [with_mpayload m_send_ok]. by rewrite Hs.
Qed.

(** A name the server has. *)
Lemma stat_present stack e menv_of uri cur opened s r n m v d :
  find_dataset_by_uri_hash_pool uri (known s) = Ret (r, None) -> r <> 1 ->
  meta_home stack URI_ uri s = Ret n -> metas s !! Z.to_nat n = Some m -> mbox s = [] ->
  0 <= opened < 2 ^ 32 -> opened <> IMSS_INFO -> opened <> 1 -> meta_word URI_ uri -> send_ok e = true ->
  m_send_ok (menv_of n) = true -> entry (map_key (menv_of n) uri) m = Ret (Some v) -> data v = Dataset d ->
  is_dirty d = false -> rooted (uri_ d) -> dataset_fits d -> num_intervals d = 0 -> intervals d = None ->
  exists m', stat_dataset stack e menv_of uri cur opened s = Ret (-3, Some d, put_meta n m' s) /\
    same_but (map_key (menv_of n) uri) m m'.
Proof.
  intros Hf Hr Hh Hm Hb Ho Hni Hn1 Hu He Hs Hk Hv Hd Hru Hfit Hni0 Hiv. unfold stat_dataset. rewrite Hf. cbn [obind].
  destruct (Z.eqb_spec r 1); [done|]. rewrite Hh. cbn [obind]. rewrite u32_small by lia.
  destruct (fresh_stream (m_ptr (menv_of n)) d Hru Hfit Hni0 Hiv) as (msg & H1 & _ & Hl & H3).
  destruct (read_entry (with_mpayload [] (menv_of n)) (mkMreq opened (B "GET") (print_u READ_OP) uri 4 [])
              (map_key (menv_of n) uri) v d msg m) as (m' & Hread & _ & Hsame); try done.
  exists m'. split; [|done].
  rewrite (exchange_ok e menv_of n _ [] s m 0 (Data msg) m'); [|..|]; try done.
  - cbn [obind reply_bytes]. rewrite H3. done.
  - destruct Hu as (_ & _ & Hu). unfold URI_ in Hu. apply meta_line_short; [done|done|lia].
  - change (B "0") with (print_u READ_OP). rewrite get_line_dispatch by (done || lia). exact Hread.
  - intros E. cbn [reply_bytes] in E. by rewrite E in Hl.
Qed.

Lemma meta_home_wider stack a b uri s n :
  a <= b -> meta_home stack a uri s = Ret n -> meta_home stack b uri s = Ret n.
Proof.
  unfold meta_home. intros Hab. destruct (Z.leb_spec a (strlen (snd (find_first_parent_dir uri)))); [done|].
  destruct (Z.leb_spec b (strlen (snd (find_first_parent_dir uri)))); [lia|done].
Qed.

Lemma meta_home_put stack a uri n m s : meta_home stack a uri (put_meta n m s) = meta_home stack a uri s.
Proof. unfold meta_home, put_meta. cbn. by rewrite length_insert. Qed.

Lemma meta_home_nonneg stack a uri s n : meta_home stack a uri s = Ret n -> 0 <= n.
Proof. unfold meta_home. case_match; [done|]. intros Hn%find_server_ret. lia. Qed.

(** What a client needs of a metadata server to be answered. *)
Definition meta_serves (x : menv) : Prop :=
  m_send_ok x = true /\ m_recv_ok x = true /\ m_malloc_ok x = true.

(** The request of [create_dataset] at the server. *)
Lemma create_request x opened uri d msg n m :
  meta_serves x -> 0 <= opened < 2 ^ 32 -> opened <> IMSS_INFO -> meta_word URI_ uri ->
  uri_ d = uri -> type_ d <> TYPE_DIRECTORY -> rooted (map_key x uri) -> strlen msg <> 0 ->
  recv_dataset msg = Ret (n, Some d) -> entry (map_key x uri) m = Ret None ->
  exists m', stat_worker_helper (with_mpayload msg x) (create_line opened d) m = Ret (0, [Msg MSG_OK_OP], m') /\
    entry (map_key x uri) m' = Ret (Some (mkBuf (Dataset d) (strlen msg))) /\ same_but (map_key x uri) m m'.
Proof.
  intros (Hs & Hr & Ha) Ho Hni Hw Hu Ht Hroot Hl Hrecv Hnone. unfold create_line. rewrite u32_small by lia.
  assert (ascii_eqb (type_ d) TYPE_DIRECTORY = false) as -> by by apply ascii_eqb_false.
  rewrite Hu. rewrite set_line_dispatch by (done || (unfold sizeof_dataset; lia)).
  change (map_key (with_mpayload msg x) uri) with (map_key x uri). unfold mset_op. rewrite Hnone. cbn [obind].
  destruct (create_entry (with_mpayload msg x) (mkMreq opened (B "SET") (print_u sizeof_dataset) uri 4 [])
              (map_key x uri) d msg n m) as (m' & -> & Hk & Hsame); try done.
  cbn [obind]. unfold msay. cbn [with_mpayload m_send_ok]. rewrite Hs. by exists m'.
Qed.

Lemma add_then_find uri d info p p' z :
  parent_dir uri = Ret d -> type_ info <> TYPE_DIRECTORY -> add_dataset_entry_in_pool uri info p = Ret (z, p') ->
  find_dataset_by_uri_hash_pool uri p' = Ret (1, Some info).
Proof.
  intros Hd Ht. rewrite (add_entry_eq _ _ _ _ Hd). cbn zeta.
  assert (ascii_eqb (type_ info) TYPE_DIRECTORY = false) as -> by by apply ascii_eqb_false.
  intros [= _ <-]. rewrite (find_pool_eq _ _ _ Hd), lookup_insert_eq. by rewrite lookup_insert_eq.
Qed.

Lemma hear_one b s : mbox s = [] -> b <> [] -> hear (set_mbox [b] s) = (Some b, s).
Proof. intros Hb Hne. unfold hear. cbn. destruct b; [done|]. destruct s; simpl in *. by subst. Qed.

(** C9. Creating a file that exists neither in the session nor at its metadata
    server succeeds with the next entry number; the session then knows it, and
    every client that has not heard of it and asks the servers is given the
    structure that was created, field by field. *)
Theorem create_then_stat (stack : bytes) (e e' : env) (matching opened opened' : Z) (menv_of : Z -> menv)
  (uri policy_ : bytes) (n size repl repl_type_ n_servers_ : Z) (link_ : option bytes) (ty : ascii)
  (s s1 t : session) (home r r' : Z) (m : mserver) (p : pool)
  (d := new_dataset uri policy_ n size repl repl_type_ n_servers_ link_ opened ty
          (imss_check uri (imssd (wld s))) matching (num_active_storages (curr_imss s1)))
  (Hargs : n <> 0 /\ size <> 0 /\ NONE <= repl <= TRM /\ SYNC <= repl_type_ <= ASYNC)
  (Hidx : imss_check uri (imssd (wld s)) <> -1)
  (Hparent : check_parent stack e menv_of uri s = Ret (None, s1))
  (Hnew : find_dataset_by_uri_hash_pool uri (known s1) = Ret (r, None) /\ r <> 1)
  (Hhome : meta_home stack URI_ uri s1 = Ret home) (Hsrv : metas s1 !! Z.to_nat home = Some m)
  (Hbox : mbox s1 = []) (Hnone : entry (map_key (menv_of home) uri) m = Ret None)
  (Hserves : meta_serves (menv_of home)) (Hsend : send_ok e = true) (Hsend' : send_ok e' = true)
  (Hopened : opened = 0 \/ opened = 1) (Hw : meta_word URI_ uri) (Hroot : rooted uri)
  (Hkey : rooted (map_key (menv_of home) uri))
  (Hty : ty <> TYPE_DIRECTORY) (Harr : fits_arrays uri policy_ link_ = true) (Hfit : dataset_fits d)
  (Ht : find_dataset_by_uri_hash_pool uri p = Ret (r', None) /\ r' <> 1) :
  exists s', create_dataset stack e matching menv_of uri policy_ n size repl repl_type_ n_servers_ link_
               opened ty s = Ret (entry_number s1, s') /\
    mbox s' = [] /\ entry_number s' = entry_number s1 + 1 /\
    find_dataset_by_uri_hash_pool uri (known s') = Ret (1, Some d) /\
    (known t = p -> metas t = metas s' -> mbox t = [] -> curr_imss t = curr_imss s' ->
     exists t', stat_dataset stack e' menv_of uri None 0 t = Ret (-3, Some d, t') /\ mbox t' = []).
Proof.
  destruct Hargs as (Hn & Hsz & Hrepl & Hrt). destruct Hnew as [Hfind Hr]. destruct Ht as [Hfind' Hr'].
  assert (0 <= opened < 2 ^ 32 /\ opened <> IMSS_INFO) as [Ho Hni] by (unfold IMSS_INFO; lia).
  destruct (parent_dir_rooted uri Hroot) as [pd Hpd].
  destruct (fresh_stream 0 d Hroot Hfit eq_refl eq_refl) as (msg & Hmsg & _ & Hlen & Hrecv).
  destruct (create_request (menv_of home) opened uri d msg sizeof_dataset m) as (m' & Hreq & Hk & _); try done.
  { by rewrite Hlen. }
  unfold create_dataset.
  assert ((n =? 0) || (size =? 0) || (repl <? NONE) || (TRM <? repl) || (repl_type_ <? SYNC)
          || (ASYNC <? repl_type_) = false) as -> by (btests; lia).
  destruct (Z.eqb_spec (imss_check uri (imssd (wld s))) (-1)); [done|]. rewrite Hparent. cbn [obind].
  rewrite (stat_missing stack e menv_of uri None opened s1 r home m); try done; [|by apply Hserves].
  cbn [obind Z.eqb orb]. rewrite Harr. cbn [negb].
  assert ((- 2 ^ 31 <=? size * 1024) && (size * 1024 <? 2 ^ 31) = true) as ->.
  { pose proof (fits_ints _ Hfit) as Hi. rewrite !Forall_cons in Hi. destruct Hi as (_ & _ & Hi & _).
    unfold int_fits in Hi. simpl in Hi. btests. lia. }
  cbn [negb]. rewrite (meta_home_wider stack URI_ PATH_MAX uri s1 home) by (done || (unfold URI_, PATH_MAX; lia)).
  cbn [obind]. fold d. rewrite Hmsg. cbn [obind].
  rewrite (ask_ok e menv_of home (create_line opened d) msg s1 m 0 [Msg MSG_OK_OP] m'); try done.
  2:{ destruct Hw as (_ & _ & Hu). unfold create_line.
      assert (ascii_eqb (type_ d) TYPE_DIRECTORY = false) as -> by by apply ascii_eqb_false.
      unfold URI_ in Hu. apply meta_line_short; [done|apply strlen_print_u|simpl uri_; lia]. }
  rewrite Hbox. cbn [app map reply_bytes]. change (2 =? 3)%positive with false. cbv iota. cbn [obind negb].
  rewrite hear_one by done. rewrite (add_entry_eq _ _ _ _ Hpd). cbn [obind]. eexists. split; [done|].
  split; [done|]. split; [done|]. split.
  { cbn [known wld next_entry set_pool set_wld datasets set_datasets].
    eapply add_then_find; [exact Hpd|exact Hty|]. by rewrite (add_entry_eq _ _ _ _ Hpd). }
  intros Hp Hmetas Htbox Himss. cbn [next_entry metas set_pool set_wld put_meta curr_imss] in Hmetas, Himss.
  destruct (stat_present stack e' menv_of uri None 0 t r' home m' (mkBuf (Dataset d) (strlen msg)) d)
    as (m2 & Hst & _); try done.
  - by rewrite Hp.
  - unfold meta_home in *. rewrite Hmetas, Himss, length_insert. exact Hhome.
  - rewrite Hmetas. apply list_lookup_insert_eq. by apply lookup_lt_Some in Hsrv.
  - by apply Hserves.
  - eexists. split; [exact Hst|]. done.
Qed.

(** A session with one metadata server that has no dataset. *)
Definition empty_meta : mserver := mkMserver (mkHier {[ IMSS_ROOT := mkMap ∅ [] ]} 0 1000000 []) None idle ∅.
Definition fresh_session (m : mserver) : session :=
  mkSession (mkWorld [] [] {[ IMSS_ROOT := ∅ ]} [cluster_imss]) [m] [] None cluster_imss 0.

Lemma created_fits :
  dataset_fits (new_dataset (B "imss://f") (B "RR") 1 4 1 0 2 None 1 "R" 0 0 2).
Proof.
  split; try (split; [apply strchr_None; reflexivity|simpl; lia]); [|simpl; lia].
  repeat (apply Forall_cons_2; [unfold int_fits; simpl; unfold MAX_NUM_INTERVALS; lia|]). apply Forall_nil_2.
Qed.

Lemma create_then_stat_witness :
  exists s', create_dataset [] (big_env 4096) 0 (fun _ => sample_menv) (B "imss://f") (B "RR") 1 4 1 0 2 None 1
               "R" (fresh_session empty_meta) = Ret (0, s') /\
    mbox s' = [] /\ entry_number s' = 1 /\
    exists t', stat_dataset [] (big_env 4096) (fun _ => sample_menv) (B "imss://f") None 0
        (mkSession (mkWorld [] [] ∅ []) (metas s') [] None (curr_imss s') 0)
      = Ret (-3, Some (new_dataset (B "imss://f") (B "RR") 1 4 1 0 2 None 1 "R" 0 0 2), t').
Proof.
  assert (exists s', create_dataset [] (big_env 4096) 0 (fun _ => sample_menv) (B "imss://f") (B "RR") 1 4 1 0 2
    None 1 "R" (fresh_session empty_meta) = Ret (0, s')) as [s' Hs'] by (eexists; vm_compute; reflexivity).
  destruct (create_then_stat [] (big_env 4096) (big_env 4096) 0 1 0 (fun _ => sample_menv)
    (B "imss://f") (B "RR") 1 4 1 0 2 None "R" (fresh_session empty_meta) (fresh_session empty_meta)
    (mkSession (mkWorld [] [] ∅ []) (metas s') [] None (curr_imss s') 0) 0 0 (-1) empty_meta ∅)
    as (s'' & H1 & H2 & H3 & H4 & H5).
  - unfold NONE, TRM, SYNC, ASYNC. lia.
  - vm_compute. discriminate.
  - reflexivity.
  - split; [reflexivity|lia].
  - vm_compute. reflexivity.
  - reflexivity.
  - reflexivity.
  - reflexivity.
  - split; [|split]; reflexivity.
  - reflexivity.
  - reflexivity.
  - lia.
  - apply sample_word.
  - by exists (B "f").
  - by exists (B "f").
  - discriminate.
  - reflexivity.
  - apply created_fits.
  - split; [reflexivity|lia].
  - assert (s'' = s') as -> by congruence. exists s'. split; [exact Hs'|]. split; [exact H2|]. split; [exact H3|].
    destruct H5 as (t' & Ht & _); [reflexivity..|]. exists t'. exact Ht.
Defined.
