(* ===== verification/MetaClient.v ===== *)
(** * The client against its metadata servers: replies, links, listings

    Which reply a client operation of Datasets.v reads, what it does with
    symbolic links, and what a directory listing gives. *)

From S2P Require Import Prelude Types Policies Paths Intervals Store DataServer Wire Sessions Client Comms MetaStore Elasticity MetaServer Datasets Lifecycle.

(** ** Replies that are not read *)

Lemma SetInterval_names d v l r d' :
  SetInterval d v l r = Ret d' -> uri_ d' = uri_ d /\ type_ d' = type_ d.
Proof.
  unfold SetInterval, GetIntervalPointer. case_match; [by intros [= <-]|].
  destruct (intervals d) eqn:Ei;
    (destruct (scan_intervals _ _ _ _) as [[[i e]|]| |]; try done; cbn [obind];
     unfold store_interval; repeat case_match; intros [= <-]; done).
Qed.

Lemma ask_inv e menv_of n req msg s s' :
  ask e menv_of n req msg s = Ret (true, s') ->
  exists m r out m', metas s !! Z.to_nat n = Some m /\
    stat_worker_helper (with_mpayload msg (menv_of n)) req m = Ret (r, out, m') /\
    s' = set_mbox (mbox s ++ map reply_bytes out) (put_meta n m' s).
Proof.
  unfold ask. case_match; [done|]. case_match; [done|].
  destruct (metas s !! Z.to_nat n) as [m|]; [|done].
  destruct (stat_worker_helper _ req m) as [[[r out] m']| |] eqn:E; try done. cbn [obind]. intros [= <-].
  by exists m, r, out, m'.
Qed.

(** A [SET] answers OK, and nothing else. *)
Lemma set_answers_ok x op n uri m r out m' :
  0 <= op < 2 ^ 32 -> 0 <= n < 2 ^ 31 -> meta_word URI_ uri -> m_send_ok x = true ->
  stat_worker_helper x (meta_line op (B "SET") (print_u n) uri) m = Ret (r, out, m') -> out = [Msg MSG_OK_OP].
Proof.
  intros Hop Hn Hu Hs. rewrite set_line_dispatch by done. unfold mset_op.
  destruct (HierarchicalMapGet _ _) as [found| |]; try done. cbn [obind].
  destruct (match found with Some v => _ | None => _ end) as [[r0 s0]| |]; try done. cbn [obind].
  intros [= _ <- _]. unfold msay. by rewrite Hs.
Qed.

(** C39. [update_dataset] leaves the confirmation of the server unread, so the next
    operation takes it for its own reply: closing the dataset then always
    reports a plain close and leaves the data servers alone, even when the
    metadata server answered that the dataset was deleted; its true reply is
    in turn left for the operation after that. *)
Theorem update_shifts_replies (stack : bytes) (e : env) (mall : bool) (matching : Z) (menv_of : Z -> menv)
  (stat_id : Z -> Z) (uri : bytes) (pid ptr home : Z) (d : dataset_info) (s s1 : session) (m m' : mserver)
  (r : Z) (a : reply)
  (Hbox : mbox s = []) (Hsends : forall n, m_send_ok (menv_of n) = true) (Hpid : 0 <= pid < 2 ^ 31)
  (Hfind : find_dataset_by_uri_hash_pool uri (known s) = Ret (1, Some d))
  (Hword : meta_word URI_ (uri_ d)) (Hty : type_ d <> TYPE_DIRECTORY) (Hshort : strlen uri <= 600)
  (Hup : update_dataset stack e mall menv_of uri pid ptr s = Ret (1, s1))
  (Hhome : meta_home stack URI_ uri s1 = Ret home) (Hm : metas s1 !! Z.to_nat home = Some m)
  (Hclose : stat_worker_helper (with_mpayload [] (menv_of home))
              (meta_line (stat_id home) (B "GET") (B "7") uri) m = Ret (r, [a], m')) :
  mbox s1 = [reply_bytes (Msg MSG_OK_OP)] /\
  exists s2, close_dataset stack e mall menv_of stat_id uri [] s1 = Ret (1, s2) /\
    wld s2 = wld s1 /\ mbox s2 = [reply_bytes a].
Proof.
  assert (send_ok e = true /\ mbox s1 = [reply_bytes (Msg MSG_OK_OP)]) as [He Hb1].
  { revert Hup. unfold update_dataset. rewrite Hfind. cbn [obind].
    destruct (meta_home stack URI_ uri s) as [n| |]; try done. cbn [obind].
    destruct (if _ && mall then _ else _) as [d1| |] eqn:Ed; try done. cbn [obind].
    assert (uri_ d1 = uri_ d /\ type_ d1 = type_ d) as [Hu1 Ht1].
    { destruct (_ && mall); [|by injection Ed as <-].
      destruct (SetInterval d _ 0 0) as [d0| |] eqn:E0; try done. cbn [obind] in Ed.
      apply SetInterval_names in E0 as [<- <-]. by apply SetInterval_names in Ed. }
    destruct (update_dataset_entry uri d1 (wld s)) as [w| |]; try done. cbn [obind].
    destruct (send_dataset ptr d1) as [msg| |]; try done. cbn [obind].
    rewrite Ht1, Hu1. assert (ascii_eqb (type_ d) TYPE_DIRECTORY = false) as -> by by apply ascii_eqb_false.
    destruct (ask _ _ _ _ _ _) as [[ok s0]| |] eqn:Ea; try done. cbn [obind]. intros [= Hok <-].
    destruct ok; [|done]. split.
    - unfold ask in Ea. case_match; [done|]. by destruct (send_ok e).
    - apply ask_inv in Ea as (m0 & r0 & out & m1 & _ & Hw & ->).
      apply set_answers_ok in Hw as ->; try done; [|apply Hsends]. cbn. by rewrite Hbox. }
  split; [done|]. unfold close_dataset. rewrite Hhome. cbn [obind]. unfold exchange.
  rewrite (ask_ok e menv_of home _ [] s1 m r [a] m'); try done.
  2:{ apply meta_line_short; [done|done|lia]. }
  cbn [obind]. unfold hear. cbn [set_mbox mbox put_meta]. rewrite Hb1. cbn [app map].
  change (reply_bytes (Msg MSG_OK_OP)) with ["O"; "K"; "000"]%char. cbv iota. cbn [obind].
  change (prefixb MSG_DELETE_OP ["O"; "K"; "000"]%char) with false. cbv iota. cbn [obind send_performance].
  destruct mall; eexists; (split; [reflexivity|]); split; reflexivity.
Qed.

(** One user has the file open and it is marked for removal. *)
Definition doomed : dataset_info := set_status STATUS_DEST (set_n_open 1 (sample_meta (B "imss://f") "R"%char)).
Definition session_with (known_ : dataset_info) (m : mserver) : session :=
  mkSession (mkWorld [] [] {[ IMSS_ROOT := {[ uri_ known_ := known_ ]} ]} [cluster_imss]) [m] [] None cluster_imss 0.

Definition ret_or {A} (x : A) (o : outcome A) : A := match o with Ret y => y | _ => x end.
Definition before_update : session := session_with doomed (server_with doomed).
Definition after_update : session :=
  snd (ret_or (0, before_update)
         (update_dataset [] (big_env 4096) true (fun _ => sample_menv) (B "imss://f") 77 4096 before_update)).
Definition updated_server : mserver := default empty_meta (metas after_update !! 0%nat).
Definition closed_server : mserver :=
  snd (ret_or (0, [], empty_meta)
         (stat_worker_helper (with_mpayload [] sample_menv) (meta_line 0 (B "GET") (B "7") (B "imss://f"))
            updated_server)).

Lemma update_shifts_replies_witness :
  exists s2, close_dataset [] (big_env 4096) true (fun _ => sample_menv) (fun _ => 0) (B "imss://f") [] after_update
      = Ret (1, s2) /\ wld s2 = wld after_update /\ mbox s2 = [reply_bytes (Msg MSG_DELETE_OP)].
Proof.
  apply (update_shifts_replies [] (big_env 4096) true 0 (fun _ => sample_menv) (fun _ => 0) (B "imss://f") 77 4096 0
    doomed before_update after_update updated_server closed_server 0 (Msg MSG_DELETE_OP)).
  - reflexivity.
  - reflexivity.
  - lia.
  - reflexivity.
  - apply sample_word.
  - discriminate.
  - vm_compute. discriminate.
  - vm_compute. reflexivity.
  - vm_compute. reflexivity.
  - vm_compute. reflexivity.
  - vm_compute. reflexivity.
Defined.

(** The report of a closing client is answered twice, OK and then the list of
    data servers, and the client reads one reply: it takes OK for the list,
    adds no server, and the list stays in its queue for the next operation. *)
Theorem report_reply_missed (stack : bytes) (e : env) (menv_of : Z -> menv) (stat_id : Z -> Z) (n : Z)
  (uri : bytes) (h : bytes * IOServerMetrics) (perf : list (bytes * IOServerMetrics)) (s : session)
  (m m' : mserver) (rsp : bytes) (r : Z)
  (Hbox : mbox s = []) (Hsend : send_ok e = true) (Hm : metas s !! Z.to_nat n = Some m)
  (Hshort : strlen uri <= 600)
  (Hserve : stat_worker_helper (with_mpayload (report (h :: perf)) (menv_of n))
              (meta_line (stat_id n) (B "SETPERFORMANCE") (print_u 10) uri) m
            = Ret (r, [Msg MSG_OK_OP; Msg rsp], m')) :
  send_performance e menv_of stat_id n uri (h :: perf) s
  = Ret (None, set_mbox [reply_bytes (Msg rsp)] (put_meta n m' s)).
Proof.
  unfold send_performance, exchange.
  rewrite (ask_ok e menv_of n _ _ s m r [Msg MSG_OK_OP; Msg rsp] m'); try done.
  2:{ apply meta_line_short; [done|apply strlen_print_u|lia]. }
  cbn [obind]. unfold hear. cbn [set_mbox mbox put_meta]. rewrite Hbox. cbn [app map].
  change (reply_bytes (Msg MSG_OK_OP)) with ["O"; "K"; "000"]%char. cbv iota. cbn [obind].
  change (active_nodes (cstring ["O"; "K"; "000"]%char)) with (@nil bytes). by cbn [add_nodes obind].
Qed.

(** A server that has the instance, and the report of a slow client. *)
Definition instance_server : mserver :=
  mkMserver (mkHier {[ IMSS_ROOT := mkMap {[ IMSS_ROOT := mkBuf (Instance_ sample_imss) 288 ]} [] ]} 0 1000000 [])
    (Some IMSS_ROOT) idle ∅.
Definition slow_client : bytes * IOServerMetrics :=
  (B "node0", mkIO 0 (mkMetrics (of_int 1000) 5000000) (mkMetrics (of_int 1000) 7000000)).
Definition reported : Z * list reply * mserver :=
  ret_or (0, [], empty_meta)
    (stat_worker_helper (with_mpayload (report [slow_client]) sample_menv)
       (meta_line 0 (B "SETPERFORMANCE") (print_u 10) (B "imss://f")) instance_server).
Definition second_reply : bytes := match snd (fst reported) with [_; Msg b] => b | _ => [] end.

Lemma report_reply_missed_witness :
  send_performance (big_env 4096) (fun _ => sample_menv) (fun _ => 0) 0 (B "imss://f") [slow_client]
    (fresh_session instance_server)
  = Ret (None, set_mbox [reply_bytes (Msg second_reply)] (put_meta 0 (snd reported) (fresh_session instance_server))) /\
  prefixb MSG_MALLEABILITY_DATASERVERS second_reply = true.
Proof.
  split; [|vm_compute; reflexivity].
  apply (report_reply_missed [] (big_env 4096) (fun _ => sample_menv) (fun _ => 0) 0 (B "imss://f") slow_client []
           (fresh_session instance_server) instance_server (snd reported) second_reply 0).
  - reflexivity.
  - reflexivity.
  - reflexivity.
  - vm_compute. discriminate.
  - vm_compute. reflexivity.
Defined.

(** ** Symbolic links *)

(** The structure a client gets when it asks for a name, from the session or
    from the server. *)
Definition stat_gives (stack : bytes) (e : env) (menv_of : Z -> menv) (uri : bytes) (cur : option dataset_info)
    (opened : Z) (s : session) (res : Z) (d : dataset_info) (s' : session) : Prop :=
  stat_dataset stack e menv_of uri cur opened s = Ret (res, Some d, s') /\ (res = 1 \/ res = -3).

(** Opening a link to a file of the system: the target is found, but whether
    it lies in the system is decided on the target's own link name.  When the
    target is not itself a link the open reports a name outside the system and
    replaces the caller's name by the empty string.  A link to a missing name
    dereferences a null pointer. *)
Theorem open_link_loses_name (stack : bytes) (e : env) (matching : Z) (menv_of : Z -> menv) (pos opened : Z)
  (uri : bytes) (s s1 s2 : session) (res res2 : Z) (d0 d : dataset_info)
  (Hidx : imss_check uri (imssd (wld s)) <> -1)
  (H0 : stat_gives stack e menv_of uri None opened s res d0 s1) (Hlink : is_link d0 <> 0) :
  (stat_gives stack e menv_of (link d0) (Some d0) 0 s1 res2 d s2 -> link d = [] ->
   open_dataset stack e matching menv_of pos uri opened s = Ret (-2, [], s2)) /\
  (stat_dataset stack e menv_of (link d0) (Some d0) 0 s1 = Ret (-2, None, s2) ->
   open_dataset stack e matching menv_of pos uri opened s = Undef NullDeref).
Proof.
  destruct H0 as [H0 Hres]. unfold open_dataset.
  destruct (Z.eqb_spec (imss_check uri (imssd (wld s))) (-1)); [done|]. rewrite H0. cbn [obind].
  destruct (Z.eqb_spec res (-2)); [lia|]. destruct (Z.eqb_spec (is_link d0) 0); [done|]. split.
  - intros [H1 _] Hl. rewrite H1. cbn [obind]. by rewrite Hl.
  - intros H1. rewrite H1. done.
Qed.

Definition target : dataset_info := sample_meta (B "imss://f") "R"%char.
Definition the_link : dataset_info :=
  new_dataset (B "imss://l") (B "RR") 1 4 1 0 2 (Some (B "imss://f")) 0 "L" 0 0 2.
Definition linked_session : session :=
  mkSession (mkWorld [] [] {[ IMSS_ROOT := {[ B "imss://f" := target; B "imss://l" := the_link ]} ]} [cluster_imss])
    [empty_meta] [] None cluster_imss 0.

Lemma open_link_loses_name_witness :
  open_dataset [] (big_env 4096) 0 (fun _ => sample_menv) 0 (B "imss://l") 1 linked_session
  = Ret (-2, [], linked_session).
Proof.
  apply (open_link_loses_name [] (big_env 4096) 0 (fun _ => sample_menv) 0 1 (B "imss://l") linked_session
           linked_session linked_session 1 1 the_link target).
  - vm_compute. discriminate.
  - split; [reflexivity|lia].
  - discriminate.
  - split; [reflexivity|lia].
  - reflexivity.
Defined.

(** ** Renaming a directory in the session *)

Lemma fold_collapse (new : bytes) (f : dataset_info -> dataset_info) (ks : list bytes) (t : Sessions.table) k :
  new ∉ ks -> k <> new ->
  fold_left (fun t k => match t !! k with Some info => <[new := f info]> (delete k t) | None => t end) ks t !! k
  = if decide (k ∈ ks) then None else t !! k.
Proof.
  intros Hn Hk. revert t. induction ks as [|a ks IH]; intros t; cbn [fold_left]; [done|].
  rewrite IH by set_solver. destruct (decide (k ∈ ks)) as [Hin|Hni].
  - by rewrite decide_True by set_solver.
  - destruct (decide (k = a)) as [->|Hka].
    + rewrite decide_True by set_solver. destruct (t !! a) eqn:Ea; [|done].
      by rewrite lookup_insert_ne, lookup_delete_eq.
    + rewrite decide_False by set_solver. destruct (t !! a); [|done].
      by rewrite lookup_insert_ne, lookup_delete_ne.
Qed.

(** After a directory is renamed the session has forgotten every dataset below
    it, under the old names and under the new ones: all of them were filed
    under the name of the directory itself, in a table with one entry left. *)
Theorem rename_dir_forgets (order : Sessions.table -> list bytes) (old new : bytes) (t : Sessions.table)
  (Horder : forall k, k ∈ order t <-> is_Some (t !! k)) (Hold : below old new = false)
  (Hnew : forall k, is_Some (t !! k) -> below new k = false) :
  let t' := replace_uri_base_path_dir order old new t in
  (forall k, below old k = true -> t' !! k = None) /\
  (forall k, below new k = true -> k <> new -> t' !! k = None) /\
  (forall k, below old k = false -> k <> new -> t' !! k = t !! k).
Proof.
  set (ks := List.filter (below old) (order t)).
  assert (forall k, k ∈ ks <-> is_Some (t !! k) /\ below old k = true) as Hks.
  { intros k. unfold ks. rewrite list_elem_of_In, filter_In, <- list_elem_of_In, Horder. done. }
  assert (new ∉ ks) as Hn by (rewrite Hks, Hold; naive_solver).
  cbn zeta. unfold replace_uri_base_path_dir. fold ks. split; [|split]; intros k Hk.
  - assert (k <> new) by congruence. rewrite fold_collapse by done. case_decide as Hin; [done|].
    destruct (t !! k) eqn:E; [|done]. exfalso. apply Hin, Hks. split; [by eexists|done].
  - intros Hne. rewrite fold_collapse by done. case_decide; [done|].
    destruct (t !! k) eqn:E; [|done]. rewrite Hnew in Hk; [done|by eexists].
  - intros Hne. rewrite fold_collapse by done. rewrite decide_False; [done|]. rewrite Hks. intros [_ ?]. congruence.
Qed.

Definition renamed_table : Sessions.table :=
  {[ B "imss://d/a" := sample_meta (B "imss://d/a") "R"; B "imss://d/b" := sample_meta (B "imss://d/b") "R" ]}.

Lemma rename_dir_forgets_witness :
  let t' := replace_uri_base_path_dir (fun t => (map_to_list t).*1) (B "imss://d") (B "imss://e") renamed_table in
  t' !! B "imss://d/a" = None /\ t' !! B "imss://e/a" = None /\ t' !! B "imss://e/b" = None.
Proof.
  destruct (rename_dir_forgets (fun t => (map_to_list t).*1) (B "imss://d") (B "imss://e") renamed_table)
    as (H1 & H2 & _).
  - intros k. rewrite list_elem_of_fmap. split.
    + intros [[k' v] [-> Hv%elem_of_map_to_list]]. by exists v.
    + intros [v Hv]. exists (k, v). split; [done|]. by apply elem_of_map_to_list.
  - reflexivity.
  - intros k [v Hv]. unfold renamed_table in Hv. apply lookup_insert_Some in Hv as [[<- _]|[_ Hv]]; [reflexivity|].
    apply lookup_singleton_Some in Hv as [<- _]. reflexivity.
  - split; [apply H1; reflexivity|]. split; apply H2; [reflexivity|discriminate|reflexivity|discriminate].
Defined.

(** ** Listing a directory *)

Lemma slots_concat (w : nat) (cs : list bytes) :
  Forall (fun c => length c = w) cs ->
  (fun j => take w (drop (j * w) (concat cs))) <$> seq 0 (length cs) = cs.
Proof.
  induction 1 as [|c cs Hc _ IH]; [done|]. cbn [length concat seq fmap list_fmap]. f_equal.
  - rewrite drop_0. rewrite <- Hc. by rewrite take_app_length.
  - rewrite <- seq_shift. unfold fmap in *. rewrite map_map. rewrite <- IH at 2. apply map_ext. intros j.
    cbn [Nat.mul]. rewrite <- drop_drop. by rewrite (drop_app_length' c) by done.
Qed.

Lemma length_slots (w : nat) (l : list bytes) :
  Forall (fun c => (length c <= w)%nat) l -> Forall (fun c => length c = w) (put_str w <$> l).
Proof. intros Hl. apply Forall_fmap. eapply Forall_impl; [done|]. intros c Hc. by apply length_put_str. Qed.

Lemma length_concat_slots (w : nat) (cs : list bytes) :
  Forall (fun c => length c = w) cs -> length (concat cs) = (length cs * w)%nat.
Proof. induction 1 as [|c cs Hc _ IH]; [done|]. cbn [concat length Nat.mul]. rewrite length_app. lia. Qed.

Lemma children_Forall (P : bytes -> Prop) dir (dm : meta_map) :
  Forall P (keys_of (buffer dm)) -> Forall P (children dir dm).
Proof.
  rewrite !Forall_forall. intros H c Hin. apply H. unfold children in Hin.
  rewrite list_elem_of_In, filter_In, <- list_elem_of_In in Hin. apply Hin.
Qed.

(** The answer of the server of a directory, as the client reads it: the
    names of its entries, none when it is empty. *)
Lemma getdir_answer x id uri (dm : meta_map) m :
  m_send_ok x = true -> 0 <= id < 2 ^ 32 -> meta_word URI_ uri ->
  hiermap (mstore m) !! map_key x uri = Some dm ->
  Forall (fun f => (length f <= 256)%nat) (keys_of (buffer dm)) -> Forall rooted (children (map_key x uri) dm) ->
  Z.of_nat (length (children (map_key x uri) dm)) * URI_ < 2 ^ 31 ->
  exists a, stat_worker_helper x (meta_line id (B "GET") (print_u GETDIR) uri) m = Ret (0, [a], m) /\
    reply_bytes a <> [] /\
    match children (map_key x uri) dm with
    | [] => a = Msg MSG_EMPTY_DIRECTORY
    | l => a = Data (concat (put_str 256 <$> l))
    end.
Proof.
  intros Hs Hid Hw Hd Hlen Hroot Hfit. set (key := map_key x uri) in *.
  rewrite get_line_dispatch by (done || (unfold GETDIR; lia)). fold key.
  change (mget _ _ _ _) with (getdir_op x key m). unfold getdir_op.
  pose proof (HierarchicalMapListDir_spec key (mstore m)) as Hls. rewrite Hd in Hls.
  destruct (Hls Hlen) as (_ & _ & tail & ->). clear Hls. cbn [obind].
  destruct (children key dm) as [|f l] eqn:Hc.
  - cbn [length decide]. rewrite decide_True by done. destruct (Z.eqb_spec (Z.of_nat 0) (-1)); [lia|].
    unfold mconfirm, msay. rewrite Hs. eexists. split; [done|]. done.
  - rewrite decide_False by done. rewrite Hs. eexists. split; [done|].
    assert (take (Z.to_nat (Z.of_nat (length (f :: l)) * URI_)) (concat (put_str 256 <$> f :: l) ++ tail)
            = concat (put_str 256 <$> f :: l)) as ->.
    { apply take_app_length'. rewrite (length_concat_slots 256), length_fmap; [unfold URI_; lia|].
      rewrite <- Hc. by apply length_slots, children_Forall. }
    apply Forall_cons in Hroot as [[p ->] _]. done.
Qed.

Lemma get_dir_children (stack : bytes) (e : env) (menv_of : Z -> menv) (stat_id : Z -> Z) (uri : bytes)
  (s : session) (m : mserver) (dm : meta_map)
  (Hone : metas s = [m]) (Hbox : mbox s = []) (Hsend : send_ok e = true) (Hx : m_send_ok (menv_of 0) = true)
  (Hid : 0 <= stat_id 0 < 2 ^ 32) (Hhome : meta_home stack URI_ uri s = Ret 0)
  (Hw : meta_word URI_ (with_slash uri)) (Hne : uri <> [])
  (Hd : hiermap (mstore m) !! map_key (menv_of 0) (with_slash uri) = Some dm)
  (Hlen : Forall (fun f => (length f <= 256)%nat) (keys_of (buffer dm)))
  (Hroot : Forall rooted (children (map_key (menv_of 0) (with_slash uri)) dm))
  (Hfit : Z.of_nat (length (children (map_key (menv_of 0) (with_slash uri)) dm)) * URI_ < 2 ^ 31) :
  let l := children (map_key (menv_of 0) (with_slash uri)) dm in
  get_dir stack e menv_of stat_id uri s
  = Ret (Z.of_nat (length l) + 1, put_str 256 uri :: (put_str 256 <$> l), s).
Proof.
  cbn zeta. set (x := menv_of 0) in *. set (l := children (map_key x (with_slash uri)) dm) in *.
  destruct (getdir_answer (with_mpayload [] x) (stat_id 0) (with_slash uri) dm m Hx Hid Hw Hd Hlen Hroot Hfit)
    as (a & Hans & Ha & Hl). change (map_key (with_mpayload [] x) (with_slash uri)) with (map_key x (with_slash uri)) in Hl.
  fold l in Hl.
  assert (metas s !! Z.to_nat 0 = Some m) as Hm by by rewrite Hone.
  assert (strlen uri < URI_) as Hu.
  { destruct Hw as (_ & _ & Hw). unfold with_slash in Hw. destruct (last_is slash uri); [done|]. rewrite strlen_app in Hw.
    change (strlen [slash]) with 1 in Hw. lia. }
  pose proof (children_Forall _ (map_key x (with_slash uri)) _ Hlen) as Hl256. fold l in Hl256. clearbody l.
  assert (forall acc, get_dir_loop e menv_of stat_id 1 0 1 uri acc s = Ret (Some (acc ++ (put_str 256 <$> l)), s)) as Hloop.
  { intros acc. cbn [get_dir_loop].
    rewrite (exchange_ok e menv_of 0 _ [] s m 0 a m); try done.
    2:{ destruct Hw as (_ & _ & Hw). unfold URI_ in Hw. apply meta_line_short; [done|apply strlen_print_u|lia]. }
    cbn [obind]. rewrite put_meta_same by done. unfold recv_buffer. destruct l as [|f l'].
    - rewrite Hl. by rewrite app_nil_r.
    - rewrite Hl in *. clear Hl. apply Forall_cons in Hroot as Hr. destruct Hr as [[p ->] _].
      set (cs := put_str 256 <$> (IMSS_ROOT ++ p) :: l') in *.
      assert (exists q, concat cs = "i"%char :: q) as [q Hq] by by eexists.
      assert (Forall (fun c => length c = 256%nat) cs) as Hcs.
      { by apply length_slots. }
      assert (strlen (concat cs) = Z.of_nat (length cs) * URI_) as Hsz.
      { unfold strlen, URI_. rewrite (length_concat_slots 256) by done. lia. }
      cbn [reply_bytes]. rewrite Hq at 1. rewrite is_error_other by discriminate. cbn [obind].
      unfold cs in Hsz at 2. rewrite length_fmap in Hsz. rewrite i32_small by (rewrite Hsz; unfold URI_ in *; lia).
      destruct (Z.ltb_spec (strlen (concat cs)) 0); [rewrite Hsz in *; unfold URI_ in *; lia|].
      cbn [Z.leb]. rewrite Hq at 1. cbn [default prefixb]. rewrite Hsz, Z.div_mul, Nat2Z.id by done.
      change (1 <=? 0) with false. cbn [id prefixb MSG_EMPTY_DIRECTORY B].
      pose proof (slots_concat 256 cs Hcs) as Hslots. unfold cs in Hslots at 2. rewrite length_fmap in Hslots.
      change (Z.to_nat URI_) with 256%nat. change (prefixb _ _) with false. cbv iota.
      by rewrite Hslots. }
  unfold get_dir. destruct uri as [|c uri']; [done|]. set (uri := c :: uri') in *.
  destruct (find_first_parent_dir uri) as [off fp]. rewrite Hone. cbn [length].
  assert ((if 0 <? off then let* n := meta_home stack URI_ uri s in Ret (n, 1) else Ret (0, Z.of_nat 1)) = Ret (0, 1))
    as -> by (destruct (0 <? off); [by rewrite Hhome|done]).
  cbn [obind]. change (Z.to_nat 1) with 1%nat. rewrite Hloop. cbn [obind app].
  destruct (Z.ltb_spec URI_ (strlen uri)); [lia|]. by rewrite length_fmap.
Qed.

(** C20. Listing a directory served by the only metadata server gives the
    directory itself, followed by the names of all its entries in order, each
    in a zero-padded slot, and their number plus one; nothing changes. *)
Theorem get_dir_spec (stack : bytes) (e : env) (menv_of : Z -> menv) (stat_id : Z -> Z) (uri : bytes)
  (s : session) (m : mserver) (dm : meta_map)
  (Hone : metas s = [m]) (Hbox : mbox s = []) (Hsend : send_ok e = true) (Hx : m_send_ok (menv_of 0) = true)
  (Hid : 0 <= stat_id 0 < 2 ^ 32) (Hhome : meta_home stack URI_ uri s = Ret 0)
  (Hw : meta_word URI_ (with_slash uri)) (Hne : uri <> [])
  (Hd : hiermap (mstore m) !! map_key (menv_of 0) (with_slash uri) = Some dm)
  (Hlen : Forall (fun f => (length f <= 256)%nat) (keys_of (buffer dm)))
  (Hroot : Forall rooted (children (map_key (menv_of 0) (with_slash uri)) dm))
  (Hfit : Z.of_nat (length (children (map_key (menv_of 0) (with_slash uri)) dm)) * URI_ < 2 ^ 31) :
  let l := children (map_key (menv_of 0) (with_slash uri)) dm in
  get_dir stack e menv_of stat_id uri s
  = Ret (Z.of_nat (length l) + 1, put_str 256 uri :: (put_str 256 <$> l), s) /\
  forall f, f ∈ l <-> is_Some (buffer dm !! f) /\ f <> map_key (menv_of 0) (with_slash uri).
Proof.
  cbn zeta. split; [by apply get_dir_children with m|].
  intros f. unfold children. rewrite elem_of_filter_keys, negb_true_iff, streq_false. tauto.
Qed.

(** A server with a directory [d] and its files. *)
Definition tree_server : mserver := mkMserver sample_tree None idle ∅.
Definition tree_map : meta_map :=
  mkMap {[ B "imss://d/f" := meta_entry (B "imss://d/f") "R"; B "imss://d/s" := meta_entry (B "imss://d/s") "D" ]} [].

Lemma get_dir_spec_witness :
  get_dir [] (big_env 4096) (fun _ => sample_menv) (fun _ => 0) (B "imss://d") (fresh_session tree_server)
  = Ret (3, put_str 256 <$> [B "imss://d"; B "imss://d/f"; B "imss://d/s"], fresh_session tree_server).
Proof.
  assert (children (map_key sample_menv (with_slash (B "imss://d"))) tree_map = [B "imss://d/f"; B "imss://d/s"])
    as Hc by (vm_compute; reflexivity).
  destruct (get_dir_spec [] (big_env 4096) (fun _ => sample_menv) (fun _ => 0) (B "imss://d")
              (fresh_session tree_server) tree_server tree_map) as [H _].
  - reflexivity.
  - reflexivity.
  - reflexivity.
  - reflexivity.
  - lia.
  - vm_compute. reflexivity.
  - split; [discriminate|]. split; [by repeat constructor|reflexivity].
  - discriminate.
  - vm_compute. reflexivity.
  - assert (keys_of (buffer tree_map) = [B "imss://d/f"; B "imss://d/s"]) as -> by (vm_compute; reflexivity).
    repeat constructor; simpl; lia.
  - rewrite Hc. constructor; [by exists (B "d/f")|]. constructor; [by exists (B "d/s")|constructor].
  - rewrite Hc. vm_compute. reflexivity.
  - rewrite Hc in H. exact H.
Defined.

(** With more than one metadata server, a directory below the root that a
    server other than the first is responsible for: the answer is filed in an
    array of one element at the number of that server. *)
Theorem get_dir_writes_past (stack : bytes) (e : env) (menv_of : Z -> menv) (stat_id : Z -> Z) (uri : bytes)
  (s : session) (home r k : Z) (m m' : mserver) (a : reply) (b : bytes)
  (Hbelow : 0 < fst (find_first_parent_dir uri)) (Hbox : mbox s = []) (Hsend : send_ok e = true)
  (Hhome : meta_home stack URI_ uri s = Ret home) (Hhi : 1 <= home) (Hm : metas s !! Z.to_nat home = Some m)
  (Hshort : strlen (with_slash uri) <= 600) (Hne : uri <> [])
  (Hans : stat_worker_helper (with_mpayload [] (menv_of home))
            (meta_line (stat_id home) (B "GET") (print_u GETDIR) (with_slash uri)) m = Ret (r, [a], m'))
  (Hrep : reply_bytes a <> []) (Hrecv : recv_buffer (reply_bytes a) = Ret (k, Some b)) (Hk : 0 <= k) :
  get_dir stack e menv_of stat_id uri s = Undef OutOfBounds.
Proof.
  unfold get_dir. destruct uri as [|c uri']; [done|]. set (uri := c :: uri') in *.
  destruct (find_first_parent_dir uri) as [off fp]. cbn [fst] in Hbelow.
  destruct (Z.ltb_spec 0 off); [|lia]. rewrite Hhome. cbn [obind]. change (Z.to_nat 1) with 1%nat.
  cbn [get_dir_loop]. rewrite (exchange_ok e menv_of home _ [] s m r a m'); try done.
  2:{ apply meta_line_short; [done|apply strlen_print_u|done]. }
  cbn [obind]. rewrite Hrecv. cbn [obind]. destruct (Z.ltb_spec k 0); [lia|].
  by destruct (Z.leb_spec 1 home); [|lia].
Qed.

(** Two metadata servers; the second is responsible for directory [b]. *)
Definition wide_tree : mserver :=
  mkMserver (mkHier {[ B "imss://a/b" := mkMap {[ B "imss://a/b/f" := meta_entry (B "imss://a/b/f") "R" ]} [] ]}
               0 1000000 []) None idle ∅.
Definition wide_session : session :=
  mkSession (mkWorld [] [] ∅ [cluster_imss]) [wide_tree; wide_tree] [] None cluster_imss 0.

Lemma get_dir_writes_past_witness :
  get_dir [] (big_env 4096) (fun _ => sample_menv) (fun _ => 0) (B "imss://a/b") wide_session
  = Undef OutOfBounds.
Proof.
  apply (get_dir_writes_past [] (big_env 4096) (fun _ => sample_menv) (fun _ => 0) (B "imss://a/b") wide_session
           1 0 256 wide_tree wide_tree (Data (put_str 256 (B "imss://a/b/f"))) (put_str 256 (B "imss://a/b/f"))).
  - reflexivity.
  - reflexivity.
  - reflexivity.
  - vm_compute. reflexivity.
  - lia.
  - reflexivity.
  - vm_compute. discriminate.
  - discriminate.
  - vm_compute. reflexivity.
  - discriminate.
  - vm_compute. reflexivity.
  - lia.
Defined.
