(* ===== verification/LocalMap.v ===== *)
(** * The client's map of open files

    src/fuse/map.cpp and src/fuse/hierarchical_map.cpp: for every directory a
    map from names to descriptor and attributes, which [fd_lookup] consults
    before any server is asked.  The buffer with block 0 that an entry also
    points to is scratch memory of the operations and is not part of the
    model. *)

From S2P Require Import Prelude Types Paths Store MetaStore.

(** [struct elements]. *)
Record elements := mkElem { el_fd : Z; el_stat : stat }.

Abbreviation Map := (gmap bytes elements).
Abbreviation HierarchicalMap := (gmap bytes Map).

(** ** [Map] *)

Definition map_put (k : bytes) (v : Z) (st : stat) (m : Map) : Map :=
  match m !! k with Some _ => m | None => <[k := mkElem v st]> m end.

(** The iterator is used without a test. *)
Definition map_update (k : bytes) (st : stat) (m : Map) : outcome Map :=
  match m !! k with
  | Some e => Ret (<[k := mkElem (el_fd e) st]> m)
  | None => Undef OutOfBounds
  end.

Definition map_erase (k : bytes) (m : Map) : Map := delete k m.

Definition map_search (k : bytes) (m : Map) : Z * option elements :=
  match m !! k with Some e => (1, Some e) | None => (-1, None) end.

(** An empty node handle has no key; a node that finds its new key taken is
    dropped. *)
Definition map_rename (old new : bytes) (m : Map) : outcome (Z * Map) :=
  match m !! old with
  | None => Undef NullDeref
  | Some e =>
      let m := delete old m in
      Ret (1, match m !! new with Some _ => m | None => <[new := e]> m end)
  end.

Definition map_rename_dir_dir (old new : bytes) (m : Map) : outcome (Z * Map) :=
  match m !! old with
  | None => Ret (-1, m)
  | Some _ => map_rename old new m
  end.

Definition map_free (m : Map) : Map := ∅.

(** ** [HierarchicalMap] *)

Definition HMapCreate (root : bytes) : HierarchicalMap := {[ root := ∅ ]}.

Definition HMapGetDir (k : bytes) (h : HierarchicalMap) : option Map := h !! k.

Definition HMapGetChild (k : bytes) (h : HierarchicalMap) : outcome (option Map) :=
  let* d := parent_dir k in Ret (h !! d).

Definition HMapPut (k : bytes) (v : Z) (st : stat) (h : HierarchicalMap) : outcome HierarchicalMap :=
  let* d := parent_dir k in
  let h := <[d := map_put k v st (default ∅ (h !! d))]> h in
  Ret (if S_ISDIR (st_mode st)
       then match h !! k with Some _ => h | None => <[k := ∅]> h end
       else h).

Definition HMapSearch (k : bytes) (h : HierarchicalMap) : outcome (Z * option elements) :=
  let* m := HMapGetChild k h in
  Ret (match m with Some m => map_search k m | None => (-1, None) end).

Definition HMapUpdate (k : bytes) (st : stat) (h : HierarchicalMap) : outcome HierarchicalMap :=
  let* d := parent_dir k in
  match h !! d with
  | None => Ret h
  | Some m => let* m := map_update k st m in Ret (<[d := m]> h)
  end.

Definition HMapErase (k : bytes) (h : HierarchicalMap) : outcome HierarchicalMap :=
  let* d := parent_dir k in
  Ret (match h !! d with Some m => <[d := map_erase k m]> h | None => h end).

(** The entry stays in the map of the old parent. *)
Definition HMapRename (old new : bytes) (h : HierarchicalMap) : outcome (Z * HierarchicalMap) :=
  let* d := parent_dir old in
  match h !! d with
  | None => Ret (-1, h)
  | Some m => let* (r, m) := map_rename old new m in Ret (r, <[d := m]> h)
  end.

Definition HMapRenameKey (old new : bytes) (h : HierarchicalMap) : Z * HierarchicalMap :=
  match h !! old with
  | Some m => (1, if streq old new then delete old h else delete old (<[new := m]> h))
  | None => (0, h)
  end.

(** [key.replace(key.find(old), strlen(old), new)]. *)
Definition replace_first (old new key : bytes) : bytes :=
  match find_sub old key with
  | Some i => take i key ++ new ++ drop (i + length old) key
  | None => key
  end.

(** The keys in the order of [std::map]. *)
Definition map_keys (m : Map) : list bytes := foldr insert_key [] (map_to_list m).*1.

Definition renamed_entries (old new : bytes) (m : Map) : Map :=
  fold_left (fun acc k => match m !! k with
                          | Some e => map_put (replace_first old new k) (el_fd e) (el_stat e) acc
                          | None => acc
                          end) (map_keys m) ∅.

(** [HierarchicalMapRenameDirDir]: a renamed copy of the directory's map is
    added, and the directory's own entry goes from its parent.  The result is
    -1 in every case. *)
Definition HMapRenameDirDir (old new : bytes) (h : HierarchicalMap) : outcome (Z * HierarchicalMap) :=
  match HMapGetDir old h with
  | None => Ret (-1, h)
  | Some m =>
      let* h := HMapErase old h in
      Ret (-1, <[new := renamed_entries old new m]> h)
  end.

Definition HMapFree (h : HierarchicalMap) : HierarchicalMap := map_free <$> h.

(** ** The map as one function from names *)

Definition flat (h : HierarchicalMap) (k : bytes) : option elements :=
  match parent_dir k with Ret d => match h !! d with Some m => m !! k | None => None end | _ => None end.

Section flat_map.
Implicit Types (h : HierarchicalMap) (m : Map).

Lemma flat_eq h k d : parent_dir k = Ret d -> flat h k = match h !! d with Some m => m !! k | None => None end.
Proof. intros H. unfold flat. by rewrite H. Qed.

(** The names of one map are updated, another map at most appears empty. *)
Lemma flat_insert h d m k :
  (forall k', parent_dir k' = Ret d -> k' <> k -> m !! k' = default ∅ (h !! d) !! k') ->
  forall k', k' <> k -> flat (<[d := m]> h) k' = flat h k'.
Proof.
  intros Hm k' Hne. unfold flat. destruct (parent_dir k') as [d'| |] eqn:Hd; try done.
  destruct (decide (d' = d)) as [->|Hdd]; [|by rewrite lookup_insert_ne].
  rewrite lookup_insert_eq, Hm by done. by destruct (h !! d).
Qed.

Lemma flat_new_dir h k : h !! k = None -> forall k', flat (<[k := ∅]> h) k' = flat h k'.
Proof.
  intros Hk k'. unfold flat. destruct (parent_dir k') as [d'| |]; try done.
  destruct (decide (d' = k)) as [->|Hdd]; [|by rewrite lookup_insert_ne].
  by rewrite lookup_insert_eq, Hk.
Qed.

Lemma flat_Put h k v st d :
  parent_dir k = Ret d ->
  exists h', HMapPut k v st h = Ret h' /\
    flat h' k = Some (default (mkElem v st) (flat h k)) /\ forall k', k' <> k -> flat h' k' = flat h k'.
Proof.
  intros Hd. unfold HMapPut. rewrite Hd. cbn [obind]. set (m := default ∅ (h !! d)).
  assert (flat (<[d := map_put k v st m]> h) k = Some (default (mkElem v st) (flat h k)) /\
          forall k', k' <> k -> flat (<[d := map_put k v st m]> h) k' = flat h k') as [H1 H2].
  { split.
    - rewrite !(flat_eq _ _ _ Hd), lookup_insert_eq. unfold map_put, m.
      destruct (h !! d) as [m0|]; cbn [default id]; [|rewrite lookup_empty; by rewrite lookup_insert_eq].
      destruct (m0 !! k) eqn:E; [done|]. by rewrite lookup_insert_eq.
    - apply flat_insert. intros k' _ Hne. unfold map_put, m. case_match; [done|]. by rewrite lookup_insert_ne. }
  case_match; [|by eexists]. case_match eqn:Hk; [by eexists|]. eexists. split; [done|].
  split; [by rewrite flat_new_dir|]. intros k' Hne. rewrite flat_new_dir by done. by apply H2.
Qed.

Lemma flat_Search h k d :
  parent_dir k = Ret d -> HMapSearch k h = Ret (if flat h k is Some _ then 1 else -1, flat h k).
Proof.
  intros Hd. unfold HMapSearch, HMapGetChild. rewrite Hd. cbn [obind]. rewrite (flat_eq _ _ _ Hd). unfold map_search.
  destruct (h !! d) as [m|]; [|done]. by destruct (m !! k).
Qed.

Lemma flat_Update h k st d e :
  parent_dir k = Ret d -> flat h k = Some e ->
  exists h', HMapUpdate k st h = Ret h' /\ flat h' k = Some (mkElem (el_fd e) st) /\
    forall k', k' <> k -> flat h' k' = flat h k'.
Proof.
  intros Hd. rewrite (flat_eq _ _ _ Hd). intros He. unfold HMapUpdate. rewrite Hd. cbn [obind].
  destruct (h !! d) as [m|] eqn:Hm; [|done]. unfold map_update. rewrite He. cbn [obind].
  eexists. split; [done|]. split.
  - rewrite (flat_eq _ _ _ Hd), lookup_insert_eq. by rewrite lookup_insert_eq.
  - apply flat_insert. intros k' _ Hne. rewrite Hm. simpl. by rewrite lookup_insert_ne.
Qed.

Lemma flat_Erase h k d :
  parent_dir k = Ret d ->
  exists h', HMapErase k h = Ret h' /\ flat h' k = None /\ forall k', k' <> k -> flat h' k' = flat h k'.
Proof.
  intros Hd. unfold HMapErase. rewrite Hd. cbn [obind]. eexists. split; [done|].
  destruct (h !! d) as [m|] eqn:Hm.
  - split; [rewrite (flat_eq _ _ _ Hd), lookup_insert_eq; unfold map_erase; by rewrite lookup_delete_eq|].
    apply flat_insert. intros k' _ Hne. rewrite Hm. simpl. unfold map_erase. by rewrite lookup_delete_ne.
  - split; [|done]. rewrite (flat_eq _ _ _ Hd), Hm. done.
Qed.

End flat_map.

(** C25. The operations of the map of open files, on the map seen as one function
    from names: a search gives the entry, an insertion keeps an entry that is
    there and otherwise adds the new one, an update replaces the attributes of
    an entry that is there, an erasure removes the entry; no operation changes
    what is found under any other name. *)
Theorem local_map_refines (h : HierarchicalMap) (k d : bytes) (v : Z) (st : stat)
  (Hd : parent_dir k = Ret d) :
  HMapSearch k h = Ret (if flat h k is Some _ then 1 else -1, flat h k) /\
  (exists h', HMapPut k v st h = Ret h' /\ flat h' k = Some (default (mkElem v st) (flat h k)) /\
     forall k', k' <> k -> flat h' k' = flat h k') /\
  (forall e, flat h k = Some e ->
     exists h', HMapUpdate k st h = Ret h' /\ flat h' k = Some (mkElem (el_fd e) st) /\
       forall k', k' <> k -> flat h' k' = flat h k') /\
  (exists h', HMapErase k h = Ret h' /\ flat h' k = None /\ forall k', k' <> k -> flat h' k' = flat h k').
Proof.
  split; [by eapply flat_Search|]. split; [by eapply flat_Put|]. split; [|by eapply flat_Erase].
  intros e He. by eapply flat_Update.
Qed.

Definition sample_local : HierarchicalMap :=
  {[ IMSS_ROOT := {[ B "imss://d" := mkElem 0 (mkStat 0 0 1 16893) ]};
     B "imss://d" := {[ B "imss://d/a" := mkElem 3 (mkStat 7 1 1 33188);
                        B "imss://d/b" := mkElem 4 (mkStat 9 1 1 33188) ]} ]}.

Lemma local_map_refines_witness :
  exists h', HMapPut (B "imss://d/c") 5 (mkStat 1 1 1 33188) sample_local = Ret h' /\
    flat h' (B "imss://d/c") = Some (mkElem 5 (mkStat 1 1 1 33188)) /\
    flat h' (B "imss://d/a") = Some (mkElem 3 (mkStat 7 1 1 33188)).
Proof.
  destruct (local_map_refines sample_local (B "imss://d/c") (B "imss://d") 5 (mkStat 1 1 1 33188))
    as (_ & (h' & H1 & H2 & H3) & _); [reflexivity|].
  exists h'. split; [exact H1|]. split; [exact H2|]. rewrite H3 by discriminate. reflexivity.
Defined.

(** Renaming a file into another directory keeps its entry in the map of the
    old directory, where no search for the new name looks: the file is not
    found locally under either name. *)
Theorem local_rename_misplaces (h : HierarchicalMap) (old new d d' : bytes) (e : elements)
  (Hd : parent_dir old = Ret d) (Hd' : parent_dir new = Ret d') (Hne : d <> d')
  (He : flat h old = Some e) (Hn : flat h new = None) :
  exists h', HMapRename old new h = Ret (1, h') /\ flat h' old = None /\ flat h' new = None.
Proof.
  rewrite (flat_eq _ _ _ Hd) in He. rewrite (flat_eq _ _ _ Hd') in Hn.
  unfold HMapRename. rewrite Hd. cbn [obind]. destruct (h !! d) as [m|] eqn:Hm; [|done].
  unfold map_rename. rewrite He. cbn [obind]. eexists. split; [done|].
  assert (old <> new) as Hon by congruence. split.
  - rewrite (flat_eq _ _ _ Hd), lookup_insert_eq.
    destruct (delete old m !! new); [by rewrite lookup_delete_eq|]. by rewrite lookup_insert_ne, lookup_delete_eq.
  - rewrite (flat_eq _ _ _ Hd'). by rewrite lookup_insert_ne.
Qed.

Lemma local_rename_misplaces_witness :
  exists h', HMapRename (B "imss://d/a") (B "imss://e/a") sample_local = Ret (1, h') /\
    flat h' (B "imss://d/a") = None /\ flat h' (B "imss://e/a") = None.
Proof.
  apply (local_rename_misplaces sample_local (B "imss://d/a") (B "imss://e/a") (B "imss://d") (B "imss://e")
           (mkElem 3 (mkStat 7 1 1 33188))); [reflexivity|reflexivity|discriminate|reflexivity|reflexivity].
Defined.

Lemma replace_first_prefix (old new x : bytes) : replace_first old new (old ++ x) = new ++ x.
Proof. unfold replace_first. rewrite find_sub_prefix. simpl. by rewrite drop_app_length. Qed.

Lemma renamed_fold (old new x : bytes) (m acc : Map) (ks : list bytes) :
  (forall k, k ∈ ks -> exists y, k = old ++ y) ->
  fold_left (fun acc k => match m !! k with
                          | Some e => map_put (replace_first old new k) (el_fd e) (el_stat e) acc
                          | None => acc
                          end) ks acc !! (new ++ x)
  = match acc !! (new ++ x) with
    | Some e => Some e
    | None => if decide (old ++ x ∈ ks) then m !! (old ++ x) else None
    end.
Proof.
  revert acc. induction ks as [|k ks IH]; intros acc Hks; cbn [fold_left].
  { rewrite decide_False by apply not_elem_of_nil. by destruct (acc !! (new ++ x)). }
  rewrite IH by (intros k' ?; apply Hks; set_solver). destruct (Hks k) as [y ->]; [set_solver|].
  assert (x <> y -> (if decide (old ++ x ∈ (old ++ y) :: ks) then m !! (old ++ x) else None)
            = if decide (old ++ x ∈ ks) then m !! (old ++ x) else None) as Hdec.
  { intros Hxy. apply decide_ext. rewrite elem_of_cons. split; [intros [?%app_inv_head|?]; done|by right]. }
  rewrite replace_first_prefix. destruct (m !! (old ++ y)) as [e|] eqn:Hy.
  - unfold map_put. destruct (decide (x = y)) as [->|Hxy].
    + rewrite (decide_True (P := old ++ y ∈ (old ++ y) :: ks)) by set_solver.
      destruct (acc !! (new ++ y)) as [e'|] eqn:Ha; [by rewrite Ha|]. rewrite lookup_insert_eq, Hy. by destruct e.
    + rewrite Hdec by done. destruct (acc !! (new ++ y)); [done|]. by rewrite lookup_insert_ne by (intros ?%app_inv_head; done).
  - destruct (decide (x = y)) as [->|Hxy].
    + rewrite Hy. by destruct (decide _), (decide _).
    + by rewrite Hdec.
Qed.

Lemma elem_of_map_keys (k : bytes) (m : Map) : k ∈ map_keys m <-> is_Some (m !! k).
Proof.
  unfold map_keys. rewrite sort_keys_perm, list_elem_of_fmap. split.
  - intros [[k' v] [-> Hv%elem_of_map_to_list]]. by exists v.
  - intros [v Hv]. exists (k, v). split; [done|]. by apply elem_of_map_to_list.
Qed.

(** Renaming a directory gives every file in it its new name, and leaves it
    under the old one as well: the attributes of a name that no longer exists
    are still found locally. *)
Theorem local_rename_dir_keeps_old (h : HierarchicalMap) (old new d c : bytes) (m : Map) (e : elements)
  (Hd : parent_dir old = Ret d) (Ho : rooted old) (Hn : rooted new) (Hc : (slash ∉ c) /\ c <> [])
  (Hm : h !! old = Some m) (Hkeys : forall k, is_Some (m !! k) -> exists y, k = old ++ y)
  (Hne : old <> new) (Hdo : d <> old) (He : m !! (old ++ slash :: c) = Some e) :
  exists h', HMapRenameDirDir old new h = Ret (-1, h') /\
    flat h' (new ++ slash :: c) = Some e /\ flat h' (old ++ slash :: c) = Some e.
Proof.
  destruct Hc as [Hc1 Hc2]. unfold HMapRenameDirDir, HMapGetDir. rewrite Hm. unfold HMapErase. rewrite Hd. cbn [obind].
  eexists. split; [done|]. split.
  - rewrite (flat_eq _ _ new) by by apply parent_dir_child. rewrite lookup_insert_eq. unfold renamed_entries.
    rewrite renamed_fold by (intros k Hk; by apply Hkeys, elem_of_map_keys).
    rewrite lookup_empty, decide_True; [done|]. apply elem_of_map_keys. by eexists.
  - rewrite (flat_eq _ _ old) by by apply parent_dir_child. rewrite lookup_insert_ne by done.
    destruct (h !! d); [rewrite lookup_insert_ne by done|]; by rewrite Hm.
Qed.

Lemma local_rename_dir_keeps_old_witness :
  exists h', HMapRenameDirDir (B "imss://d") (B "imss://e") sample_local = Ret (-1, h') /\
    flat h' (B "imss://e/a") = Some (mkElem 3 (mkStat 7 1 1 33188)) /\
    flat h' (B "imss://d/a") = Some (mkElem 3 (mkStat 7 1 1 33188)).
Proof.
  apply (local_rename_dir_keeps_old sample_local (B "imss://d") (B "imss://e") IMSS_ROOT (B "a")
    {[ B "imss://d/a" := mkElem 3 (mkStat 7 1 1 33188); B "imss://d/b" := mkElem 4 (mkStat 9 1 1 33188) ]}).
  - reflexivity.
  - by exists (B "d").
  - by exists (B "e").
  - split; [apply strchr_None; reflexivity|discriminate].
  - reflexivity.
  - intros k [v Hv]. apply lookup_insert_Some in Hv as [[<- _]|[_ Hv]]; [by exists (B "/a")|].
    apply lookup_singleton_Some in Hv as [<- _]. by exists (B "/b").
  - discriminate.
  - discriminate.
  - reflexivity.
Defined.
