(* ===== verification/Files.v ===== *)
(** * Files: creation, opening, attributes, removal, renaming

    The file operations of src/fuse/imss_posix_api.c on top of the datasets of
    Datasets.v (metadata servers), the blocks of Client.v (data servers) and
    the map of open files of LocalMap.v.  Block 0 of a file holds its
    [struct stat], byte by byte. *)

From S2P Require Import Prelude Types Paths Intervals Store DataServer Sessions Client Comms MetaStore Elasticity MetaServer Datasets LocalMap.

Definition EPERM : Z := 1.
Definition EACCES : Z := 13.
Definition ENOENT : Z := 2.
Definition S_IFREG : Z := 32768.
Definition S_IFDIR : Z := 16384.

(** ** [struct stat] in memory (x86-64) *)

Definition stat_widths : list nat := [8; 8; 8; 4; 4; 4; 4; 8; 8; 8; 8; 8; 8; 8; 8; 8; 8; 24]%nat.
Definition stat_chunks (st : stat) : list bytes :=
  [le_put 8 (st_dev st); le_put 8 (st_ino st); le_put 8 (st_nlink st); le_put 4 (st_mode st);
   le_put 4 (st_uid st); le_put 4 (st_gid st); put_str 4 []; le_put 8 (st_rdev st); le_put 8 (st_size st);
   le_put 8 (st_blksize st); le_put 8 (st_blocks st); le_put 8 (fst (st_atim st)); le_put 8 (snd (st_atim st));
   le_put 8 (fst (st_mtim st)); le_put 8 (snd (st_mtim st)); le_put 8 (fst (st_ctim st));
   le_put 8 (snd (st_ctim st)); put_str 24 []].
Definition stat_bytes (st : stat) : bytes := concat (stat_chunks st).

(** [memcpy(&stats, data, sizeof(struct stat))]. *)
Definition parse_stat (b : bytes) : outcome stat :=
  let* b := read_at b 0 sizeof_stat in
  match chunks stat_widths b with
  | [dv; io; nl; mo; ui; gi; _; rd; sz; bs; bl; a1; a2; m1; m2; c1; c2; _] =>
      Ret (mkAttr (le_get dv) (le_get io) (le_get nl) (le_get mo) (le_get ui) (le_get gi) (le_get rd)
             (get_i64 sz) (get_i64 bs) (get_i64 bl) (get_i64 a1, get_i64 a2) (get_i64 m1, get_i64 m2)
             (get_i64 c1, get_i64 c2))
  | _ => Undef OutOfBounds
  end.

(** ** State *)

Record fsys := mkFS { sess : session; lmap : HierarchicalMap; error_print : Z }.

Definition set_sess (s : session) (f : fsys) : fsys := mkFS s (lmap f) (error_print f).
Definition set_lmap (h : HierarchicalMap) (f : fsys) : fsys := mkFS (sess f) h (error_print f).
Definition set_error (x : Z) (f : fsys) : fsys := mkFS (sess f) (lmap f) x.
Definition set_blocks (w : world) (f : fsys) : fsys := set_sess (set_wld w (sess f)) f.

(** The settings the creation of a file uses. *)
Record config := mkConfig {
  POLICY : bytes;
  N_BLKS : Z;
  IMSS_BLKSIZE : Z;
  REPL_FACTOR : Z;
  REPL_TYPE : Z;
  N_SERVERS : Z;
  IMSS_DATA_BSIZE : Z;
  uid : Z;
  gid : Z
}.

Section files.
Context (stack : bytes) (e : env) (fresh_shm : gmap Z bytes -> Z) (MALLEABILITY_ON : bool)
  (matching_server_id : Z) (menv_of : Z -> menv) (stat_id : Z -> Z) (imssd_pos : Z)
  (table_order : Sessions.table -> list bytes) (cfg : config) (dceil : Z -> Z -> Z).
(** The memory [malloc] gives for block 0, the measurements of the process
    and the clock. *)
Context (scratch : bytes) (perf : list (bytes * IOServerMetrics)) (now : Z * Z).

Definition put_block0 (path : bytes) (st : stat) (f : fsys) : outcome (Z * fsys) :=
  let* (r, w) := set_data stack e fresh_shm MALLEABILITY_ON matching_server_id path 0 (stat_bytes st) 0 0 false
                   (wld (sess f)) in
  Ret (r, set_blocks w f).

(** [get_ndata] of block 0 into a buffer. *)
Definition get_block0 (path buf : bytes) (f : fsys) : outcome (Z * bytes * fsys) :=
  let* (r, buf, w) := get_ndata stack e fresh_shm matching_server_id path 0 buf 0 0 (wld (sess f)) in
  Ret (r, buf, set_blocks w f).

(** [fd_lookup]: -1, or the descriptor and the attributes. *)
Definition find_fd (path : bytes) (f : fsys) : outcome (Z * option stat) :=
  let* (_, x) := HMapSearch path (lmap f) in
  Ret (match x with Some x => (el_fd x, Some (el_stat x)) | None => (-1, None) end).

Definition open_ds (path : bytes) (opened : Z) (f : fsys) : outcome (Z * bytes * fsys) :=
  let* (r, path, s) := open_dataset stack e matching_server_id menv_of imssd_pos path opened (sess f) in
  Ret (r, path, set_sess s f).

Definition remember (path : bytes) (fd : Z) (st : stat) (f : fsys) : outcome fsys :=
  let* h := HMapPut path fd st (lmap f) in Ret (set_lmap h f).
Definition forget (path : bytes) (f : fsys) : outcome fsys :=
  let* h := HMapErase path (lmap f) in Ret (set_lmap h f).

(** ** Attributes *)

Definition imss_refresh (path : bytes) (f : fsys) : outcome (Z * fsys) :=
  let* (fd, old) := find_fd path f in
  if fd <? 0 then Ret (- ENOENT, f)
  else
    let* (r, b, f) := get_block0 path scratch f in
    if r <? 0 then Ret (-1, f)
    else
      let* st := parse_stat b in
      let* h := HMapUpdate path st (lmap f) in
      Ret (0, set_lmap h f).

(** What [imss_getattr] shows of the attributes it found. *)
Definition shown (st : stat) : stat :=
  if S_ISDIR (st_mode st) then set_link_mode 1 (Z.lor S_IFDIR 509) (set_size 4 (st_blocks st) st)
  else set_size (st_size st) (dceil (st_size st) 512) st.

(** [imss_getattr] of a name that is not in the map of open files. *)
Definition fetch_attr (path : bytes) (f : fsys) : outcome (Z * stat * fsys) :=
  let zero := mkStat 0 0 0 0 in
  let* (ds, path, f) := open_ds path 0 f in
  if 0 <=? ds
  then
    let* (r, b, f) := get_block0 path scratch f in
    if r <? 0 then Ret (- ENOENT, zero, f)
    else
      let* st := parse_stat b in
      let* f := remember path ds st f in
      Ret (0, shown st, f)
  else Ret (- ENOENT, zero, f).

Definition getattr (path : bytes) (f : fsys) : outcome (Z * stat * fsys) :=
  if streq path IMSS_ROOT then Ret (0, mkStat 4 0 1 (Z.lor S_IFDIR 509), f)
  else
    let* (fd, st) := find_fd path f in
    match st with
    | Some st => if fd <? 0 then fetch_attr path f else Ret (0, shown st, f)
    | None => fetch_attr path f
    end.

(** ** Opening, creating, closing *)

(** [imss_open]: result, handle, the caller's name and the state. *)
Definition imss_open (path : bytes) (f : fsys) : outcome (Z * Z * bytes * fsys) :=
  let* (fd, st) := find_fd path f in
  if 0 <=? fd
  then
    let* (_, s) := open_local_dataset stack e menv_of path 1 (sess f) in
    Ret (0, fd, path, set_sess s f)
  else if fd =? -2 then Ret (-1, 0, path, f)
  else
    let* (file_desc, path, f) := open_ds path 1 f in
    if file_desc =? -2 then Ret (-2, u64 (-2), path, f)
    else if file_desc =? -1 then Ret (- ENOENT, 0, path, f)
    else
      let* (r, b, f) := get_block0 path scratch f in
      if r <? 0 then Ret (- ENOENT, 0, path, f)
      else
        let* st := parse_stat b in
        let* f := remember path file_desc st f in
        Ret (0, file_desc, path, f).

(** The attributes of a new file. *)
Definition new_stat (mode ino : Z) : stat :=
  mkAttr 0 ino 1 (if S_ISDIR mode then mode else Z.lor mode S_IFREG) (uid cfg) (gid cfg) 0 0 (IMSS_DATA_BSIZE cfg)
    0 (fst now, 0) (fst now, 0) (fst now, 0).

Definition imss_create (path : bytes) (mode opened : Z) (file_type : ascii) (f : fsys)
  : outcome (Z * Z * fsys) :=
  let* (res, s) := create_dataset stack e matching_server_id menv_of path (POLICY cfg) (N_BLKS cfg)
                     (IMSS_BLKSIZE cfg) (REPL_FACTOR cfg) (REPL_TYPE cfg) (N_SERVERS cfg) None opened file_type
                     (sess f) in
  let f := set_sess s f in
  if res <? 0 then Ret (res, 0, f)
  else
    let st := new_stat mode res in
    let* (r, f) := put_block0 path st f in
    if r <? 0 then Ret (r, res, f)
    else
      let* f := forget path f in
      let* f := remember path res st f in
      Ret (0, res, f).

Definition imss_mkdir (path : bytes) (mode : Z) (f : fsys) : outcome (Z * fsys) :=
  let* (r, _, f) := imss_create path (Z.lor mode S_IFDIR) 2 TYPE_DIRECTORY f in Ret (r, f).

(** [imss_release]: block 0 is written back with the time of the call. *)
Definition imss_release (path : bytes) (f : fsys) : outcome (Z * fsys) :=
  let* (fd, st) := find_fd path f in
  match st with
  | None => Ret (- ENOENT, f)
  | Some st =>
      if fd <? 0 then Ret (- ENOENT, f)
      else
        let* (r, f) := put_block0 path (set_times now now st) f in
        Ret (if r <? 0 then r else fd, f)
  end.

(** [clear_dataset]: the current dataset loses its intervals; the table it is
    removed from, [datasetd], is not the one datasets are registered in. *)
Definition clear_dataset (f : fsys) : outcome fsys :=
  match curr_dataset (sess f) with
  | None => Undef NullDeref
  | Some k =>
      let* (_, d) := find_dataset_by_uri_hash_pool k (known (sess f)) in
      match d with
      | None => Undef UseAfterFree
      | Some d =>
          let* w := update_dataset_entry k (ClearIntervalsStructure d) (wld (sess f)) in
          Ret (set_blocks w f)
      end
  end.

(** [get_data_location] makes the dataset it finds the current one. *)
Definition make_current (path : bytes) (s : session) : outcome session :=
  let* (_, d) := find_dataset_by_uri_hash_pool path (known s) in
  Ret (if d is Some _ then set_curr path s else s).

Definition imss_close (path : bytes) (f : fsys) : outcome (Z * fsys) :=
  let* (_, f) := imss_release path f in
  let* (r, s) := close_dataset stack e MALLEABILITY_ON menv_of stat_id path perf (sess f) in
  let* s := make_current path s in
  let f := set_sess s f in
  if r =? 0
  then let* f := clear_dataset f in let* f := forget path f in Ret (r, f)
  else let* (_, f) := imss_refresh path f in Ret (r, f).

(** ** Removing *)

(** [imss_unlink]: 1 while the file is in use, 3 when it is gone, -1 on
    error.  The descriptor passed on is 0. *)
Definition imss_unlink (path : bytes) (f : fsys) : outcome (Z * fsys) :=
  let* (ret, s) := delete_dataset stack e menv_of path false (sess f) in
  let f := set_sess s f in
  let* (ret, f) := (if ret =? 0
                    then let* (r, w) := unlink_dataset stack e path 0 (wld (sess f)) in Ret (r, set_blocks w f)
                    else Ret (ret, f)) in
  if ret =? 1 then Ret (1, f)
  else if ret =? 0
  then
    let* f := forget path f in
    let* (_, s) := release_dataset path (sess f) in
    Ret (3, set_sess s f)
  else Ret (-1, f).

Definition imss_readdir (path : bytes) (f : fsys) : outcome (Z * list bytes * fsys) :=
  let* (n, items, s) := get_dir stack e menv_of stat_id path (sess f) in Ret (n, items, set_sess s f).

(** [imss_rmdir]: the count includes the directory itself. *)
Definition imss_rmdir (path : bytes) (f : fsys) : outcome (Z * fsys) :=
  let* (n, _, f) := imss_readdir path f in
  let n_ent := i32 n in
  if n_ent <=? 0 then Ret (- ENOENT, f)
  else if 1 <? n_ent then Ret (- EPERM, f)
  else let* (_, f) := imss_unlink path f in Ret (0, f).

(** ** Changing attributes *)

(** The common part of [imss_chmod] and [imss_chown]: the name [rpath] is
    looked up and opened, the blocks are those of [path].  Without an entry in
    the map of open files there is no buffer for block 0. *)
Definition change_attr (change : stat -> stat) (rpath path : bytes) (f : fsys) : outcome (Z * fsys) :=
  let* (fd, st) := find_fd rpath f in
  if 0 <=? fd
  then
    let* (_, b, f) := get_block0 path scratch f in
    let* st := parse_stat b in
    put_block0 path (change st) f
  else if fd =? -2 then Ret (- ENOENT, f)
  else
    let* (_, _, f) := open_ds rpath 0 f in
    Undef NullDeref.

Definition imss_chmod (path : bytes) (mode : Z) (f : fsys) : outcome (Z * fsys) :=
  change_attr (fun st => set_link_mode (st_nlink st) (Z.lor mode (Z.land (st_mode st) 268431360)) st)
    (get_iuri path) path f.

Definition imss_chown (path : bytes) (u g : Z) (f : fsys) : outcome (Z * fsys) :=
  change_attr (fun st => set_owner u (if g =? u32 (-1) then st_gid st else g) st) path path f.

(** [imss_utimens] looks up the empty name. *)
Definition imss_utimens (path : bytes) (f : fsys) : outcome (Z * fsys) :=
  change_attr (fun st => set_times (fst now, snd (st_mtim st)) (st_ctim st) st) [] path f.

(** [imss_flush]: a pending error is reported once; otherwise the attributes
    of the map are written back.  At the end the caller's name is freed. *)
Definition imss_flush (path : bytes) (f : fsys) : outcome (Z * fsys) :=
  if negb (error_print f =? 0) then Ret (error_print f, set_error 0 f)
  else
    let* (fd, st) := find_fd path f in
    match st with
    | Some st =>
        if fd <? 0 then Undef Uninitialised
        else
          let* (r, f) := put_block0 path (set_times (fst now, snd (st_mtim st)) (st_ctim st) st) f in
          if r <? 0 then Ret (r, set_error r f) else Ret (0, f)
    | None => Undef Uninitialised
    end.

(** [imss_symlinkat]: the second name becomes a link to the first.  In case 0
    the target is looked up first. *)
Definition imss_symlinkat (target name : bytes) (case_ : Z) (f : fsys) : outcome (Z * fsys) :=
  let make f :=
    let* (res, s) := create_dataset stack e matching_server_id menv_of (get_iuri name) (POLICY cfg) (N_BLKS cfg)
                       (IMSS_BLKSIZE cfg) (REPL_FACTOR cfg) (REPL_TYPE cfg) (N_SERVERS cfg) (Some target) 3
                       TYPE_REGULAR_FILE (sess f) in
    Ret (res, set_sess s f) in
  let* (stop, f) :=
    (if case_ =? 0
     then
       let* (fd, st) := find_fd target f in
       if 0 <=? fd then let* (res, f) := make f in Ret (if res <? 0 then Some res else None, f)
       else if fd =? -2 then Ret (Some (-1), f)
       else
         let* (ds, target, f) := open_ds target 0 f in
         if ds <? 0 then Ret (Some (-1), f)
         else
           let* (_, b, f) := get_block0 target scratch f in
           let* st := parse_stat b in
           let* f := remember target ds st f in
           let* (res, f) := make f in
           Ret (if res <? 0 then Some res else None, f)
     else if case_ =? 1 then let* (res, f) := make f in Ret (if res <? 0 then Some res else None, f)
     else Ret (None, f)) in
  match stop with
  | Some r => Ret (r, f)
  | None => let* f := forget (get_iuri name) f in Ret (0, f)
  end.

(** ** Renaming *)

(** Whether a name exists, with its attributes: the map of open files is
    asked first. *)
Definition exists_ (path : bytes) (f : fsys) : outcome (option stat * fsys) :=
  let* (fd, st) := find_fd path f in
  match st with
  | Some st => if fd <? 0 then let* (r, st, f) := getattr path f in Ret (if r <? 0 then None else Some st, f)
               else Ret (Some st, f)
  | None => let* (r, st, f) := getattr path f in Ret (if r <? 0 then None else Some st, f)
  end.

(** The directory of the new name, unless the old name starts with it:
    -ENOENT also when the directory is found in the map of open files. *)
Definition check_destination (old new : bytes) (f : fsys) : outcome (bool * fsys) :=
  let* (offset, parent) := find_last_parent_dir new in
  if URI_ <=? strlen parent then Undef OutOfBounds
  else if negb (prefixb parent old) && (0 <? offset)
  then
    let* (fd, _) := find_fd parent f in
    if 0 <=? fd then Ret (false, f)
    else let* (r, _, f) := getattr parent f in Ret (r =? 0, f)
  else Ret (true, f).

(** A regular file takes the name [dest]. *)
Definition move_file (old dest : bytes) (f : fsys) : outcome (Z * fsys) :=
  let* (_, f) := imss_unlink dest f in
  let* (ret, s) := rename_dataset_metadata stack e menv_of stat_id old dest (sess f) in
  let f := set_sess s f in
  if ret <? 0 then Ret (ret, f)
  else
    let* (_, w) := rename_dataset_srv_worker stack e old dest 0 (wld (sess f)) in
    let f := set_blocks w f in
    let* (_, h) := HMapRename old dest (lmap f) in
    Ret (0, set_lmap h f).

Definition move_dir (old new : bytes) (f : fsys) : outcome (Z * fsys) :=
  let* (_, s) := rename_dataset_metadata_dir_dir stack e menv_of stat_id table_order old new (sess f) in
  let f := set_sess s f in
  let* (_, w) := rename_dataset_srv_worker_dir_dir stack e old new 0 (wld (sess f)) in
  let f := set_blocks w f in
  let* (_, h) := HMapRenameDirDir old new (lmap f) in
  Ret (0, set_lmap h f).

Definition imss_rename (old new : bytes) (f : fsys) : outcome (Z * fsys) :=
  if streq old new then Ret (- EPERM, f)
  else
    let* (old_st, f) := exists_ old f in
    match old_st with
    | None => Ret (- ENOENT, f)
    | Some old_st =>
        let old_is_dir := S_ISDIR (st_mode old_st) in
        let* (ok, f) := check_destination old new f in
        if negb ok then Ret (- ENOENT, f)
        else
          let* (new_st, f) := exists_ new f in
          let new_is_dir := match new_st with None => old_is_dir | Some st => S_ISDIR (st_mode st) end in
          if old_is_dir
          then if new_is_dir then move_dir old new f else Ret (- EPERM, f)
          else if new_is_dir
          then let dest := snd (ConcatLastSlashC new) ++ get_basename old in
               if streq old dest then Ret (- EPERM, f) else move_file old dest f
          else move_file old new f
    end.

End files.
