(* ===== verification/FileLife.v ===== *)
(** * Life of a file

    What the operations of Files.v do together: the attributes of a file
    survive their trip through block 0, a created file is found, directories
    with entries are not removed, and where renames, closes and attribute
    changes do not do what their callers expect. *)

From S2P Require Import Prelude Types Policies Paths Intervals Store DataServer Wire Sessions Client Comms MetaStore Elasticity MetaServer Datasets Lifecycle MetaClient LocalMap Files.

(** ** Block 0 *)

(** The fields are in the ranges of their C types. *)
Record stat_fits (st : stat) : Prop := {
  sfits_u64 : Forall (fun z => 0 <= z < 2 ^ 64) [st_dev st; st_ino st; st_nlink st; st_rdev st];
  sfits_u32 : Forall (fun z => 0 <= z < 2 ^ 32) [st_mode st; st_uid st; st_gid st];
  sfits_i64 : Forall (fun z => - 2 ^ 63 <= z < 2 ^ 63)
    [st_size st; st_blksize st; st_blocks st; fst (st_atim st); snd (st_atim st); fst (st_mtim st);
     snd (st_mtim st); fst (st_ctim st); snd (st_ctim st)]
}.

Lemma stat_chunks_widths st : Forall2 (fun w c => length c = w) stat_widths (stat_chunks st).
Proof. unfold stat_widths, stat_chunks. repeat (apply Forall2_cons; split; [apply length_le_put || done|]). done. Qed.

Lemma strlen_stat st : strlen (stat_bytes st) = sizeof_stat.
Proof. unfold strlen, stat_bytes. by rewrite (length_concat_chunks _ _ (stat_chunks_widths st)). Qed.

Lemma parse_stat_bytes (st : stat) (rest : bytes) : stat_fits st -> parse_stat (stat_bytes st ++ rest) = Ret st.
Proof.
  intros [H1 H2 H3]. rewrite !Forall_cons in H1. rewrite !Forall_cons in H2. rewrite !Forall_cons in H3.
  destruct_and! H1. destruct_and! H2. destruct_and! H3.
  unfold parse_stat. rewrite read_at_prefix by by rewrite strlen_stat. cbn [obind].
  rewrite <- (app_nil_r (stat_bytes st)). unfold stat_bytes.
  rewrite chunks_concat by apply stat_chunks_widths. unfold stat_chunks.
  rewrite !le_get_put_small by (simpl; lia). rewrite !get_i64_put by done. by destruct st as [??????????[][][]].
Qed.

(** The attributes of a file written to block 0 are read back field by field,
    whatever follows them in the buffer. *)
Theorem stat_roundtrip (st : stat) (rest : bytes) (Hf : stat_fits st) :
  strlen (stat_bytes st) = sizeof_stat /\ parse_stat (stat_bytes st ++ rest) = Ret st.
Proof. split; [apply strlen_stat | by apply parse_stat_bytes]. Qed.

Definition sample_attr : stat :=
  mkAttr 0 12 1 33188 1000 100 0 5000000000 4096 2 (1700000000, 5) (1700000001, -7) (0, 0).

Lemma stat_roundtrip_witness :
  strlen (stat_bytes sample_attr) = sizeof_stat /\ parse_stat (stat_bytes sample_attr ++ [NUL]) = Ret sample_attr.
Proof.
  apply (stat_roundtrip sample_attr [NUL]).
  split; repeat (apply Forall_cons_2; [simpl; lia|]); apply Forall_nil_2.
Defined.

(** ** Operations *)

Section life.
Context (stack : bytes) (e : env) (fresh_shm : gmap Z bytes -> Z) (MALL : bool)
  (matching : Z) (menv_of : Z -> menv) (stat_id : Z -> Z) (pos : Z)
  (order : Sessions.table -> list bytes) (cfg : config) (dceil : Z -> Z -> Z)
  (scratch : bytes) (perf : list (bytes * IOServerMetrics)) (now : Z * Z).

(** What [find_fd] sees is the map of open files. *)
Lemma find_fd_flat path f d :
  parent_dir path = Ret d ->
  find_fd path f = Ret (match flat (lmap f) path with Some x => (el_fd x, Some (el_stat x)) | None => (-1, None) end).
Proof. intros Hd. unfold find_fd. rewrite (flat_Search _ _ _ Hd). done. Qed.

(** Creating a file leaves it in the map of open files with the handle it was
    given and the attributes that were written to block 0, replacing what the
    map had for the name, and leaves every other name as it was. *)
Lemma created_entry path mode opened ty f res f' d :
  parent_dir path = Ret d ->
  imss_create stack e fresh_shm MALL matching menv_of cfg now path mode opened ty f = Ret (0, res, f') ->
  flat (lmap f') path = Some (mkElem res (new_stat cfg now mode res)) /\
  forall k, k <> path -> flat (lmap f') k = flat (lmap f) k.
Proof.
  intros Hd. unfold imss_create. destruct (create_dataset _ _ _ _ _ _ _ _ _ _ _ _ _ _ _) as [[r s]| |]; try done.
  cbn [obind]. case_match; [intros [= -> _ _]; done|].
  destruct (put_block0 _ _ _ _ _ _ _ _) as [[r2 f2]| |] eqn:Hp; try done. cbn [obind].
  assert (lmap f2 = lmap f) as Hl.
  { revert Hp. unfold put_block0. destruct (set_data _ _ _ _ _ _ _ _ _ _ _ _) as [[r3 w]| |]; try done. cbn [obind].
    by intros [= _ <-]. }
  case_match; [intros [= -> _ _]; done|]. unfold forget, remember.
  destruct (flat_Erase (lmap f2) path d Hd) as (h1 & -> & E1 & E2). cbn [obind lmap set_lmap].
  destruct (flat_Put h1 path r (new_stat cfg now mode r) d Hd) as (h2 & -> & P1 & P2). cbn [obind].
  intros [= <- <-]. cbn [lmap set_lmap]. split; [by rewrite P1, E1|]. intros k Hk. rewrite P2, E2, Hl by done. done.
Qed.

(** *** Which datasets the session knows *)

Definition knows (uri : bytes) (p : pool) : Prop := exists d, find_dataset_by_uri_hash_pool uri p = Ret (1, Some d).
Definition keeps_known (w w' : world) : Prop := forall uri, knows uri (datasets w) -> knows uri (datasets w').

Lemma keeps_known_same w w' : datasets w' = datasets w -> keeps_known w w'.
Proof. intros E uri. by rewrite E. Qed.
Lemma keeps_known_trans w1 w2 w3 : keeps_known w1 w2 -> keeps_known w2 w3 -> keeps_known w1 w3.
Proof. intros H1 H2 uri Hk. by apply H2, H1. Qed.

Lemma update_keeps k d w w' : update_dataset_entry k d w = Ret w' -> keeps_known w w'.
Proof.
  unfold update_dataset_entry. destruct (parent_dir k) as [p| |] eqn:Hp; try done. cbn [obind]. intros [= <-].
  intros uri [d0 Hf]. destruct (datasets w !! p) as [t|] eqn:Ht; [|by exists d0].
  revert Hf. unfold knows, find_dataset_by_uri_hash_pool. cbn [set_datasets datasets].
  destruct (parent_dir uri) as [q| |]; try done. cbn [obind]. destruct (decide (q = p)) as [->|Hqp].
  - rewrite lookup_insert_eq, Ht. destruct (decide (uri = k)) as [->|Hk]; [rewrite lookup_insert_eq; eauto|].
    rewrite lookup_insert_ne by done. intros Hf. by exists d0.
  - rewrite lookup_insert_ne by done. intros Hf. by exists d0.
Qed.

Lemma location_keeps uri id op w n c w' : get_data_location stack uri id op w = Ret (n, c, w') -> keeps_known w w'.
Proof.
  unfold get_data_location. destruct (find_dataset_by_uri_hash_pool _ _) as [[r found]| |]; try done. cbn [obind].
  destruct found as [di|]; [|intros [= _ _ <-]; by apply keeps_known_same].
  case_match; [intros [= _ _ <-]; by apply keeps_known_same|]. case_match; [done|].
  destruct (imssd w !! _) as [im|]; [|done]. destruct (set_policy_dataset di) as [[x d1] p].
  destruct (update_dataset_entry uri d1 w) as [w1| |] eqn:Hu; try done. cbn [obind].
  intros Hret. assert (w' = w1) as ->.
  { revert Hret. case_match; [by intros [= _ _ <-]|].
    destruct (GetValueFromInterval d1 id) as [v| |]; try done. cbn [obind].
    destruct (find_server _ _ _ _ _ _ _); try done. cbn [obind]. by intros [= _ _ <-]. }
  by eapply update_keeps.
Qed.

Lemma deliver_keeps n req msg w w' : deliver e n req msg w = Ret w' -> datasets w' = datasets w.
Proof.
  unfold deliver. case_match; [done|]. destruct (servers w !! _); [|done].
  destruct (srv_worker_helper _ _ _) as [[[? ?] ?]| |]; try done. cbn [obind]. by intros [= <-].
Qed.

Lemma receive_keeps w : datasets (snd (receive w)) = datasets w.
Proof. unfold receive. by destruct (inbox w). Qed.

Lemma ask_data_keeps n req w m w' : ask_data e n req w = Ret (m, w') -> datasets w' = datasets w.
Proof.
  unfold ask_data. case_match; [done|]. case_match; [by intros [= _ <-]|].
  destruct (deliver e n req [] w) as [w1| |] eqn:Hd; try done. cbn [obind].
  pose proof (receive_keeps w1) as Hr. destruct (receive w1) as [m1 w2]. intros [= _ <-]. simpl in Hr.
  rewrite Hr. by eapply deliver_keeps.
Qed.

Lemma delete_loop_keeps uri targets w r w' : delete_loop e uri targets w = Ret (r, w') -> datasets w' = datasets w.
Proof.
  revert w. induction targets as [|n rest IH]; intros w; cbn [delete_loop]; [by intros [= _ <-]|].
  destruct (ask_data e n _ w) as [[m w1]| |] eqn:Ha; try done. cbn [obind]. apply ask_data_keeps in Ha.
  destruct m; [|intros [= _ <-]; done]. intros H%IH. by rewrite H.
Qed.

Lemma delete_srv_keeps uri id w r w' : delete_dataset_srv_worker stack e uri id w = Ret (r, w') -> keeps_known w w'.
Proof.
  unfold delete_dataset_srv_worker. destruct (get_data_location _ _ _ _ _) as [[[n c] w1]| |] eqn:Hl; try done.
  cbn [obind]. apply location_keeps in Hl. destruct c as [[di im]|]; [|by intros [= _ <-]].
  case_match; [by intros [= _ <-]|]. destruct (servers_of n di im) as [ts| |]; try done. cbn [obind].
  intros Hd%delete_loop_keeps. eapply keeps_known_trans; [exact Hl|]. by apply keeps_known_same.
Qed.

Lemma set_node_shm_datasets x w : datasets (set_node_shm matching x w) = datasets w.
Proof. unfold set_node_shm. by destruct (servers w !! _). Qed.

Lemma set_local_keeps n size off id uri src w o w' :
  set_local e fresh_shm matching n size off id uri src w = Ret (o, w') -> datasets w' = datasets w.
Proof.
  unfold set_local. case_match; [by intros [= _ <-]|]. set (w0 := set_node_shm _ _ w).
  assert (datasets w0 = datasets w) as H0 by apply set_node_shm_datasets.
  case_match; [intros [= _ <-]; done|]. destruct (deliver e _ _ _ w0) as [w1| |] eqn:Hd; try done. cbn [obind].
  pose proof (receive_keeps w1) as Hr. destruct (receive w1) as [m w2]. intros [= _ <-]. simpl in Hr.
  rewrite Hr. apply deliver_keeps in Hd. congruence.
Qed.

Lemma set_remote_keeps a n size off id uri src w o w' :
  set_remote e a n size off id uri src w = Ret (o, w') -> datasets w' = datasets w.
Proof.
  unfold set_remote. case_match; [done|]. destruct (deliver e _ _ _ w) as [w1| |] eqn:Hd; try done. cbn [obind].
  apply deliver_keeps in Hd. destruct a; [by intros [= _ <-]|].
  pose proof (receive_keeps w1) as Hr. destruct (receive w1) as [m w2]. intros [= _ <-]. simpl in Hr. congruence.
Qed.

Lemma set_loop_keeps a di n st id buf off k i size w r w' :
  set_loop e fresh_shm matching a di n st id buf off k i size w = Ret (r, w') -> datasets w' = datasets w.
Proof.
  revert i size w. induction k as [|k IH]; intros i size w; cbn [set_loop]; [by intros [= _ <-]|].
  destruct (replica _ _ _ _); try done. cbn [obind].
  destruct (read_at buf 0 _); try done. cbn [obind].
  destruct (if _ && _ then _ else _) as [[o w1]| |] eqn:Hs; try done. cbn [obind].
  assert (datasets w1 = datasets w) as H1.
  { destruct (_ && _); [by eapply set_local_keeps|by eapply set_remote_keeps]. }
  destruct o; [by intros [= _ <-]|]. intros Hl%IH. congruence.
Qed.

Lemma set_data_keeps uri id buf size off a w r w' :
  set_data stack e fresh_shm MALL matching uri id buf size off a w = Ret (r, w') -> keeps_known w w'.
Proof.
  unfold set_data. destruct (get_data_location _ _ _ _ _) as [[[n c] w1]| |] eqn:Hl; try done. cbn [obind].
  apply location_keeps in Hl. destruct c as [[di im]|]; [|by intros [= _ <-]].
  case_match; [by intros [= _ <-]|]. destruct (update_dataset_entry _ _ w1) as [w2| |] eqn:Hu; try done. cbn [obind].
  apply update_keeps in Hu. intros Hs%set_loop_keeps.
  eapply keeps_known_trans; [exact Hl|]. eapply keeps_known_trans; [exact Hu|]. by apply keeps_known_same.
Qed.

Lemma release_keeps path f r f' :
  imss_release stack e fresh_shm MALL matching now path f = Ret (r, f') ->
  keeps_known (wld (sess f)) (wld (sess f')).
Proof.
  unfold imss_release. destruct (find_fd path f) as [[fd st]| |]; try done. cbn [obind].
  destruct st as [st|]; [|intros [= _ <-]; by apply keeps_known_same].
  case_match; [intros [= _ <-]; by apply keeps_known_same|].
  unfold put_block0. destruct (set_data _ _ _ _ _ _ _ _ _ _ _ _) as [[r1 w1]| |] eqn:Hs; try done. cbn [obind].
  intros [= _ <-]. by eapply set_data_keeps.
Qed.

Lemma exchange_wld n req msg s m s' : exchange e menv_of n req msg s = Ret (m, s') -> wld s' = wld s.
Proof.
  unfold exchange, ask. case_match; [done|]. case_match; [by intros [= _ <-]|].
  destruct (metas s !! _); [|done]. destruct (stat_worker_helper _ _ _) as [[[? out] ?]| |]; try done. cbn [obind].
  unfold hear. cbn. destruct (mbox s ++ _) as [|[|? ?] ?]; by intros [= _ <-].
Qed.

Lemma performance_wld n uri s o s' :
  send_performance e menv_of stat_id n uri perf s = Ret (o, s') -> wld s' = wld s.
Proof.
  unfold send_performance. destruct perf; [by intros [= _ <-]|].
  destruct (exchange _ _ _ _ _ _) as [[m s1]| |] eqn:He; try done. cbn [obind]. apply exchange_wld in He.
  destruct m; [|by intros [= _ <-]]. destruct (add_nodes _ _); try done. cbn [obind]. by intros [= _ <-].
Qed.

Lemma close_keeps path s r s' :
  close_dataset stack e MALL menv_of stat_id path perf s = Ret (r, s') -> keeps_known (wld s) (wld s').
Proof.
  unfold close_dataset. destruct (meta_home _ _ _ _); try done. cbn [obind].
  destruct (exchange _ _ _ _ _ _) as [[m s1]| |] eqn:He; try done. cbn [obind]. apply exchange_wld in He.
  destruct m as [b|]; [|intros [= _ <-]; apply keeps_known_same; by rewrite He].
  destruct (if prefixb _ b then _ else _) as [[r2 s2]| |] eqn:Hp; try done. cbn [obind].
  assert (keeps_known (wld s) (wld s2)) as H2.
  { rewrite <- He. destruct (prefixb _ b); [|injection Hp as _ <-; by apply keeps_known_same].
    destruct (delete_dataset_srv_worker _ _ _ _ _) as [[r3 w3]| |] eqn:Hd; try done. injection Hp as _ <-.
    by eapply delete_srv_keeps. }
  destruct MALL; [|by intros [= _ <-]].
  destruct (send_performance _ _ _ _ _ _ _) as [[o s3]| |] eqn:Hs; try done. cbn [obind]. intros [= _ <-].
  apply performance_wld in Hs. by rewrite Hs.
Qed.

End life.

(** When the last close of a removed file reports that it is gone, the session
    still has it: asking for it again finds the stale structure without
    consulting any server, so the client takes the file to exist. *)
Theorem deleted_still_known (stack : bytes) (e : env) (fresh_shm : gmap Z bytes -> Z) (MALL : bool)
  (matching : Z) (menv_of : Z -> menv) (stat_id : Z -> Z) (scratch : bytes)
  (perf : list (bytes * IOServerMetrics)) (now : Z * Z) (path : bytes) (f f' : fsys) (opened : Z)
  (Hk : knows path (known (sess f)))
  (Hc : imss_close stack e fresh_shm MALL matching menv_of stat_id scratch perf now path f = Ret (0, f')) :
  exists d, stat_dataset stack e menv_of path None opened (sess f') = Ret (1, Some d, sess f').
Proof.
  revert Hc. unfold imss_close.
  destruct (imss_release _ _ _ _ _ _ _ _) as [[r1 f1]| |] eqn:H1; try done. cbn [obind]. apply release_keeps in H1.
  destruct (close_dataset _ _ _ _ _ _ _ _) as [[r2 s2]| |] eqn:H2; try done. cbn [obind]. apply close_keeps in H2.
  destruct (make_current path s2) as [s3| |] eqn:H3; try done. cbn [obind].
  assert (known s3 = known s2) as E3.
  { revert H3. unfold make_current. destruct (find_dataset_by_uri_hash_pool _ _) as [[? o]| |]; try done. cbn [obind].
    destruct o; by intros [= <-]. }
  case_match eqn:Hr.
  2:{ destruct (imss_refresh _ _ _ _ _ _ _) as [[r4 f4]| |]; try done. cbn [obind]. intros [= -> _]. done. }
  destruct (clear_dataset _) as [f4| |] eqn:H4; try done. cbn [obind].
  assert (keeps_known (wld s3) (wld (sess f4))) as K4.
  { revert H4. unfold clear_dataset. cbn [sess set_sess]. destruct (curr_dataset s3); [|done].
    destruct (find_dataset_by_uri_hash_pool _ _) as [[? o]| |]; try done. cbn [obind]. destruct o; [|done].
    destruct (update_dataset_entry _ _ _) as [w| |] eqn:Hu; try done. cbn [obind]. intros [= <-].
    by eapply update_keeps. }
  unfold forget. destruct (HMapErase _ _) as [h| |]; try done. cbn [obind]. intros [= _ <-].
  cbn [sess set_lmap]. assert (knows path (known (sess f4))) as [d Hd].
  { apply K4. change (datasets (wld s3)) with (known s3). rewrite E3. by apply H2, H1. }
  exists d. unfold stat_dataset. by rewrite Hd.
Qed.

(** One client, one metadata server, two data servers. *)
Definition fs_env : env := big_env 4096.
Definition fs_menv : Z -> menv := fun _ => sample_menv.
Definition fs_with (known_ : Sessions.table) (m : mserver) (h : HierarchicalMap) : fsys :=
  mkFS (mkSession (mkWorld (servers (cluster 1)) [] {[ IMSS_ROOT := known_ ]} [cluster_imss]) [m] [] None
          cluster_imss 0) h 0.
Definition fs_scratch : bytes := repeat NUL 145.
Definition no_shm : gmap Z bytes -> Z := fun _ => -1.

Definition doomed_fs : fsys :=
  fs_with {[ B "imss://f" := doomed ]} (server_with doomed)
    {[ IMSS_ROOT := {[ B "imss://f" := mkElem 0 sample_attr ]} ]}.
Definition closed_fs : fsys :=
  snd (ret_or (9, doomed_fs)
         (imss_close [] fs_env no_shm false 0 fs_menv (fun _ => 0) fs_scratch [] (5, 0) (B "imss://f") doomed_fs)).

Lemma deleted_still_known_witness :
  (exists d, stat_dataset [] fs_env fs_menv (B "imss://f") None 1 (sess closed_fs) = Ret (1, Some d, sess closed_fs)) /\
  match metas (sess closed_fs) with
  | m :: _ => entry (B "imss://f") m = Ret None
  | [] => False
  end.
Proof.
  split; [|vm_compute; reflexivity].
  apply (deleted_still_known [] fs_env no_shm false 0 fs_menv (fun _ => 0) fs_scratch [] (5, 0) (B "imss://f")
           doomed_fs closed_fs 1).
  - exists doomed. reflexivity.
  - vm_compute. reflexivity.
Defined.

(** Creating a file leaves it in the map of open files with the handle it was
    given and the attributes that were written to block 0, replacing what the
    map had for the name; every other name is found as before. *)
Theorem created_is_found (stack : bytes) (e : env) (fresh_shm : gmap Z bytes -> Z) (MALL : bool) (matching : Z)
  (menv_of : Z -> menv) (cfg : config) (now : Z * Z) (path d : bytes) (mode opened : Z) (ty : ascii)
  (f f' : fsys) (res : Z)
  (Hd : parent_dir path = Ret d)
  (Hc : imss_create stack e fresh_shm MALL matching menv_of cfg now path mode opened ty f = Ret (0, res, f')) :
  find_fd path f' = Ret (res, Some (new_stat cfg now mode res)) /\
  forall k, rooted k -> k <> path -> find_fd k f' = find_fd k f.
Proof.
  destruct (created_entry stack e fresh_shm MALL matching menv_of cfg now path mode opened ty f res f' d Hd Hc)
    as [H1 H2]. split; [by rewrite (find_fd_flat _ _ _ Hd), H1|].
  intros k [dk Hk]%parent_dir_rooted Hne. by rewrite !(find_fd_flat _ _ _ Hk), H2.
Qed.

Definition fs_config : config := mkConfig (B "RR") 1 4 1 0 2 4096 1000 100.
Definition empty_fs : fsys := fs_with ∅ empty_meta (HMapCreate IMSS_ROOT).
Definition created_fs : fsys :=
  snd (ret_or (9, 9, empty_fs)
         (imss_create [] fs_env no_shm false 0 fs_menv fs_config (5, 0) (B "imss://f") 420 1 "R" empty_fs)).

Lemma created_is_found_witness :
  find_fd (B "imss://f") created_fs = Ret (0, Some (new_stat fs_config (5, 0) 420 0)).
Proof.
  apply (created_is_found [] fs_env no_shm false 0 fs_menv fs_config (5, 0) (B "imss://f") IMSS_ROOT 420 1 "R"
           empty_fs created_fs 0).
  - reflexivity.
  - vm_compute. reflexivity.
Defined.

(** Another client that starts from the servers alone sees the file with the
    same attributes. *)
Example created_seen_elsewhere :
  let shared := mkFS (mkSession (mkWorld (servers (wld (sess created_fs))) [] {[ IMSS_ROOT := ∅ ]} [cluster_imss])
                        (metas (sess created_fs)) [] None cluster_imss 0) (HMapCreate IMSS_ROOT) 0 in
  match getattr [] fs_env no_shm 0 fs_menv 0 (fun x b => (x + b - 1) / b) fs_scratch (B "imss://f") shared with
  | Ret (r, st, _) => r = 0 /\ st = new_stat fs_config (5, 0) 420 0
  | _ => False
  end.
Proof. vm_compute. split; reflexivity. Qed.

(** ** Removing directories *)

(** C26. A directory with at least one entry at its metadata server cannot be
    removed: the call is refused and nothing changes, in the session, in the
    map of open files or at any server. *)
Theorem rmdir_keeps_nonempty (stack : bytes) (e : env) (menv_of : Z -> menv) (stat_id : Z -> Z)
  (path k : bytes) (f : fsys) (m : mserver) (dm : meta_map)
  (Hone : metas (sess f) = [m]) (Hbox : mbox (sess f) = []) (Hsend : send_ok e = true)
  (Hx : m_send_ok (menv_of 0) = true) (Hid : 0 <= stat_id 0 < 2 ^ 32)
  (Hhome : meta_home stack URI_ path (sess f) = Ret 0) (Hw : meta_word URI_ (with_slash path)) (Hne : path <> [])
  (Hd : hiermap (mstore m) !! map_key (menv_of 0) (with_slash path) = Some dm)
  (Hlen : Forall (fun f => (length f <= 256)%nat) (keys_of (buffer dm)))
  (Hroot : Forall rooted (children (map_key (menv_of 0) (with_slash path)) dm))
  (Hfit : Z.of_nat (length (children (map_key (menv_of 0) (with_slash path)) dm)) * URI_ < 2 ^ 31)
  (Hk : is_Some (buffer dm !! k)) (Hkd : k <> map_key (menv_of 0) (with_slash path)) :
  imss_rmdir stack e menv_of stat_id path f = Ret (- EPERM, f).
Proof.
  pose proof (get_dir_children stack e menv_of stat_id path (sess f) m dm) as Hdir. cbn zeta in Hdir.
  unfold imss_rmdir, imss_readdir. rewrite Hdir by done. cbn [obind].
  set (l := children _ dm) in *.
  assert (k ∈ l) as Hin.
  { unfold l, children. rewrite elem_of_filter_keys, negb_true_iff, streq_false. done. }
  assert (0 < Z.of_nat (length l)) as Hl by (destruct l; [by apply not_elem_of_nil in Hin|simpl; lia]).
  rewrite i32_small by (unfold URI_ in Hfit; lia).
  destruct (Z.leb_spec (Z.of_nat (length l) + 1) 0); [lia|].
  destruct (Z.ltb_spec 1 (Z.of_nat (length l) + 1)); [|lia]. destruct f as [[] ? ?]. done.
Qed.

Definition tree_fs : fsys := fs_with ∅ tree_server (HMapCreate IMSS_ROOT).

Lemma rmdir_keeps_nonempty_witness :
  imss_rmdir [] fs_env fs_menv (fun _ => 0) (B "imss://d") tree_fs = Ret (- EPERM, tree_fs).
Proof.
  assert (children (map_key sample_menv (with_slash (B "imss://d"))) tree_map = [B "imss://d/f"; B "imss://d/s"])
    as Hc by (vm_compute; reflexivity).
  apply (rmdir_keeps_nonempty [] fs_env fs_menv (fun _ => 0) (B "imss://d") (B "imss://d/f") tree_fs tree_server tree_map).
  - reflexivity.
  - reflexivity.
  - reflexivity.
  - reflexivity.
  - lia.
  - vm_compute. reflexivity.
  - split; [discriminate|]. split; [by repeat constructor|reflexivity].
  - discriminate.
  - vm_compute. reflexivity.
  - assert (keys_of (buffer tree_map) = [B "imss://d/f"; B "imss://d/s"]) as -> by (vm_compute; reflexivity).
    repeat constructor; simpl; lia.
  - change (fs_menv 0) with sample_menv. rewrite Hc. constructor; [by exists (B "d/f")|].
    constructor; [by exists (B "d/s")|constructor].
  - change (fs_menv 0) with sample_menv. rewrite Hc. vm_compute. reflexivity.
  - eexists. vm_compute. reflexivity.
  - discriminate.
Defined.

(** ** Operations that do not do what they are for *)

(** Moving a file into a directory fails with ENOENT when the
    directory is in the map of open files: a hit is reported as 1, and only 0
    is taken for success. *)
Theorem rename_into_known_dir_fails (stack : bytes) (e : env) (fresh_shm : gmap Z bytes -> Z) (matching : Z)
  (menv_of : Z -> menv) (stat_id : Z -> Z) (pos : Z) (order : Sessions.table -> list bytes) (dceil : Z -> Z -> Z)
  (scratch : bytes) (old new parent : bytes) (off fd pfd : Z) (st pst : stat) (f : fsys)
  (Hne : old <> new)
  (Hold : find_fd old f = Ret (fd, Some st)) (Hfd : 0 <= fd)
  (Hparent : find_last_parent_dir new = Ret (off, parent)) (Hoff : 0 < off) (Hshort : strlen parent < URI_)
  (Hother : prefixb parent old = false) (Hdir : find_fd parent f = Ret (pfd, Some pst)) (Hpfd : 0 <= pfd) :
  imss_rename stack e fresh_shm matching menv_of stat_id pos order dceil scratch old new f = Ret (- ENOENT, f).
Proof.
  unfold imss_rename. destruct (streq old new) eqn:Es; [by apply streq_true in Es|].
  unfold exists_. rewrite Hold. cbn [obind]. destruct (Z.ltb_spec fd 0); [lia|]. cbn [obind].
  unfold check_destination. rewrite Hparent. cbn [obind]. destruct (Z.leb_spec URI_ (strlen parent)); [lia|].
  rewrite Hother. destruct (Z.ltb_spec 0 off); [|lia]. cbn [negb andb]. rewrite Hdir. cbn [obind].
  destruct (Z.leb_spec 0 pfd); [|lia]. done.
Qed.

Definition cached_fs : fsys :=
  fs_with ∅ empty_meta
    {[ IMSS_ROOT := {[ B "imss://f" := mkElem 0 sample_attr; B "imss://d" := mkElem 1 (mkStat 4 0 1 16893) ]} ]}.

Lemma rename_into_known_dir_fails_witness :
  imss_rename [] fs_env no_shm 0 fs_menv (fun _ => 0) 0 (fun t => (map_to_list t).*1) (fun x b => (x + b - 1) / b)
    fs_scratch (B "imss://f") (B "imss://d/f") cached_fs = Ret (- ENOENT, cached_fs).
Proof.
  apply (rename_into_known_dir_fails [] fs_env no_shm 0 fs_menv (fun _ => 0) 0 (fun t => (map_to_list t).*1)
    (fun x b => (x + b - 1) / b) fs_scratch (B "imss://f") (B "imss://d/f") (B "imss://d") 8 0 1
    sample_attr (mkStat 4 0 1 16893) cached_fs).
  - discriminate.
  - vm_compute. reflexivity.
  - lia.
  - reflexivity.
  - lia.
  - reflexivity.
  - reflexivity.
  - vm_compute. reflexivity.
  - lia.
Defined.

(** Setting the times of a file always searches for the empty name, whose
    parent directory is computed from a length that wraps around; changing
    mode or owner of a file that is not in the map of open files reads block 0
    into a null pointer. *)
Theorem attribute_changes_undefined (stack : bytes) (e : env) (fresh_shm : gmap Z bytes -> Z) (MALL : bool)
  (matching : Z) (menv_of : Z -> menv) (pos : Z) (scratch : bytes) (now : Z * Z) (path : bytes) (mode u g r : Z)
  (f f' : fsys) (p : bytes)
  (Hnone : find_fd path f = Ret (-1, None))
  (Hopen : open_ds stack e matching menv_of pos path 0 f = Ret (r, p, f')) :
  imss_utimens stack e fresh_shm MALL matching menv_of pos scratch now path f = Undef OutOfBounds /\
  imss_chown stack e fresh_shm MALL matching menv_of pos scratch path u g f = Undef NullDeref /\
  (get_iuri path = path ->
   imss_chmod stack e fresh_shm MALL matching menv_of pos scratch path mode f = Undef NullDeref).
Proof.
  split; [done|]. assert (forall c, change_attr stack e fresh_shm MALL matching menv_of pos scratch c path path f
    = Undef NullDeref) as H.
  { intros c. unfold change_attr. rewrite Hnone. cbn [obind]. cbn [Z.leb Z.eqb Z.compare Pos.eqb].
    by rewrite Hopen. }
  split; [apply H|]. intros Hi. unfold imss_chmod. rewrite Hi. apply H.
Qed.

Definition opened_elsewhere : Z * bytes * fsys :=
  ret_or (9, [], empty_fs) (open_ds [] fs_env 0 fs_menv 0 (B "imss://f") 0
    (fs_with ∅ (server_with two_users) (HMapCreate IMSS_ROOT))).

Lemma attribute_changes_undefined_witness :
  imss_chown [] fs_env no_shm false 0 fs_menv 0 fs_scratch (B "imss://f") 7 7
    (fs_with ∅ (server_with two_users) (HMapCreate IMSS_ROOT)) = Undef NullDeref.
Proof.
  destruct (attribute_changes_undefined [] fs_env no_shm false 0 fs_menv 0 fs_scratch (5, 0) (B "imss://f")
    420 7 7 (fst (fst opened_elsewhere)) (fs_with ∅ (server_with two_users) (HMapCreate IMSS_ROOT))
    (snd opened_elsewhere) (snd (fst opened_elsewhere))) as (_ & H & _).
  - vm_compute. reflexivity.
  - vm_compute. reflexivity.
  - exact H.
Defined.
