(* ===== verification/Calls.v ===== *)
(** * The interposed calls on names and directories

    The calls of src/tools/imss_posix.c that take a path or open and close
    descriptors, after initialisation, over the file operations of Files.v and
    the descriptor table of src/tools/mapfd.cpp: opening and closing, the
    attribute calls, removal, renaming, directories and their listing, the
    working directory and the variants relative to a directory descriptor.  A
    name outside the mount point, or a descriptor that is not in the table, is
    passed to the C library, the class [FileLibc].  A directory stream is named
    by its descriptor. *)

From S2P Require Import Prelude Types Paths Store DataServer Wire Sessions Client Comms MetaStore Elasticity MetaServer Datasets BlockService FileIO Posix EndToEnd LocalMap Files.

Definition EOF_ : Z := -1.
Definition AT_FDCWD : Z := -100.
Definition O_CREAT : Z := 64.
Definition O_EXCL : Z := 128.
Definition O_TRUNC : Z := 512.
Definition O_DIRECTORY : Z := 65536.
Definition has (flag flags : Z) : bool := Z.land flags flag =? flag.
Definition any (flag flags : Z) : bool := negb (Z.land flags flag =? 0).

(** ** The C library *)

Inductive libc_call :=
| C_open (path : bytes) (flags mode : Z)
| C_openat (dir : Z) (path : bytes) (flags mode : Z)
| C_close (fd : Z)
| C_fclose (fd : Z)
| C_stat (path : bytes)
| C_fstat (fd : Z)
| C_fstatat (dir : Z) (path : bytes) (flags : Z)
| C_mkdir (path : bytes) (mode : Z)
| C_unlink (path : bytes)
| C_unlinkat (dir : Z) (path : bytes) (flags : Z)
| C_rmdir (path : bytes)
| C_remove (path : bytes)
| C_rename (old new : bytes)
| C_chmod (path : bytes) (mode : Z)
| C_fchmod (fd mode : Z)
| C_fchmodat (dir : Z) (path : bytes) (mode flags : Z)
| C_fchownat (dir : Z) (path : bytes) (owner group flags : Z)
| C_access (path : bytes) (mode : Z)
| C_faccessat (dir : Z) (path : bytes) (mode flags : Z)
| C_ftruncate (fd length : Z)
| C_symlinkat (target : bytes) (fd : Z) (name : bytes)
| C_opendir (path : bytes)
| C_closedir (fd : Z)
| C_chdir (path : bytes)
| C_fchdir (fd : Z)
| C_lstat (path : bytes)
| C_fopen (path mode : bytes)
| C_fdopen (fd : Z) (mode : bytes)
| C_flock (fd op : Z)
| C_symlink (target name : bytes)
| C_truncate (path : bytes) (length : Z)
| C_renameat2 (olddir : Z) (old : bytes) (newdir : Z) (new : bytes) (flags : Z)
| C_fsync (fd : Z)
| C_utimensat (dir : Z) (path : bytes) (flags : Z)
| C_fcntl (fd cmd : Z)
| C_lseek64 (fd offset whence : Z)
| C_seekdir (fd loc : Z)
| C_writev (fd : Z) (iov : list bytes)
| C_pwritev (fd : Z) (iov : list bytes) (offset : Z)
| C_pwrite64 (fd : Z) (buf : bytes) (count offset : Z)
| C_readlink (path : bytes)
| C_readlinkat (dir : Z) (path : bytes)
| C_realpath (path : bytes)
| C_statvfs (path : bytes)
| C_fstatvfs (fd : Z)
| C_statfs (path : bytes)
| C_fstatfs (fd : Z)
| C_statx (dir : Z) (path : bytes) (flags mask : Z).

(** Results of the C library on its state: -1 or NULL is -1, a directory
    stream is its descriptor. *)
Class FileLibc (K : Type) := {
  libc : libc_call -> K -> Z * K;
  libc_stat : libc_call -> K -> Z * stat * K;
  libc_readdir : Z -> K -> option (bytes * Z) * K;
  libc_cwd : K -> option bytes
}.

(** ** The process *)

(** The globals of [readdir], shared by all directory streams. *)
Record listing := mkListing { to_read : bool; ori_buf : list bytes; n_ent : Z; imss_path_len : Z }.

Record proc (K : Type) := mkProc {
  pf : fsys;
  ptab : fd_map;
  pk : K;
  perr : Z;
  PWD : option bytes;
  dirpos : gmap Z Z;
  globals : listing
}.
Arguments mkProc {K} pf ptab pk perr PWD dirpos globals.
Arguments pf {K} p.
Arguments ptab {K} p.
Arguments pk {K} p.
Arguments perr {K} p.
Arguments PWD {K} p.
Arguments dirpos {K} p.
Arguments globals {K} p.

Section setters.
Context {K : Type}.
Definition set_pf (x : fsys) (p : proc K) : proc K :=
  mkProc x (ptab p) (pk p) (perr p) (PWD p) (dirpos p) (globals p).
Definition set_ptab (x : fd_map) (p : proc K) : proc K :=
  mkProc (pf p) x (pk p) (perr p) (PWD p) (dirpos p) (globals p).
Definition set_pk (x : K) (p : proc K) : proc K :=
  mkProc (pf p) (ptab p) x (perr p) (PWD p) (dirpos p) (globals p).
Definition set_perr (x : Z) (p : proc K) : proc K :=
  mkProc (pf p) (ptab p) (pk p) x (PWD p) (dirpos p) (globals p).
Definition set_PWD (x : option bytes) (p : proc K) : proc K :=
  mkProc (pf p) (ptab p) (pk p) (perr p) x (dirpos p) (globals p).
Definition set_dirpos (x : gmap Z Z) (p : proc K) : proc K :=
  mkProc (pf p) (ptab p) (pk p) (perr p) (PWD p) x (globals p).
Definition set_globals (x : listing) (p : proc K) : proc K :=
  mkProc (pf p) (ptab p) (pk p) (perr p) (PWD p) (dirpos p) x.
End setters.

(** ** Searching the descriptor table by name *)

(** The lowest descriptor whose name satisfies [P]; the map is traversed in
    ascending order. *)
Definition first_fd (P : bytes -> bool) (m : fd_map) : option Z :=
  foldr (fun x acc => if P (fst (snd x))
                      then Some (match acc with Some y => Z.min (fst x) y | None => fst x end) else acc)
    None (map_to_list m).

(** [map_fd_search_by_pathname]: the descriptor, -1 as [None]. *)
Definition map_fd_search_by_pathname (pathname : bytes) (m : fd_map) : option Z := first_fd (streq pathname) m.

(** [map_fd_erase_by_pathname] also finds the name with a slash appended. *)
Definition map_fd_erase_by_pathname (pathname : bytes) (m : fd_map) : outcome (Z * fd_map) :=
  if PATH_MAX <=? strlen pathname + 1 then Undef OutOfBounds
  else
    let aux_path := match pathname with
                    | [] => []
                    | _ => if last_is slash pathname then [] else pathname ++ [slash]
                    end in
    Ret (match first_fd (fun v => streq v pathname || streq v aux_path) m with
         | Some fd => (1, delete fd m)
         | None => (-1, m)
         end).

(** [map_fd_search_by_val_close]: descriptor -1 is never removed. *)
Definition map_fd_search_by_val_close (fd : Z) (m : fd_map) : Z * fd_map :=
  match m !! fd with
  | Some _ => if fd =? -1 then (1, m) else (0, delete fd m)
  | None => (1, m)
  end.

Section calls.
Context {K : Type} `{FileLibc K} `{Libc K}.
Context (stack : bytes) (e : env) (fresh_shm : gmap Z bytes -> Z) (MALLEABILITY_ON : bool)
  (matching_server_id : Z) (menv_of : Z -> menv) (stat_id : Z -> Z) (imssd_pos : Z)
  (table_order : Sessions.table -> list bytes) (cfg : config) (dceil : Z -> Z -> Z)
  (scratch : bytes) (perf : list (bytes * IOServerMetrics)) (now : Z * Z).
Context (MOUNT_POINT : bytes).
(** [HerculesMove] copies a file between Hercules and another file system. *)
Context (hercules_move : bytes -> bytes -> bytes -> proc K -> outcome (Z * proc K)).

Abbreviation do_refresh := (imss_refresh stack e fresh_shm matching_server_id scratch).
Abbreviation do_getattr := (getattr stack e fresh_shm matching_server_id menv_of imssd_pos dceil scratch).
Abbreviation do_open := (imss_open stack e fresh_shm matching_server_id menv_of imssd_pos scratch).
Abbreviation do_create := (imss_create stack e fresh_shm MALLEABILITY_ON matching_server_id menv_of cfg now).
Abbreviation do_close :=
  (imss_close stack e fresh_shm MALLEABILITY_ON matching_server_id menv_of stat_id scratch perf now).
Abbreviation do_unlink := (imss_unlink stack e menv_of).
Abbreviation do_rmdir := (imss_rmdir stack e menv_of stat_id).

Definition real (c : libc_call) (p : proc K) : Z * proc K :=
  let '(r, k) := libc c (pk p) in (r, set_pk k p).
Definition real_stat (c : libc_call) (p : proc K) : Z * stat * proc K :=
  let '(r, st, k) := libc_stat c (pk p) in (r, st, set_pk k p).

Definition named (fd : Z) (p : proc K) : option bytes :=
  match map_fd_search_by_val fd (ptab p) with [] => None | path => Some path end.
Definition remember_fd (path : bytes) (fd : Z) (p : proc K) : proc K :=
  set_ptab (snd (map_fd_put path fd 0 (ptab p))) p.

(** [errno = -ret; ret = -1] on a negative result. *)
Definition report_error (ret : Z) (p : proc K) : Z * proc K :=
  if ret <? 0 then (-1, set_perr (- ret) p) else (ret, p).

(** ** Names *)

(** [getcwd] into a zeroed buffer: below the mount point as many bytes are
    copied as the buffer holds, none. *)
Definition getcwd (p : proc K) : option bytes :=
  match PWD p with
  | Some d => if prefixb MOUNT_POINT d then Some [] else libc_cwd (pk p)
  | None => libc_cwd (pk p)
  end.

Definition hercules_path (pathname : bytes) (p : proc K) : outcome (option bytes) :=
  checkHerculesPath MOUNT_POINT (PWD p) (getcwd p) pathname.

(** [ResolvePathsAndFD]: the name of the directory descriptor, or the
    converted name for [AT_FDCWD]. *)
Definition ResolvePathsAndFD (dir_fd : Z) (pathname : bytes) (p : proc K) : outcome (bytes * option bytes) :=
  if dir_fd =? AT_FDCWD then let* h := hercules_path pathname p in Ret ([], h)
  else Ret (map_fd_search_by_val dir_fd (ptab p), None).

(** ["%s/%s/%s"] of the mount point, the directory without ["imss://"] and
    the name. *)
Definition absolute_pathname (dir pathname : bytes) : outcome bytes :=
  let a := MOUNT_POINT ++ slash :: drop IMSS_ROOT_LEN dir ++ slash :: pathname in
  if (length dir <? IMSS_ROOT_LEN)%nat then Undef OutOfBounds
  else if PATH_MAX <=? strlen a then Undef OutOfBounds else Ret a.

(** The shape of the [*at] calls: an absolute name or [AT_FDCWD] as the call
    without directory, otherwise the name below the directory. *)
Definition at_call {A} (dir_fd : Z) (pathname : bytes) (call : bytes -> proc K -> outcome (A * proc K))
    (real_ : proc K -> A * proc K) (p : proc K) : outcome (A * proc K) :=
  let p := set_perr 0 p in
  let* (dir, file) := ResolvePathsAndFD dir_fd pathname p in
  match dir, file with
  | [], None => Ret (real_ p)
  | _, _ =>
      if IsAbsolutePath pathname =? 1 then call pathname p
      else if dir_fd =? AT_FDCWD then call pathname p
      else let* a := absolute_pathname dir pathname in call a p
  end.

(** ** Opening and closing *)

Definition open_null (p : proc K) : Z * proc K := real (C_open (B "/dev/null") 0 0) p.

(** The file is looked up or created at the servers: result, the name (a link
    overwrites it) and the state. *)
Definition open_new (path : bytes) (flags mode : Z) (p : proc K) : outcome (Z * bytes * proc K) :=
  if has O_CREAT flags
  then
    let* (r, _, f) := do_create path mode 1 TYPE_REGULAR_FILE (pf p) in
    let p := set_pf f p in
    if r =? - EEXIST
    then let* (_, _, path, f) := do_open path (pf p) in Ret (0, path, set_pf f p)
    else let '(r, p) := report_error r p in Ret (r, path, p)
  else
    let* (r, ds, path, f) := do_open path (pf p) in
    let '(r, p) := report_error r (set_pf f p) in
    if ds =? u64 (-2)
    then let '(fd, p) := real (C_open path flags mode) p in Ret (fd, path, remember_fd path fd p)
    else Ret (r, path, p).

Definition generalOpen (path : bytes) (flags mode createFd : Z) (p : proc K) : outcome (Z * proc K) :=
  if streq path IMSS_ROOT
  then let '(fd, p) := open_null p in Ret (fd, remember_fd path fd p)
  else
    match map_fd_search_by_pathname path (ptab p) with
    | None =>
        let* (ret, path, p) := open_new path flags mode p in
        Ret (if ret <=? -1 then (ret, p)
             else if createFd =? -1
             then let '(fd, p) := open_null p in (fd, remember_fd path fd p)
             else if 0 <=? createFd then (createFd, remember_fd path createFd p)
             else (ret, p))
    | Some fd =>
        if any O_TRUNC flags
        then
          let p := set_ptab (map_fd_update_value path fd 0 (ptab p)) p in
          let* (r, st, f) := do_getattr path (pf p) in
          let p := set_pf f p in
          if r <? 0 then Ret (-1, set_perr (- r) p)
          else
            let* h := HMapUpdate path (set_size 0 (st_blocks st) st) (lmap (pf p)) in
            Ret (fd, set_pf (set_lmap h (pf p)) p)
        else Ret (fd, p)
    end.

(** [open], [open64]; [__open_2] takes no mode. *)
Definition open (pathname : bytes) (flags mode : Z) (p : proc K) : outcome (Z * proc K) :=
  let mode := if any O_CREAT flags then mode else 0 in
  let p := set_perr 0 p in
  let* h := hercules_path pathname p in
  match h with
  | Some path => generalOpen path flags mode (-1) p
  | None => Ret (real (C_open pathname flags mode) p)
  end.

Definition open_2 (pathname : bytes) (flags : Z) (p : proc K) : outcome (Z * proc K) :=
  let p := set_perr 0 p in
  let* h := hercules_path pathname p in
  match h with
  | Some path => generalOpen path flags 0 (-1) p
  | None => Ret (real (C_open pathname flags 0) p)
  end.

(** [close]: the result of [imss_close] never reaches the caller. *)
Definition close (fd : Z) (p : proc K) : outcome (Z * proc K) :=
  let p := set_perr 0 p in
  match named fd p with
  | None => Ret (real (C_close fd) p)
  | Some path =>
      if streq path MOUNT_POINT then Ret (0, set_ptab (map_fd_erase fd (ptab p)) p)
      else
        let* (_, f) := do_close path (pf p) in
        let p := set_ptab (map_fd_erase fd (ptab p)) (set_pf f p) in
        Ret (0, snd (real (C_close fd) p))
  end.

Definition fclose (fd : Z) (p : proc K) : outcome (Z * proc K) :=
  let p := set_perr 0 p in
  match named fd p with
  | None => Ret (real (C_fclose fd) p)
  | Some path =>
      let* (ret, f) := do_close path (pf p) in
      let p := set_ptab (map_fd_erase fd (map_fd_update_value path fd 0 (ptab p))) (set_pf f p) in
      Ret (if 0 <? ret then 0 else if ret <? 0 then EOF_ else ret, snd (real (C_fclose fd) p))
  end.

(** ** Attributes *)

(** Attributes of a Hercules name, refreshed when the file is known. *)
Definition attributes (path : bytes) (p : proc K) : outcome (Z * stat * proc K) :=
  let* (_, f) := do_refresh path (pf p) in
  let* (r, st, f) := do_getattr path f in
  let '(r, p) := report_error r (set_pf f p) in
  Ret (r, st, p).

(** [stat], [lstat], [stat64] and the [__xstat] and [__lxstat] versions. *)
Definition stat_ (pathname : bytes) (p : proc K) : outcome (Z * stat * proc K) :=
  let p := set_perr 0 p in
  let* h := hercules_path pathname p in
  match h with
  | Some path => attributes path p
  | None => Ret (real_stat (C_stat pathname) p)
  end.

(** [fstat], [fstat64] and the [__fxstat] versions. *)
Definition fstat (fd : Z) (p : proc K) : outcome (Z * stat * proc K) :=
  let p := set_perr 0 p in
  match named fd p with
  | Some path => attributes path p
  | None => Ret (real_stat (C_fstat fd) p)
  end.

Definition fxstatat (dir_fd : Z) (pathname : bytes) (flags : Z) (p : proc K) : outcome (Z * stat * proc K) :=
  at_call dir_fd pathname (fun a p => stat_ a p) (fun p => real_stat (C_fstatat dir_fd pathname flags) p) p.

Definition access (pathname : bytes) (mode : Z) (p : proc K) : outcome (Z * proc K) :=
  let p := set_perr 0 p in
  let* h := hercules_path pathname p in
  match h with
  | None => Ret (real (C_access pathname mode) p)
  | Some path =>
      if prefixb path IMSS_ROOT then Ret (0, p)
      else
        let* (r, st, p) := attributes path p in
        if r <? 0 then Ret (r, p)
        else
          let grant bit need := if has bit mode && any need (st_mode st) then bit else 0 in
          let permissions := Z.lor (grant 4 256) (Z.lor (grant 2 128) (grant 1 64)) in
          Ret (if mode =? permissions then 0 else -1, set_perr 0 p)
  end.

(** [faccessat] and [faccessat2]. *)
Definition faccessat (dir_fd : Z) (pathname : bytes) (mode flags : Z) (p : proc K) : outcome (Z * proc K) :=
  at_call dir_fd pathname (fun a p => access a mode p) (fun p => real (C_faccessat dir_fd pathname mode flags) p) p.

Definition chmod (pathname : bytes) (mode : Z) (p : proc K) : outcome (Z * proc K) :=
  let p := set_perr 0 p in
  let* h := hercules_path pathname p in
  match h with
  | Some path =>
      let* (r, f) := imss_chmod stack e fresh_shm MALLEABILITY_ON matching_server_id menv_of imssd_pos scratch
                       path mode (pf p) in
      Ret (r, set_pf f p)
  | None => Ret (real (C_chmod pathname mode) p)
  end.

Definition fchmod (fd mode : Z) (p : proc K) : outcome (Z * proc K) :=
  let p := set_perr 0 p in
  match named fd p with
  | Some path =>
      let* (r, f) := imss_chmod stack e fresh_shm MALLEABILITY_ON matching_server_id menv_of imssd_pos scratch
                       path mode (pf p) in
      Ret (r, set_pf f p)
  | None => Ret (real (C_fchmod fd mode) p)
  end.

(** The directory descriptor is not used. *)
Definition fchownat (dir_fd : Z) (pathname : bytes) (owner group flags : Z) (p : proc K) : outcome (Z * proc K) :=
  let p := set_perr 0 p in
  let* h := hercules_path pathname p in
  match h with
  | Some path =>
      let* (r, f) := imss_chown stack e fresh_shm MALLEABILITY_ON matching_server_id menv_of imssd_pos scratch
                       path owner group (pf p) in
      Ret (r, set_pf f p)
  | None => Ret (real (C_fchownat dir_fd pathname owner group flags) p)
  end.

(** [ftruncate] of a Hercules file does nothing and returns 1. *)
Definition ftruncate (fd length : Z) (p : proc K) : outcome (Z * proc K) :=
  let p := set_perr 0 p in
  match named fd p with
  | Some _ => Ret (1, p)
  | None => Ret (real (C_ftruncate fd length) p)
  end.

(** ** Creating, removing and renaming *)

Definition mkdir (pathname : bytes) (mode : Z) (p : proc K) : outcome (Z * proc K) :=
  let p := set_perr 0 p in
  let* h := hercules_path pathname p in
  match h with
  | Some path =>
      let* (r, f) := imss_mkdir stack e fresh_shm MALLEABILITY_ON matching_server_id menv_of cfg now path mode (pf p) in
      Ret (report_error r (set_pf f p))
  | None => Ret (real (C_mkdir pathname mode) p)
  end.

(** [unlink]: a file that is gone or still in use loses a descriptor. *)
Definition unlink (name : bytes) (p : proc K) : outcome (Z * proc K) :=
  let p := set_perr 0 p in
  let* h := hercules_path name p in
  match h with
  | None => Ret (real (C_unlink name) p)
  | Some path =>
      let* (r, st, f) := do_getattr path (pf p) in
      let* (ret, f) := if negb (r =? 0) then Ret (r, f)
                       else if S_ISDIR (st_mode st) then do_rmdir path f else do_unlink path f in
      let '(ret, p) := report_error ret (set_pf f p) in
      if (ret =? 1) || (ret =? 3)
      then let* (_, m) := map_fd_erase_by_pathname path (ptab p) in Ret (0, set_ptab m p)
      else Ret (ret, p)
  end.

Definition unlinkat (dir_fd : Z) (pathname : bytes) (flags : Z) (p : proc K) : outcome (Z * proc K) :=
  at_call dir_fd pathname (fun a p => unlink a p) (fun p => real (C_unlinkat dir_fd pathname flags) p) p.

Definition rmdir (pathname : bytes) (p : proc K) : outcome (Z * proc K) :=
  let p := set_perr 0 p in
  let* h := hercules_path pathname p in
  match h with
  | Some path => let* (r, f) := do_rmdir path (pf p) in Ret (report_error r (set_pf f p))
  | None =>
      if prefixb IMSS_ROOT pathname
      then let* (r, f) := do_rmdir pathname (pf p) in Ret (r, set_pf f p)
      else Ret (real (C_rmdir pathname) p)
  end.

Definition rename (old new : bytes) (p : proc K) : outcome (Z * proc K) :=
  let p := set_perr 0 p in
  let* old_path := hercules_path old p in
  let* new_path := hercules_path new p in
  match old_path, new_path with
  | Some o, Some n =>
      let* (r, f) := imss_rename stack e fresh_shm matching_server_id menv_of stat_id imssd_pos table_order dceil
                       scratch o n (pf p) in
      Ret (report_error r (set_pf f p))
  | None, Some h | Some h, None => let* (r, p) := hercules_move old new h p in Ret (report_error r p)
  | None, None => Ret (real (C_rename old new) p)
  end.

(** [symlinkat]: a target outside Hercules is copied to a null pointer; for a
    link outside Hercules the result is never set. *)
Definition symlinkat (target : bytes) (fd : Z) (name : bytes) (p : proc K) : outcome (Z * proc K) :=
  let p := set_perr 0 p in
  let* t := hercules_path target p in
  let* n := hercules_path name p in
  match t, n with
  | Some t, Some n =>
      let* (r, f) := imss_symlinkat stack e fresh_shm matching_server_id menv_of imssd_pos cfg scratch t n 0 (pf p) in
      Ret (r, set_pf f p)
  | None, Some _ => Undef NullDeref
  | Some _, None => Undef Uninitialised
  | None, None => Ret (real (C_symlinkat target fd name) p)
  end.

(** ** Directories *)

Definition opendir (name : bytes) (p : proc K) : outcome (Z * proc K) :=
  let p := set_perr 0 p in
  let* h := hercules_path name p in
  match h with
  | Some path =>
      let '(fd, p) := real (C_opendir (B "/tmp")) p in
      if fd =? -1 then Undef NullDeref
      else Ret (fd, remember_fd path fd (set_dirpos (<[fd := 0]> (dirpos p)) p))
  | None => Ret (real (C_opendir name) p)
  end.

Definition openat (dir_fd : Z) (pathname : bytes) (flags mode : Z) (p : proc K) : outcome (Z * proc K) :=
  let mode := if any O_CREAT flags then mode else 0 in
  let opens pathname p := let* h := hercules_path pathname p in
                          match h with
                          | Some path => generalOpen path flags mode (-1) p
                          | None => Undef NullDeref
                          end in
  at_call dir_fd pathname
    (fun a p => if (IsAbsolutePath pathname =? 1) && any O_DIRECTORY flags then opendir pathname p else opens a p)
    (fun p => real (C_openat dir_fd pathname flags mode) p) p.

Definition DT_DIR : Z := 4.
Definition DT_REG : Z := 8.

(** The listing of the directory, fetched at the first entry. *)
Definition load_listing (path : bytes) (p : proc K) : outcome (proc K) :=
  if to_read (globals p)
  then
    let* (n, items, f) := imss_readdir stack e menv_of stat_id path (pf p) in
    Ret (set_globals (mkListing false items (u32 n)
                        (if last_is slash path then strlen path else strlen path + 1)) (set_pf f p))
  else Ret p.

(** The name at a position: ["."], [".."], then the names of the listing
    without the directory. *)
Definition token_at (pos : Z) (g : listing) : outcome bytes :=
  if pos =? 0 then Ret (B ".")
  else if pos =? 1 then Ret (B "..")
  else match ori_buf g !! Z.to_nat (pos - 1) with
       | None => Undef OutOfBounds
       | Some item => if URI_ <=? imss_path_len g then Undef OutOfBounds
                      else Ret (cstr (drop (Z.to_nat (imss_path_len g)) item))
       end.

(** Name and type of an entry: only the last character of the name tells a
    directory. *)
Definition entry_of (token : bytes) : bytes * Z :=
  if prefixb token (B ".") || prefixb token (B "..") then (token, DT_DIR)
  else if last_is slash token then (take (length token - 1) token, DT_DIR) else (token, DT_REG).

(** [readdir] and [readdir64]. *)
Definition readdir (fd : Z) (p : proc K) : outcome (option (bytes * Z) * proc K) :=
  let p := set_perr 0 p in
  match named fd p with
  | None => let '(r, k) := libc_readdir fd (pk p) in Ret (r, set_pk k p)
  | Some path =>
      let* p := load_listing path p in
      let pos := default 0 (dirpos p !! fd) in
      let g := globals p in
      if pos <? u32 (n_ent g + 1)
      then
        let* token := token_at pos g in
        if (256 <=? strlen token) || (PATH_MAX <=? strlen path + 1 + strlen token) then Undef OutOfBounds
        else Ret (Some (entry_of token), set_dirpos (<[fd := pos + 1]> (dirpos p)) p)
      else Ret (None, set_globals (mkListing true [] (n_ent g) (imss_path_len g)) p)
  end.

Definition closedir (fd : Z) (p : proc K) : outcome (Z * proc K) :=
  let p := set_perr 0 p in
  match named fd p with
  | None => Ret (real (C_closedir fd) p)
  | Some _ =>
      let '(ret, m) := map_fd_search_by_val_close fd (ptab p) in
      let p := set_ptab m p in
      let p := if ret =? 0 then p else set_perr EEXIST p in
      let g := globals p in
      Ret (ret, set_globals (mkListing true (ori_buf g) 0 (imss_path_len g)) (snd (real (C_closedir fd) p)))
  end.

(** [chdir] keeps the name as it was given; [fchdir] the Hercules name. *)
Definition chdir (pathname : bytes) (p : proc K) : outcome (Z * proc K) :=
  let p := set_perr 0 p in
  let* h := hercules_path pathname p in
  match h with
  | Some _ => Ret (0, set_PWD (Some pathname) p)
  | None => Ret (real (C_chdir pathname) p)
  end.

Definition fchdir (fd : Z) (p : proc K) : Z * proc K :=
  match named fd p with
  | Some path => (1, set_PWD (Some path) p)
  | None => real (C_fchdir fd) p
  end.

(** ** Reads and writes

    The calls of Posix.v on the file of a descriptor: its entry of the map of
    open files is the local map there.  End-of-file and error marks are not
    kept. *)

Definition to_posix (path : bytes) (p : proc K) : outcome (pstate world K) :=
  let* (fd, st) := find_fd path (pf p) in
  Ret (mkP (mkF (wld (sess (pf p))) (match st with Some st => {[ path := (fd, st) ]} | None => ∅ end))
         (ptab p) (pk p) (perr p) ∅ ∅).

Definition from_posix (path : bytes) (q : pstate world K) (p : proc K) : outcome (proc K) :=
  let f := set_blocks (svc (fs q)) (pf p) in
  let* f := match files (fs q) !! path with
            | Some (_, st) => let* h := HMapUpdate path st (lmap f) in Ret (set_lmap h f)
            | None => Ret f
            end in
  Ret (mkProc f (fds q) (kern q) (errno q) (PWD p) (dirpos p) (globals p)).

Definition on_file {A} (fd : Z) (call : BlockOps world -> pstate world K -> outcome (A * pstate world K))
    (p : proc K) : outcome (A * proc K) :=
  let path := map_fd_search_by_val fd (ptab p) in
  let* q := to_posix path p in
  let* (a, q) := call (client_ops stack e fresh_shm matching_server_id path) q in
  let* p := from_posix path q p in
  Ret (a, p).

Definition write_fd (fd : Z) (buf : bytes) (size : Z) : proc K -> outcome (Z * proc K) :=
  on_file fd (fun ops q => @write world K ops _ dceil fd buf size q).
Definition pwrite_fd (fd : Z) (buf : bytes) (count offset : Z) : proc K -> outcome (Z * proc K) :=
  on_file fd (fun ops q => @pwrite world K ops _ dceil fd buf count offset q).
Definition read_fd (fd : Z) (buf : bytes) (size : Z) : proc K -> outcome (Z * bytes * proc K) :=
  on_file fd (fun ops q => @read world K ops _ dceil fd buf size q).
Definition pread_fd (fd : Z) (buf : bytes) (count offset : Z) : proc K -> outcome (Z * bytes * proc K) :=
  on_file fd (fun ops q => @pread world K ops _ dceil fd buf count offset q).

End calls.
