(* ===== verification/Variants.v ===== *)
(** * More interposed calls

    The remaining calls of src/tools/imss_posix.c on names and descriptors:
    the other members of the [stat] family, [statvfs] and [statfs], streams
    ([fopen], [fdopen], [feof]), vectored reads and writes, and the calls that
    are accepted and do nothing or are handed to the C library as they are.
    The mode strings of [fopen] are those of src/tools/flags.c. *)

From S2P Require Import Prelude Types Paths Store DataServer Wire Sessions Client Comms MetaStore Elasticity MetaServer Datasets BlockService FileIO Posix EndToEnd LocalMap Files Calls.

Definition KB : Z := 1024.
Definition SSIZE_MAX : Z := 2 ^ 63 - 1.
Definition EINVAL : Z := 22.
Definition EDEADLK : Z := 35.
Definition O_RDONLY : Z := 0.
Definition O_WRONLY : Z := 1.
Definition O_RDWR : Z := 2.
Definition O_APPEND : Z := 1024.
Definition ALLPERMS : Z := 4095.

(** [struct statvfs]; [struct statfs] has the fields the code sets. *)
Record vfs := mkVfs {
  f_bsize : Z; f_frsize : Z; f_blocks : Z; f_bfree : Z; f_bavail : Z;
  f_files : Z; f_ffree : Z; f_favail : Z; f_namemax : Z
}.

(** The C library calls with other results. *)
Class FsLibc (K : Type) := {
  libc_vfs : libc_call -> vfs -> K -> Z * vfs * K;
  libc_readv : Z -> list bytes -> K -> Z * list bytes * K;
  libc_text : libc_call -> K -> option bytes * K
}.

(** ** [struct statx] *)

Record statx_buf := mkStatx {
  stx_mask : Z; stx_blksize : Z; stx_attributes : Z; stx_nlink : Z; stx_uid : Z; stx_gid : Z; stx_mode : Z;
  stx_ino : Z; stx_size : Z; stx_blocks : Z; stx_atime : Z * Z; stx_ctime : Z * Z; stx_mtime : Z * Z;
  stx_rdev : Z * Z; stx_dev : Z * Z
}.
Definition STATX_BASIC_STATS : Z := 2047.

(** [major] and [minor] of glibc. *)
Definition major (dev : Z) : Z :=
  u32 (Z.lor (Z.land (Z.shiftr dev 8) 4095) (Z.land (Z.shiftr dev 32) (u32 (-1) - 4095))).
Definition minor (dev : Z) : Z := u32 (Z.lor (Z.land dev 255) (Z.land (Z.shiftr dev 12) (u32 (-1) - 255))).

(** [copy_stat_to_statx]: fields of [struct statx] are narrower, and only the
    seconds of the times are copied. *)
Definition copy_stat_to_statx (src : stat) : statx_buf :=
  mkStatx STATX_BASIC_STATS (u32 (st_blksize src)) 0 (u32 (st_nlink src)) (st_uid src) (st_gid src)
    (st_mode src mod 2 ^ 16) (st_ino src) (u64 (st_size src)) (u64 (st_blocks src))
    (fst (st_atim src), 0) (fst (st_ctim src), 0) (fst (st_mtim src), 0)
    (major (st_rdev src), minor (st_rdev src)) (major (st_dev src), minor (st_dev src)).

(** ** Mode strings *)

(** [__sflags_]: 0 for an illegal mode, otherwise a non-zero value; and the
    flags for [open]. *)
Definition __SRD : Z := 1.
Definition __SWR : Z := 2.
Definition __SRW : Z := 256.
Definition sflags (mode : bytes) : Z * Z :=
  match mode with
  | c :: rest =>
      let plus := match rest with
                  | a :: b => ascii_eqb a "+" || (ascii_eqb a "b" && match b with d :: _ => ascii_eqb d "+" | [] => false end)
                  | [] => false
                  end in
      let done_ ret m o := if plus then (__SRW, Z.lor O_RDWR o) else (ret, Z.lor m o) in
      if ascii_eqb c "r" then done_ __SRD O_RDONLY 0
      else if ascii_eqb c "w" then done_ __SWR O_WRONLY (Z.lor O_CREAT O_TRUNC)
      else if ascii_eqb c "a" then done_ __SWR O_WRONLY (Z.lor O_CREAT O_APPEND)
      else (0, 0)
  | [] => (0, 0)
  end.

(** ** Vectors of buffers *)

(** The total length; [None] past [SSIZE_MAX]. *)
Fixpoint iov_bytes (iov : list bytes) (bytes_ : Z) : option Z :=
  match iov with
  | [] => Some bytes_
  | b :: iov => if SSIZE_MAX - bytes_ <? strlen b then None else iov_bytes iov (bytes_ + strlen b)
  end.

(** The buffers copied one after the other. *)
Fixpoint gather (iov : list bytes) (to_copy : Z) : bytes :=
  match iov with
  | [] => []
  | b :: iov =>
      let copy := Z.min (strlen b) to_copy in
      take (Z.to_nat copy) b ++ (if to_copy - copy =? 0 then [] else gather iov (to_copy - copy))
  end.

(** The bytes read, distributed over the buffers. *)
Fixpoint scatter (iov : list bytes) (buffer : bytes) (n : Z) : list bytes :=
  match iov with
  | [] => []
  | b :: iov =>
      let copy := Z.min (strlen b) n in
      (take (Z.to_nat copy) buffer ++ drop (Z.to_nat copy) b)
        :: (if n - copy =? 0 then iov else scatter iov (drop (Z.to_nat copy) buffer) (n - copy))
  end.

Section variants.
Context {K : Type} `{FileLibc K} `{Libc K} `{FsLibc K}.
Context (stack : bytes) (e : env) (fresh_shm : gmap Z bytes -> Z) (MALLEABILITY_ON : bool)
  (matching_server_id : Z) (menv_of : Z -> menv) (stat_id : Z -> Z) (imssd_pos : Z)
  (table_order : Sessions.table -> list bytes) (cfg : config) (dceil : Z -> Z -> Z)
  (scratch : bytes) (now : Z * Z).
Context (MOUNT_POINT : bytes) (IMSS_BLKSIZE : Z).
Context (hercules_move : bytes -> bytes -> bytes -> proc K -> outcome (Z * proc K)).

Abbreviation do_getattr := (getattr stack e fresh_shm matching_server_id menv_of imssd_pos dceil scratch).
Abbreviation do_attributes := (attributes stack e fresh_shm matching_server_id menv_of imssd_pos dceil scratch).
Abbreviation do_general_open :=
  (generalOpen stack e fresh_shm MALLEABILITY_ON matching_server_id menv_of imssd_pos cfg dceil scratch now).
Abbreviation path_of := (hercules_path MOUNT_POINT).

(** ** The [stat] family *)

(** Attributes of a name, with the C library's call for other names. *)
Definition stat_via (c : libc_call) (pathname : bytes) (p : proc K) : outcome (Z * stat * proc K) :=
  let p := set_perr 0 p in
  let* h := path_of pathname p in
  match h with
  | Some path => do_attributes path p
  | None => Ret (real_stat c p)
  end.

Definition lxstat (pathname : bytes) : proc K -> outcome (Z * stat * proc K) := stat_via (C_lstat pathname) pathname.
Definition lxstat64 (pathname : bytes) : proc K -> outcome (Z * stat * proc K) := stat_via (C_lstat pathname) pathname.
Definition xstat (pathname : bytes) : proc K -> outcome (Z * stat * proc K) := stat_via (C_stat pathname) pathname.
Definition xstat64 (pathname : bytes) : proc K -> outcome (Z * stat * proc K) := stat_via (C_stat pathname) pathname.
Definition lstat (pathname : bytes) : proc K -> outcome (Z * stat * proc K) := stat_via (C_lstat pathname) pathname.
Definition stat64 (pathname : bytes) : proc K -> outcome (Z * stat * proc K) := stat_via (C_stat pathname) pathname.

(** [lstat64] of a Hercules name asks the C library all the same. *)
Definition lstat64 (pathname : bytes) (p : proc K) : outcome (Z * stat * proc K) :=
  let p := set_perr 0 p in
  let* _ := path_of pathname p in Ret (real_stat (C_lstat pathname) p).

(** Attributes of a descriptor. *)
Definition fstat_via (c : libc_call) (fd : Z) (p : proc K) : outcome (Z * stat * proc K) :=
  let p := set_perr 0 p in
  match named fd p with
  | Some path => do_attributes path p
  | None => Ret (real_stat c p)
  end.
Definition fstat64 (fd : Z) : proc K -> outcome (Z * stat * proc K) := fstat_via (C_fstat fd) fd.
Definition fxstat (fd : Z) : proc K -> outcome (Z * stat * proc K) := fstat_via (C_fstat fd) fd.
Definition fxstat64 (fd : Z) : proc K -> outcome (Z * stat * proc K) := fstat_via (C_fstat fd) fd.

Definition fxstatat64 (dir_fd : Z) (pathname : bytes) (flags : Z) (p : proc K) : outcome (Z * stat * proc K) :=
  at_call MOUNT_POINT dir_fd pathname (fun a p => stat64 a p)
    (fun p => real_stat (C_fstatat dir_fd pathname flags) p) p.

(** [fstatat], [fstatat64] and [newfstatat] are not supported: the C library
    answers for the descriptor that stands for the directory. *)
Definition fstatat (dir_fd : Z) (pathname : bytes) (flags : Z) (p : proc K) : Z * stat * proc K :=
  real_stat (C_fstatat dir_fd pathname flags) p.
Definition fstatat64 (dir_fd : Z) (pathname : bytes) (flags : Z) (p : proc K) : Z * stat * proc K :=
  real_stat (C_fstatat dir_fd pathname flags) p.

(** [statx]: the directory descriptor is not used; the C library's answer for
    other names is not modelled beyond its result. *)
Definition statx (dirfd : Z) (pathname : bytes) (flags mask : Z) (p : proc K)
  : outcome (Z * option statx_buf * proc K) :=
  let p := set_perr 0 p in
  let* h := path_of pathname p in
  match h with
  | Some path =>
      let* (r, st, p) := do_attributes path p in
      Ret (r, if r <? 0 then None else Some (copy_stat_to_statx st), p)
  | None => let '(r, p) := real (C_statx dirfd pathname flags mask) p in Ret (r, None, p)
  end.

(** ** File system information *)

(** [statvfs] reports a fixed capacity of 100 GB. *)
Definition statvfs (file : bytes) (buf : vfs) (p : proc K) : outcome (Z * vfs * proc K) :=
  let p := set_perr 0 p in
  let* h := path_of file p in
  match h with
  | Some _ =>
      let block_size := u64 (IMSS_BLKSIZE * KB) in
      let total_size_bytes := 1024 * 1024 * 1024 * 100 in
      if block_size =? 0 then Undef DivByZero
      else
        let blocks := total_size_bytes / block_size in
        Ret (0, mkVfs block_size block_size blocks blocks blocks 1000000 1000000 1000000 URI_, p)
  | None => let '(r, buf, k) := libc_vfs (C_statvfs file) buf (pk p) in Ret (r, buf, set_pk k p)
  end.

(** The 64-bit and [statfs] versions set the block size and the longest name,
    and leave the rest of the caller's buffer as it was. *)
Definition block_and_name (c : libc_call) (path : bytes) (buf : vfs) (p : proc K) : outcome (Z * vfs * proc K) :=
  let p := set_perr 0 p in
  let* h := path_of path p in
  match h with
  | Some _ =>
      Ret (0, mkVfs (u64 (IMSS_BLKSIZE * KB)) (f_frsize buf) (f_blocks buf) (f_bfree buf) (f_bavail buf) (f_files buf)
                (f_ffree buf) (f_favail buf) URI_, p)
  | None => let '(r, buf, k) := libc_vfs c buf (pk p) in Ret (r, buf, set_pk k p)
  end.
Definition statvfs64 (path : bytes) : vfs -> proc K -> outcome (Z * vfs * proc K) := block_and_name (C_statvfs path) path.
Definition statfs (path : bytes) : vfs -> proc K -> outcome (Z * vfs * proc K) := block_and_name (C_statfs path) path.
Definition statfs64 (path : bytes) : vfs -> proc K -> outcome (Z * vfs * proc K) := block_and_name (C_statfs path) path.

(** For a descriptor the C library answers, for [/dev/null]. *)
Definition fstatvfs (fd : Z) (buf : vfs) (p : proc K) : Z * vfs * proc K :=
  let p := set_perr 0 p in let '(r, buf, k) := libc_vfs (C_fstatvfs fd) buf (pk p) in (r, buf, set_pk k p).

(** The pointers to the C library's functions that have been looked up. *)
Record looked_up := mkLooked { have_fstatfs : bool; have_fstatfs64 : bool }.
Definition fstatfs (fd : Z) (buf : vfs) (l : looked_up) (p : proc K) : Z * vfs * looked_up * proc K :=
  let p := set_perr 0 p in
  let '(r, buf, k) := libc_vfs (C_fstatfs fd) buf (pk p) in (r, buf, mkLooked true (have_fstatfs64 l), set_pk k p).

(** [fstatfs64] looks its function up when that of [fstatfs] is missing. *)
Definition fstatfs64 (fd : Z) (buf : vfs) (l : looked_up) (p : proc K) : outcome (Z * vfs * looked_up * proc K) :=
  let l := if have_fstatfs l then l else mkLooked false true in
  if negb (have_fstatfs64 l) then Undef NullDeref
  else
    let p := set_perr 0 p in
    let '(r, buf, k) := libc_vfs (C_fstatfs fd) buf (pk p) in Ret (r, buf, l, set_pk k p).

(** ** Names *)

(** [realpath] and [__realpath_chk] of a Hercules name copy it as it was given
    into the caller's buffer, of [size] bytes; [None] is a null pointer. *)
Definition realpath (pathname : bytes) (size : option Z) (p : proc K) : outcome (option bytes * proc K) :=
  let p := set_perr 0 p in
  let* h := path_of pathname p in
  match h with
  | Some _ =>
      match size with
      | None => Undef NullDeref
      | Some n => if n <=? strlen pathname then Undef OutOfBounds else Ret (Some pathname, p)
      end
  | None => let '(r, k) := libc_text (C_realpath pathname) (pk p) in Ret (r, set_pk k p)
  end.
Definition realpath_chk (pathname : bytes) (size : option Z) (p : proc K) : outcome (option bytes * proc K) :=
  let p := set_perr 0 p in
  let* h := path_of pathname p in
  match h with
  | Some _ =>
      match size with
      | None => Undef NullDeref
      | Some n => if n <=? strlen pathname then Undef OutOfBounds else Ret (Some pathname, p)
      end
  | None => let '(r, k) := libc_text (C_realpath pathname) (pk p) in Ret (r, set_pk k p)
  end.

(** Links are read, made and files truncated by the C library, whatever the
    name. *)
Definition readlink (pathname : bytes) (p : proc K) : outcome (option bytes * proc K) :=
  let* _ := path_of pathname p in
  let '(r, k) := libc_text (C_readlink pathname) (pk p) in Ret (r, set_pk k p).
Definition readlinkat (dirfd : Z) (pathname : bytes) (p : proc K) : outcome (option bytes * proc K) :=
  let* _ := path_of pathname p in
  let '(r, k) := libc_text (C_readlinkat dirfd pathname) (pk p) in Ret (r, set_pk k p).
Definition symlink (name1 name2 : bytes) (p : proc K) : outcome (Z * proc K) :=
  let p := set_perr 0 p in
  let* _ := path_of name1 p in
  let* _ := path_of name2 p in
  Ret (real (C_symlink name1 name2) p).
Definition truncate (path : bytes) (length : Z) (p : proc K) : Z * proc K := real (C_truncate path length) p.

(** The directory descriptor of [fchmodat] is not used. *)
Definition fchmodat (dir_fd : Z) (pathname : bytes) (mode flags : Z) (p : proc K) : outcome (Z * proc K) :=
  let p := set_perr 0 p in
  let* h := path_of pathname p in
  match h with
  | Some path =>
      let* (r, f) := imss_chmod stack e fresh_shm MALLEABILITY_ON matching_server_id menv_of imssd_pos scratch
                       path mode (pf p) in
      Ret (r, set_pf f p)
  | None => Ret (real (C_fchmodat dir_fd pathname mode flags) p)
  end.

Definition do_rename : bytes -> bytes -> proc K -> outcome (Z * proc K) :=
  rename stack e fresh_shm matching_server_id menv_of stat_id imssd_pos table_order dceil scratch MOUNT_POINT
    hercules_move.

(** [renameat2]: the name below the directory is built and not used. *)
Definition renameat2 (olddirfd : Z) (oldpath : bytes) (newdirfd : Z) (newpath : bytes) (flags : Z) (p : proc K)
  : outcome (Z * proc K) :=
  let p := set_perr 0 p in
  let* (old_dir, old_new) := ResolvePathsAndFD MOUNT_POINT olddirfd oldpath p in
  let* (new_dir, new_new) := ResolvePathsAndFD MOUNT_POINT newdirfd newpath p in
  match old_dir, old_new, new_dir, new_new with
  | [], None, [], None => Ret (real (C_renameat2 olddirfd oldpath newdirfd newpath flags) p)
  | _, _, _, _ =>
      if IsAbsolutePath oldpath =? 1 then do_rename oldpath newpath p
      else if newdirfd =? AT_FDCWD then do_rename oldpath newpath p
      else let* _ := absolute_pathname MOUNT_POINT new_dir newpath in do_rename oldpath newpath p
  end.
Definition renameat (olddirfd : Z) (oldpath : bytes) (newdirfd : Z) (newpath : bytes) (p : proc K)
  : outcome (Z * proc K) := renameat2 olddirfd oldpath newdirfd newpath 0 p.

(** [utimensat] opens a file by the name as it was given; the mode passed on
    was never set. *)
Definition utimensat (dirfd : Z) (pathname : bytes) (flags : Z) (p : proc K) : outcome (Z * proc K) :=
  let opens a p := if has O_CREAT flags then Undef Uninitialised else do_general_open a flags 0 (-1) p in
  at_call MOUNT_POINT dirfd pathname opens (fun p => real (C_utimensat dirfd pathname flags) p) p.

(** ** Streams

    A stream is its descriptor, -1 for NULL. *)

Definition fopen (pathname mode : bytes) (p : proc K) : outcome (Z * proc K) :=
  let p := set_perr 0 p in
  let* h := path_of pathname p in
  match h with
  | Some path =>
      let '(flags, oflags) := sflags mode in
      if flags =? 0 then Ret (-1, set_perr EINVAL p)
      else
        let '(file, p) := real (C_fopen (B "/dev/null") mode) p in
        if file =? -1 then Ret (-1, p)
        else
          let* (ret, p) := do_general_open path oflags ALLPERMS file p in
          Ret (if ret <? 0 then -1 else file, p)
  | None => Ret (real (C_fopen pathname mode) p)
  end.

(** [fdopen] of a file of the table opens it by name; the stream is on the
    descriptor found there. *)
Definition fdopen (fildes : Z) (mode : bytes) (p : proc K) : outcome (Z * proc K) :=
  let p := set_perr 0 p in
  match named fildes p with
  | Some path =>
      let '(flags, new_mode) :=
        match strchr "w"%char mode with
        | Some _ => (Z.lor O_WRONLY (Z.lor O_CREAT O_TRUNC), 436)
        | None => (0, 0)
        end in
      let* (ret, p) := do_general_open path flags new_mode (-1) p in
      Ret (if ret <? 0 then -1 else ret, p)
  | None => Ret (real (C_fdopen fildes mode) p)
  end.

(** ** Positions *)

Definition lseek64 (fd offset whence : Z) (p : proc K) : outcome (Z * proc K) :=
  let p := set_perr 0 p in
  match named fd p with
  | None => Ret (real (C_lseek64 fd offset whence) p)
  | Some path =>
      let at_ ret p := (ret, set_ptab (map_fd_update_value path fd (u64 ret) (ptab p)) p) in
      if whence =? SEEK_SET then Ret (at_ offset p)
      else if whence =? SEEK_CUR
      then
        let '(r, pos) := map_fd_search fd 0 (ptab p) in
        Ret (if r <? 0 then (-1, set_perr (- r) p) else at_ (i64 (pos + offset)) p)
      else if whence =? SEEK_END
      then
        let* (r, st, f) := do_getattr path (pf p) in
        let p := set_pf f p in
        Ret (if r <? 0 then (-1, set_perr (- r) p) else at_ (i64 (offset + st_size st)) p)
      else Ret (-1, p)
  end.

(** The position of a directory stream is that of the C library's. *)
Definition seekdir (fd loc : Z) (p : proc K) : proc K :=
  let p := set_perr 0 p in
  match named fd p with
  | Some _ => set_dirpos (<[fd := loc]> (dirpos p)) p
  | None => snd (real (C_seekdir fd loc) p)
  end.

(** ** Vectored reads and writes *)

(** A write through [generalWrite] on the file of a descriptor. *)
Definition general_write_fd (fd : Z) (buf : bytes) (size offset : Z) : proc K -> outcome (Z * proc K) :=
  on_file stack e fresh_shm matching_server_id fd (fun ops q =>
    @generalWrite world K ops dceil (map_fd_search_by_val fd (fds q)) fd buf size offset q).

Definition writev (fd : Z) (iov : list bytes) (p : proc K) : outcome (Z * proc K) :=
  let p := set_perr 0 p in
  match named fd p with
  | None => Ret (real (C_writev fd iov) p)
  | Some _ =>
      match iov_bytes iov 0 with
      | None => Ret (-1, set_perr EINVAL p)
      | Some n =>
          match malloc e n with
          | None => Ret (-1, p)
          | Some _ => general_write_fd fd (gather iov n) n (u64 (-1)) p
          end
      end
  end.

Definition pwritev (fd : Z) (iov : list bytes) (offset : Z) (p : proc K) : outcome (Z * proc K) :=
  let p := set_perr 0 p in
  match named fd p with
  | None => Ret (real (C_pwritev fd iov offset) p)
  | Some _ =>
      match iov_bytes iov 0 with
      | None => Ret (-1, set_perr EINVAL p)
      | Some n =>
          match malloc e n with
          | None => Ret (-1, p)
          | Some _ => general_write_fd fd (gather iov n) n offset p
          end
      end
  end.

Definition pwrite64 (fd : Z) (buf : bytes) (count offset : Z) (p : proc K) : outcome (Z * proc K) :=
  let p := set_perr 0 p in
  match named fd p with
  | None => Ret (real (C_pwrite64 fd buf count offset) p)
  | Some _ => general_write_fd fd buf count offset p
  end.

(** [readv] reads into one buffer and copies. *)
Definition readv (fd : Z) (iov : list bytes) (p : proc K) : outcome (Z * list bytes * proc K) :=
  let p := set_perr 0 p in
  match named fd p with
  | None => let '(r, iov, k) := libc_readv fd iov (pk p) in Ret (r, iov, set_pk k p)
  | Some _ =>
      match iov_bytes iov 0 with
      | None => Ret (-1, iov, set_perr EINVAL p)
      | Some n =>
          match malloc e n with
          | None => Ret (-1, iov, p)
          | Some buffer =>
              let* (bytes_read, buffer, p) := read_fd stack e fresh_shm matching_server_id dceil fd buffer n p in
              if bytes_read <? 0 then Ret (-1, iov, p)
              else Ret (bytes_read, scatter iov buffer bytes_read, p)
          end
      end
  end.

(** ** Locks, synchronisation and control *)

(** No locks and nothing to synchronise for a Hercules file. *)
Definition flock (fd operation : Z) (p : proc K) : Z * proc K :=
  let p := set_perr 0 p in
  match named fd p with Some _ => (0, p) | None => real (C_flock fd operation) p end.
Definition fsync (fd : Z) (p : proc K) : Z * proc K :=
  match named fd p with Some _ => (0, p) | None => real (C_fsync fd) p end.

Definition F_SETLKW64 : Z := 7.
Definition F_OFD_GETLK : Z := 36.
Definition F_OFD_SETLK : Z := 37.
Definition F_OFD_SETLKW : Z := 38.
Definition F_DUPFD_CLOEXEC : Z := 1030.

(** [fcntl]: for the open-file-description locks the address of the pointer
    to the lock is passed on instead of the lock. *)
Definition fcntl (fd cmd : Z) (p : proc K) : outcome (Z * proc K) :=
  let p := set_perr 0 p in
  match named fd p with
  | None => Ret (real (C_fcntl fd cmd) p)
  | Some _ =>
      if cmd =? F_SETLKW64 then Ret (-1, set_perr EDEADLK p)
      else if cmd =? F_OFD_SETLKW then Ret (0, p)
      else if (cmd =? F_OFD_GETLK) || (cmd =? F_OFD_SETLK) then Undef OutOfBounds
      else if cmd =? F_DUPFD_CLOEXEC
      then on_file stack e fresh_shm matching_server_id fd (fun _ q => Ret (@dup world K _ fd q)) p
      else Ret (real (C_fcntl fd cmd) p)
  end.
End variants.

(** ** End-of-file and error marks of streams *)

Section marks.
Context {St K : Type} `{Libc K}.
Context (real_clearerr : Z -> K -> K) (real_ferror real_feof : Z -> K -> Z * K).

Definition clearerr (fd : Z) (q : pstate St K) : pstate St K :=
  let q := set_errno 0 q in
  match in_table fd q with
  | Some _ => mkP (fs q) (fds q) (kern q) (errno q) (eof_seen q ∖ {[ fd ]}) (err_seen q ∖ {[ fd ]})
  | None => set_kern (real_clearerr fd (kern q)) q
  end.
Definition ferror (fd : Z) (q : pstate St K) : Z * pstate St K :=
  let q := set_errno 0 q in
  match in_table fd q with
  | Some _ => (if decide (fd ∈ err_seen q) then 1 else 0, q)
  | None => let '(r, k) := real_ferror fd (kern q) in (r, set_kern k q)
  end.
Definition feof (fd : Z) (q : pstate St K) : Z * pstate St K :=
  let q := set_errno 0 q in
  match in_table fd q with
  | Some _ => (if decide (fd ∈ eof_seen q) then 1 else 0, q)
  | None => let '(r, k) := real_feof fd (kern q) in (r, set_kern k q)
  end.
End marks.

(** ** Vectors and one buffer *)

Lemma iov_bytes_all iov acc :
  0 <= acc -> acc + strlen (concat iov) <= SSIZE_MAX -> iov_bytes iov acc = Some (acc + strlen (concat iov)).
Proof.
  revert acc. induction iov as [|b iov IH]; intros acc Ha Hs; cbn [iov_bytes concat]; [by rewrite Z.add_0_r|].
  cbn [concat] in Hs. rewrite strlen_app in *. pose proof (Zle_0_nat (length b)). pose proof (Zle_0_nat (length (concat iov))).
  unfold strlen in *. destruct (Z.ltb_spec (SSIZE_MAX - acc) (Z.of_nat (length b))); [lia|].
  rewrite IH by lia. f_equal. lia.
Qed.

Lemma gather_all iov : gather iov (strlen (concat iov)) = concat iov.
Proof.
  induction iov as [|b iov IH]; [done|]. cbn [gather concat]. rewrite strlen_app.
  assert (0 <= strlen (concat iov)) by (unfold strlen; lia).
  rewrite Z.min_l by lia. unfold strlen at 1. rewrite Nat2Z.id, firstn_all. f_equal.
  replace (strlen b + strlen (concat iov) - strlen b) with (strlen (concat iov)) by lia.
  destruct (Z.eqb_spec (strlen (concat iov)) 0) as [E|E]; [|done].
  unfold strlen in E. by destruct (concat iov).
Qed.

(** The buffers together hold the bytes read, then what they held before. *)
Lemma scatter_concat iov buffer n :
  0 <= n <= strlen (concat iov) -> n <= strlen buffer ->
  concat (scatter iov buffer n) = take (Z.to_nat n) buffer ++ drop (Z.to_nat n) (concat iov).
Proof.
  revert buffer n. induction iov as [|b iov IH]; intros buffer n Hn Hb; cbn [scatter concat].
  { unfold strlen in *. cbn in *. replace n with 0 by lia. done. }
  cbn [concat] in Hn. rewrite strlen_app in Hn. unfold strlen in *.
  destruct (Z.eqb_spec (n - Z.min (Z.of_nat (length b)) n) 0) as [E|E].
  - assert (Z.min (Z.of_nat (length b)) n = n) as -> by lia. rewrite <- app_assoc. f_equal.
    rewrite drop_app_le by lia. done.
  - assert (Z.min (Z.of_nat (length b)) n = Z.of_nat (length b)) as -> by lia.
    rewrite Nat2Z.id, drop_all, app_nil_r. rewrite IH by (rewrite ?length_drop; lia).
    rewrite drop_app_ge by lia. rewrite Z2Nat.inj_sub, Nat2Z.id by lia.
    rewrite app_assoc, take_take_drop. do 2 f_equal. lia.
Qed.

Section vectors.
Context {K : Type} `{FileLibc K} `{Libc K} `{FsLibc K}.
Context (stack : bytes) (e : env) (fresh_shm : gmap Z bytes -> Z) (matching : Z) (dceil : Z -> Z -> Z).
Implicit Types p : proc K.

Lemma general_write_plain fd path buf n off p :
  named fd p = Some path ->
  general_write_fd stack e fresh_shm matching dceil fd buf n off (set_perr 0 p)
  = pwrite_fd stack e fresh_shm matching dceil fd buf n off p /\
  general_write_fd stack e fresh_shm matching dceil fd buf n (u64 (-1)) (set_perr 0 p)
  = write_fd stack e fresh_shm matching dceil fd buf n p.
Proof.
  intros Hn. unfold general_write_fd, pwrite_fd, write_fd, on_file. cbn [ptab set_perr].
  unfold named in Hn. destruct (map_fd_search_by_val fd (ptab p)) as [|c r] eqn:Hs; [done|]. injection Hn as <-.
  unfold to_posix. cbn [pf ptab pk perr set_perr].
  destruct (find_fd (c :: r) (pf p)) as [[d st]| |]; try done. cbn [obind].
  unfold pwrite, write, in_table. cbn [fds set_errno]. rewrite Hs. unfold set_errno. cbn [fs fds kern eof_seen err_seen].
  done.
Qed.

(** C22. Vectored I/O on a Hercules descriptor is plain I/O on the concatenated
    buffers: [writev] and [pwritev] write the concatenation, and after [readv]
    the buffers together hold the bytes the plain read returned, followed by
    what they held before. *)
Theorem vectored_is_plain (fd off : Z) (path : bytes) (iov : list bytes) (buffer : bytes) p
  (Hn : named fd p = Some path) (Hfit : strlen (concat iov) <= SSIZE_MAX)
  (Hm : malloc e (strlen (concat iov)) = Some buffer) :
  writev stack e fresh_shm matching dceil fd iov p
  = write_fd stack e fresh_shm matching dceil fd (concat iov) (strlen (concat iov)) p /\
  pwritev stack e fresh_shm matching dceil fd iov off p
  = pwrite_fd stack e fresh_shm matching dceil fd (concat iov) (strlen (concat iov)) off p /\
  forall n out p', read_fd stack e fresh_shm matching dceil fd buffer (strlen (concat iov)) (set_perr 0 p)
                   = Ret (n, out, p') -> 0 <= n <= strlen (concat iov) -> n <= strlen out ->
    exists iov', readv stack e fresh_shm matching dceil fd iov p = Ret (n, iov', p') /\
      concat iov' = take (Z.to_nat n) out ++ drop (Z.to_nat n) (concat iov).
Proof.
  assert (iov_bytes iov 0 = Some (strlen (concat iov))) as Hb by (by apply (iov_bytes_all iov 0)).
  assert (named fd (set_perr 0 p) = Some path) as Hn' by done.
  unfold writev, pwritev, readv. rewrite Hn', Hb, Hm, gather_all. split; [|split].
  - by apply (general_write_plain fd path _ _ off).
  - by apply (general_write_plain fd path).
  - intros n out p' Hr Hn0 Ho. rewrite Hr. cbn [obind]. destruct (Z.ltb_spec n 0); [lia|].
    eexists. split; [done|]. by apply scatter_concat.
Qed.
End vectors.

(** The first [fstatfs64] after an [fstatfs] calls a null pointer: the address
    it needs is only looked up while the other one is missing. *)
Theorem fstatfs_breaks_fstatfs64 {K : Type} `{FileLibc K} `{FsLibc K} (fd fd' : Z) (b b' : vfs) (p : proc K) :
  let '(_, _, l, p1) := fstatfs fd b (mkLooked false false) p in
  fstatfs64 fd' b' l p1 = Undef NullDeref.
Proof. unfold fstatfs. by destruct (libc_vfs _ _ _) as [[r b1] k]. Qed.

(** [statvfs] reports free blocks that are not more than all blocks, and a
    capacity that is a multiple of the block size and at most 100 GB. *)
Theorem statvfs_consistent {K : Type} `{FileLibc K} `{FsLibc K} (MOUNT_POINT file path : bytes) (blk : Z) (buf : vfs)
  (p : proc K) (Hname : hercules_path MOUNT_POINT file p = Ret (Some path)) (Hblk : 0 < blk < 2 ^ 50) :
  exists v, statvfs MOUNT_POINT blk file buf p = Ret (0, v, set_perr 0 p) /\
    f_bsize v = blk * KB /\ f_frsize v = f_bsize v /\ f_bavail v <= f_bfree v <= f_blocks v /\
    f_blocks v * f_frsize v <= 100 * 2 ^ 30 < (f_blocks v + 1) * f_frsize v.
Proof.
  unfold statvfs. change (hercules_path MOUNT_POINT file (set_perr 0 p)) with (hercules_path MOUNT_POINT file p).
  rewrite Hname. cbn [obind]. unfold KB. rewrite u64_small by lia.
  destruct (Z.eqb_spec (blk * 1024) 0); [lia|]. eexists. split; [done|]. cbn [f_bsize f_frsize f_bavail f_bfree f_blocks].
  split; [done|]. split; [done|]. split; [lia|].
  change (1024 * 1024 * 1024 * 100) with (100 * 2 ^ 30).
  pose proof (Z.div_mod (100 * 2 ^ 30) (blk * 1024) ltac:(lia)). pose proof (Z.mod_pos_bound (100 * 2 ^ 30) (blk * 1024)).
  nia.
Qed.
