(* ===== verification/Process.v ===== *)
(** * What a process sees

    Theorems on the interposed calls of Calls.v: listing a directory, opening
    and closing, removal of open files and the working directory. *)

From S2P Require Import Prelude Types Paths Store DataServer Wire Sessions Client Comms MetaStore Elasticity MetaServer Datasets Lifecycle MetaClient BlockService FileIO Posix EndToEnd LocalMap Files FileLife Calls Variants.

(** ** A process on two data servers and one metadata server

    The C library of the examples hands out descriptors in order and has no
    files. *)

#[local] Instance counter_libc : FileLibc Z := {|
  libc c k := match c with C_open _ _ _ | C_opendir _ | C_fopen _ _ => (k, k + 1) | _ => (0, k) end;
  libc_stat _ k := (-1, mkStat 0 0 0 0, k);
  libc_readdir _ k := (None, k);
  libc_cwd _ := Some (B "/home/u")
|}.
#[local] Instance counter_descriptors : Libc Z := {|
  real_write _ _ _ k := (-1, k);
  real_pwrite _ _ _ _ k := (-1, k);
  real_read _ b _ k := (-1, b, k);
  real_pread _ b _ _ k := (-1, b, k);
  real_lseek _ _ _ k := (-1, k);
  real_fwrite _ _ _ _ k := (0, k);
  real_fread b _ _ _ k := (0, b, k);
  real_fseek _ _ _ k := (-1, k);
  real_rewind _ k := k;
  real_ftell _ k := (-1, k);
  real_dup _ k := (-1, k);
  real_dup2 _ _ k := (-1, k);
  real_open_null k := (k, k + 1)
|}.

Definition mount : bytes := B "/mnt/hercules/".
Definition start (f : fsys) : proc Z :=
  mkProc f ∅ 3 0 (Some (B "/home/u")) ∅ (mkListing true [] 0 0).

(** ** Listing a directory *)

(** A name [readdir] reports as it is stored. *)
Definition plain_name (n : bytes) : Prop :=
  (NUL ∉ n) /\ prefixb n (B "..") = false /\ last_is slash n = false /\ strlen n < 256.

Section listing.
Context {K : Type} `{FileLibc K} `{Libc K}.
Context (stack : bytes) (e : env) (menv_of : Z -> menv) (stat_id : Z -> Z).
Implicit Types p : proc K.

Abbreviation readdir := (readdir stack e menv_of stat_id).

(** The loop of a program that lists a directory. *)
Fixpoint list_dir (fuel : nat) (fd : Z) (p : proc K) : outcome (option (list (bytes * Z)) * proc K) :=
  match fuel with
  | O => Ret (None, p)
  | S n =>
      let* (x, p) := readdir fd p in
      match x with
      | None => Ret (Some [], p)
      | Some x => let* (l, p) := list_dir n fd p in Ret (cons x <$> l, p)
      end
  end.

Lemma list_dir_more n fd p x p' :
  readdir fd p = Ret (Some x, p') ->
  list_dir (S n) fd p = let* (l, p') := list_dir n fd p' in Ret (cons x <$> l, p').
Proof. intros Hr. cbn [list_dir]. by rewrite Hr. Qed.

(** The stream [fd] of [path] after [pos] entries, the listing being loaded. *)
Definition listing_at (path : bytes) (names : list bytes) (pos fd : Z) p : Prop :=
  named fd p = Some path /\ perr p = 0 /\ dirpos p !! fd = Some pos /\
  globals p = mkListing false (put_str 256 path :: (put_str 256 <$> (app (with_slash path) <$> names)))
                (Z.of_nat (length names) + 1) (strlen (with_slash path)).

Definition at_position (pos fd : Z) p : proc K := set_dirpos (<[fd := pos]> (dirpos p)) p.
Definition at_end p : proc K :=
  set_globals (mkListing true [] (n_ent (globals p)) (imss_path_len (globals p))) p.

Lemma strlen_with_slash path :
  strlen (with_slash path) = if last_is slash path then strlen path else strlen path + 1.
Proof. unfold with_slash. destruct (last_is slash path); [done|]. by rewrite strlen_app. Qed.

Lemma entry_plain n : plain_name n -> entry_of n = (n, DT_REG).
Proof.
  intros (_ & Hn & Hs & _). unfold entry_of. rewrite Hn, Hs.
  destruct (prefixb n (B ".")) eqn:E; [|done]. destruct n as [|a [|b n]]; cbn in *; [done| |].
  - by rewrite Hn in E.
  - by destruct (ascii_eqb a _).
Qed.

Lemma token_slot path names g pos n :
  ori_buf g = put_str 256 path :: (put_str 256 <$> (app (with_slash path) <$> names)) ->
  imss_path_len g = strlen (with_slash path) -> strlen (with_slash path) < URI_ ->
  plain_name n -> names !! pos = Some n -> token_at (Z.of_nat pos + 2) g = Ret n.
Proof.
  intros Hb Hl Hu (Hn & _) Hpos. unfold token_at.
  destruct (Z.eqb_spec (Z.of_nat pos + 2) 0); [lia|]. destruct (Z.eqb_spec (Z.of_nat pos + 2) 1); [lia|].
  assert (ori_buf g !! S pos = Some (put_str 256 (with_slash path ++ n))) as Hg.
  { rewrite Hb. change ((?x :: ?l) !! S pos) with (l !! pos). by rewrite !list_lookup_fmap, Hpos. }
  replace (Z.to_nat (Z.of_nat pos + 2 - 1)) with (S pos) by lia. rewrite Hg, Hl.
  destruct (Z.leb_spec URI_ (strlen (with_slash path))); [lia|]. unfold put_str, strlen.
  rewrite Nat2Z.id, <- app_assoc, drop_app_length. f_equal.
  rewrite length_app, Nat.sub_add_distr. by apply (cstr_put_str (256 - length (with_slash path))).
Qed.

Lemma readdir_loaded path names pos fd p token :
  listing_at path names pos fd p -> 0 <= pos < Z.of_nat (length names) + 2 ->
  Z.of_nat (length names) * URI_ < 2 ^ 31 -> token_at pos (globals p) = Ret token ->
  strlen token < 256 -> strlen (with_slash path) < URI_ ->
  readdir fd p = Ret (Some (entry_of token), at_position (pos + 1) fd p).
Proof.
  intros (Hn & He & Hd & Hg) Hpos Hfit Ht Hs Hu. unfold readdir.
  replace (set_perr 0 p) with p by (destruct p; cbn in *; by subst).
  rewrite Hn. unfold load_listing. rewrite Hg in Ht |- *. cbn [to_read obind]. rewrite Hd, Hg. cbn [default n_ent id].
  rewrite u32_small by (unfold URI_ in *; lia).
  destruct (Z.ltb_spec pos (Z.of_nat (length names) + 1 + 1)); [|lia]. rewrite Ht. cbn [obind].
  rewrite strlen_with_slash in Hu. unfold URI_, PATH_MAX in *.
  destruct (Z.leb_spec 256 (strlen token)); [lia|]. cbn [orb].
  destruct (Z.leb_spec 4096 (strlen path + 1 + strlen token)); [destruct (last_is slash path); lia|]. done.
Qed.

Lemma listing_at_step path names pos fd p :
  listing_at path names pos fd p -> listing_at path names (pos + 1) fd (at_position (pos + 1) fd p).
Proof. intros (Hn & He & _ & Hg). repeat split; try done. cbn. apply lookup_insert_eq. Qed.

(** The rest of a listing. *)
Lemma list_dir_rest path names rest fd p done_ :
  names = done_ ++ rest -> Forall plain_name names -> Z.of_nat (length names) * URI_ < 2 ^ 31 ->
  strlen (with_slash path) < URI_ -> listing_at path names (Z.of_nat (length done_) + 2) fd p ->
  exists p', list_dir (S (length rest)) fd p = Ret (Some ((fun n => (n, DT_REG)) <$> rest), p') /\
    p' = at_end (at_position (Z.of_nat (length names) + 2) fd p).
Proof.
  intros Hnames Hplain Hfit Hu. revert done_ p Hnames. induction rest as [|n rest IH]; intros done_ p Hnames Hat.
  - rewrite app_nil_r in Hnames. subst done_. eexists. split; [|done].
    destruct Hat as (Hn & He & Hd & Hg). cbn [list_dir]. unfold Calls.readdir.
    replace (set_perr 0 p) with p by (destruct p; cbn in *; by subst).
    rewrite Hn. unfold load_listing. rewrite Hg. cbn [to_read obind]. rewrite Hd, Hg. cbn [default n_ent id].
    rewrite u32_small by (unfold URI_ in *; lia).
    destruct (Z.ltb_spec (Z.of_nat (length names) + 2) (Z.of_nat (length names) + 1 + 1)); [lia|].
    cbn [obind]. do 2 f_equal. unfold at_end, at_position. cbn. rewrite Hg.
    rewrite insert_id by done. destruct p; done.
  - pose proof Hat as (_ & _ & _ & Hg).
    assert (plain_name n) as Hn by (rewrite Hnames in Hplain; apply Forall_app in Hplain as [_ [? _]%Forall_cons]; done).
    assert (names !! length done_ = Some n) as Hat_n by (rewrite Hnames; by apply list_lookup_middle).
    assert (length names = length done_ + S (length rest))%nat as Hlen by (by rewrite Hnames, length_app).
    cbn [list_dir].
    rewrite (readdir_loaded path names _ fd p n Hat); try done; try lia; [| |apply Hn].
    2:{ apply token_slot with path names; try done; by rewrite Hg. }
    cbn [obind]. rewrite entry_plain by done.
    destruct (IH (done_ ++ [n]) (at_position (Z.of_nat (length done_) + 2 + 1) fd p)) as (p' & Hl & ->).
    + by rewrite <- app_assoc.
    + rewrite length_app. cbn [length]. replace (Z.of_nat (length done_ + 1) + 2) with (Z.of_nat (length done_) + 2 + 1) by lia.
      by apply listing_at_step.
    + cbn [length]. rewrite Hl. eexists. split; [done|]. unfold at_end, at_position. cbn. by rewrite insert_insert_eq.
Qed.

(** The listing as the first [readdir] loads it. *)
Definition loaded (path : bytes) (names : list bytes) p : proc K :=
  set_globals (mkListing false (put_str 256 path :: (put_str 256 <$> (app (with_slash path) <$> names)))
                 (Z.of_nat (length names) + 1) (strlen (with_slash path))) (set_perr 0 p).

Lemma readdir_first path names fd p :
  named fd p = Some path -> to_read (globals p) = true -> Z.of_nat (length names) * URI_ < 2 ^ 31 ->
  get_dir stack e menv_of stat_id path (sess (pf p))
  = Ret (Z.of_nat (length names) + 1, put_str 256 path :: (put_str 256 <$> (app (with_slash path) <$> names)),
         sess (pf p)) ->
  readdir fd p = readdir fd (loaded path names p).
Proof.
  intros Hn Hr Hfit Hget. unfold Calls.readdir. change (named fd (set_perr 0 ?x)) with (named fd x).
  change (named fd (loaded path names p)) with (named fd p). rewrite Hn.
  assert (load_listing stack e menv_of stat_id path (set_perr 0 p) = Ret (loaded path names p)) as ->; [|done].
  unfold load_listing. cbn [globals pf set_perr]. rewrite Hr. unfold imss_readdir. rewrite Hget. cbn [obind].
  rewrite u32_small by (unfold URI_ in *; lia). unfold loaded. rewrite strlen_with_slash.
  do 2 f_equal. unfold set_pf, set_perr. cbn. f_equal. by destruct p as [[]].
Qed.

Lemma list_dir_loaded path names fd p :
  Forall plain_name names -> Z.of_nat (length names) * URI_ < 2 ^ 31 -> strlen (with_slash path) < URI_ ->
  listing_at path names 0 fd p ->
  list_dir (length names + 3) fd p
  = Ret (Some ((B ".", DT_DIR) :: (B "..", DT_DIR) :: ((fun n => (n, DT_REG)) <$> names)),
         at_end (at_position (Z.of_nat (length names) + 2) fd p)).
Proof.
  intros Hplain Hfit Hu Hat. replace (length names + 3)%nat with (S (S (S (length names)))) by lia.
  pose proof (listing_at_step _ _ _ _ _ Hat) as Hat1. pose proof (listing_at_step _ _ _ _ _ Hat1) as Hat2.
  destruct (list_dir_rest path names names fd _ [] eq_refl Hplain Hfit Hu Hat2) as (p' & Hl & ->).
  rewrite (list_dir_more _ _ _ _ _ (readdir_loaded path names 0 fd p (B ".") Hat ltac:(lia) Hfit eq_refl eq_refl Hu)).
  rewrite (list_dir_more _ _ _ _ _ (readdir_loaded path names (0 + 1) fd _ (B "..") Hat1 ltac:(lia) Hfit eq_refl eq_refl Hu)).
  rewrite Hl. cbn [obind fmap option_fmap option_map]. unfold at_end, at_position. cbn.
  by rewrite !insert_insert_eq.
Qed.

(** C12. Opening a directory of the only metadata server and reading it until
    [readdir] returns NULL gives ["."], [".."] and the names of all its
    entries, without the directory and in order, a subdirectory as a regular
    file like the others; the servers are unchanged and the next listing starts
    afresh. *)
Theorem readdir_lists (MOUNT_POINT name path : bytes) (fd : Z) (k : K) p (m : mserver) (dm : meta_map)
  (names : list bytes)
  (Hname : hercules_path MOUNT_POINT name p = Ret (Some path)) (Hlibc : libc (C_opendir (B "/tmp")) (pk p) = (fd, k))
  (Hfd : fd <> -1) (Hfree : ptab p !! fd = None) (Hfresh : to_read (globals p) = true)
  (Hone : metas (sess (pf p)) = [m]) (Hbox : mbox (sess (pf p)) = []) (Hsend : send_ok e = true)
  (Hx : m_send_ok (menv_of 0) = true) (Hid : 0 <= stat_id 0 < 2 ^ 32)
  (Hhome : meta_home stack URI_ path (sess (pf p)) = Ret 0) (Hw : meta_word URI_ (with_slash path))
  (Hroot : rooted path)
  (Hd : hiermap (mstore m) !! map_key (menv_of 0) (with_slash path) = Some dm)
  (Hlen : Forall (fun f => (length f <= 256)%nat) (keys_of (buffer dm)))
  (Hnames : children (map_key (menv_of 0) (with_slash path)) dm = app (with_slash path) <$> names)
  (Hplain : Forall plain_name names) (Hfit : Z.of_nat (length names) * URI_ < 2 ^ 31) :
  exists p1 p2,
    opendir MOUNT_POINT name p = Ret (fd, p1) /\
    list_dir (length names + 3) fd p1
    = Ret (Some ((B ".", DT_DIR) :: (B "..", DT_DIR) :: ((fun n => (n, DT_REG)) <$> names)), p2) /\
    pf p2 = pf p /\ named fd p2 = Some path /\ to_read (globals p2) = true.
Proof.
  assert (path <> []) as Hne by (destruct Hroot as [q ->]; discriminate).
  assert (strlen (with_slash path) < URI_) as Hu by apply Hw.
  pose proof (get_dir_children stack e menv_of stat_id path (sess (pf p)) m dm Hone Hbox Hsend Hx Hid Hhome Hw Hne
    Hd Hlen) as Hget. rewrite Hnames, length_fmap in Hget.
  assert (Forall rooted (app (with_slash path) <$> names)) as Hr.
  { apply Forall_fmap, Forall_true. intros n. destruct Hroot as [q ->]. unfold compose, with_slash, rooted.
    destruct (last_is slash _); rewrite <- ?app_assoc; by eexists. }
  specialize (Hget Hr Hfit). cbn zeta in Hget. rewrite length_fmap in Hget.
  exists (remember_fd path fd (set_dirpos (<[fd := 0]> (dirpos p)) (set_pk k (set_perr 0 p)))).
  set (p1 := remember_fd _ _ _).
  assert (named fd p1 = Some path) as Hn1.
  { unfold p1, named, remember_fd, map_fd_put, map_fd_search_by_val. cbn. rewrite Hfree. cbn.
    rewrite lookup_insert_eq. by destruct path. }
  exists (at_end (at_position (Z.of_nat (length names) + 2) fd (loaded path names p1))). split; [|split].
  - unfold opendir. change (hercules_path MOUNT_POINT name (set_perr 0 p)) with (hercules_path MOUNT_POINT name p).
    rewrite Hname. cbn [obind]. unfold real. cbn [pk set_perr]. rewrite Hlibc.
    destruct (Z.eqb_spec fd (-1)); [lia|done].
  - rewrite <- (list_dir_loaded path names fd (loaded path names p1)); try done.
    + replace (length names + 3)%nat with (S (length names + 2)) by lia. cbn [list_dir].
      by rewrite (readdir_first path names).
    + repeat split; [done|]. cbn. apply lookup_insert_eq.
  - done.
Qed.

(** The listing belongs to the process and not to the stream: while the
    listing of one directory is loaded, [readdir] on the stream of any other
    directory gives the names of the first. *)
Theorem listings_are_shared (path path2 : bytes) (names : list bytes) (i : nat) (n : bytes) (pos fd fd2 : Z) p
  (Hat : listing_at path names pos fd p) (Hn2 : named fd2 p = Some path2)
  (Hpos : dirpos p !! fd2 = Some (Z.of_nat i + 2)) (Hi : names !! i = Some n) (Hplain : plain_name n)
  (Hfit : Z.of_nat (length names) * URI_ < 2 ^ 31) (Hu : strlen (with_slash path) < URI_) (Hu2 : strlen path2 < URI_) :
  readdir fd2 p = Ret (Some (n, DT_REG), at_position (Z.of_nat i + 3) fd2 p).
Proof.
  destruct Hat as (_ & He & _ & Hg). unfold readdir.
  replace (set_perr 0 p) with p by (destruct p; cbn in *; by subst).
  rewrite Hn2. unfold load_listing. rewrite Hg. cbn [to_read obind]. rewrite Hpos, Hg. cbn [default n_ent id].
  pose proof (lookup_lt_Some _ _ _ Hi) as Hlt. rewrite u32_small by (unfold URI_ in *; lia).
  destruct (Z.ltb_spec (Z.of_nat i + 2) (Z.of_nat (length names) + 1 + 1)); [|lia].
  rewrite (token_slot path names _ i n) by done. cbn [obind]. unfold URI_, PATH_MAX in *.
  destruct Hplain as (Hp1 & Hp2 & Hp3 & Hp4). destruct (Z.leb_spec 256 (strlen n)); [lia|]. cbn [orb].
  destruct (Z.leb_spec 4096 (strlen path2 + 1 + strlen n)); [lia|]. rewrite entry_plain by done.
  do 2 f_equal. unfold at_position. do 2 f_equal. lia.
Qed.
End listing.

Lemma readdir_lists_witness :
  exists p1 p2,
    opendir mount (B "/mnt/hercules/d") (start tree_fs) = Ret (3, p1) /\
    list_dir [] fs_env fs_menv (fun _ => 0) 5 3 p1
    = Ret (Some [(B ".", DT_DIR); (B "..", DT_DIR); (B "f", DT_REG); (B "s", DT_REG)], p2).
Proof.
  assert (children (map_key (fs_menv 0) (with_slash (B "imss://d"))) tree_map = [B "imss://d/f"; B "imss://d/s"])
    as Hc by (vm_compute; reflexivity).
  destruct (readdir_lists [] fs_env fs_menv (fun _ => 0) mount (B "/mnt/hercules/d") (B "imss://d") 3 4 (start tree_fs)
    tree_server tree_map [B "f"; B "s"]) as (p1 & p2 & H1 & H2 & _).
  - vm_compute. reflexivity.
  - reflexivity.
  - discriminate.
  - reflexivity.
  - reflexivity.
  - reflexivity.
  - reflexivity.
  - reflexivity.
  - reflexivity.
  - lia.
  - vm_compute. reflexivity.
  - split; [discriminate|]. split; [by repeat constructor|reflexivity].
  - by exists (B "d").
  - vm_compute. reflexivity.
  - assert (keys_of (buffer tree_map) = [B "imss://d/f"; B "imss://d/s"]) as -> by (vm_compute; reflexivity).
    repeat constructor; simpl; lia.
  - exact Hc.
  - repeat constructor; try (vm_compute; reflexivity); apply strchr_None; reflexivity.
  - vm_compute. reflexivity.
  - exists p1, p2. split; [exact H1|exact H2].
Defined.

Lemma listings_are_shared_witness :
  let p := mkProc tree_fs {[ 3 := (B "imss://d", 0); 5 := (B "imss://other", 0) ]} 6 0 None {[ 3 := 1; 5 := 2 ]}
             (mkListing false (put_str 256 <$> [B "imss://d"; B "imss://d/f"; B "imss://d/s"]) 3 9) in
  readdir [] fs_env fs_menv (fun _ => 0) 5 p = Ret (Some (B "f", DT_REG), at_position 3 5 p).
Proof.
  intros p. apply (listings_are_shared [] fs_env fs_menv (fun _ => 0) (B "imss://d") (B "imss://other") [B "f"; B "s"] 0
    (B "f") 1 3 5 p).
  - split; [reflexivity|]. split; [reflexivity|]. split; reflexivity.
  - reflexivity.
  - reflexivity.
  - reflexivity.
  - repeat constructor; try (vm_compute; reflexivity); apply strchr_None; reflexivity.
  - vm_compute. reflexivity.
  - vm_compute. reflexivity.
  - vm_compute. reflexivity.
Defined.

(** ** The working directory *)

Lemma no_mount_point (mnt : list bytes) (s u v : bytes) :
  mnt <> [] -> (count_occ ascii_dec s slash <= 1)%nat -> s <> u ++ dirstr mnt ++ v.
Proof.
  intros Hm Hs ->. destruct mnt as [|m mnt _] using rev_ind; [done|]. rewrite dirstr_snoc in Hs.
  rewrite !count_occ_app in Hs. unfold dirstr in Hs. cbn [count_occ] in Hs.
  destruct (ascii_dec slash slash); [lia|done].
Qed.

Lemma convert_relative (mnt : list bytes) (c s : bytes) :
  mnt <> [] -> plain c -> s = c \/ s = slash :: c -> strlen c + 8 < PATH_MAX ->
  convert_path (dirstr mnt) s = Ret (IMSS_ROOT ++ c).
Proof.
  intros Hm (Hs & Hc & _) Hsc Hlen.
  assert (count_occ ascii_dec c slash = 0)%nat as H0.
  { apply count_occ_not_In. by rewrite <- list_elem_of_In. }
  unfold convert_path. assert (strlen s <= strlen c + 1) by (destruct Hsc as [-> | ->]; unfold strlen; cbn; lia).
  destruct (Z.leb_spec PATH_MAX (strlen s)); [lia|].
  assert (match dirstr mnt with [] => s | _ => remove_all (S (length s)) (dirstr mnt) s end = s) as ->.
  { unfold dirstr at 1. apply remove_all_none; [done|]. intros u v. apply no_mount_point; [done|].
    destruct Hsc as [-> | ->]; cbn in *; lia. }
  destruct c as [|a c]; [done|]. assert (ascii_eqb a slash = false) as Ha.
  { apply ascii_eqb_false. intros ->. apply Hs, list_elem_of_here. }
  assert (last_is slash (a :: c) = false) as Hl by by apply last_is_notin.
  assert ((PATH_MAX <=? strlen (IMSS_ROOT ++ a :: c)) = false) as Hfit.
  { apply Z.leb_gt. rewrite strlen_app. change (strlen IMSS_ROOT) with 7. lia. }
  destruct Hsc as [-> | ->]; cbn [count_slashes]; rewrite Ha; [|change (ascii_eqb slash slash) with true];
    cbv iota zeta; cbn [drop length].
  all: rewrite Hl; cbv iota; rewrite Hfit; done.
Qed.

Lemma ResolvePath_no_cwd (c : bytes) :
  plain c -> strlen c + 8 < PATH_MAX -> ResolvePath (Some []) c = Ret (strlen (slash :: c), slash :: c).
Proof.
  intros (Hs & Hc & Hd & Hdd) Hlen. unfold ResolvePath.
  destruct (Z.leb_spec PATH_MAX (strlen c)); [lia|]. destruct c as [|a c]; [done|].
  assert (ascii_eqb a slash = false) as ->.
  { apply ascii_eqb_false. intros ->. apply Hs, list_elem_of_here. }
  change (PATH_MAX <=? strlen []) with false. cbv iota. cbn [length resolve_loop].
  rewrite (proj2 (strchr_None slash (a :: c))) by done.
  destruct (Z.eqb_spec (strlen (a :: c)) 0); [unfold strlen in *; cbn in *; lia|].
  destruct (Z.leb_spec PATH_MAX (strlen (a :: c))); [lia|].
  destruct (Z.leb_spec (strlen (a :: c) + 2) PATH_MAX); [|lia]. cbn [guard obind].
  change (ensure_slash []) with (Some [slash]). cbv iota. unfold resolve_token.
  destruct (streq (a :: c) (B ".")) eqn:E; [by apply streq_true in E|].
  destruct (streq (a :: c) (B "..")) eqn:E'; [by apply streq_true in E'|]. cbn [streq orb].
  change (streq (a :: c) []) with false. cbn [orb app].
  destruct (Z.ltb_spec (strlen (slash :: a :: c)) PATH_MAX); [|unfold strlen in *; cbn in *; lia].
  cbn [guard obind]. by rewrite Z.sub_diag.
Qed.

(** A relative name below the mount point, past the tests for the root. *)
Lemma checkHerculesPath_relative (mnt : list bytes) (w : bytes) cwd a s :
  mnt <> [] -> a <> slash -> last_is slash (a :: s) = false ->
  checkHerculesPath (dirstr mnt) (Some (dirstr mnt ++ w)) cwd (a :: s)
  = let convert p := let* q := convert_path (dirstr mnt) p in Ret (Some q) in
    if strneq (length (a :: s)) (a :: s) (B ".") then convert (dirstr mnt ++ w)
    else if prefixb (B "./") (a :: s) then convert (drop 2 (a :: s))
    else let* (ret, q) := ResolvePath cwd (a :: s) in if 0 <? ret then convert q else convert (a :: s).
Proof.
  intros Hm Ha Hl. unfold checkHerculesPath. rewrite Hl, dirstr_last.
  assert (exists b d x, dirstr mnt = slash :: x ++ b :: d) as (b & d & x & Hx).
  { destruct mnt as [|[|b m] mnt]; [done| |]; unfold dirstr; cbn.
    - by exists slash, (concat (map (fun c => c ++ [slash]) mnt)), [].
    - by eexists b, _, []. }
  assert (forall n, (0 < n)%nat -> strneq n (a :: s) (dirstr mnt) = false) as Hne.
  { intros [|n] Hn; [lia|]. unfold strneq. apply bool_decide_eq_false. rewrite Hx. cbn. congruence. }
  assert (2 <= length (dirstr mnt))%nat as H2 by (rewrite Hx; cbn; rewrite length_app; cbn; lia).
  rewrite Hne by (destruct (_ <=? _)%nat; cbn [length]; lia). cbv zeta.
  assert ((match dirstr mnt with [] => streq (a :: s) [] | _ :: _ => strneq (length (dirstr mnt) - 1) (a :: s) (dirstr mnt) end)
          = false) as -> by (rewrite Hx at 1; apply Hne; lia).
  assert (match dirstr mnt with [] => streq (dirstr mnt ++ w) []
          | _ :: _ => strneq (length (dirstr mnt) - 1) (dirstr mnt ++ w) (dirstr mnt) end = true) as ->.
  { rewrite Hx at 1. unfold strneq. apply bool_decide_eq_true. by rewrite take_app_le by lia. }
  assert (prefixb [slash] (a :: s) = false) as ->; [|done].
  cbn. rewrite andb_true_r. apply ascii_eqb_false. congruence.
Qed.

Section workdir.
Context {K : Type} `{FileLibc K}.

(** While the working directory is any directory below the mount point, a
    relative name, written with or without a leading ["./"], is taken to be a
    file of the root: the directory is lost. *)
Theorem relative_names_lose_directory (mnt : list bytes) (c w : bytes) (p : proc K)
  (Hmnt : mnt <> []) (Hc : plain c) (Hpwd : PWD p = Some (dirstr mnt ++ w)) (Hlen : strlen c + 8 < PATH_MAX) :
  hercules_path (dirstr mnt) c p = Ret (Some (IMSS_ROOT ++ c)) /\
  hercules_path (dirstr mnt) (B "./" ++ c) p = Ret (Some (IMSS_ROOT ++ c)).
Proof.
  pose proof Hc as (Hs & Hne & Hd & Hdd). destruct c as [|a c]; [done|].
  assert (a <> slash) as Ha by (intros ->; apply Hs, list_elem_of_here).
  assert (last_is slash (a :: c) = false) as Hl by by apply last_is_notin.
  assert (prefixb (dirstr mnt) (dirstr mnt ++ w) = true) as Hin by (apply prefixb_spec; eauto).
  unfold hercules_path, getcwd. rewrite Hpwd, Hin. split.
  - rewrite checkHerculesPath_relative by done. cbv zeta.
    assert (strneq (length (a :: c)) (a :: c) (B ".") = false) as ->.
    { unfold strneq. apply bool_decide_eq_false. rewrite firstn_all. intros E. apply Hd. rewrite E.
      by destruct c. }
    assert (prefixb (B "./") (a :: c) = false) as ->.
    { apply not_true_is_false. intros E. apply prefixb_spec in E as [r E]. apply Hs. rewrite E. set_solver. }
    rewrite ResolvePath_no_cwd by done. cbn [obind].
    destruct (Z.ltb_spec 0 (strlen (slash :: a :: c))); [|unfold strlen in *; cbn in *; lia].
    rewrite (convert_relative mnt (a :: c)); auto.
  - change (B "./" ++ a :: c) with ("."%char :: slash :: a :: c).
    rewrite checkHerculesPath_relative by done.
    cbv zeta. assert (strneq (length ("."%char :: slash :: a :: c)) ("."%char :: slash :: a :: c) (B ".") = false) as ->.
    { unfold strneq. apply bool_decide_eq_false. by rewrite firstn_all. }
    change (prefixb (B "./") ("."%char :: slash :: a :: c)) with true. cbn [drop].
    rewrite (convert_relative mnt (a :: c)); auto.
Qed.
End workdir.

Lemma relative_names_lose_directory_witness :
  let p := set_PWD (Some (B "/mnt/hercules/a/b")) (start empty_fs) in
  hercules_path (B "/mnt/hercules/") (B "data") p = Ret (Some (B "imss://data")) /\
  hercules_path (B "/mnt/hercules/") (B "./data") p = Ret (Some (B "imss://data")).
Proof.
  apply (relative_names_lose_directory [B "mnt"; B "hercules"] (B "data") (B "a/b")
           (set_PWD (Some (B "/mnt/hercules/a/b")) (start empty_fs))).
  - discriminate.
  - repeat constructor; try discriminate. apply strchr_None. reflexivity.
  - reflexivity.
  - vm_compute. reflexivity.
Defined.

(** ** Opening, closing and removing *)

Section opening.
Context {K : Type} `{FileLibc K}.
Context (stack : bytes) (e : env) (fresh_shm : gmap Z bytes -> Z) (MALL : bool) (matching : Z) (menv_of : Z -> menv)
  (stat_id : Z -> Z) (pos : Z) (cfg : config) (dceil : Z -> Z -> Z) (scratch : bytes)
  (perf : list (bytes * IOServerMetrics)) (now : Z * Z) (MOUNT_POINT : bytes).
Implicit Types p : proc K.

Abbreviation open := (Calls.open stack e fresh_shm MALL matching menv_of pos cfg dceil scratch now MOUNT_POINT).
Abbreviation close := (Calls.close stack e fresh_shm MALL matching menv_of stat_id scratch perf now MOUNT_POINT).
Abbreviation unlink :=
  (Calls.unlink stack e fresh_shm matching menv_of stat_id pos dceil scratch MOUNT_POINT).

Lemma close_forgets p fd r p' : named fd p <> None -> close fd p = Ret (r, p') -> r = 0 /\ named fd p' = None.
Proof.
  intros Hn. unfold Calls.close. change (named fd (set_perr 0 p)) with (named fd p).
  destruct (named fd p) as [path|]; [|done].
  assert (forall q : proc K, named fd (set_ptab (map_fd_erase fd (ptab q)) q) = None) as Hgone.
  { intros q. unfold named, map_fd_search_by_val, map_fd_erase. cbn. by rewrite lookup_delete_eq. }
  case_match; [intros [= <- <-]; split; [done|apply (Hgone (set_perr 0 p))]|].
  destruct (imss_close _ _ _ _ _ _ _ _ _ _ _ _) as [[r1 f]| |]; try done. cbn [obind].
  intros [= <- <-]. split; [done|]. unfold real. destruct (libc _ _) as [x k].
  apply (Hgone (set_pf f (set_perr 0 p))).
Qed.

(** Opening a file again, whatever the flags but [O_TRUNC] - also with
    [O_CREAT] and [O_EXCL] - returns the descriptor it is already open on: no
    server is told, the position is shared, and one [close] closes both. *)
Theorem second_open_shares (name path : bytes) (fd flags mode : Z) p
  (Hname : hercules_path MOUNT_POINT name p = Ret (Some path)) (Hpath : path <> IMSS_ROOT)
  (Hopen : map_fd_search_by_pathname path (ptab p) = Some fd) (Htrunc : any O_TRUNC flags = false) :
  open name flags mode p = Ret (fd, set_perr 0 p) /\
  forall r p', named fd p = Some path -> close fd p = Ret (r, p') -> named fd p' = None.
Proof.
  split.
  - unfold Calls.open. change (hercules_path MOUNT_POINT name (set_perr 0 p)) with (hercules_path MOUNT_POINT name p).
    rewrite Hname. cbn [obind]. unfold generalOpen. destruct (streq path IMSS_ROOT) eqn:E; [by apply streq_true in E|].
    cbn [ptab set_perr]. by rewrite Hopen, Htrunc.
  - intros r p' Hn Hc. apply close_forgets in Hc as [_ Hc]; [done|]. by rewrite Hn.
Qed.

(** [O_CREAT] together with [O_EXCL] on a file that exists opens it: the
    refusal of the metadata server is taken as a reason to open the file, and
    the result of that is not looked at. *)
Theorem creat_excl_opens_existing (name path path' : bytes) (flags mode res r ds fd : Z) (k : K) p (f1 f2 : fsys)
  (Hname : hercules_path MOUNT_POINT name p = Ret (Some path)) (Hpath : path <> IMSS_ROOT)
  (Hnew : map_fd_search_by_pathname path (ptab p) = None) (Hflags : has O_CREAT flags = true)
  (Hcreate : imss_create stack e fresh_shm MALL matching menv_of cfg now path (if any O_CREAT flags then mode else 0) 1
               TYPE_REGULAR_FILE (pf p) = Ret (- EEXIST, res, f1))
  (Hopen : imss_open stack e fresh_shm matching menv_of pos scratch path f1 = Ret (r, ds, path', f2))
  (Hlibc : libc (C_open (B "/dev/null") 0 0) (pk p) = (fd, k)) (Hfree : ptab p !! fd = None) (Hne : path' <> []) :
  exists p', open name flags mode p = Ret (fd, p') /\ named fd p' = Some path' /\ pf p' = f2 /\ perr p' = 0.
Proof.
  unfold Calls.open. change (hercules_path MOUNT_POINT name (set_perr 0 p)) with (hercules_path MOUNT_POINT name p).
  rewrite Hname. cbn [obind]. unfold generalOpen. destruct (streq path IMSS_ROOT) eqn:E; [by apply streq_true in E|].
  cbn [ptab set_perr]. rewrite Hnew. unfold open_new. cbn [pf set_perr]. rewrite Hflags, Hcreate. cbn [obind].
  rewrite Z.eqb_refl. cbn [pf set_pf]. rewrite Hopen. cbn [obind].
  change (0 <=? -1) with false. change (-1 =? -1) with true. cbv iota. unfold open_null, real. cbn [pk set_pf set_perr].
  rewrite Hlibc. eexists. split; [done|]. split; [|done].
  unfold named, remember_fd, map_fd_put, map_fd_search_by_val. cbn. rewrite Hfree. cbn. rewrite lookup_insert_eq.
  by destruct path'.
Qed.

Lemma first_fd_only (P : bytes -> bool) (m : fd_map) fd path x :
  m !! fd = Some (path, x) -> P path = true -> (forall fd' q y, m !! fd' = Some (q, y) -> P q = true -> fd' = fd) ->
  first_fd P m = Some fd.
Proof.
  intros Hm HP Honly. unfold first_fd.
  assert (forall l, (forall z, z ∈ l -> z ∈ map_to_list m) ->
    let r := foldr (fun x acc => if P (fst (snd x))
                      then Some (match acc with Some y => Z.min (fst x) y | None => fst x end) else acc) None l in
    (r = None \/ r = Some fd) /\ ((fd, (path, x)) ∈ l -> r = Some fd)) as Hl.
  { induction l as [|[k [q y]] l IH]; intros Hin; [split; [by left|set_solver]|]. cbn [foldr fst snd].
    destruct (IH ltac:(set_solver)) as [Hor Hmem].
    destruct (P q) eqn:HPq.
    - assert (k = fd) as ->.
      { eapply Honly; [|exact HPq]. apply elem_of_map_to_list, Hin, list_elem_of_here. }
      assert (Some (match foldr _ None l with Some y => Z.min fd y | None => fd end) = Some fd) as ->; [|auto].
      destruct Hor as [-> | ->]; [done|]. by rewrite Z.min_id.
    - split; [done|]. intros Hx. apply Hmem. apply elem_of_cons in Hx as [[= -> -> ->]|Hx]; [congruence|done]. }
  apply (Hl (map_to_list m)); [done|]. by apply elem_of_map_to_list.
Qed.

(** Removing a file that is open takes its descriptor out of the table at
    once: the later [close] goes to the C library, so the metadata server is
    never told and keeps waiting for it. *)
Theorem unlink_disconnects_descriptor (name path : bytes) (fd x : Z) (st : stat) p (f1 f2 : fsys)
  (Hname : hercules_path MOUNT_POINT name p = Ret (Some path)) (Hpath : path <> [] /\ strlen path + 1 < PATH_MAX)
  (Hfd : ptab p !! fd = Some (path, x))
  (Honly : forall fd' q y, ptab p !! fd' = Some (q, y) -> q = path \/ q = path ++ [slash] \/ q = [] -> fd' = fd)
  (Hattr : getattr stack e fresh_shm matching menv_of pos dceil scratch path (pf p) = Ret (0, st, f1))
  (Hfile : S_ISDIR (st_mode st) = false) (Hinuse : imss_unlink stack e menv_of path f1 = Ret (1, f2)) :
  exists p', unlink name p = Ret (0, p') /\ named fd p' = None /\ pf p' = f2 /\
    exists r k, close fd p' = Ret (r, set_pk k p').
Proof.
  unfold Calls.unlink. change (hercules_path MOUNT_POINT name (set_perr 0 p)) with (hercules_path MOUNT_POINT name p).
  rewrite Hname. cbn [obind pf set_perr]. rewrite Hattr. cbn [obind negb Z.eqb]. rewrite Hfile, Hinuse. cbn [obind].
  change (report_error 1 ?q) with (1, q). cbn [Z.eqb Pos.eqb orb]. unfold map_fd_erase_by_pathname.
  destruct Hpath as [Hne Hlen]. destruct (Z.leb_spec PATH_MAX (strlen path + 1)); [lia|]. cbn [ptab set_pf set_perr].
  set (aux := match path with [] => [] | _ => _ end).
  rewrite (first_fd_only _ _ fd path x Hfd).
  2:{ by rewrite (proj2 (streq_true path path)). }
  2:{ intros fd' q y Hq Hor. apply (Honly fd' q y Hq).
      apply orb_true_iff in Hor as [Hq1|Hq1]; apply streq_true in Hq1 as ->; [by left|]. unfold aux.
      destruct path as [|c path']; [done|]. destruct (last_is slash (c :: path')); auto. }
  cbn [obind]. eexists. split; [done|].
  assert (forall q : proc K, ptab q = delete fd (ptab p) -> named fd q = None) as Hgone.
  { intros q Hq. unfold named, map_fd_search_by_val. by rewrite Hq, lookup_delete_eq. }
  split; [by apply Hgone|]. split; [done|].
  unfold Calls.close. rewrite Hgone by done. unfold real. cbn [pk set_perr set_ptab set_pf].
  destruct (libc (C_close fd) (pk p)) as [r k]. by exists r, k.
Qed.
End opening.

(** ** Streams and directories *)

Section streams.
Context {K : Type} `{FileLibc K}.
Context (stack : bytes) (e : env) (fresh_shm : gmap Z bytes -> Z) (MALL : bool) (matching : Z) (menv_of : Z -> menv)
  (stat_id : Z -> Z) (pos : Z) (order : Sessions.table -> list bytes) (cfg : config) (dceil : Z -> Z -> Z)
  (scratch : bytes) (now : Z * Z) (MOUNT_POINT : bytes)
  (hercules_move : bytes -> bytes -> bytes -> proc K -> outcome (Z * proc K)).
Implicit Types p : proc K.

(** Opening a stream on a file that is already open gives a stream on
    [/dev/null]: the descriptor of the stream is not entered in the table, so
    what is written through it is lost and nothing is read. *)
Theorem fopen_again_is_null (name path mode : bytes) (fd file : Z) (k : K) p
  (Hname : hercules_path MOUNT_POINT name p = Ret (Some path)) (Hpath : path <> IMSS_ROOT)
  (Hopen : map_fd_search_by_pathname path (ptab p) = Some fd) (Hfd : 0 <= fd)
  (Hmode : fst (sflags mode) <> 0) (Htrunc : any O_TRUNC (snd (sflags mode)) = false)
  (Hlibc : libc (C_fopen (B "/dev/null") mode) (pk p) = (file, k)) (Hfile : file <> -1)
  (Hfree : ptab p !! file = None) :
  exists p', fopen stack e fresh_shm MALL matching menv_of pos cfg dceil scratch now MOUNT_POINT name mode p
             = Ret (file, p') /\ named file p' = None /\ pf p' = pf p.
Proof.
  unfold fopen. change (hercules_path MOUNT_POINT name (set_perr 0 p)) with (hercules_path MOUNT_POINT name p).
  rewrite Hname. cbn [obind]. destruct (sflags mode) as [flags oflags]. cbn [fst snd] in *.
  destruct (Z.eqb_spec flags 0); [done|]. unfold real. cbn [pk set_perr]. rewrite Hlibc.
  destruct (Z.eqb_spec file (-1)); [done|]. unfold generalOpen.
  destruct (streq path IMSS_ROOT) eqn:E; [by apply streq_true in E|]. cbn [ptab set_pk set_perr].
  rewrite Hopen, Htrunc. cbn [obind]. destruct (Z.ltb_spec fd 0); [lia|].
  eexists. split; [done|]. split; [|done]. unfold named, map_fd_search_by_val. cbn. by rewrite Hfree.
Qed.

(** [renameat] and [renameat2] below Hercules directories rename the names as
    they were given: the directories only have to be there. *)
Theorem renameat_ignores_directories (d1 d2 flags : Z) (old new dir1 dir2 : bytes) p
  (H1 : map_fd_search_by_val d1 (ptab p) = dir1) (H2 : map_fd_search_by_val d2 (ptab p) = dir2)
  (Hd : d1 <> AT_FDCWD /\ d2 <> AT_FDCWD) (Hdir : dir2 <> [])
  (Hlen : (IMSS_ROOT_LEN <= length dir2)%nat /\
          strlen (MOUNT_POINT ++ slash :: drop IMSS_ROOT_LEN dir2 ++ slash :: new) < PATH_MAX) :
  renameat2 stack e fresh_shm matching menv_of stat_id pos order dceil scratch MOUNT_POINT hercules_move
    d1 old d2 new flags p
  = rename stack e fresh_shm matching menv_of stat_id pos order dceil scratch MOUNT_POINT hercules_move
      old new (set_perr 0 p).
Proof.
  unfold renameat2, ResolvePathsAndFD. destruct Hd as [Hd1 Hd2].
  destruct (Z.eqb_spec d1 AT_FDCWD); [done|]. destruct (Z.eqb_spec d2 AT_FDCWD); [done|]. cbn [obind ptab set_perr].
  rewrite H1, H2. unfold absolute_pathname. destruct Hlen as [Hl1 Hl2].
  destruct (Nat.ltb_spec (length dir2) IMSS_ROOT_LEN); [lia|].
  destruct (Z.leb_spec PATH_MAX (strlen (MOUNT_POINT ++ slash :: drop IMSS_ROOT_LEN dir2 ++ slash :: new))); [lia|].
  cbn [obind]. unfold do_rename. destruct dir1, dir2; try done; by destruct (IsAbsolutePath old =? 1).
Qed.
End streams.

(** A process with the new file of FileLife.v open on descriptor 3. *)
Definition file_f : bytes := B "imss://f".
Definition opened_once : proc Z :=
  mkProc created_fs {[ 3 := (file_f, 0) ]} 4 0 (Some (B "/home/u")) ∅ (mkListing true [] 0 0).

Lemma second_open_shares_witness :
  Calls.open [] fs_env no_shm false 0 fs_menv 0 fs_config div_up fs_scratch (5, 0) mount
    (B "/mnt/hercules/f") (O_CREAT + O_EXCL) 420 opened_once = Ret (3, set_perr 0 opened_once).
Proof.
  apply (second_open_shares [] fs_env no_shm false 0 fs_menv (fun _ => 0) 0 fs_config div_up fs_scratch [] (5, 0) mount
           (B "/mnt/hercules/f") file_f 3 (O_CREAT + O_EXCL) 420 opened_once).
  - vm_compute. reflexivity.
  - discriminate.
  - vm_compute. reflexivity.
  - reflexivity.
Defined.

Definition twice_created : Z * Z * fsys :=
  ret_or (0, 0, created_fs)
    (imss_create [] fs_env no_shm false 0 fs_menv fs_config (5, 0) file_f 420 1 TYPE_REGULAR_FILE created_fs).
Definition then_opened : Z * Z * bytes * fsys :=
  ret_or (0, 0, [], created_fs) (imss_open [] fs_env no_shm 0 fs_menv 0 fs_scratch file_f (snd twice_created)).

Lemma creat_excl_opens_existing_witness :
  exists p', Calls.open [] fs_env no_shm false 0 fs_menv 0 fs_config div_up fs_scratch (5, 0) mount
    (B "/mnt/hercules/f") (O_CREAT + O_EXCL) 420 (start created_fs) = Ret (3, p') /\ named 3 p' = Some file_f.
Proof.
  destruct (creat_excl_opens_existing [] fs_env no_shm false 0 fs_menv 0 fs_config div_up fs_scratch (5, 0) mount
    (B "/mnt/hercules/f") file_f file_f (O_CREAT + O_EXCL) 420 (snd (fst twice_created)) 0 0 3 4 (start created_fs)
    (snd twice_created) (snd then_opened)) as (p' & H1 & H2 & _).
  - vm_compute. reflexivity.
  - discriminate.
  - vm_compute. reflexivity.
  - reflexivity.
  - vm_compute. reflexivity.
  - vm_compute. reflexivity.
  - reflexivity.
  - reflexivity.
  - discriminate.
  - exists p'. split; [exact H1|exact H2].
Defined.

Definition removed_once : Z * fsys := ret_or (9, created_fs) (imss_unlink [] fs_env fs_menv file_f created_fs).

Lemma unlink_disconnects_descriptor_witness :
  exists p', Calls.unlink [] fs_env no_shm 0 fs_menv (fun _ => 0) 0 div_up fs_scratch mount
    (B "/mnt/hercules/f") opened_once = Ret (0, p') /\ named 3 p' = None.
Proof.
  destruct (unlink_disconnects_descriptor [] fs_env no_shm false 0 fs_menv (fun _ => 0) 0 div_up fs_scratch [] (5, 0) mount
    (B "/mnt/hercules/f") file_f 3 0 (new_stat fs_config (5, 0) 420 0) opened_once created_fs (snd removed_once))
    as (p' & H1 & H2 & _).
  - vm_compute. reflexivity.
  - split; [discriminate|vm_compute; reflexivity].
  - reflexivity.
  - intros fd' q y Hq _. cbn in Hq. apply lookup_singleton_Some in Hq as [<- _]. reflexivity.
  - vm_compute. reflexivity.
  - reflexivity.
  - vm_compute. reflexivity.
  - exists p'. split; [exact H1|exact H2].
Defined.

(** A whole session: create and open, write, read back, close, open again, ask
    for the attributes. *)
Example whole_session :
  let opens flags := Calls.open [] fs_env no_shm false 0 fs_menv 0 fs_config div_up fs_scratch (5, 0) mount
                       (B "/mnt/hercules/f") flags 420 in
  match (let* (fd, p) := opens (O_CREAT + 2) (start empty_fs) in
         let* (n, p) := write_fd [] fs_env no_shm 0 div_up fd (B "hello") 5 p in
         let* (m, out, p) := pread_fd [] fs_env no_shm 0 div_up fd (repeat NUL 5) 5 0 p in
         let* (c, p) := Calls.close [] fs_env no_shm false 0 fs_menv (fun _ => 0) fs_scratch [] (5, 0) mount fd p in
         let* (fd2, p) := opens 0 p in
         let* (r, st, p) := fstat [] fs_env no_shm 0 fs_menv 0 div_up fs_scratch fd2 p in
         Ret (fd, n, m, out, c, fd2, r, st_size st)) with
  | Ret x => x = (3, 5, 5, B "hello", 0, 4, 0, 5)
  | _ => False
  end.
Proof. vm_compute. reflexivity. Qed.

#[local] Instance counter_fs : FsLibc Z := {|
  libc_vfs _ b k := (-1, b, k);
  libc_readv _ iov k := (-1, iov, k);
  libc_text _ k := (None, k)
|}.

Lemma fopen_again_is_null_witness :
  exists p', fopen [] fs_env no_shm false 0 fs_menv 0 fs_config div_up fs_scratch (5, 0) mount
    (B "/mnt/hercules/f") (B "r+") opened_once = Ret (4, p') /\ named 4 p' = None.
Proof.
  destruct (fopen_again_is_null [] fs_env no_shm false 0 fs_menv 0 fs_config div_up fs_scratch (5, 0) mount
    (B "/mnt/hercules/f") file_f (B "r+") 3 4 5 opened_once) as (p' & H1 & H2 & _).
  - vm_compute. reflexivity.
  - discriminate.
  - vm_compute. reflexivity.
  - lia.
  - discriminate.
  - reflexivity.
  - reflexivity.
  - lia.
  - reflexivity.
  - exists p'. split; [exact H1|exact H2].
Defined.

(** Descriptors 3 and 4 are directories; a file of the root is renamed. *)
Definition two_dirs : proc Z :=
  mkProc created_fs {[ 3 := (B "imss://a", 0); 4 := (B "imss://b", 0) ]} 5 0 (Some (B "/home/u")) ∅ (mkListing true [] 0 0).
Definition no_move : bytes -> bytes -> bytes -> proc Z -> outcome (Z * proc Z) := fun _ _ _ p => Ret (-1, p).

Lemma renameat_ignores_directories_witness :
  renameat2 [] fs_env no_shm 0 fs_menv (fun _ => 0) 0 (fun t => (map_to_list t).*1) div_up fs_scratch mount no_move
    3 (B "x") 4 (B "y") 0 two_dirs
  = rename [] fs_env no_shm 0 fs_menv (fun _ => 0) 0 (fun t => (map_to_list t).*1) div_up fs_scratch mount no_move
      (B "x") (B "y") (set_perr 0 two_dirs).
Proof.
  apply (renameat_ignores_directories [] fs_env no_shm 0 fs_menv (fun _ => 0) 0 (fun t => (map_to_list t).*1) div_up
    fs_scratch mount no_move 3 4 0 (B "x") (B "y") (B "imss://a") (B "imss://b") two_dirs).
  - reflexivity.
  - reflexivity.
  - split; discriminate.
  - discriminate.
  - split; [vm_compute; lia|vm_compute; reflexivity].
Defined.

Definition two_parts : list bytes := [B "ab"; []; B "cde"].

Lemma vectored_is_plain_witness :
  writev [] fs_env no_shm 0 div_up 3 two_parts opened_once
  = write_fd [] fs_env no_shm 0 div_up 3 (concat two_parts) (strlen (concat two_parts)) opened_once.
Proof.
  destruct (vectored_is_plain [] fs_env no_shm 0 div_up 3 0 file_f two_parts (repeat NUL 5) opened_once) as [H1 _].
  - reflexivity.
  - vm_compute. discriminate.
  - reflexivity.
  - exact H1.
Defined.
