(* ===== verification/Attributes.v ===== *)
(** * Attributes on the cluster

    Block 0 of a file, its [struct stat], on the data servers: what one client
    writes back ([imss_release], src/fuse/imss_posix_api.c) and another one
    reads ([imss_refresh], [imss_open]).  The servers keep the larger of the
    two sizes (src/workers.c), so the size another client sees never
    shrinks. *)

From S2P Require Import Prelude Types Policies Paths Store DataServer Wire Sessions Client Comms MetaStore Elasticity MetaServer Datasets BlockService FileIO EndToEnd LocalMap Files FileLife.

(** ** One header *)

(** The attributes a server keeps when it had [old] and receives [st]. *)
Definition merged (old : option stat) (st : stat) : stat :=
  match old with
  | Some o => set_size (Z.max (st_size st) (st_size o)) (st_blocks st) st
  | None => st
  end.

Lemma merged_again old st : merged (Some (merged old st)) st = merged old st.
Proof.
  destruct st, old as [o|]; cbn; [|by rewrite Z.max_id]. f_equal. lia.
Qed.

Lemma merged_fits old st : stat_fits st -> (forall o, old = Some o -> stat_fits o) -> stat_fits (merged old st).
Proof.
  intros [H1 H2 H3] Ho. destruct old as [o|]; [|done]. destruct (Ho o eq_refl) as [_ _ O3].
  split; [done|done|]. rewrite !Forall_cons in *. destruct_and! H3. destruct_and! O3. cbn. repeat split; try lia.
  constructor.
Qed.

(** The bytes around the size. *)
Definition before_size (st : stat) : bytes := concat (take 8 (stat_chunks st)).
Definition after_size (st : stat) : bytes := concat (drop 9 (stat_chunks st)).

Lemma stat_bytes_split st : stat_bytes st = before_size st ++ le_put 8 (st_size st) ++ after_size st.
Proof. unfold stat_bytes, before_size, after_size, stat_chunks. cbn [take drop concat]. by rewrite <- !app_assoc. Qed.

Lemma length_before_size st : length (before_size st) = 48%nat.
Proof.
  unfold before_size, stat_chunks. cbn [take concat]. rewrite !length_app, !length_le_put. done.
Qed.

Lemma header_size_stat st : stat_fits st -> load_field (stat_bytes st) st_size_off 8 = Ret (st_size st mod 2 ^ 64).
Proof.
  intros Hf. pose proof (strlen_stat st) as Hl. unfold load_field, read_at. rewrite Hl.
  change ((0 <=? st_size_off) && (0 <=? 8) && (st_size_off + 8 <=? sizeof_stat)) with true. cbv iota. cbn [obind].
  change (Z.to_nat st_size_off) with 48%nat. change (Z.to_nat 8) with 8%nat.
  rewrite stat_bytes_split, drop_app_length' by (by rewrite length_before_size).
  rewrite take_app_length' by (by rewrite length_le_put). by rewrite le_get_put.
Qed.

Lemma merge_stat o st :
  stat_fits o -> stat_fits st -> merge_size (stat_bytes o) (stat_bytes st) = Ret (stat_bytes (merged (Some o) st)).
Proof.
  intros Ho Hs. unfold merge_size. rewrite !header_size_stat by done. cbn [obind].
  pose proof (sfits_i64 _ Ho) as [So _]%Forall_cons. pose proof (sfits_i64 _ Hs) as [Ss _]%Forall_cons.
  rewrite !i64_u64 by done. unfold store_field, write_at. rewrite strlen_stat. unfold strlen. rewrite length_le_put.
  reflexivity.
Qed.

(** ** One server *)

Section header.
Context (stack : bytes) (e : env) (fresh_shm : gmap Z bytes -> Z) (matching : Z).
Context (u : bytes) (di : dataset_info) (im : imss_info).
Context (FS : file_session stack e u di im).

Abbreviation key0 := (block_key u 0).

(** The server holds the attributes [o] of the file, or no block 0. *)
Definition header_is (s : server) (o : option stat) : Prop :=
  HierarchicalMapGet key0 (hr s) = Ret ((fun st => mkBuf (stat_bytes st) sizeof_stat) <$> o) /\
  forall st, o = Some st -> stat_fits st.

(** [s'] is [s] after [st] was written to block 0, perhaps more than once. *)
Definition header_upd (st : stat) (s s' : server) : Prop :=
  (forall k, k <> key0 -> HierarchicalMapGet k (hr s') = HierarchicalMapGet k (hr s)) /\
  malleability_on s' = malleability_on s /\
  (wf_store (BLOCK_SIZE e) (hr s) -> wf_store (BLOCK_SIZE e) (hr s')) /\
  forall o, header_is s o -> header_is s' o \/ header_is s' (Some (merged o st)).

Lemma header_is_fun s o o' : header_is s o -> header_is s o' -> o = o'.
Proof.
  intros [H1 F1] [H2 F2]. rewrite H1 in H2. destruct o as [a|], o' as [b|]; try done.
  assert (stat_bytes a = stat_bytes b) as E by (cbn [fmap option_fmap option_map] in H2; congruence).
  pose proof (parse_stat_bytes a [] (F1 a eq_refl)) as Ha.
  pose proof (parse_stat_bytes b [] (F2 b eq_refl)) as Hb. rewrite E in Ha. congruence.
Qed.

Lemma key0_zero : is_block_zero key0 = true.
Proof.
  unfold is_block_zero, block_key. change (print_d 0) with ["0"%char].
  assert (forall v, exists i, find_sub (B "$0") (v ++ [dollar; "0"%char]) = Some i) as H; [|by destruct (H u) as [i ->]].
  induction v as [|c v [i IH]]; [by exists O|]. cbn [app find_sub]. rewrite IH.
  destruct (prefixb _ _); eauto.
Qed.

Lemma garbage_pop_frame k (h : HierarchicalRecords bytes) v :
  HierarchicalMapGet k h = Ret (Some v) ->
  exists r h', HierarchicalMapPopFromGarbageCollector k h = Ret (r, h') /\
    forall k', HierarchicalMapGet k' h' = HierarchicalMapGet k' h.
Proof.
  intros Hg. unfold HierarchicalMapPopFromGarbageCollector.
  destruct (parent_dir k) as [d| |] eqn:Hd; try (unfold HierarchicalMapGet, get_child_unsafe in Hg; by rewrite Hd in Hg).
  cbn [obind]. rewrite (HGet_eq _ _ _ Hd) in Hg. destruct (hiermap h !! d) as [m|] eqn:Hm; [|done].
  destruct (garbage_collector_pop k m) as [r m'] eqn:Hp. do 2 eexists. split; [done|]. intros k'.
  assert (buffer m' = buffer m) as Hb by (unfold garbage_collector_pop in Hp; case_bool_decide; by injection Hp as _ <-).
  unfold HierarchicalMapGet, get_child_unsafe. destruct (parent_dir k') as [d'| |]; try done. cbn [obind].
  destruct (decide (d' = d)) as [->|Hne]; cbn; [rewrite lookup_insert_eq, Hm; unfold get; by rewrite Hb|by rewrite lookup_insert_ne].
Qed.

Lemma header_run st s o :
  stat_fits st -> header_is s o ->
  exists s', write_op (with_payload (stat_bytes st) e) false false (mkReq sizeof_stat 0 (-1) key0 0) s
             = Ret (0, [Msg MSG_OK_OP], s') /\ malleability_on s' = malleability_on s /\
    HierarchicalMapGet key0 (hr s') = Ret (Some (mkBuf (stat_bytes (merged o st)) sizeof_stat)) /\
    (forall k, k <> key0 -> HierarchicalMapGet k (hr s') = HierarchicalMapGet k (hr s)).
Proof.
  intros Hf [Hg Ho]. unfold write_op. cbn [key]. rewrite Hg. destruct o as [o|]; cbn [fmap option_fmap option_map obind].
  - rewrite key0_zero. unfold write_zero. cbn [key payload with_payload].
    destruct (garbage_pop_frame _ _ _ Hg) as (r & h & -> & Hh). cbn [obind negb].
    rewrite strlen_stat. change (sizeof_stat =? 0) with false. cbv iota.
    destruct (fs_memory _ _ _ _ _ FS sizeof_stat) as [b Hb]; [done|]. cbn [malloc with_payload]. rewrite Hb.
    cbn [recv_ok with_payload]. rewrite (fs_recv _ _ _ _ _ FS). cbn [negb data]. rewrite merge_stat by auto. cbn [obind].
    destruct (write_at_ok (stat_bytes o) 0 (stat_bytes (merged (Some o) st)))
      as [d Hd]; [done|by rewrite !strlen_stat|].
    cbn [block_offset]. rewrite Hd. cbn [obind].
    rewrite (write_at_whole (stat_bytes o) (stat_bytes (merged (Some o) st)) d) by (done || by rewrite !strlen_stat).
    cbn [hr set_hr bsize].
    destruct (store_block_ok key0 (mkBuf (stat_bytes o) sizeof_stat)
      (mkBuf (stat_bytes (merged (Some o) st)) sizeof_stat) h) as [h' Hh']; [by rewrite Hh|].
    rewrite Hh'. cbn [obind]. unfold say. cbn [send_ok with_payload]. rewrite (fs_send _ _ _ _ _ FS).
    destruct (store_block_get _ _ _ _ Hh') as [Hget Hframe].
    eexists. split; [done|]. split; [done|]. split; [exact Hget|]. intros k Hk. cbn. by rewrite Hframe, Hh.
  - unfold write_new_msg. cbn [payload with_payload key]. rewrite strlen_stat, key0_zero.
    change (sizeof_stat =? 0) with false. cbv iota. cbn [orb new_buffer malloc with_payload].
    destruct (fs_memory _ _ _ _ _ FS sizeof_stat) as [b Hb]; [done|]. rewrite Hb.
    cbn [fmap option_fmap option_map block_offset].
    pose proof (fs_malloc _ _ _ _ _ FS _ _ Hb) as Hl.
    destruct (write_at_ok b 0 (stat_bytes st)) as [d Hd]; [done|rewrite strlen_stat; lia|].
    rewrite Hd. cbn [obind recv_ok with_payload]. rewrite (fs_recv _ _ _ _ _ FS). cbn [negb].
    rewrite (write_at_whole b (stat_bytes st) d) by (done || by rewrite strlen_stat).
    unfold insert_block. cbn [key hr set_hr]. rewrite Hg. cbn [obind fmap option_fmap option_map]. rewrite key0_zero.
    destruct (HierarchicalMapPut_get key0 (stat_bytes st) sizeof_stat false true (hr s)) as (h' & Hput & Hget & Hframe);
      [apply block_key_rooted, (fs_name _ _ _ _ _ FS)|done|intros _; by rewrite strlen_stat|].
    cbn [set_hr hr]. rewrite Hput. cbn [obind finish_insert]. unfold say. cbn [send_ok with_payload].
    rewrite (fs_send _ _ _ _ _ FS). eexists. split; [done|]. split; [done|]. split; [exact Hget|done].
Qed.

(** A header that is written is confirmed and merged. *)
Lemma write_header st s o :
  stat_fits st -> server_ok e u s -> header_is s o ->
  exists s', write_op (with_payload (stat_bytes st) e) false false (mkReq sizeof_stat 0 (-1) key0 0) s
             = Ret (0, [Msg MSG_OK_OP], s') /\
    header_upd st s s' /\ header_is s' (Some (merged o st)).
Proof.
  intros Hf (Hwf & _) Hh. destruct (header_run st s o Hf Hh) as (s' & Hrun & Hc & Hg' & Hfr).
  assert (header_is s' (Some (merged o st))) as Hh'.
  { split; [done|]. intros x [= <-]. apply merged_fits; [done|]. apply Hh. }
  exists s'. split; [done|]. split; [|done].
  split; [done|]. split; [done|]. split.
  - intros _. apply (wf_write_op (with_payload (stat_bytes st) e) (fs_malloc _ _ _ _ _ FS) false false
      (mkReq sizeof_stat 0 (-1) key0 0) s 0 [Msg MSG_OK_OP] s' Hwf Hrun).
  - intros o' Ho'. right. by rewrite (header_is_fun s o' o).
Qed.

#[local] Instance header_upd_preorder st : PreOrder (header_upd st).
Proof.
  split.
  - intros s. split; [done|]. split; [done|]. split; [done|]. auto.
  - intros s1 s2 s3 (F1 & M1 & W1 & H1) (F2 & M2 & W2 & H2). split; [intros k Hk; by rewrite F2, F1|].
    split; [congruence|]. split; [auto|]. intros o Ho. destruct (H1 o Ho) as [H|H]; [auto|].
    destruct (H2 _ H) as [?|H3]; [auto|]. rewrite merged_again in H3. auto.
Qed.

(** ** All replicas *)

Definition headers_upd (st : stat) (w w' : world) : Prop :=
  Forall2 (header_upd st) (servers w) (servers w') /\
  inbox w' = inbox w /\ datasets w' = datasets w /\ imssd w' = imssd w.

(** Every server has attributes of the file in block 0, or nothing; the first
    replica has [o]. *)
Definition headers_ok (w : world) : Prop := Forall (fun s => exists o, header_is s o) (servers w).
Definition attrs_are (w : world) (o : option stat) : Prop :=
  exists s, servers w !! Z.to_nat (home stack di im 0) = Some s /\ header_is s o.

Lemma server_ok_header st s s' : header_upd st s s' -> server_ok e u s -> server_ok e u s'.
Proof.
  intros (F & M & W & _) (Hwf & Hm & Hsz). split; [auto|]. split; [congruence|].
  intros id v Hid. rewrite F; [by apply Hsz|]. intros E. apply block_key_inj in E; lia.
Qed.

Lemma headers_upd_world st w w' :
  headers_upd st w w' -> world_ok e u di im w -> headers_ok w ->
  world_ok e u di im w' /\ headers_ok w' /\
  forall id, block_no im id -> block_of stack u di im w' id = block_of stack u di im w id.
Proof.
  intros (F & I & D & M) (H1 & H2 & H3 & H4 & H5) Hh. split; [|split].
  - split; [by rewrite I|]. split; [by rewrite D|]. split; [by rewrite M|].
    split; [by rewrite <- (Forall2_length _ _ _ F)|].
    eapply Forall2_Forall_r; [exact F|]. eapply Forall_impl; [exact H5|].
    intros s Hs s' Hu. by eapply server_ok_header.
  - eapply Forall2_Forall_r; [exact F|]. eapply Forall_impl; [exact Hh|].
    intros s [o Ho] s' (_ & _ & _ & Hu). destruct (Hu o Ho); eauto.
  - intros id [Hid1 Hid2]. pose proof (fs_servers _ _ _ _ _ FS). unfold block_of.
    destruct (servers w !! Z.to_nat (home stack di im id)) as [t|] eqn:Ht.
    + destruct (Forall2_lookup_l _ _ _ _ _ F Ht) as (t' & -> & (Fr & _)).
      rewrite Fr; [done|]. intros E. apply block_key_inj in E; lia.
    + apply lookup_ge_None in Ht. rewrite (Forall2_length _ _ _ F) in Ht. by apply lookup_ge_None in Ht as ->.
Qed.

Lemma numbered_zero : numbered im 0.
Proof. pose proof (fs_servers _ _ _ _ _ FS). split; lia. Qed.

(** One replica: the request line, the server and its confirmation. *)
Lemma set_remote_header w n st :
  world_ok e u di im w -> headers_ok w -> 0 <= n < num_storages im -> stat_fits st ->
  exists s s', servers w !! Z.to_nat n = Some s /\
    set_remote e false n sizeof_stat 0 0 u (stat_bytes st) w
      = Ret (None, set_servers (<[Z.to_nat n := s']> (servers w)) w) /\
    header_upd st s s' /\ forall o, header_is s o -> header_is s' (Some (merged o st)).
Proof.
  intros (Hin & _ & _ & Hlen & Hall) Hh Hn Hf.
  destruct (lookup_lt_is_Some_2 (servers w) (Z.to_nat n)) as [s Hs]; [lia|].
  pose proof (Forall_lookup_1 _ _ _ _ Hall Hs) as Hok. destruct (Forall_lookup_1 _ _ _ _ Hh Hs) as [o Ho].
  destruct (write_header st s o Hf Hok Ho) as (s' & Hrun & Hu & Ho'). exists s, s'. split; [done|]. split; [|split; [done|]].
  2:{ intros o2 Ho2. by rewrite (header_is_fun s o2 o). }
  unfold set_remote. rewrite (fs_send _ _ _ _ _ FS). cbn [negb]. unfold deliver.
  destruct (Z.ltb_spec n 0); [lia|]. rewrite Hs.
  assert (srv_worker_helper (with_payload (stat_bytes st) e) (set_request sizeof_stat 0 u 0) s
          = Ret (0, [Msg MSG_OK_OP], s')) as ->.
  { unfold set_request. rewrite set_line by done. fold (set_request sizeof_stat 0 u 0).
    destruct (wire_parse u 0 sizeof_stat 0 0 0 (fs_wire _ _ _ _ _ FS)) as [-> _]; try (unfold sizeof_stat; lia).
    exact Hrun. }
  destruct (fs_memory _ _ _ _ _ FS 3) as [resp Hresp]; [lia|].
  cbn [obind]. unfold receive. cbn [inbox]. rewrite Hin.
  change (map reply_bytes [Msg MSG_OK_OP]) with [MSG_OK_OP ++ ["000"%char]]. cbn [app].
  change (strlen (MSG_OK_OP ++ ["000"%char])) with 3. rewrite Hresp. unfold set_servers, set_inbox. cbn. by rewrite Hin.
Qed.

Lemma set_header_loop st k i size w :
  world_ok e u di im w -> headers_ok w -> stat_fits st -> 0 <= i -> i + Z.of_nat k = repl_factor di ->
  exists w', set_loop e fresh_shm matching false di (home stack di im 0) (num_storages im) 0
               (stat_bytes st) 0 k i size w = Ret (1, w') /\
    headers_upd st w w' /\ (i = 0 -> forall o, attrs_are w o -> attrs_are w' (Some (merged o st))).
Proof.
  intros Hw Hh Hf. destruct (home_spec stack e u di im FS 0 GET numbered_zero) as [_ Hhome].
  revert i size w Hw Hh. induction k as [|k IH]; intros i size w Hw Hh Hi Hk; cbn [set_loop].
  - exists w. split; [done|]. split; [split; [reflexivity|done]|]. pose proof (fs_repl _ _ _ _ _ FS). lia.
  - destruct (replica_range stack e u di im FS (home stack di im 0) i Hhome) as (n & -> & Hn & Hn0); [lia|].
    cbn [obind Z.eqb]. assert (read_at (stat_bytes st) 0 sizeof_stat = Ret (stat_bytes st)) as ->.
    { rewrite <- (strlen_stat st). unfold read_at. change (0 <=? 0) with true.
      rewrite strlen_stat. cbn. by rewrite take_ge. }
    cbn [obind]. rewrite (not_local stack e u di im FS). cbn [andb]. rewrite (fs_uri _ _ _ _ _ FS).
    destruct (set_remote_header w n st Hw Hh Hn Hf) as (s & s' & Hs & -> & Hu & Hm). cbn [obind].
    assert (headers_upd st w (set_servers (<[Z.to_nat n := s']> (servers w)) w)) as Hup.
    { split; [|done]. cbn. rewrite <- (list_insert_id (servers w) (Z.to_nat n) s Hs) at 1.
      apply Forall2_insert; [reflexivity|done]. }
    destruct (headers_upd_world _ _ _ Hup Hw Hh) as (Hw1 & Hh1 & _).
    destruct (IH (i + 1) sizeof_stat _ Hw1 Hh1) as (w' & Hrun & Hup' & _); [lia|lia|].
    exists w'. split; [exact Hrun|]. destruct Hup' as (F' & I' & D' & M'). destruct Hup as (F & I & D & M). split.
    + split; [by etrans|]. repeat split; congruence.
    + intros Hi0 o (s0 & Hs0 & Ho). rewrite <- (Hn0 Hi0) in Hs0. rewrite Hs in Hs0. injection Hs0 as <-.
      assert (servers (set_servers (<[Z.to_nat n := s']> (servers w)) w) !! Z.to_nat n = Some s') as Hs1.
      { cbn. apply list_lookup_insert_eq. by eapply lookup_lt_Some. }
      destruct (Forall2_lookup_l _ _ _ _ _ F' Hs1) as (s2 & Hs2 & (_ & _ & _ & U)).
      exists s2. rewrite <- (Hn0 Hi0). split; [done|].
      destruct (U _ (Hm _ Ho)) as [?|U2]; [done|]. by rewrite merged_again in U2.
Qed.

(** Writing block 0 and reading it back through the client library. *)
Lemma set_data_header w st o :
  world_ok e u di im w -> headers_ok w -> attrs_are w o -> stat_fits st ->
  exists w', set_data stack e fresh_shm false matching u 0 (stat_bytes st) 0 0 false w = Ret (1, w') /\
    world_ok e u di im w' /\ headers_ok w' /\ attrs_are w' (Some (merged o st)) /\
    datasets w' = datasets w /\ imssd w' = imssd w /\
    forall id, block_no im id -> block_of stack u di im w' id = block_of stack u di im w id.
Proof.
  intros Hw Hh Ho Hf. destruct (home_spec stack e u di im FS 0 GET numbered_zero) as [_ Hhome].
  destruct (set_header_loop st (Z.to_nat (repl_factor di)) 0 0 w) as (w' & Hrun & Hup & Ha); try done.
  { pose proof (fs_repl _ _ _ _ _ FS). lia. }
  destruct (headers_upd_world _ _ _ Hup Hw Hh) as (Hw' & Hh' & Hb). exists w'. split.
  { unfold set_data. change (i32 0) with 0. rewrite (location_ok stack e u di im FS) by (done || apply numbered_zero).
    cbn [obind]. destruct (Z.eqb_spec (home stack di im 0) (-1)); [lia|]. rewrite track_same.
    rewrite (update_same u di) by apply Hw. exact Hrun. }
  destruct Hup as (_ & _ & D & M). auto 10.
Qed.

Lemma get_ndata_header w st buf :
  world_ok e u di im w -> attrs_are w (Some st) -> sizeof_stat <= strlen buf ->
  prefixb err_code (stat_bytes st ++ drop 144 buf) = false ->
  get_ndata stack e fresh_shm matching u 0 buf 0 0 w = Ret (sizeof_stat, stat_bytes st ++ drop 144 buf, w).
Proof.
  intros Hw (s & Hs & Hg & _) Hl Herr. assert (server_ok e u s) as Hok by (eapply Forall_lookup_1; [apply Hw|done]).
  assert (length (stat_bytes st) = 144%nat) as H144 by (pose proof (strlen_stat st); unfold strlen, sizeof_stat in *; lia).
  rewrite (get_ndata_first stack e fresh_shm matching u di im FS w 0 0 0 sizeof_stat buf s (stat_bytes st)); try done.
  - rewrite write_at_front by by rewrite strlen_stat. cbn [obind]. rewrite H144, Herr, strlen_stat. done.
  - apply numbered_zero.
  - exists (Data (stat_bytes st)). split; [done|].
    apply (get_line_read stack e u di im FS s 0 0 sizeof_stat (mkBuf (stat_bytes st) sizeof_stat)); try done.
    apply numbered_zero.
Qed.

(** ** The blocks with the attributes beside them *)

(** Writing data leaves block 0 alone. *)
Lemma data_keeps_headers id off p w w' :
  1 <= id < 2 ^ 31 -> wld_upd e u id off p w w' ->
  (headers_ok w -> headers_ok w') /\ forall o, attrs_are w o -> attrs_are w' o.
Proof.
  intros Hid [F _].
  assert (forall s s' o, srv_upd (BLOCK_SIZE e) (block_key u id) off p s s' -> header_is s o -> header_is s' o) as Hk.
  { intros s s' o (Fr & _) [Hg Ho]. split; [|done]. rewrite Fr; [done|]. intros E. apply block_key_inj in E; lia. }
  split.
  - intros Hh. eapply Forall2_Forall_r; [exact F|]. eapply Forall_impl; [exact Hh|].
    intros s [o Ho] s' Hu. exists o. by eapply Hk.
  - intros o (s & Hs & Ho). destruct (Forall2_lookup_l _ _ _ _ _ F Hs) as (s' & Hs' & Hu).
    exists s'. split; [done|]. by eapply Hk.
Qed.

(** The cluster as a block service that also keeps the attributes [o]. *)
Program Definition attr_service (o : option stat) : @BlockService world (client_ops stack e fresh_shm matching u) := {|
  svc_ok w := world_ok e u di im w /\ headers_ok w /\ attrs_are w o;
  svc_no := block_no im;
  svc_block := block_of stack u di im;
  svc_error b := prefixb err_code b
|}.
Next Obligation. intros _. exact (fs_block _ _ _ _ _ FS). Qed.
Next Obligation.
  intros o s id b (Hs & _) Hno Hb. simpl in *. pose proof (fs_servers _ _ _ _ _ FS).
  by apply (block_of_length stack e u di im s id b Hs Hno ltac:(lia)).
Qed.
Next Obligation.
  intros o s id buffer p off (Hw & Hh & Ha) Hid Hp Ho Hfit Hr. cbn in *.
  destruct (set_data_run stack e fresh_shm matching u di im FS s id off buffer p Hw Hid Hp Ho Hfit Hr)
    as (w1 & Hrun & Hu & Hw1 & _).
  destruct (set_data_ok stack e fresh_shm matching u di im FS s id off buffer p Hw Hid Hp Ho Hfit Hr)
    as (w' & b0 & d & Hrun' & Hrest). rewrite Hrun in Hrun'. injection Hrun' as <-.
  pose proof (fs_servers _ _ _ _ _ FS). destruct Hid as [Hid1 Hid2].
  destruct (data_keeps_headers id off p s w1 ltac:(lia) Hu) as [K1 K2].
  exists w1, b0, d. split; [done|]. split; [auto|]. apply Hrest.
Qed.
Next Obligation. intros o s id buf b n off d (Hw & _) **. by eapply (client_get stack e fresh_shm matching u di im FS). Qed.
End header.

(** ** Publishing and fetching attributes *)

Lemma stat_not_error st rest : st_dev st = 0 -> prefixb err_code (stat_bytes st ++ rest) = false.
Proof. intros Hd. unfold stat_bytes, stat_chunks. by rewrite Hd. Qed.

Section publish.
Context (stack : bytes) (e : env) (fresh_shm : gmap Z bytes -> Z) (matching : Z).
Context (u : bytes) (di : dataset_info) (im : imss_info).
Context (FS : file_session stack e u di im).
Context (scratch : bytes) (now : Z * Z).
Context (Hscratch : sizeof_stat <= strlen scratch).

Abbreviation wof f := (wld (sess f)).
(** The cluster as client [f] sees it, with the attributes [o]. *)
Definition sees (f : fsys) (o : option stat) : Prop :=
  world_ok e u di im (wof f) /\ headers_ok u (wof f) /\ attrs_are stack u di im (wof f) o.

Lemma file_parent : exists d, parent_dir u = Ret d.
Proof. apply parent_dir_rooted, (fs_name _ _ _ _ _ FS). Qed.

Lemma find_fd_Some f fd st :
  find_fd u f = Ret (fd, Some st) -> flat (lmap f) u = Some (mkElem fd st).
Proof.
  destruct file_parent as [d Hd]. rewrite (find_fd_flat _ _ _ Hd).
  destruct (flat (lmap f) u) as [[x y]|]; [|done]. cbn. by intros [= -> ->].
Qed.

Lemma release_ok f fd st o :
  sees f o -> find_fd u f = Ret (fd, Some st) -> 0 <= fd -> stat_fits (set_times now now st) ->
  exists f', imss_release stack e fresh_shm false matching now u f = Ret (fd, f') /\
    sees f' (Some (merged o (set_times now now st))) /\ lmap f' = lmap f /\
    forall id, block_no im id -> block_of stack u di im (wof f') id = block_of stack u di im (wof f) id.
Proof.
  intros (Hw & Hh & Ha) Hfd Hpos Hf.
  destruct (set_data_header stack e fresh_shm matching u di im FS (wof f) (set_times now now st) o Hw Hh Ha Hf)
    as (w' & Hrun & Hw' & Hh' & Ha' & _ & _ & Hb).
  unfold imss_release. rewrite Hfd. cbn [obind]. destruct (Z.ltb_spec fd 0); [lia|].
  unfold put_block0. rewrite Hrun. cbn [obind]. change (1 <? 0) with false. cbv iota.
  eexists. split; [done|]. split; [done|]. split; [done|exact Hb].
Qed.

Lemma refresh_ok f fd old st :
  world_ok e u di im (wof f) -> attrs_are stack u di im (wof f) (Some st) ->
  find_fd u f = Ret (fd, Some old) -> 0 <= fd -> st_dev st = 0 ->
  exists f', imss_refresh stack e fresh_shm matching scratch u f = Ret (0, f') /\
    find_fd u f' = Ret (fd, Some st) /\ sess f' = sess f.
Proof.
  intros Hw Ha Hfd Hpos Hdev. destruct file_parent as [d Hd]. pose proof Ha as (s & _ & _ & Hfit).
  unfold imss_refresh. rewrite Hfd. cbn [obind]. destruct (Z.ltb_spec fd 0); [lia|]. unfold get_block0.
  rewrite (get_ndata_header stack e fresh_shm matching u di im FS (wof f) st scratch) by (done || by apply stat_not_error).
  cbn [obind]. change (sizeof_stat <? 0) with false. cbv iota.
  rewrite (parse_stat_bytes st (drop 144 scratch) (Hfit st eq_refl)). cbn [obind].
  apply find_fd_Some in Hfd. cbn [lmap set_blocks set_sess].
  destruct (flat_Update (lmap f) u st d _ Hd Hfd) as (h & -> & Hu & _). cbn [obind].
  eexists. split; [done|]. split; [by rewrite (find_fd_flat _ _ _ Hd); cbn; rewrite Hu|].
  cbn. by destruct (sess f).
Qed.
End publish.
