(* ===== verification/Sharing.v ===== *)
(** * Two processes and one file

    What one process writes through the interposed calls of Calls.v and then
    publishes by releasing the file is what another process, with its own
    session and its own map of open files, reads after asking for the
    attributes. *)

From S2P Require Import Prelude Types Policies Paths Store DataServer Wire Sessions Client Comms MetaStore Elasticity MetaServer Datasets MetaClient BlockService FileIO Posix EndToEnd LocalMap Files FileLife Attributes Calls Process.

Section descriptors.
Context {K : Type} `{FileLibc K} `{Libc K}.
Context (stack : bytes) (e : env) (fresh_shm : gmap Z bytes -> Z) (matching : Z).
Context (u : bytes) (di : dataset_info) (im : imss_info).
Context (FS : file_session stack e u di im).
Context (dceil : Z -> Z -> Z).
Context (Hdc : forall x b, 0 <= x < 2 ^ 53 -> 0 < b < 2 ^ 53 -> dceil x b = (x + b - 1) / b).
Implicit Types p : proc K.

Abbreviation wof p := (wld (sess (pf p))).
Abbreviation service o := (attr_service stack e fresh_shm matching u di im FS o).
Abbreviation byte_at w x := (@file_byte world _ (service None) w x).

(** Descriptor [fd] of the process is open on the file, with the attributes
    [st] in the map of open files. *)
Definition holds_file p (fd d : Z) (st : stat) : Prop :=
  (exists pos, ptab p !! fd = Some (u, pos)) /\ find_fd u (pf p) = Ret (d, Some st).

Lemma name_nonempty : u <> [].
Proof. destruct (fs_name _ _ _ _ _ FS) as [[q ->] _]. done. Qed.

Lemma holds_named p fd d st x : holds_file p fd d st -> named fd (set_perr x p) = Some u.
Proof.
  intros [[pos Hp] _]. unfold named, map_fd_search_by_val. cbn. rewrite Hp. pose proof name_nonempty. by destruct u.
Qed.

Lemma to_posix_ok p fd d st :
  holds_file p fd d st ->
  map_fd_search_by_val fd (ptab p) = u /\
  to_posix u p = Ret (mkP (mkF (wof p) {[ u := (d, st) ]}) (ptab p) (pk p) (perr p) ∅ ∅) /\
  forall q : pstate world K, fds q = ptab p -> in_table fd q = Some u.
Proof.
  intros [[pos Hp] Hf]. unfold map_fd_search_by_val, to_posix. rewrite Hp, Hf. split; [done|]. split; [done|].
  intros q Hq. unfold in_table, map_fd_search_by_val. rewrite Hq, Hp. pose proof name_nonempty. by destruct u.
Qed.

(** The file's entry of the map of open files follows the call. *)
Lemma from_posix_ok p fd d st q st' :
  holds_file p fd d st -> fds q = ptab p -> files (fs q) !! u = Some (d, st') ->
  exists p', from_posix u q p = Ret p' /\ holds_file p' fd d st' /\ wof p' = svc (fs q) /\
    set_wld (svc (fs q)) (sess (pf p)) = sess (pf p').
Proof.
  intros [[pos Hp] Hf] Hq Hfile. unfold from_posix. rewrite Hfile.
  destruct (file_parent stack e u di im FS) as [dir Hd]. apply (find_fd_Some stack e u di im FS) in Hf.
  cbn [lmap set_blocks set_sess].
  destruct (flat_Update (lmap (pf p)) u st' dir _ Hd Hf) as (h & -> & Hu & _). cbn [obind].
  eexists. split; [done|]. split; [|done]. split; [exists pos; cbn; by rewrite Hq|].
  cbn [pf]. rewrite (find_fd_flat _ _ _ Hd). cbn. by rewrite Hu.
Qed.

(** Writing at a position stores the bytes and leaves block 0 alone. *)
Lemma pwrite_fd_ok p fd d st o buf n off :
  holds_file p fd d st -> sees stack e u di im (pf p) o -> 0 <= d -> 0 <= off -> 0 < n <= strlen buf ->
  off + n < 2 ^ 53 -> 0 <= st_size st < 2 ^ 53 ->
  num_storages im + ((off + n - 1) / BLOCK_SIZE e + 1) <= 2 ^ 31 ->
  exists p' st', pwrite_fd stack e fresh_shm matching dceil fd buf n off p = Ret (n, p') /\
    holds_file p' fd d st' /\ sees stack e u di im (pf p') o /\
    (st' = st \/ st' = set_size (off + n) ((off + n + BLOCK_SIZE e - 1) / BLOCK_SIZE e) st) /\
    st_size st' = Z.max (st_size st) (off + n) /\
    (forall i, 0 <= i < n -> byte_at (wof p') (off + i) = buf !! Z.to_nat i).
Proof.
  intros Hp Hs Hd Hoff Hn Hmax Hst Hblk. destruct (to_posix_ok p fd d st Hp) as (Hname & Hto & Hin).
  pose proof Hp as [[pos Hpos] Hfd].
  destruct (@imss_write_run world _ (service o) dceil Hdc u buf n off d st (mkF (wof p) {[ u := (d, st) ]}))
    as (f' & st' & Hrun & Hok & Hf' & Hsz & Hb & _ & Hst'); try done; try lia.
  { cbn. apply lookup_singleton_eq. }
  { intros id Hid. cbn in *. split; lia. }
  unfold pwrite_fd, on_file. rewrite Hname, Hto. cbn [obind]. unfold pwrite. rewrite Hin by done.
  unfold generalWrite. rewrite !u64_of by lia. change (u64 (-1)) with (2 ^ 64 - 1).
  destruct (Z.eqb_spec off (2 ^ 64 - 1)); [lia|]. cbn [andb fs set_errno].
  unfold fd_lookup. cbn [files]. rewrite lookup_singleton_eq. rewrite i64_of by lia. rewrite Hrun. cbn [obind].
  destruct (Z.ltb_spec n 0); [lia|]. cbn [obind].
  destruct (from_posix_ok p fd d st (set_fs f' (set_errno 0 (mkP (mkF (wof p) {[u := (d, st)]}) (ptab p) (pk p) (perr p) ∅ ∅))) st' Hp)
    as (p' & -> & Hp' & Hw' & _); try done.
  cbn [obind]. exists p', st'. split; [done|]. split; [done|]. cbn in Hw'.
  split; [unfold sees; by rewrite Hw'|]. split; [done|]. split; [done|]. by rewrite Hw'.
Qed.

(** Reading at a position inside the file. *)
Lemma pread_fd_ok p fd d st out n off :
  holds_file p fd d st -> world_ok e u di im (wof p) -> 0 <= d -> 0 <= off -> 0 < n <= strlen out ->
  off + n <= st_size st < 2 ^ 53 -> num_storages im + ((off + n - 1) / BLOCK_SIZE e + 1) <= 2 ^ 31 ->
  forall buf, n <= strlen buf -> marker_free (BLOCK_SIZE e) off n buf ->
  (forall i, 0 <= i < n -> byte_at (wof p) (off + i) = buf !! Z.to_nat i) ->
  exists p', pread_fd stack e fresh_shm matching dceil fd out n off p
             = Ret (n, take (Z.to_nat n) buf ++ drop (Z.to_nat n) out, p') /\ holds_file p' fd d st.
Proof.
  intros Hp Hw Hd Hoff Hn Hst Hblk buf Hbuf Hm Hb. destruct (to_posix_ok p fd d st Hp) as (Hname & Hto & Hin).
  pose (I := client_service stack e fresh_shm matching u di im FS).
  assert (forall i, 0 <= i < n -> @file_byte world _ I (wof p) (off + i) = buf !! Z.to_nat i) as Hbi by exact Hb.
  assert (@reads_clean world _ I (wof p) out off n) as Hcl.
  { apply (marker_free_clean stack e fresh_shm matching u di im FS (wof p) buf out off n); try done; lia. }
  destruct (@imss_sread_ok world _ I dceil Hdc u out n off d st (mkF (wof p) {[ u := (d, st) ]}))
    as (out' & Hr & Hl & Ht & Hb'); try done; try lia.
  { cbn. apply lookup_singleton_eq. }
  { intros id Hid. cbn in *. split; lia. }
  { intros x Hx. replace x with (off + (x - off)) by lia. cbn [svc]. rewrite Hbi by lia.
    apply lookup_lt_is_Some. unfold strlen in *. lia. }
  unfold pread_fd, on_file. rewrite Hname, Hto. cbn [obind]. unfold pread. rewrite Hin by done.
  cbn [fs set_errno]. rewrite Hr. cbn [obind].
  destruct (from_posix_ok p fd d st (set_fs (mkF (wof p) {[u := (d, st)]}) (set_errno 0 (mkP (mkF (wof p) {[u := (d, st)]}) (ptab p) (pk p) (perr p) ∅ ∅))) st Hp)
    as (p' & -> & Hp' & _); [done|cbn; apply lookup_singleton_eq|].
  cbn [obind]. exists p'. split; [|done]. do 2 f_equal. f_equal.
  rewrite <- (take_drop (Z.to_nat n) out') at 1. rewrite Ht. f_equal.
  apply take_eq_lookup; unfold strlen in *; try lia. intros i Hi. rewrite <- Hb', Hbi by lia. done.
Qed.

(** Asking for the attributes brings those of block 0. *)
Lemma fstat_ok menv_of pos scratch p fd d old st :
  holds_file p fd d old -> world_ok e u di im (wof p) -> attrs_are stack u di im (wof p) (Some st) ->
  0 <= d -> st_dev st = 0 -> u <> IMSS_ROOT -> sizeof_stat <= strlen scratch ->
  exists p', fstat stack e fresh_shm matching menv_of pos dceil scratch fd p = Ret (0, shown dceil st, p') /\
    holds_file p' fd d st /\ wof p' = wof p.
Proof.
  intros Hp Hw Ha Hd Hdev Hroot Hs. pose proof Hp as [[ps Hps] Hfd].
  destruct (refresh_ok stack e fresh_shm matching u di im FS scratch Hs (pf p) d old st) as (f & Hr & Hf & Hsess); try done.
  unfold fstat. rewrite (holds_named p fd d old 0 Hp). unfold attributes. cbn [pf set_perr]. rewrite Hr. cbn [obind].
  unfold getattr. destruct (streq u IMSS_ROOT) eqn:E; [by apply streq_true in E|]. rewrite Hf. cbn [obind].
  destruct (Z.ltb_spec d 0); [lia|]. cbn [obind report_error].
  eexists. split; [done|]. split; [split; [by exists ps|done]|]. cbn. by rewrite Hsess.
Qed.
End descriptors.

(** ** Attributes that fit *)

Definition time_fits (t : Z * Z) : Prop := - 2 ^ 63 <= fst t < 2 ^ 63 /\ - 2 ^ 63 <= snd t < 2 ^ 63.

Lemma fits_times t st : time_fits t -> stat_fits st -> stat_fits (set_times t t st).
Proof.
  intros [T1 T2] [H1 H2 H3]. split; [done|done|]. rewrite !Forall_cons in *. destruct_and! H3. cbn.
  repeat (split; [done|]). done.
Qed.

Lemma fits_size size blocks st :
  - 2 ^ 63 <= size < 2 ^ 63 -> - 2 ^ 63 <= blocks < 2 ^ 63 -> stat_fits st -> stat_fits (set_size size blocks st).
Proof.
  intros T1 T2 [H1 H2 H3]. split; [done|done|]. rewrite !Forall_cons in *. destruct_and! H3. cbn.
  repeat (split; [done|]). done.
Qed.

(** C2. One process writes a range of a file and releases it; another process,
    with its own session on the same servers, asks for the attributes and reads
    the range: it gets the bytes written, and the size is the largest of the
    end of the write, the size the writer knew and the size that was
    published before. *)
Theorem written_file_is_shared {K : Type} `{FileLibc K} `{Libc K} (stack : bytes) (e : env)
  (fresh_shm : gmap Z bytes -> Z) (matching : Z) (u : bytes) (di : dataset_info) (im : imss_info)
  (dceil : Z -> Z -> Z) (menv_of : Z -> menv) (pos : Z) (scratch : bytes) (now : Z * Z)
  (p : proc K) (fd d : Z) (st st0 : stat) (buf : bytes) (n off : Z)
  (FS : file_session stack e u di im)
  (Hdc : forall x b, 0 <= x < 2 ^ 53 -> 0 < b < 2 ^ 53 -> dceil x b = (x + b - 1) / b)
  (Hp : holds_file u p fd d st) (Hs : sees stack e u di im (pf p) (Some st0)) (Hd : 0 <= d)
  (Hst : stat_fits st) (Hdev : st_dev st = 0) (Hsize : 0 <= st_size st < 2 ^ 53) (Hsize0 : 0 <= st_size st0 < 2 ^ 53)
  (Hoff : 0 <= off) (Hn : 0 < n <= strlen buf) (Hmax : off + n < 2 ^ 53)
  (Hblk : num_storages im + ((off + n - 1) / BLOCK_SIZE e + 1) <= 2 ^ 31)
  (Hmark : marker_free (BLOCK_SIZE e) off n buf) (Hnow : time_fits now)
  (Hroot : u <> IMSS_ROOT) (Hscr : sizeof_stat <= strlen scratch) :
  exists p1 f2,
    pwrite_fd stack e fresh_shm matching dceil fd buf n off p = Ret (n, p1) /\
    imss_release stack e fresh_shm false matching now u (pf p1) = Ret (d, f2) /\
    forall (q : proc K) (fd' d' : Z) (old : stat) (out : bytes),
      servers (wld (sess (pf q))) = servers (wld (sess f2)) -> world_ok e u di im (wld (sess (pf q))) ->
      holds_file u q fd' d' old -> 0 <= d' -> n <= strlen out ->
      exists q1 q2 st',
        fstat stack e fresh_shm matching menv_of pos dceil scratch fd' q = Ret (0, shown dceil st', q1) /\
        st_size st' = Z.max (Z.max (st_size st) (off + n)) (st_size st0) /\
        pread_fd stack e fresh_shm matching dceil fd' out n off q1
        = Ret (n, take (Z.to_nat n) buf ++ drop (Z.to_nat n) out, q2).
Proof.
  destruct (pwrite_fd_ok stack e fresh_shm matching u di im FS dceil Hdc p fd d st (Some st0) buf n off)
    as (p1 & st1 & Hwrite & Hp1 & Hs1 & Hst1 & Hsz1 & Hbytes); try done.
  pose proof (fs_block _ _ _ _ _ FS) as HB.
  assert (stat_fits (set_times now now st1) /\ st_dev st1 = 0) as [Hfit1 Hdev1].
  { destruct Hst1 as [-> | ->]; (split; [|done]); apply fits_times; try done.
    apply fits_size; [lia| |done]. pose proof (Z.div_pos (off + n + BLOCK_SIZE e - 1) (BLOCK_SIZE e)).
    pose proof (Z.div_le_upper_bound (off + n + BLOCK_SIZE e - 1) (BLOCK_SIZE e) (off + n + BLOCK_SIZE e - 1)). nia. }
  destruct (release_ok stack e fresh_shm matching u di im FS now (pf p1) d st1 (Some st0))
    as (f2 & Hrel & (Hw2 & Hh2 & Ha2) & _ & Hblk2); try done; [apply Hp1|].
  exists p1, f2. split; [done|]. split; [done|]. intros q fd' d' old out Hsrv Hwq Hq Hd' Hout.
  set (st' := merged (Some st0) (set_times now now st1)) in *.
  assert (attrs_are stack u di im (wld (sess (pf q))) (Some st')) as Haq by (unfold attrs_are; by rewrite Hsrv).
  destruct (fstat_ok stack e fresh_shm matching u di im FS dceil menv_of pos scratch q fd' d' old st')
    as (q1 & Hfs & Hq1 & Hw1); try done.
  destruct (pread_fd_ok stack e fresh_shm matching u di im FS dceil Hdc q1 fd' d' st' out n off) with buf
    as (q2 & Hread & _); try done; try lia.
  - by rewrite Hw1.
  - cbn. lia.
  - rewrite Hw1. intros i Hi. rewrite <- Hbytes by done.
    assert (block_no im ((off + i) / BLOCK_SIZE e + 1)) as Hno.
    { pose proof (Z.div_le_mono (off + i) (off + n - 1) (BLOCK_SIZE e)). pose proof (Z.div_pos (off + i) (BLOCK_SIZE e)).
      split; lia. }
    unfold file_byte. cbn. unfold block_of. rewrite Hsrv. specialize (Hblk2 _ Hno). unfold block_of in Hblk2.
    by rewrite Hblk2.
  - exists q1, q2, st'. split; [done|]. split; [cbn; lia|done].
Qed.

(** ** Example: a file of 3 bytes, published, on two servers *)

Definition shared_stat (size : Z) : stat := mkStat size 1 1 33188.

Lemma shared_fits size : 0 <= size < 2 ^ 53 -> stat_fits (shared_stat size).
Proof. intros Hs. split; repeat (apply Forall_cons_2; [cbn; lia|]); apply Forall_nil_2. Qed.

(** The cluster after block 0 was written. *)
Lemma published_cluster : exists w,
  world_ok (big_env 4) cluster_file (cluster_info 2) cluster_imss w /\ headers_ok cluster_file w /\
  attrs_are [] cluster_file (cluster_info 2) cluster_imss w (Some (shared_stat 3)).
Proof.
  destruct (set_data_header [] (big_env 4) no_shm 0 cluster_file (cluster_info 2) cluster_imss
    (cluster_session 4 2 ltac:(lia) ltac:(lia)) (cluster 2) (shared_stat 3) None) as (w & _ & Hw & Hh & Ha & _).
  - apply cluster_ok.
  - repeat constructor; exists None; done.
  - eexists. split; [vm_compute; reflexivity|]. split; [vm_compute; reflexivity|done].
  - apply shared_fits. lia.
  - by exists w.
Qed.

Definition sharing_process (w : world) : proc Z :=
  mkProc (mkFS (set_wld w (sess empty_fs)) {[ IMSS_ROOT := {[ cluster_file := mkElem 0 (shared_stat 3) ]} ]} 0)
    {[ 3 := (cluster_file, 0) ]} 4 0 None ∅ (mkListing true [] 0 0).

#[local] Existing Instance counter_libc.
#[local] Existing Instance counter_descriptors.

Lemma sharing_sees w :
  world_ok (big_env 4) cluster_file (cluster_info 2) cluster_imss w -> headers_ok cluster_file w ->
  attrs_are [] cluster_file (cluster_info 2) cluster_imss w (Some (shared_stat 3)) ->
  sees [] (big_env 4) cluster_file (cluster_info 2) cluster_imss (pf (sharing_process w)) (Some (shared_stat 3)).
Proof. done. Qed.

Lemma written_file_is_shared_witness :
  exists w p1 f2,
    pwrite_fd [] (big_env 4) no_shm 0 div_up 3 (B "hello") 5 1 (sharing_process w) = Ret (5, p1) /\
    imss_release [] (big_env 4) no_shm false 0 (5, 0) cluster_file (pf p1) = Ret (0, f2).
Proof.
  destruct published_cluster as (w & Hw & Hh & Ha). exists w.
  destruct (written_file_is_shared [] (big_env 4) no_shm 0 cluster_file (cluster_info 2) cluster_imss div_up
    fs_menv 0 fs_scratch (5, 0) (sharing_process w) 3 0 (shared_stat 3) (shared_stat 3) (B "hello") 5 1)
    as (p1 & f2 & H1 & H2 & _).
  - apply cluster_session; lia.
  - reflexivity.
  - split; [exists 0; apply lookup_singleton_eq|]. vm_compute. reflexivity.
  - by apply sharing_sees.
  - lia.
  - apply shared_fits. lia.
  - reflexivity.
  - cbn. lia.
  - cbn. lia.
  - lia.
  - vm_compute. split; [reflexivity|discriminate].
  - lia.
  - vm_compute. discriminate.
  - intros i Hi _. assert (exists k, i = Z.of_nat k /\ (k < 5)%nat) as (k & -> & Hk) by (exists (Z.to_nat i); lia).
    rewrite Nat2Z.id. do 5 (destruct k as [|k]; [vm_compute; discriminate|]). lia.
  - split; cbn; lia.
  - discriminate.
  - vm_compute. discriminate.
  - by exists p1, f2.
Defined.
