(* ===== verification/Migration.v ===== *)
(** * Moving blocks between data servers

    When a server leaves ([STOPSERVER]) or the servers are renumbered
    ([REORDERSERVER]), a thread of the data server sends every block it holds
    to the server where the new number of servers puts it
    ([move_blocks_2_server], src/src/workers.c, over [set_data_server],
    src/src/imss.c).  The connections that [open_imss] has made, and the policy
    of the instance, are the parameters [conns] and [plcy]; the process that
    moves its blocks is server [me] of the cluster of Client.v. *)

From S2P Require Import Prelude Types Policies Paths Store DataServer Wire Sessions Client Comms MetaStore Elasticity MetaServer Datasets BlockService FileIO EndToEnd LocalMap Files FileLife Attributes.

Section migration.
Context (stack : bytes) (e : env) (conns : list nat) (plcy : Z) (data_sent : bool).

(** The file and the number of a block: [find('$')] gives -1 without a ['$'],
    and then both parts are the whole key.  Nothing catches what [stoi]
    throws. *)
Definition split_key (k : bytes) : outcome (bytes * Z) :=
  match stoi (match strchr dollar k with Some i => drop (S i) k | None => k end) with
  | Some n => Ret (base_key k, n)
  | None => Exit ABORTED
  end.

(** A request whose data cannot be sent is not served. *)
Definition set_data_server (data_uri : bytes) (data_id : Z) (buffer : bytes) (size offset next_server : Z)
    (w : world) : outcome (Z * world) :=
  match conns !! Z.to_nat (u32 next_server) with
  | None => Undef OutOfBounds
  | Some n =>
      if negb (send_ok e) then Exit (-1)
      else if negb data_sent then Ret (-1, w)
      else
        let* msg := read_at buffer 0 size in
        let* w := deliver e (Z.of_nat n) (set_request size offset data_uri data_id) msg w in
        Ret (1, w)
  end.

(** The mover's own process. *)
Definition own (me : nat) (w : world) : outcome server :=
  match servers w !! me with Some s => Ret s | None => Undef OutOfBounds end.
Definition set_own (me : nat) (s : server) (w : world) : world := set_servers (<[me := s]> (servers w)) w.

(** The body of the inner loop; [false] when the thread gives up. *)
Definition move_block (me : nat) (server_id : Z) (inner_key : bytes) (inner_value : BufferValue bytes) (w : world)
  : outcome (bool * world) :=
  let* (data_uri, block_number) := split_key inner_key in
  let* s := own me w in
  let* next_server := find_server stack (number_active_storage_servers s) block_number data_uri SET
                        TYPE_DATA_SERVER plcy in
  if (id_server_to_modify s =? -1) && (u32 next_server =? server_id) then Ret (true, w)
  else
    let* (r, w) := set_data_server data_uri block_number (data inner_value) (bsize inner_value) 0 next_server w in
    if r <? 0 then Ret (false, w)
    else
      let* s := own me w in
      let* (_, h) := HierarchicalMapPutInGarbageCollector inner_key (hr s) in
      Ret (true, set_own me (set_hr h s) w).

Fixpoint move_loop (me : nat) (server_id : Z) (l : list (bytes * BufferValue bytes)) (w : world)
  : outcome (bool * world) :=
  match l with
  | [] => Ret (true, w)
  | (k, v) :: l' =>
      let* (go, w) := move_block me server_id k v w in
      if go then move_loop me server_id l' w else Ret (false, w)
  end.

(** The entries of the store in the order of the two nested loops.  Moving
    adds no key to the mover's maps, so they are those of the beginning. *)
Definition entries_of (m : map_records bytes) : list (bytes * BufferValue bytes) :=
  omap (fun k => (fun v => (k, v)) <$> buffer m !! k) (keys_of (buffer m)).
Definition all_entries (h : HierarchicalRecords bytes) : list (bytes * BufferValue bytes) :=
  concat (omap (fun d => entries_of <$> hiermap h !! d) (dirs_of h)).

(** [AttendPendingRequests] on a data server, whose [curr_global_imss] is
    never set. *)
Definition attend_pending (s : server) : outcome server :=
  if negb (malleability_on s) then Ret s
  else if id_server_to_modify s <? 0 then Ret s
  else Undef NullDeref.

(** [malleability_on = 2], which every test of it takes as set. *)
Definition set_malleability (b : bool) (s : server) : server :=
  mkServer (hr s) (buffer_snapshot s) (buffer_broadcast s) (shm s) (eps s) b
    (waiting_clients s) (pending_requests s) (srv_id s) (id_server_to_modify s)
    (number_active_storage_servers s) (finish_dispatcher s) (movers s).

(** The thread; [true] when it has acknowledged the move to the metadata
    server.  [number_active_storage_servers < 0] is never true of an unsigned
    number. *)
Definition move_blocks_2_server (me : nat) (w : world) : outcome (bool * world) :=
  let* s := own me w in
  let server_id := u32 (srv_id s) in
  let* (done_, w) := move_loop me server_id (all_entries (hr s)) w in
  if negb done_ then Ret (false, w)
  else
    let* s := own me w in
    let* s := attend_pending s in
    let s := if negb (id_server_to_modify s =? -1) then set_malleability true s else s in
    Ret (true, set_own me s w).
End migration.

(** ** Where blocks go and what arrives *)

(** The entry a server has under [k]. *)
Definition entry_at (s : server) (k : bytes) : option (BufferValue bytes) :=
  match HierarchicalMapGet k (hr s) with Ret o => o | _ => None end.

Definition block_at (w : world) (n : nat) (k : bytes) : option (BufferValue bytes) :=
  s ← servers w !! n; entry_at s k.

(** What the receiver keeps of entry [v] under [k] when it had [old]: the
    bytes of a data block, the merged attributes of a header. *)
Definition landed (k : bytes) (v : BufferValue bytes) (old : option (BufferValue bytes)) : BufferValue bytes :=
  match old with
  | None => v
  | Some o =>
      if is_block_zero k
      then match parse_stat (data o), parse_stat (data v) with
           | Ret a, Ret b => mkBuf (stat_bytes (merged (Some a) b)) sizeof_stat
           | _, _ => v
           end
      else v
  end.

Lemma split_key_block u id :
  dollar ∉ u -> 0 <= id < 2 ^ 31 -> split_key (block_key u id) = Ret (u, id).
Proof.
  intros Hu Hid. unfold split_key. rewrite (base_key_app u (print_d id) Hu : base_key (block_key u id) = u).
  unfold block_key. rewrite strchr_app_first by done.
  rewrite drop_app_ge, Nat.sub_succ_l, Nat.sub_diag by lia. change (drop 1 (dollar :: print_d id)) with (print_d id).
  unfold stoi. rewrite print_d_u by lia. rewrite <- (app_nil_r (print_u id)).
  change (scan_d (print_u id ++ [])) with (scan_d (sp :: print_u id ++ [])).
  rewrite scan_d_print by (done || lia).
  assert ((- 2 ^ 31 <=? id) && (id <? 2 ^ 31) = true) as -> by lia. done.
Qed.

Lemma block_key_file u u' i j :
  dollar ∉ u -> dollar ∉ u' -> 0 <= i < 2 ^ 31 -> 0 <= j < 2 ^ 31 ->
  block_key u i = block_key u' j -> u = u' /\ i = j.
Proof.
  intros Hu Hu' Hi Hj E. assert (u = u') as <-.
  { rewrite <- (base_key_app u (print_d i) Hu), <- (base_key_app u' (print_d j) Hu'). by f_equal. }
  split; [done|]. by eapply block_key_inj.
Qed.

(** ** The setting of a move *)

Section moving.
Context (stack : bytes) (e : env) (conns : list nat) (plcy : Z) (me : nat).

(** A working network and memory, and a policy that places blocks. *)
Record network : Prop := {
  net_stack : strlen stack < 64;
  net_malloc : malloc_ok e;
  net_memory : forall n, 0 <= n -> is_Some (malloc e n);
  net_recv : recv_ok e = true;
  net_send : send_ok e = true;
  net_block : 0 < BLOCK_SIZE e < 2 ^ 32;
  net_policy : served_policy plcy = true
}.

(** What servers hold: the attributes of a file in its block 0, and full
    blocks of data. *)
Definition entry_ok (N : Z) (k : bytes) (v : BufferValue bytes) : Prop :=
  exists u id, k = block_key u id /\ wire_uri u /\ file_name u /\ 0 <= id /\ N + id <= 2 ^ 31 /\
    if id =? 0 then exists st, v = mkBuf (stat_bytes st) sizeof_stat /\ stat_fits st
    else bsize v = BLOCK_SIZE e.

Definition tidy (N : Z) (s : server) : Prop :=
  wf_store (BLOCK_SIZE e) (hr s) /\ forall k v, entry_at s k = Some v -> entry_ok N k v.

(** The files of this session, for the lemmas on requests. *)
Definition any_file (u : bytes) : dataset_info :=
  mkDataset u "F" (B "RR") u [] 0 0 4 1 0 0 (-1) 0 2 [] 0 0 STATUS_ATACH 2 0 100 (-1) (-1) None.

Context (NET : network).

Lemma any_session u : wire_uri u -> file_name u -> file_session stack e u (any_file u) cluster_imss.
Proof.
  intros Hw Hn. split; try done; try apply NET. by left.
Qed.

Lemma entry_at_rooted s k : rooted k -> HierarchicalMapGet k (hr s) = Ret (entry_at s k).
Proof. intros Hk. unfold entry_at. by destruct (HGet_rooted k (hr s) Hk) as [o ->]. Qed.

Lemma entry_ok_block N u id v :
  0 < N -> file_name u -> 0 <= id -> N + id <= 2 ^ 31 -> entry_ok N (block_key u id) v ->
  if id =? 0 then exists st, v = mkBuf (stat_bytes st) sizeof_stat /\ stat_fits st else bsize v = BLOCK_SIZE e.
Proof.
  intros HN Hu H0 Hb (u' & id' & E & _ & Hu' & H0' & Hb' & Hv).
  by apply block_key_file in E as [-> ->]; try lia; [|apply Hu|apply Hu'].
Qed.

(** The line and its message reach the write operation of the server. *)
Lemma set_line_served u id v s :
  wire_uri u -> 0 <= id < 2 ^ 31 -> 0 <= bsize v < 2 ^ 32 ->
  srv_worker_helper (with_payload (data v) e) (set_request (bsize v) 0 u id) s
  = write_op (with_payload (data v) e) false false (mkReq (bsize v) 0 (-1) (block_key u id) 0) s.
Proof.
  intros Hu Hid Hb. unfold set_request. rewrite set_line by done. fold (set_request (bsize v) 0 u id).
  destruct (wire_parse u id (bsize v) 0 0 0 Hu) as [-> _]; done || lia.
Qed.

Lemma tidy_upd N k v s s' :
  tidy N s -> wf_store (BLOCK_SIZE e) (hr s') -> entry_at s' k = Some v -> entry_ok N k v ->
  (forall k', k' <> k -> entry_at s' k' = entry_at s k') -> tidy N s'.
Proof.
  intros [_ Hs] Hwf Hk Hv Hf. split; [done|]. intros k' v' Hv'.
  destruct (decide (k' = k)) as [->|Hne]; [by simplify_eq|]. rewrite Hf in Hv' by done. by apply Hs.
Qed.

Lemma data_arrives N u id v s :
  0 < N -> tidy N s -> wire_uri u -> file_name u -> 1 <= id -> N + id <= 2 ^ 31 ->
  bsize v = BLOCK_SIZE e -> strlen (data v) = bsize v ->
  exists s', srv_worker_helper (with_payload (data v) e) (set_request (bsize v) 0 u id) s = Ret (0, [Msg MSG_OK_OP], s') /\
    wf_store (BLOCK_SIZE e) (hr s') /\ entry_at s' (block_key u id) = Some v /\
    forall k, k <> block_key u id -> entry_at s' k = entry_at s k.
Proof.
  intros HN [Hwf Ht] Hw Hn Hid Hb Hv Hl. pose proof (net_block NET) as HB.
  set (rq := mkReq (bsize v) 0 (-1) (block_key u id) 0).
  assert (good_write (with_payload (data v) e) rq s) as Hgw.
  { split; [apply block_key_rooted, Hn|]. split; [apply block_key_not_zero; [apply Hn|lia]|].
    split; [apply (net_recv NET)|]. split; [apply (net_send NET)|].
    split; [intros E%(f_equal strlen); change (strlen (data v) = 0) in E; lia|]. split; [done|]. split; [change (0 + strlen (data v) <= BLOCK_SIZE e); lia|].
    split; [apply (net_malloc NET)|]. split; [apply (net_memory NET)|]. split; [done|].
    intros o Ho. assert (entry_at s (block_key u id) = Some o) as Ho' by (unfold entry_at; cbn in Ho; by rewrite Ho).
    pose proof (entry_ok_block N u id o HN Hn ltac:(lia) Hb (Ht _ _ Ho')) as Hz. destruct (Z.eqb_spec id 0); [lia|done]. }
  destruct (write_op_spec _ _ _ Hgw) as (s' & Hrun & (b0 & d & Hb0 & _ & Hd & Hg & Hf) & _).
  exists s'. rewrite set_line_served by (done || lia). split; [done|]. split; [|split].
  - apply (wf_write_op (with_payload (data v) e) (net_malloc NET) false false rq s 0 [Msg MSG_OK_OP] s' Hwf Hrun).
  - unfold entry_at. cbn in Hg. rewrite Hg. f_equal. cbn in Hd, Hb0.
    rewrite (write_at_whole b0 (data v) d ltac:(lia) Hd). rewrite <- Hv. by destruct v.
  - intros k Hk. unfold entry_at. by rewrite Hf.
Qed.

Lemma header_arrives N u st s :
  0 < N -> N <= 2 ^ 31 -> tidy N s -> wire_uri u -> file_name u -> stat_fits st ->
  exists s' o, srv_worker_helper (with_payload (stat_bytes st) e) (set_request sizeof_stat 0 u 0) s
      = Ret (0, [Msg MSG_OK_OP], s') /\
    wf_store (BLOCK_SIZE e) (hr s') /\
    entry_at s (block_key u 0) = (fun st => mkBuf (stat_bytes st) sizeof_stat) <$> o /\
    (forall x, o = Some x -> stat_fits x) /\
    entry_at s' (block_key u 0) = Some (mkBuf (stat_bytes (merged o st)) sizeof_stat) /\
    forall k, k <> block_key u 0 -> entry_at s' k = entry_at s k.
Proof.
  intros HN HN' [Hwf Ht] Hw Hn Hf.
  assert (exists o, header_is u s o) as [o Ho].
  { pose proof (entry_at_rooted s (block_key u 0) (block_key_rooted _ _ (proj1 Hn))) as Hg.
    destruct (entry_at s (block_key u 0)) as [v|] eqn:Ev; [|exists None; by split].
    destruct (entry_ok_block N u 0 v HN Hn ltac:(lia) ltac:(lia) (Ht _ _ Ev)) as (x & -> & Hx).
    exists (Some x). split; [done|]. by intros ? [= <-]. }
  destruct (header_run stack e u _ _ (any_session u Hw Hn) st s o Hf Ho) as (s' & Hrun & _ & Hg & Hfr).
  exists s', o. pose proof (set_line_served u 0 (mkBuf (stat_bytes st) sizeof_stat) s) as Hline. cbn [bsize data] in Hline.
  rewrite Hline by (done || (unfold sizeof_stat; lia)). split; [done|].
  split; [apply (wf_write_op (with_payload (stat_bytes st) e) (net_malloc NET) false false _ s 0 [Msg MSG_OK_OP] s' Hwf Hrun)|].
  destruct Ho as [Ho Hox]. unfold entry_at. rewrite Ho, Hg. split; [done|]. split; [done|]. split; [done|].
  intros k Hk. by rewrite Hfr.
Qed.

(** One block that arrives at a server. *)
Lemma arrives N u id v s :
  0 < N -> tidy N s -> entry_ok N (block_key u id) v -> strlen (data v) = bsize v ->
  wire_uri u -> file_name u -> 0 <= id -> N + id <= 2 ^ 31 ->
  exists s', srv_worker_helper (with_payload (data v) e) (set_request (bsize v) 0 u id) s = Ret (0, [Msg MSG_OK_OP], s') /\
    tidy N s' /\ entry_at s' (block_key u id) = Some (landed (block_key u id) v (entry_at s (block_key u id))) /\
    forall k, k <> block_key u id -> entry_at s' k = entry_at s k.
Proof.
  intros HN Ht He Hl Hw Hn H0 Hb. pose proof (entry_ok_block N u id v HN Hn H0 Hb He) as Hv.
  destruct (Z.eqb_spec id 0) as [->|Hz].
  - destruct Hv as (st & -> & Hst).
    destruct (header_arrives N u st s HN ltac:(lia) Ht Hw Hn Hst) as (s' & o & Hrun & Hwf & Ho & Hox & Hg & Hf).
    exists s'. split; [done|]. split; [|split; [|done]].
    + eapply tidy_upd; [done|done|exact Hg| |done]. exists u, 0. do 5 (split; [done|]). cbn.
      eexists. split; [done|]. by apply merged_fits.
    + rewrite Hg, Ho. f_equal. destruct o as [o|]; [|done]. cbn [fmap option_fmap option_map landed data].
      rewrite key0_zero, <- (app_nil_r (stat_bytes o)), parse_stat_bytes by auto.
      by rewrite <- (app_nil_r (stat_bytes st)), parse_stat_bytes by auto.
  - destruct (data_arrives N u id v s) as (s' & Hrun & Hwf & Hg & Hf); try done; [lia|].
    exists s'. split; [done|]. split; [by eapply tidy_upd|]. split; [|done].
    rewrite Hg. f_equal. unfold landed. destruct (entry_at s _); [|done].
    rewrite block_key_not_zero; [done|apply Hn|lia].
Qed.

(** ** The loop over the blocks *)

(** The server that block [k] leaves for when process [s] moves its blocks;
    [None] when it stays. *)
Definition destination (s : server) (k : bytes) : option nat :=
  match split_key k with
  | Ret (u, id) =>
      match find_server stack (number_active_storage_servers s) id u SET TYPE_DATA_SERVER plcy with
      | Ret i => if (id_server_to_modify s =? -1) && (u32 i =? u32 (srv_id s)) then None
                 else conns !! Z.to_nat (u32 i)
      | _ => None
      end
  | _ => None
  end.

(** The connections lead to the servers that stay, once each; a block that
    is sent is not sent back to its sender. *)
Record connected (s : server) (n : nat) : Prop := {
  con_count : 0 < number_active_storage_servers s < 2 ^ 31;
  con_slots : Z.of_nat (length conns) = number_active_storage_servers s;
  con_range : Forall (fun i => (i < n)%nat) conns;
  con_self : forall i, conns !! i = Some me ->
    id_server_to_modify s = -1 /\ Z.of_nat i = u32 (srv_id s)
}.

Definition same_role (s s' : server) : Prop :=
  number_active_storage_servers s' = number_active_storage_servers s /\
  id_server_to_modify s' = id_server_to_modify s /\ srv_id s' = srv_id s /\
  malleability_on s' = malleability_on s.

(** The cluster while [s0] moves its blocks. *)
Record in_move (s0 : server) (w : world) : Prop := {
  mv_con : connected s0 (length (servers w));
  mv_tidy : Forall (tidy (number_active_storage_servers s0)) (servers w);
  mv_own : exists s, servers w !! me = Some s /\ same_role s0 s /\ forall k, entry_at s k = entry_at s0 k
}.

(** What other servers hold after the entries [l] were moved. *)
Definition moved_by (s0 : server) (l : list (bytes * BufferValue bytes)) (w w' : world) : Prop :=
  length (servers w') = length (servers w) /\
  forall n k, n <> me ->
    (forall v, (k, v) ∈ l -> destination s0 k = Some n ->
       block_at w' n k = Some (landed k v (block_at w n k))) /\
    (k ∉ l.*1 \/ destination s0 k <> Some n -> block_at w' n k = block_at w n k).

Lemma destination_spec s u id n :
  connected s n -> wire_uri u -> file_name u -> 0 <= id -> number_active_storage_servers s + id <= 2 ^ 31 ->
  exists i, find_server stack (number_active_storage_servers s) id u SET TYPE_DATA_SERVER plcy = Ret i /\ u32 i = i /\
    if (id_server_to_modify s =? -1) && (i =? u32 (srv_id s)) then destination s (block_key u id) = None
    else exists t, conns !! Z.to_nat i = Some t /\ destination s (block_key u id) = Some t /\ (t < n)%nat /\ t <> me.
Proof.
  intros [HN Hs Hr Hself] Hw Hn H0 Hb.
  destruct (find_server_served stack (number_active_storage_servers s) id u SET TYPE_DATA_SERVER plcy)
    as (i & Hi & Hir); [lia|lia|lia|pose proof (net_stack NET); unfold strlen in *; lia|apply NET|].
  assert (u32 i = i) as Hu by (apply u32_small; lia).
  exists i. split; [done|]. split; [done|]. unfold destination.
  rewrite (split_key_block u id (proj2 (proj2 Hn))) by lia. rewrite Hi, Hu.
  destruct (_ && _) eqn:E; [done|].
  destruct (lookup_lt_is_Some_2 conns (Z.to_nat i)) as [t Ht]; [lia|]. exists t. split; [done|]. split; [done|].
  split; [apply (Forall_lookup_1 _ _ _ _ Hr Ht)|]. intros ->. destruct (Hself _ Ht) as [Hm Hi'].
  rewrite Hm, <- Hi', Z2Nat.id, !Z.eqb_refl in E by lia. done.
Qed.

Lemma put_garbage_ok k s v :
  entry_at s k = Some v ->
  exists r h, HierarchicalMapPutInGarbageCollector k (hr s) = Ret (r, h) /\
    (wf_store (BLOCK_SIZE e) (hr s) -> wf_store (BLOCK_SIZE e) h) /\
    forall k', entry_at (set_hr h s) k' = entry_at s k'.
Proof.
  intros Hv. assert (exists r h, HierarchicalMapPutInGarbageCollector k (hr s) = Ret (r, h)) as (r & h & Hg).
  { unfold entry_at, HierarchicalMapGet, get_child_unsafe in Hv. unfold HierarchicalMapPutInGarbageCollector.
    destruct (parent_dir k) as [d| |]; try done. cbn [obind]. destruct (hiermap (hr s) !! d); eauto. }
  exists r, h. split; [done|]. split; [intros Hwf; by eapply wf_garbage_put|].
  intros k'. unfold entry_at. cbn [hr set_hr]. by rewrite (HierarchicalMapPutInGarbage_get _ _ _ _ _ Hg).
Qed.

(** Sending block [k] changes it at its destination only. *)
Lemma send_block w s0 k v u id i t :
  in_move s0 w -> entry_ok (number_active_storage_servers s0) k v -> strlen (data v) = bsize v ->
  k = block_key u id -> wire_uri u -> file_name u -> 0 <= id -> number_active_storage_servers s0 + id <= 2 ^ 31 ->
  0 <= bsize v -> u32 i = i -> conns !! Z.to_nat i = Some t -> (t < length (servers w))%nat -> t <> me ->
  exists w', set_data_server e conns true u id (data v) (bsize v) 0 i w = Ret (1, w') /\ in_move s0 w' /\
    length (servers w') = length (servers w) /\
    block_at w' t k = Some (landed k v (block_at w t k)) /\
    forall n k', (n, k') <> (t, k) -> block_at w' n k' = block_at w n k'.
Proof.
  intros [Hc Ht (s & Hs & Hrole & Hown)] He Hl -> Hw Hn H0 Hb Hsz Hu Hi Hlt Hne.
  destruct (lookup_lt_is_Some_2 (servers w) t Hlt) as [x Hx].
  destruct (arrives (number_active_storage_servers s0) u id v x) as (x' & Hrun & Htx & Hg & Hf); try done.
  { apply (con_count _ _ Hc). }
  { by apply (Forall_lookup_1 _ _ _ _ Ht Hx). }
  unfold set_data_server. rewrite Hu, Hi, (net_send NET). cbn [negb].
  assert (read_at (data v) 0 (bsize v) = Ret (data v)) as ->.
  { rewrite <- (app_nil_r (data v)) at 1. by rewrite read_at_prefix. }
  cbn [obind]. unfold deliver.
  destruct (Z.ltb_spec (Z.of_nat t) 0); [lia|]. rewrite Nat2Z.id, Hx, Hrun. cbn [obind].
  eexists. split; [done|]. split; [split|split; [|split]].
  - cbn. by rewrite length_insert.
  - cbn. by apply Forall_insert.
  - exists s. cbn. by rewrite list_lookup_insert_ne.
  - cbn. by rewrite length_insert.
  - unfold block_at. cbn. rewrite list_lookup_insert_eq, Hx by done. cbn. by rewrite Hg.
  - intros n k' Hnk. unfold block_at. cbn. destruct (decide (n = t)) as [->|Hnt].
    + rewrite list_lookup_insert_eq, Hx by done. cbn. apply Hf. congruence.
    + by rewrite list_lookup_insert_ne by done.
Qed.

(** The list of blocks that the mover has. *)
Definition own_entries (s0 : server) (l : list (bytes * BufferValue bytes)) : Prop :=
  Forall (fun kv => entry_at s0 kv.1 = Some kv.2 /\
    entry_ok (number_active_storage_servers s0) kv.1 kv.2 /\ strlen (data kv.2) = bsize kv.2) l.

Lemma move_block_ok s0 k v w :
  in_move s0 w -> own_entries s0 [(k, v)] ->
  exists w', move_block stack e conns plcy true me (u32 (srv_id s0)) k v w = Ret (true, w') /\
    in_move s0 w' /\ moved_by s0 [(k, v)] w w'.
Proof.
  intros Hm Ho. apply Forall_singleton in Ho as (Hv & He & Hl). cbn in Hv, He, Hl.
  pose proof He as (u & id & -> & Hw & Hn & H0 & Hb & _).
  pose proof Hm as [Hc _ (s & Hs & (R1 & R2 & R3 & R4) & Hown)].
  unfold move_block. rewrite (split_key_block u id (proj2 (proj2 Hn))) by (pose proof (con_count _ _ Hc); lia).
  cbn [obind]. unfold own at 1. rewrite Hs. cbn [obind]. rewrite R1, R2.
  destruct (destination_spec s0 u id _ Hc Hw Hn H0 Hb) as (i & Hi & Hu & Hd). rewrite Hi. cbn [obind]. rewrite Hu.
  destruct (_ && _) eqn:E.
  { exists w. split; [done|]. split; [done|]. split; [done|]. intros n k Hn'. split; [|done].
    intros v' Hin Hdst. apply list_elem_of_singleton in Hin as [= -> _]. congruence. }
  destruct Hd as (t & Ht & Hdst & Hlt & Htme).
  destruct (send_block w s0 _ v u id i t Hm He Hl eq_refl Hw Hn H0 Hb) as (w1 & -> & Hm1 & Hlen & Hg & Hf); try done.
  { rewrite <- Hl. unfold strlen. lia. }
  cbn [obind]. change (1 <? 0) with false. cbv iota.
  destruct Hm1 as [Hc1 Ht1 (s1 & Hs1 & Hr1 & Hown1)]. unfold own. rewrite Hs1. cbn [obind].
  destruct (put_garbage_ok (block_key u id) s1 v) as (r & h & -> & Hwf & Hent); [by rewrite Hown1|]. cbn [obind].
  assert (forall n k, n <> me -> block_at (set_own me (set_hr h s1) w1) n k = block_at w1 n k) as Hother.
  { intros n k Hne. unfold block_at, set_own. cbn. by rewrite list_lookup_insert_ne. }
  eexists. split; [done|]. split; [split|split].
  - cbn. by rewrite length_insert.
  - cbn. apply Forall_insert; [done|]. destruct (Forall_lookup_1 _ _ _ _ Ht1 Hs1) as [Hw1 Hk1].
    split; [by apply Hwf|]. intros k' v' Hk'. rewrite Hent in Hk'. by apply Hk1.
  - exists (set_hr h s1). cbn. rewrite list_lookup_insert_eq by (by eapply lookup_lt_Some).
    split; [done|]. split; [by destruct Hr1 as (?&?&?&?)|]. intros k'. by rewrite Hent.
  - cbn. by rewrite length_insert.
  - intros n k Hne. rewrite Hother by done. split.
    + intros v' Hin Hd'. apply list_elem_of_singleton in Hin as [= -> ->]. rewrite Hdst in Hd'. by injection Hd' as ->.
    + intros Hor. apply Hf. intros [= -> ->]. destruct Hor as [Hni|Hd']; [|done]. apply Hni. by constructor.
Qed.

Lemma move_loop_ok s0 l w :
  NoDup l.*1 -> in_move s0 w -> own_entries s0 l ->
  exists w', move_loop stack e conns plcy true me (u32 (srv_id s0)) l w = Ret (true, w') /\
    in_move s0 w' /\ moved_by s0 l w w'.
Proof.
  revert w. induction l as [|[k v] l IH]; intros w Hnd Hm Ho.
  { exists w. split; [done|]. split; [done|]. split; [done|]. intros n k _. split; [|done]. by intros v ?%elem_of_nil. }
  apply Forall_cons in Ho as [Hkv Ho]. cbn in Hnd. apply NoDup_cons in Hnd as [Hk Hnd].
  destruct (move_block_ok s0 k v w Hm) as (w1 & H1 & Hm1 & Hl1 & Hb1); [by apply Forall_singleton|].
  destruct (IH w1 Hnd Hm1 Ho) as (w2 & H2 & Hm2 & Hl2 & Hb2).
  exists w2. cbn [move_loop]. rewrite H1. cbn [obind]. split; [done|]. split; [done|]. split; [congruence|].
  intros n k' Hne. destruct (Hb1 n k' Hne) as [A1 B1]. destruct (Hb2 n k' Hne) as [A2 B2]. cbn [fmap list_fmap fst] in *. split.
  - intros v' [[= -> ->]|Hin]%elem_of_cons Hd.
    + rewrite B2 by (by left). apply A1; [by constructor|done].
    + rewrite (A2 v' Hin Hd). do 2 f_equal. apply B1. left. intros ->%list_elem_of_singleton.
      apply Hk. by apply (list_elem_of_fmap_2 fst _ (k, v')).
  - intros Hor. rewrite B2, B1; [done| |]; destruct Hor as [Hni|Hd]; auto; left; set_solver.
Qed.
End moving.

(** ** The entries of a store *)

(** Every block is in the map of its directory. *)
Definition placed (h : HierarchicalRecords bytes) : Prop :=
  forall d m k v, hiermap h !! d = Some m -> buffer m !! k = Some v -> parent_dir k = Ret d.

Lemma elem_of_entries m k v : (k, v) ∈ entries_of m <-> buffer m !! k = Some v.
Proof.
  unfold entries_of. rewrite list_elem_of_omap. split.
  - intros (x & _ & Hx). destruct (buffer m !! x) eqn:E; cbn in Hx; [|done]. by injection Hx as -> ->.
  - intros Hv. exists k. rewrite Hv. split; [|done]. apply elem_of_keys_of. eauto.
Qed.

Lemma elem_of_dirs (h : HierarchicalRecords bytes) d : d ∈ dirs_of h <-> is_Some (hiermap h !! d).
Proof.
  unfold dirs_of. rewrite sort_keys_perm, list_elem_of_fmap. split.
  - intros ([d' m] & -> & Hin). apply elem_of_map_to_list in Hin. eauto.
  - intros [m Hm]. exists (d, m). split; [done|]. by apply elem_of_map_to_list.
Qed.

Lemma elem_of_all_entries h k v :
  (k, v) ∈ all_entries h <-> exists d m, hiermap h !! d = Some m /\ buffer m !! k = Some v.
Proof.
  unfold all_entries. rewrite list_elem_of_In, in_concat. setoid_rewrite <- list_elem_of_In.
  setoid_rewrite list_elem_of_omap. split.
  - intros (l & (d & Hd & Hl) & Hk). destruct (hiermap h !! d) as [m|] eqn:Hm; [|done]. injection Hl as <-.
    exists d, m. split; [done|]. by apply elem_of_entries.
  - intros (d & m & Hm & Hv). exists (entries_of m). split; [|by apply elem_of_entries].
    exists d. split; [|by rewrite Hm]. apply elem_of_dirs. eauto.
Qed.

Lemma placed_entry s k v : placed (hr s) -> (k, v) ∈ all_entries (hr s) <-> entry_at s k = Some v.
Proof.
  intros Hp. rewrite elem_of_all_entries. unfold entry_at. split.
  - intros (d & m & Hm & Hv). rewrite (HGet_eq _ d _ (Hp _ _ _ _ Hm Hv)), Hm. done.
  - intros Hv. destruct (parent_dir k) as [d| |] eqn:Hd;
      [|by unfold HierarchicalMapGet, get_child_unsafe in Hv; rewrite Hd in Hv..].
    rewrite (HGet_eq _ d _ Hd) in Hv. destruct (hiermap (hr s) !! d) as [m|] eqn:Hm; [|done]. by exists d, m.
Qed.

Lemma NoDup_entries m : NoDup (entries_of m).*1.
Proof.
  unfold entries_of. assert (NoDup (keys_of (buffer m))) as Hnd by (rewrite keys_of_perm; apply NoDup_fst_map_to_list).
  induction (keys_of (buffer m)) as [|k ks IH]; [constructor|]. apply NoDup_cons in Hnd as [Hk Hnd].
  cbn [omap list_omap]. destruct (buffer m !! k) as [v|] eqn:E; cbn; [|auto].
  constructor; [|auto]. intros ([x v'] & -> & Hin)%list_elem_of_fmap. apply list_elem_of_omap in Hin as (y & Hy & Hyv).
  destruct (buffer m !! y); [|done]. by injection Hyv as -> ->.
Qed.

Lemma NoDup_all_entries h : placed h -> NoDup (all_entries h).*1.
Proof.
  intros Hp. unfold all_entries.
  assert (NoDup (dirs_of h)) as Hnd by (unfold dirs_of; rewrite sort_keys_perm; apply NoDup_fst_map_to_list).
  induction (dirs_of h) as [|d ds IH]; [constructor|]. apply NoDup_cons in Hnd as [Hd Hnd].
  cbn [omap list_omap]. destruct (hiermap h !! d) as [m|] eqn:Hm; cbn; [|auto].
  rewrite fmap_app. apply NoDup_app. split; [apply NoDup_entries|]. split; [|auto].
  intros k ([k1 v1] & -> & H1)%list_elem_of_fmap ([k2 v2] & E & H2)%list_elem_of_fmap. cbn in E. subst k2.
  apply elem_of_entries in H1. apply list_elem_of_In, in_concat in H2 as (l & Hl & Hk).
  apply list_elem_of_In, list_elem_of_omap in Hl as (d' & Hd' & Hl). destruct (hiermap h !! d') as [m'|] eqn:Hm'; [|done].
  injection Hl as <-. apply list_elem_of_In, elem_of_entries in Hk.
  pose proof (Hp _ _ _ _ Hm H1). pose proof (Hp _ _ _ _ Hm' Hk). congruence.
Qed.

(** ** Theorems *)

Section theorems.
Context (stack : bytes) (e : env) (conns : list nat) (plcy : Z) (me : nat).
Context (NET : network stack e plcy).
Context (s : server) (w : world).
Context (Hs : servers w !! me = Some s) (Hc : connected conns me s (length (servers w))).
Context (Ht : Forall (tidy e (number_active_storage_servers s)) (servers w)) (Hp : placed (hr s)).

Lemma own_all_entries : own_entries e s (all_entries (hr s)).
Proof.
  apply Forall_forall. intros [k v] Hin. cbn. apply (placed_entry s k v Hp) in Hin.
  destruct (Forall_lookup_1 _ _ _ _ Ht Hs) as [Hwf Hok]. split; [done|]. split; [by apply Hok|].
  unfold entry_at in Hin. destruct (HierarchicalMapGet k (hr s)) as [o| |] eqn:Hg; [|done|done]. subst o. by eapply wf_get.
Qed.

(** All blocks are sent, before the thread turns to the waiting requests. *)
Lemma loop_moves :
  exists s' w', move_loop stack e conns plcy true me (u32 (srv_id s)) (all_entries (hr s)) w = Ret (true, w') /\
    servers w' !! me = Some s' /\ same_role s s' /\ (forall k, entry_at s' k = entry_at s k) /\
    moved_by stack conns plcy me s (all_entries (hr s)) w w'.
Proof.
  assert (in_move e conns me s w) as Hm.
  { split; [done|done|]. exists s. done. }
  destruct (move_loop_ok stack e conns plcy me NET s (all_entries (hr s)) w (NoDup_all_entries _ Hp) Hm own_all_entries)
    as (w' & Hrun & [_ _ (s' & Hs' & Hr & Hk)] & Hmv).
  by exists s', w'.
Qed.

Lemma moved_entry w' n k v :
  moved_by stack conns plcy me s (all_entries (hr s)) w w' -> block_at w me k = Some v -> n <> me ->
  block_at w' n k = if decide (destination stack conns plcy s k = Some n) then Some (landed k v (block_at w n k))
                    else block_at w n k.
Proof.
  intros [_ Hmv] Hv Hne. destruct (Hmv n k Hne) as [A B]. case_decide as Hd; [|by auto].
  apply A; [|done]. apply (placed_entry s k v Hp). unfold block_at in Hv. by rewrite Hs in Hv.
Qed.

Lemma unmoved_entry w' n k :
  moved_by stack conns plcy me s (all_entries (hr s)) w w' -> block_at w me k = None -> n <> me ->
  block_at w' n k = block_at w n k.
Proof.
  intros [_ Hmv] Hv Hne. apply (Hmv n k Hne). left. intros ([k' v] & -> & Hin)%list_elem_of_fmap.
  apply (placed_entry s k' v Hp) in Hin. unfold block_at in Hv. rewrite Hs in Hv. cbn in Hv. congruence.
Qed.
End theorems.

(** C13. When the servers are renumbered, every block of a server is found where
    clients look for it: a file that is read with the new number of servers
    finds each of its blocks, unchanged, at the server its placement names;
    a header arrives merged with the one already there; nothing else changes
    on any server, and the move is acknowledged.  The file must still have its
    original name ([renamed_file_goes_astray]) and no server be leaving. *)
Theorem rebalanced_blocks_found (stack : bytes) (e : env) (conns : list nat) (plcy : Z) (me : nat)
  (s : server) (w : world)
  (NET : network stack e plcy) (Hs : servers w !! me = Some s)
  (Hc : connected conns me s (length (servers w)))
  (Ht : Forall (tidy e (number_active_storage_servers s)) (servers w)) (Hp : placed (hr s))
  (Hid : id_server_to_modify s = -1) (Hme : conns !! Z.to_nat (u32 (srv_id s)) = Some me) :
  exists w', move_blocks_2_server stack e conns plcy true me w = Ret (true, w') /\
    (forall u di im id v, file_session stack e u di im ->
       num_storages im = number_active_storage_servers s -> original_name di = u -> session_plcy di = plcy ->
       block_no im id -> block_at w me (block_key u id) = Some v ->
       exists t, conns !! Z.to_nat (home stack di im id) = Some t /\
         block_at w' t (block_key u id) = Some v) /\
    (forall n k v, n <> me -> block_at w me k = Some v ->
       block_at w' n k = if decide (destination stack conns plcy s k = Some n)
                         then Some (landed k v (block_at w n k)) else block_at w n k) /\
    (forall n k, n <> me -> block_at w me k = None -> block_at w' n k = block_at w n k).
Proof.
  destruct (loop_moves stack e conns plcy me NET s w Hs Hc Ht Hp) as (s' & w' & Hrun & Hs' & (R1 & R2 & R3 & R4) & Hk & Hmv).
  assert (move_blocks_2_server stack e conns plcy true me w = Ret (true, w')) as Hres.
  { unfold move_blocks_2_server, own. rewrite Hs. cbn [obind]. rewrite Hrun. cbn [obind negb]. rewrite Hs'. cbn [obind].
    assert (attend_pending s' = Ret s') as -> by (unfold attend_pending; rewrite R2, Hid; by destruct (malleability_on s')).
    cbn [obind]. rewrite R2, Hid. cbn [negb Z.eqb Pos.eqb]. unfold set_own, set_servers.
    rewrite list_insert_id by done. by destruct w'. }
  exists w'. split; [done|].
  assert (forall n k v, n <> me -> block_at w me k = Some v ->
    block_at w' n k = if decide (destination stack conns plcy s k = Some n)
                      then Some (landed k v (block_at w n k)) else block_at w n k) as Hmoved.
  { intros n k v Hne Hv. by eapply moved_entry. }
  split; [|split; [done|intros n k Hne Hv; by eapply unmoved_entry]].
  intros u di im id v FS HN Ho Hpl [Hi1 Hi2] Hv.
  pose proof (home_spec stack e u di im FS id GET (conj (ltac:(lia) : 0 <= id) Hi2)) as [Hh Hr].
  rewrite HN, Ho, Hpl in Hh. rewrite HN in Hr, Hi2.
  destruct (destination_spec stack e conns plcy me NET s u id _ Hc (fs_wire _ _ _ _ _ FS) (fs_name _ _ _ _ _ FS)
    ltac:(lia) Hi2) as (i & Hi & Hu & Hd).
  assert (i = home stack di im id) as ->
    by (change (find_server stack (number_active_storage_servers s) id u SET TYPE_DATA_SERVER plcy) with
          (find_server stack (number_active_storage_servers s) id u GET TYPE_DATA_SERVER plcy) in Hi; congruence).
  rewrite Hid in Hd. cbn [Z.eqb Pos.eqb andb] in Hd.
  destruct (Z.eqb_spec (home stack di im id) (u32 (srv_id s))) as [E|E].
  - exists me. rewrite E. split; [done|]. unfold block_at in *. rewrite Hs in Hv. rewrite Hs'. cbn in *. by rewrite Hk.
  - destruct Hd as (t & Hct & Hdst & _ & Hne). exists t. split; [done|]. rewrite (Hmoved t _ v Hne Hv), decide_True by done.
    f_equal. unfold landed. destruct (block_at w t _); [|done].
    rewrite block_key_not_zero; [done|apply (fs_name _ _ _ _ _ FS)|lia].
Qed.

(** A server that is told to stop sends all its blocks away as well, and then
    fails: before the move is acknowledged it looks at the waiting requests,
    through the instance structure that only a metadata server has. *)
Theorem stopped_server_fails (stack : bytes) (e : env) (conns : list nat) (plcy : Z) (me : nat)
  (s : server) (w : world)
  (NET : network stack e plcy) (Hs : servers w !! me = Some s)
  (Hc : connected conns me s (length (servers w)))
  (Ht : Forall (tidy e (number_active_storage_servers s)) (servers w)) (Hp : placed (hr s))
  (Hm : malleability_on s = true) (Hid : 0 <= id_server_to_modify s) :
  move_blocks_2_server stack e conns plcy true me w = Undef NullDeref /\
  exists w', move_loop stack e conns plcy true me (u32 (srv_id s)) (all_entries (hr s)) w = Ret (true, w') /\
    forall n k v, n <> me -> block_at w me k = Some v -> destination stack conns plcy s k = Some n ->
      block_at w' n k = Some (landed k v (block_at w n k)).
Proof.
  destruct (loop_moves stack e conns plcy me NET s w Hs Hc Ht Hp) as (s' & w' & Hrun & Hs' & (R1 & R2 & R3 & R4) & Hk & Hmv).
  split.
  - unfold move_blocks_2_server, own. rewrite Hs. cbn [obind]. rewrite Hrun. cbn [obind negb]. rewrite Hs'. cbn [obind].
    unfold attend_pending. rewrite R2, R4, Hm. cbn [negb]. by destruct (Z.ltb_spec (id_server_to_modify s) 0); [lia|].
  - exists w'. split; [done|]. intros n k v Hne Hv Hd.
    rewrite (moved_entry stack conns plcy me s w Hs Hp w' n k v Hmv Hv Hne). by rewrite decide_True.
Qed.

(** Blocks that were sent away are never freed: the thread enters the keys of
    blocks in the garbage vector, and cleaning looks there for names of
    files. *)
Theorem moved_blocks_never_freed (bs total : Z) (m : map_records bytes) (pool : list bytes) (ks : list bytes) :
  Forall (fun k => dollar ∈ k) ks ->
  let '(_, m', _) := cleaning bs total (set_garbage ks m) pool in buffer m' = buffer m.
Proof.
  intros Hks. unfold cleaning. cbn [buffer_garbage_collector set_garbage buffer].
  pose proof (clean_loop_lookup bs total ks (buffer m) 0 pool) as H.
  destruct (clean_loop _ _ _ _) as [[b f] p]. cbn in *. apply map_eq. intros k. rewrite H.
  case_decide as Hin; [|done]. rewrite Forall_forall in Hks. apply Hks in Hin. exfalso.
  destruct (decide (dollar ∈ k)) as [Hk|Hk]; [by apply base_key_no_dollar in Hk|].
  apply Hk. unfold base_key in Hin. destruct (strchr dollar k) as [i|]; [|done].
  rewrite <- (take_drop i k). set_solver.
Qed.

(** ** Examples *)

(** A server with two blocks and the attributes of one file; it is numbered 0
    of two servers, or, in [leaving_server], is told to leave one server. *)
Definition full_map : map_records bytes :=
  mkMap {[ B "imss://f$0" := mkBuf (stat_bytes sample_attr) sizeof_stat;
           B "imss://f$1" := mkBuf (B "abcd") 4; B "imss://f$2" := mkBuf (B "efgh") 4 ]} [].
Definition full_server : server :=
  mkServer (mkHier {[ IMSS_ROOT := full_map ]} 0 1000 []) ∅ ∅ ∅ ∅ false 0 [] 0 (-1) 2 false 1.
Definition leaving_server : server :=
  mkServer (mkHier {[ IMSS_ROOT := full_map ]} 0 1000 []) ∅ ∅ ∅ ∅ true 0 [] 1 1 1 true 1.
Definition growing : world := mkWorld [full_server; sample_server] [] ∅ [].
Definition shrinking : world := mkWorld [sample_server; leaving_server] [] ∅ [].

Lemma sample_network : network [] (big_env 4) ROUND_ROBIN_.
Proof. split; try done; [exact zeroed_length|exact zeroed_some]. Qed.

Lemma full_placed s : hr s = hr full_server -> placed (hr s).
Proof.
  intros -> d m k v Hm Hv. cbn in Hm. apply lookup_singleton_Some in Hm as [<- <-].
  assert ((k, v) ∈ entries_of full_map) as Hin by (by apply elem_of_entries). revert Hin.
  replace (entries_of full_map) with [(B "imss://f$0", mkBuf (stat_bytes sample_attr) sizeof_stat);
    (B "imss://f$1", mkBuf (B "abcd") 4); (B "imss://f$2", mkBuf (B "efgh") 4)] by (by vm_compute).
  rewrite !elem_of_cons, elem_of_nil. intros [[= -> ->]|[[= -> ->]|[[= -> ->]|[]]]]; by vm_compute.
Qed.

Lemma sample_attr_fits : stat_fits sample_attr.
Proof. split; repeat (apply Forall_cons_2; [simpl; lia|]); apply Forall_nil_2. Qed.

Lemma full_tidy N s : 0 < N <= 2 -> hr s = hr full_server -> tidy (big_env 4) N s.
Proof.
  intros HN Hh. split.
  - rewrite Hh. split; [|constructor]. apply map_Forall_singleton.
    repeat (apply map_Forall_insert_2; [done|]). apply map_Forall_empty.
  - intros k v Hv. apply (placed_entry s k v (full_placed s Hh)) in Hv. rewrite Hh in Hv. revert Hv.
    replace (all_entries (hr full_server)) with [(B "imss://f$0", mkBuf (stat_bytes sample_attr) sizeof_stat);
      (B "imss://f$1", mkBuf (B "abcd") 4); (B "imss://f$2", mkBuf (B "efgh") 4)] by (by vm_compute).
    assert (forall id, 0 <= id <= 2 -> forall v, (if id =? 0 then exists st, v = mkBuf (stat_bytes st) sizeof_stat /\ stat_fits st
      else bsize v = 4) -> entry_ok (big_env 4) N (block_key (B "imss://f") id) v) as Hok.
    { intros id Hid x Hx. exists (B "imss://f"), id. split; [done|].
      split; [split; [repeat constructor|by vm_compute]|]. split; [by apply (file_name_intro (B "f"))|].
      split; [lia|]. split; [lia|done]. }
    rewrite !elem_of_cons, elem_of_nil. intros [[= -> ->]|[[= -> ->]|[[= -> ->]|[]]]].
    + apply (Hok 0); [lia|]. exists sample_attr. split; [reflexivity|apply sample_attr_fits].
    + by apply (Hok 1).
    + by apply (Hok 2).
Qed.

Lemma empty_tidy N : tidy (big_env 4) N sample_server.
Proof.
  split; [apply sample_wf|]. intros k v Hv. apply (placed_entry sample_server k v) in Hv.
  - exfalso. revert Hv. replace (all_entries (hr sample_server)) with (@nil (bytes * BufferValue bytes)) by (by vm_compute).
    apply not_elem_of_nil.
  - intros d m k' v' Hm Hv'. exfalso. cbn [hr sample_server hiermap] in Hm. apply lookup_singleton_Some in Hm as [_ <-]. exact (lookup_empty_Some _ _ Hv').
Qed.

Lemma rebalanced_blocks_found_witness :
  exists w', move_blocks_2_server [] (big_env 4) [0; 1]%nat ROUND_ROBIN_ true 0 growing = Ret (true, w') /\
    block_at w' 1 (B "imss://f$1") = Some (mkBuf (B "abcd") 4) /\ block_at w' 1 (B "imss://f$2") = None.
Proof.
  destruct (rebalanced_blocks_found [] (big_env 4) [0; 1]%nat ROUND_ROBIN_ 0 full_server growing) as (w' & H & _ & Hm & _).
  - exact sample_network.
  - reflexivity.
  - split; [done|done|repeat constructor|]. intros [|[|i]] Hi; [done|done|done].
  - repeat constructor; apply (full_tidy 2 full_server) || apply (empty_tidy 2); done.
  - by apply full_placed.
  - reflexivity.
  - reflexivity.
  - exists w'. split; [exact H|]. split.
    + rewrite (Hm 1%nat (B "imss://f$1") (mkBuf (B "abcd") 4)); [by vm_compute|done|by vm_compute].
    + rewrite (Hm 1%nat (B "imss://f$2") (mkBuf (B "efgh") 4)); [by vm_compute|done|by vm_compute].
Defined.

Lemma stopped_server_fails_witness :
  move_blocks_2_server [] (big_env 4) [0]%nat ROUND_ROBIN_ true 1 shrinking = Undef NullDeref /\
  exists w', move_loop [] (big_env 4) [0]%nat ROUND_ROBIN_ true 1 1 (all_entries (hr leaving_server)) shrinking
             = Ret (true, w') /\
    block_at w' 0 (B "imss://f$2") = Some (mkBuf (B "efgh") 4).
Proof.
  destruct (stopped_server_fails [] (big_env 4) [0]%nat ROUND_ROBIN_ 1 leaving_server shrinking) as (H & w' & Hl & Hm).
  - exact sample_network.
  - reflexivity.
  - split; [done|done|repeat constructor|]. intros [|i] Hi; done.
  - repeat constructor; apply (full_tidy 1 leaving_server) || apply (empty_tidy 1); done.
  - by apply full_placed.
  - reflexivity.
  - by vm_compute.
  - split; [exact H|]. exists w'. split; [exact Hl|].
    rewrite (Hm 0%nat (B "imss://f$2") (mkBuf (B "efgh") 4)); [by vm_compute|done|by vm_compute|by vm_compute].
Defined.

Lemma moved_blocks_never_freed_witness :
  let '(_, m', _) := cleaning 4 1000 (set_garbage [B "imss://f$1"] full_map) [] in buffer m' = buffer full_map.
Proof.
  apply (moved_blocks_never_freed 4 1000 full_map [] [B "imss://f$1"]).
  apply Forall_singleton. apply (list_elem_of_lookup_2 _ 8). reflexivity.
Defined.

(** The move hashes the name a block has now, reads hash the name its file
    was created with: a file that was renamed is lost when a server is added.
    Here [imss://g] was created as [imss://f]; its block is read from one
    server, and no longer after the server has moved its blocks to two. *)
Definition renamed_info : dataset_info :=
  mkDataset (B "imss://g") "F" (B "RR") cluster_file [] 0 0 4 1 0 0 (-1) 0 2 [] 0 0 STATUS_ATACH 2 0 100 (-1) (-1) None.
Definition one_server : server :=
  mkServer (mkHier {[ IMSS_ROOT := mkMap {[ B "imss://g$1" := mkBuf (B "abcd") 4 ]} [] ]} 0 1000 [])
    ∅ ∅ ∅ ∅ false 0 [] 0 (-1) 2 false 1.
Definition one_imss : imss_info := mkImss IMSS_ROOT TYPE_HERCULES_INSTANCE [B "node0"] 1 1 0 7500.
Definition renamed_world (l : list server) (im : imss_info) : world :=
  mkWorld l [] {[ IMSS_ROOT := {[ B "imss://g" := renamed_info ]} ]} [im].

Theorem renamed_file_goes_astray :
  (exists w1, get_ndata [] (big_env 4) (fun _ => -1) 0 (B "imss://g") 1 (B "....") 4 0
                (renamed_world [one_server] one_imss) = Ret (4, B "abcd", w1)) /\
  exists w2 w3 buf, move_blocks_2_server [] (big_env 4) [0; 1]%nat ROUND_ROBIN_ true 0
                  (renamed_world [one_server; sample_server] cluster_imss) = Ret (true, w2) /\
    get_ndata [] (big_env 4) (fun _ => -1) 0 (B "imss://g") 1 (B "........................") 4 0 w2 = Ret (-1, buf, w3).
Proof. split; [eexists; by vm_compute|]. eexists _, _, _. split; [by vm_compute|by vm_compute]. Qed.
