(* ===== verification/Prefetch.v ===== *)
(** * Reads with prefetching

    [imss_sread_prefetch_v2], [parse_prefetch_buffer] and
    [find_data_on_prefetch] (src/fuse/imss_posix_api.c) and
    [get_ndata_prefetch] (src/src/imss.c): when prefetching is configured, a
    read asks a server for a whole run of blocks at once; the answer is a
    sequence of records, a block number and a block, from which the
    following blocks of the read are served.  The file layer is stated over the
    interface [PrefetchOps]; the client library implements it on the servers of
    DataServer.v. *)

From S2P Require Import Prelude Types Policies Paths Store DataServer Intervals Wire Sessions Client BlockService FileIO EndToEnd Migration.

(** [get_ndata_prefetch(path, ds, id, &buffer, size, num_blocks)]: result,
    buffer and new state. *)
Class PrefetchOps (St : Type) :=
  svc_fetch : Z -> Z -> Z -> St -> outcome (Z * option bytes * St).

(** ** The file layer *)

Section read.
Context {St : Type} `{BlockOps St} `{PrefetchOps St}.

(** [std::map<uint32_t, void *>]: a pointer into a received buffer is the
    rest of the buffer from there. *)
Abbreviation block_map := (gmap Z bytes).

(** [RECORD_SIZE]. *)
Definition record_size : Z := 4 + BSIZE.

Fixpoint parse_records (fuel : nat) (buf : bytes) (m : block_map) : block_map :=
  match fuel with
  | O => m
  | S f =>
      if strlen buf <? record_size then m
      else parse_records f (drop (Z.to_nat record_size) buf) (<[le_get (take 4 buf) := drop 4 buf]> m)
  end.

Definition parse_prefetch_buffer (received_buffer : bytes) (m : block_map) : block_map :=
  parse_records (Z.to_nat (strlen received_buffer / record_size)) received_buffer m.

(** The copy goes to position [pos] of the caller's buffer. *)
Definition find_data_on_prefetch (buf : bytes) (pos curr_blk to_read offset_in_block : Z) (m : block_map)
  : outcome (bool * bytes) :=
  match m !! u32 curr_blk with
  | Some data =>
      let* d := read_at data offset_in_block to_read in
      let* buf := write_at buf pos d in
      Ret (true, buf)
  | None => Ret (false, buf)
  end.

(** A block that is not in the map is fetched with what follows it; gives
    [eof_found]. *)
Definition fetch_block (size num_blocks pos curr_blk to_read offset_in_block : Z) (m : block_map) (buf : bytes) (s : St)
  : outcome (bool * block_map * bytes * St) :=
  let* (found, buf) := find_data_on_prefetch buf pos curr_blk to_read offset_in_block m in
  if found then Ret (false, m, buf, s)
  else
    let* (been_read, prefetch_buffer_block, s) := svc_fetch curr_blk size num_blocks s in
    match prefetch_buffer_block with
    | None => Ret (true, m, buf, s)
    | Some b =>
        if been_read <=? 0 then Ret (true, m, buf, s)
        else
          let m := parse_prefetch_buffer (take (Z.to_nat been_read) b) m in
          let* (found, buf) := find_data_on_prefetch buf pos curr_blk to_read offset_in_block m in
          Ret (negb found, m, buf, s)
    end.

(** The loop over the blocks; [total] is [total_bytes_scheduled]. *)
Fixpoint fetch_loop (fuel : nat) (size offset start_blk num_blocks launched total : Z) (m : block_map) (buf : bytes)
    (s : St) : outcome (Z * bytes * St) :=
  match fuel with
  | O => Ret (total, buf, s)
  | S f =>
      if num_blocks <=? launched then Ret (total, buf, s)
      else
        let offset_in_block := if launched =? 0 then u64 offset mod BSIZE else 0 in
        let to_read := Z.min (BSIZE - offset_in_block) (size - total) in
        let* (eof_found, m, buf, s) :=
          fetch_block size num_blocks total (start_blk + launched) to_read offset_in_block m buf s in
        if (eof_found : bool) then Ret (total + to_read, buf, s)
        else fetch_loop f size offset start_blk num_blocks (launched + 1) (total + to_read) m buf s
  end.

(** Without malleability. *)
Definition imss_sread_prefetch_v2 (path buf : bytes) (size offset : Z) (f : fstate St)
  : outcome (Z * bytes * fstate St) :=
  match fd_lookup path f with
  | (fd, Some st) =>
      if fd <? 0 then Ret (- ENOENT, buf, f)
      else if st_size st <=? offset then Ret (0, buf, f)
      else if size =? 0 then Ret (0, buf, f)
      else if u64 (st_size st) <? u64 (offset + size) then Ret (0, buf, f)
      else if BSIZE =? 0 then Undef DivByZero
      else
        let start_blk := u64 offset / BSIZE + 1 in
        let end_blk := u64 (offset + size + BSIZE - 1) / BSIZE in
        let num_blocks_to_read := u64 (end_blk - start_blk + 1) in
        let* (n, buf, s) := fetch_loop (Z.to_nat num_blocks_to_read) size offset start_blk num_blocks_to_read 0 0
                              ∅ buf (svc f) in
        Ret (n, buf, set_svc s f)
  | (_, None) => Ret (- ENOENT, buf, f)
  end.
End read.

(** ** What the client library promises *)

Definition records (l : list (Z * bytes)) : bytes := concat ((fun r => le_put 4 r.1 ++ r.2) <$> l).

Class PrefetchService (St : Type) `{BlockService St} `{PrefetchOps St} := {
  (** Every copy of a block that a server can send is the block. *)
  fetch_ok : St -> Prop;
  (** Numbers that can be fetched. *)
  fetch_no : Z -> Prop;
  fetch_no_range : forall id, fetch_no id -> svc_no id /\ 1 <= id < 2 ^ 32;
  svc_fetch_ok : forall s id b size n,
    svc_ok s -> fetch_ok s -> fetch_no id -> svc_block s id = Some b -> 0 < size < 2 ^ 53 -> 0 <= n < 2 ^ 53 ->
    exists l, svc_fetch id size n s = Ret (strlen (records ((id, b) :: l)), Some (records ((id, b) :: l)), s) /\
      Forall (fun r => 0 <= r.1 < 2 ^ 32 /\ strlen r.2 = BSIZE /\ (svc_no r.1 -> svc_block s r.1 = Some r.2)) l
}.

(** ** The records of an answer *)

Section properties.
Context {St : Type} `{PrefetchService St}.

(** Blocks in the map are blocks of the file. *)
Definition map_ok (s : St) (m : gmap Z bytes) : Prop :=
  forall i d, m !! i = Some d -> svc_no i -> exists b t, svc_block s i = Some b /\ d = b ++ t.

Definition record_ok (s : St) (r : Z * bytes) : Prop :=
  0 <= r.1 < 2 ^ 32 /\ strlen r.2 = BSIZE /\ (svc_no r.1 -> svc_block s r.1 = Some r.2).

Lemma length_record s r : record_ok s r -> strlen (le_put 4 r.1 ++ r.2) = record_size.
Proof. intros (_ & Hl & _). unfold record_size, strlen in *. rewrite length_app, length_le_put. lia. Qed.

Lemma strlen_records s l : Forall (record_ok s) l -> strlen (records l) = Z.of_nat (length l) * record_size.
Proof.
  induction 1 as [|r l Hr _ IH]; [done|]. change (records (r :: l)) with ((le_put 4 r.1 ++ r.2) ++ records l).
  rewrite strlen_app, (length_record s r Hr), IH, length_cons. lia.
Qed.

Lemma record_size_pos : 0 < record_size.
Proof. unfold record_size. pose proof BSIZE_pos. lia. Qed.

Lemma parse_records_ok s l fuel m :
  Forall (record_ok s) l -> (length l <= fuel)%nat -> map_ok s m ->
  map_ok s (parse_records fuel (records l) m) /\
  forall i, is_Some (m !! i) \/ i ∈ l.*1 -> is_Some (parse_records fuel (records l) m !! i).
Proof.
  intros Hl. revert fuel m. induction Hl as [|r l Hr Hl IH]; intros fuel m Hf Hm.
  { assert (parse_records fuel (records []) m = m) as ->.
    { destruct fuel; [done|]. cbn [parse_records]. change (strlen (records [])) with 0. pose proof record_size_pos.
      by destruct (Z.ltb_spec 0 record_size); [|lia]. }
    split; [done|]. intros i [Hi|Hi]; [done|]. by apply elem_of_nil in Hi. }
  destruct fuel as [|fuel]; [cbn in Hf; lia|]. cbn [parse_records].
  change (records (r :: l)) with ((le_put 4 r.1 ++ r.2) ++ records l).
  pose proof (length_record s r Hr) as Hrl. rewrite strlen_app, Hrl.
  destruct (Z.ltb_spec (record_size + strlen (records l)) record_size); [pose proof (strlen_nonneg (records l)); lia|].
  rewrite drop_app_length' by (unfold strlen in Hrl; lia).
  rewrite <- app_assoc, take_app_length', drop_app_length' by (by rewrite length_le_put).
  destruct Hr as (Hi & Hd & Hb). rewrite le_get_put, Z.mod_small by (simpl; lia).
  destruct (IH fuel (<[r.1 := r.2 ++ records l]> m)) as [IH1 IH2]; [cbn in Hf; lia| |].
  { intros i d. rewrite lookup_insert_Some. intros [[<- <-]|[_ Hi']] Hno; [|by apply Hm].
    exists r.2, (records l). auto. }
  split; [done|]. intros i Hor. apply IH2. rewrite lookup_insert_is_Some. cbn [fmap list_fmap] in Hor.
  rewrite elem_of_cons in Hor. destruct (decide (r.1 = i)); [by auto|]. destruct Hor as [?|[->|?]]; [|done|]; auto.
Qed.

Lemma parse_buffer_ok s id b l m :
  Forall (record_ok s) ((id, b) :: l) -> map_ok s m ->
  map_ok s (parse_prefetch_buffer (records ((id, b) :: l)) m) /\
  is_Some (parse_prefetch_buffer (records ((id, b) :: l)) m !! id).
Proof.
  intros Hl Hm. unfold parse_prefetch_buffer. rewrite (strlen_records s _ Hl).
  rewrite Z.div_mul by (pose proof record_size_pos; lia).
  destruct (parse_records_ok s _ (Z.to_nat (Z.of_nat (length ((id, b) :: l)))) m Hl) as [A B]; [lia|done|].
  split; [done|]. apply B. right. by constructor.
Qed.

(** ** The loop *)

Lemma read_at_app (b t : bytes) off n d : read_at b off n = Ret d -> read_at (b ++ t) off n = Ret d.
Proof.
  unfold read_at. destruct (_ && _ && _) eqn:E; [|done]. btests. intros [= <-].
  assert ((0 <=? off) && (0 <=? n) && (off + n <=? strlen (b ++ t)) = true) as ->.
  { rewrite !andb_true_iff, !Z.leb_le, strlen_app. pose proof (strlen_nonneg t). lia. }
  f_equal. unfold strlen in *. rewrite drop_app_le, take_app_le; [done|rewrite length_drop; lia|lia].
Qed.

(** The map gives the bytes of a block it has. *)
Lemma find_ok s m buf pos curr bo n d b :
  map_ok s m -> is_Some (m !! curr) -> svc_no curr -> 0 <= curr < 2 ^ 32 ->
  svc_block s curr = Some b -> read_at b bo n = Ret d -> 0 <= pos -> pos + n <= strlen buf ->
  exists buf', find_data_on_prefetch buf pos curr n bo m = Ret (true, buf') /\ write_at buf pos d = Ret buf'.
Proof.
  intros Hm [x Hx] Hno Hc Hb Hd Hp Hl. destruct (Hm _ _ Hx Hno) as (b' & t & Hb' & ->).
  rewrite Hb in Hb'. injection Hb' as <-. unfold find_data_on_prefetch. rewrite u32_small, Hx by lia.
  rewrite (read_at_app b t bo n d Hd). cbn [obind].
  destruct (write_at_ok buf pos d) as [buf' Hw]; [done|rewrite (read_at_length _ _ _ _ Hd); lia|].
  exists buf'. by rewrite Hw.
Qed.

(** One block, from the map or from a server. *)
Lemma fetch_block_ok s size num pos curr bo n d b m buf :
  svc_ok s -> fetch_ok s -> fetch_no curr -> map_ok s m -> svc_block s curr = Some b -> read_at b bo n = Ret d ->
  0 < size < 2 ^ 53 -> 0 <= num < 2 ^ 53 -> 0 <= pos -> pos + n <= strlen buf ->
  exists m' buf', fetch_block size num pos curr n bo m buf s = Ret (false, m', buf', s) /\
    map_ok s m' /\ write_at buf pos d = Ret buf'.
Proof.
  intros Hok Hfo Hfn Hm Hb Hd Hs Hn Hp Hl. destruct (fetch_no_range curr Hfn) as [Hno Hc].
  unfold fetch_block. destruct (m !! curr) as [x|] eqn:Hx.
  - destruct (find_ok s m buf pos curr bo n d b Hm (mk_is_Some _ _ Hx) Hno) as (buf' & -> & Hw); try done; [lia|].
    cbn [obind]. by exists m, buf'.
  - unfold find_data_on_prefetch at 1. rewrite u32_small, Hx by lia. cbn [obind].
    destruct (svc_fetch_ok s curr b size num Hok Hfo Hfn Hb Hs Hn) as (l & -> & Hl'). cbn [obind].
    assert (Forall (record_ok s) ((curr, b) :: l)) as Hrec.
    { constructor; [|exact Hl']. split; [cbn; lia|]. split; [by eapply svc_block_length|done]. }
    pose proof (strlen_records s _ Hrec) as Hlen. pose proof record_size_pos.
    destruct (Z.leb_spec (strlen (records ((curr, b) :: l))) 0); [rewrite Hlen in *; cbn [length] in *; lia|].
    rewrite take_ge by (unfold strlen; lia).
    destruct (parse_buffer_ok s curr b l m Hrec Hm) as [Hm' Hin].
    destruct (find_ok s _ buf pos curr bo n d b Hm' Hin Hno) as (buf' & -> & Hw); try done; [lia|].
    cbn [obind negb]. by eexists _, buf'.
Qed.

Lemma fetch_loop_ok s off size fuel launched total m buf buf0 :
  let start := off / BSIZE + 1 in
  let end_blk := (off + size + BSIZE - 1) / BSIZE in
  let bo := if launched =? 0 then off mod BSIZE else 0 in
  svc_ok s -> fetch_ok s -> (forall x, off <= x < off + size -> is_Some (file_byte s x)) ->
  (forall id, start <= id <= end_blk -> fetch_no id) ->
  0 <= off -> 0 < size -> off + size < 2 ^ 53 -> 0 <= total < size -> size <= strlen buf -> 0 <= launched ->
  (start + launched - 1) * BSIZE + bo = off + total ->
  Z.of_nat fuel = end_blk - start + 1 - launched -> map_ok s m -> length buf = length buf0 ->
  drop (Z.to_nat total) buf = drop (Z.to_nat total) buf0 ->
  (forall i, 0 <= i < total -> file_byte s (off + i) = buf !! Z.to_nat i) ->
  exists buf', fetch_loop fuel size off start (end_blk - start + 1) launched total m buf s = Ret (size, buf', s) /\
    length buf' = length buf0 /\ drop (Z.to_nat size) buf' = drop (Z.to_nat size) buf0 /\
    (forall i, 0 <= i < size -> file_byte s (off + i) = buf' !! Z.to_nat i).
Proof.
  cbv zeta. set (start := off / BSIZE + 1). set (end_blk := (off + size + BSIZE - 1) / BSIZE).
  intros Hok Hfo Hst Hfn Hoff Hsz Hmax. pose proof BSIZE_pos as HB.
  pose proof (end_block_bounds off size Hoff Hsz) as He. cbv zeta in He. fold end_blk in He.
  assert (1 <= start) as Hst1 by (unfold start; pose proof (Z.div_pos off BSIZE Hoff (proj1 HB)); lia).
  assert (end_blk < 2 ^ 53) as Hend by nia.
  revert launched total m buf.
  induction fuel as [|fuel IH]; intros launched total m buf Ht Hl Hla Hpos Hf Hm Hlen Htail Hdone.
  { exfalso. destruct (Z.eqb_spec launched 0); [pose proof (Z.mod_pos_bound off BSIZE (proj1 HB))|]; nia. }
  cbn [fetch_loop]. destruct (Z.leb_spec (end_blk - start + 1) launched); [lia|].
  rewrite (u64_of off) by lia. set (bo := if launched =? 0 then off mod BSIZE else 0) in *.
  assert (0 <= bo < BSIZE) as Hbo by (unfold bo; case_match; [apply Z.mod_pos_bound; lia|lia]).
  set (n := Z.min (BSIZE - bo) (size - total)). assert (0 < n /\ n <= size - total /\ bo + n <= BSIZE) as (Hn & Hn1 & Hn2) by lia.
  assert (fetch_no (start + launched)) as Hcn by (apply Hfn; lia).
  destruct (block_chunk s (start + launched) bo n) as (b & d & Hb & Hd & Hdl & Hh); try done; try lia.
  { apply fetch_no_range, Hcn. }
  { rewrite Hpos. apply Hst. lia. }
  rewrite Hpos in Hh.
  destruct (fetch_block_ok s size (end_blk - start + 1) total (start + launched) bo n d b m buf)
    as (m1 & buf1 & -> & Hm1 & Hw); try done; try lia.
  cbn [obind]. pose proof (strlen_write_at _ _ _ _ Hw) as Hlw.
  assert (forall i, 0 <= i < total + n -> file_byte s (off + i) = buf1 !! Z.to_nat i) as Hdone1.
  { intros i Hi. rewrite (write_at_lookup _ _ _ _ _ Hw). unfold strlen in Hdl. case_decide as Hc.
    - rewrite <- (Z2Nat.id i) by lia. replace (off + Z.of_nat (Z.to_nat i)) with (off + total + (i - total)) by lia.
      rewrite Hh by lia. f_equal. lia.
    - apply Hdone. lia. }
  assert (drop (Z.to_nat (total + n)) buf1 = drop (Z.to_nat (total + n)) buf0) as Htail1.
  { apply list_eq. intros i. rewrite !lookup_drop, (write_at_lookup _ _ _ _ _ Hw). unfold strlen in Hdl.
    rewrite decide_False by lia. replace (Z.to_nat (total + n) + i)%nat with (Z.to_nat total + (Z.to_nat n + i))%nat by lia.
    by rewrite <- !lookup_drop, Htail. }
  destruct (Z.eq_dec (total + n) size) as [Hend'|Hmore].
  - exists buf1. rewrite <- Hend'. split; [|unfold strlen in *; split; [lia|by auto]].
    assert (end_blk <= start + launched) by nia. destruct fuel as [|fuel]; [done|]. lia.
  - assert (n = BSIZE - bo) as Hnb by lia.
    apply (IH (launched + 1) (total + n) m1 buf1); try done; try (unfold strlen in *; lia).
    destruct (Z.eqb_spec (launched + 1) 0); lia.
Qed.

(** A prefetching read inside the file. *)
Lemma sread_prefetch_ok path buf size off fd st f :
  svc_ok (svc f) -> fetch_ok (svc f) -> files f !! path = Some (fd, st) -> 0 <= fd ->
  0 <= off -> 0 < size <= strlen buf -> off + size <= st_size st < 2 ^ 53 ->
  (forall id, 1 <= id <= (off + size - 1) / BSIZE + 1 -> fetch_no id) ->
  (forall x, off <= x < off + size -> is_Some (file_byte (svc f) x)) ->
  exists buf', imss_sread_prefetch_v2 path buf size off f = Ret (size, buf', f) /\
    length buf' = length buf /\ drop (Z.to_nat size) buf' = drop (Z.to_nat size) buf /\
    (forall i, 0 <= i < size -> file_byte (svc f) (off + i) = buf' !! Z.to_nat i).
Proof.
  intros Hok Hfo Hfile Hfd Hoff Hsz Hst Hfn Hstored. pose proof BSIZE_pos as HB.
  pose proof (end_block_bounds off size Hoff (proj1 Hsz)) as He. cbv zeta in He.
  set (end_blk := (off + size + BSIZE - 1) / BSIZE) in *.
  assert (BSIZE <> 0) as Hnz by lia.
  pose proof (Z.mod_pos_bound off BSIZE (proj1 HB)) as Hm. pose proof (Z.div_mod off BSIZE Hnz) as Hdm.
  pose proof (Z.div_pos off BSIZE Hoff (proj1 HB)).
  assert (end_blk <= (off + size - 1) / BSIZE + 1) as Hlast.
  { pose proof (Z.div_le_lower_bound (off + size - 1) BSIZE (end_blk - 1)). lia. }
  assert (off / BSIZE + 1 <= end_blk < 2 ^ 53) as Hle by nia.
  unfold imss_sread_prefetch_v2, fd_lookup. rewrite Hfile. destruct (Z.ltb_spec fd 0); [lia|].
  destruct (Z.leb_spec (st_size st) off); [lia|]. destruct (Z.eqb_spec size 0); [lia|].
  rewrite (u64_of (st_size st)), (u64_of (off + size)), (u64_of off) by lia.
  destruct (Z.ltb_spec (st_size st) (off + size)); [lia|]. destruct (Z.eqb_spec BSIZE 0); [lia|].
  rewrite (u64_small (off + size + BSIZE - 1)) by lia. fold end_blk.
  rewrite (u64_small (end_blk - (off / BSIZE + 1) + 1)) by lia.
  destruct (fetch_loop_ok (svc f) off size (Z.to_nat (end_blk - (off / BSIZE + 1) + 1)) 0 0 ∅ buf buf)
    as (buf' & Hrun & Hl & Ht & Hb); try done; try lia.
  { intros id Hid. apply Hfn. fold end_blk in Hid. lia. }
  { change (0 =? 0) with true. cbv iota. lia. }
  fold end_blk in Hrun. rewrite Hrun. cbn [obind]. exists buf'. split; [by destruct f|done].
Qed.
End properties.

(** ** The client library *)

(** [sprintf(key_, "%s %lu %ld %s$%d %ld", mode, READV2_OP, offset, uri_, data_id, size)],
    with [offset] 0. *)
Definition prefetch_request (mode uri : bytes) (data_id size : Z) : bytes :=
  mode ++ sp :: print_u READV2_OP ++ sp :: print_u 0 ++ sp :: block_key uri data_id ++ sp :: print_d size.

Section client.
Context (stack : bytes) (e : env).

(** Requests to the replicas in turn until one has the block. *)
Fixpoint fetch_replicas (di : dataset_info) (n_server storages data_id size : Z) (k : nat) (i : Z) (w : world)
  : outcome (Z * option bytes * world) :=
  match k with
  | O => Ret (-1, None, w)
  | S k' =>
      let* server_id := replica n_server i storages (repl_factor di) in
      let mode := if local_policy (session_plcy di) then B "LOCALGET" else B "GET" in
      if negb (send_ok e) then Ret (-2, None, w)
      else
        let* w := deliver e server_id (prefetch_request mode (uri_ di) data_id size) [] w in
        let '(m, w) := receive w in
        match m with
        | None | Some [] => Ret (-2, None, w)
        | Some msg =>
            match malloc e (strlen msg + 1) with
            | None => Ret (-2, None, w)
            | Some _ =>
                if prefixb err_code msg
                then fetch_replicas di n_server storages data_id size k' (i + 1) w
                else Ret (strlen msg, Some msg, w)
            end
        end
  end.

Definition get_ndata_prefetch (dataset_uri : bytes) (data_id_ total_read_size num_blocks : Z) (w : world)
  : outcome (Z * option bytes * world) :=
  let data_id := i32 data_id_ in
  let* (n_server, curr, w) := get_data_location stack dataset_uri data_id GET w in
  match curr with
  | None => Ret (-2, None, w)
  | Some (di, im) =>
      if n_server =? -1 then Ret (-2, None, w)
      else
        let* entry_value := GetValueFromInterval di data_id in
        let storages := if entry_value =? -1 then num_storages im else entry_value in
        if (repl_factor di <? 0) || (storages <? 0) then Ret (-1, None, w)
        else if storages =? 0 then Undef DivByZero
        else
          let size := u64 (total_read_size / storages + num_blocks / storages * 4) in
          fetch_replicas di n_server storages data_id (i64 size) (Z.to_nat (repl_factor di)) 0 w
  end.
End client.

(** ** The client library implements the interface *)

Section instance.
Context (stack : bytes) (e : env).
Context (fresh_shm : gmap Z bytes -> Z) (matching_server_id : Z).
Context (u : bytes) (di : dataset_info) (im : imss_info).

#[local] Instance file_ops : BlockOps world := client_ops stack e fresh_shm matching_server_id u.

Definition fetch_ops : PrefetchOps world := fun id size n w => get_ndata_prefetch stack e u id size n w.

(** A block has one content, wherever it is. *)
Definition coherent (w : world) : Prop :=
  forall s id v, s ∈ servers w -> block_no im id -> HierarchicalMapGet (block_key u id) (hr s) = Ret (Some v) ->
    block_of stack u di im w id = Some (data v).

(** The number whose four bytes start the servers' error string. *)
Definition MARKER_ID : Z := 1381123364.

Context (FS : file_session stack e u di im).

Lemma prefetch_records m base fuel id step room :
  wf_map m -> 0 <= id < 2 ^ 32 ->
  exists l, prefetch_loop (BLOCK_SIZE e) fuel base id step room m = records l /\
    Forall (fun r => 0 <= r.1 < 2 ^ 32 /\ strlen r.2 = BLOCK_SIZE e /\
      exists v, buffer m !! (base ++ dollar :: print_u r.1) = Some v /\ data v = r.2) l.
Proof.
  intros Hwf. revert id room. induction fuel as [|f IH]; intros id room Hid; cbn [prefetch_loop]; [by exists []|].
  destruct (room <? _); [by exists []|]. unfold get. destruct (buffer m !! _) as [v|] eqn:Hv; [|by exists []].
  destruct (Z.eqb_spec (bsize v) (BLOCK_SIZE e)) as [Hb|]; [|by exists []]. cbn [negb].
  destruct (IH (u32 (id + step)) (room - (4 + BLOCK_SIZE e))) as (l & -> & Hl); [apply u32_range|].
  exists ((id, data v) :: l). split; [|constructor; [|done]].
  { change (records ((id, data v) :: l)) with ((le_put 4 id ++ data v) ++ records l). by rewrite <- app_assoc. }
  cbn. split; [done|]. split; [rewrite (Hwf _ _ Hv : strlen (data v) = bsize v); done|]. eauto.
Qed.

(** The blocks a server has of the file, in the map of their directory. *)
Lemma same_directory (h : HierarchicalRecords bytes) id :
  0 <= id -> exists d, parent_dir u = Ret d /\ get_child_unsafe (u ++ dollar :: print_u id) h = Ret (hiermap h !! d) /\
    forall i, 0 <= i -> HierarchicalMapGet (block_key u i) h = Ret (m ← hiermap h !! d; buffer m !! block_key u i).
Proof.
  intros Hid. destruct (parent_dir_rooted u) as [d Hd]; [apply (fs_name _ _ _ _ _ FS)|]. exists d. split; [done|].
  assert (forall i, 0 <= i -> parent_dir (u ++ dollar :: print_u i) = Ret d) as Hp.
  { intros i Hi. rewrite parent_dir_of_block; [done|apply (fs_name _ _ _ _ _ FS)|]. by apply print_u_no. }
  split.
  - unfold get_child_unsafe. rewrite Hp by done. done.
  - intros i Hi. unfold block_key. rewrite print_d_u by lia. rewrite (HGet_eq _ d) by (by apply Hp).
    by destruct (hiermap h !! d).
Qed.

Lemma parse_prefetch id n :
  numbered im id -> 0 <= n < 2 ^ 63 ->
  parse_request true (prefetch_request (B "GET") u id n) = Ret (B "GET", mkReq READV2_OP 0 (-1) (block_key u id) n).
Proof.
  intros [Hid Hidb] Hn. pose proof (fs_servers _ _ _ _ _ FS). unfold prefetch_request.
  destruct (block_key_wire u id (fs_wire _ _ _ _ _ FS) ltac:(lia)) as (Hne & Hsp & Hl).
  rewrite (print_d_u n) by lia. assert (no_space (B "GET")) by repeat constructor.
  rewrite parse_default by done. rewrite scan_tail_word_num; done || lia.
Qed.

(** A server answers with the block that was asked for and blocks it has. *)
Lemma server_prefetch s id v n :
  server_ok e u s -> block_no im id -> HierarchicalMapGet (block_key u id) (hr s) = Ret (Some v) -> 0 <= n < 2 ^ 63 ->
  exists l, srv_worker_helper (with_payload [] e) (prefetch_request (B "GET") u id n) s
      = Ret (0, [Data (records ((id, data v) :: l))], s) /\
    Forall (fun r => 0 <= r.1 < 2 ^ 32 /\ strlen r.2 = BLOCK_SIZE e /\
      exists v', HierarchicalMapGet (block_key u r.1) (hr s) = Ret (Some v') /\ data v' = r.2) l.
Proof.
  intros ([Hwf _] & Hm & Hsz) [Hid Hidb] Hv Hn. pose proof (fs_servers _ _ _ _ _ FS). pose proof (fs_block _ _ _ _ _ FS) as HB.
  unfold prefetch_request at 1. rewrite get_line by done. fold (prefetch_request (B "GET") u id n).
  rewrite parse_prefetch by (done || split; lia). cbn [obind].
  change (read_op (with_payload [] e) false (mkReq READV2_OP 0 (-1) (block_key u id) n) s)
    with (read_prefetch (with_payload [] e) (mkReq READV2_OP 0 (-1) (block_key u id) n) s).
  unfold read_prefetch. cbn [to_read key BLOCK_SIZE with_payload arg_prefetch_size malloc num_data_servers send_ok].
  rewrite (u64_small n) by lia.
  set (n1 := if n <=? 0 then _ else n). set (n2 := if n1 <? 4 + BLOCK_SIZE e then 4 + BLOCK_SIZE e else n1).
  assert (4 + BLOCK_SIZE e <= n2) as Hn2 by (unfold n2; destruct (Z.ltb_spec n1 (4 + BLOCK_SIZE e)); lia).
  destruct (fs_memory _ _ _ _ _ FS n2) as [buf ->]; [lia|].
  assert (block_key u id = u ++ dollar :: print_u id) as Hkey by (unfold block_key; by rewrite print_d_u by lia).
  rewrite Hkey, strchr_app_first by apply (fs_name _ _ _ _ _ FS).
  rewrite take_app_length, drop_app_ge, Nat.sub_succ_l, Nat.sub_diag by lia.
  change (drop 1 (dollar :: print_u id)) with (print_u id).
  assert (stoul (print_u id) = Some id) as ->.
  { unfold stoul, scan_u64. rewrite <- (app_nil_r (print_u id)).
    change (scan_d (print_u id ++ [])) with (scan_d (sp :: print_u id ++ [])).
    rewrite scan_d_print by (done || lia). f_equal. apply u64_small. lia. }
  rewrite u32_small by lia. unfold HierarchicalMapGetPrefetch.
  destruct (same_directory (hr s) id) as (d & Hd & -> & Hget); [lia|]. cbn [obind].
  rewrite (Hget id ltac:(lia)) in Hv. destruct (hiermap (hr s) !! d) as [m|] eqn:Hmd; [|done]. cbn in Hv. injection Hv as Hv.
  assert (1 <= n2 / (4 + BLOCK_SIZE e)) as Hfuel by (apply Z.div_le_lower_bound; lia).
  destruct (Z.to_nat (n2 / (4 + BLOCK_SIZE e))) as [|fuel] eqn:Hf; [lia|]. cbn [prefetch_loop].
  destruct (Z.ltb_spec n2 (4 + BLOCK_SIZE e)); [lia|]. unfold get. rewrite <- Hkey, Hv.
  assert (bsize v = BLOCK_SIZE e) as -> by (apply (Hsz id v); [lia|]; rewrite (Hget id) by lia; cbn; by f_equal).
  rewrite Z.eqb_refl. cbn [negb].
  destruct (prefetch_records m u fuel (u32 (id + num_data_servers e)) (num_data_servers e) (n2 - (4 + BLOCK_SIZE e)))
    as (l & -> & Hl); [by apply (Hwf d)|apply u32_range|].
  exists l. split.
  - assert (le_put 4 id ++ data v ++ records l = records ((id, data v) :: l)) as ->
      by (change (records ((id, data v) :: l)) with ((le_put 4 id ++ data v) ++ records l); by rewrite <- app_assoc).
    destruct (records ((id, data v) :: l)) as [|c t] eqn:E; [|by rewrite (fs_send _ _ _ _ _ FS)].
    apply (f_equal strlen) in E. change (records ((id, data v) :: l)) with ((le_put 4 id ++ data v) ++ records l) in E.
    unfold strlen in E. rewrite !length_app, length_le_put in E. cbn in E. lia.
  - eapply Forall_impl; [exact Hl|]. intros r (Hr1 & Hr2 & v' & Hv' & Hd'). split; [done|]. split; [done|].
    exists v'. rewrite (Hget r.1) by lia. cbn. unfold block_key. rewrite print_d_u by lia. by rewrite Hv'.
Qed.

Lemma records_not_error id b l :
  0 <= id < 2 ^ 32 -> id <> MARKER_ID -> prefixb err_code (records ((id, b) :: l)) = false.
Proof.
  intros Hid Hne. destruct (prefixb _ _) eqn:E; [|done]. apply prefixb_spec in E as [t E]. exfalso. apply Hne.
  change (records ((id, b) :: l)) with ((le_put 4 id ++ b) ++ records l) in E. rewrite <- app_assoc in E.
  apply (f_equal (fun x => le_get (take 4 x))) in E. rewrite take_app_length' in E by (by rewrite length_le_put).
  rewrite le_get_put, Z.mod_small in E by (simpl; lia). rewrite E. reflexivity.
Qed.

Lemma get_ndata_prefetch_ok w id b size n :
  world_ok e u di im w -> coherent w -> block_no im id -> id <> MARKER_ID -> block_of stack u di im w id = Some b ->
  0 < size < 2 ^ 53 -> 0 <= n < 2 ^ 53 ->
  exists l, get_ndata_prefetch stack e u id size n w
      = Ret (strlen (records ((id, b) :: l)), Some (records ((id, b) :: l)), w) /\
    Forall (fun r => 0 <= r.1 < 2 ^ 32 /\ strlen r.2 = BLOCK_SIZE e /\
      (block_no im r.1 -> block_of stack u di im w r.1 = Some r.2)) l.
Proof.
  intros Hw Hco Hno Hmk Hb Hs Hn. pose proof (fs_servers _ _ _ _ _ FS) as HN. pose proof Hno as [Hid Hidb].
  pose proof (fs_repl _ _ _ _ _ FS) as Hrep.
  destruct (home_server stack e u di im FS w id Hw Hno) as (s & Hsv & Hok).
  unfold block_of in Hb. rewrite Hsv in Hb. destruct (HierarchicalMapGet _ (hr s)) as [[v|]| |] eqn:Hv; try done.
  injection Hb as <-. set (sz := size / num_storages im + n / num_storages im * 4).
  assert (0 <= sz < 2 ^ 60) as Hsz.
  { unfold sz. assert (0 <= size / num_storages im <= size) by (split; [apply Z.div_pos|apply Z.div_le_upper_bound]; nia).
    assert (0 <= n / num_storages im <= n) by (split; [apply Z.div_pos|apply Z.div_le_upper_bound]; nia). lia. }
  destruct (server_prefetch s id v sz Hok Hno Hv) as (l & Hrun & Hl); [lia|]. exists l. split.
  - unfold get_ndata_prefetch. rewrite i32_small by lia.
    rewrite (location_ok stack e u di im FS) by (done || by apply block_numbered). cbn [obind].
    destruct (home_spec stack e u di im FS id GET (block_numbered im id Hno)) as [_ Hh].
    destruct (Z.eqb_spec (home stack di im id) (-1)); [lia|]. rewrite (no_interval stack e u di im FS). cbn [obind].
    change (-1 =? -1) with true. cbv iota. destruct (Z.ltb_spec (repl_factor di) 0); [lia|].
    destruct (Z.ltb_spec (num_storages im) 0); [lia|]. cbn [orb]. destruct (Z.eqb_spec (num_storages im) 0); [lia|].
    fold sz. rewrite u64_small by lia. rewrite i64_small by lia.
    destruct (Z.to_nat (repl_factor di)) as [|k] eqn:Hk; [lia|]. cbn [fetch_replicas].
    destruct (replica_range stack e u di im FS (home stack di im id) 0 Hh) as (x & -> & Hx & Hx0); [lia|].
    rewrite (Hx0 eq_refl) in *. cbn [obind]. rewrite (not_local stack e u di im FS), (fs_send _ _ _ _ _ FS), (fs_uri _ _ _ _ _ FS). cbn [negb].
    unfold deliver. destruct (Z.ltb_spec (home stack di im id) 0); [lia|]. rewrite Hsv, Hrun. cbn [obind map reply_bytes].
    pose proof Hw as (Hin & _). unfold receive. cbn [inbox]. rewrite Hin. cbn [app].
    assert (set_inbox [] (mkWorld (<[Z.to_nat (home stack di im id) := s]> (servers w))
      [records ((id, data v) :: l)] (datasets w) (imssd w)) = w) as ->.
    { unfold set_inbox. cbn [servers datasets imssd]. rewrite list_insert_id by done. destruct w. simpl in *. by subst. }
    pose proof (records_not_error id (data v) l ltac:(lia) Hmk) as Herr.
    destruct (records ((id, data v) :: l)) as [|c t] eqn:E.
    { apply (f_equal strlen) in E. change (records ((id, data v) :: l)) with ((le_put 4 id ++ data v) ++ records l) in E.
      unfold strlen in E. rewrite !length_app, length_le_put in E. cbn in E. lia. }
    destruct (fs_memory _ _ _ _ _ FS (strlen (c :: t) + 1)) as [x' ->]; [pose proof (strlen_nonneg (c :: t)); lia|].
    by rewrite Herr.
  - eapply Forall_impl; [exact Hl|]. intros r (Hr1 & Hr2 & v' & Hv' & Hd). split; [done|]. split; [done|].
    intros Hrn. rewrite <- Hd. apply (Hco s r.1 v'); [by eapply list_elem_of_lookup_2|done|done].
Qed.

#[global] Program Instance fetch_service :
    @PrefetchService world (client_ops stack e fresh_shm matching_server_id u)
      (client_service stack e fresh_shm matching_server_id u di im FS) fetch_ops := {|
  fetch_ok := coherent;
  fetch_no id := block_no im id /\ id <> MARKER_ID
|}.
Next Obligation.
  intros id [[H1 H2] _]. pose proof (fs_servers _ _ _ _ _ FS). cbn. unfold block_no in *. lia.
Qed.
Next Obligation.
  intros s id b size n Hok Hco [Hno Hmk] Hb Hs Hn. by apply get_ndata_prefetch_ok.
Qed.
End instance.

(** ** Theorems *)

Section theorems.
Context {St : Type} `{PrefetchService St} (dceil : Z -> Z -> Z).
Context (dceil_exact : forall x b, 0 <= x < 2 ^ 53 -> 0 < b < 2 ^ 53 -> dceil x b = (x + b - 1) / b).

(** C14. Inside the file, a read with prefetching is a plain read: it returns all
    the bytes asked for, the same ones, and leaves the rest of the caller's
    buffer alone - whatever runs of blocks the servers send.  The blocks of the
    range are stored, every copy of a block that a server sends is the block
    ([fetch_ok]), and no block starts with the marker of an error reply ([reads_clean]). *)
Theorem prefetch_read_is_plain (path buf : bytes) (size off fd : Z) (st : stat) (f : fstate St)
  (Hok : svc_ok (svc f)) (Hfo : fetch_ok (svc f)) (Hfile : files f !! path = Some (fd, st)) (Hfd : 0 <= fd)
  (Hoff : 0 <= off) (Hsize : 0 < size <= strlen buf) (Hend : off + size <= st_size st < 2 ^ 53)
  (Hno : forall id, 1 <= id <= (off + size - 1) / BSIZE + 1 -> fetch_no id)
  (Hstored : forall x, off <= x < off + size -> is_Some (file_byte (svc f) x))
  (Hcl : reads_clean (svc f) buf off size) :
  imss_sread_prefetch_v2 path buf size off f = imss_sread dceil path buf size off f /\
  exists buf', imss_sread_prefetch_v2 path buf size off f = Ret (size, buf', f) /\
    drop (Z.to_nat size) buf' = drop (Z.to_nat size) buf /\
    (forall i, 0 <= i < size -> file_byte (svc f) (off + i) = buf' !! Z.to_nat i).
Proof.
  destruct (sread_prefetch_ok path buf size off fd st f) as (b1 & R1 & L1 & T1 & B1); try done.
  assert (blocks_usable (off + size - 1)) as Hu by (intros id Hid; by apply fetch_no_range, Hno).
  destruct (imss_sread_ok dceil dceil_exact path buf size off fd st f) as (b2 & R2 & L2 & T2 & B2); try done; [lia|].
  split; [|by exists b1]. rewrite R1, R2. do 3 f_equal. apply list_eq. intros i.
  destruct (decide (i < Z.to_nat size)%nat) as [Hi|Hi].
  - rewrite <- (Nat2Z.id i), <- B1, <- B2 by lia. done.
  - replace i with (Z.to_nat size + (i - Z.to_nat size))%nat by lia. by rewrite <- !lookup_drop, T1, T2.
Qed.

(** A prefetching read that reaches past the end of the file returns nothing,
    although bytes remain: its caller sees the end of the file too early. *)
Theorem prefetch_read_drops_tail (path buf : bytes) (size off fd : Z) (st : stat) (f : fstate St)
  (Hfile : files f !! path = Some (fd, st)) (Hfd : 0 <= fd)
  (Hoff : 0 <= off < st_size st) (Hend : st_size st < off + size) (Hmax : off + size < 2 ^ 64) :
  imss_sread_prefetch_v2 path buf size off f = Ret (0, buf, f).
Proof.
  unfold imss_sread_prefetch_v2, fd_lookup. rewrite Hfile. destruct (Z.ltb_spec fd 0); [lia|].
  destruct (Z.leb_spec (st_size st) off); [lia|]. destruct (Z.eqb_spec size 0); [done|].
  rewrite !u64_small by lia. by destruct (Z.ltb_spec (st_size st) (off + size)); [|lia].
Qed.
End theorems.

(** ** Examples *)

(** Blocks 1 and 2 of a file on two servers. *)
Definition holder (k d : bytes) : server :=
  mkServer (mkHier {[ IMSS_ROOT := mkMap {[ k := mkBuf d 4 ]} [] ]} 0 1000 []) ∅ ∅ ∅ ∅ false 0 [] 0 (-1) 1 false 0.
Definition two_blocks : world :=
  set_servers [holder (B "imss://f$2") (B "efgh"); holder (B "imss://f$1") (B "abcd")] (cluster 1).

Lemma holder_get k d k' v :
  HierarchicalMapGet k' (hr (holder k d)) = Ret (Some v) -> parent_dir k = Ret IMSS_ROOT -> k' = k /\ v = mkBuf d 4.
Proof.
  intros Hv Hk. assert (placed (hr (holder k d))) as Hp.
  { intros x m y z Hm Hz. cbn [hr holder hiermap] in Hm. apply lookup_singleton_Some in Hm as [<- <-].
    cbn [buffer] in Hz. by apply lookup_singleton_Some in Hz as [<- _]. }
  assert (entry_at (holder k d) k' = Some v) as Hin by (unfold entry_at; by rewrite Hv).
  apply (placed_entry _ _ _ Hp) in Hin. apply elem_of_all_entries in Hin as (x & m & Hm & Hz).
  cbn [hr holder hiermap] in Hm. apply lookup_singleton_Some in Hm as [<- <-]. cbn [buffer] in Hz.
  by apply lookup_singleton_Some in Hz as [<- <-].
Qed.

Lemma holder_ok k d : parent_dir k = Ret IMSS_ROOT -> length d = 4%nat -> server_ok (big_env 4) cluster_file (holder k d).
Proof.
  intros Hk Hd. split; [|split; [done|]].
  - split; [|constructor]. apply map_Forall_singleton. apply map_Forall_singleton. cbn. unfold strlen. by rewrite Hd.
  - intros id v _ Hv. by destruct (holder_get k d _ v Hv Hk) as [_ ->].
Qed.

Lemma two_blocks_ok : world_ok (big_env 4) cluster_file (cluster_info 1) cluster_imss two_blocks.
Proof.
  split; [done|]. split; [reflexivity|]. split; [reflexivity|]. split; [reflexivity|].
  repeat constructor; by apply holder_ok.
Qed.

Lemma two_blocks_coherent : coherent [] cluster_file (cluster_info 1) cluster_imss two_blocks.
Proof.
  assert (forall i id, 0 <= i < 2 ^ 31 -> block_no cluster_imss id ->
    block_key cluster_file id = block_key cluster_file i -> id = i) as Hinj.
  { intros i id Hi [H1 H2] E. apply block_key_inj in E; [done|simpl in *; lia|done]. }
  intros s id v Hs Hno Hv. cbn in Hs. rewrite !elem_of_cons, elem_of_nil in Hs. destruct Hs as [->|[->|[]]].
  - destruct (holder_get _ _ _ v Hv eq_refl) as [E ->]. rewrite (Hinj 2 id ltac:(lia) Hno E). by vm_compute.
  - destruct (holder_get _ _ _ v Hv eq_refl) as [E ->]. rewrite (Hinj 1 id ltac:(lia) Hno E). by vm_compute.
Qed.

Definition plain_service := cluster_service 4 1 ltac:(lia) ltac:(lia).

Lemma two_blocks_bytes i : 0 <= i < 8 ->
  @file_byte world _ plain_service two_blocks (0 + i) = B "abcdefgh" !! Z.to_nat i.
Proof.
  intros Hi. assert (exists k, i = Z.of_nat k /\ (k < 8)%nat) as (k & -> & Hk) by (exists (Z.to_nat i); lia).
  rewrite Nat2Z.id. do 8 (destruct k as [|k]; [by vm_compute|]). lia.
Qed.

Lemma prefetch_read_is_plain_witness :
  @imss_sread_prefetch_v2 world (cluster_ops 4) (fetch_ops [] (big_env 4) cluster_file) cluster_file
    (B "..........") 8 0 (cluster_state 8 two_blocks)
  = @imss_sread world (cluster_ops 4) div_up cluster_file (B "..........") 8 0 (cluster_state 8 two_blocks).
Proof.
  destruct (@prefetch_read_is_plain world (cluster_ops 4) plain_service (fetch_ops [] (big_env 4) cluster_file)
    (fetch_service [] (big_env 4) (fun _ => -1) 0 cluster_file (cluster_info 1) cluster_imss
       (cluster_session 4 1 ltac:(lia) ltac:(lia)))
    div_up (fun x b _ _ => eq_refl) cluster_file (B "..........") 8 0 0 (mkStat 8 0 1 33188) (cluster_state 8 two_blocks))
    as [Heq _].
  - exact two_blocks_ok.
  - exact two_blocks_coherent.
  - apply cluster_file_state.
  - lia.
  - lia.
  - vm_compute. split; [reflexivity|discriminate].
  - simpl. lia.
  - intros id Hid. change ((0 + 8 - 1) / BSIZE + 1) with 2 in Hid. split; [split; simpl; lia|unfold MARKER_ID; lia].
  - intros x Hx. rewrite <- (Z.add_0_l x), two_blocks_bytes by lia. apply lookup_lt_is_Some. simpl. lia.
  - apply (marker_free_clean [] (big_env 4) (fun _ => -1) 0 cluster_file (cluster_info 1) cluster_imss
      (cluster_session 4 1 ltac:(lia) ltac:(lia)) two_blocks (B "abcdefgh") (B "..........") 0 8);
      [lia|vm_compute; split; [reflexivity|discriminate]| |exact two_blocks_bytes].
    intros i Hi _. assert (exists k, i = Z.of_nat k /\ (k < 8)%nat) as (k & -> & Hk) by (exists (Z.to_nat i); lia).
    rewrite Nat2Z.id. do 8 (destruct k as [|k]; [vm_compute; discriminate|]). lia.
  - exact Heq.
Defined.

Lemma prefetch_read_drops_tail_witness :
  @imss_sread_prefetch_v2 world (cluster_ops 4) (fetch_ops [] (big_env 4) cluster_file) cluster_file
    (B "..........") 10 0 (cluster_state 8 two_blocks) = Ret (0, B "..........", cluster_state 8 two_blocks).
Proof.
  apply (@prefetch_read_drops_tail world (cluster_ops 4) (fetch_ops [] (big_env 4) cluster_file) cluster_file
    (B "..........") 10 0 0 (mkStat 8 0 1 33188) (cluster_state 8 two_blocks)).
  - apply cluster_file_state.
  - lia.
  - simpl. lia.
  - simpl. lia.
  - lia.
Defined.

(** A block that no server has is counted as read: the call reports four bytes
    and has written none. *)
Theorem prefetch_counts_missing_block :
  exists f', @imss_sread_prefetch_v2 world (cluster_ops 4) (fetch_ops [] (big_env 4) cluster_file) cluster_file
    (B "....") 4 8 (cluster_state 12 two_blocks) = Ret (4, B "....", f').
Proof. eexists. by vm_compute. Qed.
