(* ===== verification/Settings.v ===== *)
(** * Settings of a process

    [getConfiguration] (src/src/hercules.cpp) fills [struct arguments]
    (src/include/arg_parser.h) from the environment and from a configuration
    file read by Config.v: a variable of the environment wins over the entry of
    the file, which wins over the default of the field or what the field held.
    Texts are copied with [strcpy] into arrays of fixed size.  The first steps
    of the preloaded library ([imss_posix_init]) and of a server ([main] in
    src/app/server.c) turn the structure into the numbers the rest of the
    program works with. *)

From Stdlib Require Import SpecFloat.
From S2P Require Import Prelude Types Config Wire Elasticity Datasets.

(** ** Constants (hercules.hpp, comms.h, imss.h, slog.h) *)
Definition KB : Z := 1024.
Definition MB : Z := 1048576.
Definition GB : Z := 1073741824.
Definition MAX_POLICY_LEN : Z := 16.
Definition HOST_NAME_MAX : Z := 64.
Definition NONE : Z := 1.
Definition SLOG_NONE : Z := 0.
Definition SLOG_LIVE : Z := 1.
Definition SLOG_DEBUG : Z := 2.
Definition SLOG_PANIC : Z := 7.

(** ** Data *)

(** [struct logging_opts]. *)
Record logging_opts := mkLogging {
  hercules_debug_file : Z;
  hercules_debug_screen : Z;
  hercules_debug_level : Z
}.

(** [struct arguments], the fields that [getConfiguration] writes and the
    bounds of the number of servers, which it does not; a text is the string in
    its array. *)
Record arguments := mkArguments {
  data_hostfile : bytes;
  alloc_data_hostfile : bytes;
  args_imss_uri : bytes;
  hercules_path_ : bytes;
  policy_ : bytes;
  meta_hostfile : bytes;
  mount_point : bytes;
  hercules_checkpoint_path : bytes;
  hercules_snapshot_path : bytes;
  snapshot_paths_list : bytes;
  ignore_paths_list : bytes;
  data_hostname : bytes;
  configuration_file_path : bytes;
  data_port : Z;
  storage_size : Z;
  thread_pool : Z;
  prefetch_size : Z;
  bufsize : Z;
  stat_port : Z;
  num_data_servers : Z;
  num_metadata_servers : Z;
  malleability_ : Z;
  tolerance : Z;
  windows_size : Z;
  performance_threshold : double;
  args_repl_factor : Z;
  repl_type : Z;
  async_io : Z;
  block_size : Z;
  upper_bound_servers : Z;
  lower_bound_servers : Z;
  logging : logging_opts
}.

(** The global variables [BLOCK_SIZE], [MALLEABILITY_ON] and [ASYNC_IO]. *)
Record globals := mkGlobals { g_BLOCK_SIZE : Z; g_MALLEABILITY_ON : Z; g_ASYNC_IO : Z }.

(** The files, the environment, the working directory, the name of the host
    and whether [malloc] succeeds. *)
Record surroundings := mkSurroundings {
  file_at : bytes -> option bytes;
  getenv : bytes -> option bytes;
  cwd : option bytes;
  host : bytes;
  malloc_ok : bool
}.

(** ** The C library *)

(** [strtol] keeps the value inside [long]. *)
Definition atol (s : bytes) : Z :=
  match scan_d s with Some (n, _) => Z.max (- 2 ^ 63) (Z.min n (2 ^ 63 - 1)) | None => 0 end.
Definition atoi (s : bytes) : Z := i32 (atol s).

(** [strcpy] into an array of [n] bytes. *)
Definition strcpy (n : Z) (src : bytes) : outcome bytes :=
  if strlen src <? n then Ret src else Undef OutOfBounds.

Fixpoint strstr (hay needle : bytes) : bool :=
  prefixb needle hay || match hay with [] => false | _ :: hay' => strstr hay' needle end.

(** [getLevel] (src/src/slog.c). *)
Definition slog_levels : list (bytes * Z) :=
  [(B "SLOG_NONE", 0); (B "SLOG_LIVE", 1); (B "SLOG_DEBUG", 2); (B "SLOG_WARN", 3); (B "SLOG_INFO", 4);
   (B "SLOG_ERROR", 5); (B "SLOG_FATAL", 6); (B "SLOG_PANIC", 7); (B "SLOG_TIME", 8); (B "SLOG_FULL", 9);
   (B "SLOG_READ", 10)].

Definition getLevel (str : bytes) : Z :=
  let ret := fold_left (fun ret p => if streq str p.1 then p.2 else ret) slog_levels (-1) in
  if ret =? -1 then SLOG_PANIC else ret.

(** ** [getConfiguration] *)

Section configuration.
Context (e : surroundings).

Definition default_paths : list bytes := [B "/etc/hercules.conf"; B "./hercules.conf"; B "hercules.conf"].

(** The loop over the default paths, up to the first file that loads. *)
Fixpoint load_defaults (l : list bytes) (cfg : option cfg_struct) : Z * option cfg_struct :=
  match l with
  | [] => (EXIT_FAILURE, cfg)
  | p :: l' =>
      let '(r, cfg) := cfg_load cfg (Some p) (file_at e p) in
      if r =? 0 then (EXIT_SUCCESS, cfg) else load_defaults l' cfg
  end.

(** The configuration and the path that is copied to
    [configuration_file_path]; [None] when no file loads.  After the loop
    [conf_path] is still what [getenv] gave: null, or memory that [free] must
    not be given. *)
Definition load_configuration : outcome (option (bytes * option cfg_struct)) :=
  let conf_path := getenv e (B "HERCULES_CONF") in
  let '(ret, cfg) :=
    match conf_path with
    | Some p => cfg_load (Some cfg_init) (Some p) (file_at e p)
    | None => (1, Some cfg_init)
    end in
  match ret, conf_path with
  | 0, Some p => let* p := strcpy PATH_MAX p in Ret (Some (p, cfg))
  | _, _ =>
      let '(ret, cfg) := load_defaults default_paths cfg in
      if ret =? 0
      then match conf_path with
           | None => Undef NullDeref
           | Some p => let* _ := strcpy PATH_MAX p in Undef UseAfterFree
           end
      else
        match cwd e with
        | None => Ret None
        | Some d =>
            let* _ := guard (malloc_ok e) NullDeref in
            let rpath := B "../conf/hercules.conf" in
            let p := d ++ slash :: rpath in
            let* p := strcpy (PATH_MAX - strlen rpath + 1) p in
            let '(ret, cfg) := cfg_load cfg (Some p) (file_at e p) in
            if negb (ret =? 0) then Ret None
            else let* p := strcpy PATH_MAX p in Ret (Some (p, cfg))
        end
  end.

Context (cfg : option cfg_struct).

(** [if (getenv(v) != NULL) ... else if (cfg_get(cfg, k)) ...]. *)
Definition setting (v k : string) : option bytes :=
  match getenv e (B v) with
  | Some x => Some x
  | None => cfg_get cfg (Some (B k))
  end.

(** [strcpy] of a setting into an array of [n] bytes that holds [old]. *)
Definition text (n : Z) (v k : string) (old : bytes) : outcome bytes :=
  match setting v k with Some x => strcpy n x | None => Ret old end.

(** A number read by [f]. *)
Definition number (f : bytes -> Z) (v k : string) (old : Z) : Z :=
  match setting v k with Some x => f x | None => old end.

(** Tolerance, window and threshold; the window and the tolerance fall back to
    their defaults when negative, the threshold is converted to bytes. *)
Definition malleability_settings (a : arguments) : Z * Z * double :=
  let t := number atoi "HERCULES_MALLEABILITY_TOLERANCE" "MALLEABILITY_TOLERANCE" 100 in
  let t := if t <? 0 then 100 else t in
  let w := number atoi "HERCULES_MALLEABILITY_WSIZE" "MALLEABILITY_WSIZE" 20 in
  let w := if w <? 0 then 20 else w in
  let default_threshold := of_int 5000 in
  let p := match setting "HERCULES_MALLEABILITY_THRESHOLD" "MALLEABILITY_THRESHOLD" with
           | Some x => of_int (atoi x)
           | None => default_threshold
           end in
  let p := if dlt p dzero then default_threshold else p in
  (t, w, SFmul 53 1024 p (of_int MB)).

(** The level of the log and where it goes. *)
Definition debug_settings (l : logging_opts) : logging_opts :=
  match setting "HERCULES_DEBUG_LEVEL" "DEBUG_LEVEL" with
  | None => l
  | Some aux =>
      if strstr aux (B "file") then mkLogging 1 0 SLOG_LIVE
      else if strstr aux (B "stdout") then mkLogging (hercules_debug_file l) 1 (hercules_debug_level l)
      else if strstr aux (B "debug") then mkLogging (hercules_debug_file l) (hercules_debug_screen l) SLOG_DEBUG
      else if strstr aux (B "live") then mkLogging (hercules_debug_file l) (hercules_debug_screen l) SLOG_LIVE
      else if strstr aux (B "all") then mkLogging 1 1 SLOG_PANIC
      else if strstr aux (B "none") then mkLogging 0 0 SLOG_NONE
      else mkLogging 1 (hercules_debug_screen l) (getLevel aux)
  end.

(** Synchronous unless the setting is [SYNC] or [ASYNC]. *)
Definition async_setting : Z :=
  let i := number atoi "HERCULES_ASYNC_IO" "ASYNC_IO" SYNC in
  if negb (i =? SYNC) && negb (i =? ASYNC) then SYNC else i.

(** The size is unsigned: it is never below 0. *)
Definition prefetch_setting : Z :=
  let p := u64 (number atol "HERCULES_PREFETCH_SIZE" "PREFETCH_SIZE" 0) in
  let p := if p <? 0 then 0 else p in
  if 0 <? p then u64 (p * MB) else p.

(** [get_hostname] on an array of [n] bytes: the result and what the array
    holds.  A name that does not fit fills the array without its terminator. *)
Definition get_hostname (n : Z) : Z * bytes :=
  if strlen (host e) <? n then (0, host e) else (-1, take (Z.to_nat n) (host e)).
End configuration.

(** [None] is the result -1, after which both callers give up. *)
Definition getConfiguration (e : surroundings) (a : arguments) (g : globals)
  : outcome (option (arguments * globals)) :=
  let* loaded := load_configuration e in
  match loaded with
  | None => Ret None
  | Some (path, cfg) =>
      match setting e cfg "HERCULES_POLICY" "POLICY" with
      | None => Ret None
      | Some p =>
          let* policy := strcpy MAX_POLICY_LEN p in
          let* mount := text e cfg PATH_MAX "HERCULES_MOUNT_POINT" "MOUNT_POINT" (mount_point a) in
          let* uri := text e cfg URI_ "HERCULES_URI" "URI" (args_imss_uri a) in
          let bs := u64 (number e cfg atol "HERCULES_BLOCK_SIZE" "BLOCK_SIZE" (block_size a)) in
          let* hpath := text e cfg (PATH_MAX - 100) "HERCULES_PATH" "HERCULES_PATH" (hercules_path_ a) in
          let dport := u64 (number e cfg atoi "HERCULES_DATA_PORT" "DATA_PORT" (data_port a)) in
          let sport := number e cfg atoi "HERCULES_METADATA_PORT" "METADATA_PORT" (stat_port a) in
          let nd := number e cfg atoi "HERCULES_NUM_DATA_SERVERS" "NUM_DATA_SERVERS" (num_data_servers a) in
          let nm := number e cfg atoi "HERCULES_NUM_META_SERVERS" "NUM_META_SERVERS" (num_metadata_servers a) in
          let mal := number e cfg atoi "HERCULES_MALLEABILITY" "MALLEABILITY" 0 in
          let '(tol, win, thr) := if mal =? 0 then (tolerance a, windows_size a, performance_threshold a)
                                  else malleability_settings e cfg a in
          let rf := number e cfg atoi "HERCULES_REPL_FACTOR" "REPL_FACTOR" NONE in
          let rt := number e cfg atoi "HERCULES_REPL_TYPE" "REPL_TYPE" ASYNC in
          let aio := async_setting e cfg in
          let buf := match getenv e (B "HERCULES_BUFF_SIZE") with Some x => atol x | None => bufsize a end in
          let* mhost := text e cfg PATH_MAX "HERCULES_METADATA_HOSTFILE" "METADATA_HOSTFILE" (meta_hostfile a) in
          let* dhost := text e cfg PATH_MAX "HERCULES_DATA_HOSTFILE" "DATA_HOSTFILE" (data_hostfile a) in
          let* ahost := text e cfg PATH_MAX "HERCULES_ALLOC_DATA_HOSTFILE" "ALLOC_DATA_HOSTFILE" [] in
          let tp := u64 (number e cfg atol "HERCULES_THREAD_POOL" "THREAD_POOL" 1) in
          let log := debug_settings e cfg (logging a) in
          let ss := u64 (number e cfg atol "HERCULES_STORAGE_SIZE" "STORAGE_SIZE" 1) in
          let pf := prefetch_setting e cfg in
          let* cpath := text e cfg PATH_MAX "HERCULES_CHECKPOINT_PATH" "HERCULES_CHECKPOINT_PATH" [] in
          let* spath := text e cfg PATH_MAX "HERCULES_SNAPSHOT_PATH" "HERCULES_SNAPSHOT_PATH" [] in
          let* slist := text e cfg PATH_MAX "HERCULES_SNAPSHOT_PATHS_LIST" "SNAPSHOT_PATHS_LIST" [] in
          let* ilist := text e cfg PATH_MAX "IGNORE_PATHS_LIST" "IGNORE_PATHS_LIST" [] in
          Ret (Some (mkArguments dhost ahost uri hpath policy mhost mount cpath spath slist ilist (get_hostname e HOST_NAME_MAX).2
                       path dport ss tp pf buf sport nd nm mal tol win thr rf rt aio bs (upper_bound_servers a)
                       (lower_bound_servers a) log,
                     mkGlobals (u64 (bs * KB)) (if mal =? 0 then g_MALLEABILITY_ON g else 1) aio))
      end
  end.

(** ** What the processes make of it *)

(** The global variables of the preloaded library ([imss_posix_init]); texts
    that only point into the structure are read from it. *)
Record client_globals := mkClient {
  IMSS_BLKSIZE : Z;
  IMSS_DATA_BSIZE : Z;
  MOUNT_POINT : bytes;
  client_root : bytes;
  IMSS_HOSTFILE : bytes;
  N_SERVERS : Z;
  IMSS_SRV_PORT : Z;
  META_HOSTFILE : bytes;
  METADATA_PORT : Z;
  N_META_SERVERS : Z;
  STORAGE_SIZE : Z;
  MALLEABILITY : Z;
  UPPER_BOUND_SERVERS : Z;
  LOWER_BOUND_SERVERS : Z;
  REPL_FACTOR : Z;
  REPL_TYPE : Z;
  POLICY : bytes
}.

Definition client_settings (a : arguments) : client_globals :=
  mkClient (block_size a) (u64 (block_size a * KB)) (mount_point a) (args_imss_uri a) (data_hostfile a)
    (i32 (num_data_servers a)) (data_port a) (meta_hostfile a) (u64 (stat_port a)) (i32 (num_metadata_servers a))
    (storage_size a) (malleability_ a) (upper_bound_servers a) (lower_bound_servers a) (args_repl_factor a)
    (repl_type a) (policy_ a).

(** [getConfiguration] as [imss_posix_init] uses it. *)
Definition client_start (e : surroundings) (a : arguments) (g : globals) : outcome (client_globals * globals) :=
  let* r := getConfiguration e a g in
  match r with
  | None => Exit 1
  | Some (a, g) => Ret (client_settings a, g)
  end.

(** The number of servers is corrected after the connection to the [n] of the
    instance. *)
Definition correct_servers (n : Z) (c : client_globals) : client_globals :=
  if n =? N_SERVERS c then c
  else mkClient (IMSS_BLKSIZE c) (IMSS_DATA_BSIZE c) (MOUNT_POINT c) (client_root c) (IMSS_HOSTFILE c) n (IMSS_SRV_PORT c)
         (META_HOSTFILE c) (METADATA_PORT c) (N_META_SERVERS c) (STORAGE_SIZE c) (MALLEABILITY c) (UPPER_BOUND_SERVERS c)
         (LOWER_BOUND_SERVERS c) (REPL_FACTOR c) (REPL_TYPE c) (POLICY c).

(** The command line of a server: its type and number. *)
Definition server_line (argv : list bytes) : option (ascii * Z) :=
  match argv with
  | _ :: t :: n :: rest =>
      let type := default NUL (head t) in
      if negb (ascii_eqb type "m"%char) && negb (ascii_eqb type "d"%char) then None
      else if (negb (length argv =? 3)%nat && ascii_eqb type "m"%char)
              || (negb (length argv =? 4)%nat && ascii_eqb type "d"%char) then None
      else Some (type, atoi n)
  | _ => None
  end.

(** [max_storage_size]: what the settings ask for, at most what the system
    allows. *)
Definition storage_limit (a : arguments) (allowed : Z) : Z :=
  let m := u64 (storage_size a * GB) in
  if (allowed <=? m) || (m =? 0) then allowed else m.

(** The settings of a server: type, number, limit of the storage and number of
    blocks; [None] when it gives up before it starts. *)
Definition server_start (e : surroundings) (argv : list bytes) (a : arguments) (g : globals) (allowed : Z)
  : outcome (option (ascii * Z * arguments * Z * Z)) :=
  match server_line argv with
  | None => Ret None
  | Some (type, id) =>
      let* r := getConfiguration e a g in
      match r with
      | None => Ret None
      | Some (a, _) =>
          let m := storage_limit a allowed in
          if m =? 0 then Exit 1
          else
            let bytes_per_block := u64 (block_size a * KB) in
            if bytes_per_block =? 0 then Undef DivByZero
            else Ret (Some (type, id, a, m, u32 (m / bytes_per_block)))
      end
  end.

(** The settings [CommissioningStage] works with. *)
Definition scaling_settings (a : arguments) (hosts : list bytes) : margs :=
  mkMargs (negb (malleability_ a =? 0)) (windows_size a) (performance_threshold a) (tolerance a) hosts.

(** ** Entries of a file fit their arrays *)

Definition line_fits (n : cfg_node) : Prop := (length (key n) + length (val n) + 1 <= CFG_MAX_LINE)%nat.

Lemma skip_space_length s : (length (skip_space s) <= length s)%nat.
Proof. induction s as [|a s IH]; simpl; [done|]. destruct (isspace a); simpl; lia. Qed.
Lemma rtrim_length s : (length (rtrim s) <= length s)%nat.
Proof.
  induction s as [|a s IH]; simpl; [done|].
  destruct (rtrim s) eqn:E; [destruct (isspace a); simpl; lia|simpl in *; lia].
Qed.
Lemma cfg_trim_length s : (length (cfg_trim s) <= length s)%nat.
Proof. unfold cfg_trim. pose proof (rtrim_length (skip_space s)). pose proof (skip_space_length s). lia. Qed.
Lemma cfg_norm_key_length s k : cfg_norm_key s = Some k -> (length k <= length s)%nat.
Proof.
  unfold cfg_norm_key. pose proof (rtrim_length (skip_space s)) as H1. pose proof (skip_space_length s) as H2.
  destruct (rtrim (skip_space s)) as [|a t]; [done|]. intros [= <-]. change (length (tolower <$> a :: t) <= length s)%nat. rewrite length_fmap. lia.
Qed.
Lemma cut_length c s : (length (cut c s) <= length s)%nat.
Proof. unfold cut. destruct (strchr c s); [rewrite length_take; lia|done]. Qed.
Lemma fgets_length n s : (length (fgets n s).1 <= n)%nat.
Proof.
  revert s. induction n as [|n IH]; intros [|a s]; simpl; try lia.
  rewrite fgets_cons. destruct (ascii_eqb a newline); simpl; [lia|]. specialize (IH s). destruct (fgets n s). simpl in *. lia.
Qed.

Lemma set_key_fits k v c :
  (length k + length v + 1 <= CFG_MAX_LINE)%nat -> Forall line_fits c -> Forall line_fits (set_key k v c).
Proof.
  intros Hk. induction c as [|n c IH]; intros Hc; simpl; [by apply Forall_singleton|].
  apply Forall_cons in Hc as [Hn Hc]. destruct (streq k (key n)) eqn:E; constructor; auto.
  apply streq_true in E as <-. exact Hk.
Qed.

Lemma load_line_fits c l c' :
  (length l <= CFG_MAX_LINE)%nat -> Forall line_fits c -> load_line (Some c) l = Some c' -> Forall line_fits c'.
Proof.
  intros Hl Hc. unfold load_line. pose proof (cut_length NUL l) as H1.
  pose proof (cut_length hash_sign (cut NUL l)) as H2. set (b := cut hash_sign (cut NUL l)) in *.
  destruct (strchr equals b) as [i|] eqn:Ei; [|by intros [= <-]].
  apply strchr_Some in Ei as [Eb _]. apply (f_equal length) in Eb.
  rewrite length_app, length_take in Eb. cbn [length] in Eb. rewrite length_drop in Eb. unfold cfg_set.
  destruct (cfg_norm_key (take i b)) as [tk|] eqn:Ek; intros [= <-]; [|done].
  apply set_key_fits; [|done]. apply cfg_norm_key_length in Ek. rewrite length_take in Ek.
  pose proof (cfg_trim_length (drop (S i) b)) as Hv. rewrite length_drop in Hv. lia.
Qed.

Lemma load_loop_fits fuel s c c' :
  Forall line_fits c -> load_loop fuel s (Some c) = Some c' -> Forall line_fits c'.
Proof.
  revert s c. induction fuel as [|f IH]; intros [|a s] c Hc; cbn [load_loop]; try (by intros [= <-]).
  pose proof (fgets_length CFG_MAX_LINE (a :: s)) as Hl.
  destruct (fgets CFG_MAX_LINE (a :: s)) as [line rest]. cbn [fst] in Hl.
  destruct (load_line (Some c) line) as [c1|] eqn:E1.
  - apply IH. by apply (load_line_fits c line).
  - intros Hn. exfalso. clear -E1. unfold load_line in E1. destruct (strchr _ _) as [i|]; [|done].
    match type of E1 with cfg_set _ ?k ?v = None => destruct (cfg_set_Some c k v) as [? Ee]; by rewrite Ee in E1 end.
Qed.

Lemma lookup_key_fits tk c v : Forall line_fits c -> lookup_key tk c = Some v -> strlen tk + strlen v < 256.
Proof.
  induction c as [|n c IH]; cbn [lookup_key]; [done|]. intros [Hn Hc]%Forall_cons.
  destruct (streq tk (key n)) eqn:E; [|by apply IH]. intros [= <-]. apply streq_true in E as ->.
  unfold line_fits, CFG_MAX_LINE in Hn. unfold strlen. lia.
Qed.

Lemma cfg_get_fits c k tk v :
  Forall line_fits c -> cfg_norm_key k = Some tk -> cfg_get (Some c) (Some k) = Some v -> strlen tk + strlen v < 256.
Proof.
  intros Hc Hk. destruct c as [|n c]; [done|]. cbn [cfg_get]. rewrite Hk. by apply lookup_key_fits.
Qed.

(** The environment names the configuration file and nothing else. *)
Definition only_conf (e : surroundings) (p : bytes) : Prop :=
  forall v, getenv e v = if streq v (B "HERCULES_CONF") then Some p else None.

Lemma load_named e p content :
  getenv e (B "HERCULES_CONF") = Some p -> file_at e p = Some content -> strlen p < PATH_MAX ->
  load_configuration e
    = Ret (Some (p, load_loop (length content) content (Some cfg_init))).
Proof.
  intros He Hf Hp. unfold load_configuration.
  rewrite He. unfold cfg_load. rewrite Hf. change EXIT_SUCCESS with 0. cbv iota beta.
  unfold strcpy. by rewrite (proj2 (Z.ltb_lt _ _) Hp).
Qed.

Section file_only.
Context (e : surroundings) (p : bytes) (c : cfg_struct) (He : only_conf e p) (Hc : Forall line_fits c).

Lemma setting_file v k : streq (B v) (B "HERCULES_CONF") = false -> setting e (Some c) v k = cfg_get (Some c) (Some (B k)).
Proof using He. intros Hv. unfold setting. by rewrite He, Hv. Qed.

(** A text of the file fits every array that is at least 256 bytes long less
    its key. *)
Lemma text_file n v k old :
  streq (B v) (B "HERCULES_CONF") = false ->
  match cfg_norm_key (B k) with Some tk => 256 - strlen tk <= n | None => False end ->
  exists t, text e (Some c) n v k old = Ret t.
Proof using He Hc.
  intros Hv Hk. destruct (cfg_norm_key (B k)) as [tk|] eqn:Ek; [|done]. unfold text. rewrite setting_file by done.
  destruct (cfg_get (Some c) (Some (B k))) as [x|] eqn:E; [|eauto].
  pose proof (cfg_get_fits c _ _ _ Hc Ek E). unfold strcpy. rewrite (proj2 (Z.ltb_lt _ _)) by lia. eauto.
Qed.
End file_only.

Lemma load_loop_Some fuel s c : exists c', load_loop fuel s (Some c) = Some c'.
Proof.
  revert s c. induction fuel as [|f IH]; intros [|a s] c; cbn [load_loop]; eauto.
  destruct (fgets CFG_MAX_LINE (a :: s)) as [l r]. unfold load_line.
  destruct (strchr _ _) as [i|]; [|apply IH].
  match goal with |- context [cfg_set (Some c) ?k ?v] => destruct (cfg_set_Some c k v) as [c1 ->] end. apply IH.
Qed.

(** With the environment naming only the file, whatever the file says: a file
    without policy is refused, a policy of 16 characters or more overruns its
    array, and every other file is accepted. *)
Theorem file_settings_fit (e : surroundings) (p content : bytes) (a : arguments) (g : globals)
  (He : only_conf e p) (Hf : file_at e p = Some content) (Hp : strlen p < PATH_MAX) :
  let cfg := load_loop (length content) content (Some cfg_init) in
  match cfg_get cfg (Some (B "POLICY")) with
  | None => getConfiguration e a g = Ret None
  | Some x =>
      if strlen x <? MAX_POLICY_LEN then exists r, getConfiguration e a g = Ret (Some r)
      else getConfiguration e a g = Undef OutOfBounds
  end.
Proof.
  cbv zeta. destruct (load_loop_Some (length content) content cfg_init) as [c Ec].
  assert (Forall line_fits c) as Hc by (by apply (load_loop_fits _ _ _ _ (List.Forall_nil _) Ec)).
  unfold getConfiguration. rewrite (load_named e p content (He _) Hf Hp), Ec. cbn [obind].
  rewrite (setting_file e p c He "HERCULES_POLICY" "POLICY") by done.
  destruct (cfg_get (Some c) (Some (B "POLICY"))) as [x|]; [|done]. unfold strcpy.
  destruct (strlen x <? MAX_POLICY_LEN); [|done]. cbn [obind].
  destruct (if number _ _ _ "HERCULES_MALLEABILITY" _ _ =? 0 then _ else _) as [[tol win] thr].
  repeat match goal with
  | |- context [text e (Some c) ?n ?v ?k ?old] =>
      let t := fresh "t" in let H := fresh "H" in
      destruct (text_file e p c He Hc n v k old) as [t H]; [done|by vm_compute|];
      rewrite H; clear H; cbn [obind]
  end.
  eauto.
Qed.

(** ** A saved configuration is applied *)

(** What a user sets: the texts, and the sizes and numbers. *)
Record wanted := mkWanted {
  w_policy : bytes; w_mount : bytes; w_uri : bytes; w_meta : bytes; w_data : bytes;
  w_block : Z; w_dport : Z; w_mport : Z; w_servers : Z; w_metas : Z; w_repl : Z
}.

Definition entries (policy mount uri meta data block dport mport servers metas repl : bytes) : cfg_struct :=
  [mkNode (B "policy") policy; mkNode (B "mount_point") mount; mkNode (B "uri") uri;
   mkNode (B "metadata_hostfile") meta; mkNode (B "data_hostfile") data; mkNode (B "block_size") block;
   mkNode (B "data_port") dport; mkNode (B "metadata_port") mport; mkNode (B "num_data_servers") servers;
   mkNode (B "num_meta_servers") metas; mkNode (B "repl_factor") repl].

Definition conf_of (w : wanted) : cfg_struct :=
  entries (w_policy w) (w_mount w) (w_uri w) (w_meta w) (w_data w) (print_u (w_block w)) (print_u (w_dport w))
    (print_u (w_mport w)) (print_u (w_servers w)) (print_u (w_metas w)) (print_u (w_repl w)).

(** A text that a line can hold. *)
Definition text_ok (t : bytes) : Prop :=
  trimmed t /\ strlen t < 230 /\ forall c, c ∈ [hash_sign; newline; NUL] -> c ∉ t.

Definition wanted_ok (w : wanted) : Prop :=
  Forall text_ok [w_policy w; w_mount w; w_uri w; w_meta w; w_data w] /\
  strlen (w_policy w) < MAX_POLICY_LEN /\ 0 <= w_block w < 2 ^ 53 /\
  Forall (fun n => 0 <= n < 2 ^ 31) [w_dport w; w_mport w; w_servers w; w_metas w; w_repl w].

Lemma scan_d_print_u n : 0 <= n < 2 ^ 64 -> scan_d (print_u n) = Some (n, []).
Proof.
  intros Hn. pose proof (scan_d_print n [] Hn I) as H. rewrite app_nil_r in H.
  unfold scan_d in *. by rewrite skip_space_space in H.
Qed.
Lemma atol_print n : 0 <= n < 2 ^ 63 -> atol (print_u n) = n.
Proof. intros Hn. unfold atol. rewrite scan_d_print_u by lia. lia. Qed.
Lemma atoi_print_u n : 0 <= n < 2 ^ 31 -> atoi (print_u n) = n.
Proof. intros Hn. unfold atoi. rewrite atol_print by lia. apply i32_small. lia. Qed.

Lemma nospace_trimmed t : Forall (fun a => isspace a = false) t -> trimmed t.
Proof.
  intros H. unfold trimmed, cfg_trim. rewrite skip_space_id by (destruct H; done).
  induction H as [|a t Ha Ht IH]; simpl; [done|]. rewrite IH. destruct t; [by rewrite Ha|done].
Qed.

Lemma print_u_text_ok n : 0 <= n -> text_ok (print_u n).
Proof.
  intros Hn. split; [by apply nospace_trimmed, print_u_nospace|]. split; [pose proof (strlen_print_u n); lia|].
  intros c Hc. apply print_u_no; [|done].
  repeat (apply elem_of_cons in Hc as [->|Hc]; [done|]). by apply elem_of_nil in Hc.
Qed.

(** A key of the file as the program writes it. *)
Definition key_ok (k : bytes) : bool :=
  bool_decide (cfg_norm_key k = Some k) && (length k <=? 20)%nat
  && forallb (fun c => negb (existsb (ascii_eqb c) k)) [equals; hash_sign; newline; NUL].

Lemma absent c k : negb (existsb (ascii_eqb c) k) = true -> c ∉ k.
Proof.
  intros H Hin. apply negb_true_iff in H. rewrite <- not_true_iff_false in H. apply H. apply existsb_exists.
  exists c. split; [by apply list_elem_of_In|]. by apply ascii_eqb_true.
Qed.

Lemma node_ok k t : key_ok k = true -> text_ok t -> normal_key k /\ trimmed t /\ printable (mkNode k t).
Proof.
  unfold key_ok. rewrite !andb_true_iff, bool_decide_eq_true, Nat.leb_le. intros [[Hk Hl] Hc] (Ht & Hs & Hn).
  rewrite forallb_forall in Hc. split; [by exists k|]. split; [done|]. split; [|split].
  - apply absent, Hc. set_solver.
  - intros c Hin. split; [|by apply Hn]. apply absent, Hc. apply list_elem_of_In. set_solver.
  - unfold CFG_MAX_LINE. unfold strlen in Hs. simpl. lia.
Qed.

Lemma nodes_ok (l : cfg_struct) :
  Forall (fun n => key_ok (key n) = true) l -> Forall (fun n => text_ok (val n)) l -> NoDup (map key l) ->
  cfg_wf l /\ Forall printable l.
Proof.
  intros Hk Ht Hd. assert (forall n, n ∈ l -> normal_key (key n) /\ trimmed (val n) /\ printable n) as H.
  { intros n Hn. rewrite Forall_forall in Hk, Ht. destruct (node_ok (key n) (val n)) as (? & ? & ?); eauto. }
  split; [split; [done|]|]; apply Forall_forall; intros n Hn; by destruct (H n Hn) as (? & ? & ?).
Qed.

Lemma conf_of_ok w : wanted_ok w -> cfg_wf (conf_of w) /\ Forall printable (conf_of w).
Proof.
  intros (Ht & _ & Hb & Hn). rewrite !Forall_cons in Ht. rewrite !Forall_cons in Hn. destruct Ht as (? & ? & ? & ? & ? & _).
  destruct Hn as (? & ? & ? & ? & ? & _). apply nodes_ok.
  - repeat constructor.
  - repeat apply Forall_cons_2; cbn [val]; try done; try (apply print_u_text_ok; lia).
  - cbn [conf_of entries map key]. apply (bool_decide_unpack _). by vm_compute.
Qed.

(** The environment names the file and possibly the size of a block. *)
Definition conf_env (e : surroundings) (p : bytes) (over : option Z) : Prop :=
  forall v, getenv e v = if streq v (B "HERCULES_CONF") then Some p
                         else if streq v (B "HERCULES_BLOCK_SIZE") then print_u <$> over else None.

Lemma setting_conf e p over c v k :
  conf_env e p over -> streq (B v) (B "HERCULES_CONF") = false -> streq (B v) (B "HERCULES_BLOCK_SIZE") = false ->
  setting e c v k = cfg_get c (Some (B k)).
Proof. intros He H1 H2. unfold setting. by rewrite He, H1, H2. Qed.

Lemma strcpy_fits n x : strlen x < n -> strcpy n x = Ret x.
Proof. intros H. unfold strcpy. by rewrite (proj2 (Z.ltb_lt _ _) H). Qed.

(** What the saved file says of a key. *)
Definition conf_value (w : wanted) (k : string) : option bytes :=
  if String.eqb k "POLICY" then Some (w_policy w) else if String.eqb k "MOUNT_POINT" then Some (w_mount w)
  else if String.eqb k "URI" then Some (w_uri w) else if String.eqb k "METADATA_HOSTFILE" then Some (w_meta w)
  else if String.eqb k "DATA_HOSTFILE" then Some (w_data w) else if String.eqb k "DATA_PORT" then Some (print_u (w_dport w))
  else if String.eqb k "METADATA_PORT" then Some (print_u (w_mport w))
  else if String.eqb k "NUM_DATA_SERVERS" then Some (print_u (w_servers w))
  else if String.eqb k "NUM_META_SERVERS" then Some (print_u (w_metas w))
  else if String.eqb k "REPL_FACTOR" then Some (print_u (w_repl w)) else None.

Lemma getConfiguration_conf e p over w a g :
  conf_env e p over -> file_at e p = Some (save_text (conf_of w)) -> strlen p < PATH_MAX -> wanted_ok w ->
  (forall n, over = Some n -> 0 <= n < 2 ^ 53) ->
  let bs := default (w_block w) over in
  getConfiguration e a g
  = Ret (Some (mkArguments (w_data w) [] (w_uri w) (hercules_path_ a) (w_policy w) (w_meta w) (w_mount w) [] [] [] []
                 (get_hostname e HOST_NAME_MAX).2 p (w_dport w) 1 1 0 (bufsize a) (w_mport w) (w_servers w) (w_metas w) 0
                 (tolerance a) (windows_size a) (performance_threshold a) (w_repl w) ASYNC SYNC bs (upper_bound_servers a) (lower_bound_servers a) (logging a),
               mkGlobals (bs * 1024) (g_MALLEABILITY_ON g) SYNC)).
Proof.
  intros He Hf Hp Hw Hov bs. destruct (conf_of_ok w Hw) as [Hwf Hpr].
  pose proof Hw as (Ht & Hpol & Hb & Hn). rewrite !Forall_cons in Ht. rewrite !Forall_cons in Hn.
  destruct Ht as (_ & (_ & Hmo & _) & (_ & Hur & _) & (_ & Hme & _) & (_ & Hda & _) & _).
  destruct Hn as (? & ? & ? & ? & ? & _).
  assert (0 <= bs < 2 ^ 53) as Hbs by (unfold bs; destruct over; simpl; [by apply Hov|done]).
  unfold getConfiguration. rewrite (load_named e p _ (He _) Hf Hp).
  pose proof (load_save_text _ [] (conf_of w) (le_n _) Hwf Hpr) as Hload.
  change (Some cfg_init) with (Some ([] : cfg_struct)). rewrite Hload. clear Hload. cbn [obind app].
  assert (number e (Some (conf_of w)) atol "HERCULES_BLOCK_SIZE" "BLOCK_SIZE" (block_size a) = bs) as ->.
  { unfold number, setting. rewrite He. change (streq _ (B "HERCULES_CONF")) with false. cbv iota.
    rewrite streq_refl. unfold bs. destruct over as [n|]; cbn [fmap option_fmap option_map default from_option].
    - specialize (Hov n eq_refl). unfold id. apply atol_print. lia.
    - change (cfg_get _ _) with (Some (print_u (w_block w))). cbv iota. apply atol_print. lia. }
  unfold malleability_settings, debug_settings, async_setting, prefetch_setting, text, number.
  repeat match goal with
  | |- context [setting e (Some (conf_of w)) ?v ?k] =>
      rewrite (setting_conf e p over (Some (conf_of w)) v k He) by done
  end.
  repeat match goal with
  | |- context [cfg_get (Some (conf_of w)) (Some (B ?k))] => change (cfg_get (Some (conf_of w)) (Some (B k))) with (conf_value w k)
  end.
  assert (getenv e (B "HERCULES_BUFF_SIZE") = None) as -> by (by rewrite He).
  cbn [conf_value String.eqb Ascii.eqb Bool.eqb].
  change (0 =? 0) with true. cbv iota.
  rewrite !strcpy_fits by (unfold PATH_MAX, URI_; lia). cbn [obind].
  rewrite !atoi_print_u by lia. unfold KB. change (u64 0) with 0. change (u64 1) with 1.
  change (0 <? 0) with false. cbv iota. by rewrite !u64_small by lia.
Qed.

(** C37. A configuration saved by cfg_save and named by the
    environment gives the client the settings of the user: the mount point, the
    root, the hostfiles of data and metadata servers and the policy as they are,
    ports and numbers in decimal, the block size in bytes; a block size in the
    environment wins over the one in the file; what the file does not name has
    its default, or what the structure held. *)
Theorem saved_settings_apply (e : surroundings) (p : bytes) (over : option Z) (w : wanted) (a : arguments) (g : globals)
  (He : conf_env e p over) (Hp : strlen p < PATH_MAX) (Hw : wanted_ok w)
  (Hov : forall n, over = Some n -> 0 <= n < 2 ^ 53)
  (Hf : file_at e p = Some (cfg_save (Some (conf_of w)) (Some p) true (fun _ => true)).2) :
  let block := default (w_block w) over in
  client_start e a g
  = Ret (mkClient block (block * 1024) (w_mount w) (w_uri w) (w_data w) (w_servers w) (w_dport w) (w_meta w) (w_mport w)
           (w_metas w) 1 0 (upper_bound_servers a) (lower_bound_servers a) (w_repl w) ASYNC (w_policy w),
         mkGlobals (block * 1024) (g_MALLEABILITY_ON g) SYNC).
Proof.
  cbv zeta. unfold cfg_save in Hf. rewrite save_loop_text in Hf. unfold client_start.
  rewrite (getConfiguration_conf e p over w a g) by done. cbn [obind]. unfold client_settings. cbn.
  pose proof Hw as (_ & _ & Hb & Hn). rewrite !Forall_cons in Hn. destruct Hn as (? & ? & ? & ? & ? & _).
  assert (0 <= default (w_block w) over < 2 ^ 53) by (destruct over; simpl; [by apply Hov|done]).
  unfold KB. by rewrite !i32_small, !u64_small by lia.
Qed.

(** ** Where the settings go wrong *)

Lemma load_defaults_found e l c :
  Exists (fun p => is_Some (file_at e p)) l -> (load_defaults e l (Some c)).1 = 0.
Proof.
  revert c. induction l as [|p l IH]; intros c; [by intros ?%Exists_nil|]. intros H. cbn [load_defaults]. unfold cfg_load.
  destruct (file_at e p) as [t|] eqn:E; [done|]. apply Exists_cons in H as [[? H]|H]; [congruence|].
  change (EXIT_FAILURE =? 0) with false. cbv iota. by apply IH.
Qed.

Lemma load_defaults_crash e cfg c0 l :
  cfg = Some c0 -> Exists (fun p => is_Some (file_at e p)) l ->
  exists cfg', load_defaults e l cfg = (0, cfg').
Proof.
  intros -> H. pose proof (load_defaults_found e l c0 H) as H0.
  destruct (load_defaults e l (Some c0)) as [r c]. simpl in H0. subst. eauto.
Qed.

(** A process whose environment does not name a file that can be read does
    not survive finding one in a default place. *)
Theorem default_file_crashes (e : surroundings) (a : arguments) (g : globals)
  (Hd : Exists (fun p => is_Some (file_at e p)) default_paths)
  (Hn : forall p, getenv e (B "HERCULES_CONF") = Some p -> file_at e p = None) :
  exists w, getConfiguration e a g = Undef w.
Proof.
  unfold getConfiguration, load_configuration. destruct (getenv e (B "HERCULES_CONF")) as [p|] eqn:E.
  - unfold cfg_load. rewrite (Hn p eq_refl). cbv iota beta.
    destruct (load_defaults_crash e (Some cfg_init) cfg_init default_paths eq_refl Hd) as [c ->]. simpl.
    unfold strcpy. destruct (strlen p <? PATH_MAX); simpl; eauto.
  - destruct (load_defaults_crash e (Some cfg_init) cfg_init default_paths eq_refl Hd) as [c ->]. simpl. eauto.
Qed.

(** What a successful call leaves in the numbers. *)
Lemma getConfiguration_inv e a g a' g' :
  getConfiguration e a g = Ret (Some (a', g')) ->
  exists p cfg, load_configuration e = Ret (Some (p, cfg)) /\
    block_size a' = u64 (number e cfg atol "HERCULES_BLOCK_SIZE" "BLOCK_SIZE" (block_size a)) /\
    malleability_ a' = number e cfg atoi "HERCULES_MALLEABILITY" "MALLEABILITY" 0 /\
    (malleability_ a' <> 0 -> (tolerance a', windows_size a', performance_threshold a') = malleability_settings e cfg a).
Proof.
  unfold getConfiguration. intros H. apply obind_Ret in H as ([[p cfg]|] & Hl & H); [|done].
  exists p, cfg. split; [done|]. destruct (setting e cfg "HERCULES_POLICY" "POLICY"); [|done].
  do 4 apply obind_Ret in H as (? & _ & H).
  destruct (if number e cfg atoi "HERCULES_MALLEABILITY" "MALLEABILITY" 0 =? 0 then _ else _) as [[tol win] thr] eqn:Et.
  do 7 apply obind_Ret in H as (? & _ & H).
  injection H as <- <-. cbn. split; [done|]. split; [done|]. intros Hm%Z.eqb_neq. by rewrite Hm in Et.
Qed.

(** A server whose settings lack the size of a block divides by zero when it
    starts: the structure is a global variable and holds zeros. *)
Theorem missing_block_size_stops_server (e : surroundings) (argv : list bytes) (a a' : arguments) (g g' : globals)
  (allowed : Z) (Hc : getConfiguration e a g = Ret (Some (a', g'))) (Hz : block_size a = 0)
  (Hl : forall p cfg, load_configuration e = Ret (Some (p, cfg)) -> setting e cfg "HERCULES_BLOCK_SIZE" "BLOCK_SIZE" = None)
  (Hv : is_Some (server_line argv)) (Hm : 0 < allowed) :
  server_start e argv a g allowed = Undef DivByZero.
Proof.
  destruct (getConfiguration_inv e a g a' g' Hc) as (p & cfg & El & Hb & _). unfold server_start.
  destruct Hv as [[type id] ->]. rewrite Hc. cbn [obind]. unfold number in Hb. rewrite (Hl p cfg El), Hz in Hb.
  change (u64 0) with 0 in Hb. rewrite Hb. change (u64 (0 * KB)) with 0. cbn [Z.eqb].
  destruct (storage_limit a' allowed =? 0) eqn:E; [|done]. exfalso. apply Z.eqb_eq in E. unfold storage_limit in E.
  destruct (_ || _) eqn:E2; [lia|]. apply orb_false_iff in E2 as [_ E2%Z.eqb_neq]. done.
Qed.

(** A tolerance that is not a number is taken for 0, and the metadata server
    then starts a data server on the next report, whatever the performance. *)
Theorem unreadable_tolerance_launches (e : surroundings) (a a' : arguments) (g g' : globals) (t : bytes)
  (hosts : list bytes) (st : elastic) (i : imss_info) (x : bytes)
  (Hc : getConfiguration e a g = Ret (Some (a', g'))) (Hm : malleability_ a' <> 0)
  (Ht : getenv e (B "HERCULES_MALLEABILITY_TOLERANCE") = Some t) (Hn : scan_d t = None)
  (Hs : comissioning_on st = false) (Hcs : 0 <= consecutive_scale_up_signals st)
  (Hi : num_storages i <= Z.of_nat (length (ips i)))
  (Hx : pick_node hosts (take (Z.to_nat (num_storages i)) (ips i)) (node_to_use st) = Some x) :
  exists st' i', commission (scaling_settings a' hosts) st i = Ret (st', i') /\
    comissioning_on st' = true /\ exists id n, launched st' = launched st ++ [(x, id, n)].
Proof.
  destruct (getConfiguration_inv e a g a' g' Hc) as (p & cfg & _ & _ & _ & Hmal). specialize (Hmal Hm).
  assert (tolerance a' = 0) as Ht0.
  { unfold malleability_settings, number, setting in Hmal. rewrite Ht in Hmal. unfold atoi, atol in Hmal.
    rewrite Hn in Hmal. injection Hmal as -> _ _. done. }
  rewrite commission_alone. unfold scaling_settings. cbn [malleability malleability_windows_size malleability_performance_threshold
    malleability_tolerance Elasticity.hosts]. rewrite (proj2 (Z.eqb_neq _ _) Hm), Hs, Ht0. cbn [negb andb].
  cbv zeta. rewrite (proj2 (Z.leb_le _ _)) by (case_match; lia).
  rewrite (proj2 (Nat.leb_le _ _)) by lia. rewrite Hx. eauto 10.
Qed.

(** ** Examples *)

Definition blank_args : arguments :=
  mkArguments [] [] [] [] [] [] [] [] [] [] [] [] [] 0 0 0 0 0 0 0 0 0 0 0 dzero 0 0 0 0 0 0 (mkLogging 0 0 0).
Definition blank_globals : globals := mkGlobals 0 0 0.

(** An environment with two variables. *)
Definition named (p : bytes) (over : option Z) (content : bytes) : surroundings :=
  mkSurroundings (fun f => if streq f p then Some content else None)
    (fun v => if streq v (B "HERCULES_CONF") then Some p
              else if streq v (B "HERCULES_BLOCK_SIZE") then print_u <$> over else None)
    None (B "node0") true.

Definition user : wanted :=
  mkWanted (B "RR") (B "/mnt/hercules/") (B "imss://") (B "meta.txt") (B "data.txt") 512 8500 7500 4 1 1.

Lemma user_ok : wanted_ok user.
Proof.
  assert (forall t, streq (cfg_trim t) t && (strlen t <? 230)
                    && forallb (fun c => negb (existsb (ascii_eqb c) t)) [hash_sign; newline; NUL] = true -> text_ok t) as Ht.
  { intros t. rewrite !andb_true_iff, streq_true, Z.ltb_lt, forallb_forall. intros [[H1 H2] H3].
    split; [done|]. split; [done|]. intros c Hc. apply absent, H3. by apply list_elem_of_In. }
  split; [|split; [done|split; [done|]]].
  - rewrite !Forall_cons. repeat split; try (apply Ht; reflexivity). apply Forall_nil_2.
  - rewrite !Forall_cons. repeat split; try done.
Qed.

Lemma saved_settings_apply_witness :
  client_start (named (B "h.conf") (Some 64) (save_text (conf_of user))) blank_args blank_globals
  = Ret (mkClient 64 65536 (B "/mnt/hercules/") (B "imss://") (B "data.txt") 4 8500 (B "meta.txt") 7500 1 1 0 0 0 1 ASYNC
           (B "RR"), mkGlobals 65536 0 SYNC).
Proof.
  exact (saved_settings_apply (named (B "h.conf") (Some 64) (save_text (conf_of user))) (B "h.conf") (Some 64) user
           blank_args blank_globals (fun _ => eq_refl) eq_refl user_ok
           ltac:(intros n [= <-]; lia) ltac:(vm_compute; reflexivity)).
Defined.

Lemma file_settings_fit_witness :
  getConfiguration (named (B "h.conf") None (B "POLICY = ROUND_ROBIN_OF_THE_SERVERS")) blank_args blank_globals
  = Undef OutOfBounds.
Proof.
  exact (file_settings_fit (named (B "h.conf") None (B "POLICY = ROUND_ROBIN_OF_THE_SERVERS")) (B "h.conf")
           (B "POLICY = ROUND_ROBIN_OF_THE_SERVERS") blank_args blank_globals
           ltac:(intros v; unfold named; cbn [getenv]; destruct (streq v (B "HERCULES_CONF")); [reflexivity|];
                 destruct (streq v (B "HERCULES_BLOCK_SIZE")); reflexivity) eq_refl eq_refl).
Defined.

Lemma default_file_crashes_witness :
  exists w, getConfiguration (mkSurroundings (fun f => if streq f (B "hercules.conf") then Some (B "POLICY = RR") else None)
                                (fun _ => None) (Some (B "/home/user")) (B "node0") true) blank_args blank_globals = Undef w.
Proof.
  apply default_file_crashes.
  - right. right. left. exists (B "POLICY = RR"). reflexivity.
  - discriminate.
Defined.

Definition no_block : surroundings := named (B "h.conf") None (B "POLICY = RR").

Lemma missing_block_size_stops_server_witness :
  server_start no_block [B "hercules_server"; B "d"; B "0"; B "1"] blank_args blank_globals 1000 = Undef DivByZero.
Proof.
  eapply (missing_block_size_stops_server no_block _ blank_args _ blank_globals _ 1000).
  - vm_compute. reflexivity.
  - reflexivity.
  - intros p cfg H. vm_compute in H. injection H as <- <-. reflexivity.
  - vm_compute. eauto.
  - lia.
Defined.

Definition eager : surroundings :=
  mkSurroundings (fun f => if streq f (B "h.conf") then Some (B "POLICY = RR") else None)
    (fun v => if streq v (B "HERCULES_CONF") then Some (B "h.conf")
              else if streq v (B "HERCULES_MALLEABILITY") then Some (B "1")
              else if streq v (B "HERCULES_MALLEABILITY_TOLERANCE") then Some (B "high") else None)
    None (B "node0") true.

Lemma unreadable_tolerance_launches_witness :
  exists a' g' st' i', getConfiguration eager blank_args blank_globals = Ret (Some (a', g')) /\
    commission (scaling_settings a' [B "node1"]) idle (mkImss (B "imss://") TYPE_HERCULES_INSTANCE [B "node0"] 1 1 0 0)
    = Ret (st', i') /\ comissioning_on st' = true.
Proof.
  destruct (getConfiguration eager blank_args blank_globals) as [[[a' g']|]| |] eqn:E; try (vm_compute in E; discriminate E).
  assert (malleability_ a' <> 0) as Hm by (vm_compute in E; injection E as <- <-; discriminate).
  destruct (unreadable_tolerance_launches eager blank_args a' blank_globals g' (B "high") [B "node1"]
              idle (mkImss (B "imss://") TYPE_HERCULES_INSTANCE [B "node0"] 1 1 0 0) (B "node1"))
    as (st' & i' & H1 & H2 & _); try done; eauto 10.
Defined.
