(* ===== verification/Moves.v ===== *)
(** * Moving files into Hercules

    A rename between Hercules and another file system copies:
    [HerculesMove], [hercules_move_file_from_disk] and [read_directory] of
    src/fuse/imss_posix_api.c, which work through the interposed calls of
    Calls.v.  The copy of a directory calls [rename] for its files, which comes
    back to [HerculesMove]: both run on fuel, and [Undef Deadlock] marks a run
    that needs more of it. *)

From S2P Require Import Prelude Types Paths Store DataServer Wire Sessions Client Comms MetaStore Elasticity MetaServer Datasets BlockService FileIO Posix EndToEnd LocalMap Files FileLife Attributes Calls Variants Process Sharing.

(** ** Buffers of fixed size *)

Definition MAX_PATH : Z := 256.
Definition ENOSPC : Z := 28.

(** [strncpy(buf, src, n)] and [strncat(buf, src, n)] on an array; what lies
    behind the bytes written stays. *)
Definition strncpy (buf src : bytes) (n : Z) : bytes :=
  take (Z.to_nat n) (src ++ repeat NUL (Z.to_nat n)) ++ drop (Z.to_nat n) buf.
Definition strncat (buf src : bytes) (n : Z) : outcome bytes :=
  write_at buf (strlen (cstr buf)) (take (Z.to_nat n) src ++ [NUL]).

(** [strncpy(b, dir, room)], [strncat(b, "/", room)], [strncat(b, name, room)]
    with the room that the array leaves behind the string in it. *)
Definition room (buf : bytes) : Z := MAX_PATH - strlen (cstr buf) - 1.
Definition join_into (buf dir name : bytes) : outcome bytes :=
  let buf := strncpy buf dir (room buf) in
  let* buf := strncat buf [slash] (room buf) in
  strncat buf name (room buf).

Definition clean_path : bytes := repeat NUL (Z.to_nat MAX_PATH).

(** The last slash that is not the last character starts the name; without
    one the name is the whole path. *)
Fixpoint last_slash (s : bytes) (c pos len : nat) : nat :=
  match s with
  | [] => pos
  | a :: s' => last_slash s' (S c) (if ascii_eqb a slash && (c + 1 <? len)%nat then c else pos) len
  end.
Definition name_part (path : bytes) : bytes := drop (last_slash path 0 0 (length path)) path.

Section moves.
Context {K : Type} `{FileLibc K} `{Libc K}.
Context (stack : bytes) (e : env) (fresh_shm : gmap Z bytes -> Z) (MALLEABILITY_ON : bool)
  (matching_server_id : Z) (menv_of : Z -> menv) (stat_id : Z -> Z) (imssd_pos : Z)
  (table_order : Sessions.table -> list bytes) (cfg : config) (dceil : Z -> Z -> Z)
  (scratch : bytes) (perf : list (bytes * IOServerMetrics)) (now : Z * Z).
Context (MOUNT_POINT : bytes).

Abbreviation do_open := (open stack e fresh_shm MALLEABILITY_ON matching_server_id menv_of imssd_pos cfg dceil scratch
  now MOUNT_POINT).
Abbreviation do_close := (close stack e fresh_shm MALLEABILITY_ON matching_server_id menv_of stat_id scratch perf now
  MOUNT_POINT).
Abbreviation do_fstat := (fstat stack e fresh_shm matching_server_id menv_of imssd_pos dceil scratch).
Abbreviation do_mkdir := (mkdir stack e fresh_shm MALLEABILITY_ON matching_server_id menv_of cfg now MOUNT_POINT).
Abbreviation do_rename := (rename stack e fresh_shm matching_server_id menv_of stat_id imssd_pos table_order dceil
  scratch MOUNT_POINT).

(** [read] and [write] of any descriptor. *)
Definition read_any (fd : Z) (buf : bytes) (size : Z) (p : proc K) : outcome (Z * bytes * proc K) :=
  match named fd p with
  | Some _ => read_fd stack e fresh_shm matching_server_id dceil fd buf size p
  | None => let '(r, b, k) := real_read fd buf size (pk p) in Ret (r, b, set_pk k (set_perr 0 p))
  end.
Definition write_any (fd : Z) (buf : bytes) (size : Z) (p : proc K) : outcome (Z * proc K) :=
  match named fd p with
  | Some _ => write_fd stack e fresh_shm matching_server_id dceil fd buf size p
  | None => let '(r, k) := real_write fd buf size (pk p) in Ret (r, set_pk k (set_perr 0 p))
  end.

(** [while ((bytes_read = read(fd_old, ...)) > 0) ... write(fd_new, ...)]. *)
Fixpoint copy_loop (fuel : nat) (fd_old fd_new size : Z) (buf : bytes) (p : proc K) : outcome (proc K) :=
  match fuel with
  | O => Undef Deadlock
  | S fuel =>
      let* (bytes_read, buf, p) := read_any fd_old buf size p in
      if bytes_read <=? 0 then Ret p
      else
        let* (bytes_write, p) := write_any fd_new buf bytes_read p in
        if bytes_write <? 0 then Ret p else copy_loop fuel fd_old fd_new size buf p
  end.

(** A descriptor of the caller is not closed. *)
Definition hercules_move_file_from_disk (fuel : nat) (fd_old : Z) (old_path new_path : bytes) (p : proc K)
  : outcome (Z * proc K) :=
  let to_close := fd_old <? 0 in
  let* (fd_old, p) := if to_close then do_open old_path O_RDONLY 0 p else Ret (fd_old, p) in
  if fd_old <? 0 then Ret (- ENOENT, p)
  else
    let* (fd_new, p) := do_open new_path (Z.lor O_WRONLY (Z.lor O_APPEND O_CREAT)) 420 p in
    if fd_new <? 0 then let* (_, p) := do_close fd_old p in Ret (- ENOENT, p)
    else
      let* (r, st, p) := do_fstat fd_old p in
      if r <? 0 then Ret (- EAGAIN, p)
      else
        match malloc e (u64 (st_size st)) with
        | None => Ret (- ENOSPC, p)
        | Some buf =>
            let* p := copy_loop fuel fd_old fd_new (st_size st) buf p in
            let* p := if to_close then let* (_, p) := do_close fd_old p in Ret p else Ret p in
            let* (_, p) := do_close fd_new p in
            Ret (0, p)
        end.

(** ** Directories *)

Section directory.
Context (move : bytes -> bytes -> bytes -> proc K -> outcome (Z * proc K)).

(** [opendir], the work on the stream, [closedir]. *)
Definition in_directory (path : bytes) (walk : Z -> proc K -> outcome (proc K)) (p : proc K) : outcome (Z * proc K) :=
  let* (dir, p) := opendir MOUNT_POINT path p in
  if dir =? -1 then Ret (-1, p)
  else
    let* p := walk dir p in
    let* (_, p) := closedir dir p in
    Ret (0, p).

(** The entries of a directory; the two buffers keep the names of the entry
    before. *)
Fixpoint walk_entries (fuel : nat) (dir : Z) (path parent full_path hercules_dir_path : bytes) (p : proc K)
  : outcome (proc K) :=
  match fuel with
  | O => Undef Deadlock
  | S fuel =>
      let* (entry, p) := readdir stack e menv_of stat_id dir p in
      match entry with
      | None => Ret p
      | Some (d_name, _) =>
          if streq d_name (B ".") || streq d_name (B "..")
          then walk_entries fuel dir path parent full_path hercules_dir_path p
          else
            let* full_path := join_into full_path path d_name in
            let full := cstr full_path in
            let* (fd, p) := do_open full O_RDONLY 0 p in
            if fd <? 0 then walk_entries fuel dir path parent full_path hercules_dir_path p
            else
              let* (r, st, p) := do_fstat fd p in
              if r <? 0 then walk_entries fuel dir path parent full_path hercules_dir_path p
              else
                let* (_, p) := do_close fd p in
                let* hercules_dir_path := join_into hercules_dir_path parent d_name in
                let target := cstr hercules_dir_path in
                if S_ISDIR (st_mode st)
                then
                  let* (_, p) := do_mkdir target 448 p in
                  let* (_, p) := in_directory full (fun d p => walk_entries fuel d full target clean_path clean_path p) p in
                  walk_entries fuel dir path parent full_path hercules_dir_path p
                else
                  let* (_, p) := do_rename move full target p in
                  walk_entries fuel dir path parent full_path hercules_dir_path p
      end
  end.

Definition read_directory (fuel : nat) (path parent : bytes) (p : proc K) : outcome (Z * proc K) :=
  in_directory path (fun d p => walk_entries fuel d path parent clean_path clean_path p) p.
End directory.

(** ** [HerculesMove] *)

(** The directory of the new name exists, unless it starts the old name. *)
Definition destination_parent (given_old_path hercules_path : bytes) (p : proc K) : outcome (bool * proc K) :=
  let* (offset, last_parent_dir) := find_last_parent_dir hercules_path in
  if negb (prefixb last_parent_dir given_old_path) && (0 <? offset)
  then
    let* (r, _, f) := getattr stack e fresh_shm matching_server_id menv_of imssd_pos dceil scratch last_parent_dir (pf p) in
    Ret (r =? 0, set_pf f p)
  else Ret (true, p).

(** Whether the new name exists and is a directory; [None] is the error of
    [fstat].  The descriptor stays open. *)
Definition examine_new (given_new_pathname : bytes) (old_is_dir : bool) (p : proc K)
  : outcome (option (bool * bool) * proc K) :=
  let* (fd_new, p) := do_open given_new_pathname O_RDONLY 0 p in
  if fd_new <? 0 then Ret (Some (false, old_is_dir), p)
  else
    let* (r, st, p) := do_fstat fd_new p in
    if r <? 0 then Ret (None, p) else Ret (Some (true, S_ISDIR (st_mode st)), p).

(** The name of a file inside the directory: whether a slash is needed is read
    from the old name at the length of the new one. *)
Definition name_inside (given_old_path given_new_pathname : bytes) : outcome bytes :=
  let name := name_part given_old_path in
  let* _ := guard (strlen name <? PATH_MAX) OutOfBounds in
  let x := strncpy clean_path given_new_pathname (room clean_path) in
  let n := strlen given_new_pathname in
  let* _ := guard (n <=? strlen given_old_path) OutOfBounds in
  let* x := if match given_old_path !! Z.to_nat n with Some a => ascii_eqb a slash | None => false end then Ret x
            else strncat x [slash] (room x) in
  let* x := strncat x name (room x) in
  Ret (cstr x).

(** The path of the moved directory. *)
Definition moved_path (new_exists : bool) (given_old_path given_new_pathname hercules_path : bytes) : outcome bytes :=
  let name := name_part (if new_exists then given_old_path else given_new_pathname) in
  let* _ := guard (strlen name <? PATH_MAX) OutOfBounds in
  let* _ := guard (negb new_exists || (length IMSS_ROOT <=? length hercules_path)%nat) OutOfBounds in
  let full_path := MOUNT_POINT ++ (if new_exists then drop (length IMSS_ROOT) hercules_path else []) ++ name in
  let* _ := guard (strlen full_path <? PATH_MAX) OutOfBounds in
  Ret full_path.

Fixpoint HerculesMove (fuel : nat) (given_old_path given_new_pathname hercules_path : bytes) (p : proc K)
  : outcome (Z * proc K) :=
  match fuel with
  | O => Undef Deadlock
  | S fuel =>
      let* (fd_old, p) := do_open given_old_path O_RDONLY 0 p in
      if fd_old <? 0 then Ret (-1, p)
      else
        let* (r, old_stat, p) := do_fstat fd_old p in
        if r <? 0 then Ret (-1, p)
        else
          let old_is_dir := S_ISDIR (st_mode old_stat) in
          let* (found, p) := destination_parent given_old_path hercules_path p in
          if negb found then Ret (- ENOENT, p)
          else
            let* (new, p) := examine_new given_new_pathname old_is_dir p in
            match new with
            | None => Ret (- EAGAIN, p)
            | Some (new_exists, new_is_dir) =>
                let* full_path := moved_path new_exists given_old_path given_new_pathname hercules_path in
                if old_is_dir && new_is_dir
                then
                  let* (r, p) := do_mkdir full_path 448 p in
                  if r =? 0 then read_directory (HerculesMove fuel) fuel given_old_path full_path p
                  else Ret (- EAGAIN, p)
                else if old_is_dir then Ret (- EPERM, set_perr EPERM p)
                else if new_is_dir
                then
                  let* x := name_inside given_old_path given_new_pathname in
                  hercules_move_file_from_disk fuel fd_old given_old_path x p
                else hercules_move_file_from_disk fuel fd_old given_old_path given_new_pathname p
            end
  end.
End moves.

(** ** The disk

    [reads k fd rest]: the bytes from the position of descriptor [fd] to the
    end of its file are [rest].  A [read] delivers at least one byte of them,
    and 0 only at the end of the file. *)

Definition disk_reads {K : Type} `{Libc K} (reads : K -> Z -> bytes -> Prop) : Prop :=
  forall k fd rest buf size, reads k fd rest -> 0 < size <= strlen buf ->
    exists n k', real_read fd buf size k = (Z.of_nat n, take n rest ++ drop n buf, k') /\
      reads k' fd (drop n rest) /\ (n <= length rest)%nat /\ Z.of_nat n <= size /\ (rest <> [] -> (0 < n)%nat).

Section copying.
Context {K : Type} `{FileLibc K} `{Libc K}.
Context (stack : bytes) (e : env) (fresh_shm : gmap Z bytes -> Z) (matching : Z).
Context (u : bytes) (di : dataset_info) (im : imss_info).
Context (FS : file_session stack e u di im).
Context (dceil : Z -> Z -> Z).
Context (Hdc : forall x b, 0 <= x < 2 ^ 53 -> 0 < b < 2 ^ 53 -> dceil x b = (x + b - 1) / b).
Context (reads : K -> Z -> bytes -> Prop) (Hreads : disk_reads reads).
Implicit Types p : proc K.

Abbreviation wof p := (wld (sess (pf p))).
Abbreviation I := (client_service stack e fresh_shm matching u di im FS).
Abbreviation byte_at w x := (@file_byte world _ I w x).

(** Descriptor [fd] is open on the file at position [pos]. *)
Definition at_pos p (fd pos d : Z) (st : stat) : Prop :=
  ptab p !! fd = Some (u, pos) /\ find_fd u (pf p) = Ret (d, Some st) /\ world_ok e u di im (wof p).

Lemma at_pos_holds p fd pos d st : at_pos p fd pos d st -> holds_file u p fd d st.
Proof. intros (Hp & Hf & _). split; [by exists pos|done]. Qed.

Lemma at_pos_named p fd pos d st : at_pos p fd pos d st -> named fd p = Some u.
Proof.
  intros (Hp & _). unfold named, map_fd_search_by_val. rewrite Hp.
  destruct (fs_name _ _ _ _ _ FS) as [[q Hq] _]. destruct u; [done|done].
Qed.

Lemma from_posix_file p fd d st q st' :
  holds_file u p fd d st -> files (fs q) !! u = Some (d, st') ->
  exists p', from_posix u q p = Ret p' /\ ptab p' = fds q /\ pk p' = kern q /\
    find_fd u (pf p') = Ret (d, Some st') /\ wof p' = svc (fs q).
Proof using FS.
  intros [_ Hf] Hfile. unfold from_posix. rewrite Hfile.
  destruct (file_parent stack e u di im FS) as [dir Hd]. apply (find_fd_Some stack e u di im FS) in Hf.
  cbn [lmap set_blocks set_sess].
  destruct (flat_Update (lmap (pf p)) u st' dir _ Hd Hf) as (h & -> & Hu & _). cbn [obind].
  eexists. split; [done|]. split; [done|]. split; [done|]. split; [|done].
  cbn [pf]. rewrite (find_fd_flat _ _ _ Hd). cbn. by rewrite Hu.
Qed.

(** A write through the descriptor leaves the C library and the other
    descriptors alone. *)
Lemma write_frame {St} `{BlockOps St} fd buf size (q q' : pstate St K) r :
  in_table fd (set_errno 0 q) <> None -> write dceil fd buf size q = Ret (r, q') ->
  kern q' = kern q /\ forall x, x <> fd -> fds q' !! x = fds q !! x.
Proof.
  unfold write. destruct (in_table fd (set_errno 0 q)) as [path|]; [|done]. intros _. unfold generalWrite.
  destruct (fd_lookup _ _) as [l o]. destruct (_ && (l =? -1)); [by intros [= <- <-]|].
  intros Hw. apply obind_Ret in Hw as ([ret f] & _ & Hw). destruct (ret <? 0).
  - injection Hw as <- <-. unfold SetErrno. destruct (0 <=? i32 ret); done.
  - injection Hw as <- <-. case_match; [|done]. cbn. split; [done|]. intros x Hx.
    unfold map_fd_update_value. destruct (fds q !! fd); [by apply lookup_insert_ne|done].
Qed.

Lemma write_any_ok p fd pos d st buf n :
  at_pos p fd pos d st -> 0 <= pos -> 0 <= d -> 0 < n <= strlen buf -> pos + n < 2 ^ 53 -> 0 <= st_size st < 2 ^ 53 ->
  num_storages im + ((pos + n - 1) / BLOCK_SIZE e + 1) <= 2 ^ 31 ->
  exists p' st', write_any stack e fresh_shm matching dceil fd buf n p = Ret (n, p') /\
    at_pos p' fd (st_size st + n) d st' /\ st_size st' = Z.max (st_size st) (pos + n) /\ pk p' = pk p /\
    (forall x, x <> fd -> ptab p' !! x = ptab p !! x) /\
    (forall i, 0 <= i < n -> byte_at (wof p') (pos + i) = buf !! Z.to_nat i) /\
    (forall y, 0 <= y -> block_no im (y / BLOCK_SIZE e + 1) -> (y < pos \/ pos + n <= y) ->
       is_Some (byte_at (wof p) y) -> byte_at (wof p') y = byte_at (wof p) y).
Proof using FS Hdc.
  intros Hp Hpos Hd Hn Hmax Hst Hblk. pose proof Hp as (Htab & Hfd & Hw).
  destruct (to_posix_ok stack e u di im FS p fd d st (at_pos_holds _ _ _ _ _ Hp)) as (Hname & Hto & Hin).
  pose proof (fs_block _ _ _ _ _ FS) as HB.
  set (q := mkP (mkF (wof p) {[u := (d, st)]}) (ptab p) (pk p) (perr p) ∅ ∅) in *.
  destruct (@write_opened world K _ I _ dceil Hdc q fd u pos d st buf n)
    as (q' & st' & Hrun & (_ & Hq1 & Hq2 & _ & Hok) & Hsz & Hb & Hfr); try done; try lia.
  { split; [apply (name_nonempty stack e u di im FS)|]. split; [done|]. split; [apply lookup_singleton_eq|].
    split; [lia|done]. }
  { intros id Hid. cbn in *. split; lia. }
  destruct (@write_frame world (client_ops stack e fresh_shm matching u) fd buf n q q' n) as [Hk Hx].
  { rewrite Hin; [done|reflexivity]. }
  { exact Hrun. }
  destruct (from_posix_file p fd d st q' st' (at_pos_holds _ _ _ _ _ Hp) Hq2) as (p' & Hfrom & Ht' & Hk' & Hf' & Hw').
  unfold write_any. rewrite (at_pos_named _ _ _ _ _ Hp). unfold write_fd, on_file. rewrite Hname, Hto. cbn [obind].
  rewrite Hrun. cbn [obind]. rewrite Hfrom. cbn [obind]. exists p', st'. split; [done|].
  split; [split; [by rewrite Ht'|split; [done|by rewrite Hw']]|]. split; [done|]. split; [by rewrite Hk', Hk|].
  split; [intros x Hne; rewrite Ht'; by apply Hx|]. rewrite Hw'. split; [exact Hb|exact Hfr].
Qed.

Lemma read_any_disk p fd rest buf size :
  named fd p = None -> reads (pk p) fd rest -> 0 < size <= strlen buf ->
  exists n p', read_any stack e fresh_shm matching dceil fd buf size p = Ret (Z.of_nat n, take n rest ++ drop n buf, p') /\
    reads (pk p') fd (drop n rest) /\ (n <= length rest)%nat /\ Z.of_nat n <= size /\ (rest <> [] -> (0 < n)%nat) /\
    pf p' = pf p /\ ptab p' = ptab p.
Proof using Hreads.
  intros Hn Hr Hs. destruct (Hreads (pk p) fd rest buf size Hr Hs) as (n & k' & Hread & Hr' & Hl & Hsz & Hpos).
  unfold read_any. rewrite Hn, Hread. exists n. eexists. by repeat split.
Qed.

(** The loop copies what is left of the file on disk to the end of the file. *)
Lemma copy_loop_ok fuel : forall p fd_old fd_new d st size buf rest,
  named fd_old p = None -> at_pos p fd_new (st_size st) d st -> fd_old <> fd_new -> reads (pk p) fd_old rest ->
  0 < size <= strlen buf -> 0 <= d -> 0 <= st_size st -> st_size st + strlen rest < 2 ^ 53 ->
  num_storages im + ((st_size st + strlen rest) / BLOCK_SIZE e + 1) <= 2 ^ 31 -> (length rest < fuel)%nat ->
  exists p' st', copy_loop stack e fresh_shm matching dceil fuel fd_old fd_new size buf p = Ret p' /\
    at_pos p' fd_new (st_size st') d st' /\ st_size st' = st_size st + strlen rest /\
    (forall i, 0 <= i < strlen rest -> byte_at (wof p') (st_size st + i) = rest !! Z.to_nat i) /\
    (forall y, 0 <= y < st_size st -> is_Some (byte_at (wof p) y) -> byte_at (wof p') y = byte_at (wof p) y).
Proof using FS Hdc Hreads.
  induction fuel as [|fuel IH]; intros p fo fn d st size buf rest Hno Hat Hne Hr Hs Hd Hst Hmax Hblk Hf; [lia|].
  pose proof (fs_block _ _ _ _ _ FS) as HB.
  destruct (read_any_disk p fo rest buf size Hno Hr Hs) as (n & p1 & Hrd & Hr1 & Hl & Hsz & Hpos & Hpf & Hpt).
  cbn [copy_loop]. rewrite Hrd. cbn [obind].
  destruct (Z.leb_spec (Z.of_nat n) 0) as [Hz|Hz].
  - assert (rest = []) as -> by (destruct rest; [done|exfalso; assert (0 < n)%nat by (apply Hpos; done); lia]).
    change (strlen []) with 0 in *. exists p1, st. split; [done|]. rewrite Z.add_0_r.
    split; [unfold at_pos; by rewrite Hpt, Hpf|]. split; [done|]. split; [intros i Hi; lia|]. by rewrite Hpf.
  - unfold strlen in Hs, Hmax, Hblk.
    set (chunk_ := take n rest ++ drop n buf) in *.
    assert (n <= length buf)%nat as Hnb by lia.
    assert (length chunk_ = length buf) as Hcl by (unfold chunk_; rewrite length_app, length_take, length_drop; lia).
    assert (at_pos p1 fn (st_size st) d st) as Hat1 by (unfold at_pos; by rewrite Hpt, Hpf).
    assert ((st_size st + Z.of_nat n - 1) / BLOCK_SIZE e <= (st_size st + Z.of_nat (length rest)) / BLOCK_SIZE e)
      by (apply Z.div_le_mono; lia).
    destruct (write_any_ok p1 fn (st_size st) d st chunk_ (Z.of_nat n))
      as (p2 & st2 & Hw & Hat2 & Hsz2 & Hk2 & Ht2 & Hb2 & Hfr2); try done; try (unfold strlen; lia).
    rewrite Z.max_r in Hsz2 by lia. rewrite <- Hsz2 in Hat2.
    rewrite Hw. cbn [obind]. destruct (Z.ltb_spec (Z.of_nat n) 0); [lia|].
    assert (length (drop n rest) = length rest - n)%nat as Hdl by apply length_drop.
    assert ((st_size st2 + strlen (drop n rest)) = st_size st + Z.of_nat (length rest)) as Hend by (unfold strlen; lia).
    destruct (IH p2 fo fn d st2 size chunk_ (drop n rest)) as (p' & st' & Hc & Hat' & Hs' & Hb' & Hf'); try done.
    { unfold named, map_fd_search_by_val in *. rewrite Ht2 by done. by rewrite Hpt. }
    { by rewrite Hk2. }
    { unfold strlen. lia. }
    { lia. }
    { lia. }
    { by rewrite Hend. }
    { lia. }
    exists p', st'. split; [done|]. split; [done|]. split; [unfold strlen in *; lia|]. split.
    + intros i Hi. unfold strlen in Hi. destruct (Z.lt_ge_cases i (Z.of_nat n)) as [Hin|Hin].
      * rewrite Hf'; [|lia|].
        -- rewrite Hb2 by lia. unfold chunk_. rewrite lookup_app_l by (rewrite length_take; lia).
           by rewrite lookup_take_lt by lia.
        -- rewrite Hb2 by lia. apply lookup_lt_is_Some. lia.
      * replace (st_size st + i) with (st_size st2 + (i - Z.of_nat n)) by lia.
        rewrite Hb' by (unfold strlen; lia). rewrite lookup_drop. f_equal. lia.
    + intros y Hy Hsome. assert (block_no im (y / BLOCK_SIZE e + 1)) as Hyno.
      { assert (y / BLOCK_SIZE e <= (st_size st + Z.of_nat (length rest)) / BLOCK_SIZE e) by (apply Z.div_le_mono; lia).
        pose proof (Z.div_pos y (BLOCK_SIZE e)). split; lia. }
      assert (byte_at (wof p2) y = byte_at (wof p) y) as E2.
      { rewrite <- Hpf in Hsome |- *. apply Hfr2; try done; lia. }
      rewrite Hf'; [done|lia|by rewrite E2].
Qed.
End copying.

(** ** Theorems *)

Section theorems.
Context {K : Type} `{FileLibc K} `{Libc K}.
Context (stack : bytes) (e : env) (fresh_shm : gmap Z bytes -> Z) (MALLEABILITY_ON : bool)
  (matching : Z) (menv_of : Z -> menv) (stat_id : Z -> Z) (imssd_pos : Z) (cfg : config) (dceil : Z -> Z -> Z)
  (scratch : bytes) (perf : list (bytes * IOServerMetrics)) (now : Z * Z) (MOUNT_POINT : bytes).

Abbreviation do_open := (open stack e fresh_shm MALLEABILITY_ON matching menv_of imssd_pos cfg dceil scratch
  now MOUNT_POINT).
Abbreviation do_close := (close stack e fresh_shm MALLEABILITY_ON matching menv_of stat_id scratch perf now MOUNT_POINT).
Abbreviation do_move := (hercules_move_file_from_disk stack e fresh_shm MALLEABILITY_ON matching menv_of stat_id
  imssd_pos cfg dceil scratch perf now MOUNT_POINT).
Abbreviation new_flags := (Z.lor O_WRONLY (Z.lor O_APPEND O_CREAT)).

(** The steps before the copy: the new file is open, the old one measured. *)
Lemma move_prepared fuel fd_old old new (p p1 : proc K) fd k2 st_old buf :
  0 <= fd_old -> do_open new new_flags 420 p = Ret (fd, p1) -> 0 <= fd -> named fd_old p1 = None ->
  libc_stat (C_fstat fd_old) (pk p1) = (0, st_old, k2) -> malloc e (u64 (st_size st_old)) = Some buf ->
  do_move fuel fd_old old new p
  = (let* p2 := copy_loop stack e fresh_shm matching dceil fuel fd_old fd (st_size st_old) buf
                  (set_pk k2 (set_perr 0 p1)) in
     let* (_, p3) := do_close fd p2 in Ret (0, p3)).
Proof.
  intros Ho Hop Hfd Hn Hs Hm. unfold hercules_move_file_from_disk.
  destruct (Z.ltb_spec fd_old 0); [lia|]. cbn [obind]. destruct (Z.ltb_spec fd_old 0); [lia|].
  rewrite Hop. cbn [obind]. destruct (Z.ltb_spec fd 0); [lia|]. unfold fstat.
  assert (named fd_old (set_perr 0 p1) = None) as -> by exact Hn.
  unfold real_stat. cbn [pk set_perr]. rewrite Hs. cbn [obind]. change (0 <? 0) with false. cbv iota. rewrite Hm.
  destruct (copy_loop _ _ _ _ _ _ _ _ _ _ _); reflexivity.
Qed.

(** C35. Moving a file of another file system to a new name stores its content: the
    copy ends whatever sizes the reads return, the file then has the bytes and
    the size of the original, and the rest is the close of its descriptor. *)
Theorem moved_file_is_stored (u : bytes) (di : dataset_info) (im : imss_info) (reads : K -> Z -> bytes -> Prop)
  (old new content buf : bytes) (fd_old fd d : Z) (p p1 : proc K) (st st_old : stat) (k2 : K) (fuel : nat)
  (FS : file_session stack e u di im)
  (Hdc : forall x b, 0 <= x < 2 ^ 53 -> 0 < b < 2 ^ 53 -> dceil x b = (x + b - 1) / b)
  (Hreads : disk_reads reads) (Hold : 0 <= fd_old) (Hopen : do_open new new_flags 420 p = Ret (fd, p1)) (Hfd : 0 <= fd)
  (Hat : at_pos e u di im p1 fd 0 d st) (Hnew : st_size st = 0) (Hd : 0 <= d)
  (Hdisk : named fd_old p1 = None) (Hstat : libc_stat (C_fstat fd_old) (pk p1) = (0, st_old, k2))
  (Hsize : st_size st_old = strlen content) (Hc : 0 < strlen content < 2 ^ 53) (Hrest : reads k2 fd_old content)
  (Hmal : malloc e (strlen content) = Some buf) (Hbuf : strlen buf = strlen content)
  (Hblk : num_storages im + (strlen content / BLOCK_SIZE e + 1) <= 2 ^ 31) (Hfuel : (length content < fuel)%nat) :
  exists p2 st2,
    do_move fuel fd_old old new p = (let* (_, p3) := do_close fd p2 in Ret (0, p3)) /\
    at_pos e u di im p2 fd (strlen content) d st2 /\ st_size st2 = strlen content /\
    forall i, 0 <= i < strlen content ->
      @file_byte world _ (client_service stack e fresh_shm matching u di im FS) (wld (sess (pf p2))) i = content !! Z.to_nat i.
Proof.
  assert (fd_old <> fd) as Hne.
  { intros ->. rewrite (at_pos_named stack e u di im FS p1 fd 0 d st Hat) in Hdisk. done. }
  destruct (copy_loop_ok stack e fresh_shm matching u di im FS dceil Hdc reads Hreads fuel (set_pk k2 (set_perr 0 p1))
              fd_old fd d st (strlen content) buf content) as (p2 & st2 & Hcp & Hat2 & Hs2 & Hb2 & _);
    rewrite ?Hnew; try done; try lia.
  exists p2, st2. rewrite Hnew in Hs2, Hb2. rewrite Z.add_0_l in Hs2. split; [|split; [by rewrite Hs2 in Hat2|split; [done|]]].
  - rewrite (move_prepared fuel fd_old old new p p1 fd k2 st_old buf); try done.
    + rewrite Hsize, Hcp. done.
    + rewrite Hsize, u64_of; [done|lia].
  - intros i Hi. specialize (Hb2 i Hi). by rewrite Z.add_0_l in Hb2.
Qed.

(** Moving a file onto a longer Hercules file only overwrites its start: the
    size and the bytes behind stay. *)
Theorem move_keeps_longer_tail (u : bytes) (di : dataset_info) (im : imss_info)
  (old new content buf : bytes) (fd_old fd d : Z) (p p1 : proc K) (st st_old : stat) (k2 k3 k4 : K) (fuel : nat)
  (FS : file_session stack e u di im)
  (Hdc : forall x b, 0 <= x < 2 ^ 53 -> 0 < b < 2 ^ 53 -> dceil x b = (x + b - 1) / b)
  (Hold : 0 <= fd_old) (Hopen : do_open new new_flags 420 p = Ret (fd, p1)) (Hfd : 0 <= fd)
  (Hat : at_pos e u di im p1 fd 0 d st) (Hlong : strlen content < st_size st < 2 ^ 53) (Hd : 0 <= d)
  (Hdisk : named fd_old p1 = None) (Hstat : libc_stat (C_fstat fd_old) (pk p1) = (0, st_old, k2))
  (Hsize : st_size st_old = strlen content) (Hc : 0 < strlen content)
  (Hmal : malloc e (strlen content) = Some buf) (Hbuf : strlen buf = strlen content)
  (Hr1 : real_read fd_old buf (strlen content) k2 = (strlen content, content, k3))
  (Hr2 : real_read fd_old content (strlen content) k3 = (0, content, k4))
  (Hblk : num_storages im + (st_size st / BLOCK_SIZE e + 1) <= 2 ^ 31) (Hfuel : (2 <= fuel)%nat) :
  exists p2 st2,
    do_move fuel fd_old old new p = (let* (_, p3) := do_close fd p2 in Ret (0, p3)) /\
    find_fd u (pf p2) = Ret (d, Some st2) /\ st_size st2 = st_size st /\
    forall y, strlen content <= y < st_size st ->
      let byte := @file_byte world _ (client_service stack e fresh_shm matching u di im FS) in
      is_Some (byte (wld (sess (pf p1))) y) -> byte (wld (sess (pf p2))) y = byte (wld (sess (pf p1))) y.
Proof.
  pose proof (fs_block _ _ _ _ _ FS) as HB.
  set (pa := set_pk k3 (set_perr 0 (set_pk k2 (set_perr 0 p1)))).
  assert (fd_old <> fd) as Hne.
  { intros ->. rewrite (at_pos_named stack e u di im FS p1 fd 0 d st Hat) in Hdisk. done. }
  assert ((strlen content - 1) / BLOCK_SIZE e <= st_size st / BLOCK_SIZE e) by (apply Z.div_le_mono; lia).
  destruct (write_any_ok stack e fresh_shm matching u di im FS dceil Hdc pa fd 0 d st content (strlen content))
    as (p2 & st2 & Hw & Hat2 & Hs2 & Hk2 & Ht2 & _ & Hfr); try done; try lia.
  { replace (0 + strlen content - 1) with (strlen content - 1) by lia. lia. }
  exists (set_pk k4 (set_perr 0 p2)), st2. split; [|split; [apply Hat2|split; [lia|]]].
  - rewrite (move_prepared fuel fd_old old new p p1 fd k2 st_old buf); try done.
    2:{ rewrite Hsize, u64_of; [done|lia]. }
    rewrite Hsize. destruct fuel as [|[|fuel]]; [lia|lia|]. cbn [copy_loop]. unfold read_any at 1.
    assert (forall x k, named fd_old (set_pk k (set_perr x p1)) = None) as Hn1 by (intros; exact Hdisk).
    rewrite Hn1. cbn [pk set_pk]. rewrite Hr1. cbn [obind]. destruct (Z.leb_spec (strlen content) 0); [lia|].
    fold pa. rewrite Hw. cbn [obind]. destruct (Z.ltb_spec (strlen content) 0); [lia|]. unfold read_any.
    assert (named fd_old p2 = None) as ->.
    { unfold named, map_fd_search_by_val. rewrite Ht2 by done. exact Hdisk. }
    rewrite Hk2. cbn [pk set_pk pa]. rewrite Hr2. cbn [obind]. reflexivity.
  - intros y Hy byte Hsome. apply Hfr; [lia| |lia|done].
    assert (y / BLOCK_SIZE e <= st_size st / BLOCK_SIZE e) by (apply Z.div_le_mono; lia).
    pose proof (Z.div_pos y (BLOCK_SIZE e)). split; lia.
Qed.
End theorems.

(** A file with a name shorter than that of the directory it is moved into:
    the test for the slash reads behind the name. *)
Theorem short_name_reads_past (old new : bytes) (Hn : strlen (name_part old) < PATH_MAX) (Hl : strlen old < strlen new) :
  name_inside old new = Undef OutOfBounds.
Proof.
  unfold name_inside. rewrite (proj2 (Z.ltb_lt _ _) Hn). cbn [guard obind].
  by rewrite (proj2 (Z.leb_gt _ _)) by lia.
Qed.

Lemma short_name_reads_past_witness : name_inside (B "a.txt") (B "/mnt/hercules/dir") = Undef OutOfBounds.
Proof. apply short_name_reads_past; vm_compute; reflexivity. Defined.

(** ** The path buffers *)

(** An array of [MAX_PATH] bytes that holds the string [s]. *)
Definition holds_string (b s : bytes) : Prop :=
  (NUL ∉ s) /\ strlen b = MAX_PATH /\ exists rest, b = s ++ NUL :: rest.

Lemma holds_cstr b s : holds_string b s -> cstr b = s.
Proof.
  intros (Hn & _ & rest & ->). unfold cstr. rewrite strchr_app_first by done. apply take_app_length.
Qed.

Lemma holds_zeros : holds_string clean_path [].
Proof. split; [set_solver|]. split; [done|]. by exists (repeat NUL (Z.to_nat MAX_PATH - 1)). Qed.

Lemma strncat_holds b s t n :
  holds_string b s -> NUL ∉ t -> strlen t <= n -> strlen s + strlen t < MAX_PATH ->
  exists b', strncat b t n = Ret b' /\ holds_string b' (s ++ t).
Proof.
  intros Hb Ht Hn Hl. pose proof (holds_cstr b s Hb) as Hc. destruct Hb as (Hs & Hbl & rest & Eb).
  unfold strncat. rewrite Hc, (take_ge t) by (unfold strlen in *; lia). unfold write_at.
  rewrite (proj2 (Z.leb_le _ _)) by apply strlen_nonneg.
  rewrite (proj2 (Z.leb_le _ _)) by (rewrite strlen_app; change (strlen [NUL]) with 1; lia). cbn [andb].
  eexists. split; [done|].
  assert (take (Z.to_nat (strlen s)) b = s) as Et.
  { rewrite Eb. unfold strlen. rewrite Nat2Z.id. apply take_app_length. }
  rewrite Et. split; [set_solver|]. split.
  - unfold strlen in *. rewrite !length_app, length_drop. simpl. lia.
  - eexists. by rewrite <- !app_assoc.
Qed.

Lemma take_repeat_min {A} (x : A) n m : take n (repeat x m) = repeat x (Nat.min n m).
Proof. revert m. induction n as [|n IH]; intros [|m]; simpl; [done..|]. by rewrite IH. Qed.

Lemma strncpy_holds b s t n :
  holds_string b s -> NUL ∉ t -> strlen t < n -> n <= MAX_PATH -> holds_string (strncpy b t n) t.
Proof.
  intros (_ & Hbl & _) Ht Hn Hm. unfold strncpy. split; [done|]. unfold strlen, MAX_PATH in *. split.
  - rewrite length_app, length_take, length_app, repeat_length, length_drop. lia.
  - rewrite take_app_ge by lia. exists (repeat NUL (Z.to_nat n - length t - 1) ++ drop (Z.to_nat n) b).
    rewrite <- app_assoc. f_equal. rewrite take_repeat_min, Nat.min_l by lia.
    replace (Z.to_nat n - length t)%nat with (S (Z.to_nat n - length t - 1)) at 1 by lia. done.
Qed.

(** The second entry of a directory with a long path: the array is not
    overwritten, and the name is appended to the one before. *)
Theorem long_directory_joins_entries (path n1 n2 : bytes)
  (Hc : NUL ∉ path ++ n1 ++ n2) (Hlong : 255 <= 2 * strlen path + 1 + strlen n1)
  (Hfit : strlen path + strlen n1 + strlen n2 < 254) :
  exists b1 b2, join_into clean_path path n1 = Ret b1 /\ cstr b1 = path ++ slash :: n1 /\
    join_into b1 path n2 = Ret b2 /\ cstr b2 = path ++ slash :: n1 ++ slash :: n2.
Proof.
  assert ((NUL ∉ path) /\ (NUL ∉ n1) /\ (NUL ∉ n2) /\ (NUL ∉ [slash])) as (N0 & N1 & N2 & N3).
  { split; [set_solver|]. split; [set_solver|]. split; [set_solver|]. apply strchr_None. reflexivity. }
  pose proof (strlen_nonneg path). pose proof (strlen_nonneg n1). pose proof (strlen_nonneg n2).
  assert (strlen [slash] = 1) as E1 by done. unfold join_into, room.
  rewrite (holds_cstr _ _ holds_zeros). change (strlen []) with 0.
  pose proof (strncpy_holds clean_path [] path (MAX_PATH - 0 - 1) holds_zeros N0 ltac:(unfold MAX_PATH; lia) ltac:(unfold MAX_PATH; lia)) as V1.
  rewrite (holds_cstr _ _ V1).
  destruct (strncat_holds _ _ [slash] (MAX_PATH - strlen path - 1) V1 N3) as (c1 & -> & V2); [unfold MAX_PATH; lia..|].
  cbn [obind]. rewrite (holds_cstr _ _ V2). rewrite strlen_app, E1.
  destruct (strncat_holds _ _ n1 (MAX_PATH - (strlen path + 1) - 1) V2 N1) as (b1 & Eb1 & V3);
    [unfold MAX_PATH; lia|rewrite strlen_app, E1; unfold MAX_PATH; lia|].
  exists b1. rewrite (holds_cstr _ _ V3).
  set (full := (path ++ [slash]) ++ n1) in *.
  assert (strlen full = strlen path + 1 + strlen n1) as Hf by (unfold full; rewrite !strlen_app, E1; lia).
  assert (strncpy b1 path (MAX_PATH - strlen full - 1) = b1) as Hsame.
  { destruct V3 as (_ & Hl & rest & Hr). unfold strncpy.
    assert (Z.to_nat (MAX_PATH - strlen full - 1) <= length path)%nat as Hle by (unfold MAX_PATH, strlen in *; lia).
    generalize dependent (Z.to_nat (MAX_PATH - strlen full - 1)). intros n Hle.
    rewrite take_app_le by done. rewrite <- (take_drop n b1) at 2. f_equal.
    rewrite Hr. unfold full. rewrite <- !app_assoc. by rewrite (take_app_le path). }
  rewrite Hsame, (holds_cstr _ _ V3).
  destruct (strncat_holds b1 full [slash] (MAX_PATH - strlen full - 1) V3 N3) as (c2 & Ec2 & V4); [unfold MAX_PATH; lia..|].
  rewrite Ec2. cbn [obind]. rewrite (holds_cstr _ _ V4).
  destruct (strncat_holds c2 (full ++ [slash]) n2 (MAX_PATH - strlen (full ++ [slash]) - 1) V4 N2) as (b2 & Eb2 & V5);
    [rewrite strlen_app, E1; unfold MAX_PATH; lia..|].
  exists b2. split; [done|]. split; [unfold full; by rewrite <- app_assoc|]. split; [done|].
  rewrite (holds_cstr _ _ V5). unfold full. by rewrite <- !app_assoc.
Qed.

Lemma long_directory_joins_entries_witness :
  exists b1 b2, join_into clean_path (repeat "d"%char 126) (B "aa") = Ret b1 /\
    join_into b1 (repeat "d"%char 126) (B "bb") = Ret b2 /\ cstr b2 = repeat "d"%char 126 ++ B "/aa/bb".
Proof.
  destruct (long_directory_joins_entries (repeat "d"%char 126) (B "aa") (B "bb")) as (b1 & b2 & H1 & _ & H2 & H3).
  - apply strchr_None. vm_compute. reflexivity.
  - vm_compute. discriminate.
  - vm_compute. reflexivity.
  - exists b1, b2. split; [exact H1|]. split; [exact H2|]. exact H3.
Defined.

(** ** Example: a file on disk, its state the bytes not yet read *)

#[local] Instance disk_libc : FileLibc bytes := {|
  libc _ k := (7, k);
  libc_stat c k := (0, mkStat (strlen k) 1 1 33188, k);
  libc_readdir _ k := (None, k);
  libc_cwd _ := Some (B "/home/u")
|}.
#[local] Instance disk_descriptors : Libc bytes := {|
  real_write _ _ _ k := (-1, k);
  real_pwrite _ _ _ _ k := (-1, k);
  real_read _ b n k := let m := Nat.min (Z.to_nat n) (length k) in (Z.of_nat m, take m k ++ drop m b, drop m k);
  real_pread _ b _ _ k := (-1, b, k);
  real_lseek _ _ _ k := (-1, k);
  real_fwrite _ _ _ _ k := (0, k);
  real_fread b _ _ _ k := (0, b, k);
  real_fseek _ _ _ k := (-1, k);
  real_rewind _ k := k;
  real_ftell _ k := (-1, k);
  real_dup _ k := (-1, k);
  real_dup2 _ _ k := (-1, k);
  real_open_null k := (7, k)
|}.

Lemma disk_delivers : disk_reads (fun (k : bytes) (_ : Z) rest => k = rest).
Proof.
  intros k fd rest buf size -> Hs. exists (Nat.min (Z.to_nat size) (length rest)), (drop (Nat.min (Z.to_nat size) (length rest)) rest).
  split; [done|]. split; [done|]. split; [lia|]. split; [lia|]. intros Hr. destruct rest; [done|]. simpl. lia.
Qed.

Definition moving_process (size : Z) : proc bytes :=
  mkProc (mkFS (set_wld (cluster 2) (sess empty_fs)) {[ IMSS_ROOT := {[ cluster_file := mkElem 0 (mkStat size 1 1 33188) ]} ]} 0)
    {[ 3 := (cluster_file, 0) ]} (B "hello") 0 (Some (B "/home/u")) ∅ (mkListing true [] 0 0).

Lemma moving_at size :
  at_pos (big_env 4) cluster_file (cluster_info 2) cluster_imss (set_perr 0 (moving_process size)) 3 0 0 (mkStat size 1 1 33188).
Proof. split; [apply lookup_singleton_eq|]. split; [vm_compute; reflexivity|]. apply cluster_ok. Qed.

Lemma moved_file_is_stored_witness :
  exists p2 st2,
    hercules_move_file_from_disk [] (big_env 4) no_shm false 0 fs_menv (fun _ => 0) 0 fs_config div_up fs_scratch [] (5, 0)
      mount 6 4 (B "/tmp/a") (B "/mnt/hercules/f") (moving_process 0)
    = (let* (_, p3) := close [] (big_env 4) no_shm false 0 fs_menv (fun _ => 0) fs_scratch [] (5, 0) mount 3 p2 in Ret (0, p3)) /\
    at_pos (big_env 4) cluster_file (cluster_info 2) cluster_imss p2 3 5 0 st2 /\ st_size st2 = 5.
Proof.
  destruct (moved_file_is_stored [] (big_env 4) no_shm false 0 fs_menv (fun _ => 0) 0 fs_config div_up fs_scratch [] (5, 0)
    mount cluster_file (cluster_info 2) cluster_imss (fun k _ rest => k = rest) (B "/tmp/a") (B "/mnt/hercules/f") (B "hello")
    (repeat NUL 5) 4 3 0 (moving_process 0) (set_perr 0 (moving_process 0)) (mkStat 0 1 1 33188) (mkStat 5 1 1 33188)
    (B "hello") 6 (cluster_session 4 2 ltac:(lia) ltac:(lia))) as (p2 & st2 & H1 & H2 & H3 & _).
  - reflexivity.
  - exact disk_delivers.
  - lia.
  - vm_compute. reflexivity.
  - lia.
  - apply moving_at.
  - reflexivity.
  - lia.
  - vm_compute. reflexivity.
  - vm_compute. reflexivity.
  - vm_compute. reflexivity.
  - vm_compute. split; reflexivity.
  - reflexivity.
  - vm_compute. reflexivity.
  - vm_compute. reflexivity.
  - vm_compute. discriminate.
  - vm_compute. repeat constructor.
  - exists p2, st2. split; [exact H1|]. split; [exact H2|exact H3].
Defined.

Lemma move_keeps_longer_tail_witness :
  exists p2 st2,
    hercules_move_file_from_disk [] (big_env 4) no_shm false 0 fs_menv (fun _ => 0) 0 fs_config div_up fs_scratch [] (5, 0)
      mount 6 4 (B "/tmp/a") (B "/mnt/hercules/f") (moving_process 9)
    = (let* (_, p3) := close [] (big_env 4) no_shm false 0 fs_menv (fun _ => 0) fs_scratch [] (5, 0) mount 3 p2 in Ret (0, p3)) /\
    find_fd cluster_file (pf p2) = Ret (0, Some st2) /\ st_size st2 = 9.
Proof.
  destruct (move_keeps_longer_tail [] (big_env 4) no_shm false 0 fs_menv (fun _ => 0) 0 fs_config div_up fs_scratch [] (5, 0)
    mount cluster_file (cluster_info 2) cluster_imss (B "/tmp/a") (B "/mnt/hercules/f") (B "hello")
    (repeat NUL 5) 4 3 0 (moving_process 9) (set_perr 0 (moving_process 9)) (mkStat 9 1 1 33188) (mkStat 5 1 1 33188)
    (B "hello") [] [] 6 (cluster_session 4 2 ltac:(lia) ltac:(lia))) as (p2 & st2 & H1 & H2 & H3 & _).
  - reflexivity.
  - lia.
  - vm_compute. reflexivity.
  - lia.
  - apply moving_at.
  - vm_compute. split; reflexivity.
  - lia.
  - vm_compute. reflexivity.
  - vm_compute. reflexivity.
  - vm_compute. reflexivity.
  - vm_compute. reflexivity.
  - vm_compute. reflexivity.
  - vm_compute. reflexivity.
  - vm_compute. reflexivity.
  - vm_compute. reflexivity.
  - vm_compute. discriminate.
  - lia.
  - exists p2, st2. split; [exact H1|]. split; [exact H2|exact H3].
Defined.
