(* ===== verification/Removal.v ===== *)
(** * Removal by type and temporary names

    The interposed calls of src/tools/imss_posix.c that are left: [remove],
    which asks the metadata server for the type of a name ([get_type],
    src/src/imss.c) and removes a file or a directory; [mkstemp] with the name
    generator of src/include/tempname.h; the 64-bit names and [faccessat2]; and
    the rank of a process ([GetRank], [MurmurOAAT32]). *)

From S2P Require Import Prelude Types Paths Intervals Store DataServer Wire Sessions Client Comms MetaStore Elasticity MetaServer Datasets Lifecycle MetaClient BlockService FileIO Posix EndToEnd LocalMap Files FileLife Calls Variants Process.

Definition TYPE_ERROR : ascii := "E"%char.

(** ** The type of a name *)

Section type.
Context (stack : bytes) (e : env) (menv_of : Z -> menv).

(** The interval array of a structure received as plain bytes: an address of
    the sender, behind which nothing can be read. *)
Definition wild_intervals (cs : list bytes) : option (list (option IntervalEntry)) :=
  if le_get (default [] (cs !! 24%nat)) =? 0 then None else Some [].

Definition get_type (uri : bytes) (s : session) : outcome (ascii * session) :=
  let is_root_path := prefixb uri IMSS_ROOT in
  let* m_srv := meta_home stack URI_ uri s in
  let* (m, s) := exchange e menv_of m_srv (meta_line 0 (B "GET") (B "0") uri) [] s in
  match m with
  | None => Ret (TYPE_ERROR, s)
  | Some msg =>
      match malloc e (strlen msg) with
      | None => Exit (-1)
      | Some _ =>
          let* (r, _) := recv_buffer msg in
          if r <? 0 then Ret (TYPE_ERROR, s)
          else if is_root_path
          then
            let* st := read_at msg 0 sizeof_imss in
            match parse_imss [] (chunks imss_widths st) with
            | None => Undef OutOfBounds
            | Some i => Ret (imss_type i, s)
            end
          else
            let* st := read_at msg 0 sizeof_dataset in
            let cs := chunks dataset_widths st in
            match parse_dataset (wild_intervals cs) cs with
            | None => Undef OutOfBounds
            | Some d =>
                let* (_, p) := add_dataset_entry_in_pool uri d (known s) in
                Ret (type_ d, set_curr uri (set_pool p s))
            end
      end
  end.
End type.

(** ** Names of temporary files *)

Definition letters : bytes := B "abcdefghijklmnopqrstuvwxyzABCDEFGHIJKLMNOPQRSTUVWXYZ0123456789".

(** The six digits [v % 62] of the last attempt, from the random bits. *)
Definition try_tempname_len (digits62 : list Z) (tmpl : bytes) : Z * bytes :=
  let len := length tmpl in
  if (len <? 6)%nat || negb (streq (drop (len - 6) tmpl) (repeat "X"%char 6)) then (-1, tmpl)
  else (1, take (len - 6) tmpl ++ ((fun d => default NUL (letters !! Z.to_nat (d mod 62))) <$> take 6 digits62)).

(** ** The rank *)

Fixpoint murmur (key : bytes) (h : Z) : Z :=
  match key with
  | [] => h
  | c :: key' =>
      let h := u32 (Z.lxor h (u32 (scharZ c))) in
      let h := u32 (h * 1540483477) in
      let h := Z.lxor h (Z.shiftr h 15) in
      murmur key' h
  end.

(** [abs] of the least integer overflows. *)
Definition MurmurOAAT32 (key : bytes) : outcome Z :=
  let h := i32 (murmur key 335) in
  if h =? - 2 ^ 31 then Undef SignedOverflow else Ret (Z.abs h).

(** ["%s:%d"] of the host and the process. *)
Definition GetRank (hostname : option bytes) (pid : Z) : outcome Z :=
  match hostname with
  | None => Exit 1
  | Some h => MurmurOAAT32 (h ++ ":"%char :: print_d pid)
  end.

Section calls.
Context {K : Type} `{FileLibc K} `{Libc K}.
Context (stack : bytes) (e : env) (fresh_shm : gmap Z bytes -> Z) (MALLEABILITY_ON : bool)
  (matching_server_id : Z) (menv_of : Z -> menv) (stat_id : Z -> Z) (imssd_pos : Z)
  (table_order : Sessions.table -> list bytes) (cfg : config) (dceil : Z -> Z -> Z)
  (scratch : bytes) (now : Z * Z).
Context (MOUNT_POINT : bytes).
(** [mkstemp] of the C library, which writes the name it chose. *)
Context (real_mkstemp : bytes -> K -> Z * bytes * K).

Abbreviation do_generalOpen := (generalOpen stack e fresh_shm MALLEABILITY_ON matching_server_id menv_of imssd_pos cfg
  dceil scratch now).

(** [remove]; a file is removed with the results 1 and 3 of [imss_unlink]. *)
Definition remove (name : bytes) (p : proc K) : outcome (Z * proc K) :=
  let p := set_perr 0 p in
  let* h := hercules_path MOUNT_POINT name p in
  match h with
  | None => Ret (real (C_remove name) p)
  | Some path =>
      let* (type, s) := get_type stack e menv_of path (sess (pf p)) in
      let f := set_sess s (pf p) in
      let* (ret, f) :=
        if ascii_eqb type TYPE_DIRECTORY || ascii_eqb type TYPE_HERCULES_INSTANCE
        then imss_rmdir stack e menv_of stat_id path f
        else if ascii_eqb type TYPE_REGULAR_FILE then imss_unlink stack e menv_of path f
        else Ret (-1, f) in
      let p := set_pf f p in
      if ret <? 0 then Ret (-1, set_perr (- ret) p)
      else if ret =? 0
      then let* (_, m) := map_fd_erase_by_pathname path (ptab p) in Ret (0, set_ptab m p)
      else Ret (0, p)
  end.

(** [mkstemp]: the descriptor, the name that was chosen, the process.  The
    result of the name generator is not tested. *)
Definition mkstemp (digits62 : list Z) (template_name : bytes) (p : proc K) : outcome (Z * bytes * proc K) :=
  let p := set_perr 0 p in
  let* h := hercules_path MOUNT_POINT template_name p in
  match h with
  | None => let '(r, name, k) := real_mkstemp template_name (pk p) in Ret (r, name, set_pk k p)
  | Some _ =>
      let '(r, name) := try_tempname_len digits62 template_name in
      let p := if r =? -1 then set_perr EINVAL p else p in
      let* h := hercules_path MOUNT_POINT name p in
      match h with
      | None => Undef NullDeref
      | Some path =>
          let* (fd, p) := do_generalOpen path (Z.lor O_RDWR (Z.lor O_CREAT O_EXCL)) 384 (-1) p in
          Ret (fd, name, p)
      end
  end.

Definition open64 (pathname : bytes) (flags mode : Z) (p : proc K) : outcome (Z * proc K) :=
  let mode := if any O_CREAT flags then mode else 0 in
  let p := set_perr 0 p in
  let* h := hercules_path MOUNT_POINT pathname p in
  match h with
  | Some path => do_generalOpen path flags mode (-1) p
  | None => Ret (real (C_open pathname flags mode) p)
  end.

Definition readdir64 (fd : Z) (p : proc K) : outcome (option (bytes * Z) * proc K) :=
  let p := set_perr 0 p in
  match named fd p with
  | Some _ => readdir stack e menv_of stat_id fd p
  | None => let '(r, k) := libc_readdir fd (pk p) in Ret (r, set_pk k p)
  end.

Abbreviation do_access := (access stack e fresh_shm matching_server_id menv_of imssd_pos dceil scratch MOUNT_POINT).

Definition GeneralFAccessAt (dir_fd : Z) (pathname : bytes) (mode : Z) (pathname_dir : bytes) (p : proc K)
  : outcome (Z * proc K) :=
  if IsAbsolutePath pathname =? 1 then do_access pathname mode p
  else if dir_fd =? AT_FDCWD then do_access pathname mode p
  else let* a := absolute_pathname MOUNT_POINT pathname_dir pathname in do_access a mode p.

Definition faccessat2 (dir_fd : Z) (pathname : bytes) (mode flags : Z) (p : proc K) : outcome (Z * proc K) :=
  let p := set_perr 0 p in
  let* (dir, file) := ResolvePathsAndFD MOUNT_POINT dir_fd pathname p in
  match dir, file with
  | [], None => Ret (real (C_faccessat dir_fd pathname mode flags) p)
  | _, _ => GeneralFAccessAt dir_fd pathname mode dir p
  end.

(** Calls that always go to the C library. *)
Definition newfstatat (dir_fd : Z) (pathname : bytes) (flags : Z) (p : proc K) : Z * stat * proc K :=
  real_stat (C_fstatat dir_fd pathname flags) p.
Definition fcntl64 (fd cmd : Z) (p : proc K) : Z * proc K := real (C_fcntl fd cmd) p.
End calls.

(** ** What the type query leaves in the session *)

(** The structure as the client has it afterwards. *)
Definition queried (ptr : Z) (d : dataset_info) : dataset_info :=
  set_intervals (num_intervals d) (if (match intervals d with None => 0 | Some _ => ptr end) =? 0 then None else Some []) d.

Lemma wild_of_chunks ptr d :
  0 <= ptr < 2 ^ 64 ->
  wild_intervals (dataset_chunks ptr d)
  = if (match intervals d with None => 0 | Some _ => ptr end) =? 0 then None else Some [].
Proof.
  intros Hp. unfold wild_intervals, dataset_chunks. cbn [lookup list_lookup default from_option id].
  unfold id. rewrite le_get_put_small; [done|]. change (8 * Z.of_nat 8) with 64. destruct (intervals d); lia.
Qed.

(** The type of a file or directory the server has: the answer is right, the
    server is unchanged but for the entry it read, and the session knows the
    name from then on. *)
Lemma get_type_found stack e menv_of uri s n m v d es dir :
  parent_dir uri = Ret dir -> prefixb uri IMSS_ROOT = false ->
  meta_home stack URI_ uri s = Ret n -> metas s !! Z.to_nat n = Some m -> mbox s = [] -> meta_word URI_ uri ->
  send_ok e = true -> m_send_ok (menv_of n) = true -> (forall k, 0 <= k -> malloc e k <> None) ->
  entry (map_key (menv_of n) uri) m = Ret (Some v) -> data v = Dataset d -> is_dirty d = false ->
  rooted (uri_ d) -> dataset_fits d -> Intervals.table d es -> Z.of_nat (length es) < 2 ^ 20 -> 0 <= m_ptr (menv_of n) < 2 ^ 64 ->
  exists m' s', get_type stack e menv_of uri s = Ret (type_ d, s') /\
    same_but (map_key (menv_of n) uri) m m' /\ metas s' = <[Z.to_nat n := m']> (metas s) /\
    (type_ d <> TYPE_DIRECTORY -> find_dataset_by_uri_hash_pool uri (known s') = Ret (1, Some (queried (m_ptr (menv_of n)) d))).
Proof.
  intros Hdir Hroot Hh Hm Hb Hu He Hs Hmal Hk Hv Hd [p Hp] Hf Ht Hes Hptr. unfold get_type. rewrite Hroot, Hh. cbn [obind].
  set (msg := concat (dataset_chunks (m_ptr (menv_of n)) d) ++ concat (entry_bytes <$> es)).
  assert (send_dataset (m_ptr (menv_of n)) d = Ret msg) as Hsend by by apply send_dataset_eq.
  destruct (read_entry (with_mpayload [] (menv_of n)) (mkMreq 0 (B "GET") (print_u READ_OP) uri 4 [])
              (map_key (menv_of n) uri) v d msg m) as (m' & Hread & _ & Hsame); try done.
  assert (exists t, msg = "i"%char :: t) as [t Hmsg].
  { destruct (concat_dataset_head (m_ptr (menv_of n)) d "i"%char (drop 1 IMSS_ROOT ++ p)) as [t Et]; [by rewrite Hp|].
    unfold msg. rewrite Et. by eexists. }
  rewrite (exchange_ok e menv_of n _ [] s m 0 (Data msg) m'); [|..|]; try done.
  2:{ destruct Hu as (_ & _ & Hu). unfold URI_ in Hu. apply meta_line_short; [done|done|lia]. }
  2:{ change (B "0") with (print_u READ_OP). rewrite get_line_dispatch by (done || lia). exact Hread. }
  2:{ cbn [reply_bytes]. by rewrite Hmsg. }
  cbn [obind reply_bytes]. destruct (malloc e (strlen msg)) eqn:Em; [|by apply Hmal in Em; [|apply strlen_nonneg]].
  assert (is_error msg = Ret false) as Herr by (rewrite Hmsg; by apply is_error_other).
  unfold recv_buffer. rewrite Herr. cbn [obind].
  assert (strlen msg = sizeof_dataset + 12 * Z.of_nat (length es)) as Hlen.
  { unfold msg. rewrite strlen_app, strlen_dataset by done. f_equal. unfold strlen. clear.
    induction es as [|x es IH]; [done|]. cbn [fmap list_fmap concat length]. rewrite length_app, length_entry_bytes. lia. }
  rewrite i32_small by (unfold sizeof_dataset in Hlen; lia).
  destruct (Z.ltb_spec (strlen msg) 0); [unfold sizeof_dataset in Hlen; lia|].
  unfold msg. rewrite read_at_prefix by by rewrite strlen_dataset. cbn [obind].
  rewrite <- (app_nil_r (concat (dataset_chunks _ d))). rewrite chunks_concat by by apply dataset_chunks_widths.
  rewrite parse_dataset_chunks by done. rewrite wild_of_chunks by done.
  rewrite (add_entry_eq uri dir _ _ Hdir). cbn [obind]. exists m'. eexists. split; [done|]. split; [done|]. split; [done|].
  intros Hty. apply (add_then_find uri dir (queried (m_ptr (menv_of n)) d) (known s) _ 0 Hdir Hty).
  rewrite (add_entry_eq uri dir _ _ Hdir). reflexivity.
Qed.

(** ** Theorems *)

(** A type query keeps the address that the placement intervals have in the
    server: the next block operation of the client on the file reads memory it
    does not own. *)
Theorem type_query_breaks_placement (stack : bytes) (e : env) (menv_of : Z -> menv) (uri dir : bytes) (s : session)
  (n : Z) (m : mserver) (v : BufferValue meta_obj) (d : dataset_info) (es : list IntervalEntry) (block : Z)
  (Hdir : parent_dir uri = Ret dir) (Hroot : prefixb uri IMSS_ROOT = false)
  (Hh : meta_home stack URI_ uri s = Ret n) (Hm : metas s !! Z.to_nat n = Some m) (Hb : mbox s = [])
  (Hu : meta_word URI_ uri) (He : send_ok e = true) (Hs : m_send_ok (menv_of n) = true)
  (Hmal : forall k, 0 <= k -> malloc e k <> None) (Hk : entry (map_key (menv_of n) uri) m = Ret (Some v))
  (Hv : data v = Dataset d) (Hd : is_dirty d = false) (Hr : rooted (uri_ d)) (Hf : dataset_fits d)
  (Ht : Intervals.table d es) (Hes : 0 < Z.of_nat (length es) < 2 ^ 20) (Hptr : 0 < m_ptr (menv_of n) < 2 ^ 64)
  (Hty : type_ d <> TYPE_DIRECTORY) :
  exists s' d', get_type stack e menv_of uri s = Ret (type_ d, s') /\
    find_dataset_by_uri_hash_pool uri (known s') = Ret (1, Some d') /\
    GetValueFromInterval d block = Ret (find_value es block) /\
    GetValueFromInterval d' block = Undef OutOfBounds.
Proof.
  destruct (get_type_found stack e menv_of uri s n m v d es dir) as (m' & s' & Hg & _ & _ & Hfind); try done; try lia.
  exists s', (queried (m_ptr (menv_of n)) d). split; [done|]. split; [by apply Hfind|].
  split; [by apply GetValue_table|]. unfold GetValueFromInterval, queried. cbn [num_intervals intervals set_intervals].
  rewrite (table_num _ _ Ht). destruct (Z.leb_spec (Z.of_nat (length es)) 0); [lia|].
  destruct (table_arr _ _ Ht) as [[_ ->]| ->]; [simpl in Hes; lia|].
  destruct (Z.eqb_spec (m_ptr (menv_of n)) 0); [lia|]. rewrite Nat2Z.id.
  destruct es as [|x es]; [simpl in Hes; lia|]. done.
Qed.

Section processes.
Context {K : Type} `{FileLibc K} `{Libc K}.
Context (stack : bytes) (e : env) (fresh_shm : gmap Z bytes -> Z) (MALLEABILITY_ON : bool)
  (matching : Z) (menv_of : Z -> menv) (stat_id : Z -> Z) (imssd_pos : Z) (cfg : config) (dceil : Z -> Z -> Z)
  (scratch : bytes) (now : Z * Z) (MOUNT_POINT : bytes) (real_mkstemp : bytes -> K -> Z * bytes * K).

(** The variants with 64-bit names and flags are the plain calls. *)
Theorem variants_are_plain (fd dir_fd flags mode : Z) (name : bytes) (p : proc K) :
  open64 stack e fresh_shm MALLEABILITY_ON matching menv_of imssd_pos cfg dceil scratch now MOUNT_POINT name flags mode p
  = Calls.open stack e fresh_shm MALLEABILITY_ON matching menv_of imssd_pos cfg dceil scratch now MOUNT_POINT name flags mode p /\
  readdir64 stack e menv_of stat_id fd p = readdir stack e menv_of stat_id fd p /\
  faccessat2 stack e fresh_shm matching menv_of imssd_pos dceil scratch MOUNT_POINT dir_fd name mode flags p
  = faccessat stack e fresh_shm matching menv_of imssd_pos dceil scratch MOUNT_POINT dir_fd name mode flags p.
Proof.
  split; [done|]. split.
  - unfold readdir64, readdir. change (named fd (set_perr 0 (set_perr 0 p))) with (named fd (set_perr 0 p)).
    by destruct (named fd (set_perr 0 p)).
  - unfold faccessat2, faccessat, at_call, GeneralFAccessAt.
    destruct (ResolvePathsAndFD MOUNT_POINT dir_fd name (set_perr 0 p)) as [[dir file]| |]; done.
Qed.

Lemma imss_unlink_result path f r f' : imss_unlink stack e menv_of path f = Ret (r, f') -> r = 1 \/ r = 3 \/ r = -1.
Proof.
  unfold imss_unlink. intros Hu. apply obind_Ret in Hu as ([ret s] & _ & Hu). apply obind_Ret in Hu as ([ret2 f2] & _ & Hu).
  destruct (ret2 =? 1); [injection Hu; auto|]. destruct (ret2 =? 0); [|injection Hu; auto].
  apply obind_Ret in Hu as (f3 & _ & Hu). apply obind_Ret in Hu as ([z s3] & _ & Hu). injection Hu; auto.
Qed.

(** [remove] of a regular file leaves the table of descriptors alone, so its
    open descriptors stay usable, and returns 0 or -1. *)
Theorem remove_keeps_descriptors (name path : bytes) (p p' : proc K) (r : Z) (s : session)
  (Hn : hercules_path MOUNT_POINT name (set_perr 0 p) = Ret (Some path))
  (Ht : get_type stack e menv_of path (sess (pf p)) = Ret (TYPE_REGULAR_FILE, s))
  (Hr : remove stack e menv_of stat_id MOUNT_POINT name p = Ret (r, p')) :
  ptab p' = ptab p /\ (r = 0 \/ r = -1 /\ perr p' = 1).
Proof.
  revert Hr. unfold remove. rewrite Hn. cbn [obind pf set_perr]. rewrite Ht. cbn [obind].
  change (ascii_eqb TYPE_REGULAR_FILE TYPE_DIRECTORY || ascii_eqb TYPE_REGULAR_FILE TYPE_HERCULES_INSTANCE) with false.
  change (ascii_eqb TYPE_REGULAR_FILE TYPE_REGULAR_FILE) with true. cbv iota. intros Hr.
  apply obind_Ret in Hr as ([ret f] & Hu & Hr).
  destruct (imss_unlink_result _ _ _ _ Hu) as [-> | [-> | ->]]; cbn in Hr; injection Hr as <- <-; cbn; auto.
Qed.

(** A name for which no type can be found is not removed. *)
Theorem remove_unknown_fails (name path : bytes) (p : proc K) (s : session)
  (Hn : hercules_path MOUNT_POINT name (set_perr 0 p) = Ret (Some path))
  (Ht : get_type stack e menv_of path (sess (pf p)) = Ret (TYPE_ERROR, s)) :
  remove stack e menv_of stat_id MOUNT_POINT name p = Ret (-1, set_perr 1 (set_pf (set_sess s (pf p)) (set_perr 0 p))).
Proof. unfold remove. rewrite Hn. cbn [obind pf set_perr]. rewrite Ht. done. Qed.

(** [mkstemp] does not look whether the name it generates is taken: for the
    name of an open file it hands out the descriptor of that file. *)
Theorem mkstemp_shares_open_file (digits62 : list Z) (template name path path' : bytes) (fd : Z) (p : proc K)
  (Hh : hercules_path MOUNT_POINT template (set_perr 0 p) = Ret (Some path'))
  (Hg : try_tempname_len digits62 template = (1, name))
  (Hn : hercules_path MOUNT_POINT name (set_perr 0 p) = Ret (Some path)) (Hroot : path <> IMSS_ROOT)
  (Ho : map_fd_search_by_pathname path (ptab p) = Some fd) :
  mkstemp stack e fresh_shm MALLEABILITY_ON matching menv_of imssd_pos cfg dceil scratch now MOUNT_POINT real_mkstemp
    digits62 template p = Ret (fd, name, set_perr 0 p).
Proof.
  unfold mkstemp. rewrite Hh. cbn [obind]. rewrite Hg. cbn [Z.eqb]. rewrite Hn. cbn [obind].
  unfold generalOpen. destruct (streq path IMSS_ROOT) eqn:E; [by apply streq_true in E|].
  cbn [ptab set_perr]. rewrite Ho. done.
Qed.
End processes.

(** A generated name keeps the template but for its last six letters. *)
Theorem tempname_replaces_suffix (digits62 : list Z) (dir : bytes) (Hd : length digits62 = 6%nat) :
  exists suffix, try_tempname_len digits62 (dir ++ repeat "X"%char 6) = (1, dir ++ suffix) /\
    length suffix = 6%nat /\ Forall (fun c => c ∈ letters) suffix.
Proof.
  unfold try_tempname_len. rewrite length_app. change (length (repeat "X"%char 6)) with 6%nat.
  replace (length dir + 6 - 6)%nat with (length dir) by lia. rewrite (proj2 (Nat.ltb_ge _ _)) by lia.
  rewrite drop_app_length, take_app_length. rewrite streq_refl. cbn [orb negb].
  eexists. split; [done|]. rewrite length_fmap, length_take, Hd. split; [done|].
  apply Forall_fmap, Forall_forall. intros d _. unfold compose. pose proof (Z.mod_pos_bound d 62 ltac:(lia)).
  destruct (letters !! Z.to_nat (d mod 62)) as [c|] eqn:E.
  - change (c ∈ letters). eapply list_elem_of_lookup_2. exact E.
  - apply lookup_ge_None in E. change (length letters) with 62%nat in E. lia.
Qed.

(** The rank is a non-negative [int]. *)
Theorem rank_in_range (host : option bytes) (pid r : Z) (Hr : GetRank host pid = Ret r) : 0 <= r < 2 ^ 31.
Proof.
  destruct host as [h|]; [|done]. cbn [GetRank] in Hr. unfold MurmurOAAT32 in Hr.
  set (x := i32 _) in *. assert (- 2 ^ 31 <= x < 2 ^ 31).
  { unfold x, i32. pose proof (Z.mod_pos_bound (murmur (h ++ ":"%char :: print_d pid) 335 + 2 ^ 31) (2 ^ 32)). lia. }
  destruct (Z.eqb_spec x (- 2 ^ 31)); [done|]. injection Hr as <-. lia.
Qed.

(** ** Examples *)

#[local] Existing Instance counter_libc.
#[local] Existing Instance counter_descriptors.

Lemma tempname_replaces_suffix_witness :
  exists suffix, try_tempname_len [0; 61; 62; 1; 2; 3] (B "/mnt/hercules/t" ++ repeat "X"%char 6)
                 = (1, B "/mnt/hercules/t" ++ suffix) /\ length suffix = 6%nat.
Proof.
  destruct (tempname_replaces_suffix [0; 61; 62; 1; 2; 3] (B "/mnt/hercules/t")) as (x & H1 & H2 & _); [reflexivity|].
  by exists x.
Defined.

Lemma rank_in_range_witness : 0 <= 924200696 < 2 ^ 31.
Proof. apply (rank_in_range (Some (B "node0")) 17). vm_compute. reflexivity. Defined.

(** A process with the file imss://abcdef open. *)
Definition temp_open : proc Z :=
  mkProc created_fs {[ 3 := (B "imss://abcdef", 0) ]} 4 0 (Some (B "/home/u")) ∅ (mkListing true [] 0 0).

Lemma mkstemp_shares_open_file_witness :
  mkstemp [] fs_env no_shm false 0 fs_menv 0 fs_config div_up fs_scratch (5, 0) mount (fun t k => (-1, t, k))
    [0; 1; 2; 3; 4; 5] (B "/mnt/hercules/XXXXXX") temp_open = Ret (3, B "/mnt/hercules/abcdef", set_perr 0 temp_open).
Proof.
  apply (mkstemp_shares_open_file [] fs_env no_shm false 0 fs_menv 0 fs_config div_up fs_scratch (5, 0) mount
           (fun t k => (-1, t, k)) [0; 1; 2; 3; 4; 5] (B "/mnt/hercules/XXXXXX") (B "/mnt/hercules/abcdef")
           (B "imss://abcdef") (B "imss://XXXXXX") 3 temp_open).
  - vm_compute. reflexivity.
  - vm_compute. reflexivity.
  - vm_compute. reflexivity.
  - discriminate.
  - vm_compute. reflexivity.
Defined.

Definition typed_session : session :=
  snd (ret_or (TYPE_ERROR, sess created_fs) (get_type [] fs_env fs_menv file_f (sess created_fs))).
Definition removed_process : Z * proc Z :=
  ret_or (9, opened_once) (remove [] fs_env fs_menv (fun _ => 0) mount (B "/mnt/hercules/f") opened_once).

Lemma remove_keeps_descriptors_witness : ptab (snd removed_process) = ptab opened_once.
Proof.
  apply (remove_keeps_descriptors [] fs_env fs_menv (fun _ => 0) mount (B "/mnt/hercules/f") file_f opened_once
           (snd removed_process) (fst removed_process) typed_session).
  - vm_compute. reflexivity.
  - vm_compute. reflexivity.
  - vm_compute. reflexivity.
Defined.

Lemma remove_unknown_fails_witness :
  exists p', remove [] fs_env fs_menv (fun _ => 0) mount (B "/mnt/hercules/g") opened_once = Ret (-1, p') /\ perr p' = 1.
Proof.
  eexists. split; [|shelve].
  eapply (remove_unknown_fails [] fs_env fs_menv (fun _ => 0) mount (B "/mnt/hercules/g") (B "imss://g") opened_once).
  - vm_compute. reflexivity.
  - vm_compute. reflexivity.
  Unshelve. reflexivity.
Defined.

(** A file whose blocks 1 to 8 were placed on two servers. *)
Definition placed_dataset : dataset_info := set_intervals 1 (Some [Some (mkInterval 2 1 8); None; None; None]) (sample_dataset 4).
Definition asking : session := mkSession (mkWorld [] [] ∅ [cluster_imss]) [server_with placed_dataset] [] None cluster_imss 0.

Lemma type_query_breaks_placement_witness :
  exists s' d', get_type [] fs_env fs_menv (B "imss://f") asking = Ret (TYPE_REGULAR_FILE, s') /\
    find_dataset_by_uri_hash_pool (B "imss://f") (known s') = Ret (1, Some d') /\
    GetValueFromInterval placed_dataset 3 = Ret 2 /\ GetValueFromInterval d' 3 = Undef OutOfBounds.
Proof.
  apply (type_query_breaks_placement [] fs_env fs_menv (B "imss://f") IMSS_ROOT asking 0 (server_with placed_dataset)
           (mkBuf (Dataset placed_dataset) sizeof_dataset) placed_dataset [mkInterval 2 1 8] 3).
  - reflexivity.
  - reflexivity.
  - vm_compute. reflexivity.
  - reflexivity.
  - reflexivity.
  - split; [discriminate|]. split; [repeat constructor|]. vm_compute. reflexivity.
  - reflexivity.
  - reflexivity.
  - intros k Hk. unfold fs_env, big_env, zeroed. cbn [malloc]. destruct (Z.ltb_spec k 0); [lia|discriminate].
  - vm_compute. reflexivity.
  - reflexivity.
  - reflexivity.
  - exists (B "f"). reflexivity.
  - pose proof sample_fits as [H1 H2 H3 H4 H5 H6 H7 H8]. split; [exact H1|exact H2|exact H3|exact H4|exact H5|exact H6| |exact H8].
    repeat constructor; unfold int_fits; simpl; lia.
  - split; [reflexivity|simpl; lia|right; reflexivity].
  - simpl. lia.
  - vm_compute. split; reflexivity.
  - discriminate.
Defined.
