(* ===== verification/Snapshots.v ===== *)
(** * Snapshots

    A thread of every data server copies files to disk ([Snapshot] of
    src/src/records.cpp and its thread in src/src/workers.c).  The server that
    starts the copy of a file asks the others with a [BROADCAST] line; each
    collects its blocks of the file ([GetDataOfFile]) and sends them with a
    [SNAPSET] line ([set_data_server_reduce], src/src/imss.c), which the
    handler of DataServer.v puts into [buffer_broadcast]; the first server puts
    them together ([MergeData]) and writes the result to disk.  The blocks are
    looked up in the map of the thread, [map->buffer], and not in the
    hierarchical map that the handler fills.  Nothing puts a block into the
    former, so the program never copies a file ([snapshot_copies_nothing]); the
    theorems on [MergeData] and [copy_file] are about these functions on what
    they are given.  While [MergeData] waits the rest of the cluster
    runs: a schedule lists what the others do, in the order in which it
    happens. *)

From stdpp Require Import sorting.
From S2P Require Import Prelude Types Paths Intervals Store DataServer Wire Sessions Client Comms MetaStore Elasticity MetaServer Datasets LocalMap Files Settings Migration.

(** ** The map of the thread *)

(** The keys of a [std::map] in order. *)
Definition sorted_keys {V} (m : gmap bytes V) : list bytes := foldr insert_key [] ((map_to_list m).*1).

Definition put_broadcast (key address : bytes) (length_ : Z) (s : server) : server :=
  match buffer_broadcast s !! key with
  | Some _ => s
  | None => set_broadcast (<[key := mkBuf address length_]> (buffer_broadcast s)) s
  end.
Definition erase_broadcast_element (key : bytes) (s : server) : Z * server :=
  match buffer_broadcast s !! key with
  | None => (0, s)
  | Some _ => (1, set_broadcast (delete key (buffer_broadcast s)) s)
  end.
Definition erase_snapshot_element (key : bytes) (s : server) : Z * server :=
  match buffer_snapshot s !! key with
  | None => (0, s)
  | Some _ => (1, set_snapshot (delete key (buffer_snapshot s)) s)
  end.

(** ** Collecting the blocks of a file *)

(** The number after the ['$']; nothing catches what [stoi] throws. *)
Definition extractNumber (key : bytes) : outcome Z :=
  match strchr dollar key with
  | None => Ret (-1)
  | Some i => match stoi (drop (S i) key) with Some n => Ret n | None => Exit ABORTED end
  end.

(** Block number, uri and name; they keep their values when the number is
    missing.  Without ['$'], [find] gives -1 and the number is the whole key. *)
Definition getBlockInformation (key : bytes) (old : Z * bytes * bytes) : outcome (Z * bytes * bytes) :=
  let block := match strchr dollar key with Some i => drop (S i) key | None => key end in
  match block with
  | [] => Ret old
  | _ =>
      match stoi block with
      | None => Exit ABORTED
      | Some n =>
          let data_uri := base_key key in
          if (length data_uri <? length IMSS_ROOT)%nat then Exit ABORTED
          else Ret (n, data_uri, drop (length IMSS_ROOT) data_uri)
      end
  end.

Fixpoint with_numbers (l : list bytes) : outcome (list (Z * bytes)) :=
  match l with
  | [] => Ret []
  | k :: l' => let* n := extractNumber k in let* r := with_numbers l' in Ret ((n, k) :: r)
  end.

(** [std::sort] by block number; a single element is not compared. *)
Definition number_le (a b : Z * bytes) : Prop := a.1 <= b.1.
#[global] Instance number_le_dec a b : Decision (number_le a b).
Proof. unfold number_le. apply _. Defined.

Definition sort_blocks (l : list bytes) : outcome (list bytes) :=
  match l with
  | [] | [_] => Ret l
  | _ => let* r := with_numbers l in Ret (merge_sort number_le r).*2
  end.

Section snapshots.
Context (e : env).

(** The loop that copies number and bytes of each block. *)
Fixpoint collect_blocks (buffer_ : gmap bytes (BufferValue bytes)) (vec : list bytes) (info : Z * bytes * bytes)
    (buf : bytes) (total_written : Z) : outcome (bytes * Z) :=
  match vec with
  | [] => Ret (buf, total_written)
  | k :: vec' =>
      match buffer_ !! k with
      | None => Undef UseAfterFree
      | Some v =>
          let* info := getBlockInformation k info in
          let* buf := write_at buf total_written (le_put 4 info.1.1) in
          let* block := read_at (data v) 0 (bsize v) in
          let* buf := write_at buf (total_written + 4) block in
          collect_blocks buffer_ vec' info buf (total_written + bsize v + 4)
      end
  end.

Definition sizes (buffer_ : gmap bytes (BufferValue bytes)) (vec : list bytes) : Z :=
  foldr (fun k z => u64 (from_option bsize 0 (buffer_ !! k) + z)) 0 vec.

(** The memory with the collected data and their size; [None] is the null
    pointer. *)
Definition GetDataOfFile (buffer_ : gmap bytes (BufferValue bytes)) (file_name : bytes) : outcome (option (bytes * Z)) :=
  let vec := collect (fun k => negb (is_block_zero k) && streq (base_key k) file_name) buffer_ in
  let file_size_occupied := sizes buffer_ vec in
  if file_size_occupied =? 0 then Ret None
  else
    let* vec := sort_blocks vec in
    let file_size_occupied := u64 (file_size_occupied + u32 (4 * Z.of_nat (length vec))) in
    match malloc e (u64 (file_size_occupied + 1)) with
    | None => Undef NullDeref
    | Some buf =>
        let* (buf, total_written) := collect_blocks buffer_ vec (0, [], []) buf 0 in
        let* buf := write_at buf total_written [NUL] in
        Ret (Some (buf, file_size_occupied))
    end.

(** ** Putting a file together *)

(** The loop over the blocks of one server: every block but the last of the
    file has the full size.  Gives the file and the number of bytes written. *)
Fixpoint merge_blocks (fuel : nat) (address : bytes) (storage_buffer_size file_size block_size aux_counter : Z)
    (file : bytes) (written : Z) : outcome (bytes * Z) :=
  if negb (aux_counter <? storage_buffer_size) then Ret (file, written)
  else
    match fuel with
    | O => Undef Deadlock
    | S fuel =>
        let* b := read_at address aux_counter 4 in
        let block_number := get_i32 b in
        let* _ := guard (negb (block_number =? - 2 ^ 31)) SignedOverflow in
        let block_offset := i64 (u64 ((block_number - 1) * block_size)) in
        let block_size_rtvd := if u64 file_size <? u64 (block_size + block_offset)
                               then u64 (file_size - block_offset) else block_size in
        let* d := read_at address (aux_counter + 4) block_size_rtvd in
        let* file := write_at file block_offset d in
        merge_blocks fuel address storage_buffer_size file_size block_size (aux_counter + block_size_rtvd + 4) file
          (written + block_size_rtvd)
    end.

Context (me : nat).

(** [cv.wait]: what the others do happens while the server waits, at least one
    thing when it takes an element; [Undef Deadlock] when nothing comes any
    more. *)
Fixpoint wait_broadcast (sched : list (world -> outcome world)) (w : world)
  : outcome (list (world -> outcome world) * bytes * BufferValue bytes * world) :=
  match sched with
  | [] =>
      let* s := own me w in
      match sorted_keys (buffer_broadcast s) with
      | [] => Undef Deadlock
      | k :: _ => match buffer_broadcast s !! k with Some v => Ret ([], k, v, w) | None => Undef Deadlock end
      end
  | act :: sched' =>
      let* w := act w in
      let* s := own me w in
      match sorted_keys (buffer_broadcast s) with
      | [] => wait_broadcast sched' w
      | k :: _ => match buffer_broadcast s !! k with Some v => Ret (sched', k, v, w) | None => Undef Deadlock end
      end
  end.

Fixpoint merge_loop (fuel : nat) (sched : list (world -> outcome world)) (indx num_of_data_servers file_size block_size : Z)
    (file : bytes) (total : Z) (w : world) : outcome (bytes * Z * world) :=
  match fuel with
  | O => Undef Deadlock
  | S fuel =>
      let* (sched, expected_key, v, w) := wait_broadcast sched w in
      let* (file, n) := merge_blocks (Z.to_nat (bsize v)) (data v) (bsize v) file_size block_size 0 file 0 in
      let* s := own me w in
      let w := set_own me (snd (erase_broadcast_element expected_key s)) w in
      if num_of_data_servers <=? indx + 1 then Ret (file, total + n, w)
      else merge_loop fuel sched (indx + 1) num_of_data_servers file_size block_size file (total + n) w
  end.

(** The file and its size; [None] is the null pointer.  [fuel] bounds the
    number of elements that are waited for. *)
Definition MergeData (fuel : nat) (sched : list (world -> outcome world)) (num_of_data_servers file_size block_size : Z)
    (w : world) : outcome (option (bytes * Z) * world) :=
  if file_size <=? 0 then Ret (None, w)
  else
    match malloc e (u64 file_size) with
    | None => Ret (None, w)
    | Some file =>
        let* (file, total, w) := merge_loop fuel sched 0 num_of_data_servers file_size block_size file 0 w in
        Ret (Some (file, total), w)
    end.
End snapshots.

(** ** Messages between the servers (src/src/imss.c) *)

Section messages.
Context (e : env) (conns : list nat) (data_sent : bool).

Definition snapset_request (size : Z) (key : bytes) (from : Z) : bytes :=
  B "SNAPSET" ++ sp :: print_u size ++ sp :: print_d 0 ++ sp :: block_key key from.
Definition broadcast_request (uri : bytes) (id : Z) : bytes := B "BROADCAST" ++ sp :: uri ++ sp :: print_d id.

(** The confirmation of the server is not received. *)
Definition set_data_server_reduce (from to : Z) (buffer : bytes) (size : Z) (key : bytes) (w : world) : outcome (Z * world) :=
  match conns !! Z.to_nat (u32 to) with
  | None => Undef OutOfBounds
  | Some n =>
      if negb (send_ok e) then Exit (-1)
      else if negb data_sent then Ret (-1, w)
      else
        let* msg := read_at buffer 0 size in
        let* w := deliver e (Z.of_nat n) (snapset_request size key from) msg w in
        Ret (1, w)
  end.

(** Server [i] of [num_of_servers] is the head of [eps]. *)
Fixpoint send_to_all (eps : list nat) (i from num_of_servers : Z) (request : bytes) (w : world) : outcome (Z * world) :=
  if num_of_servers <=? i then Ret (1, w)
  else
    match eps with
    | [] => if (i =? from) && (num_of_servers <=? i + 1) then Ret (1, w) else Undef OutOfBounds
    | n :: eps' =>
        if i =? from then send_to_all eps' (i + 1) from num_of_servers request w
        else if negb (send_ok e) then Ret (-1, w)
        else let* w := deliver e (Z.of_nat n) request [] w in send_to_all eps' (i + 1) from num_of_servers request w
    end.
Definition SendBroadcastMessage (from num_of_servers : Z) (request : bytes) (w : world) : outcome (Z * world) :=
  send_to_all conns 0 from num_of_servers request w.
End messages.

(** [get_number_of_active_nodes]: [None] when the file cannot be opened,
    [Some None] when it cannot be read, which is noticed after the terminator
    was written. *)
Definition get_number_of_active_nodes (file : option (option bytes)) : outcome Z :=
  match file with
  | None => Ret (-1)
  | Some None => Undef OutOfBounds
  | Some (Some content) => Ret (atoi (cstr (take 9 content)))
  end.

(** ** The disk *)

Record disk := mkDisk { dfiles : gmap bytes bytes; ddirs : gset bytes }.

(** [takes k n]: how many of [n] bytes a [write] at position [k] accepts, -1
    for an error; [openable] and [makeable]: whether [open] and [mkdir]
    succeed. *)
Record medium := mkMedium { takes : Z -> Z -> Z; openable : bytes -> bool; makeable : bytes -> bool }.

Section disk.
Context (md : medium).

Definition Open_file (checkpoint_dir filename : bytes) (d : disk) : outcome (option bytes * disk) :=
  let path := checkpoint_dir ++ slash :: filename in
  let* _ := guard (strlen path <? PATH_MAX) OutOfBounds in
  if openable md path
  then Ret (Some path, mkDisk (match dfiles d !! path with Some _ => dfiles d | None => <[path := []]> (dfiles d) end) (ddirs d))
  else Ret (None, d).

(** The bytes of a [write] at a position of a file; a gap is zero. *)
Definition overwrite (old : bytes) (k : Z) (src : bytes) : bytes :=
  let old' := old ++ repeat NUL (Z.to_nat k + length src - length old) in
  take (Z.to_nat k) old' ++ src ++ drop (Z.to_nat k + length src) old'.

Fixpoint write_disk (fuel : nat) (fd : option bytes) (buffer : bytes) (size written : Z) (d : disk) : outcome (Z * disk) :=
  if negb (written <? size) then Ret (written, d)
  else
    match fuel with
    | O => Undef Deadlock
    | S fuel =>
        match fd with
        | None => Ret (-1, d)
        | Some path =>
            let n := takes md written (size - written) in
            if n <? 0 then Ret (-1, d)
            else
              let* src := read_at buffer written n in
              write_disk fuel fd buffer size (written + n)
                (mkDisk (alter (fun old => overwrite old written src) path (dfiles d)) (ddirs d))
        end
    end.
Definition Write_2_disk (fd : option bytes) (buffer : bytes) (size : Z) (d : disk) : outcome (Z * disk) :=
  write_disk (Z.to_nat size) fd buffer size 0 d.

Definition Make_directory (dirname : bytes) (d : disk) : Z * disk :=
  if bool_decide (dirname ∈ ddirs d) then (1, d)
  else if makeable md dirname then (0, mkDisk (dfiles d) ({[dirname]} ∪ ddirs d)) else (-1, d).
End disk.

(** ** [Snapshot] *)

Section thread.
Context (e : env) (menv_of : Z -> menv) (matching_server_id imssd_pos : Z) (stack : bytes).
Context (conns : list nat) (data_sent : bool) (md : medium) (me : nat).

(** What the thread is given: its server's number, the policy, the memory pool
    of the shared-memory policies, the file with the number of active servers,
    and [map->buffer], which the program leaves empty. *)
Record snap_args := mkSnapArgs {
  sa_id : Z;
  sa_policy : bytes;
  sa_pool : bytes;
  sa_nodes : option (option bytes);
  sa_buffer : gmap bytes (BufferValue bytes)
}.
Context (a : snap_args).

(** records.cpp declares [curr_dataset] as a structure where src/src/imss.c
    has a pointer: [stray] are the name and the counter it reads instead. *)
Context (stray : bytes * Z) (fuel : nat) (sched : list (world -> outcome world)).

(** From the message to the others to the file on disk; [false] when the data
    could not be put together.  What the others do about the message is in the
    schedule. *)
Definition copy_file (uri : bytes) (servers_ file_size block_size : Z) (dir hostname : bytes) (w : world) (d : disk)
  : outcome (bool * world * disk) :=
  let* (_, w) := SendBroadcastMessage e conns (sa_id a) servers_ (broadcast_request uri (sa_id a)) w in
  let* own_data := GetDataOfFile e (sa_buffer a) uri in
  let* w := match own_data with
            | None => Ret w
            | Some (b, n) => let* s := own me w in Ret (set_own me (put_broadcast (block_key uri (sa_id a)) b n s) w)
            end in
  let* (merged, w) := MergeData e me fuel sched servers_ file_size block_size w in
  match merged with
  | None => Ret (false, w, d)
  | Some (file, n) =>
      let* (fd, d) := Open_file md dir hostname d in
      let* (_, d) := Write_2_disk md fd file n d in
      Ret (true, w, d)
  end.

(** The attributes in block 0, which the shared-memory policies keep in the
    pool at the offset that the block holds. *)
Definition block0_stat (v : BufferValue bytes) : outcome stat :=
  if streq (sa_policy a) (B "LOCAL") || streq (sa_policy a) (B "ZCOPY")
  then
    let offset := match scan_u64 (cstr (data v)) with Some (n, _) => n | None => 0 end in
    let* _ := guard (offset <=? strlen (sa_pool a)) OutOfBounds in
    parse_stat (drop (Z.to_nat offset) (sa_pool a))
  else parse_stat (data v).

(** What the loop does next: go on with the next key, or stop with a result. *)
Inductive control := Go (iteration continue_exe : Z) | Stop (ret : Z).

Definition erase_entry (key : bytes) (iteration : Z) (f : fsys) : outcome (control * fsys) :=
  let* s := own me (wld (sess f)) in
  let '(found, s) := erase_snapshot_element key s in
  let f := set_blocks (set_own me s (wld (sess f))) f in
  Ret (if found =? 0 then Go iteration 1 else Stop 1, f).

(** An entry of this server: block 0 of a file to be copied. *)
Definition snapshot_own (key : bytes) (servers_ block_size iteration continue_exe : Z) (dir hostname : bytes)
    (f : fsys) (d : disk) : outcome (control * fsys * disk) :=
  let skip f d := Ret (Go iteration continue_exe, f, d) in
  match (match strchr dollar key with Some i => drop (S i) key | None => key end) with
  | [] => skip f d
  | block =>
      match stoi block with
      | None => Exit ABORTED
      | Some _ =>
          let data_uri := base_key key in
          if (length data_uri <? length IMSS_ROOT)%nat then Exit ABORTED
          else
            let file_name := drop (length IMSS_ROOT) data_uri in
            let expected_uri := IMSS_ROOT ++ file_name in
            let* _ := guard (strlen expected_uri <? PATH_MAX) OutOfBounds in
            if (0 <? iteration) && streq stray.1 expected_uri && (0 <? stray.2) then skip f d
            else if negb (is_block_zero key) then skip f d
            else
              match sa_buffer a !! key with
              | None => skip f d
              | Some v =>
                  let* st := block0_stat v in
                  let d := if S_ISDIR (st_mode st) then snd (Make_directory md file_name d) else d in
                  let* f := clear_dataset f in
                  let* (file_desc, expected_uri, s) := open_dataset stack e matching_server_id menv_of imssd_pos expected_uri 0 (sess f) in
                  let f := set_sess s f in
                  if file_desc <? 0 then skip f d
                  else if 0 <? stray.2 then Ret (Go (iteration + 1) continue_exe, f, d)
                  else
                    let* (ok, w, d) := copy_file expected_uri servers_ (st_size st) block_size dir hostname (wld (sess f)) d in
                    let f := set_blocks w f in
                    if negb ok then Ret (Go (iteration + 1) continue_exe, f, d)
                    else let* (c, f) := erase_entry key (iteration + 1) f in Ret (c, f, d)
              end
      end
  end.

(** An entry of another server, which waits for the blocks of the file. *)
Definition snapshot_answer (key : bytes) (origin iteration continue_exe : Z) (f : fsys) : outcome (control * fsys) :=
  let* collected := GetDataOfFile e (sa_buffer a) key in
  match collected with
  | None => Ret (Go iteration continue_exe, f)
  | Some (b, n) =>
      let* f := clear_dataset f in
      let* (file_desc, name, s) := open_dataset stack e matching_server_id menv_of imssd_pos key 0 (sess f) in
      let f := set_sess s f in
      if file_desc <? 0 then Ret (Go iteration continue_exe, f)
      else
        let* (r, w) := set_data_server_reduce e conns data_sent (sa_id a) origin b n name (wld (sess f)) in
        let f := set_blocks w f in
        if r <? 0 then Ret (Stop (-1), f) else erase_entry key iteration f
  end.

(** The loop over [buffer_snapshot], whose keys are those of the beginning. *)
Fixpoint snapshot_loop (keys : list bytes) (servers_ block_size iteration continue_exe : Z) (dir hostname : bytes)
    (f : fsys) (d : disk) : outcome (Z * fsys * disk) :=
  match keys with
  | [] => Ret (continue_exe, f, d)
  | key :: keys' =>
      let* s := own me (wld (sess f)) in
      let* (c, f, d) :=
        match buffer_snapshot s !! key with
        | None => Undef UseAfterFree
        | Some origin =>
            match key with
            | [] => Ret (Go iteration continue_exe, f, d)
            | _ =>
                if origin =? -1
                then snapshot_own key servers_ block_size iteration continue_exe dir hostname f d
                else let* (c, f) := snapshot_answer key origin iteration continue_exe f in Ret (c, f, d)
            end
        end in
      match c with
      | Stop r => Ret (r, f, d)
      | Go iteration continue_exe => snapshot_loop keys' servers_ block_size iteration continue_exe dir hostname f d
      end
  end.

Definition Snapshot (block_size : Z) (dir hostname : bytes) (f : fsys) (d : disk) : outcome (Z * fsys * disk) :=
  let* n := get_number_of_active_nodes (sa_nodes a) in
  let* s := own me (wld (sess f)) in
  snapshot_loop (sorted_keys (buffer_snapshot s)) (u32 n) block_size 0 0 dir hostname f d.

(** The same text with another directory. *)
Definition Checkpoint : Z -> bytes -> bytes -> fsys -> disk -> outcome (Z * fsys * disk) := Snapshot.

(** The thread; [wakes] is what the others do until each of the signals it
    waits for, and [Undef Deadlock] ends a run in which no signal comes. *)
Context (global_finish_snapshot : bool).

Fixpoint snapshot_rounds (rounds : nat) (wakes : list (fsys -> outcome fsys)) (block_size : Z) (dir hostname : bytes)
    (f : fsys) (d : disk) : outcome (fsys * disk) :=
  match rounds with
  | O => Undef Deadlock
  | S rounds =>
      let* (ret, f, d) := Snapshot block_size dir hostname f d in
      if negb (ret =? 1)
      then
        match wakes with
        | [] => Undef Deadlock
        | act :: wakes =>
            let* f := act f in
            if (size (sa_buffer a) =? 0)%nat then Ret (f, d)
            else snapshot_rounds rounds wakes block_size dir hostname f d
        end
      else if global_finish_snapshot then Ret (f, d)
      else snapshot_rounds rounds wakes block_size dir hostname f d
  end.

Definition Snapshot_thread (rounds : nat) (wakes : list (fsys -> outcome fsys)) (blocksize : Z)
    (hercules_snapshot_path hostname : bytes) (f : fsys) (d : disk) : outcome (fsys * disk) :=
  match hercules_snapshot_path with
  | [] => Ret (f, d)
  | _ => snapshot_rounds rounds wakes (u64 (blocksize * 1024)) hercules_snapshot_path hostname f d
  end.

(** The thread of [Checkpoint] differs in the names of its locks. *)
Definition Checkpoint_thread : nat -> list (fsys -> outcome fsys) -> Z -> bytes -> bytes -> fsys -> disk -> outcome (fsys * disk) :=
  Snapshot_thread.
End thread.

(** ** Collecting *)

(** Writing and reading in the middle of a buffer. *)
Lemma write_mid (pre a c src : bytes) k :
  k = strlen pre -> length src = length a -> write_at (pre ++ a ++ c) k src = Ret (pre ++ src ++ c).
Proof.
  intros -> Hl. unfold write_at. rewrite !strlen_app. unfold strlen. rewrite Hl, Nat2Z.id.
  rewrite (proj2 (Z.leb_le 0 _)), (proj2 (Z.leb_le _ _)) by lia. cbn [andb].
  rewrite take_app_length. by rewrite (app_assoc pre a c), <- length_app, drop_app_length.
Qed.

Lemma read_mid (pre a c : bytes) k n : k = strlen pre -> n = strlen a -> read_at (pre ++ a ++ c) k n = Ret a.
Proof.
  intros -> ->. unfold read_at. rewrite !strlen_app. unfold strlen. rewrite !Nat2Z.id.
  rewrite !(proj2 (Z.leb_le _ _)) by lia. cbn [andb]. by rewrite drop_app_length, take_app_length.
Qed.

Section file.
Context (u : bytes) (bs : Z) (blk : Z -> bytes).
Context (Hu : file_name u) (Hbs : 0 < bs < 2 ^ 31) (Hblk : forall id, strlen (blk id) = bs).

Definition record (id : Z) : bytes := le_put 4 id ++ blk id.
Definition records (ids : list Z) : bytes := concat (record <$> ids).
Definition block_numbers (ids : list Z) : Prop :=
  StronglySorted Z.lt ids /\ Forall (fun id => 1 <= id < 2 ^ 31) ids.

(** A map that holds exactly the blocks [ids] of the file, besides its header
    and other files. *)
Definition holds_blocks (b : gmap bytes (BufferValue bytes)) (ids : list Z) : Prop :=
  forall k v, is_block_zero k = false -> base_key k = u ->
    (b !! k = Some v <-> exists id, id ∈ ids /\ k = block_key u id /\ v = mkBuf (blk id) bs).

Lemma length_file_record id : length (record id) = (4 + length (blk id))%nat.
Proof. unfold record. by rewrite length_app, length_le_put. Qed.

Lemma strlen_file_records ids : strlen (records ids) = Z.of_nat (length ids) * (bs + 4).
Proof.
  unfold records. induction ids as [|id ids IH]; [done|]. cbn [fmap list_fmap concat].
  rewrite strlen_app. change (concat (list_fmap _ _ record ids)) with (concat (record <$> ids)). rewrite IH.
  unfold strlen at 1. rewrite length_file_record. specialize (Hblk id). unfold strlen in Hblk. cbn [length]. lia.
Qed.

Lemma key_base id : base_key (block_key u id) = u.
Proof. apply base_key_app, Hu. Qed.

Lemma holds_lookup b ids id : block_numbers ids -> holds_blocks b ids -> id ∈ ids -> b !! block_key u id = Some (mkBuf (blk id) bs).
Proof.
  intros [_ Hr] Hb Hi. rewrite Forall_forall in Hr. apply (Hb (block_key u id)); [|apply key_base|eauto].
  apply block_key_not_zero; [apply Hu|]. by apply Hr.
Qed.

Lemma NoDup_numbers ids : StronglySorted Z.lt ids -> NoDup ids.
Proof.
  induction 1 as [|a l Hs IH Hf]; constructor; [|done]. intros Ha. rewrite Forall_forall in Hf. specialize (Hf _ Ha). lia.
Qed.

(** The keys that are collected. *)
Lemma collected_keys b ids :
  block_numbers ids -> holds_blocks b ids ->
  collect (fun k => negb (is_block_zero k) && streq (base_key k) u) b ≡ₚ block_key u <$> ids.
Proof.
  intros [Hs Hr] Hb. rewrite Forall_forall in Hr. apply NoDup_Permutation.
  - apply NoDup_collect.
  - apply NoDup_fmap_2_strong; [|by apply NoDup_numbers].
    intros x y Hx Hy E. apply Hr in Hx, Hy. apply block_key_inj in E; lia.
  - intros k. rewrite elem_of_collect, andb_true_iff, negb_true_iff, streq_true, list_elem_of_fmap. split.
    + intros [[Hz Hk] [v Hv]]. apply (Hb k v) in Hv as (id & Hi & -> & _); eauto.
    + intros (id & -> & Hi). split; [|erewrite holds_lookup; eauto; by split; [|rewrite Forall_forall]].
      split; [|apply key_base]. apply block_key_not_zero; [apply Hu|by apply Hr].
Qed.

Lemma extract_key id : 0 <= id < 2 ^ 31 -> extractNumber (block_key u id) = Ret id.
Proof.
  intros Hid. pose proof (split_key_block u id (proj2 (proj2 Hu)) Hid) as Hs. unfold split_key in Hs. unfold extractNumber.
  unfold block_key in *. rewrite strchr_app_first in * by apply Hu. destruct (stoi _); congruence.
Qed.

Lemma with_numbers_keys ids :
  Forall (fun id => 1 <= id < 2 ^ 31) ids -> with_numbers (block_key u <$> ids) = Ret ((fun id => (id, block_key u id)) <$> ids).
Proof.
  induction 1 as [|id ids Hid _ IH]; [done|]. cbn [fmap list_fmap with_numbers]. rewrite extract_key by lia. cbn [obind].
  by rewrite IH.
Qed.

#[local] Instance number_le_trans : Transitive number_le.
Proof. intros a b c. unfold number_le. lia. Qed.
#[local] Instance number_le_total : Total number_le.
Proof. intros a b. unfold number_le. lia. Qed.

Lemma sorted_pairs ids : StronglySorted Z.lt ids -> StronglySorted number_le ((fun id => (id, block_key u id)) <$> ids).
Proof.
  induction 1 as [|a l Hs IH Hf]; constructor; [done|]. apply Forall_fmap. eapply Forall_impl; [exact Hf|].
  intros x Hx. unfold number_le; cbn. lia.
Qed.

Lemma sort_blocks_keys l ids : block_numbers ids -> l ≡ₚ block_key u <$> ids -> sort_blocks l = Ret (block_key u <$> ids).
Proof.
  intros [Hs Hr] Hp.
  assert (exists l', l = block_key u <$> l' /\ l' ≡ₚ ids) as (l' & -> & Hp').
  { apply Permutation_map_inv in Hp as (l' & -> & Hp'). by exists l'. }
  assert (Forall (fun id => 1 <= id < 2 ^ 31) l') as Hr' by (by rewrite Hp').
  destruct l' as [|x [|y l']].
  - by apply Permutation_nil in Hp' as ->.
  - by apply Permutation_length_1_inv in Hp' as ->.
  - change (sort_blocks (block_key u <$> x :: y :: l'))
      with (let* r := with_numbers (block_key u <$> x :: y :: l') in Ret (merge_sort number_le r).*2).
    rewrite with_numbers_keys by done. cbn [obind]. f_equal.
    rewrite (StronglySorted_unique_strong number_le (merge_sort number_le ((fun id => (id, block_key u id)) <$> x :: y :: l'))
               ((fun id => (id, block_key u id)) <$> ids)).
    + rewrite <- list_fmap_compose. done.
    + intros a b Ha Hb H1 H2. rewrite merge_sort_Permutation in Ha.
      apply list_elem_of_fmap in Ha as (i & -> & _). apply list_elem_of_fmap in Hb as (j & -> & _).
      unfold number_le in *. cbn in *. by replace j with i by lia.
    + apply StronglySorted_merge_sort; apply _.
    + by apply sorted_pairs.
    + rewrite merge_sort_Permutation. by rewrite Hp'.
Qed.

Lemma sizes_keys b l ids :
  block_numbers ids -> holds_blocks b ids -> l ≡ₚ block_key u <$> ids -> Z.of_nat (length ids) * bs < 2 ^ 64 ->
  sizes b l = Z.of_nat (length ids) * bs.
Proof.
  intros Hn Hb Hp Hm.
  assert (Forall (fun k => b !! k = Some (mkBuf (blk 0) bs) \/ exists id, b !! k = Some (mkBuf (blk id) bs)) l) as Hl.
  { rewrite Hp. apply Forall_fmap, Forall_forall. intros id Hi. right. exists id. by eapply holds_lookup. }
  apply Permutation_length in Hp. rewrite length_fmap in Hp. rewrite <- Hp in *. clear Hp Hb Hn.
  induction Hl as [|k l Hk Hl IH]; [done|]. cbn [length] in Hm. unfold sizes. cbn [foldr]. fold (sizes b l). rewrite IH by lia.
  assert (from_option bsize 0 (b !! k) = bs) as -> by (destruct Hk as [->|[id ->]]; done).
  cbn [length]. rewrite u64_small; lia.
Qed.

Lemma block_info id old : 1 <= id < 2 ^ 31 -> getBlockInformation (block_key u id) old = Ret (id, u, drop (length IMSS_ROOT) u).
Proof.
  intros Hid. pose proof (extract_key id ltac:(lia)) as He. pose proof (key_base id) as Hk. destruct Hu as [[q Hq] [_ Hd]].
  unfold extractNumber in He. unfold getBlockInformation. rewrite Hk.
  unfold block_key in *. rewrite strchr_app_first in * by done.
  destruct (stoi _) eqn:E; [|done]. injection He as ->. destruct (drop _ _) eqn:Ed; [by vm_compute in E|].
  rewrite (proj2 (Nat.ltb_ge _ _)) by (rewrite Hq, length_app; lia). done.
Qed.

Lemma collect_blocks_ok b ids pre rest info :
  block_numbers ids -> (forall id, id ∈ ids -> b !! block_key u id = Some (mkBuf (blk id) bs)) ->
  strlen (records ids) <= strlen rest ->
  collect_blocks b (block_key u <$> ids) info (pre ++ rest) (strlen pre)
  = Ret (pre ++ records ids ++ drop (length (records ids)) rest, strlen (pre ++ records ids)).
Proof.
  intros Hn Hb. assert (Forall (fun id => 1 <= id < 2 ^ 31) ids) as Hr by apply Hn. clear Hn. revert pre rest info Hb.
  induction Hr as [|id ids Hid Hr IH]; intros pre rest info Hb Hl.
  { cbn. rewrite drop_0, app_nil_r. done. }
  cbn [fmap list_fmap collect_blocks]. rewrite (Hb id) by left. rewrite block_info by done. cbn [obind fst bsize data].
  assert (strlen (records (id :: ids)) = 4 + bs + strlen (records ids)) as Hlen by (rewrite !strlen_file_records; cbn [length]; lia).
  pose proof (strlen_nonneg (records ids)) as Hnn. unfold strlen in Hlen, Hl, Hnn.
  assert (exists a c d, rest = a ++ c ++ d /\ length a = 4%nat /\ length c = length (blk id)) as (r1 & r2 & r3 & -> & H1 & H2).
  { exists (take 4 rest), (take (length (blk id)) (drop 4 rest)), (drop (length (blk id)) (drop 4 rest)).
    rewrite !take_drop. split; [done|]. specialize (Hblk id). unfold strlen in Hblk.
    rewrite !length_take, length_drop. lia. }
  rewrite write_mid by (try done; by rewrite length_le_put). cbn [obind].
  rewrite <- (app_nil_r (blk id)) at 1. rewrite read_at_prefix by (by rewrite Hblk). cbn [obind].
  rewrite app_assoc. rewrite write_mid by (try done; rewrite strlen_app, strlen_le_put; lia). cbn [obind].
  replace (strlen pre + bs + 4) with (strlen ((pre ++ le_put 4 id) ++ blk id))
    by (rewrite !strlen_app, Hblk, strlen_le_put; lia).
  rewrite (app_assoc (pre ++ le_put 4 id)). rewrite IH.
  - unfold records at 3 4 5. cbn [fmap list_fmap concat]. fold (records ids). unfold record. rewrite !length_app, !length_le_put.
    f_equal. f_equal; [|by rewrite <- !app_assoc]. rewrite <- !app_assoc. do 4 f_equal.
    rewrite drop_app_ge by lia. rewrite drop_app_ge by lia. f_equal. lia.
  - intros x Hx. apply Hb. by right.
  - rewrite !length_app in Hl. pose proof (Hblk id) as Hk. unfold strlen in *. lia.
Qed.

(** The records of a server, with what lies behind them in memory, and their
    size. *)
Definition element (ids : list Z) (tail : bytes) : BufferValue bytes := mkBuf (records ids ++ tail) (strlen (records ids)).

Definition fits_memory (ids : list Z) : Prop := Z.of_nat (length ids) * (bs + 4) < 2 ^ 62 /\ Z.of_nat (length ids) < 2 ^ 30.

Lemma GetDataOfFile_ok e b ids :
  (forall n, 0 <= n -> exists m, malloc e n = Some m /\ strlen m = n) ->
  block_numbers ids -> holds_blocks b ids -> ids <> [] -> fits_memory ids ->
  GetDataOfFile e b u = Ret (Some (data (element ids [NUL]), bsize (element ids [NUL]))).
Proof.
  intros He Hn Hb Hne [Hm1 Hm2]. pose proof (collected_keys b ids Hn Hb) as Hp.
  assert (0 < Z.of_nat (length ids)) as Hpos by (destruct ids; [done|cbn; lia]).
  unfold GetDataOfFile. rewrite (sizes_keys b _ ids Hn Hb Hp) by nia.
  rewrite (proj2 (Z.eqb_neq _ _)) by nia. rewrite (sort_blocks_keys _ ids Hn Hp). cbn [obind].
  rewrite length_fmap. rewrite (u32_small (4 * _)) by lia.
  replace (Z.of_nat (length ids) * bs + 4 * Z.of_nat (length ids)) with (strlen (records ids)) by (rewrite strlen_file_records; lia).
  pose proof (strlen_file_records ids) as Hl. rewrite (u64_small (strlen _)) by lia. rewrite u64_small by lia.
  destruct (He (strlen (records ids) + 1)) as (m & -> & Hml); [lia|].
  pose proof (collect_blocks_ok b ids [] m (0, [], []) Hn) as Hc. cbn [app] in Hc. change (strlen []) with 0 in Hc.
  rewrite Hc by (try lia; intros id Hid; by eapply holds_lookup). cbn [obind]. clear Hc.
  assert (exists x, drop (length (records ids)) m = [x]) as [x ->].
  { assert (length (drop (length (records ids)) m) = 1%nat) as H1 by (rewrite length_drop; unfold strlen in *; lia).
    destruct (drop _ m) as [|x [|]]; try done. by exists x. }
  pose proof (write_mid (records ids) [x] [] [NUL] (strlen (records ids)) eq_refl eq_refl) as Hw. cbn [app] in Hw.
  rewrite Hw. done.
Qed.

(** ** Putting together *)

(** The file after block [id] was written. *)
Definition place (file : bytes) (id : Z) : bytes :=
  take (Z.to_nat ((id - 1) * bs)) file ++ blk id ++ drop (Z.to_nat ((id - 1) * bs) + length (blk id)) file.

Lemma place_write file id :
  1 <= id -> id * bs <= strlen file -> write_at file ((id - 1) * bs) (blk id) = Ret (place file id).
Proof.
  intros Hid Hl. unfold write_at. rewrite Hblk. rewrite !(proj2 (Z.leb_le _ _)) by nia. done.
Qed.

Lemma place_lookup file id i :
  1 <= id -> id * bs <= strlen file ->
  place file id !! i = if decide ((id - 1) * bs <= Z.of_nat i < id * bs) then blk id !! Z.to_nat (Z.of_nat i mod bs) else file !! i.
Proof.
  intros Hid Hl. rewrite (write_at_lookup _ _ _ _ i (place_write file id Hid Hl)). pose proof (Hblk id) as Hk. unfold strlen in Hk.
  repeat case_decide; try nia; [|done]. f_equal.
  replace (Z.of_nat i mod bs) with (Z.of_nat i - (id - 1) * bs); [nia|].
  apply (Z.mod_unique_pos _ _ (id - 1)); lia.
Qed.

Lemma place_length file id : 1 <= id -> id * bs <= strlen file -> length (place file id) = length file.
Proof. intros Hid Hl. by apply (write_at_length _ _ _ _ (place_write file id Hid Hl)). Qed.

Definition in_file (size : Z) (ids : list Z) : Prop := Forall (fun id => 1 <= id /\ id * bs <= size) ids.

Lemma places_spec ids file i :
  in_file (strlen file) ids ->
  length (fold_left place ids file) = length file /\
  fold_left place ids file !! i
  = if decide (Z.of_nat i / bs + 1 ∈ ids) then blk (Z.of_nat i / bs + 1) !! Z.to_nat (Z.of_nat i mod bs) else file !! i.
Proof using Hbs Hblk.
  revert file. induction ids as [|id ids IH]; intros file Hin; [by rewrite decide_False by (intros Hx; by inversion Hx)|].
  apply Forall_cons in Hin as [[H1 H2] Hin]. cbn [fold_left]. pose proof (place_length file id H1 H2) as Hpl.
  destruct (IH (place file id)) as [Hl Hi]; [unfold strlen in *; by rewrite Hpl|]. split; [by rewrite Hl|]. rewrite Hi.
  destruct (decide (Z.of_nat i / bs + 1 ∈ ids)); [by rewrite decide_True by (by right)|]. rewrite place_lookup by done.
  pose proof (Z.div_mod (Z.of_nat i) bs ltac:(lia)). pose proof (Z.mod_pos_bound (Z.of_nat i) bs ltac:(lia)).
  destruct (decide (Z.of_nat i / bs + 1 = id)) as [<-|Hne].
  - rewrite decide_True by nia. by rewrite decide_True by left.
  - rewrite decide_False by nia. rewrite decide_False; [done|]. rewrite elem_of_cons. tauto.
Qed.

Lemma merge_blocks_ok ids fuel pre tail file written :
  in_file (strlen file) ids -> Forall (fun id => id < 2 ^ 31) ids -> strlen file < 2 ^ 62 -> (length ids <= fuel)%nat ->
  merge_blocks fuel (pre ++ records ids ++ tail) (strlen pre + strlen (records ids)) (strlen file) bs (strlen pre) file written
  = Ret (fold_left place ids file, written + Z.of_nat (length ids) * bs).
Proof.
  revert fuel pre file written. induction ids as [|id ids IH]; intros fuel pre file written Hin Hr Hmax Hf.
  { change (strlen (records [])) with 0. assert ((strlen pre <? strlen pre + 0) = false) as E by (apply Z.ltb_ge; lia).
    destruct fuel; cbn [merge_blocks]; rewrite E; cbn; f_equal; f_equal; lia. }
  apply Forall_cons in Hin as [[H1 H2] Hin]. apply Forall_cons in Hr as [H3 Hr].
  destruct fuel as [|fuel]; [cbn in Hf; lia|]. cbn [merge_blocks].
  assert (strlen (records (id :: ids)) = 4 + bs + strlen (records ids)) as Hlen by (rewrite !strlen_file_records; cbn [length]; lia).
  pose proof (strlen_nonneg (records ids)). rewrite Hlen, (proj2 (Z.ltb_lt _ _)) by lia. cbn [negb].
  assert (records (id :: ids) = le_put 4 id ++ blk id ++ records ids) as -> 
    by (unfold records; cbn [fmap list_fmap concat]; unfold record at 1; by rewrite <- app_assoc).
  rewrite <- !app_assoc. rewrite read_mid by (try done; by rewrite strlen_le_put). cbn [obind].
  rewrite get_i32_put by lia. rewrite (proj2 (Z.eqb_neq _ _)) by lia. cbn [negb guard obind].
  rewrite (u64_small ((id - 1) * bs)), i64_small by nia.
  rewrite !u64_small by nia. rewrite (proj2 (Z.ltb_ge _ _)) by nia.
  rewrite (app_assoc pre). rewrite read_mid by (rewrite ?strlen_app, ?strlen_le_put, ?Hblk; lia). cbn [obind].
  rewrite place_write by done. cbn [obind].
  replace (strlen pre + bs + 4) with (strlen ((pre ++ le_put 4 id) ++ blk id)) by (rewrite !strlen_app, strlen_le_put, Hblk; lia).
  replace (strlen pre + (4 + bs + strlen (records ids))) with (strlen ((pre ++ le_put 4 id) ++ blk id) + strlen (records ids))
    by (rewrite !strlen_app, strlen_le_put, Hblk; lia).
  rewrite (app_assoc (pre ++ le_put 4 id)).
  assert (strlen (place file id) = strlen file) as Hpl by (unfold strlen; by rewrite place_length).
  rewrite <- Hpl at 1. rewrite IH; rewrite ?Hpl; try done; [|cbn in Hf; lia]. cbn [fold_left length]. f_equal. f_equal. lia.
Qed.
End file.

(** ** Waiting for the servers *)

Lemma sorted_keys_elem {V} (m : gmap bytes V) k : k ∈ sorted_keys m <-> is_Some (m !! k).
Proof.
  unfold sorted_keys. rewrite sort_keys_perm, list_elem_of_fmap. split.
  - intros [[k' v] [-> H%elem_of_map_to_list]]. by exists v.
  - intros [v H]. exists (k, v). split; [done|]. by apply elem_of_map_to_list.
Qed.

Lemma own_ok me w s : servers w !! me = Some s -> own me w = Ret s.
Proof. intros H. unfold own. by rewrite H. Qed.

Lemma set_own_lookup me w s s' : servers w !! me = Some s -> servers (set_own me s' w) !! me = Some s'.
Proof. intros H. cbn. apply list_lookup_insert_eq. by eapply lookup_lt_Some. Qed.

Section waiting.
Context (me : nat) (value_of : bytes -> BufferValue bytes) (P : server -> Prop).
Context (HP : forall m s, P s -> P (set_broadcast m s)).

(** An action that makes the element [k] arrive. *)
Definition brings (act : world -> outcome world) (k : bytes) : Prop :=
  forall w s, servers w !! me = Some s -> P s -> buffer_broadcast s !! k = None ->
    exists w' s', act w = Ret w' /\ servers w' !! me = Some s' /\ P s' /\
      buffer_broadcast s' = <[k := value_of k]> (buffer_broadcast s).

(** The elements [rem] are in the map or still to come. *)
Definition awaits (sched : list (world -> outcome world)) (w : world) (rem : list bytes) : Prop :=
  exists s here coming, servers w !! me = Some s /\ P s /\ rem ≡ₚ here ++ coming /\ NoDup rem /\
    (forall k, k ∈ here <-> is_Some (buffer_broadcast s !! k)) /\
    (forall k v, buffer_broadcast s !! k = Some v -> v = value_of k) /\ Forall2 brings sched coming.

(** Taking the first element of the map. *)
Lemma take_first w s here coming sched k l :
  servers w !! me = Some s -> P s -> NoDup (here ++ coming) ->
  (forall k, k ∈ here <-> is_Some (buffer_broadcast s !! k)) ->
  (forall k v, buffer_broadcast s !! k = Some v -> v = value_of k) -> Forall2 brings sched coming ->
  sorted_keys (buffer_broadcast s) = k :: l ->
  buffer_broadcast s !! k = Some (value_of k) /\
  exists rem, here ++ coming ≡ₚ k :: rem /\ awaits sched (set_own me (snd (erase_broadcast_element k s)) w) rem.
Proof.
  intros Hs HPs Hnd Hh Hv Hf Hk.
  assert (is_Some (buffer_broadcast s !! k)) as [v Ev] by (apply sorted_keys_elem; rewrite Hk; by left).
  pose proof (Hv _ _ Ev) as ->. split; [done|].
  assert (k ∈ here) as Hin by (apply Hh; eauto). apply elem_of_Permutation in Hin as [here' Hp].
  exists (here' ++ coming). assert (here ++ coming ≡ₚ k :: here' ++ coming) as Hp2 by (by rewrite Hp). split; [done|].
  rewrite Hp2 in Hnd. apply NoDup_cons in Hnd as [Hk1 Hnd].
  unfold erase_broadcast_element. rewrite Ev. cbn [snd].
  eexists _, here', coming. split; [by eapply set_own_lookup|]. split; [by apply HP|]. split; [done|]. split; [done|].
  split; [|split; [|done]].
  - intros x. cbn. destruct (decide (x = k)) as [->|Hx].
    + rewrite lookup_delete_eq. split; [intros Hx; destruct Hk1; by apply elem_of_app; left|by intros []].
    + rewrite lookup_delete_ne by done. rewrite <- Hh, Hp, elem_of_cons. naive_solver.
  - intros x v. cbn. rewrite lookup_delete_Some. intros [_ Hx]. by apply Hv.
Qed.

Lemma wait_step sched w rem :
  awaits sched w rem -> rem <> [] ->
  exists sched' k w' s' rem', wait_broadcast me sched w = Ret (sched', k, value_of k, w') /\
    own me w' = Ret s' /\ rem ≡ₚ k :: rem' /\ awaits sched' (set_own me (snd (erase_broadcast_element k s')) w') rem'.
Proof.
  intros (s & here & coming & Hs & HPs & Hp & Hnd & Hh & Hv & Hf) Hne. rewrite Hp in Hnd.
  destruct Hf as [|act k sched coming Hb Hf].
  - cbn [wait_broadcast]. rewrite (own_ok _ _ _ Hs). cbn [obind].
    destruct (sorted_keys (buffer_broadcast s)) as [|k l] eqn:Ek.
    { destruct here as [|k here]; [by rewrite Permutation_nil_r in Hp|].
      assert (k ∈ []) as Hk; [rewrite <- Ek; apply sorted_keys_elem, Hh; by left|by inversion Hk]. }
    destruct (take_first w s here [] [] k l) as (Ev & rem' & Hp' & Ha); try done.
    rewrite Ev. exists [], k, w, s, rem'. split; [done|]. split; [by apply own_ok|]. split; [by rewrite Hp|done].
  - cbn [wait_broadcast]. assert (buffer_broadcast s !! k = None) as Hnk.
    { destruct (buffer_broadcast s !! k) eqn:E; [|done]. apply NoDup_app in Hnd as (_ & Hd & _).
      destruct (Hd k); [apply Hh; eauto|by left]. }
    destruct (Hb w s Hs HPs Hnk) as (w' & s' & -> & Hs' & HPs' & Hm). cbn [obind]. rewrite (own_ok _ _ _ Hs'). cbn [obind].
    assert (here ++ k :: coming ≡ₚ (k :: here) ++ coming) as Hp2 by (by rewrite <- Permutation_middle).
    rewrite Hp2 in Hnd, Hp.
    assert (forall x, x ∈ k :: here <-> is_Some (buffer_broadcast s' !! x)) as Hh'.
    { intros x. rewrite Hm, elem_of_cons, Hh, lookup_insert_is_Some'. naive_solver. }
    destruct (sorted_keys (buffer_broadcast s')) as [|k' l] eqn:Ek.
    { assert (k ∈ []) as Hk; [rewrite <- Ek; apply sorted_keys_elem, Hh'; by left|by inversion Hk]. }
    destruct (take_first w' s' (k :: here) coming sched k' l) as (Ev & rem' & Hp' & Ha); try done.
    { intros x v. rewrite Hm, lookup_insert_Some. intros [[-> <-]|[_ Hx]]; [done|by apply Hv]. }
    rewrite Ev. exists sched, k', w', s', rem'. split; [done|]. split; [by apply own_ok|]. split; [by rewrite Hp|done].
Qed.

Lemma wait_none sched w : awaits sched w [] -> wait_broadcast me sched w = Undef Deadlock.
Proof.
  intros (s & here & coming & Hs & _ & Hp & _ & Hh & _ & Hf). apply Permutation_nil in Hp.
  apply app_eq_nil in Hp as [-> ->]. inversion Hf; subst. cbn [wait_broadcast]. rewrite (own_ok _ _ _ Hs). cbn [obind].
  destruct (sorted_keys _) as [|k l] eqn:E; [done|]. exfalso.
  assert (k ∈ []) as Hk; [apply Hh, sorted_keys_elem; rewrite E; by left|by inversion Hk].
Qed.
End waiting.

Section merging.
Context (bs : Z) (blk : Z -> bytes) (Hbs : 0 < bs < 2 ^ 31) (Hblk : forall id, strlen (blk id) = bs).
Context (me : nat) (ids_of : bytes -> list Z) (tail_of : bytes -> bytes) (P : server -> Prop) (HP : forall m s, P s -> P (set_broadcast m s)).

Abbreviation element_of k := (element blk (ids_of k) (tail_of k)).

(** The blocks of all the elements. *)
Definition all_ids (rem : list bytes) : list Z := concat (ids_of <$> rem).

Definition fit_file (size : Z) (rem : list bytes) : Prop :=
  Forall (fun k => in_file bs size (ids_of k) /\ Forall (fun id => id < 2 ^ 31) (ids_of k)) rem.

Lemma merge_element k file :
  strlen file < 2 ^ 62 -> in_file bs (strlen file) (ids_of k) -> Forall (fun id => id < 2 ^ 31) (ids_of k) ->
  merge_blocks (Z.to_nat (bsize (element_of k))) (data (element_of k)) (bsize (element_of k)) (strlen file) bs 0 file 0
  = Ret (fold_left (place bs blk) (ids_of k) file, Z.of_nat (length (ids_of k)) * bs).
Proof.
  intros Hm Hin Hr. cbn [element bsize data].
  pose proof (merge_blocks_ok bs blk Hbs Hblk (ids_of k) (Z.to_nat (strlen (records blk (ids_of k)))) [] (tail_of k) file 0) as H.
  cbn [app] in H. change (strlen []) with 0 in H. rewrite !Z.add_0_l in H. apply H; try done.
  rewrite (strlen_file_records bs blk Hblk). nia.
Qed.

Lemma merge_loop_ok fuel sched indx n file total w rem :
  awaits me (fun k => element_of k) P sched w rem -> n - indx = Z.of_nat (length rem) -> rem <> [] -> (length rem <= fuel)%nat ->
  strlen file < 2 ^ 62 -> fit_file (strlen file) rem ->
  exists f w', merge_loop me fuel sched indx n (strlen file) bs file total w
      = Ret (f, total + Z.of_nat (length (all_ids rem)) * bs, w') /\
    length f = length file /\
    forall i, f !! i = if decide (Z.of_nat i / bs + 1 ∈ all_ids rem)
                       then blk (Z.of_nat i / bs + 1) !! Z.to_nat (Z.of_nat i mod bs) else file !! i.
Proof.
  revert sched indx file total w rem. induction fuel as [|fuel IH]; intros sched indx file total w rem Ha Hn Hne Hf Hmax Hfit.
  { destruct rem; [done|cbn in Hf; lia]. }
  destruct (wait_step me (fun k => element_of k) P HP sched w rem Ha Hne) as (sched' & k & w' & s' & rem' & Hw & Ho & Hp & Ha').
  unfold fit_file in Hfit. rewrite Hp in Hfit. apply Forall_cons in Hfit as [[Hk1 Hk2] Hfit].
  assert (length rem = S (length rem')) as Hlen by (by rewrite Hp).
  assert (all_ids rem ≡ₚ ids_of k ++ all_ids rem') as Hall by (unfold all_ids; by rewrite Hp).
  cbn [merge_loop]. rewrite Hw. cbn [obind]. rewrite merge_element by done. cbn [obind]. rewrite Ho. cbn [obind].
  set (file' := fold_left (place bs blk) (ids_of k) file).
  assert (length file' = length file) as Hfl by apply (places_spec bs blk Hbs Hblk (ids_of k) file 0%nat Hk1).
  destruct rem' as [|k' rem'].
  - rewrite (proj2 (Z.leb_le _ _)) by (cbn in Hlen; lia).
    cbn in Hall. rewrite app_nil_r in Hall. eexists _, _. rewrite Hall. split; [done|]. split; [done|].
    intros i. destruct (places_spec bs blk Hbs Hblk (ids_of k) file i Hk1) as [_ Hpl]. fold file' in Hpl. rewrite Hpl.
    destruct (decide (_ ∈ ids_of k)), (decide (_ ∈ all_ids rem)) as [H|H]; rewrite Hall in H; tauto.
  - rewrite (proj2 (Z.leb_gt _ _)) by (cbn in Hlen; lia).
    assert (strlen file' = strlen file) as Hsf by (unfold strlen; by rewrite Hfl).
    destruct (IH sched' (indx + 1) file' (total + Z.of_nat (length (ids_of k)) * bs) _ (k' :: rem') Ha') as (f & w2 & Hr & Hl & Hi);
      rewrite ?Hsf; try done; try (cbn in *; lia).
    rewrite Hsf in Hr. rewrite Hr. eexists _, _. rewrite Hall, length_app.
    split; [f_equal; f_equal; f_equal; lia|]. split; [by rewrite Hl|].
    intros i. rewrite Hi. destruct (places_spec bs blk Hbs Hblk (ids_of k) file i Hk1) as [_ Hpl]. fold file' in Hpl. rewrite Hpl.
    destruct (decide (_ ∈ all_ids (k' :: rem'))) as [H1|H1], (decide (_ ∈ ids_of k)) as [H2|H2], (decide (_ ∈ all_ids rem)) as [H3|H3];
      rewrite Hall, elem_of_app in H3; tauto.
Qed.

(** When fewer elements come than servers are waited for, the wait never
    ends. *)
Lemma merge_loop_stuck fuel sched indx n file total w rem :
  awaits me (fun k => element_of k) P sched w rem -> Z.of_nat (length rem) < n - indx ->
  strlen file < 2 ^ 62 -> fit_file (strlen file) rem ->
  merge_loop me fuel sched indx n (strlen file) bs file total w = Undef Deadlock.
Proof.
  revert sched indx file total w rem. induction fuel as [|fuel IH]; intros sched indx file total w rem Ha Hn Hmax Hfit; [done|].
  cbn [merge_loop]. destruct (decide (rem = [])) as [->|Hne].
  { by rewrite (wait_none _ _ _ _ _ Ha). }
  destruct (wait_step me (fun k => element_of k) P HP sched w rem Ha Hne) as (sched' & k & w' & s' & rem' & Hw & Ho & Hp & Ha').
  unfold fit_file in Hfit. rewrite Hp in Hfit, Hn. apply Forall_cons in Hfit as [[Hk1 Hk2] Hfit]. cbn [length] in Hn.
  rewrite Hw. cbn [obind]. rewrite merge_element by done. cbn [obind]. rewrite Ho. cbn [obind].
  rewrite (proj2 (Z.leb_gt _ _)) by lia.
  assert (strlen (fold_left (place bs blk) (ids_of k) file) = strlen file) as Hsf
    by (unfold strlen; f_equal; apply (places_spec bs blk Hbs Hblk (ids_of k) file 0%nat Hk1)).
  rewrite <- Hsf at 1. apply (IH _ _ _ _ _ rem'); rewrite ?Hsf; try done. lia.
Qed.
End merging.

(** ** The messages arrive *)

Section network.
Context (e : env) (u : bytes) (Hu : wire_uri u).
Context (Hmal : forall n, 0 <= n -> exists m, malloc e n = Some m /\ strlen m = n) (Hrecv : recv_ok e = true) (Hsend : send_ok e = true).

Lemma snapset_line size from s msg :
  0 <= size < 2 ^ 32 -> 0 <= from < 2 ^ 31 ->
  srv_worker_helper (with_payload msg e) (snapset_request size u from) s
  = write_op (with_payload msg e) false true (mkReq size 0 (-1) (block_key u from) 0) s.
Proof using Hu.
  intros Hs Hf. destruct (block_key_wire u from Hu Hf) as (Hne & Hns & Hl). unfold snapset_request, srv_worker_helper.
  rewrite scan_mode_word by (done || by repeat constructor). cbn [obind]. rewrite (print_d_u 0) by lia.
  rewrite parse_default by (done || by repeat constructor). by rewrite scan_tail_word.
Qed.

(** The data of server [from] are kept under its number, unless this server
    stores the block of the file with that number. *)
Lemma snapset_kept from msg s :
  0 <= from < 2 ^ 31 -> 0 < strlen msg < 2 ^ 32 -> HierarchicalMapGet (block_key u from) (hr s) = Ret None ->
  buffer_broadcast s !! block_key u from = None ->
  srv_worker_helper (with_payload msg e) (snapset_request (strlen msg) u from) s
  = Ret (0, [Msg MSG_OK_OP], set_broadcast (<[block_key u from := mkBuf msg (strlen msg)]> (buffer_broadcast s)) s).
Proof using Hu Hmal Hrecv Hsend.
  intros Hf Hm Hh Hb. rewrite snapset_line by lia. unfold write_op. cbn [obind]. unfold write_new_msg. cbn [payload with_payload].
  rewrite (proj2 (Z.eqb_neq _ _)) by lia. cbn [key]. rewrite orb_true_r. unfold new_buffer. cbn [malloc with_payload].
  destruct (Hmal (strlen msg)) as (m & -> & Hl); [lia|]. cbn [fmap option_fmap option_map block_offset].
  rewrite write_at_front by lia. cbn [obind recv_ok with_payload]. rewrite Hrecv. cbn [negb].
  rewrite (drop_ge m) by (unfold strlen in Hl; lia). rewrite app_nil_r.
  unfold insert_block. cbn [key set_hr hr]. rewrite Hh. cbn [obind].
  assert (forall x : server, set_hr (hr x) x = x) as Hid by (by intros []). rewrite Hid, Hb. cbn [finish_insert obind].
  unfold say. cbn [send_ok with_payload]. by rewrite Hsend.
Qed.

(** A request for the data of the file is noted once. *)
Lemma broadcast_noted id s :
  u <> [] -> 0 <= id < 2 ^ 31 ->
  srv_worker_helper (with_payload [] e) (broadcast_request u id) s
  = Ret (0, [], match buffer_snapshot s !! u with Some _ => s | None => set_snapshot (<[u := id]> (buffer_snapshot s)) s end).
Proof using Hu.
  intros Hne Hid. destruct Hu as [Hns Hl]. unfold broadcast_request, srv_worker_helper.
  rewrite scan_mode_word by (done || by repeat constructor). cbn [obind].
  change (streq (B "BROADCAST") (B "BROADCAST")) with true. cbv iota. unfold scan_str. rewrite scan_s_sp by done.
  rewrite (proj2 (Z.ltb_lt _ _)) by lia. cbn [obind]. rewrite print_d_u by lia.
  pose proof (scan_d_print id [] ltac:(lia) I) as Hs. rewrite app_nil_r in Hs. rewrite Hs. by rewrite i32_small by lia.
Qed.

Lemma send_to_all_ok eps i from n id w me :
  u <> [] -> 0 <= id < 2 ^ 31 -> n - i <= Z.of_nat (length eps) ->
  (forall j x, eps !! j = Some x -> i + Z.of_nat j <> from -> x <> me /\ (x < length (servers w))%nat) ->
  exists w', send_to_all e eps i from n (broadcast_request u id) w = Ret (1, w') /\
    servers w' !! me = servers w !! me /\ length (servers w') = length (servers w).
Proof using Hu Hsend.
  intros Hne Hid. revert i w. induction eps as [|x eps IH]; intros i w Hn Hx; cbn [send_to_all].
  { rewrite (proj2 (Z.leb_le _ _)) by (cbn in Hn; lia). by exists w. }
  destruct (Z.leb_spec n i); [by exists w|].
  assert (forall w', length (servers w') = length (servers w) ->
            forall j y, eps !! j = Some y -> i + 1 + Z.of_nat j <> from -> y <> me /\ (y < length (servers w'))%nat) as Hx'.
  { intros w' Hw' j y Hy Hj. rewrite Hw'. apply (Hx (S j) y); [done|lia]. }
  destruct (Z.eqb_spec i from) as [->|Hif].
  { apply IH; [cbn in Hn; lia|by apply Hx']. }
  rewrite Hsend. cbn [negb]. destruct (Hx 0%nat x eq_refl) as [Hxm Hxl]; [lia|].
  unfold deliver. rewrite (proj2 (Z.ltb_ge _ _)) by lia. rewrite Nat2Z.id.
  destruct (lookup_lt_is_Some_2 (servers w) x Hxl) as [s Es]. rewrite Es. rewrite broadcast_noted by done. cbn [obind].
  match goal with |- context [send_to_all _ _ _ _ _ _ ?w1] => destruct (IH (i + 1) w1) as (w' & Hr & Hm & Hl) end.
  { cbn in Hn. lia. } { apply Hx'. cbn. by rewrite length_insert. }
  rewrite Hr. exists w'. split; [done|]. rewrite Hm, Hl. cbn. rewrite length_insert. by rewrite list_lookup_insert_ne by done.
Qed.
End network.

(** ** The disk *)

(** Every [write] takes at least one byte. *)
Definition writable (md : medium) : Prop := forall k n, 0 < n -> 0 < takes md k n <= n.

Lemma overwrite_next (buffer old : bytes) (w n : nat) :
  (w + n <= length buffer)%nat ->
  overwrite (take w buffer ++ drop w old) (Z.of_nat w) (take n (drop w buffer)) = take (w + n) buffer ++ drop (w + n) old.
Proof.
  intros Hl. unfold overwrite. rewrite Nat2Z.id.
  set (f := take w buffer ++ drop w old). set (z := repeat NUL _).
  assert (length (take n (drop w buffer)) = n) as Hn by (rewrite length_take, length_drop; lia).
  assert (length (take w buffer) = w) as Hw by (rewrite length_take; lia). rewrite Hn.
  assert (take w (f ++ z) = take w buffer) as ->.
  { unfold f. rewrite <- app_assoc. by apply take_app_length'. }
  rewrite app_assoc, take_take_drop. f_equal.
  assert (length f = w + (length old - w))%nat as Hf by (unfold f; rewrite length_app, length_drop; lia).
  destruct (decide (w + n <= length old)%nat).
  - assert (z = []) as -> by (unfold z; rewrite Hn; by replace (w + n - length f)%nat with 0%nat by lia).
    rewrite app_nil_r. unfold f. rewrite drop_app_ge by lia. rewrite Hw, drop_drop. f_equal. lia.
  - rewrite !drop_ge; [done|lia|]. rewrite length_app. unfold z. rewrite repeat_length, Hn. lia.
Qed.

Lemma write_disk_ok md path buffer old dirs fuel w m :
  writable md -> (w <= length buffer)%nat -> (length buffer - w <= fuel)%nat -> m !! path = Some (take w buffer ++ drop w old) ->
  write_disk md fuel (Some path) buffer (strlen buffer) (Z.of_nat w) (mkDisk m dirs)
  = Ret (strlen buffer, mkDisk (<[path := buffer ++ drop (length buffer) old]> m) dirs).
Proof.
  intros Hm. revert w m. induction fuel as [|fuel IH]; intros w m Hw Hf Hp; cbn [write_disk].
  - assert (w = length buffer) as -> by lia. unfold strlen. rewrite Z.ltb_irrefl. cbn [negb].
    rewrite firstn_all in Hp. by rewrite insert_id.
  - destruct (Z.ltb_spec (Z.of_nat w) (strlen buffer)); cbn [negb].
    2: { assert (w = length buffer) as -> by (unfold strlen in *; lia). rewrite firstn_all in Hp. by rewrite insert_id. }
    destruct (Hm (Z.of_nat w) (strlen buffer - Z.of_nat w)) as [H1 H2]; [lia|].
    set (t := takes md _ _) in *. rewrite (proj2 (Z.ltb_ge _ _)) by lia. unfold strlen in H2.
    unfold read_at at 1. rewrite !(proj2 (Z.leb_le _ _)) by (unfold strlen; lia). cbn [andb obind dfiles ddirs]. rewrite Nat2Z.id.
    replace (Z.of_nat w + t) with (Z.of_nat (w + Z.to_nat t)) by lia.
    rewrite IH; [|lia|lia|].
    + f_equal. f_equal. f_equal. by rewrite insert_alter_eq.
    + rewrite lookup_alter_eq, Hp. cbn. by rewrite overwrite_next by lia.
Qed.

(** The file holds the buffer; what an older file had behind it stays. *)
Lemma save_ok md dir name buffer d fd d' :
  writable md -> Open_file md dir name d = Ret (Some fd, d') ->
  exists d2, Write_2_disk md (Some fd) buffer (strlen buffer) d' = Ret (strlen buffer, d2) /\
    dfiles d2 !! (dir ++ slash :: name)
    = Some (buffer ++ drop (length buffer) (default [] (dfiles d !! (dir ++ slash :: name)))).
Proof.
  intros Hm. unfold Open_file. destruct (strlen (dir ++ slash :: name) <? PATH_MAX); [|done]. cbn [guard obind].
  destruct (openable _ _); [|done]. intros [= <- <-]. unfold Write_2_disk. set (path := dir ++ slash :: name).
  destruct (dfiles d !! path) as [old|] eqn:E; cbn [default from_option id].
  - rewrite (write_disk_ok md path buffer old (ddirs d) _ 0 (dfiles d)); try done; [|lia|unfold strlen; lia].
    eexists. split; [done|]. cbn. apply lookup_insert_eq.
  - rewrite (write_disk_ok md path buffer [] (ddirs d) _ 0 (<[path := []]> (dfiles d)));
      [|done|lia|unfold strlen; lia|apply lookup_insert_eq].
    eexists. split; [done|]. cbn. apply lookup_insert_eq.
Qed.

(** ** A snapshot of a file *)

(** Block [id] of a file of full blocks. *)
Definition block_of (content : bytes) (bs id : Z) : bytes :=
  take (Z.to_nat bs) (drop (Z.to_nat ((id - 1) * bs)) content ++ repeat NUL (Z.to_nat bs)).

Lemma strlen_block_of content bs id : 0 <= bs -> strlen (block_of content bs id) = bs.
Proof. intros H. unfold block_of, strlen. rewrite length_take, length_app, repeat_length. lia. Qed.

Lemma strlen_block_of' content bs : 0 < bs < 2 ^ 31 -> forall id, strlen (block_of content bs id) = bs.
Proof. intros H id. apply strlen_block_of. lia. Qed.

Section cluster.
Context (e : env) (conns : list nat) (me : nat) (u : bytes) (bs : Z) (content : bytes) (n id : Z).
Context (part : Z -> list Z) (buf : Z -> gmap bytes (BufferValue bytes)).

(** [n] servers, this one being number [id], hold the full blocks of the file
    between them, each block once. *)
Record spread : Prop := {
  sp_name : file_name u;
  sp_wire : wire_uri u;
  sp_block : 0 < bs < 2 ^ 31;
  sp_size : 0 < strlen content < 2 ^ 29;
  sp_count : 0 <= id < n /\ n < 2 ^ 31;
  sp_sorted : forall j, 0 <= j < n -> StronglySorted Z.lt (part j);
  sp_once : concat (part <$> seqZ 0 n) ≡ₚ seqZ 1 (strlen content / bs);
  sp_full : strlen content mod bs = 0;
  sp_held : forall j, 0 <= j < n -> holds_blocks u bs (block_of content bs) (buf j) (part j)
}.

(** Memory and network work, and the connections lead to the servers. *)
Record reachable_servers (w : world) : Prop := {
  rs_malloc : forall k, 0 <= k -> exists m, malloc e k = Some m /\ strlen m = k;
  rs_recv : recv_ok e = true;
  rs_send : send_ok e = true;
  rs_conns : Z.of_nat (length conns) = n;
  rs_me : conns !! Z.to_nat id = Some me;
  rs_others : forall j x, conns !! j = Some x -> Z.of_nat j <> id -> x <> me /\ (x < length (servers w))%nat
}.

(** What server [j] does when it is asked: the part of [snapshot_answer] that
    reaches the server that waits. *)
Definition answer (j : Z) (w : world) : outcome world :=
  let* c := GetDataOfFile e (buf j) u in
  match c with
  | None => Ret w
  | Some (b, size) => let* (_, w) := set_data_server_reduce e conns true j id b size u w in Ret w
  end.

Context (SP : spread).

Lemma part_ids j x : 0 <= j < n -> x ∈ part j -> 1 <= x /\ x * bs <= strlen content.
Proof using SP.
  intros Hj Hx. assert (x ∈ seqZ 1 (strlen content / bs)) as Hs.
  { rewrite <- (sp_once SP). apply list_elem_of_In, in_concat. exists (part j). split; [|by apply list_elem_of_In].
    apply list_elem_of_In, list_elem_of_fmap_2. apply elem_of_seqZ. lia. }
  apply elem_of_seqZ in Hs. pose proof (sp_block SP). pose proof (Z.mul_div_le (strlen content) bs ltac:(lia)). nia.
Qed.

Lemma part_numbers j : 0 <= j < n -> block_numbers (part j).
Proof using SP.
  intros Hj. split; [by apply (sp_sorted SP)|]. apply Forall_forall. intros x Hx.
  destruct (part_ids j x Hj Hx). pose proof (sp_block SP). pose proof (sp_size SP). nia.
Qed.

Lemma part_length j : 0 <= j < n -> Z.of_nat (length (part j)) * bs <= strlen content.
Proof using SP.
  intros Hj. assert (length (part j) <= length (concat (part <$> seqZ 0 n)))%nat as Hl.
  { assert (j ∈ seqZ 0 n) as Hs by (apply elem_of_seqZ; lia). apply list_elem_of_split in Hs as (l1 & l2 & ->).
    rewrite fmap_app, concat_app. cbn [fmap list_fmap concat]. rewrite !length_app. lia. }
  rewrite (sp_once SP), length_seqZ in Hl. pose proof (sp_block SP). pose proof (sp_size SP).
  pose proof (Z.mul_div_le (strlen content) bs ltac:(lia)). pose proof (Z.div_pos (strlen content) bs ltac:(lia) ltac:(lia)). nia.
Qed.

Abbreviation blk := (block_of content bs).

Lemma blk_length x : strlen (blk x) = bs.
Proof using SP. apply strlen_block_of. pose proof (sp_block SP). lia. Qed.

Lemma part_memory j : 0 <= j < n -> part j <> [] -> fits_memory bs (part j) /\ 0 < strlen (records blk (part j)) < 2 ^ 32.
Proof using SP.
  intros Hj Hne. rewrite (strlen_file_records bs blk blk_length). pose proof (part_length j Hj). pose proof (sp_block SP).
  pose proof (sp_size SP). assert (0 < Z.of_nat (length (part j))) by (destruct (part j); [done|cbn; lia]).
  unfold fits_memory. nia.
Qed.

Lemma collected j w :
  0 <= j < n -> part j <> [] -> reachable_servers w ->
  GetDataOfFile e (buf j) u = Ret (Some (records blk (part j) ++ [NUL], strlen (records blk (part j)))).
Proof using SP.
  intros Hj Hne RS. rewrite (GetDataOfFile_ok u bs blk (sp_name SP) (sp_block SP) blk_length e (buf j) (part j)); try done.
  - apply (rs_malloc _ RS).
  - by apply part_numbers.
  - by apply (sp_held SP).
  - by apply part_memory.
Qed.

(** The blocks under a key of [buffer_broadcast], and the terminator of this
    server's own data. *)
Definition ids_of (k : bytes) : list Z := match split_key k with Ret (_, j) => part j | _ => [] end.
Definition tail_of (k : bytes) : bytes := if bool_decide (k = block_key u id) then [NUL] else [].

Lemma ids_of_key j : 0 <= j < n -> ids_of (block_key u j) = part j.
Proof using SP. intros Hj. unfold ids_of. pose proof (sp_count SP). by rewrite split_key_block by (apply (sp_name SP) || lia). Qed.

(** The store of this server has none of the keys. *)
Definition no_clash (s : server) : Prop :=
  forall j, 0 <= j < n -> j <> id -> HierarchicalMapGet (block_key u j) (hr s) = Ret None.

Lemma answer_brings w0 j :
  reachable_servers w0 -> 0 <= j < n -> part j <> [] -> j <> id ->
  brings me (fun k => element blk (ids_of k) (tail_of k)) no_clash (answer j) (block_key u j).
Proof using SP.
  intros RS Hj Hne Hji w s Hs HP Hk. pose proof (sp_count SP) as Hc. unfold answer. rewrite (collected j w0 Hj Hne RS). cbn [obind].
  unfold set_data_server_reduce. rewrite u32_small by lia. rewrite (rs_me _ RS), (rs_send _ RS). cbn [negb].
  destruct (part_memory j Hj Hne) as [_ Hm]. rewrite read_at_prefix by done. cbn [obind]. unfold deliver.
  rewrite (proj2 (Z.ltb_ge _ _)) by lia. rewrite Nat2Z.id, Hs.
  rewrite (snapset_kept e u (sp_wire SP) (rs_malloc _ RS) (rs_recv _ RS) (rs_send _ RS)); try done; [|lia|by apply HP].
  cbn [obind]. eexists _, _. split; [done|]. cbn [servers]. split; [apply list_lookup_insert_eq; by eapply lookup_lt_Some|].
  split; [done|]. cbn. rewrite ids_of_key by done. unfold element, tail_of. rewrite bool_decide_eq_false_2.
  - by rewrite app_nil_r.
  - intros E. apply block_key_inj in E; lia.
Qed.

(** This server's element and those of the servers [js] are awaited. *)
Lemma copy_awaits w s js :
  reachable_servers w -> servers w !! me = Some s -> buffer_broadcast s = ∅ -> no_clash s -> NoDup (id :: js) ->
  Forall (fun j => 0 <= j < n /\ part j <> []) (id :: js) ->
  awaits me (fun k => element blk (ids_of k) (tail_of k)) no_clash (answer <$> js)
    (set_own me (put_broadcast (block_key u id) (records blk (part id) ++ [NUL]) (strlen (records blk (part id))) s) w)
    (block_key u <$> id :: js).
Proof using SP.
  intros RS Hs Hb Hnc Hnd Hjs. pose proof (sp_count SP) as Hc. rewrite Forall_forall in Hjs. unfold put_broadcast. rewrite Hb, lookup_empty.
  eexists _, [block_key u id], (block_key u <$> js). split; [by eapply set_own_lookup|]. split; [done|]. split; [done|].
  split; [|split; [|split]].
  - apply NoDup_fmap_2_strong; [|done]. intros x y Hx Hy E. apply Hjs in Hx as [Hx _], Hy as [Hy _]. apply block_key_inj in E; lia.
  - intros k. cbn. rewrite list_elem_of_singleton. split; [intros ->; rewrite lookup_insert_eq; eauto|].
    intros [v [[-> _]|[_ Hv]]%lookup_insert_Some]; [done|by rewrite lookup_empty in Hv].
  - intros k v. cbn [buffer_broadcast set_broadcast]. intros [[<- <-]|[_ Hv]]%lookup_insert_Some; [|by rewrite lookup_empty in Hv].
    rewrite ids_of_key by lia. unfold element, tail_of. by rewrite bool_decide_eq_true_2.
  - apply Forall2_fmap, Forall_Forall2_diag, Forall_forall. intros j Hj. destruct (Hjs j) as [H1 H2]; [by right|].
    apply (answer_brings w); try done. apply NoDup_cons in Hnd as [Hn _]. by intros ->.
Qed.

Lemma copy_fits js : Forall (fun j => 0 <= j < n /\ part j <> []) js -> fit_file bs ids_of (strlen content) (block_key u <$> js).
Proof using SP.
  intros Hjs. apply Forall_fmap. eapply Forall_impl; [exact Hjs|]. intros j [Hj _]. cbn. rewrite ids_of_key by done.
  destruct (part_numbers j Hj) as [_ Hr]. split.
  - apply Forall_forall. intros x Hx. by apply (part_ids j).
  - eapply Forall_impl; [exact Hr|]. cbn. lia.
Qed.

Lemma no_clash_frame m s : no_clash s -> no_clash (set_broadcast m s).
Proof. done. Qed.

End cluster.

Section copying.
Context (e : env) (conns : list nat) (md : medium) (me : nat) (a : snap_args) (u : bytes) (bs : Z) (content : bytes) (n id : Z).
Context (part : Z -> list Z) (buf : Z -> gmap bytes (BufferValue bytes)).

Abbreviation answers js := (answer e conns u id buf <$> js).
Abbreviation spread_here := (spread u bs content n id part buf).

(** The message to the others, and the data of this server. *)
Lemma copy_starts w s js fuel sched dir hostname d :
  spread_here -> reachable_servers e conns me n id w -> servers w !! me = Some s -> sa_id a = id -> sa_buffer a = buf id ->
  Forall (fun j => 0 <= j < n /\ part j <> []) (id :: js) ->
  exists w1, servers w1 !! me = Some s /\ reachable_servers e conns me n id w1 /\
    copy_file e conns md me a fuel sched u n (strlen content) bs dir hostname w d
    = (let* (merged, w) := MergeData e me fuel sched n (strlen content) bs
         (set_own me (put_broadcast (block_key u id) (records (block_of content bs) (part id) ++ [NUL])
            (strlen (records (block_of content bs) (part id))) s) w1) in
       match merged with
       | None => Ret (false, w, d)
       | Some (file, k) =>
           let* (fd, d) := Open_file md dir hostname d in
           let* (_, d) := Write_2_disk md fd file k d in
           Ret (true, w, d)
       end).
Proof.
  intros SP RS Hs Ha Hb Hjs. apply Forall_cons in Hjs as [[Hid Hne] _]. unfold copy_file, SendBroadcastMessage. rewrite Ha, Hb.
  pose proof (sp_count _ _ _ _ _ _ _ SP) as Hc.
  destruct (send_to_all_ok e u (sp_wire _ _ _ _ _ _ _ SP) (rs_send _ _ _ _ _ _ RS) conns 0 id n id w me)
    as (w1 & -> & Hm & Hl); [|lia|pose proof (rs_conns _ _ _ _ _ _ RS); lia| |].
  { destruct (sp_name _ _ _ _ _ _ _ SP) as [[q ->] _]. done. }
  { intros j x Hj Hx. by apply (rs_others _ _ _ _ _ _ RS j x). }
  cbn [obind]. assert (reachable_servers e conns me n id w1) as RS1 by (destruct RS; split; rewrite ?Hl; done).
  exists w1. split; [by rewrite Hm|]. split; [done|].
  rewrite (collected e conns me u bs content n id part buf SP id w1) by done. cbn [obind].
  rewrite (own_ok me w1 s) by (by rewrite Hm). done.
Qed.

(** Were the maps filled: a server without a block of the file sends nothing, so the
    snapshot of a file that does not reach every server waits for ever. *)
Theorem snapshot_waits_for_empty_server (js : list Z) (j0 : Z) (fuel : nat) (dir hostname : bytes) (w : world) (s : server) (d : disk)
  (SP : spread u bs content n id part buf) (RS : reachable_servers e conns me n id w) (Hs : servers w !! me = Some s)
  (Hb : buffer_broadcast s = ∅) (Hnc : no_clash u n id s) (Hj0 : 0 <= j0 < n) (Hempty : part j0 = [])
  (Hnd : NoDup (id :: js)) (Hjs : Forall (fun j => 0 <= j < n /\ part j <> []) (id :: js))
  (Ha : sa_id a = id) (Hbuf : sa_buffer a = buf id) :
  answer e conns u id buf j0 w = Ret w /\
  copy_file e conns md me a fuel (answers js) u n (strlen content) bs dir hostname w d = Undef Deadlock.
Proof.
  split.
  { unfold answer, GetDataOfFile. pose proof (collected_keys u bs (block_of content bs) (sp_name _ _ _ _ _ _ _ SP) (buf j0) (part j0)
      (part_numbers u bs content n id part buf SP j0 Hj0) (sp_held _ _ _ _ _ _ _ SP j0 Hj0)) as Hk.
    rewrite Hempty in Hk. apply Permutation_nil_r in Hk. by rewrite Hk. }
  destruct (copy_starts w s js fuel (answers js) dir hostname d SP RS Hs Ha Hbuf Hjs) as (w1 & Hs1 & RS1 & ->).
  pose proof (copy_awaits e conns me u bs content n id part buf SP w1 s js RS1 Hs1 Hb Hnc Hnd Hjs) as Haw.
  pose proof (sp_size _ _ _ _ _ _ _ SP) as Hsz. pose proof (sp_block _ _ _ _ _ _ _ SP) as Hbs.
  unfold MergeData. rewrite (proj2 (Z.leb_gt _ _)) by lia. rewrite u64_small by lia.
  destruct (rs_malloc _ _ _ _ _ _ RS1 (strlen content)) as (m & -> & Hm); [lia|].
  assert (Z.of_nat (length (block_key u <$> id :: js)) < n - 0) as Hlen.
  { rewrite length_fmap. assert (id :: js ⊆+ seqZ 0 n) as Hsub.
    { apply NoDup_submseteq; [done|]. intros x Hx. rewrite Forall_forall in Hjs. apply elem_of_seqZ. apply Hjs in Hx. lia. }
    assert (NoDup (j0 :: id :: js)) as Hnd2.
    { constructor; [|done]. intros Hx. rewrite Forall_forall in Hjs. by apply Hjs in Hx as [_ ?]. }
    assert (j0 :: id :: js ⊆+ seqZ 0 n) as Hl%submseteq_length.
    { apply NoDup_submseteq; [done|]. intros x. rewrite elem_of_cons, elem_of_seqZ. intros [->|Hx]; [lia|].
      rewrite Forall_forall in Hjs. apply Hjs in Hx. lia. }
    rewrite length_seqZ in Hl. cbn in *. lia. }
  pose proof (merge_loop_stuck bs (block_of content bs) Hbs (strlen_block_of' content bs Hbs) me (ids_of part) (tail_of u id)
    (no_clash u n id) (no_clash_frame u n id) fuel (answers js) 0 n m 0 _ (block_key u <$> id :: js) Haw Hlen) as Hst.
  rewrite Hm in Hst. rewrite Hst; [done|lia|]. by apply (copy_fits u bs content n id part buf SP).
Qed.
End copying.

(** ** Where snapshots go wrong *)

(** A small file, whose only block is not full: the rest of
    the block is taken for further records, and the copy runs out of the
    buffers. *)
Theorem partial_block_breaks_merge (e : env) (me : nat) (fuel : nat) (r bs : Z) (k d rest tail : bytes) (w : world) (s : server) (m : bytes)
  (Hr : 0 < r) (Hd : strlen d = r) (Hbs : strlen d + 4 + strlen rest = bs) (Hmax : bs < 2 ^ 31) (Htail : strlen tail <= 1)
  (Hs : servers w !! me = Some s)
  (Hb : buffer_broadcast s = {[k := element (fun _ => d ++ repeat NUL 4 ++ rest) [1] tail]})
  (Hm : malloc e r = Some m) (Hml : strlen m = r) :
  MergeData e me (S fuel) [] 1 r bs w = Undef OutOfBounds.
Proof.
  pose proof (strlen_nonneg rest). unfold MergeData. rewrite (proj2 (Z.leb_gt _ _)) by lia. rewrite u64_small, Hm by lia.
  cbn [merge_loop wait_broadcast]. rewrite (own_ok _ _ _ Hs). cbn [obind]. rewrite Hb.
  unfold sorted_keys. rewrite map_to_list_singleton. cbn [fmap list_fmap foldr insert_key fst]. rewrite lookup_singleton_eq. cbn [obind].
  set (blk := fun _ : Z => d ++ repeat NUL 4 ++ rest).
  assert (forall x, strlen (blk x) = bs) as Hblk by (intros x; unfold blk; rewrite !strlen_app; change (strlen (repeat NUL 4)) with 4; lia).
  cbn [element bsize data]. rewrite (strlen_file_records bs blk Hblk). cbn [length].
  replace (Z.of_nat 1 * (bs + 4)) with (bs + 4) by lia.
  assert (records blk [1] ++ tail = le_put 4 1 ++ d ++ repeat NUL 4 ++ rest ++ tail) as ->
    by (unfold records, record, blk; cbn [fmap list_fmap concat]; by rewrite <- !app_assoc, app_nil_l).
  destruct (Z.to_nat (bs + 4)) as [|[|f]] eqn:Ef; [lia|lia|]. cbn [merge_blocks].
  rewrite (proj2 (Z.ltb_lt 0 _)) by lia. cbn [negb].
  pose proof (read_mid [] (le_put 4 1) (d ++ repeat NUL 4 ++ rest ++ tail) 0 4 eq_refl eq_refl) as R1. cbn [app] in R1.
  rewrite R1. cbn [obind]. rewrite get_i32_put by lia. change (1 =? - 2 ^ 31) with false. cbn [negb guard obind].
  rewrite Z.sub_diag, Z.mul_0_l. change (i64 (u64 0)) with 0. rewrite Z.add_0_r, Z.sub_0_r. rewrite !u64_small by lia.
  rewrite (proj2 (Z.ltb_lt r bs)) by lia. rewrite Z.add_0_l.
  rewrite (read_mid (le_put 4 1) d (repeat NUL 4 ++ rest ++ tail)) by (done || lia). cbn [obind].
  rewrite write_at_front by lia. cbn [obind]. rewrite (proj2 (Z.ltb_lt _ _)) by lia. cbn [negb].
  rewrite (app_assoc (le_put 4 1)).
  rewrite (read_mid (le_put 4 1 ++ d) (repeat NUL 4)) by (try done; rewrite strlen_app; change (strlen (le_put 4 1)) with 4; lia).
  cbn [obind]. change (get_i32 (repeat NUL 4)) with 0. change (0 =? - 2 ^ 31) with false. cbn [negb guard obind].
  replace (i64 (u64 ((0 - 1) * bs))) with (- bs).
  2: { unfold u64, i64. replace ((0 - 1) * bs) with (2 ^ 64 - bs + (-1) * 2 ^ 64) by lia. rewrite Z.mod_add by lia.
       rewrite (Z.mod_small (2 ^ 64 - bs)) by lia. replace (2 ^ 64 - bs + 2 ^ 63) with (2 ^ 63 - bs + 1 * 2 ^ 64) by lia.
       rewrite Z.mod_add by lia. rewrite Z.mod_small by lia. lia. }
  replace (bs + - bs) with 0 by lia. change (u64 0) with 0. rewrite (proj2 (Z.ltb_ge _ _)) by lia.
  unfold read_at at 1. rewrite (proj2 (Z.leb_gt (r + 4 + 4 + bs) _)); [by rewrite andb_false_r|].
  rewrite !strlen_app. change (strlen (le_put 4 1)) with 4. change (strlen (repeat NUL 4)) with 4. lia.
Qed.

(** The data of server [from] are sent under the key of block
    number [from]: a server that stores this block takes them for a second
    write of the block, which is overwritten, or overrun when they are longer;
    the snapshot does not get them. *)
Theorem snapset_overwrites_block (e : env) (u msg : bytes) (from : Z) (s : server) (v : BufferValue bytes)
  (Hu : wire_uri u) (Hf : 0 <= from < 2 ^ 31) (Hm : 0 < strlen msg < 2 ^ 32)
  (Hmal : forall n, 0 <= n -> exists m, malloc e n = Some m /\ strlen m = n) (Hrecv : recv_ok e = true) (Hsend : send_ok e = true)
  (Hv : HierarchicalMapGet (block_key u from) (hr s) = Ret (Some v)) :
  let run := srv_worker_helper (with_payload msg e) (snapset_request (strlen msg) u from) s in
  if strlen msg <=? strlen (data v)
  then exists s', run = Ret (0, [Msg MSG_OK_OP], s') /\ buffer_broadcast s' = buffer_broadcast s /\
         HierarchicalMapGet (block_key u from) (hr s') = Ret (Some (mkBuf (msg ++ drop (length msg) (data v)) (bsize v)))
  else run = Undef OutOfBounds.
Proof.
  cbv zeta. rewrite snapset_line by (done || lia). unfold write_op. cbn [obind]. unfold write_new_msg. cbn [payload with_payload].
  rewrite (proj2 (Z.eqb_neq _ _)) by lia. cbn [key]. rewrite orb_true_r. unfold new_buffer. cbn [malloc with_payload].
  destruct (Hmal (strlen msg)) as (m & -> & Hl); [lia|]. cbn [fmap option_fmap option_map block_offset].
  rewrite write_at_front by lia. cbn [obind recv_ok with_payload]. rewrite Hrecv. cbn [negb].
  rewrite (drop_ge m) by (unfold strlen in Hl; lia). rewrite app_nil_r.
  assert (forall x : server, set_hr (hr x) x = x) as Hid by (by intros []). rewrite Hid.
  unfold insert_block. cbn [key block_offset]. rewrite Hv. cbn [obind].
  pose proof (read_at_prefix msg [] (strlen msg) eq_refl) as Hrd. rewrite app_nil_r in Hrd. rewrite Hrd. cbn [obind].
  destruct (Z.leb_spec (strlen msg) (strlen (data v))) as [Hle|Hgt].
  - rewrite write_at_front by done. cbn [obind].
    destruct (store_block_ok (block_key u from) v (mkBuf (msg ++ drop (length msg) (data v)) (bsize v)) (hr s) Hv) as [h Hh].
    rewrite Hh. cbn [obind finish_insert]. unfold say. cbn [send_ok with_payload]. rewrite Hsend.
    eexists. split; [done|]. split; [done|]. cbn [hr set_hr]. by apply (store_block_get _ _ _ _ Hh).
  - unfold write_at. rewrite (proj2 (Z.leb_gt (0 + strlen msg) _)) by lia. by rewrite andb_false_r.
Qed.

Section idle.
Context (e : env) (menv_of : Z -> menv) (matching_server_id imssd_pos : Z) (stack : bytes).
Context (conns : list nat) (data_sent : bool) (md : medium) (me : nat) (a : snap_args).
Context (stray : bytes * Z) (fuel : nat) (sched : list (world -> outcome world)).
Context (Hempty : sa_buffer a = ∅).

Abbreviation run := (Snapshot e menv_of matching_server_id imssd_pos stack conns data_sent md me a stray fuel sched).

(** The entries of this server name block 0 of a file. *)
Definition entries_named (s : server) : Prop :=
  forall k, buffer_snapshot s !! k = Some (-1) -> exists u, k = block_key u 0 /\ rooted u /\ (dollar ∉ u) /\ strlen u < PATH_MAX.

Lemma collect_nothing u : GetDataOfFile e (∅ : gmap bytes (BufferValue bytes)) u = Ret None.
Proof. done. Qed.

Lemma loop_idle keys n bs f d s dir hostname :
  servers (wld (sess f)) !! me = Some s -> entries_named s -> Forall (fun k => is_Some (buffer_snapshot s !! k)) keys ->
  snapshot_loop e menv_of matching_server_id imssd_pos stack conns data_sent md me a stray fuel sched keys n bs 0 0 dir hostname f d
  = Ret (0, f, d).
Proof using Hempty.
  intros Hs Hn. induction 1 as [|k keys [o Ho] _ IH]; [done|]. cbn [snapshot_loop]. rewrite (own_ok _ _ _ Hs). cbn [obind].
  rewrite Ho. destruct (Z.eqb_spec o (-1)) as [->|Hne].
  - destruct (Hn k Ho) as (u & -> & [q ->] & Hd & Hl). pose proof (base_key_app _ (print_d 0) Hd) as Hb.
    unfold snapshot_own. unfold block_key. rewrite Hb. rewrite strchr_app_first by done.
    rewrite drop_app_ge, Nat.sub_succ_l, Nat.sub_diag by lia. change (drop 1 (dollar :: print_d 0)) with (print_d 0).
    change (print_d 0) with (B "0"). cbn [B String.list_ascii_of_string]. change (stoi _) with (Some 0).
    rewrite (proj2 (Nat.ltb_ge _ _)) by (rewrite length_app; lia). rewrite drop_app_length.
    rewrite (proj2 (Z.ltb_lt _ _) Hl). cbn [guard obind Z.ltb Z.compare andb]. change (0 <? 0) with false. cbn [andb].
    rewrite Hempty, lookup_empty. destruct (negb (is_block_zero _)); cbn [obind app]; exact IH.
  - unfold snapshot_answer. rewrite Hempty, collect_nothing. cbn [obind]. destruct k; cbn [obind]; exact IH.
Qed.

(** The handler stores blocks in the hierarchical map and
    never in the map of the thread, where [Snapshot] looks for them: it copies
    nothing and sends nothing, whatever it is asked for. *)
Theorem snapshot_copies_nothing (block_size : Z) (dir hostname : bytes) (f : fsys) (d : disk) (s : server)
  (Hs : servers (wld (sess f)) !! me = Some s) (Hn : entries_named s) (Ha : sa_nodes a <> Some None) :
  run block_size dir hostname f d = Ret (0, f, d).
Proof using Hempty.
  unfold Snapshot. destruct (get_number_of_active_nodes (sa_nodes a)) as [n| |] eqn:E;
    try (destruct (sa_nodes a) as [[]|]; done).
  cbn [obind]. rewrite (own_ok _ _ _ Hs). cbn [obind]. apply (loop_idle _ _ _ _ _ s); try done.
  apply Forall_forall. intros k. apply sorted_keys_elem.
Qed.

(** The thread ends at the first signal it gets. *)
Theorem snapshot_thread_ends (rounds : nat) (wakes : list (fsys -> outcome fsys)) (act : fsys -> outcome fsys)
  (finish : bool) (blocksize : Z) (dir hostname : bytes) (f f' : fsys) (d : disk) (s : server)
  (Hs : servers (wld (sess f)) !! me = Some s) (Hn : entries_named s) (Ha : sa_nodes a <> Some None) (Hact : act f = Ret f')
  (Hdir : dir <> []) :
  Snapshot_thread e menv_of matching_server_id imssd_pos stack conns data_sent md me a stray fuel sched finish (S rounds)
    (act :: wakes) blocksize dir hostname f d = Ret (f', d).
Proof using Hempty.
  unfold Snapshot_thread. destruct dir as [|c dir]; [done|]. cbn [snapshot_rounds]. unfold Snapshot.
  destruct (get_number_of_active_nodes (sa_nodes a)) as [n| |] eqn:E; try (destruct (sa_nodes a) as [[]|]; done).
  cbn [obind]. rewrite (own_ok _ _ _ Hs). cbn [obind]. rewrite (loop_idle _ _ _ _ _ s); try done.
  - cbn [obind Z.eqb negb]. rewrite Hact. cbn [obind]. rewrite Hempty. done.
  - apply Forall_forall. intros k. apply sorted_keys_elem.
Qed.
End idle.

(** ** Examples *)

Definition snap_file : bytes := B "imss://f".
Definition two_servers : world := mkWorld [sample_server; sample_server] [] ∅ [].
Definition good_disk : medium := mkMedium (fun _ n => Z.min n 3) (fun _ => true) (fun _ => true).
Definition lonely (j : Z) : list Z := if j =? 0 then [1; 2] else [].
Definition held (part : Z -> list Z) (j : Z) : gmap bytes (BufferValue bytes) :=
  list_to_map ((fun i => (block_key snap_file i, mkBuf (block_of (B "abcdefgh") 4 i) 4)) <$> part j).
Definition first_args (part : Z -> list Z) : snap_args := mkSnapArgs 0 (B "RR") [] (Some (Some (B "2"))) (held part 0).

Lemma held_ok part j : NoDup (part j) -> Forall (fun i => 0 <= i < 2 ^ 31) (part j) ->
  holds_blocks snap_file 4 (block_of (B "abcdefgh") 4) (held part j) (part j).
Proof.
  intros Hnd Hr k v _ _. unfold held. rewrite Forall_forall in Hr. rewrite <- elem_of_list_to_map.
  - rewrite list_elem_of_fmap. split; [intros (i & [= -> ->] & Hi); eauto|intros (i & Hi & -> & ->); eauto].
  - rewrite <- list_fmap_compose. apply NoDup_fmap_2_strong; [|done]. intros x y Hx Hy E. apply Hr in Hx, Hy.
    apply (block_key_inj snap_file); [lia|lia|exact E].
Qed.

Lemma snap_file_ok : file_name snap_file /\ wire_uri snap_file.
Proof.
  split; [split; [by exists (B "f")|split; [done|apply strchr_None; reflexivity]]|]. split; [by repeat constructor|vm_compute; done].
Qed.

Lemma malloc_zeroed k : 0 <= k -> exists m, malloc (big_env 4) k = Some m /\ strlen m = k.
Proof. intros Hk. destruct (zeroed_some k Hk) as [m Hm]. exists m. split; [exact Hm|by apply zeroed_length]. Qed.

Lemma two_servers_reached : reachable_servers (big_env 4) [0; 1]%nat 0 2 0 two_servers.
Proof.
  split; [apply malloc_zeroed|done..|]. intros [|[|j]] x Hj Hn; [done| |done]. injection Hj as <-. split; [done|cbn; lia].
Qed.

Lemma no_clash_sample : no_clash snap_file 2 0 sample_server.
Proof. intros j Hj Hn. assert (j = 1) as -> by lia. vm_compute. reflexivity. Qed.

Lemma lonely_spread : spread snap_file 4 (B "abcdefgh") 2 0 lonely (held lonely).
Proof.
  split; try apply snap_file_ok; try done.
  - intros j _. unfold lonely. destruct (j =? 0); repeat constructor.
  - intros j _. apply held_ok; unfold lonely; destruct (j =? 0); repeat constructor; try lia; try (by inversion 1).
    intros H%list_elem_of_singleton. lia.
Qed.

Lemma snapshot_waits_for_empty_server_witness :
  copy_file (big_env 4) [0; 1]%nat good_disk 0 (first_args lonely) 9 [] snap_file 2 8 4 (B "/snap") (B "node0") two_servers
    (mkDisk ∅ ∅) = Undef Deadlock.
Proof.
  destruct (snapshot_waits_for_empty_server (big_env 4) [0; 1]%nat good_disk 0 (first_args lonely) snap_file 4 (B "abcdefgh") 2 0
    lonely (held lonely) [] 1 9 (B "/snap") (B "node0") two_servers sample_server (mkDisk ∅ ∅) lonely_spread two_servers_reached
    eq_refl eq_refl no_clash_sample) as [_ H].
  - lia.
  - reflexivity.
  - repeat constructor. by inversion 1.
  - repeat constructor; done.
  - reflexivity.
  - reflexivity.
  - exact H.
Defined.

Definition waiting_server : server :=
  put_broadcast (B "imss://f$0") (data (element (fun _ => B "ab" ++ repeat NUL 4 ++ B "xy") [1] [NUL])) 12 sample_server.

Lemma partial_block_breaks_merge_witness :
  MergeData (big_env 8) 0 3 [] 1 2 8 (mkWorld [waiting_server] [] ∅ []) = Undef OutOfBounds.
Proof.
  apply (partial_block_breaks_merge (big_env 8) 0 2 2 8 (B "imss://f$0") (B "ab") (B "xy") [NUL] _ waiting_server (repeat NUL 2));
    done.
Defined.

Definition storing_server : server :=
  mkServer (mkHier {[ IMSS_ROOT := mkMap {[ B "imss://f$1" := mkBuf (B "abcd") 4 ]} [] ]} 0 1000 [])
    ∅ ∅ ∅ ∅ false 0 [] 0 (-1) 2 false 0.

Lemma snapset_overwrites_block_witness :
  exists s', srv_worker_helper (with_payload (B "??") (big_env 4)) (snapset_request 2 snap_file 1) storing_server
             = Ret (0, [Msg MSG_OK_OP], s') /\
    HierarchicalMapGet (B "imss://f$1") (hr s') = Ret (Some (mkBuf (B "??cd") 4)).
Proof.
  destruct (snapset_overwrites_block (big_env 4) snap_file (B "??") 1 storing_server (mkBuf (B "abcd") 4)) as (s' & H1 & _ & H2);
    try done; try apply snap_file_ok; try (vm_compute; reflexivity).
  - apply malloc_zeroed.
  - exists s'. split; [exact H1|exact H2].
Defined.

Definition asked_server : server :=
  set_snapshot {[ B "imss://f$0" := -1; B "imss://g" := 1 ]} storing_server.
Definition asked_process : fsys :=
  mkFS (mkSession (mkWorld [asked_server] [] ∅ []) [] [] None cluster_imss 0) ∅ 0.
Definition no_blocks : snap_args := mkSnapArgs 0 (B "RR") [] None ∅.

Lemma asked_named : entries_named asked_server.
Proof.
  intros k. unfold asked_server. cbn [buffer_snapshot set_snapshot]. intros [[<- _]|[_ [<- Hv]%lookup_singleton_Some]]%lookup_insert_Some.
  - exists snap_file. split; [reflexivity|]. destruct snap_file_ok as [[H1 [_ H2]] _]. split; [done|]. split; [done|]. reflexivity.
  - discriminate.
Qed.

Lemma snapshot_copies_nothing_witness :
  Snapshot (big_env 4) (fun _ => sample_menv) 0 0 [] [0%nat] true good_disk 0 no_blocks ([], 0) 5 [] 4 (B "/snap") (B "node0")
    asked_process (mkDisk ∅ ∅) = Ret (0, asked_process, mkDisk ∅ ∅).
Proof.
  apply (snapshot_copies_nothing (big_env 4) (fun _ => sample_menv) 0 0 [] [0%nat] true good_disk 0 no_blocks ([], 0) 5 [] eq_refl
           4 (B "/snap") (B "node0") asked_process (mkDisk ∅ ∅) asked_server eq_refl asked_named). discriminate.
Defined.

Lemma snapshot_thread_ends_witness :
  Snapshot_thread (big_env 4) (fun _ => sample_menv) 0 0 [] [0%nat] true good_disk 0 no_blocks ([], 0) 5 [] true 1 [fun f => Ret f] 4
    (B "/snap") (B "node0") asked_process (mkDisk ∅ ∅) = Ret (asked_process, mkDisk ∅ ∅).
Proof.
  apply (snapshot_thread_ends (big_env 4) (fun _ => sample_menv) 0 0 [] [0%nat] true good_disk 0 no_blocks ([], 0) 5 [] eq_refl
           0 [] (fun f => Ret f) true 4 (B "/snap") (B "node0") asked_process asked_process (mkDisk ∅ ∅) asked_server eq_refl asked_named);
    [discriminate|reflexivity|discriminate].
Defined.
