(* ===== verification/Dispatcher.v ===== *)
(** * The dispatcher of a server

    Before a client can send requests it needs the address of a UCX worker of
    the server.  A thread of every server ([Dispatcher], src/src/workers.c)
    accepts TCP connections and starts a thread for each ([HandleClient]) that
    sends the length and the address of one of the workers.  The worker is
    chosen by the number of the connection.  [ready] writes the marker file the
    start-up script waits for. *)

From S2P Require Import Prelude Types Store DataServer Wire Comms MetaStore Elasticity MetaServer.

Definition RUNNING_SERVER_STATUS : Z := 0.
Definition FINISH_SYSTEM_STATUS : Z := 2.

(** ** [ready] *)

(** What the C library answers: [getcwd], [fopen], the bytes [fwrite] takes,
    [fclose]. *)
Record marker_env := mkMarker {
  getcwd_ok : bool;
  fopen_ok : bool;
  fwrite_takes : bytes -> nat;
  fclose_ok : bool
}.

(** The result and the content of the file, when it was opened.  An error
    message ends the process. *)
Definition ready (x : marker_env) (msg : bytes) : outcome (Z * option bytes) :=
  if negb (getcwd_ok x) then Ret (-1, None)
  else if negb (fopen_ok x) then Ret (-1, None)
  else
    let status := B "STATUS = " ++ msg in
    if 25 <=? strlen status then Undef OutOfBounds
    else
      let written := fwrite_takes x status in
      if (written <? length status)%nat then Ret (-1, Some (take written status))
      else if negb (fclose_ok x) then Ret (-1, Some status)
      else if streq msg (B "ERROR") then Exit 1
      else Ret (0, Some status).

(** ** [HandleClient] *)

(** [local_addr] and [local_addr_len] of the worker threads, the size of the
    pool, the number of the next connection, [global_finish_dispatcher],
    whether the socket listens and whether the thread still accepts. *)
Record dispatcher := mkDispatcher {
  local_addr : list bytes;
  hercules_thread_pool_size : Z;
  client_id_counter : Z;
  global_finish_dispatcher : Z;
  listening : bool;
  accepting : bool
}.

Definition set_counter (n : Z) (d : dispatcher) : dispatcher :=
  mkDispatcher (local_addr d) (hercules_thread_pool_size d) n (global_finish_dispatcher d) (listening d)
    (accepting d).
Definition set_sockets (l a : bool) (d : dispatcher) : dispatcher :=
  mkDispatcher (local_addr d) (hercules_thread_pool_size d) (client_id_counter d) (global_finish_dispatcher d)
    l a.

(** [strncmp(b, lit, strlen(lit)) == 0] at the end of an array. *)
Definition starts (lit b : bytes) : outcome bool :=
  if (length b <? length lit)%nat && prefixb b lit then Undef OutOfBounds else Ret (prefixb lit b).

(** [sscanf(req, "%u %s")]: the array [mode] stays empty when a field does
    not match. *)
Definition hello_mode (req : bytes) : outcome bytes :=
  match scan_u32 req with
  | None => Ret []
  | Some (_, r) => match scan_str MODE_SIZE r with Some (m, _) => m | None => Ret [] end
  end.

(** The length, then the address, of worker [resource_idx]. *)
Definition send_address (resource_idx : Z) (d : dispatcher) : outcome (list bytes) :=
  match local_addr d !! Z.to_nat resource_idx with
  | None => Undef OutOfBounds
  | Some a => Ret [le_put 8 (strlen a); a]
  end.

(** What the thread sends before it closes the socket.  [received] is [None]
    when [recv] fails and empty when the client is gone; a shorter message
    leaves zeros in the array. *)
Definition HandleClient (current_client_id : Z) (received : option bytes) (d : dispatcher)
  : outcome (list bytes) :=
  match received with
  | None => Ret []
  | Some [] => Ret []
  | Some m =>
      let req := put_str (Z.to_nat REQUEST_SIZE) (take (Z.to_nat REQUEST_SIZE) m) in
      match strchr NUL req with
      | None => Undef OutOfBounds
      | Some _ =>
          let* mode := hello_mode (cstr req) in
          match find_sub mode (cstr req) with
          | None => Undef NullDeref
          | Some i =>
              let req_content := drop (i + 4) req in
              if hercules_thread_pool_size d =? 0 then Undef DivByZero
              else
                let resource_idx := current_client_id mod hercules_thread_pool_size d in
                let* hello := starts (B "HELLO!") req_content in
                if hello then send_address resource_idx d
                else
                  let* main := starts (B "MAIN!") req_content in
                  if main then send_address resource_idx d
                  else if get_i32 (take 4 req) =? WHO then send_address resource_idx d
                  else Ret []
          end
      end
  end.

(** ** [Dispatcher] *)

(** What a client finds behind its connection: the messages before the socket
    is closed, or a socket that nobody reads or closes. *)
Inductive served :=
| Replied (out : list bytes)
| Unanswered.

(** The calls before the loop: [socket], [setsockopt], [bind], [listen]. *)
Definition Dispatcher_start (x : marker_env) (calls : list bool) (d : dispatcher) : outcome dispatcher :=
  if forallb id calls then Ret (set_sockets true true (set_counter 0 d))
  else let* _ := ready x (B "ERROR") in Ret (set_sockets false false d).

(** One turn of the loop.  [new_socket] is [None] when [accept] fails and
    otherwise what arrives on the socket.  When the server finishes, the thread
    ends with the socket it has just accepted. *)
Definition Dispatcher_turn (malloc_ok thread_ok : bool) (new_socket : option (option bytes)) (d : dispatcher)
  : outcome (served * dispatcher) :=
  if negb (accepting d) then Ret (Unanswered, d)
  else if negb (global_finish_dispatcher d =? RUNNING_SERVER_STATUS)
  then Ret (Unanswered, set_sockets (listening d) false d)
  else match new_socket with
       | None => Ret (Unanswered, d)
       | Some received =>
           if negb malloc_ok then Ret (Replied [], d)
           else
             let* n := add_i32 (client_id_counter d) 1 in
             let d' := set_counter n d in
             if negb thread_ok then Ret (Replied [], d')
             else let* out := HandleClient (u32 (client_id_counter d)) received d' in
                  Ret (Replied out, d')
       end.

(** The connections of a list of clients, one after the other. *)
Fixpoint serve_clients (reqs : list bytes) (d : dispatcher) : outcome (list served * dispatcher) :=
  match reqs with
  | [] => Ret ([], d)
  | m :: rest =>
      let* (r, d) := Dispatcher_turn true true (Some (Some m)) d in
      let* (rs, d) := serve_clients rest d in
      Ret (r :: rs, d)
  end.

(** ** [ShutdownServer] *)

(** The globals the thread looks at: [malleability_on], the number of pending
    requests, [id_server_to_modify] and whether [curr_global_imss] is set. *)
Record shutdown_vars := mkShutdown {
  malleability_phase : Z;
  n_pending : nat;
  to_modify_id : Z;
  has_instance : bool
}.

(** [AttendPendingRequests], by what is left waiting. *)
Definition attend_all (v : shutdown_vars) : outcome shutdown_vars :=
  if malleability_phase v <=? 0 then Ret v
  else if to_modify_id v <? 0 then Ret v
  else if negb (has_instance v) then Undef NullDeref
  else Ret (mkShutdown (malleability_phase v) 0 (to_modify_id v) (has_instance v)).

(** The loop.  Every wake-up of the condition variable shows new values of the
    globals; without one the thread waits for ever, as it does when nothing
    takes the pending requests away.  [true]: left with [mutex_malleability]
    locked. *)
Fixpoint shutdown_loop (wakes : list shutdown_vars) (v : shutdown_vars) : outcome bool :=
  if malleability_phase v =? 2
  then if (n_pending v =? 0)%nat then Ret true
       else let* v' := attend_all v in
            if (n_pending v' =? 0)%nat then Ret true else Undef Deadlock
  else match wakes with
       | [] => Undef Deadlock
       | v' :: rest => shutdown_loop rest v'
       end.

(** Whether the worker threads are told to finish, and whether the mutex stays
    locked. *)
Definition ShutdownServer (wakes : list shutdown_vars) (v : shutdown_vars) (d : dispatcher)
  : outcome (bool * bool) :=
  if global_finish_dispatcher d =? FINISH_SYSTEM_STATUS then Ret (false, false)
  else let* locked := shutdown_loop wakes v in Ret (true, locked).

(** ** Requests of clients *)

(** ["%u GET %s"]. *)
Definition join_line (rank : Z) (text : bytes) : bytes := print_u rank ++ sp :: B "GET" ++ sp :: text.

(** The texts that are answered with an address. *)
Definition asks_address (text : bytes) : Prop :=
  (exists t, text = B "HELLO!" ++ t) \/ (exists t, text = B "MAIN!" ++ t).

(** A request as it is sent: the array with the line. *)
Definition join_message (rank : Z) (text : bytes) : bytes :=
  put_str (Z.to_nat REQUEST_SIZE) (join_line rank text).

Definition join_ok (rank : Z) (text : bytes) : Prop :=
  0 <= rank < 2 ^ 32 /\ NUL ∉ text /\ strlen text <= 900 /\ asks_address text.

Lemma prefixb_head c w d r : prefixb (c :: w) (d :: r) = ascii_eqb c d && prefixb w r.
Proof. done. Qed.

(** The first occurrence of a word behind characters it does not start with. *)
Lemma find_sub_skip c w pre rest :
  c ∉ pre -> find_sub (c :: w) (pre ++ (c :: w) ++ rest) = Some (length pre).
Proof.
  induction pre as [|d pre IH]; intros Hc.
  - simpl app. cbn [find_sub].
    assert (prefixb (c :: w) ((c :: w) ++ rest) = true) as Hp by (apply prefixb_spec; eauto).
    simpl app in Hp. by rewrite Hp.
  - rewrite not_elem_of_cons in Hc. destruct Hc as [Hcd Hc].
    change ((d :: pre) ++ (c :: w) ++ rest) with (d :: (pre ++ (c :: w) ++ rest)). cbn [find_sub].
    rewrite prefixb_head. assert (ascii_eqb c d = false) as -> by by apply ascii_eqb_false.
    cbn [andb]. by rewrite IH.
Qed.

Lemma starts_prefix lit t : starts lit (lit ++ t) = Ret true.
Proof.
  unfold starts. rewrite length_app.
  destruct (Nat.ltb_spec (length lit + length t) (length lit)); [lia|]. cbn [andb].
  f_equal. apply prefixb_spec. eauto.
Qed.

Lemma length_put_str_le n s : length (put_str n s) = Nat.max n (length s).
Proof. unfold put_str. rewrite length_app, repeat_length. lia. Qed.

Lemma strlen_join rank text : strlen text <= 900 -> strlen (join_line rank text) < REQUEST_SIZE.
Proof.
  intros Ht. pose proof (strlen_print_u rank). unfold join_line, strlen, REQUEST_SIZE in *.
  rewrite !length_app. simpl length. lia.
Qed.

Lemma join_nul rank text : 0 <= rank -> NUL ∉ text -> NUL ∉ join_line rank text.
Proof.
  intros Hr Ht. unfold join_line. rewrite not_elem_of_app. split; [by apply print_u_no|].
  simpl. by rewrite !not_elem_of_cons.
Qed.

(** Any client that asks properly is sent the worker of its number. *)
Lemma HandleClient_join id rank text d :
  join_ok rank text -> hercules_thread_pool_size d <> 0 ->
  HandleClient id (Some (join_message rank text)) d
  = send_address (id mod hercules_thread_pool_size d) d.
Proof.
  intros (Hr & Ht & Hl & Ha) Hp. unfold HandleClient.
  pose proof (strlen_join rank text Hl) as Hj. pose proof (join_nul rank text ltac:(lia) Ht) as Hn.
  set (l := join_line rank text) in *. unfold join_message. fold l.
  assert (take (Z.to_nat REQUEST_SIZE) (put_str (Z.to_nat REQUEST_SIZE) l) = put_str (Z.to_nat REQUEST_SIZE) l) as Htk.
  { apply take_ge. rewrite length_put_str_le. unfold strlen, REQUEST_SIZE in *. lia. }
  assert (put_str (Z.to_nat REQUEST_SIZE) (put_str (Z.to_nat REQUEST_SIZE) l) = put_str (Z.to_nat REQUEST_SIZE) l) as Hpp.
  { unfold put_str at 1. rewrite length_put_str_le.
    replace (_ - _)%nat with 0%nat by lia. by rewrite app_nil_r. }
  destruct (put_str (Z.to_nat REQUEST_SIZE) l) as [|c m] eqn:Em.
  { apply (f_equal length) in Em. rewrite length_put_str_le in Em. unfold REQUEST_SIZE in Em. simpl in Em. lia. }
  rewrite Htk, Hpp, <- Em. clear c m Em Htk Hpp.
  assert (exists k, put_str (Z.to_nat REQUEST_SIZE) l = l ++ NUL :: k) as [k Hk].
  { unfold put_str. destruct (Z.to_nat REQUEST_SIZE - length l)%nat as [|n] eqn:E.
    - unfold strlen in Hj. lia.
    - simpl. eauto. }
  rewrite Hk, strchr_app_first by done.
  assert (cstr (l ++ NUL :: k) = l) as -> by (unfold cstr; rewrite strchr_app_first by done; by rewrite take_app_length).
  assert (hello_mode l = Ret (B "GET")) as ->.
  { unfold hello_mode, l, join_line. change (scan_u32 (print_u rank ++ ?r)) with (scan_u32 (sp :: print_u rank ++ r)).
    rewrite scan_u32_print by done. rewrite (scan_str_word MODE_SIZE (B "GET") (sp :: text)); [done| |done].
    split; [done|]. split; [by repeat constructor|done]. }
  cbn [obind].
  assert (find_sub (B "GET") l = Some (S (length (print_u rank)))) as ->.
  { unfold l, join_line. change (print_u rank ++ sp :: B "GET" ++ sp :: text)
      with (print_u rank ++ [sp] ++ B "GET" ++ sp :: text). rewrite app_assoc.
    unfold B at 1 2. simpl String.list_ascii_of_string.
    rewrite (find_sub_skip "G"%char ["E"%char; "T"%char]); [by rewrite length_app, Nat.add_1_r|].
    rewrite not_elem_of_app, list_elem_of_singleton. split; [by apply print_u_no; [|lia]|done]. }
  assert (drop (S (length (print_u rank)) + 4) (l ++ NUL :: k) = text ++ NUL :: k) as ->.
  { unfold l, join_line.
    replace ((print_u rank ++ sp :: B "GET" ++ sp :: text) ++ NUL :: k)
      with ((print_u rank ++ sp :: B "GET" ++ [sp]) ++ text ++ NUL :: k)
      by (rewrite <- !app_assoc; done).
    apply drop_app_length'. rewrite length_app. simpl. lia. }
  destruct (Z.eqb_spec (hercules_thread_pool_size d) 0); [done|].
  destruct Ha as [[t ->]|[t ->]]; rewrite <- app_assoc.
  - by rewrite starts_prefix.
  - assert (starts (B "HELLO!") (B "MAIN!" ++ t ++ NUL :: k) = Ret false) as ->
      by (unfold starts; simpl; by rewrite andb_false_r).
    cbn [obind]. by rewrite starts_prefix.
Qed.

(** ** Theorems *)

(** A running dispatcher with an address for every thread of its pool, and
    room for [k] more connections. *)
Record in_service (k : Z) (d : dispatcher) : Prop := {
  svc_accepting : accepting d = true;
  svc_running : global_finish_dispatcher d = RUNNING_SERVER_STATUS;
  svc_pool : hercules_thread_pool_size d = Z.of_nat (length (local_addr d));
  svc_some : local_addr d <> [];
  svc_counter : 0 <= client_id_counter d;
  svc_room : client_id_counter d + k < 2 ^ 31
}.

(** The worker of the connection [n]. *)
Definition worker_of (n : Z) (d : dispatcher) : option bytes :=
  local_addr d !! Z.to_nat (n mod hercules_thread_pool_size d).

Lemma worker_of_Some n k d : in_service k d -> is_Some (worker_of n d).
Proof.
  intros [_ _ Hp Hs _ _]. unfold worker_of. apply lookup_lt_is_Some. rewrite Hp.
  destruct (local_addr d) as [|a l]; [done|].
  pose proof (Z.mod_pos_bound n (Z.of_nat (length (a :: l))) ltac:(simpl; lia)). lia.
Qed.

(** One client in service. *)
Lemma turn_join k rank text d a :
  in_service k d -> 0 < k -> join_ok rank text -> worker_of (client_id_counter d) d = Some a ->
  Dispatcher_turn true true (Some (Some (join_message rank text))) d
  = Ret (Replied [le_put 8 (strlen a); a], set_counter (client_id_counter d + 1) d).
Proof.
  intros [Ha Hr Hp Hs Hc Hm] Hk Hj Hw. unfold Dispatcher_turn. rewrite Ha, Hr. cbn [negb Z.eqb].
  change (negb (RUNNING_SERVER_STATUS =? RUNNING_SERVER_STATUS)) with false. cbn beta iota.
  rewrite add_i32_ok by lia. cbn [obind]. rewrite u32_small by lia.
  rewrite HandleClient_join; [|done|].
  - unfold send_address, worker_of in *. cbn [set_counter local_addr hercules_thread_pool_size].
    by rewrite Hw.
  - cbn [set_counter hercules_thread_pool_size]. rewrite Hp. destruct (local_addr d); [done|simpl; lia].
Qed.

Lemma in_service_next k d : in_service k d -> 0 < k -> in_service (k - 1) (set_counter (client_id_counter d + 1) d).
Proof. intros [] ?. split; cbn [set_counter accepting global_finish_dispatcher hercules_thread_pool_size local_addr client_id_counter]; try done; lia. Qed.

(** A sequence of clients is served from the current number on. *)
Lemma serve_clients_eq (reqs : list (Z * bytes)) d :
  in_service (Z.of_nat (length reqs)) d -> Forall (fun r => join_ok r.1 r.2) reqs ->
  exists addrs,
    serve_clients ((fun r => join_message r.1 r.2) <$> reqs) d
    = Ret ((fun a => Replied [le_put 8 (strlen a); a]) <$> addrs,
           set_counter (client_id_counter d + Z.of_nat (length reqs)) d) /\
    length addrs = length reqs /\
    forall i, (i < length reqs)%nat -> addrs !! i = worker_of (client_id_counter d + Z.of_nat i) d.
Proof.
  intros Hs Hr. revert d Hs. induction Hr as [|[rank text] reqs Hj _ IH]; intros d Hs.
  - exists []. simpl. rewrite Z.add_0_r. split; [by destruct d|]. split; [done|]. intros. lia.
  - simpl length in Hs. destruct (worker_of_Some (client_id_counter d) _ _ Hs) as [a Ha].
    cbn [fmap list_fmap serve_clients fst snd].
    rewrite (turn_join _ rank text _ a Hs ltac:(lia) Hj Ha). cbn [obind].
    apply in_service_next in Hs; [|lia].
    replace (Z.of_nat (S (length reqs)) - 1) with (Z.of_nat (length reqs)) in Hs by lia.
    destruct (IH _ Hs) as (addrs & -> & Hl & Hi). cbn [obind]. exists (a :: addrs).
    cbn [set_counter client_id_counter local_addr hercules_thread_pool_size] in *.
    split; [|split; [simpl; lia|]].
    + cbn [fmap list_fmap length set_counter client_id_counter]. unfold set_counter. cbn. do 3 f_equal. lia.
    + intros [|i] Hlt; [by rewrite Z.add_0_r|]. simpl. rewrite Hi by (simpl in Hlt; lia).
      unfold worker_of. cbn [set_counter local_addr hercules_thread_pool_size]. do 3 f_equal. lia.
Qed.

Lemma rotate_perm {A} n (l : list A) : rotate n l ≡ₚ l.
Proof. unfold rotate. rewrite (comm (++)). by rewrite take_drop. Qed.

(** C38. The clients of a server are shared evenly over its worker threads: of any
    consecutive connections as many as the pool has threads, whatever the
    ranks of the clients and whether they are front ends or other servers,
    every thread gets exactly one. *)
Theorem workers_shared_evenly (reqs : list (Z * bytes)) (d : dispatcher)
  (Hs : in_service (Z.of_nat (length reqs)) d) (Hr : Forall (fun r => join_ok r.1 r.2) reqs)
  (Hl : length reqs = length (local_addr d)) :
  exists addrs,
    serve_clients ((fun r => join_message r.1 r.2) <$> reqs) d
    = Ret ((fun a => Replied [le_put 8 (strlen a); a]) <$> addrs,
           set_counter (client_id_counter d + Z.of_nat (length reqs)) d) /\
    addrs ≡ₚ local_addr d.
Proof.
  destruct (serve_clients_eq reqs d Hs Hr) as (addrs & He & Hla & Hi). exists addrs. split; [done|].
  enough (addrs = rotate (Z.to_nat (client_id_counter d)) (local_addr d)) as -> by apply rotate_perm.
  destruct Hs as [_ _ Hp Hne Hc _]. apply list_eq. intros i.
  destruct (decide (i < length reqs)%nat) as [Hlt|Hge].
  - rewrite Hi by done. unfold worker_of. rewrite lookup_rotate_r by lia. f_equal.
    unfold rotate_nat_add. rewrite Hp.
    rewrite Z2Nat.id by done. done.
  - rewrite !lookup_ge_None_2; [done| |lia]. rewrite length_rotate. lia.
Qed.

Definition two_workers : dispatcher := mkDispatcher [B "worker0"; B "worker1"] 2 1 RUNNING_SERVER_STATUS true true.

Lemma workers_shared_evenly_witness :
  exists addrs,
    serve_clients [join_message 7 (B "HELLO!JOIN"); join_message 3 (B "MAIN!QUERRY")] two_workers
    = Ret ((fun a => Replied [le_put 8 (strlen a); a]) <$> addrs, set_counter 3 two_workers) /\
    addrs ≡ₚ [B "worker0"; B "worker1"].
Proof.
  apply (workers_shared_evenly [(7, B "HELLO!JOIN"); (3, B "MAIN!QUERRY")] two_workers).
  - by split.
  - apply Forall_cons_2; [|apply Forall_cons_2; [|apply Forall_nil_2; exact I]].
    + split; [simpl; lia|]. split; [by apply strchr_None|]. split; [by vm_compute|]. left. by exists (B "JOIN").
    + split; [simpl; lia|]. split; [by apply strchr_None|]. split; [by vm_compute|]. right. by exists (B "QUERRY").
  - reflexivity.
Defined.

Lemma silent_turns reqs d : accepting d = false ->
  serve_clients reqs d = Ret ((fun _ => Unanswered) <$> reqs, d).
Proof.
  intros Ha. induction reqs as [|m reqs IH]; [done|].
  cbn [serve_clients]. unfold Dispatcher_turn. rewrite Ha. cbn [negb obind]. by rewrite IH.
Qed.

(** A server that is finishing leaves clients waiting: it accepts one more
    connection, whose socket is neither answered nor closed, and the thread
    ends while the socket keeps listening, so every later client connects to
    nobody. *)
Theorem finishing_server_is_silent (reqs : list bytes) (d : dispatcher)
  (Ha : accepting d = true) (Hl : listening d = true)
  (Hf : global_finish_dispatcher d <> RUNNING_SERVER_STATUS) :
  serve_clients reqs d
  = Ret ((fun _ => Unanswered) <$> reqs, match reqs with [] => d | _ => set_sockets true false d end).
Proof.
  destruct reqs as [|m reqs]; [done|]. cbn [serve_clients]. unfold Dispatcher_turn. rewrite Ha. cbn [negb].
  destruct (Z.eqb_spec (global_finish_dispatcher d) RUNNING_SERVER_STATUS); [done|]. cbn [negb obind].
  rewrite silent_turns by done. by rewrite Hl.
Qed.

Definition finishing : dispatcher := mkDispatcher [B "worker0"] 1 4 FINISH_SYSTEM_STATUS true true.

Lemma finishing_server_is_silent_witness :
  serve_clients [join_message 0 (B "HELLO!")] finishing = Ret ([Unanswered], set_sockets true false finishing).
Proof. apply (finishing_server_is_silent [join_message 0 (B "HELLO!")] finishing); done. Defined.

Lemma last_default {A} (l : list A) a b : l <> [] -> List.last l a = List.last l b.
Proof. induction l as [|x l IH]; [done|]. intros _. destruct l; [done|]. by apply IH. Qed.

Lemma shutdown_loop_skip v pre rest :
  Forall (fun x => malleability_phase x <> 2) (v :: pre) ->
  shutdown_loop (pre ++ rest) v = shutdown_loop rest (List.last pre v).
Proof.
  revert v. induction pre as [|x pre IH]; intros v [Hv Hp]%Forall_cons; [done|].
  cbn [app shutdown_loop]. destruct (Z.eqb_spec (malleability_phase v) 2); [done|].
  rewrite (IH x Hp). f_equal. destruct pre as [|y pre]; [done|]. by apply (last_default (y :: pre)).
Qed.

(** How the shutdown of one server ends once its blocks have been moved: with
    no request pending the worker threads are told to finish, but the mutex
    that every request takes while blocks move stays locked; a pending request
    of a data server, which has no instance, is answered through a null
    pointer. *)
Theorem shutdown_outcomes (pre post : list shutdown_vars) (v moved : shutdown_vars) (d : dispatcher)
  (Hd : global_finish_dispatcher d <> FINISH_SYSTEM_STATUS)
  (Hpre : Forall (fun x => malleability_phase x <> 2) (v :: pre)) (Hm : malleability_phase moved = 2) :
  (n_pending moved = 0%nat -> ShutdownServer (pre ++ moved :: post) v d = Ret (true, true)) /\
  (n_pending moved <> 0%nat -> 0 <= to_modify_id moved -> has_instance moved = false ->
   ShutdownServer (pre ++ moved :: post) v d = Undef NullDeref).
Proof.
  unfold ShutdownServer. destruct (Z.eqb_spec (global_finish_dispatcher d) FINISH_SYSTEM_STATUS); [done|].
  rewrite shutdown_loop_skip by done.
  assert (shutdown_loop (moved :: post) (List.last pre v) = shutdown_loop post moved) as ->.
  { cbn [shutdown_loop]. destruct (Z.eqb_spec (malleability_phase (List.last pre v)) 2) as [H|]; [|done].
    exfalso. apply Forall_cons in Hpre as [Hv Hp]. clear -Hv Hp H.
    induction Hp as [|x pre Hx _ IH]; [done|]. destruct pre; [done|]. by apply IH. }
  destruct post as [|p post]; cbn [shutdown_loop]; rewrite Hm; cbn [Z.eqb]; (split; [by intros ->|]);
    intros Hn Hi Hins; destruct (Nat.eqb_spec (n_pending moved) 0) as [|_]; try done; unfold attend_all;
    rewrite Hm, Hins; destruct (Z.ltb_spec (to_modify_id moved) 0); (lia || done).
Qed.

Definition stopping : dispatcher := mkDispatcher [B "worker0"] 1 4 1 true true.

Lemma shutdown_outcomes_witness :
  ShutdownServer [mkShutdown 1 0 0 false; mkShutdown 2 0 0 false] (mkShutdown 1 0 0 false) stopping
    = Ret (true, true) /\
  ShutdownServer [mkShutdown 2 3 0 false] (mkShutdown 1 0 0 false) stopping = Undef NullDeref.
Proof.
  split.
  - apply (shutdown_outcomes [mkShutdown 1 0 0 false] [] (mkShutdown 1 0 0 false) (mkShutdown 2 0 0 false) stopping);
      [done|by repeat constructor|done|done].
  - apply (shutdown_outcomes [] [] (mkShutdown 1 0 0 false) (mkShutdown 2 3 0 false) stopping);
      [done|by repeat constructor|done|done|done|done].
Defined.

(** The marker file says [OK] exactly when it could be written; an error that
    is written ends the process. *)
Theorem ready_marks (x : marker_env)
  (Hw : getcwd_ok x = true) (Ho : fopen_ok x = true) (Hc : fclose_ok x = true)
  (Hf : forall b, fwrite_takes x b = length b) :
  ready x (B "OK") = Ret (0, Some (B "STATUS = OK")) /\ ready x (B "ERROR") = Exit 1.
Proof. unfold ready. rewrite Hw, Ho, Hc, !Hf. done. Qed.

Lemma ready_marks_witness :
  ready (mkMarker true true (fun b => length b) true) (B "OK") = Ret (0, Some (B "STATUS = OK")) /\
  ready (mkMarker true true (fun b => length b) true) (B "ERROR") = Exit 1.
Proof. apply (ready_marks (mkMarker true true (fun b => length b) true)); done. Defined.
