(* ===== verification/Connect.v ===== *)
(** * Connecting to the servers

    How a process joins a deployment (src/src/imss.c): [stat_init] connects to
    the metadata servers of a hostfile and prepares the tables of the session,
    [open_imss] asks them for the instance and connects to each of its data
    servers, [AddBackEndServer2Imss] adds a server that joined later,
    [release_imss] and [stat_release] leave.  Every connection starts with a
    TCP exchange ([connect_common], src/src/comms.c) with a dispatcher
    (Dispatcher.v) that gives the address of a UCX worker, for which an endpoint
    is created.

    An endpoint is the address it leads to; [None] is a null pointer.  The data
    server behind endpoint [i] is server [i] of Client.v, the metadata server
    behind [stat_eps[i]] is server [i] of Datasets.v. *)

From S2P Require Import Prelude Types Policies Paths Store DataServer Wire Sessions Client Comms MetaStore Elasticity MetaServer Datasets Lifecycle Dispatcher.

Definition ELEMENTS : nat := 5120.

(** [imss_conn]; entries of a grown array that were never written are
    [None]. *)
Record imss_conn := mkConn {
  peer_addr : list (option bytes);
  conn_ids : list (option Z);
  conn_eps : list (option bytes);
  matching_server : Z
}.

(** A GLib container that was never made, is in use, or was destroyed while
    the variable still points at it. *)
Inductive container := Unset | Live | Destroyed.

(** The globals of imss.c behind the session: the vector [imssd] with its list
    of free positions, the containers, the metadata endpoints, the names of the
    node, the connections of [curr_imss]; and the dispatchers of the servers. *)
Record client := mkClient {
  ses : session;
  vector : list (imss_info * imss_conn);
  free_imssd : list Z;
  imssd_max_size : Z;
  arrays : container;
  tables : container;
  stat_addr : list bytes;
  stat_eps : list (option bytes);
  client_node : bytes;
  client_ip : bytes;
  matching_server_id : Z;
  n_data_servers : Z;
  curr_conns : imss_conn;
  process_rank : Z;
  dispatchers : list dispatcher
}.

Definition empty_imss : imss_info * imss_conn := (mkImss [] NUL [] 0 0 0 0, mkConn [] [] [] 0).

(** The vector as the other functions of the client see it. *)
Definition set_imssd (l : list imss_info) (s : session) : session :=
  set_wld (mkWorld (servers (wld s)) (inbox (wld s)) (datasets (wld s)) l) s.

Definition set_ses (s : session) (c : client) : client :=
  mkClient s (vector c) (free_imssd c) (imssd_max_size c) (arrays c) (tables c) (stat_addr c) (stat_eps c)
    (client_node c) (client_ip c) (matching_server_id c) (n_data_servers c) (curr_conns c) (process_rank c)
    (dispatchers c).
Definition set_vector (v : list (imss_info * imss_conn)) (free : list Z) (max : Z) (c : client) : client :=
  mkClient (set_imssd (fst <$> v) (ses c)) v free max (arrays c) (tables c) (stat_addr c) (stat_eps c)
    (client_node c) (client_ip c) (matching_server_id c) (n_data_servers c) (curr_conns c) (process_rank c)
    (dispatchers c).
Definition set_containers (a t : container) (c : client) : client :=
  mkClient (ses c) (vector c) (free_imssd c) (imssd_max_size c) a t (stat_addr c) (stat_eps c)
    (client_node c) (client_ip c) (matching_server_id c) (n_data_servers c) (curr_conns c) (process_rank c)
    (dispatchers c).
Definition set_stat (addr : list bytes) (eps : list (option bytes)) (c : client) : client :=
  mkClient (ses c) (vector c) (free_imssd c) (imssd_max_size c) (arrays c) (tables c) addr eps
    (client_node c) (client_ip c) (matching_server_id c) (n_data_servers c) (curr_conns c) (process_rank c)
    (dispatchers c).
Definition set_node (node ip : bytes) (c : client) : client :=
  mkClient (ses c) (vector c) (free_imssd c) (imssd_max_size c) (arrays c) (tables c) (stat_addr c) (stat_eps c)
    node ip (matching_server_id c) (n_data_servers c) (curr_conns c) (process_rank c) (dispatchers c).
Definition set_matching (m : Z) (c : client) : client :=
  mkClient (ses c) (vector c) (free_imssd c) (imssd_max_size c) (arrays c) (tables c) (stat_addr c) (stat_eps c)
    (client_node c) (client_ip c) m (n_data_servers c) (curr_conns c) (process_rank c) (dispatchers c).
Definition set_opened (n : Z) (k : imss_conn) (i : imss_info) (c : client) : client :=
  mkClient (set_curr_imss i (ses c)) (vector c) (free_imssd c) (imssd_max_size c) (arrays c) (tables c)
    (stat_addr c) (stat_eps c) (client_node c) (client_ip c) (matching_server_id c) n k (process_rank c)
    (dispatchers c).
Definition set_rank (r : Z) (c : client) : client :=
  mkClient (ses c) (vector c) (free_imssd c) (imssd_max_size c) (arrays c) (tables c) (stat_addr c) (stat_eps c)
    (client_node c) (client_ip c) (matching_server_id c) (n_data_servers c) (curr_conns c) r (dispatchers c).
Definition set_dispatchers (ds : list dispatcher) (c : client) : client :=
  mkClient (ses c) (vector c) (free_imssd c) (imssd_max_size c) (arrays c) (tables c) (stat_addr c) (stat_eps c)
    (client_node c) (client_ip c) (matching_server_id c) (n_data_servers c) (curr_conns c) (process_rank c) ds.

(** ** Local helpers of [stat_init] *)

(** [getline]: the line with its newline, and the rest of the file; [None] at
    the end. *)
Definition getline (f : bytes) : option (bytes * bytes) :=
  match f with
  | [] => None
  | _ => match strchr "010"%char f with
         | Some i => Some (take (S i) f, drop (S i) f)
         | None => Some (f, [])
         end
  end.

(** The line without its newline, as a string. *)
Definition chomp (line : bytes) : bytes :=
  cstr (if last_is "010"%char line then removelast line else line).

(** An interface of [getifaddrs]: its name, whether it has an IPv4 address,
    and what [getnameinfo] answers for it. *)
Record ifaddr := mkIf {
  ifa_name : bytes;
  is_inet : bool;
  nameinfo : option bytes
}.

(** The first IPv4 address that is not of [lo] or [idrac], cut to the 15
    characters of the array. *)
Fixpoint pick_ip (l : list ifaddr) : option bytes :=
  match l with
  | [] => None
  | i :: rest =>
      if is_inet i
      then match nameinfo i with
           | Some host => if streq (ifa_name i) (B "lo") || streq (ifa_name i) (B "idrac") then pick_ip rest
                          else Some (take 15 host)
           | None => pick_ip rest
           end
      else pick_ip rest
  end.

(** Whether a server runs on the client's own node: [strncmp] with the length
    of the node name, or with the length of the server's name and the IP. *)
Definition local_server (node ip host : bytes) : bool :=
  strneq (length node) host node || strneq (length host) host ip.

(** An array of [n] entries after [realloc]. *)
Definition grow {A} (n : nat) (l : list (option A)) : list (option A) :=
  take n l ++ repeat None (n - length l).

Section connect.
Context (stack : bytes) (e : env) (menv_of : Z -> menv) (POLICY : bytes).
(** The network: the addresses [getaddrinfo] finds for a host and a service,
    by the number of their dispatcher, whether [socket] and [send] succeed, what
    [recv] returns on a connection that nobody answers ([None]: it waits), the
    allocator, and whether UCX creates an endpoint. *)
Context (getaddrinfo : bytes -> bytes -> option (list nat)) (socket_ok sock_send_ok : nat -> bool)
  (hangup : nat -> option Z) (malloc_ok : Z -> bool) (ep_ok : bytes -> bool).

(** ** [connect_common] *)

(** The first address that accepts the connection. *)
Fixpoint connect_first (l : list nat) (ds : list dispatcher) : option nat :=
  match l with
  | [] => None
  | t :: rest =>
      if socket_ok t && match ds !! t with Some d => listening d | None => false end then Some t
      else connect_first rest ds
  end.

(** Every caller names a server.  The port is printed into 8 bytes. *)
Definition connect_common (server : bytes) (server_port : Z) (ds : list dispatcher) : option nat :=
  match getaddrinfo server (take 7 (print_u server_port)) with
  | None => None
  | Some res => connect_first res ds
  end.

(** The exchange with the dispatcher, the same in all its callers: [None] when
    the caller gives up, otherwise the address that was received, which is empty
    when the connection ends without a message. *)
Definition handshake (server : bytes) (port : Z) (request : bytes) (ds : list dispatcher)
  : outcome (option bytes * list dispatcher) :=
  match connect_common server port ds with
  | None => Ret (None, ds)
  | Some a =>
      match ds !! a with
      | None => Ret (None, ds)
      | Some d =>
          if negb (sock_send_ok a) then Ret (None, ds)
          else
            let* (r, d) := Dispatcher_turn true true
                             (Some (Some (put_str (Z.to_nat REQUEST_SIZE) request))) d in
            let ds := <[a := d]> ds in
            match r with
            | Replied [] => Ret (Some [], ds)
            | Replied out =>
                let stream := concat out in
                let addr_len := le_get (take 8 stream) in
                if malloc_ok addr_len then Ret (Some (take (Z.to_nat addr_len) (drop 8 stream)), ds)
                else Exit (-1)
            | Unanswered =>
                match hangup a with
                | None => Undef Deadlock
                | Some r => Ret (if r <? 0 then None else Some [], ds)
                end
            end
      end
  end.

(** [client_create_ep_data]: UCX reads the address; the status is ignored by
    the callers, who find a null endpoint. *)
Definition client_create_ep_data (addr : bytes) : outcome (option bytes) :=
  match addr with
  | [] => Undef OutOfBounds
  | _ => Ret (if ep_ok addr then Some addr else None)
  end.

(** ** [stat_init] *)

(** What the libraries answer: UCX, [gethostname], [getifaddrs], the content
    of the hostfile, [fclose]. *)
Record init_env := mkInit {
  init_context_ok : bool;
  init_worker_ok : bool;
  hostname : option bytes;
  ifaddrs : option (list ifaddr);
  stat_hostfile : option bytes;
  hostfile_closed : bool
}.

(** The loop over the lines of the hostfile.  At its end [getline] returns -1,
    and the character before the buffer's first one is read. *)
Fixpoint stat_loop (k : nat) (f : bytes) (port rank : Z) (addrs : list bytes) (eps : list (option bytes))
    (ds : list dispatcher) : outcome (bool * list bytes * list (option bytes) * list dispatcher) :=
  match k with
  | O => Ret (true, addrs, eps, ds)
  | S k' =>
      match getline f with
      | None => Undef OutOfBounds
      | Some (line, f) =>
          let* (r, ds) := handshake (chomp line) port (join_line rank (B "HELLO!")) ds in
          match r with
          | None => Ret (false, addrs, eps, ds)
          | Some addr =>
              let* ep := client_create_ep_data addr in
              stat_loop k' f port rank (addrs ++ [addr]) (eps ++ [ep]) ds
          end
      end
  end.

(** [num_stat_servers] is the number of metadata servers of the session. *)
Definition stat_init (x : init_env) (port : Z) (rank : Z) (c : client) : outcome (Z * client) :=
  let num := length (metas (ses c)) in
  if negb (malloc_ok (8 * Z.of_nat num)) then Ret (-1, c)
  else
    let c := set_rank rank c in
    if negb (init_context_ok x) || negb (init_worker_ok x) then Ret (-1, c)
    else
      let c := set_vector [] (Z.of_nat <$> seq 0 ELEMENTS) (Z.of_nat ELEMENTS) c in
      let c := match tables c with
               | Unset => set_containers Live Live (set_ses (set_pool ∅ (ses c)) c)
               | t => set_containers Live t c
               end in
      match hostname x with
      | None => Ret (-1, c)
      | Some node =>
          let c := set_node node (client_ip c) c in
          match ifaddrs x with
          | None => Ret (-1, c)
          | Some l =>
              match pick_ip l with
              | None => Ret (-1, c)
              | Some ip =>
                  let c := set_node node ip c in
                  match stat_hostfile x with
                  | None => Ret (-1, c)
                  | Some f =>
                      if negb (malloc_ok (4 * Z.of_nat num)) then Exit (-1)
                      else
                        let* (ok, addrs, eps, ds) := stat_loop num f port rank [] [] (dispatchers c) in
                        let c := set_stat addrs eps (set_dispatchers ds c) in
                        Ret (if ok && hostfile_closed x then 0 else -1, c)
                  end
              end
          end
      end.

(** ** [open_imss] *)

Definition in_use (k : container) : outcome unit :=
  match k with Live => Ret tt | Unset => Undef NullDeref | Destroyed => Undef UseAfterFree end.

(** The endpoint of server [n], for a flush. *)
Definition ep_at (eps : list (option bytes)) (n : Z) : outcome bytes :=
  match eps !! Z.to_nat n with
  | None => Undef OutOfBounds
  | Some None => Undef NullDeref
  | Some (Some a) => Ret a
  end.

(** The endpoint of server [n], for [send_req], which ends the process when it
    is null. *)
Definition send_ep (eps : list (option bytes)) (n : Z) : outcome bytes :=
  match eps !! Z.to_nat n with
  | None => Undef OutOfBounds
  | Some None => Exit (-1)
  | Some (Some a) => Ret a
  end.

(** The structure of a local instance with a copy of its names. *)
Definition copy_info (i : imss_info) : outcome imss_info :=
  if negb (Z.to_nat (num_storages i) <=? length (ips i))%nat then Undef OutOfBounds
  else
    let l := take (Z.to_nat (num_storages i)) (ips i) in
    if existsb (fun ip => LINE_LENGTH <=? strlen ip) l then Undef OutOfBounds
    else Ret (mkImss (imss_uri i) (imss_type i) l (num_active_storages i) (num_storages i)
                (imss_session_plcy i) (conn_port i)).

(** 2 for an instance of the vector, 1 for one the metadata server has, 0 for
    one it does not have, -1 on failure. *)
Definition stat_imss (uri : bytes) (c : client) : outcome (Z * option imss_info * client) :=
  let* _ := in_use (arrays c) in
  match vector c !! Z.to_nat (find_imss uri (fst <$> vector c)), find_imss uri (fst <$> vector c) =? -1 with
  | Some v, false => let* i := copy_info v.1 in Ret (2, Some i, c)
  | _, _ =>
      let* m_srv := meta_home stack URI_ uri (ses c) in
      let* _ := send_ep (stat_eps c) m_srv in
      let* (m, s) := exchange e menv_of m_srv (meta_line IMSS_INFO (B "GET") (B "0") uri) [] (ses c) in
      let c := set_ses s c in
      match m with
      | None => Ret (-1, None, c)
      | Some msg =>
          let* (ret, i) := recv_imss msg in
          Ret (if ret =? -1 then 0 else 1, i, c)
      end
  end.

(** The loop over the data servers of the instance; [m] is the global
    [matching_server_id]. *)
Fixpoint open_loop (hosts : list bytes) (i port rank : Z) (node ip : bytes) (k : imss_conn) (m : Z)
    (ds : list dispatcher) : outcome (bool * imss_conn * Z * list dispatcher) :=
  match hosts with
  | [] => Ret (true, k, m, ds)
  | host :: rest =>
      let* (r, ds) := handshake host port (join_line rank (B "HELLO!JOIN")) ds in
      match r with
      | None => Ret (false, k, m, ds)
      | Some addr =>
          let* ep := client_create_ep_data addr in
          let here := local_server node ip host in
          open_loop rest (i + 1) port rank node ip
            (mkConn (peer_addr k ++ [Some addr]) (conn_ids k ++ [Some i]) (conn_eps k ++ [ep])
               (if here then i else matching_server k))
            (if here then i else m) ds
      end
  end.

(** The connections to all servers of [info]; the entries of the arrays are
    written in order. *)
Definition connect_servers (info : imss_info) (c : client) : outcome (option imss_conn * client) :=
  let n := num_storages info in
  if (n <? 0) || negb (malloc_ok (8 * n)) then Exit (-1)
  else if negb (Z.to_nat n <=? length (ips info))%nat then Undef OutOfBounds
  else
    let* (ok, k, m, ds) := open_loop (take (Z.to_nat n) (ips info)) 0 (conn_port info) (process_rank c)
                             (client_node c) (client_ip c) (mkConn [] [] [] (-1)) (matching_server_id c)
                             (dispatchers c) in
    let c := set_dispatchers ds (set_matching m c) in
    Ret (if ok then Some k else None, c).

(** The root directory gets a table unless it has one. *)
Definition add_root_table (p : pool) : pool :=
  match p !! IMSS_ROOT with Some _ => p | None => <[IMSS_ROOT := ∅]> p end.

(** [found_in] is 0: nothing assigns it. *)
Definition found_in : nat := 0.

Definition open_imss (uri : bytes) (c : client) : outcome (Z * client) :=
  let* (existance, info, c) := stat_imss uri c in
  match info with
  | None => Ret (-1, c)
  | Some info =>
      if existance =? 2
      then
        match vector c !! found_in with
        | None => Undef OutOfBounds
        | Some check_imss =>
            if negb (matching_server check_imss.2 =? -2) then Ret (-2, c)
            else
              let* (k, c) := connect_servers info c in
              match k with
              | None => Ret (-1, c)
              | Some k =>
                  let c := set_opened (num_storages info) (curr_conns c) (curr_imss (ses c)) c in
                  Ret (0, set_vector (<[found_in := (info, k)]> (vector c)) (free_imssd c) (imssd_max_size c) c)
              end
        end
      else
        let* (k, c) := connect_servers info c in
        match k with
        | None => Ret (-1, c)
        | Some k =>
            let info := mkImss (imss_uri info) (imss_type info) (ips info) (num_active_storages info)
                          (num_storages info) (i32 (get_policy_number POLICY)) (conn_port info) in
            let c := set_opened (num_storages info) k info c in
            let* (_, v, free, max) := GInsert (info, k) (imssd_max_size c) (vector c) (free_imssd c) in
            let c := set_vector v free max c in
            let* _ := in_use (tables c) in
            Ret (num_storages info, set_ses (set_pool (add_root_table (known (ses c))) (ses c)) c)
        end
  end.

(** [init_network_resources]. *)
Definition init_network_resources (x : init_env) (stat_port rank : Z) (imss_root : bytes) (c : client)
  : outcome (Z * client) :=
  let* (r, c) := stat_init x stat_port rank c in
  if r =? -1 then Exit 1
  else
    let* (n, c) := open_imss imss_root c in
    if n <? 0 then Exit 1 else Ret (0, c).

(** ** A server that joins later *)

(** The structure [curr_dataset] points at. *)
Definition current_dataset (s : session) : outcome dataset_info :=
  match curr_dataset s with
  | None => Undef NullDeref
  | Some k => let* d := parent_dir k in
              match known s !! d ≫= (.!! k) with Some di => Ret di | None => Undef UseAfterFree end
  end.

(** [a[i] = x]. *)
Definition put_at {A} (i : nat) (x : A) (l : list (option A)) : outcome (list (option A)) :=
  if (i <? length l)%nat then Ret (<[i := Some x]> l) else Undef OutOfBounds.

(** The last server of [curr_imss] is connected.  When the arrays of addresses
    cannot grow, they are written behind their end; the array of identifiers is
    kept only if the one of endpoints did not grow. *)
Definition AddBackEndServer2Imss (c : client) : outcome (Z * client) :=
  let im := curr_imss (ses c) in
  let k := curr_conns c in
  let n := num_storages im in
  let grown := malloc_ok (8 * n) in
  let more := malloc_ok (4 * n) in
  let size := Z.to_nat n in
  let peers := if grown then grow size (peer_addr k) else peer_addr k in
  let eps := if grown then grow size (conn_eps k) else conn_eps k in
  let k := mkConn peers (if grown && more then grow size (conn_ids k) else conn_ids k) eps (matching_server k) in
  let c := set_opened (n_data_servers c) k im c in
  match ips im !! Z.to_nat (n - 1), n <=? 0 with
  | Some host, false =>
      let i := Z.to_nat (n - 1) in
      let* (r, ds) := handshake host (conn_port im) (join_line (process_rank c) (B "HELLO!JOIN")) (dispatchers c) in
      let c := set_dispatchers ds c in
      match r with
      | None => Ret (-1, c)
      | Some addr =>
          let* peers := put_at i addr peers in
          let* _ := guard (implb grown more) NullDeref in
          let* _ := guard (implb more grown) UseAfterFree in
          let* ids := put_at i (n - 1) (conn_ids k) in
          let here := local_server (client_node c) (client_ip c) host in
          let m := if here then n - 1 else matching_server k in
          let c := if here then set_matching (n - 1) c else c in
          let* ep := client_create_ep_data addr in
          let* _ := guard (i <? length eps)%nat OutOfBounds in
          let k := mkConn peers ids (<[i := ep]> eps) m in
          let c := set_opened (n_data_servers c) k im c in
          let* d := current_dataset (ses c) in
          let pos := imss_d d in
          if (0 <=? pos) && (pos <? Z.of_nat (length (vector c)))
          then Ret (n, set_vector (<[Z.to_nat pos := (im, k)]> (vector c)) (free_imssd c) (imssd_max_size c) c)
          else Undef OutOfBounds
      end
  | _, _ => Undef OutOfBounds
  end.

(** The loop of [close_dataset] over the active nodes of a reply: a host that
    is not in [curr_imss] is added to it and connected, whatever comes of
    that. *)
Fixpoint connect_nodes (hosts : list bytes) (c : client) : outcome client :=
  match hosts with
  | [] => Ret c
  | h :: rest =>
      let i := curr_imss (ses c) in
      if existsb (streq h) (take (Z.to_nat (num_storages i)) (ips i)) then connect_nodes rest c
      else
        let* (_, i) := AddIPS h i in
        let* (_, c) := AddBackEndServer2Imss (set_ses (set_curr_imss i (ses c)) c) in
        connect_nodes rest c
  end.

(** ** Leaving *)

(** The messages that close an endpoint on the side of a data server and of a
    metadata server. *)
Definition release_msg_data : bytes := B "GET 2 0 RELEASE".
Definition release_msg_metadata (rank : Z) : bytes := print_u rank ++ sp :: B "GET 2 RELEASE".

(** A message that cannot be sent is skipped. *)
Fixpoint release_data (k : nat) (i : Z) (eps : list (option bytes)) (w : world) : outcome world :=
  match k with
  | O => Ret w
  | S k' =>
      let* _ := ep_at eps i in
      let* w := if send_ok e then deliver e i release_msg_data [] w else Ret w in
      release_data k' (i + 1) eps w
  end.

Definition release_imss (uri : bytes) (c : client) : outcome (Z * client) :=
  let* _ := in_use (arrays c) in
  let pos := find_imss uri (fst <$> vector c) in
  match vector c !! Z.to_nat pos, pos =? -1 with
  | Some (i, k), false =>
      let* w := release_data (Z.to_nat (num_storages i)) 0 (conn_eps k) (wld (ses c)) in
      let c := set_ses (set_wld w (ses c)) c in
      Ret (0, set_vector (<[Z.to_nat pos := empty_imss]> (vector c)) (free_imssd c ++ [pos]) (imssd_max_size c) c)
  | _, _ => Ret (-1, c)
  end.

Fixpoint release_meta (k : nat) (i : Z) (rank : Z) (eps : list (option bytes)) (s : session) : outcome session :=
  match k with
  | O => Ret s
  | S k' =>
      let* _ := ep_at eps i in
      let* (_, s) := ask e menv_of i (release_msg_metadata rank) [] s in
      release_meta k' (i + 1) rank eps s
  end.

Definition stat_release (c : client) : outcome (Z * client) :=
  let* _ := in_use (arrays c) in
  let* _ := in_use (tables c) in
  let c := set_containers Destroyed Destroyed (set_vector [] [] (imssd_max_size c) c) in
  let* s := release_meta (length (metas (ses c))) 0 (process_rank c) (stat_eps c) (ses c) in
  Ret (0, set_stat [] [] (set_ses s c)).

(** [StatACK]. *)
Definition StatACK (message : bytes) (server_id : Z) (c : client) : outcome (Z * client) :=
  let* _ := send_ep (stat_eps c) server_id in
  let* (ok, s) := ask e menv_of server_id message [] (ses c) in
  Ret (if ok then 0 else -1, set_ses s c).
End connect.

(** ** Dispatchers over time *)

(** The dispatchers after at most [n] more connections each. *)
Definition later (n : Z) (ds ds' : list dispatcher) : Prop :=
  Forall2 (fun d d' => exists j, 0 <= j <= n /\ d' = set_counter (client_id_counter d + j) d) ds ds'.

Lemma set_counter_same d : set_counter (client_id_counter d) d = d.
Proof. by destruct d. Qed.

Lemma later_refl n ds : 0 <= n -> later n ds ds.
Proof.
  intros Hn. unfold later. induction ds as [|d ds IH]; [by apply Forall2_nil|]. apply Forall2_cons. split; [|done].
  exists 0. split; [lia|]. by rewrite Z.add_0_r, set_counter_same.
Qed.

Lemma later_both a b ds1 ds2 ds3 : later a ds1 ds2 -> later b ds2 ds3 -> later (a + b) ds1 ds3.
Proof.
  intros H12. unfold later in *. revert ds3. induction H12 as [|d1 d2 ds1 ds2 (j & Hj & ->) _ IH]; intros ds3 H23.
  - apply Forall2_nil_inv_l in H23 as ->. by apply Forall2_nil.
  - apply Forall2_cons_inv_l in H23 as (d3 & ds3' & (i & Hi & ->) & H23 & ->). apply Forall2_cons. split; [|by apply IH].
    exists (j + i). split; [lia|]. unfold set_counter. simpl. f_equal. lia.
Qed.

Lemma later_one ds a d : ds !! a = Some d -> later 1 ds (<[a := set_counter (client_id_counter d + 1) d]> ds).
Proof.
  intros Ha. apply Forall2_same_length_lookup_2; [by rewrite length_insert|].
  intros i x y Hx Hy. destruct (decide (i = a)) as [->|Hne].
  - rewrite list_lookup_insert_eq in Hy by by eapply lookup_lt_Some. simplify_eq. exists 1. by split; [lia|].
  - rewrite list_lookup_insert_ne in Hy by done. simplify_eq. exists 0. split; [lia|].
    by rewrite Z.add_0_r, set_counter_same.
Qed.

Lemma later_lookup n ds ds' a d : later n ds ds' -> ds !! a = Some d ->
  exists j, 0 <= j <= n /\ ds' !! a = Some (set_counter (client_id_counter d + j) d).
Proof. intros H Ha. destruct (Forall2_lookup_l _ _ _ _ _ H Ha) as (d' & Hd' & j & Hj & ->). eauto. Qed.

Lemma in_service_later k j d : in_service k d -> 0 <= j <= k ->
  in_service (k - j) (set_counter (client_id_counter d + j) d).
Proof. intros [] ?. split; simpl; try done; lia. Qed.

Section reach.
Context (getaddrinfo : bytes -> bytes -> option (list nat)) (socket_ok sock_send_ok : nat -> bool)
  (hangup : nat -> option Z) (malloc_ok : Z -> bool) (ep_ok : bytes -> bool).

Lemma connect_first_later n ds ds' l : later n ds ds' ->
  connect_first socket_ok l ds' = connect_first socket_ok l ds.
Proof.
  intros H. induction l as [|t l IH]; [done|]. simpl. rewrite IH. f_equal.
  destruct (ds !! t) as [d|] eqn:E.
  - destruct (later_lookup _ _ _ _ _ H E) as (j & _ & ->). done.
  - assert (ds' !! t = None) as ->; [|done]. apply lookup_ge_None. rewrite <- (Forall2_length _ _ _ H).
    by apply lookup_ge_None.
Qed.

Abbreviation connects := (connect_common getaddrinfo socket_ok).

Lemma connects_later n ds ds' host port : later n ds ds' -> connects host port ds' = connects host port ds.
Proof. intros H. unfold connect_common. case_match; [|done]. by eapply connect_first_later. Qed.

(** An address that a client can receive and use. *)
Definition addr_ok (a : bytes) : Prop := a <> [] /\ strlen a < 2 ^ 64 /\ malloc_ok (strlen a) = true /\ ep_ok a = true.

(** A host whose server takes [k] more clients. *)
Definition serves (k port : Z) (ds : list dispatcher) (host : bytes) : Prop :=
  exists a d, connects host port ds = Some a /\ ds !! a = Some d /\ in_service k d /\
    sock_send_ok a = true /\ Forall addr_ok (local_addr d).

(** An endpoint leads to a worker thread of the server of a host. *)
Definition leads_to (port : Z) (ds : list dispatcher) (ep : option bytes) (host : bytes) : Prop :=
  exists a d addr, connects host port ds = Some a /\ ds !! a = Some d /\ addr ∈ local_addr d /\ ep = Some addr.

Lemma serves_later n k port ds ds' host :
  later n ds ds' -> n <= k -> serves k port ds host -> serves (k - n) port ds' host.
Proof.
  intros H Hk (a & d & Hc & Ha & Hs & Hse & Hl).
  destruct (later_lookup _ _ _ _ _ H Ha) as (j & Hj & Ha').
  exists a, (set_counter (client_id_counter d + j) d). rewrite (connects_later _ _ _ _ _ H).
  split; [done|]. split; [done|]. split; [|done].
  destruct (in_service_later k j d Hs ltac:(lia)). split; try done. simpl in *. lia.
Qed.

Lemma leads_to_later n port ds ds' ep host :
  later n ds ds' -> leads_to port ds' ep host -> leads_to port ds ep host.
Proof.
  intros H (a & d' & addr & Hc & Ha & Hin & ->). rewrite (connects_later _ _ _ _ _ H) in Hc.
  destruct (Forall2_lookup_r _ _ _ _ _ H Ha) as (d & Hd & j & _ & ->). by exists a, d, addr.
Qed.

(** The exchange with a server in service. *)
Lemma handshake_served k host port ds rank text :
  serves k port ds host -> 0 < k -> join_ok rank text ->
  exists addr ds', handshake getaddrinfo socket_ok sock_send_ok hangup malloc_ok host port (join_line rank text) ds
      = Ret (Some addr, ds') /\
    later 1 ds ds' /\ leads_to port ds (Some addr) host /\ addr_ok addr.
Proof.
  intros (a & d & Hc & Ha & Hs & Hse & Hl) Hk Hj. unfold handshake. rewrite Hc, Ha, Hse. cbn [negb].
  destruct (worker_of_Some (client_id_counter d) k d Hs) as [addr Hw].
  pose proof (turn_join k rank text d addr Hs Hk Hj Hw) as Ht. unfold join_message in Ht. rewrite Ht. cbn [obind].
  apply list_elem_of_lookup_2 in Hw as Hin.
  pose proof (proj1 (List.Forall_forall _ _) Hl addr) as Hok.
  rewrite <- list_elem_of_In in Hok. specialize (Hok Hin). destruct Hok as (Hne & Hlt & Hm & He).
  cbn [concat]. rewrite app_nil_r.
  rewrite take_app_length', drop_app_length' by (by rewrite length_le_put).
  rewrite le_get_put. change (8 * Z.of_nat 8) with 64.
  rewrite Z.mod_small by (pose proof (strlen_nonneg addr); lia). rewrite Hm.
  rewrite take_ge by (unfold strlen; lia).
  eexists addr, _. split; [done|]. split; [by apply later_one|]. split; [|done].
  exists a, d, addr. done.
Qed.

Lemma ep_created addr : addr_ok addr -> client_create_ep_data ep_ok addr = Ret (Some addr).
Proof. intros (Hne & _ & _ & He). unfold client_create_ep_data. destruct addr; [done|]. by rewrite He. Qed.

Lemma join_ok_hello rank text : 0 <= rank < 2 ^ 32 -> text = B "HELLO!" \/ text = B "HELLO!JOIN" -> join_ok rank text.
Proof.
  intros Hr [->| ->]; (split; [done|]; split; [by apply strchr_None|]; split; [by vm_compute|]; left).
  - by exists [].
  - by exists (B "JOIN").
Qed.

(** The position of the last host that looks local, counted from [i]; [m] when
    there is none. *)
Fixpoint last_local (node ip : bytes) (i m : Z) (hosts : list bytes) : Z :=
  match hosts with
  | [] => m
  | h :: rest => last_local node ip (i + 1) (if local_server node ip h then i else m) rest
  end.

Lemma last_local_range node ip i m hosts : 0 <= i -> -1 <= m -> -1 <= last_local node ip i m hosts.
Proof. revert i m. induction hosts as [|h hosts IH]; intros i m Hi Hm; [done|]. apply IH; [lia|]. case_match; lia. Qed.

(** The loop over the data servers connects to every host. *)
Lemma open_loop_connects k hosts i port rank node ip kc m ds :
  0 <= rank < 2 ^ 32 -> Z.of_nat (length hosts) <= k -> Forall (serves k port ds) hosts ->
  exists es ds',
    open_loop getaddrinfo socket_ok sock_send_ok hangup malloc_ok ep_ok hosts i port rank node ip kc m ds
    = Ret (true, mkConn (peer_addr kc ++ es) (conn_ids kc ++ ((fun j => Some (i + Z.of_nat j)) <$> seq 0 (length hosts)))
                   (conn_eps kc ++ es) (last_local node ip i (matching_server kc) hosts),
           last_local node ip i m hosts, ds') /\
    later (Z.of_nat (length hosts)) ds ds' /\ Forall2 (leads_to port ds) es hosts.
Proof.
  intros Hr. revert k i kc m ds. induction hosts as [|host hosts IH]; intros k i kc m ds Hk Hs.
  - exists [], ds. simpl. rewrite !app_nil_r. destruct kc. split; [done|].
    split; [by apply later_refl|constructor].
  - apply Forall_cons in Hs as [Hh Hs]. cbn [length] in Hk.
    destruct (handshake_served k host port ds rank (B "HELLO!JOIN") Hh) as (addr & ds1 & He & Hl1 & Hto & Hok);
      [lia|by apply join_ok_hello; [|right]|].
    cbn [open_loop]. rewrite He. cbn [obind]. rewrite (ep_created _ Hok). cbn [obind].
    assert (Forall (serves (k - 1) port ds1) hosts) as Hs1.
    { eapply Forall_impl; [exact Hs|]. intros h. apply serves_later; [done|lia]. }
    edestruct (IH (k - 1) (i + 1)) as (es & ds2 & -> & Hl2 & Hto2); [lia|exact Hs1|].
    cbn [peer_addr conn_ids conn_eps matching_server last_local]. exists (Some addr :: es), ds2. rewrite <- !app_assoc. split.
    + assert ((fun j => Some (i + Z.of_nat j)) <$> seq 0 (length (host :: hosts))
              = Some i :: ((fun j => Some (i + 1 + Z.of_nat j)) <$> seq 0 (length hosts))) as ->; [|done].
      cbn [length seq fmap list_fmap]. f_equal; [f_equal; lia|]. rewrite <- fmap_S_seq, <- list_fmap_compose.
      apply list_fmap_ext. intros ? j _. simpl. f_equal. lia.
    + split.
      * cbn [length]. rewrite Nat2Z.inj_succ, <- Z.add_1_l. by eapply later_both.
      * constructor; [done|]. eapply Forall2_impl; [exact Hto2|]. intros. by eapply leads_to_later.
Qed.

(** The lines of a hostfile. *)
Definition host_line (h : bytes) : bytes := h ++ ["010"%char].
Definition plain_host (h : bytes) : Prop := "010"%char ∉ h /\ NUL ∉ h.

Lemma getline_host h rest : "010"%char ∉ h -> getline (host_line h ++ rest) = Some (host_line h, rest).
Proof.
  intros Hh. unfold getline, host_line. rewrite <- app_assoc. simpl app.
  destruct (h ++ "010"%char :: rest) as [|c l] eqn:E; [by destruct h|]. rewrite <- E.
  rewrite strchr_app_first by done. do 2 f_equal.
  - replace (h ++ "010"%char :: rest) with ((h ++ ["010"%char]) ++ rest) by by rewrite <- app_assoc.
    apply take_app_length'. rewrite length_app. simpl. lia.
  - replace (h ++ "010"%char :: rest) with ((h ++ ["010"%char]) ++ rest) by by rewrite <- app_assoc.
    apply drop_app_length'. rewrite length_app. simpl. lia.
Qed.

Lemma chomp_host h : NUL ∉ h -> chomp (host_line h) = h.
Proof.
  intros Hh. unfold chomp, host_line. rewrite last_is_snoc, ascii_eqb_refl.
  rewrite removelast_last. unfold cstr. by rewrite (proj2 (strchr_None NUL h) Hh).
Qed.

(** The loop over the hostfile connects to the host of every line. *)
Lemma stat_loop_connects k hosts j rest port rank addrs eps ds :
  0 <= rank < 2 ^ 32 -> Z.of_nat (length hosts) <= k -> Forall plain_host hosts ->
  Forall (serves k port ds) hosts ->
  exists as_ es ds',
    stat_loop getaddrinfo socket_ok sock_send_ok hangup malloc_ok ep_ok (length hosts + j)
      (concat (host_line <$> hosts) ++ rest) port rank addrs eps ds
    = stat_loop getaddrinfo socket_ok sock_send_ok hangup malloc_ok ep_ok j rest port rank
        (addrs ++ as_) (eps ++ es) ds' /\
    later (Z.of_nat (length hosts)) ds ds' /\ Forall2 (leads_to port ds) es hosts.
Proof.
  intros Hr. revert k addrs eps ds. induction hosts as [|host hosts IH]; intros k addrs eps ds Hk Hp Hs.
  - exists [], [], ds. simpl. rewrite !app_nil_r. split; [done|]. split; [by apply later_refl|constructor].
  - apply Forall_cons in Hs as [Hh Hs]. apply Forall_cons in Hp as [[Hnl Hnul] Hp]. cbn [length] in Hk.
    destruct (handshake_served k host port ds rank (B "HELLO!") Hh) as (addr & ds1 & He & Hl1 & Hto & Hok);
      [lia|by apply join_ok_hello; [|left]|].
    cbn [length fmap list_fmap concat stat_loop Nat.add]. rewrite <- app_assoc.
    rewrite getline_host, chomp_host by done. rewrite He. cbn [obind].
    rewrite (ep_created _ Hok). cbn [obind].
    assert (Forall (serves (k - 1) port ds1) hosts) as Hs1.
    { eapply Forall_impl; [exact Hs|]. intros h. apply serves_later; [done|lia]. }
    destruct (IH (k - 1) (addrs ++ [addr]) (eps ++ [Some addr]) ds1) as (as_ & es & ds2 & -> & Hl2 & Hto2); [lia|done|done|].
    exists (addr :: as_), (Some addr :: es), ds2. rewrite <- !app_assoc. split; [done|]. split.
    + rewrite Nat2Z.inj_succ, <- Z.add_1_l. by eapply later_both.
    + constructor; [done|]. eapply Forall2_impl; [exact Hto2|]. intros. by eapply leads_to_later.
Qed.
End reach.

(** ** Joining a deployment *)

Section joining.
Context (stack : bytes) (e : env) (menv_of : Z -> menv) (POLICY : bytes).
Context (getaddrinfo : bytes -> bytes -> option (list nat)) (socket_ok sock_send_ok : nat -> bool)
  (hangup : nat -> option Z) (malloc_ok : Z -> bool) (ep_ok : bytes -> bool).
Context (memory : forall z, 0 <= z -> malloc_ok z = true).

Abbreviation served_by := (serves getaddrinfo socket_ok sock_send_ok malloc_ok ep_ok).
Abbreviation endpoint_of := (leads_to getaddrinfo socket_ok).

(** The node can start: its libraries answer, and every host of the
    hostfile takes [k] more clients. *)
Record can_start (x : init_env) (port k : Z) (mhosts : list bytes) (c : client) : Prop := {
  st_context : init_context_ok x = true;
  st_worker : init_worker_ok x = true;
  st_node : is_Some (hostname x);
  st_ip : exists l ip, ifaddrs x = Some l /\ pick_ip l = Some ip;
  st_file : stat_hostfile x = Some (concat (host_line <$> mhosts));
  st_closed : hostfile_closed x = true;
  st_plain : Forall plain_host mhosts;
  st_serves : Forall (served_by k port (dispatchers c)) mhosts
}.

(** The metadata server [n] of the session has the instance. *)
Record registered (uri : bytes) (n : Z) (im : imss_info) (s : session) : Prop := {
  rg_send : send_ok e = true;
  rg_box : mbox s = [];
  rg_word : meta_word URI_ uri;
  rg_uri : imss_uri im = uri;
  rg_rooted : rooted uri;
  rg_fits : imss_fits im;
  rg_short : Forall (fun ip => strlen ip < LINE_LENGTH) (ips im);
  rg_home : meta_home stack URI_ uri s = Ret n;
  rg_serves : meta_serves (menv_of n);
  rg_entry : exists m v, metas s !! Z.to_nat n = Some m /\ entry (map_key (menv_of n) uri) m = Ret (Some v) /\
               data v = Instance_ im
}.

(** The structure with the policy of the client. *)
Definition opened (im : imss_info) : imss_info :=
  mkImss (imss_uri im) (imss_type im) (ips im) (num_active_storages im) (num_storages im)
    (i32 (get_policy_number POLICY)) (conn_port im).

Lemma free_positions : exists free, Z.of_nat <$> seq 0 ELEMENTS = 0 :: free.
Proof. destruct ELEMENTS eqn:E; [discriminate|]. by eexists. Qed.

#[local] Opaque ELEMENTS.

Lemma registered_ext uri n im s s' :
  metas s' = metas s -> mbox s' = mbox s -> curr_imss s' = curr_imss s ->
  registered uri n im s -> registered uri n im s'.
Proof.
  intros Hm Hb Hc []. split; try done.
  - by rewrite Hb.
  - rewrite <- rg_home0. unfold meta_home. by rewrite Hm, Hc.
  - by rewrite Hm.
Qed.

Lemma stat_init_loop x port rank k mhosts c :
  0 <= rank < 2 ^ 32 -> Z.of_nat (length mhosts) <= k -> can_start x port k mhosts c ->
  (length mhosts <= length (metas (ses c)))%nat ->
  exists c' as_ es,
    stat_init getaddrinfo socket_ok sock_send_ok hangup malloc_ok ep_ok x port rank c
    = (let* (ok, addrs, eps, ds) := stat_loop getaddrinfo socket_ok sock_send_ok hangup malloc_ok ep_ok
         (length (metas (ses c)) - length mhosts) [] port rank as_ es (dispatchers c') in
       Ret (if (ok : bool) && true then 0 else -1, set_stat addrs eps (set_dispatchers ds c'))) /\
    Forall2 (endpoint_of port (dispatchers c)) es mhosts /\
    later (Z.of_nat (length mhosts)) (dispatchers c) (dispatchers c') /\
    vector c' = [] /\ (exists free, free_imssd c' = 0 :: free) /\ arrays c' = Live /\
    tables c' = (if tables c is Destroyed then Destroyed else Live) /\
    metas (ses c') = metas (ses c) /\ mbox (ses c') = mbox (ses c) /\ curr_imss (ses c') = curr_imss (ses c) /\
    known (ses c') = (if tables c is Unset then ∅ else known (ses c)) /\ process_rank c' = rank.
Proof.
  intros Hr Hk [Hc Hw [node Hn] (l & ip & Hl & Hip) Hf Hcl Hp Hs] Hlen.
  unfold stat_init. rewrite memory by lia. rewrite Hc, Hw, Hn, Hl, Hip, Hf. cbn [negb orb].
  rewrite memory by lia. cbn [negb].
  change (tables (set_vector ?v ?f ?n (set_rank rank c))) with (tables c).
  set (c1 := set_node node ip _). assert (dispatchers c1 = dispatchers c) as Hd.
  { unfold c1. destruct (tables c); done. }
  rewrite Hd.
  destruct (stat_loop_connects getaddrinfo socket_ok sock_send_ok hangup malloc_ok ep_ok k mhosts
    (length (metas (ses c)) - length mhosts) [] port rank [] [] (dispatchers c) Hr Hk Hp Hs) as (as_ & es & ds & He & Hla & Hto).
  rewrite app_nil_r in He. replace (length mhosts + _)%nat with (length (metas (ses c))) in He by lia. rewrite He.
  exists (set_dispatchers ds c1), as_, es. rewrite Hcl. split.
  { cbn [app]. change (dispatchers (set_dispatchers ds c1)) with ds. done. }
  split; [done|]. split; [done|]. pose proof free_positions as Hfree. unfold c1.
  destruct (tables c); (split; [done|]; split; [exact Hfree|]; by repeat split).
Qed.

(** The answer to the question for the instance. *)
Lemma ask_instance uri n im c :
  registered uri n im (ses c) -> arrays c = Live -> vector c = [] -> (exists a, send_ep (stat_eps c) n = Ret a) ->
  stat_imss stack e menv_of uri c = Ret (1, Some im, c).
Proof.
  intros [Hse Hb Hw Hu Hroot Hf Hsh Hh (Hx1 & _ & _) (m & v & Hm & Hk & Hv)] Ha Hvec [a Hep].
  unfold stat_imss. rewrite Ha, Hvec. cbn [in_use obind fmap list_fmap]. rewrite Hh. cbn [obind]. rewrite Hep. cbn [obind].
  destruct (imss_stream_roundtrip (m_ptr (menv_of n)) im) as (msg & Hmsg & Hlen & Hrecv); [by rewrite Hu|done|].
  assert (strlen msg <> 0) as Hne.
  { rewrite Hlen, (ifits_num _ Hf). unfold sizeof_imss, LINE_LENGTH. lia. }
  rewrite (exchange_ok e menv_of n _ [] (ses c) m 0 (Data msg) m); [| |exact Hse|exact Hm|exact Hb| |].
  - rewrite put_meta_same by done. cbn [obind reply_bytes]. rewrite Hrecv. cbn [obind].
    assert (i32 (strlen msg) <> -1) as Hni.
    { rewrite Hlen. unfold i32, sizeof_imss, LINE_LENGTH.
      pose proof (Z.div_mod (288 + 512 * num_storages im + 2 ^ 31) (2 ^ 32) ltac:(lia)). lia. }
    destruct (Z.eqb_spec (i32 (strlen msg)) (-1)); [done|]. do 3 f_equal. by destruct c.
  - apply meta_line_short; [by vm_compute|by vm_compute|]. destruct Hw as (_ & _ & Hw). unfold URI_ in Hw. lia.
  - change (B "0") with (print_u 0). rewrite get_line_dispatch; [|done|done|done].
    change (map_key (with_mpayload [] (menv_of n)) uri) with (map_key (menv_of n) uri).
    unfold mget. cbn [mnumber]. change (u64 (atoi (print_u 0))) with 0.
    change (0 =? GETDIR) with false. change (0 =? READ_OP) with true. cbn iota.
    unfold mread_op. rewrite Hk. cbn [obind operation]. rewrite Z.eqb_refl, Hv.
    cbn [with_mpayload m_ptr m_send_ok]. rewrite Hmsg. cbn [obind]. by rewrite Hx1.
  - cbn [reply_bytes]. destruct msg; done.
Qed.
Lemma stat_init_connects x port rank k mhosts c :
  0 <= rank < 2 ^ 32 -> Z.of_nat (length mhosts) <= k -> can_start x port k mhosts c ->
  length mhosts = length (metas (ses c)) ->
  exists c', stat_init getaddrinfo socket_ok sock_send_ok hangup malloc_ok ep_ok x port rank c = Ret (0, c') /\
    Forall2 (endpoint_of port (dispatchers c)) (stat_eps c') mhosts /\
    later (Z.of_nat (length mhosts)) (dispatchers c) (dispatchers c') /\
    vector c' = [] /\ (exists free, free_imssd c' = 0 :: free) /\ arrays c' = Live /\
    tables c' = (if tables c is Destroyed then Destroyed else Live) /\
    (forall uri n im, registered uri n im (ses c) -> registered uri n im (ses c')) /\
    known (ses c') = (if tables c is Unset then ∅ else known (ses c)) /\ process_rank c' = rank.
Proof.
  intros Hr Hk Hstart Hm.
  destruct (stat_init_loop x port rank k mhosts c Hr Hk Hstart ltac:(lia))
    as (c0 & as_ & es & Hi & Heps & Hla & Hv & Hf & Ha & Ht & Hmm & Hb & Hc & Hkn & Hrk).
  rewrite Hm, Nat.sub_diag in Hi. eexists. split; [exact Hi|]. cbn [andb].
  change (tables (set_stat ?a ?b (set_dispatchers ?d c0))) with (tables c0).
  repeat (split; [done|]). split; [|done]. intros. by eapply registered_ext.
Qed.

(** The metadata server of the instance is among the connected ones. *)
Lemma home_connected uri n im port ds mhosts s eps :
  registered uri n im s -> length mhosts = length (metas s) -> Forall2 (endpoint_of port ds) eps mhosts ->
  exists a, send_ep eps n = Ret a.
Proof.
  intros Hreg Hm Heps. destruct (rg_entry _ _ _ _ Hreg) as (m & v & Hmn & _). apply lookup_lt_Some in Hmn.
  rewrite <- Hm, <- (Forall2_length _ _ _ Heps) in Hmn.
  apply lookup_lt_is_Some in Hmn as [ep Hl]. destruct (Forall2_lookup_l _ _ _ _ _ Heps Hl) as (h & _ & Hto).
  destruct Hto as (? & ? & a & _ & _ & _ & ->). exists a. unfold send_ep. by rewrite Hl.
Qed.

Lemma open_imss_connects uri n im k c :
  0 <= process_rank c < 2 ^ 32 -> registered uri n im (ses c) -> arrays c = Live ->
  vector c = [] -> (exists free, free_imssd c = 0 :: free) -> (exists a, send_ep (stat_eps c) n = Ret a) ->
  Z.of_nat (length (ips im)) <= k -> Forall (served_by k (conn_port im) (dispatchers c)) (ips im) ->
  exists c' kc,
    open_imss stack e menv_of POLICY getaddrinfo socket_ok sock_send_ok hangup malloc_ok ep_ok uri c
      = (let* _ := in_use (tables c) in Ret (num_storages im, c')) /\
    stat_eps c' = stat_eps c /\ vector c' = [(opened im, kc)] /\
    Forall2 (endpoint_of (conn_port im) (dispatchers c)) (conn_eps kc) (ips im) /\
    matching_server kc = last_local (client_node c) (client_ip c) 0 (-1) (ips im) /\
    curr_imss (ses c') = opened im /\ imssd (wld (ses c')) = [opened im] /\
    known (ses c') = add_root_table (known (ses c)) /\ arrays c' = Live /\
    n_data_servers c' = num_storages im.
Proof.
  intros Hr Hreg Ha Hv [free Hf] Hep Hk Hs. unfold open_imss.
  rewrite (ask_instance uri n im c Hreg Ha Hv Hep). cbn [obind]. change (1 =? 2) with false. cbn iota.
  pose proof (ifits_num _ (rg_fits _ _ _ _ Hreg)) as Hn. unfold connect_servers.
  destruct (Z.ltb_spec (num_storages im) 0); [lia|]. rewrite memory by lia. cbn [orb negb].
  rewrite Hn, Nat2Z.id, Nat.leb_refl, take_ge by lia. cbn [negb].
  destruct (open_loop_connects getaddrinfo socket_ok sock_send_ok hangup malloc_ok ep_ok k (ips im) 0 (conn_port im)
    (process_rank c) (client_node c) (client_ip c) (mkConn [] [] [] (-1)) (matching_server_id c) (dispatchers c)
    Hr Hk Hs) as (es & ds & -> & _ & Hto).
  cbn [obind]. cbn [set_opened set_dispatchers set_matching vector free_imssd imssd_max_size]. rewrite Hv, Hf.
  cbn [GInsert]. change (0 =? -1) with false. cbn. rewrite <- Hn.
  do 2 eexists. split; [by destruct (tables c)|]. cbn. split; [done|]. split; [done|]. split; [exact Hto|]. by repeat split.
Qed.

(** C15. A process joins a deployment: with the servers of the hostfile and of the
    instance in service, [init_network_resources] succeeds, metadata endpoint
    [i] leads to a worker thread of the host on line [i] of the hostfile, data
    endpoint [i] to one of the host [i] of the instance, the instance is the
    only one of the session and becomes current, the root directory has a table,
    and a process that was forked with a session keeps what it knew.  Opening
    the instance again answers -2 and changes nothing. *)
Theorem client_start_connects (x : init_env) (port rank k : Z) (uri : bytes) (n : Z) (im : imss_info)
  (mhosts : list bytes) (c : client)
  (Hr : 0 <= rank < 2 ^ 32) (Hk : Z.of_nat (length mhosts + length (ips im)) <= k)
  (Hstart : can_start x port k mhosts c) (Hm : length mhosts = length (metas (ses c)))
  (Ht : tables c <> Destroyed)
  (Hreg : registered uri n im (ses c))
  (Hs : Forall (served_by k (conn_port im) (dispatchers c)) (ips im)) :
  exists c' kc,
    init_network_resources stack e menv_of POLICY getaddrinfo socket_ok sock_send_ok hangup malloc_ok ep_ok
      x port rank uri c = Ret (0, c') /\
    Forall2 (endpoint_of port (dispatchers c)) (stat_eps c') mhosts /\
    vector c' = [(opened im, kc)] /\
    Forall2 (endpoint_of (conn_port im) (dispatchers c)) (conn_eps kc) (ips im) /\
    curr_imss (ses c') = opened im /\ imssd (wld (ses c')) = [opened im] /\
    is_Some (known (ses c') !! IMSS_ROOT) /\
    (tables c = Live -> forall d t, known (ses c) !! d = Some t -> known (ses c') !! d = Some t) /\
    open_imss stack e menv_of POLICY getaddrinfo socket_ok sock_send_ok hangup malloc_ok ep_ok uri c' = Ret (-2, c').
Proof.
  destruct (stat_init_connects x port rank k mhosts c Hr ltac:(lia) Hstart Hm)
    as (c1 & Hi & Heps & Hla & Hv & Hf & Ha & Ht1 & Hrg & Hkn & Hrk).
  pose proof (Hrg _ _ _ Hreg) as Hreg1.
  assert (tables c1 = Live) as Htl by (rewrite Ht1; by destruct (tables c)).
  pose proof (home_connected _ _ _ _ _ _ _ _ Hreg Hm Heps) as Hep.
  destruct (open_imss_connects uri n im (k - Z.of_nat (length mhosts)) c1)
    as (c' & kc & Ho & He' & Hv' & Hto & Hmat & Hci & Him & Hkn' & Ha' & _); [by rewrite Hrk|done..|lia| |].
  { eapply Forall_impl; [exact Hs|]. intros h. apply serves_later; [done|lia]. }
  pose proof (ifits_num _ (rg_fits _ _ _ _ Hreg1)) as Hn.
  exists c', kc. unfold init_network_resources. rewrite Hi. cbn [obind]. change (0 =? -1) with false. cbn iota.
  rewrite Ho, Htl. cbn [in_use obind]. destruct (Z.ltb_spec (num_storages im) 0); [lia|]. split; [done|].
  split; [by rewrite He'|]. split; [done|]. split.
  { eapply Forall2_impl; [exact Hto|]. intros. by eapply leads_to_later. }
  split; [done|]. split; [done|]. rewrite Hkn'. split.
  { unfold add_root_table. destruct (known (ses c1) !! IMSS_ROOT) as [t|] eqn:E; [rewrite E; by eexists|].
    rewrite lookup_insert_eq. by eexists. }
  split.
  { intros Htab d t Hd. rewrite Hkn, Htab. unfold add_root_table.
    destruct (known (ses c) !! IMSS_ROOT) as [r|] eqn:E; [done|].
    rewrite lookup_insert_ne; [done|]. intros <-. congruence. }
  assert (open_imss stack e menv_of POLICY getaddrinfo socket_ok sock_send_ok hangup malloc_ok ep_ok uri c'
          = Ret (-2, c')) as ->; [|done].
  assert (stat_imss stack e menv_of uri c' = Ret (2, Some (opened im), c')) as Hst.
  { unfold stat_imss. rewrite Ha', Hv'. cbn [in_use obind fmap list_fmap fst].
    assert (find_imss uri [opened im] = 0) as ->.
    { unfold find_imss. cbn [find_imss_from opened imss_uri]. rewrite (rg_uri _ _ _ _ Hreg1).
      unfold strneq. by rewrite bool_decide_eq_true_2. }
    change (0 =? -1) with false. change (Z.to_nat 0) with 0%nat. cbn. unfold copy_info.
    cbn [opened num_storages ips]. rewrite Hn, Nat2Z.id, Nat.leb_refl, take_ge by lia. cbn [negb].
    assert (existsb (fun ip => LINE_LENGTH <=? strlen ip) (ips im) = false) as ->; [|by rewrite <- Hn].
    pose proof (rg_short _ _ _ _ Hreg1) as Hsh. clear -Hsh. induction Hsh as [|ip l Hip _ IH]; [done|].
    cbn [existsb]. rewrite IH. destruct (Z.leb_spec LINE_LENGTH (strlen ip)); [lia|done]. }
  unfold open_imss. rewrite Hst. cbn [obind]. rewrite Hv'. cbn.
  assert (matching_server kc <> -2) as Hne.
  { rewrite Hmat. pose proof (last_local_range (client_node c1) (client_ip c1) 0 (-1) (ips im)). lia. }
  by destruct (Z.eqb_spec (matching_server kc) (-2)).
Qed.
(** A hostfile with fewer lines than there are metadata servers: the process
    connects to the hosts it names and then reads the character before the
    buffer of the line. *)
Theorem hostfile_too_short (x : init_env) (port rank k : Z) (mhosts : list bytes) (c : client)
  (Hr : 0 <= rank < 2 ^ 32) (Hk : Z.of_nat (length mhosts) <= k) (Hstart : can_start x port k mhosts c)
  (Hm : (length mhosts < length (metas (ses c)))%nat) :
  stat_init getaddrinfo socket_ok sock_send_ok hangup malloc_ok ep_ok x port rank c = Undef OutOfBounds.
Proof.
  destruct (stat_init_loop x port rank k mhosts c Hr Hk Hstart ltac:(lia)) as (c0 & as_ & es & -> & _).
  destruct (length (metas (ses c)) - length mhosts)%nat eqn:E; [lia|]. done.
Qed.

(** A process that leaves the deployment and joins it again: [stat_release]
    destroys the tables of the session without resetting the variables, so
    [stat_init] keeps them and [open_imss] uses them after they were freed. *)
Theorem rejoining_uses_freed_tables (x : init_env) (port rank k : Z) (uri : bytes) (n : Z) (im : imss_info)
  (mhosts : list bytes) (c c1 : client)
  (Hrel : stat_release e menv_of c = Ret (0, c1))
  (Hr : 0 <= rank < 2 ^ 32) (Hk : Z.of_nat (length mhosts + length (ips im)) <= k)
  (Hstart : can_start x port k mhosts c1) (Hm : length mhosts = length (metas (ses c1)))
  (Hreg : registered uri n im (ses c1))
  (Hs : Forall (served_by k (conn_port im) (dispatchers c1)) (ips im)) :
  init_network_resources stack e menv_of POLICY getaddrinfo socket_ok sock_send_ok hangup malloc_ok ep_ok
    x port rank uri c1 = Undef UseAfterFree.
Proof.
  assert (tables c1 = Destroyed) as Ht.
  { unfold stat_release in Hrel. apply obind_Ret in Hrel as (? & _ & Hrel). apply obind_Ret in Hrel as (? & _ & Hrel).
    apply obind_Ret in Hrel as (? & _ & Hrel). by injection Hrel as <-. }
  destruct (stat_init_connects x port rank k mhosts c1 Hr ltac:(lia) Hstart Hm)
    as (c2 & Hi & Heps & Hla & Hv & Hf & Ha & Ht2 & Hrg & Hkn & Hrk).
  pose proof (Hrg _ _ _ Hreg) as Hreg2. rewrite Ht in Ht2.
  pose proof (home_connected _ _ _ _ _ _ _ _ Hreg Hm Heps) as Hep.
  destruct (open_imss_connects uri n im (k - Z.of_nat (length mhosts)) c2)
    as (c' & kc & Ho & _); [by rewrite Hrk|done..|lia| |].
  { eapply Forall_impl; [exact Hs|]. intros h. apply serves_later; [done|lia]. }
  unfold init_network_resources. rewrite Hi. cbn [obind]. change (0 =? -1) with false. cbn iota.
  rewrite Ho, Ht2. done.
Qed.
(** The server of the client's own node is looked for by the length of the node
    name only: of several hosts whose names begin with it the last one is taken,
    though another one may be the node itself. *)
Theorem local_server_by_prefix (uri : bytes) (n : Z) (im : imss_info) (k : Z) (c : client) (pre post : list bytes)
  (host : bytes)
  (Hr : 0 <= process_rank c < 2 ^ 32) (Hreg : registered uri n im (ses c)) (Ha : arrays c = Live)
  (Ht : tables c = Live) (Hv : vector c = []) (Hf : exists free, free_imssd c = 0 :: free)
  (Hep : exists a, send_ep (stat_eps c) n = Ret a) (Hk : Z.of_nat (length (ips im)) <= k)
  (Hs : Forall (served_by k (conn_port im) (dispatchers c)) (ips im))
  (Hips : ips im = pre ++ host :: post) (Hpre : prefixb (client_node c) host = true)
  (Hpost : Forall (fun h => local_server (client_node c) (client_ip c) h = false) post) :
  exists c' kc,
    open_imss stack e menv_of POLICY getaddrinfo socket_ok sock_send_ok hangup malloc_ok ep_ok uri c
      = Ret (num_storages im, c') /\
    vector c' = [(opened im, kc)] /\ matching_server kc = Z.of_nat (length pre).
Proof.
  destruct (open_imss_connects uri n im k c Hr Hreg Ha Hv Hf Hep Hk Hs) as (c' & kc & Ho & _ & Hv' & _ & Hmat & _).
  exists c', kc. rewrite Ho, Ht. split; [done|]. split; [done|]. rewrite Hmat, Hips.
  assert (local_server (client_node c) (client_ip c) host = true) as Hl.
  { apply prefixb_spec in Hpre as [t ->]. unfold local_server, strneq.
    rewrite (bool_decide_eq_true_2 (take _ (_ ++ t) = _)); [done|]. rewrite take_app_length, take_ge by lia. done. }
  assert (forall i m, last_local (client_node c) (client_ip c) i m post = m) as Hkeep.
  { clear -Hpost. induction Hpost as [|h post Hh _ IH]; intros i m; [done|]. cbn [last_local]. by rewrite Hh, IH. }
  assert (forall i m, last_local (client_node c) (client_ip c) i m (pre ++ host :: post) = i + Z.of_nat (length pre)) as H.
  { clear -Hl Hkeep. induction pre as [|h pre IH]; intros i m.
    - cbn [app last_local length]. rewrite Hl, Hkeep. lia.
    - cbn [app last_local]. rewrite IH. simpl length. lia. }
  by rewrite H.
Qed.
End joining.

(** ** Servers that join later *)

Section growing.
Context (getaddrinfo : bytes -> bytes -> option (list nat)) (socket_ok sock_send_ok : nat -> bool)
  (hangup : nat -> option Z) (malloc_ok : Z -> bool) (ep_ok : bytes -> bool).

Abbreviation add_server := (AddBackEndServer2Imss getaddrinfo socket_ok sock_send_ok hangup malloc_ok ep_ok).

Lemma grow_one {A} (l : list (option A)) : grow (S (length l)) l = l ++ [None].
Proof. unfold grow. rewrite take_ge by lia. by replace (S (length l) - length l)%nat with 1%nat by lia. Qed.

Lemma put_at_last {A} (x : A) (l : list (option A)) : put_at (length l) x (l ++ [None]) = Ret (l ++ [Some x]).
Proof.
  unfold put_at. rewrite length_app. destruct (Nat.ltb_spec (length l) (length l + length (@cons (option A) None []))); [|simpl in *; lia].
  by rewrite insert_app_r_alt, Nat.sub_diag by lia.
Qed.

(** [curr_imss] has just got the host [h], which has no connection yet. *)
Record newcomer (h : bytes) (c : client) : Prop := {
  nc_hosts : exists hosts, ips (curr_imss (ses c)) = hosts ++ [h];
  nc_num : num_storages (curr_imss (ses c)) = Z.of_nat (length (ips (curr_imss (ses c))));
  nc_peers : S (length (peer_addr (curr_conns c))) = length (ips (curr_imss (ses c)));
  nc_ids : S (length (conn_ids (curr_conns c))) = length (ips (curr_imss (ses c)));
  nc_eps : S (length (conn_eps (curr_conns c))) = length (ips (curr_imss (ses c)));
  nc_memory : forall z, 0 <= z -> malloc_ok z = true
}.

Lemma add_server_start h c : newcomer h c ->
  ips (curr_imss (ses c)) !! length (conn_eps (curr_conns c)) = Some h /\
  num_storages (curr_imss (ses c)) - 1 = Z.of_nat (length (conn_eps (curr_conns c))) /\
  length (peer_addr (curr_conns c)) = length (conn_eps (curr_conns c)) /\
  length (conn_ids (curr_conns c)) = length (conn_eps (curr_conns c)).
Proof.
  intros [[hosts Hh] Hn Hp Hi He _]. rewrite Hh in *. rewrite length_app in *. simpl in *.
  split; [|lia]. rewrite lookup_app_r by lia. by replace (_ - _)%nat with 0%nat by lia.
Qed.

(** A server that joined is connected: it gets the next endpoint, the others
    stay, and the structure of the current dataset's instance in the vector
    becomes the new one. *)
Theorem added_server_connected (h : bytes) (k : Z) (c : client) (d : dataset_info) (pos : nat)
  (Hnew : newcomer h c) (Hrank : 0 <= process_rank c < 2 ^ 32) (Hk : 0 < k)
  (Hs : serves getaddrinfo socket_ok sock_send_ok malloc_ok ep_ok k (conn_port (curr_imss (ses c))) (dispatchers c) h)
  (Hd : current_dataset (ses c) = Ret d) (Hpos : imss_d d = Z.of_nat pos) (Hlt : (pos < length (vector c))%nat) :
  exists ep c',
    add_server c = Ret (num_storages (curr_imss (ses c)), c') /\
    conn_eps (curr_conns c') = conn_eps (curr_conns c) ++ [ep] /\
    leads_to getaddrinfo socket_ok (conn_port (curr_imss (ses c))) (dispatchers c) ep h /\
    vector c' = <[pos := (curr_imss (ses c), curr_conns c')]> (vector c) /\
    curr_imss (ses c') = curr_imss (ses c).
Proof.
  destruct (add_server_start h c Hnew) as (Hh & Hn1 & Hp & Hi). destruct Hnew as [_ Hn _ _ He Hmem].
  destruct (handshake_served getaddrinfo socket_ok sock_send_ok hangup malloc_ok ep_ok k h (conn_port (curr_imss (ses c)))
    (dispatchers c) (process_rank c) (B "HELLO!JOIN") Hs Hk) as (addr & ds & Hx & _ & Hto & Hok);
    [by apply join_ok_hello; [|right]|].
  set (im := curr_imss (ses c)) in *. set (kc := curr_conns c) in *.
  unfold AddBackEndServer2Imss. fold im. fold kc. rewrite !Hmem by lia. cbn [andb].
  destruct (Z.leb_spec (num_storages im) 0); [lia|].
  assert (Z.to_nat (num_storages im) = S (length (conn_eps kc))) as -> by lia.
  assert (forall A (l : list (option A)), length l = length (conn_eps kc) ->
            grow (S (length (conn_eps kc))) l = l ++ [None]) as Hg by (intros A l <-; apply grow_one).
  assert (forall A (x : A) (l : list (option A)), length l = length (conn_eps kc) ->
            put_at (length (conn_eps kc)) x (l ++ [None]) = Ret (l ++ [Some x])) as Hput
    by (intros A x l <-; apply put_at_last).
  rewrite !Hg by done. rewrite Hn1, Nat2Z.id, Hh.
  cbn [set_opened process_rank dispatchers ses conn_port]. rewrite Hx. cbn [obind implb guard conn_ids].
  rewrite !Hput by done. cbn [obind]. rewrite (ep_created malloc_ok ep_ok addr Hok). cbn [obind].
  rewrite length_app. destruct (Nat.ltb_spec (length (conn_eps kc)) (length (conn_eps kc) + length [@None bytes])); [|simpl in *; lia].
  cbn [guard obind]. rewrite insert_app_r_alt, Nat.sub_diag by lia. cbn [insert list_insert].
  destruct (local_server _ _ h);
    match goal with |- context [current_dataset ?s] => change (current_dataset s) with (current_dataset (ses c)) end;
    rewrite Hd; cbn [obind]; rewrite Hpos;
    match goal with |- context [vector ?x] => change (vector x) with (vector c) end;
    (destruct (Z.leb_spec 0 (Z.of_nat pos)); [|lia]);
    (destruct (Z.ltb_spec (Z.of_nat pos) (Z.of_nat (length (vector c)))); [|lia]); cbn [andb]; rewrite Nat2Z.id;
    eexists (Some addr), _; (split; [done|]); (split; [done|]); (split; [done|]); by split.
Qed.

(** A server that joined but cannot be reached stays in the list of servers
    with an endpoint that was never made; the first request to it ends the
    process. *)
Theorem unreachable_server_stays (h : bytes) (c : client)
  (Hnew : newcomer h c)
  (Hs : connect_common getaddrinfo socket_ok h (conn_port (curr_imss (ses c))) (dispatchers c) = None) :
  exists c', add_server c = Ret (-1, c') /\ curr_imss (ses c') = curr_imss (ses c) /\
    send_ep (conn_eps (curr_conns c')) (num_storages (curr_imss (ses c')) - 1) = Exit (-1).
Proof.
  destruct (add_server_start h c Hnew) as (Hh & Hn1 & Hp & Hi). destruct Hnew as [_ Hn _ _ He Hmem].
  unfold AddBackEndServer2Imss. rewrite !Hmem by lia. cbn [andb].
  destruct (Z.leb_spec (num_storages (curr_imss (ses c))) 0); [lia|].
  rewrite Hn1, Nat2Z.id, Hh. unfold handshake. cbn [set_opened dispatchers]. rewrite Hs. cbn [obind].
  eexists. split; [done|]. split; [done|]. cbn. rewrite Hn1. unfold send_ep. rewrite Nat2Z.id.
  replace (Z.to_nat (num_storages (curr_imss (ses c)))) with (S (length (conn_eps (curr_conns c)))) by lia.
  rewrite grow_one, lookup_app_r, Nat.sub_diag by lia. done.
Qed.

(** Connecting does not change what is known of the instance. *)
Lemma add_server_info c r c' : add_server c = Ret (r, c') -> curr_imss (ses c') = curr_imss (ses c).
Proof.
  unfold AddBackEndServer2Imss. destruct (ips _ !! _) as [h|]; [|done].
  destruct (Z.leb _ 0); [done|]. intros H. apply obind_Ret in H as ([[addr|] ds] & _ & H).
  - repeat (let x := fresh in apply obind_Ret in H as (x & _ & H)). case_match; [|done]. by injection H as _ <-.
  - by injection H as _ <-.
Qed.

(** The hosts a reply adds to the instance are the ones the metadata side of
    [close_dataset] adds, whether or not they can be reached. *)
Theorem connect_nodes_info (hosts : list bytes) (c c' : client)
  (H : connect_nodes getaddrinfo socket_ok sock_send_ok hangup malloc_ok ep_ok hosts c = Ret c') :
  add_nodes hosts (curr_imss (ses c)) = Ret (curr_imss (ses c')).
Proof.
  revert c H. induction hosts as [|h hosts IH]; intros c H; [by injection H as <-|].
  cbn [connect_nodes add_nodes] in *. destruct (existsb _ _); [by apply IH|].
  apply obind_Ret in H as ([r i] & -> & H). apply obind_Ret in H as ([r2 c2] & Ha & H). cbn [obind].
  apply IH in H. enough (curr_imss (ses c2) = i) as <- by done.
  by apply add_server_info in Ha.
Qed.
End growing.

(** ** Leaving *)

Section leaving.
Context (e : env) (sending : send_ok e = true).

(** A data server without the endpoint of the client. *)
Definition forget_client (s : server) : server := set_eps (eps s ∖ {[ worker_uid e ]}) s.

Lemma release_request p s : malleability_on s = false ->
  srv_worker_helper (with_payload p e) release_msg_data s = Ret (0, [], forget_client s).
Proof. intros Hm. unfold srv_worker_helper, release_msg_data. simpl. unfold CheckForMalleability. rewrite Hm. done. Qed.

Lemma deliver_release i s w : 0 <= i -> servers w !! Z.to_nat i = Some s -> malleability_on s = false ->
  deliver e i release_msg_data [] w = Ret (set_servers (<[Z.to_nat i := forget_client s]> (servers w)) w).
Proof.
  intros Hi Hs Hm. unfold deliver. destruct (Z.ltb_spec i 0); [lia|]. rewrite Hs, release_request by done.
  cbn [obind map]. by rewrite app_nil_r.
Qed.

(** Every data server is told once. *)
Lemma release_data_all eps_ w (done_ : list server) (todo : list server) :
  Forall (fun ep => is_Some ep) eps_ -> Forall (fun s => malleability_on s = false) todo ->
  length eps_ = (length done_ + length todo)%nat -> servers w = done_ ++ todo ->
  release_data e (length todo) (Z.of_nat (length done_)) eps_ w
  = Ret (set_servers (done_ ++ (forget_client <$> todo)) w).
Proof.
  intros He Ht. revert done_ w. induction Ht as [|s todo Hm _ IH]; intros done_ w Hl Hw.
  - simpl. rewrite <- Hw. by destruct w.
  - cbn [length release_data]. unfold ep_at. rewrite Nat2Z.id.
    destruct (lookup_lt_is_Some_2 eps_ (length done_)) as [ep Hep]; [simpl in Hl; lia|].
    rewrite Hep. destruct (Forall_lookup_1 _ _ _ _ He Hep) as [a ->]. cbn [obind]. rewrite sending.
    assert (servers w !! Z.to_nat (Z.of_nat (length done_)) = Some s) as Hs.
    { rewrite Nat2Z.id, Hw, lookup_app_r, Nat.sub_diag by lia. done. }
    rewrite (deliver_release _ s) by (done || lia). cbn [obind].
    rewrite Nat2Z.id, Hw, insert_app_r_alt, Nat.sub_diag by lia. cbn [insert list_insert].
    replace (Z.of_nat (length done_) + 1) with (Z.of_nat (length (done_ ++ [forget_client s])))
      by (rewrite length_app; simpl; lia).
    replace (done_ ++ forget_client s :: todo) with ((done_ ++ [forget_client s]) ++ todo) by by rewrite <- app_assoc.
    rewrite IH; [|rewrite length_app; simpl in *; lia|done].
    cbn [fmap list_fmap]. rewrite <- app_assoc. by destruct w.
Qed.

Lemma find_imss_none uri l i :
  Forall (fun im => strneq (Z.to_nat URI_) uri (imss_uri im) = false) l -> find_imss_from i uri l = -1.
Proof. intros H. revert i. induction H as [|im l Hm _ IH]; intros i; [done|]. cbn [find_imss_from]. by rewrite Hm. Qed.

Lemma find_imss_at uri pre im post i :
  Forall (fun x => strneq (Z.to_nat URI_) uri (imss_uri x) = false) pre ->
  strneq (Z.to_nat URI_) uri (imss_uri im) = true ->
  find_imss_from i uri (pre ++ im :: post) = i + Z.of_nat (length pre).
Proof.
  intros Hp Hm. revert i. induction Hp as [|x pre Hx _ IH]; intros i; cbn [app find_imss_from].
  - rewrite Hm. simpl. lia.
  - rewrite Hx, IH. simpl length. lia.
Qed.

(** Releasing an instance tells each of its data servers once to forget the
    client, frees its position and forgets it, so that a second release fails;
    the other instances stay where they are and no reply is left. *)
Theorem release_imss_forgets (uri : bytes) (pre post : list (imss_info * imss_conn)) (im : imss_info)
  (kc : imss_conn) (c : client)
  (Ha : arrays c = Live) (Hv : vector c = pre ++ (im, kc) :: post) (Huri : uri <> [])
  (Hu : strneq (Z.to_nat URI_) uri (imss_uri im) = true)
  (Hothers : Forall (fun v => strneq (Z.to_nat URI_) uri (imss_uri v.1) = false) (pre ++ post))
  (Hn : num_storages im = Z.of_nat (length (conn_eps kc)))
  (Hlen : length (servers (wld (ses c))) = length (conn_eps kc))
  (Hep : Forall (fun ep => is_Some ep) (conn_eps kc))
  (Hm : Forall (fun s => malleability_on s = false) (servers (wld (ses c)))) :
  exists c', release_imss e uri c = Ret (0, c') /\
    servers (wld (ses c')) = forget_client <$> servers (wld (ses c)) /\
    inbox (wld (ses c')) = inbox (wld (ses c)) /\
    vector c' = pre ++ empty_imss :: post /\ imssd (wld (ses c')) = fst <$> vector c' /\
    free_imssd c' = free_imssd c ++ [Z.of_nat (length pre)] /\
    release_imss e uri c' = Ret (-1, c').
Proof.
  apply Forall_app in Hothers as [Ho1 Ho2].
  assert (find_imss uri (fst <$> vector c) = Z.of_nat (length pre)) as Hf.
  { rewrite Hv, fmap_app. unfold find_imss. cbn [fmap list_fmap]. rewrite find_imss_at; [by rewrite length_fmap| |done].
    by apply Forall_fmap. }
  unfold release_imss at 1. rewrite Ha, Hf. cbn [in_use obind]. rewrite Nat2Z.id, Hv, lookup_app_r, Nat.sub_diag by lia.
  cbn [lookup list_lookup]. destruct (Z.eqb_spec (Z.of_nat (length pre)) (-1)); [lia|].
  rewrite Hn, Nat2Z.id, <- Hlen.
  pose proof (release_data_all (conn_eps kc) (wld (ses c)) [] (servers (wld (ses c))) Hep Hm (eq_sym Hlen) eq_refl) as Hr.
  change (Z.of_nat (length [])) with 0 in Hr. rewrite Hr.
  cbn [obind app set_ses vector]. rewrite ?Hv. rewrite insert_app_r_alt, Nat.sub_diag by lia. cbn [insert list_insert].
  eexists. split; [done|]. do 5 (split; [done|]).
  unfold release_imss. cbn [arrays set_vector set_ses]. rewrite Ha. cbn [in_use obind vector].
  assert (find_imss uri (fst <$> pre ++ empty_imss :: post) = -1) as Hnone.
  { unfold find_imss. apply find_imss_none. rewrite fmap_app. apply Forall_app. split; [by apply Forall_fmap|].
    cbn [fmap list_fmap]. apply Forall_cons. split; [|by apply Forall_fmap].
    cbn. unfold strneq. apply bool_decide_eq_false_2. destruct uri; [done|].
    destruct (Z.to_nat URI_) eqn:E; [discriminate|done]. }
  change (vector _) with (pre ++ empty_imss :: post). rewrite Hnone. by destruct (_ !! _) as [[]|].
Qed.
End leaving.

(** ** A sample deployment

    A metadata server on [meta], data servers on [node1] and [node10], and a
    client on [node1]. *)

Definition sample_hosts : bytes -> bytes -> option (list nat) := fun h _ =>
  if streq h (B "meta") then Some [0%nat]
  else if streq h (B "node1") then Some [1%nat]
  else if streq h (B "node10") then Some [2%nat] else None.
Definition on : nat -> bool := fun _ => true.
Definition no_hangup : nat -> option Z := fun _ => None.
Definition all_memory : Z -> bool := fun _ => true.
Definition all_eps : bytes -> bool := fun _ => true.
Definition one_worker (a : bytes) : dispatcher := mkDispatcher [a] 1 0 RUNNING_SERVER_STATUS true true.
Definition sample_ds : list dispatcher := [one_worker (B "wm"); one_worker (B "w1"); one_worker (B "w10")].
Definition the_instance : imss_info :=
  mkImss IMSS_ROOT TYPE_HERCULES_INSTANCE [B "node1"; B "node10"] 2 2 0 7500.
Definition the_meta : mserver :=
  mkMserver (mkHier {[ IMSS_ROOT := mkMap {[ IMSS_ROOT := mkBuf (Instance_ the_instance) 288 ]} [] ]} 0 1000000 [])
    (Some IMSS_ROOT) idle ∅.
Definition before_start : client :=
  mkClient (mkSession (mkWorld [] [] ∅ []) [the_meta] [] None (empty_imss.1) 0) [] [] 0 Unset Unset [] []
    [] [] (-1) (-1) (mkConn [] [] [] 0) 0 sample_ds.
Definition node1_env (file : bytes) : init_env :=
  mkInit true true (Some (B "node1"))
    (Some [mkIf (B "lo") true (Some (B "127.0.0.1")); mkIf (B "eth0") true (Some (B "10.0.0.1"))])
    (Some file) true.

Lemma sample_served k port host :
  k < 2 ^ 31 -> is_Some (sample_hosts host []) ->
  serves sample_hosts on on all_memory all_eps k port sample_ds host.
Proof.
  intros Hk Hh.
  assert (forall a w, sample_ds !! a = Some (one_worker w) -> addr_ok all_memory all_eps w ->
    (forall s, sample_hosts host s = Some [a]) ->
    serves sample_hosts on on all_memory all_eps k port sample_ds host) as H.
  { intros a w Ha Hw Hs. exists a, (one_worker w). unfold connect_common. rewrite Hs. cbn [connect_first]. rewrite Ha.
    split; [done|]. split; [done|]. split; [split; simpl; (done || lia)|]. split; [done|]. by apply Forall_singleton. }
  unfold sample_hosts in Hh. destruct (streq host (B "meta")) eqn:E1; [|destruct (streq host (B "node1")) eqn:E2;
    [|destruct (streq host (B "node10")) eqn:E3; [|by destruct Hh]]].
  - apply (H 0%nat (B "wm")); [done|by repeat split|]. intros s. unfold sample_hosts. by rewrite E1.
  - apply (H 1%nat (B "w1")); [done|by repeat split|]. intros s. unfold sample_hosts. by rewrite E1, E2.
  - apply (H 2%nat (B "w10")); [done|by repeat split|]. intros s. unfold sample_hosts. by rewrite E1, E2, E3.
Qed.

Lemma the_instance_fits : imss_fits the_instance.
Proof.
  split; [split; [apply strchr_None; reflexivity|simpl; lia]| |done| |simpl; lia].
  - apply Forall_cons_2; [split; [apply strchr_None; reflexivity|simpl; lia]|].
    apply Forall_cons_2; [split; [apply strchr_None; reflexivity|simpl; lia]|]. by apply Forall_nil_2.
  - repeat (apply Forall_cons_2; [unfold int_fits; simpl; lia|]). by apply Forall_nil_2.
Qed.

Lemma sample_registered s :
  metas s = [the_meta] -> mbox s = [] -> imss_session_plcy (curr_imss s) = 0 ->
  registered [] (big_env 4096) (fun _ => sample_menv) IMSS_ROOT 0 the_instance s.
Proof.
  intros Hm Hb Hc. split; [done|done| |done|by exists []|apply the_instance_fits| | | |].
  - split; [done|]. split; [|done]. unfold no_space. apply Forall_forall. intros a Ha.
    repeat (apply elem_of_cons in Ha as [->|Ha]; [done|]). by apply elem_of_nil in Ha.
  - apply Forall_cons_2; [done|]. apply Forall_cons_2; [done|]. by apply Forall_nil_2.
  - unfold meta_home. rewrite Hm, Hc. vm_compute. reflexivity.
  - by repeat split.
  - exists the_meta. eexists. rewrite Hm. split; [done|]. split; [vm_compute; reflexivity|]. done.
Qed.

Lemma sample_start file hosts c :
  dispatchers c = sample_ds -> file = concat (host_line <$> hosts) -> Forall plain_host hosts ->
  Forall (fun h => is_Some (sample_hosts h [])) hosts ->
  can_start sample_hosts on on all_memory all_eps (node1_env file) 7501 100 hosts c.
Proof.
  intros Hd -> Hp Hh. split; try done.
  - do 2 eexists. by split.
  - rewrite Hd. eapply Forall_impl; [exact Hh|]. intros h. by apply sample_served.
Qed.

Lemma client_start_connects_witness :
  exists c' kc,
    init_network_resources [] (big_env 4096) (fun _ => sample_menv) (B "RR") sample_hosts on on no_hangup all_memory
      all_eps (node1_env (host_line (B "meta"))) 7501 3 IMSS_ROOT before_start = Ret (0, c') /\
    Forall2 (leads_to sample_hosts on 7501 sample_ds) (stat_eps c') [B "meta"] /\
    vector c' = [(opened (B "RR") the_instance, kc)] /\
    Forall2 (leads_to sample_hosts on 7500 sample_ds) (conn_eps kc) [B "node1"; B "node10"].
Proof.
  destruct (client_start_connects [] (big_env 4096) (fun _ => sample_menv) (B "RR") sample_hosts on on no_hangup
    all_memory all_eps (fun _ _ => eq_refl) (node1_env (host_line (B "meta"))) 7501 3 100 IMSS_ROOT 0 the_instance
    [B "meta"] before_start) as (c' & kc & H1 & H2 & H3 & H4 & _).
  - lia.
  - simpl. lia.
  - apply sample_start; [done|by vm_compute| |].
    + apply Forall_singleton. split; apply strchr_None; reflexivity.
    + apply Forall_singleton. by eexists.
  - done.
  - done.
  - by apply sample_registered.
  - apply Forall_cons_2; [by apply sample_served; [lia|eexists]|].
    apply Forall_cons_2; [by apply sample_served; [lia|eexists]|]. by apply Forall_nil_2.
  - exists c', kc. split; [exact H1|]. split; [exact H2|]. split; [exact H3|exact H4].
Defined.

Lemma hostfile_too_short_witness :
  stat_init sample_hosts on on no_hangup all_memory all_eps (node1_env (host_line (B "meta"))) 7501 3
    (set_ses (mkSession (mkWorld [] [] ∅ []) [the_meta; the_meta] [] None (empty_imss.1) 0) before_start)
  = Undef OutOfBounds.
Proof.
  apply (hostfile_too_short sample_hosts on on no_hangup all_memory all_eps (fun _ _ => eq_refl)
    (node1_env (host_line (B "meta"))) 7501 3 100 [B "meta"]).
  - lia.
  - simpl. lia.
  - apply sample_start; [done|by vm_compute| |].
    + apply Forall_singleton. split; apply strchr_None; reflexivity.
    + apply Forall_singleton. by eexists.
  - simpl. lia.
Defined.

(** The client once it has joined: with the instance, or with the metadata
    server only. *)
Definition to_node1 : imss_conn := mkConn [Some (B "w1"); Some (B "w10")] [Some 0; Some 1] [Some (B "w1"); Some (B "w10")] 1.
Definition joined : client :=
  mkClient (mkSession (mkWorld [sample_server; sample_server] [] {[ IMSS_ROOT := ∅ ]} [the_instance]) [the_meta] [] None the_instance 0)
    [(the_instance, to_node1)] [1; 2] 5120 Live Live [B "wm"] [Some (B "wm")] (B "node1") (B "10.0.0.1") 1 2
    to_node1 3 sample_ds.
Definition with_meta : client :=
  mkClient (mkSession (mkWorld [] [] ∅ []) [the_meta] [] None (empty_imss.1) 0) [] [0; 1] 5120 Live Live [B "wm"]
    [Some (B "wm")] (B "node1") (B "10.0.0.1") (-1) (-1) (mkConn [] [] [] 0) 3 sample_ds.

Definition departed : client :=
  match stat_release (big_env 4096) (fun _ => sample_menv) joined with Ret (_, c) => c | _ => joined end.

Lemma rejoining_uses_freed_tables_witness :
  stat_release (big_env 4096) (fun _ => sample_menv) joined = Ret (0, departed) /\
  exists c, departed = c /\
    init_network_resources [] (big_env 4096) (fun _ => sample_menv) (B "RR") sample_hosts on on no_hangup all_memory
      all_eps (node1_env (host_line (B "meta"))) 7501 3 IMSS_ROOT c = Undef UseAfterFree.
Proof.
  assert (stat_release (big_env 4096) (fun _ => sample_menv) joined = Ret (0, departed)) as Hrel by (vm_compute; reflexivity).
  split; [exact Hrel|]. exists departed. split; [done|].
  assert (Forall (fun h => is_Some (sample_hosts h [])) [B "meta"]) as Hh by (apply Forall_singleton; by eexists).
  apply (rejoining_uses_freed_tables [] (big_env 4096) (fun _ => sample_menv) (B "RR") sample_hosts on on no_hangup
    all_memory all_eps (fun _ _ => eq_refl) (node1_env (host_line (B "meta"))) 7501 3 100 IMSS_ROOT 0 the_instance
    [B "meta"] joined departed Hrel).
  - lia.
  - simpl. lia.
  - apply sample_start; [vm_compute; reflexivity|by vm_compute| |done].
    apply Forall_singleton. split; apply strchr_None; reflexivity.
  - vm_compute. reflexivity.
  - apply sample_registered; vm_compute; reflexivity.
  - change (dispatchers departed) with sample_ds.
    apply Forall_cons_2; [by apply sample_served; [lia|eexists]|].
    apply Forall_cons_2; [by apply sample_served; [lia|eexists]|]. by apply Forall_nil_2.
Defined.

Lemma local_server_by_prefix_witness :
  client_node with_meta = B "node1" /\ ips the_instance = [B "node1"; B "node10"] /\
  exists c' kc,
    open_imss [] (big_env 4096) (fun _ => sample_menv) (B "RR") sample_hosts on on no_hangup all_memory all_eps
      IMSS_ROOT with_meta = Ret (2, c') /\
    vector c' = [(opened (B "RR") the_instance, kc)] /\ matching_server kc = 1.
Proof.
  split; [done|]. split; [done|].
  apply (local_server_by_prefix [] (big_env 4096) (fun _ => sample_menv) (B "RR") sample_hosts on on no_hangup
    all_memory all_eps (fun _ _ => eq_refl) IMSS_ROOT 0 the_instance 100 with_meta [B "node1"] [] (B "node10")).
  - simpl. lia.
  - by apply sample_registered.
  - done.
  - done.
  - done.
  - by eexists.
  - by eexists.
  - simpl. lia.
  - apply Forall_cons_2; [by apply sample_served; [lia|eexists]|].
    apply Forall_cons_2; [by apply sample_served; [lia|eexists]|]. by apply Forall_nil_2.
  - done.
  - by vm_compute.
  - by apply Forall_nil_2.
Defined.

(** A client connected to [node1] that has just learnt of [h]. *)
Definition learnt (h : bytes) : client :=
  let im := mkImss IMSS_ROOT TYPE_HERCULES_INSTANCE [B "node1"; h] 1 2 0 7500 in
  mkClient (mkSession (mkWorld [] [] {[ IMSS_ROOT := {[ B "imss://f" := sample_info (B "imss://f") "F" ]} ]} [])
      [the_meta] [] (Some (B "imss://f")) im 0)
    [(the_instance, to_node1)] [1; 2] 5120 Live Live [B "wm"] [Some (B "wm")] (B "node1") (B "10.0.0.1") 0 1
    (mkConn [Some (B "w1")] [Some 0] [Some (B "w1")] 0) 3 sample_ds.

Lemma learnt_newcomer h : newcomer all_memory h (learnt h).
Proof. split; try done. by exists [B "node1"]. Qed.

Lemma added_server_connected_witness :
  exists ep c',
    AddBackEndServer2Imss sample_hosts on on no_hangup all_memory all_eps (learnt (B "node10")) = Ret (2, c') /\
    conn_eps (curr_conns c') = [Some (B "w1"); ep] /\
    leads_to sample_hosts on 7500 sample_ds ep (B "node10") /\
    vector c' = [(curr_imss (ses (learnt (B "node10"))), curr_conns c')] /\
    curr_imss (ses c') = curr_imss (ses (learnt (B "node10"))).
Proof.
  apply (added_server_connected sample_hosts on on no_hangup all_memory all_eps (B "node10") 100 (learnt (B "node10"))
    (sample_info (B "imss://f") "F") 0%nat).
  - apply learnt_newcomer.
  - simpl. lia.
  - lia.
  - by apply sample_served; [lia|eexists].
  - reflexivity.
  - reflexivity.
  - simpl. lia.
Defined.

Lemma unreachable_server_stays_witness :
  exists c', AddBackEndServer2Imss sample_hosts on on no_hangup all_memory all_eps (learnt (B "node7")) = Ret (-1, c') /\
    curr_imss (ses c') = curr_imss (ses (learnt (B "node7"))) /\
    send_ep (conn_eps (curr_conns c')) (num_storages (curr_imss (ses c')) - 1) = Exit (-1).
Proof.
  apply (unreachable_server_stays sample_hosts on on no_hangup all_memory all_eps (B "node7") (learnt (B "node7"))).
  - apply learnt_newcomer.
  - reflexivity.
Defined.

Lemma connect_nodes_info_witness :
  exists c', connect_nodes sample_hosts on on no_hangup all_memory all_eps [B "node1"; B "node7"; B "node10"] (learnt (B "node10"))
      = Ret c' /\
    add_nodes [B "node1"; B "node7"; B "node10"] (curr_imss (ses (learnt (B "node10")))) = Ret (curr_imss (ses c')).
Proof.
  eexists. split; [vm_compute; reflexivity|].
  apply (connect_nodes_info sample_hosts on on no_hangup all_memory all_eps [B "node1"; B "node7"; B "node10"] (learnt (B "node10"))).
  vm_compute. reflexivity.
Defined.

Lemma release_imss_forgets_witness :
  exists c', release_imss (big_env 4096) IMSS_ROOT joined = Ret (0, c') /\
    servers (wld (ses c')) = forget_client (big_env 4096) <$> [sample_server; sample_server] /\
    inbox (wld (ses c')) = [] /\ vector c' = [empty_imss] /\ imssd (wld (ses c')) = fst <$> vector c' /\
    free_imssd c' = [1; 2; 0] /\ release_imss (big_env 4096) IMSS_ROOT c' = Ret (-1, c').
Proof.
  apply (release_imss_forgets (big_env 4096) eq_refl IMSS_ROOT [] [] the_instance to_node1 joined).
  - reflexivity.
  - reflexivity.
  - discriminate.
  - reflexivity.
  - by apply Forall_nil_2.
  - reflexivity.
  - reflexivity.
  - apply Forall_cons_2; [by eexists|]. apply Forall_cons_2; [by eexists|]. by apply Forall_nil_2.
  - apply Forall_cons_2; [done|]. apply Forall_cons_2; [done|]. by apply Forall_nil_2.
Defined.
