(* ===== verification/Worker.v ===== *)
(** * The worker threads of a server

    A request travels as one message, the length of the sender's address, the
    array with the line, the address ([send_req], src/src/comms.c).  A worker
    thread of a server ([hercules_ucx_server], src/src/workers.c) takes the
    messages one by one, finds or creates the endpoint of the sender in its map
    (src/src/map_server_eps.cpp) and calls the handler of its kind of server,
    whose replies go to that endpoint.  The interface [Handler] is what the
    thread needs of the handlers; DataServer.v and MetaServer.v implement it.  At
    the end, the thread that cleans the maps ([GarbageCollector]). *)

From S2P Require Import Prelude Types Paths Store DataServer Wire Sessions Client Comms MetaStore Elasticity MetaServer Datasets Lifecycle Snapshots Dispatcher Connect.

(** ** [send_req] *)

(** What UCX returns for a message: it has been sent, it failed, or it is under
    way and ends well or not. *)
Inductive ucx_request := Completed | Failed | Underway (ends_ok : bool).

(** [ucx_wait]: whether the status is [UCS_OK].  A request under way is released
    at the end. *)
Definition ucx_wait (r : ucx_request) : bool :=
  match r with Completed => true | Failed => false | Underway b => b end.

(** [sizeof(msg_req_t)]. *)
Definition sizeof_msg_req : Z := 8 + REQUEST_SIZE.

(** The message: [calloc], the length, the line with its terminator, the
    address behind the structure. *)
Definition request_message (addr req : bytes) : outcome bytes :=
  let msg := zeros (sizeof_msg_req + strlen addr) in
  let* msg := write_at msg 0 (le_put 8 (strlen addr)) in
  let* msg := write_at msg 8 (req ++ [NUL]) in
  write_at msg sizeof_msg_req addr.

(** The number of bytes, 0 on failure, and the message that leaves.  The status
    is asked once more of the request after [ucx_wait] has released it; [stale]
    is what is found there. *)
Definition send_req (malloc_ok : Z -> bool) (r : ucx_request) (stale : bool) (ep : option bytes) (addr req : bytes)
  : outcome (Z * option bytes) :=
  match ep with
  | None => Exit (-1)
  | Some _ =>
      let msg_len := sizeof_msg_req + strlen addr in
      if negb (malloc_ok msg_len) then Exit (-1)
      else
        let* msg := request_message addr req in
        let sent := match r with Failed => None | _ => if ucx_wait r then Some msg else None end in
        match r with
        | Completed => Ret (msg_len, sent)
        | _ => Ret (if stale then msg_len else 0, sent)
        end
  end.

(** What the thread reads of a message: the address and the line. *)
Definition read_message (msg : bytes) : outcome (bytes * bytes) :=
  let* l := read_at msg 0 8 in
  let* addr := read_at msg sizeof_msg_req (le_get l) in
  match strchr NUL (drop 8 msg) with
  | None => Undef OutOfBounds
  | Some i => Ret (addr, take i (drop 8 msg))
  end.

(** ** The map of endpoints *)

Abbreviation eps_map := (gmap Z (option bytes)).

Definition map_server_eps_create : eps_map := ∅.

(** [insert] keeps an entry that is there. *)
Definition map_server_eps_put (uuid : Z) (ep : option bytes) (m : eps_map) : eps_map :=
  match m !! uuid with Some _ => m | None => <[uuid := ep]> m end.

(** The endpoint that is closed, unless it is null. *)
Definition map_server_eps_erase (uuid : Z) (m : eps_map) : option bytes * eps_map :=
  match m !! uuid with Some ep => (ep, delete uuid m) | None => (None, m) end.

Definition map_server_eps_search (uuid : Z) (m : eps_map) : Z * option bytes :=
  match m !! uuid with Some ep => (1, ep) | None => (-1, None) end.

Definition map_server_eps_get_size (m : eps_map) : Z := Z.of_nat (size m).

(** [check_endpoint]: an endpoint whose flush fails is forgotten. *)
Definition check_endpoint (flush_ok : bool) (uid : Z) (m : eps_map) : Z * eps_map :=
  if flush_ok then (0, m) else (-1, snd (map_server_eps_erase uid m)).

(** ** The thread that cleans *)

(** [GarbageCollector]: at each signal, whether it is told to finish. *)
Fixpoint GarbageCollector {S} (clean : S -> S) (signals : list bool) (s : S) : S :=
  match signals with
  | [] => s
  | finish :: rest => if finish then s else GarbageCollector clean rest (clean s)
  end.

(** ** Handlers *)

(** [handle uid req payload s]: a request of the client [uid]; [clients] are the
    clients with an endpoint, of which a handler forgets at most its own. *)
Class Handler (S : Type) := {
  handle : Z -> bytes -> bytes -> S -> outcome (Z * list reply * S);
  clients : S -> gset Z;
  set_clients : gset Z -> S -> S;
  clients_set : forall x s, clients (set_clients x s) = x;
  handle_clients : forall uid req p s r out s',
    handle uid req p s = Ret (r, out, s') -> clients s' = clients s \/ clients s' = clients s ∖ {[uid]}
}.

(** ** The thread *)

Section worker.
Context {S : Type} `{Handler S}.
(** The identity of a worker in its address, the creation of an endpoint, the
    message that follows a request. *)
Context (uid_of : bytes -> Z) (ep_ok : bytes -> bool).

Record worker := mkWorker { state : S; endpoints : eps_map }.

(** What the probe finds: the thread is told to finish, or a message with the
    bytes that follow it on the data channel, whether it can be stored and
    whether it is received. *)
Inductive probe :=
| Finish
| Arrived (msg payload : bytes) (stored received : bool).

(** The endpoint of a sender: the one of the map, or a new one. *)
Definition endpoint_for (uid : Z) (addr : bytes) (m : eps_map) : outcome (option bytes * eps_map) :=
  let '(ret, ep) := map_server_eps_search uid m in
  if ret <? 0
  then let* ep := client_create_ep_data ep_ok addr in Ret (ep, map_server_eps_put uid ep m)
  else Ret (ep, m).

(** A reply cannot be sent to a null endpoint. *)
Definition address_replies (ep : option bytes) (out : list reply) : outcome (list (bytes * reply)) :=
  match ep, out with
  | _, [] => Ret []
  | None, _ => Undef NullDeref
  | Some a, _ => Ret ((fun r => (a, r)) <$> out)
  end.

(** One turn of the loop; [None] when the thread ends. *)
Definition serve_message (p : probe) (w : worker) : outcome (option (list (bytes * reply) * worker)) :=
  match p with
  | Finish => Ret None
  | Arrived msg payload stored received =>
      if negb stored || negb received then Ret (Some ([], w))
      else
        let* (addr, req) := read_message msg in
        let uid := uid_of addr in
        let* (ep, m) := endpoint_for uid addr (endpoints w) in
        let* (_, out, s) := handle uid req payload (set_clients ({[uid]} ∪ clients (state w)) (state w)) in
        let* replies := address_replies ep out in
        let m := if decide (uid ∈ clients s) then m else snd (map_server_eps_erase uid m) in
        Ret (Some (replies, mkWorker s m))
  end.

(** [hercules_ucx_server] on the probes of its life. *)
Fixpoint hercules_ucx_server (ps : list probe) (w : worker) : outcome (list (bytes * reply) * worker) :=
  match ps with
  | [] => Ret ([], w)
  | p :: rest =>
      let* r := serve_message p w in
      match r with
      | None => Ret ([], w)
      | Some (out, w) => let* (more, w) := hercules_ucx_server rest w in Ret (out ++ more, w)
      end
  end.
End worker.
Arguments worker S : clear implicits.

(** ** The handlers of the servers *)

(** The environment of a client's request. *)
Definition for_client (uid : Z) (p : bytes) (e : env) : env :=
  mkEnv (BLOCK_SIZE e) (my_uri e) (arg_prefetch_size e) (num_data_servers e) uid (malloc e) p (recv_ok e) (send_ok e).
Definition for_mclient (uid : Z) (p : bytes) (x : menv) : menv :=
  mkMenv (m_imss_uri x) uid (m_args x) (m_num_data_servers x) p (m_malloc_ok x) (m_recv_ok x) (m_send_ok x)
    (m_connect_ok x) (m_ptr x).

(** A handler keeps the registered clients but for the one of the request. *)
Definition keeps_clients (e : env) (s s' : server) : Prop :=
  eps s' = eps s \/ eps s' = eps s ∖ {[worker_uid e]}.

Lemma insert_block_clients e snap rq b size len reused s r s' :
  insert_block e snap rq b size len reused s = Ret (r, s') -> eps s' = eps s.
Proof. unfold insert_block. intros H. ret_cases H; repeat case_match; by simplify_eq. Qed.

Lemma finish_insert_state e sent m r out s' : finish_insert e sent m = Ret (r, out, s') -> exists z, m = Ret (z, s').
Proof. unfold finish_insert. destruct m as [[z s1]| |]; try done. simpl. case_match; intros; simplify_eq; eauto. Qed.

Lemma write_new_clients e snap rq s r out s' :
  write_new_msg e snap rq s = Ret (r, out, s') \/ write_new_shm e snap rq s = Ret (r, out, s') -> eps s' = eps s.
Proof.
  unfold write_new_msg, write_new_shm.
  intros [H|H]; ret_cases H; try done; apply finish_insert_state in H as (? & H);
    by apply insert_block_clients in H.
Qed.

Lemma write_op_clients e shared snap rq s r out s' :
  write_op e shared snap rq s = Ret (r, out, s') -> eps s' = eps s.
Proof.
  unfold write_op. intros H. apply obind_Ret in H as ([v|] & _ & H).
  - unfold write_zero, write_existing, update_simple in H. ret_cases H; try done; repeat case_match; done.
  - destruct shared; by eapply write_new_clients; eauto.
Qed.

Lemma read_op_clients e shared rq s r out s' :
  read_op e shared rq s = Ret (r, out, s') -> keeps_clients e s s'.
Proof.
  unfold read_op, read_block, read_prefetch, unlink_op, delete_op, rename_op, rename_dir_dir_op, setContentSMByID,
    store_field, keeps_clients. intros H. ret_cases H; try (by left); try (by right).
  - match goal with H : _ = Ret (Some s') |- _ => ret_cases H end. by left.
  - left. by apply readv_keeps in H as ->.
  - left. by apply split_readv_keeps in H as ->.
Qed.

Lemma srv_clients e req s r out s' : srv_worker_helper e req s = Ret (r, out, s') -> keeps_clients e s s'.
Proof.
  unfold srv_worker_helper. intros H. apply obind_Ret in H as ([mode rest] & _ & H).
  destruct (CheckForMalleability req s) as [g sg] eqn:Hg.
  assert (eps sg = eps s) as Hsg.
  { unfold CheckForMalleability in Hg. destruct (malleability_on s); by injection Hg as _ <-. }
  ret_cases H; try (by left); repeat case_match; try (by left);
    first [apply read_op_clients in H|apply write_op_clients in H; left; by rewrite ?Hsg in H];
    unfold keeps_clients in *; by rewrite ?Hsg in H.
Qed.

Lemma store_dataset_meps k v d s s' : store_dataset k v d s = Ret s' -> meps s' = meps s.
Proof. unfold store_dataset. intros H. by ret_cases H. Qed.

Lemma drop_entry_meps k s s' : drop_entry k s = Ret s' -> meps s' = meps s.
Proof. unfold drop_entry. intros H. by ret_cases H. Qed.

Lemma recover_meps k v d s d' s' : recover k v d s = Ret (d', s') -> meps s' = meps s.
Proof. unfold recover. intros H. ret_cases H; try done. by apply store_dataset_meps in Heqo0. Qed.

Lemma store_instance_meps i s s' : store_instance i s = Ret s' -> meps s' = meps s.
Proof. unfold store_instance. intros H. by ret_cases H. Qed.

Ltac meps_kept :=
  repeat match goal with
         | H : store_dataset _ _ _ _ = Ret _ |- _ => apply store_dataset_meps in H
         | H : drop_entry _ _ = Ret _ |- _ => apply drop_entry_meps in H
         | H : recover _ _ _ _ = Ret _ |- _ => apply recover_meps in H
         | H : store_instance _ _ = Ret _ |- _ => apply store_instance_meps in H
         end; simpl in *; try congruence.

Lemma mget_meps x rq key s r out s' : mget x rq key s = Ret (r, out, s') ->
  meps s' = meps s \/ meps s' = meps s ∖ {[m_worker_uid x]}.
Proof.
  unfold mget, getdir_op, mread_op, mdelete_op, mrename_op, mrename_dir_op, mclose_op, mopen_op, release_op, mconfirm.
  intros H. ret_cases H; try (by left); try (by right); left; meps_kept.
Qed.

Lemma performance_meps x s r out s' : performance_op x s = Ret (r, out, s') -> meps s' = meps s.
Proof.
  unfold performance_op. intros H. apply obind_Ret in H as (s1 & H1 & H). apply obind_Ret in H as (i & _ & H).
  apply obind_Ret in H as ([[r1 st] i1] & _ & H). apply obind_Ret in H as (s2 & H2 & H).
  assert (meps s1 = meps s) as <- by (ret_cases H1; repeat case_match; by simplify_eq).
  ret_cases H2; simpl in H; injection H as _ _ <-; meps_kept.
Qed.

Lemma mset_meps x rq key perf s r out s' : mset_op x rq key perf s = Ret (r, out, s') -> meps s' = meps s.
Proof.
  unfold mset_op. intros H. destruct perf.
  - apply obind_Ret in H as ([[r1 out1] s1] & H1 & H). apply performance_meps in H1. by injection H as _ _ <-.
  - apply obind_Ret in H as (found & _ & H). apply obind_Ret in H as ([r1 s1] & H1 & H). injection H as _ _ <-.
    destruct found; unfold create_op, update_op in H1; ret_cases H1; meps_kept.
Qed.

Lemma stat_clients x req s r out s' : stat_worker_helper x req s = Ret (r, out, s') ->
  meps s' = meps s \/ meps s' = meps s ∖ {[m_worker_uid x]}.
Proof.
  unfold stat_worker_helper, decom_op, setserver_op. intros H.
  destruct (streq req MSG_DECOM_DATASERVERS); [ret_cases H; left; meps_kept|].
  apply obind_Ret in H as (rq & _ & H).
  destruct (streq (mmode rq) (B "SETSERVER")); [ret_cases H; left; meps_kept|].
  destruct (streq (mmode rq) (B "GET")); [by apply mget_meps in H|].
  destruct (streq (mmode rq) (B "SET")); [left; by apply mset_meps in H|].
  destruct (streq (mmode rq) (B "SETPERFORMANCE")); [left; by apply mset_meps in H|].
  injection H as _ _ <-. by left.
Qed.

(** The servers as handlers. *)
#[export] Program Instance data_handler (e : env) : Handler server := {
  handle uid req p s := srv_worker_helper (for_client uid p e) req s;
  clients := eps;
  set_clients x s := set_eps x s
}.
Next Obligation. done. Qed.
Next Obligation. intros e uid req p s r out s' H. by apply srv_clients in H. Qed.

#[export] Program Instance meta_handler (x : menv) : Handler mserver := {
  handle uid req p s := stat_worker_helper (for_mclient uid p x) req s;
  clients := meps;
  set_clients y s := mkMserver (mstore s) (curr_global_imss s) (el s) y
}.
Next Obligation. done. Qed.
Next Obligation. intros x uid req p s r out s' H. by apply stat_clients in H. Qed.

(** ** A message arrives as it was sent *)

Lemma write_first (a c src : bytes) : length src = length a -> write_at (a ++ c) 0 src = Ret (src ++ c).
Proof. intros. by apply (write_mid [] a c src 0). Qed.

Lemma write_last (pre a src : bytes) k :
  k = strlen pre -> length src = length a -> write_at (pre ++ a) k src = Ret (pre ++ src).
Proof. intros Hk Hl. rewrite <- (app_nil_r a), (write_mid pre a [] src k Hk Hl). by rewrite app_nil_r. Qed.

Lemma read_last (pre a : bytes) k n : k = strlen pre -> n = strlen a -> read_at (pre ++ a) k n = Ret a.
Proof. intros Hk Hn. rewrite <- (app_nil_r a) at 1. by apply read_mid. Qed.

Lemma length_zeros n s : 0 <= n -> n = strlen s -> length s = length (zeros n).
Proof. intros Hn ->. unfold zeros. rewrite repeat_length. unfold strlen. lia. Qed.

Lemma request_arrives addr req :
  strlen req < REQUEST_SIZE -> NUL ∉ req -> strlen addr < 2 ^ 64 ->
  exists msg, request_message addr req = Ret msg /\ read_message msg = Ret (addr, req).
Proof.
  intros Hr Hn Ha. pose proof (strlen_nonneg req). pose proof (strlen_nonneg addr).
  assert (strlen (le_put 8 (strlen addr)) = 8) as H8 by (unfold strlen; by rewrite length_le_put).
  assert (strlen (req ++ [NUL]) = strlen req + 1) as Hr1 by (by rewrite strlen_app).
  set (gap := zeros (REQUEST_SIZE - 1 - strlen req)).
  exists (le_put 8 (strlen addr) ++ (req ++ [NUL]) ++ gap ++ addr). split.
  - unfold request_message, sizeof_msg_req.
    replace (8 + REQUEST_SIZE + strlen addr)
      with (8 + ((strlen req + 1) + ((REQUEST_SIZE - 1 - strlen req) + strlen addr))) by lia.
    rewrite (zeros_app 8), (zeros_app (strlen req + 1)), (zeros_app (REQUEST_SIZE - 1 - strlen req)) by lia. fold gap.
    rewrite write_first by (by rewrite length_le_put). cbn [obind].
    rewrite write_mid by (try lia; apply length_zeros; lia). cbn [obind].
    rewrite !(app_assoc _ gap), (app_assoc (le_put _ _)), write_last.
    + by rewrite <- !app_assoc.
    + rewrite !strlen_app, H8. unfold gap. rewrite strlen_zeros by lia.
      change (strlen [NUL]) with 1. unfold sizeof_msg_req. lia.
    + apply length_zeros; lia.
  - unfold read_message. rewrite (read_at_prefix (le_put 8 (strlen addr))) by lia. cbn [obind].
    rewrite le_get_put_small by lia.
    rewrite !(app_assoc _ gap), (app_assoc (le_put _ _)), read_last; [|..|done].
    2: { rewrite !strlen_app, H8. unfold gap, sizeof_msg_req. rewrite strlen_zeros by lia.
         change (strlen [NUL]) with 1. lia. }
    cbn [obind]. rewrite <- !app_assoc, drop_app_length' by (by rewrite length_le_put).
    cbn [app]. rewrite strchr_app_first by done. by rewrite take_app_length.
Qed.

(** ** The thread serves its clients as the handler would *)

(** A request of a client: the address of its worker, the line, what follows. *)
Record client_request := mkRequest { sender : bytes; line : bytes; follows : bytes }.

Definition sendable (q : client_request) : Prop := strlen (line q) < REQUEST_SIZE /\ NUL ∉ line q.

Section serving.
Context {S : Type} `{Handler S}.
Context (uid_of : bytes -> Z) (ep_ok : bytes -> bool).

(** The clients of the server: their addresses can be read and have different
    identities. *)
Context (client : bytes -> Prop).
Context (client_addr : forall a, client a -> a <> [] /\ strlen a < 2 ^ 64 /\ ep_ok a = true).
Context (client_uid : forall a b, client a -> client b -> uid_of a = uid_of b -> a = b).

(** The specification: the handler on one request after the other, the replies
    to the client that asked. *)
Fixpoint handle_all (qs : list client_request) (s : S) : outcome (list (bytes * reply) * S) :=
  match qs with
  | [] => Ret ([], s)
  | q :: rest =>
      let uid := uid_of (sender q) in
      let* (_, out, s) := handle uid (line q) (follows q) (set_clients ({[uid]} ∪ clients s) s) in
      let* (more, s) := handle_all rest s in
      Ret (((fun r => (sender q, r)) <$> out) ++ more, s)
  end.

(** What the probes of a thread find: the requests in order, among messages that
    are not received, until the thread is told to finish. *)
Inductive arrivals : list client_request -> list probe -> Prop :=
| no_more : arrivals [] []
| told_to_finish ps : arrivals [] (Finish :: ps)
| not_received qs ps msg p stored received :
    stored && received = false -> arrivals qs ps -> arrivals qs (Arrived msg p stored received :: ps)
| request_received q qs ps msg :
    client (sender q) -> sendable q -> request_message (sender q) (line q) = Ret msg -> arrivals qs ps ->
    arrivals (q :: qs) (Arrived msg (follows q) true true :: ps).

(** The map of endpoints holds the clients of the state, each under its identity. *)
Definition agrees (w : worker S) : Prop :=
  dom (endpoints w) = clients (state w) /\
  forall uid ep, endpoints w !! uid = Some ep -> exists a, ep = Some a /\ client a /\ uid_of a = uid.

Lemma endpoint_of a (w : worker S) : client a -> agrees w ->
  exists m, endpoint_for ep_ok (uid_of a) a (endpoints w) = Ret (Some a, m) /\
    agrees (mkWorker (set_clients ({[uid_of a]} ∪ clients (state w)) (state w)) m).
Proof.
  intros Hc [Hd Hm]. destruct (client_addr a Hc) as (Hne & _ & He).
  unfold endpoint_for, map_server_eps_search, agrees. simpl. rewrite clients_set.
  destruct (endpoints w !! uid_of a) as [ep|] eqn:Hl.
  - destruct (Hm _ _ Hl) as (b & -> & Hb & Hu). apply client_uid in Hu as ->; [|done|done].
    exists (endpoints w). split; [done|]. split; [|done]. apply elem_of_dom_2 in Hl. set_solver.
  - unfold client_create_ep_data. destruct a as [|c a]; [done|]. rewrite He. simpl. eexists. split; [done|].
    unfold map_server_eps_put. rewrite Hl. split; [rewrite dom_insert_L; by rewrite Hd|].
    intros uid ep [[<- <-]|[_ He']]%lookup_insert_Some; eauto.
Qed.

Lemma agrees_after uid req p s m r out s' :
  agrees (mkWorker s m) -> handle uid req p s = Ret (r, out, s') ->
  agrees (mkWorker s' (if decide (uid ∈ clients s') then m else snd (map_server_eps_erase uid m))).
Proof.
  intros [Hd Hm] Hh. simpl in *. pose proof (handle_clients _ _ _ _ _ _ _ Hh) as Hcs. unfold agrees. simpl.
  case_decide as Hin; [split; [set_solver|done]|]. unfold map_server_eps_erase.
  destruct (m !! uid) as [ep|] eqn:Hl; simpl.
  - split; [|intros u e [_ He]%lookup_delete_Some; eauto]. rewrite dom_delete_L. set_solver.
  - apply not_elem_of_dom in Hl. split; [set_solver|done].
Qed.

Lemma replies_to a out : address_replies (Some a) out = Ret ((fun r => (a, r)) <$> out).
Proof. by destruct out. Qed.

Lemma one_request q msg w : agrees w -> client (sender q) -> sendable q -> request_message (sender q) (line q) = Ret msg ->
  exists m, let s := set_clients ({[uid_of (sender q)]} ∪ clients (state w)) (state w) in
    serve_message uid_of ep_ok (Arrived msg (follows q) true true) w
    = (let* (_, out, s') := handle (uid_of (sender q)) (line q) (follows q) s in
       Ret (Some ((fun r => (sender q, r)) <$> out,
         mkWorker s' (if decide (uid_of (sender q) ∈ clients s') then m
                      else snd (map_server_eps_erase (uid_of (sender q)) m))))) /\
    agrees (mkWorker s m).
Proof.
  intros Ha Hc [Hl Hn] Hmsg. destruct (client_addr _ Hc) as (_ & Hlen & _).
  destruct (request_arrives _ _ Hl Hn Hlen) as (msg' & Hm' & Hr). rewrite Hmsg in Hm'. injection Hm' as <-.
  destruct (endpoint_of _ _ Hc Ha) as (m & He & Ham). exists m. split; [|done].
  unfold serve_message. cbn [negb orb]. rewrite Hr. cbn [obind]. rewrite He. cbn [obind].
  by destruct (handle _ _ _ _) as [[[r out] s']| |]; cbn [obind]; rewrite ?replies_to.
Qed.

(** C17. Messages that clients sent, in the order they are found and among others that
    are lost, are served as the handler would serve the requests one after the
    other, each reply to the client that asked, the outcome included; afterwards
    the map of endpoints again holds the registered clients. *)
Theorem worker_serves qs ps w : arrivals qs ps -> agrees w ->
  match handle_all qs (state w) with
  | Ret (out, s) => exists m, hercules_ucx_server uid_of ep_ok ps w = Ret (out, mkWorker s m) /\ agrees (mkWorker s m)
  | Exit c => hercules_ucx_server uid_of ep_ok ps w = Exit c
  | Undef u => hercules_ucx_server uid_of ep_ok ps w = Undef u
  end.
Proof.
  intros Hp. revert w. induction Hp as [|ps|qs ps msg p st rc Hlost _ IH|q qs ps msg Hc Hs Hmsg _ IH]; intros w Ha.
  1, 2: exists (endpoints w); by destruct w.
  - specialize (IH w Ha). cbn [hercules_ucx_server serve_message].
    rewrite <- negb_andb, Hlost. cbn [negb obind].
    destruct (handle_all qs (state w)) as [[out s]| |]; [destruct IH as (m & -> & Hm); eauto|by rewrite IH..].
  - destruct (one_request q msg w Ha Hc Hs Hmsg) as (m & Hstep & Hm).
    cbn [hercules_ucx_server handle_all]. rewrite Hstep.
    destruct (handle _ _ _ _) as [[[r out] s']| |] eqn:Hh; cbn [obind]; [|done|done].
    specialize (IH _ (agrees_after _ _ _ _ _ _ _ _ Hm Hh)). simpl in IH.
    destruct (handle_all qs s') as [[more s'']| |]; cbn [obind]; [|by rewrite IH|by rewrite IH].
    destruct IH as (m' & -> & Hm'). cbn [obind]. eauto.
Qed.
End serving.

(** ** Examples: two clients of a data server *)

Definition alpha : bytes := B "alpha".
Definition beta : bytes := B "beta".
Definition sample_client (a : bytes) : Prop := a ∈ [alpha; beta].
Definition sample_life : list client_request :=
  [mkRequest alpha (B "SET 2 1 imss://a$1") (B "xy"); mkRequest beta (B "GET 0 1 imss://a$1 2") [];
   mkRequest alpha release_msg_data []].
Definition message_of (q : client_request) : bytes :=
  match request_message (sender q) (line q) with Ret msg => msg | _ => [] end.
Definition sample_probes : list probe :=
  [Arrived (message_of (mkRequest alpha (B "SET 2 1 imss://a$1") [])) (B "xy") true true; Arrived [] [] false false;
   Arrived (message_of (mkRequest beta (B "GET 0 1 imss://a$1 2") [])) [] true true;
   Arrived (message_of (mkRequest alpha release_msg_data [])) [] true true; Finish].

Lemma message_of_eq q : (exists m, request_message (sender q) (line q) = Ret m) ->
  request_message (sender q) (line q) = Ret (message_of q).
Proof. intros [m Hm]. unfold message_of. by rewrite Hm. Qed.

Lemma sample_addr a : sample_client a -> a <> [] /\ strlen a < 2 ^ 64 /\ true = true.
Proof. intros [->| ->%list_elem_of_singleton]%elem_of_cons; by vm_compute. Qed.

Lemma sample_uid a b : sample_client a -> sample_client b -> le_get a = le_get b -> a = b.
Proof.
  intros [->| ->%list_elem_of_singleton]%elem_of_cons [->| ->%list_elem_of_singleton]%elem_of_cons; by vm_compute.
Qed.

Lemma sample_sendable a l p : (strlen l <? REQUEST_SIZE) && bool_decide (NUL ∉ l) = true -> sendable (mkRequest a l p).
Proof. intros [?%Z.ltb_lt ?%bool_decide_eq_true]%andb_true_iff. by split. Qed.

Lemma sample_arrivals : arrivals sample_client sample_life sample_probes.
Proof.
  repeat first [apply told_to_finish
    | apply not_received; [done|]
    | apply request_received; [set_solver|by apply sample_sendable; vm_compute|apply (message_of_eq (mkRequest _ _ []));
        eexists; vm_compute; reflexivity|]].
Qed.

Lemma worker_serves_witness :
  exists m s, hercules_ucx_server (S := server) (H := data_handler (sample_env [])) le_get (fun _ => true) sample_probes
      (mkWorker sample_server map_server_eps_create)
    = Ret ([(alpha, Msg MSG_OK_OP); (beta, Data (B "xy"))], mkWorker s m) /\ dom m = {[le_get beta]}.
Proof.
  pose proof (worker_serves (H := data_handler (sample_env [])) le_get (fun _ => true) sample_client sample_addr sample_uid
    sample_life sample_probes (mkWorker sample_server map_server_eps_create) sample_arrivals) as Hw.
  destruct (handle_all _ _ _) as [[out s]| |] eqn:Hh; vm_compute in Hh; [|discriminate Hh..].
  injection Hh as <- <-. destruct Hw as (m & Hr & Hd & _); [by split; [done|intros uid ep Hl]|].
  exists m. eexists. split; [exact Hr|]. etransitivity; [exact Hd|]. by vm_compute.
Defined.
