(* ===== verification/Server.v ===== *)
(** * The life of a server process

    [main] of src/app/server.c after its settings are known (Settings.v): a data
    server asks the metadata servers whether its URI is taken, starts its
    threads, announces the instance if it is the first one and itself in any
    case; then the process waits for its threads.  [handle_signal_server] is
    what the shutdown script reaches it with.

    The process uses the state [client] of Connect.v: it is a client of the
    metadata servers.  [main] has two UCX workers, one of its own and the one
    [stat_init] makes, so the replies to requests sent with the first are not in
    the queue of the second. *)

From S2P Require Import Prelude Types Policies Paths Store DataServer Wire Sessions Client Comms MetaStore Elasticity MetaServer Datasets Lifecycle Dispatcher Connect Settings.

(** ** Threads *)

Inductive service :=
| AcceptClients
| CollectGarbage
| WriteSnapshots
| ServeRequests (aux_idx : nat).

Definition is_data (type : ascii) : bool := ascii_eqb type "d"%char.

(** Dispatcher, garbage collector and, on a data server, snapshots. *)
Definition extra_threads (type : ascii) : nat := if is_data type then 3 else 2.

Definition service_of (type : ascii) (i : nat) : service :=
  match i with
  | O => AcceptClients
  | S O => CollectGarbage
  | _ => if (i =? 2)%nat && is_data type then WriteSnapshots else ServeRequests (i - extra_threads type)
  end.

(** Whether UCX makes worker [i], whether it tells its address, and the
    address. *)
Record workers_env := mkWorkers {
  init_worker_ok_at : nat -> bool;
  query_ok_at : nat -> bool;
  address_at : nat -> bytes
}.

(** [arr[i] = x] for an array from [malloc]. *)
Definition put_slot {A} (i : nat) (x : A) (l : list (option A)) : outcome (list (option A)) := put_at i x l.

(** The loop that starts the threads.  [pthread_create] returns an error
    number, which is never the -1 it is compared with, so a thread that does not
    start is not noticed.  The result holds [local_addr], [None] when the
    process gives up. *)
Fixpoint deploy (w : workers_env) (mk : marker_env) (type : ascii) (order : list nat) (addrs : list (option bytes))
  : outcome (option (list (option bytes))) :=
  match order with
  | [] => Ret (Some addrs)
  | i :: rest =>
      match service_of type i with
      | ServeRequests j =>
          if negb (init_worker_ok_at w j) || negb (query_ok_at w j)
          then let* _ := ready mk (B "ERROR") in Ret None
          else let* addrs := put_slot j (address_at w j) addrs in deploy w mk type rest addrs
      | _ => deploy w mk type rest addrs
      end
  end.

Definition total_threads (type : ascii) (a : arguments) : nat :=
  (Z.to_nat (u16 (thread_pool a)) + extra_threads type)%nat.

Definition start_threads (w : workers_env) (mk : marker_env) (type : ascii) (a : arguments)
  : outcome (option (list (option bytes))) :=
  deploy w mk type (seq 0 (total_threads type a)) (repeat None (Z.to_nat (u16 (thread_pool a)))).

(** ** A data server *)

Section data_server.
Context (e : env) (menv_of : Z -> menv).
Context (getaddrinfo : bytes -> bytes -> option (list nat)) (socket_ok sock_send_ok : nat -> bool)
  (hangup : nat -> option Z) (malloc_ok : Z -> bool) (ep_ok : bytes -> bool).

(** The exchange with a dispatcher.  What [recv] returns is not looked at:
    without an answer the address is read from memory that was never written. *)
Definition main_greet (host : bytes) (port id : Z) (ds : list dispatcher)
  : outcome (option bytes * list dispatcher) :=
  match connect_common getaddrinfo socket_ok host port ds with
  | None => Ret (None, ds)
  | Some a =>
      match ds !! a with
      | None => Ret (None, ds)
      | Some d =>
          if negb (sock_send_ok a) then Ret (None, ds)
          else
            let* (r, d) := Dispatcher_turn true true
                             (Some (Some (put_str (Z.to_nat REQUEST_SIZE) (join_line id (B "MAIN!QUERRY"))))) d in
            let ds := <[a := d]> ds in
            match r with
            | Replied [] => Undef Uninitialised
            | Replied out =>
                let stream := concat out in
                let addr_len := le_get (take 8 stream) in
                if malloc_ok addr_len then Ret (Some (take (Z.to_nat addr_len) (drop 8 stream)), ds)
                else Undef NullDeref
            | Unanswered => if hangup a is None then Undef Deadlock else Undef Uninitialised
            end
      end
  end.

(** Whether the URI is taken, asked by data server 0 only: the number the server
    goes on with, and [imss_exists]. *)
Definition ask_uri (i : Z) (uri : bytes) (eps : list (option bytes)) (id : Z) (taken : bool) (s : session)
  : outcome (option (Z * bool) * session) :=
  if negb (id =? 0) then Ret (Some (id, taken), s)
  else
    let* _ := send_ep eps i in
    let* (m, s) := exchange e menv_of i (meta_line IMSS_INFO (B "GET") (B "0") uri) [] s in
    match m with
    | None => Ret (None, s)
    | Some msg =>
        let* (ret, im) := recv_imss msg in
        if ret =? -1 then Ret (Some (0, taken), s)
        else match im with
             | None => Undef Uninitialised
             | Some im => Ret (Some (Z.max 0 (num_storages im), true), s)
             end
    end.

(** The loop over the metadata hostfile.  [hello] is the local [id], the number
    the server was started with; [id] is [args.id], which an answer may change. *)
Fixpoint query_loop (k : nat) (i : Z) (f : bytes) (port : Z) (uri : bytes) (hello id : Z) (taken : bool)
    (eps : list (option bytes)) (c : client) : outcome (option (Z * bool * list (option bytes)) * client) :=
  match k with
  | O => Ret (Some (id, taken, eps), c)
  | S k' =>
      match getline f with
      | None => Undef OutOfBounds
      | Some (line, f) =>
          let* (r, ds) := main_greet (chomp line) port hello (dispatchers c) in
          let c := set_dispatchers ds c in
          match r with
          | None => Ret (None, c)
          | Some addr =>
              let* ep := client_create_ep_data ep_ok addr in
              let eps := eps ++ [ep] in
              let* (r, s) := ask_uri i uri eps id taken (ses c) in
              let c := set_ses s c in
              match r with
              | None => Ret (None, c)
              | Some (id, taken) => query_loop k' (i + 1) f port uri hello id taken eps c
              end
          end
      end
  end.

(** The instance server 0 announces, without servers. *)
Definition new_instance (a : arguments) (init_number : Z) : outcome imss_info :=
  if URI_ <=? strlen (args_imss_uri a) then Undef OutOfBounds
  else Ret (mkImss (args_imss_uri a) TYPE_HERCULES_INSTANCE [] init_number 0 0 (u16 (data_port a))).

Definition announce_line (i : imss_info) : bytes :=
  meta_line IMSS_INFO (B "SET")
    (print_u (u64 (sizeof_imss + num_active_storages i * LINE_LENGTH + num_active_storages i * 4
                   + num_active_storages i * 4))) (imss_uri i).

(** To every metadata server; the confirmations stay unread. *)
Fixpoint announce (k : nat) (j : Z) (line msg : bytes) (eps : list (option bytes)) (s : session)
  : outcome (bool * session) :=
  match k with
  | O => Ret (true, s)
  | S k' =>
      let* _ := send_ep eps j in
      let* (ok, s) := ask e menv_of j line msg s in
      if ok then announce k' (j + 1) line msg eps s else Ret (false, s)
  end.

Definition announce_instance (a : arguments) (init_number ptr : Z) (eps : list (option bytes)) (s : session)
  : outcome (bool * session) :=
  let* i := new_instance a init_number in
  let* msg := send_imss ptr i in
  match msg with
  | None => Ret (false, s)
  | Some msg => announce (Z.to_nat (num_metadata_servers a)) 0 (announce_line i) msg eps s
  end.

(** ["%d SETSERVER %s %s"]. *)
Definition setserver_line (id : Z) (ip host : bytes) : bytes :=
  print_d id ++ sp :: B "SETSERVER" ++ sp :: ip ++ sp :: host.

(** A data server from its settings to its marker file: 0, or -1 when [main]
    returns an error; the number of the server and the endpoints and addresses it
    ends up with. *)
Definition data_main (x : init_env) (w : workers_env) (mk : marker_env) (a : arguments) (id init_number ptr : Z)
    (c : client) : outcome (option (Z * list (option bytes)) * client) :=
  match meta_hostfile a, stat_hostfile x with
  | [], _ => Exit 1
  | _, None => Ret (None, c)
  | _, Some f =>
      let* (r, c) := query_loop (Z.to_nat (num_metadata_servers a)) 0 f (stat_port a) (args_imss_uri a) (u32 id) id false [] c in
      match r with
      | None => Ret (None, c)
      | Some (id, _, eps) =>
          if negb (hostfile_closed x) then Ret (None, c)
          else
            let* addrs := start_threads w mk "d"%char a in
            match addrs with
            | None => Ret (None, c)
            | Some addrs =>
                let* (ok, s) := if (id =? 0) && negb (stat_port a =? 0)
                                then announce_instance a init_number ptr eps (ses c) else Ret (true, ses c) in
                let c := set_ses s c in
                if negb ok then Ret (None, c)
                else
                  let c := set_ses (set_mbox [] (ses c)) c in
                  let* (r, c) := stat_init getaddrinfo socket_ok sock_send_ok hangup malloc_ok ep_ok x
                                   (stat_port a) id c in
                  if r =? -1 then Ret (None, c)
                  else
                    let* (ok, s) := announce (Z.to_nat (num_metadata_servers a)) 0
                                      (setserver_line id (client_ip c) (data_hostname a)) [] (stat_eps c) (ses c) in
                    let c := set_ses s c in
                    if negb ok then Ret (None, c)
                    else let* _ := ready mk (B "OK") in Ret (Some (id, addrs), c)
            end
      end
  end.
End data_server.

(** ** The signal *)

(** The globals that tell the threads to finish, the socket of the dispatcher
    and [action]. *)
Record finish_vars := mkFinishing {
  finish_threads : bool;
  finish_garbage_collector : bool;
  finish_snapshot : bool;
  finish_checkpoint : bool;
  finish_dispatcher : Z;
  server_fd : Z;
  action : bytes
}.

Definition set_action (b : bytes) (st : finish_vars) : finish_vars :=
  mkFinishing (finish_threads st) (finish_garbage_collector st) (finish_snapshot st) (finish_checkpoint st)
    (finish_dispatcher st) (server_fd st) b.
Definition set_finish (t s k : bool) (st : finish_vars) : finish_vars :=
  mkFinishing t true s k (finish_dispatcher st) (server_fd st) (action st).

(** The operation of the file the script writes: 0 when it cannot be read, and
    then the terminator is written before the buffer.  At most nine characters
    are read. *)
Definition pkill_operation (file : option (option bytes)) : outcome (option Z) :=
  match file with
  | None => Ret None
  | Some None => Undef OutOfBounds
  | Some (Some b) => Ret (Some (atoi (cstr (take 9 b))))
  end.

(** The end of the snapshot and of the checkpoint is waited for; [awaited] tells
    whether the thread signals while the handler waits. *)
Definition await (finished awaited : bool) : outcome unit :=
  if finished || awaited then Ret tt else Undef Deadlock.

Definition handle_signal_server (type : ascii) (file : option (option bytes)) (snapshot_awaited checkpoint_awaited : bool)
    (mk : marker_env) (st : finish_vars) : outcome finish_vars :=
  let* op := pkill_operation file in
  match op with
  | None => Ret st
  | Some 1 =>
      let st := set_action (B "stop") st in
      let* st := if ascii_eqb type TYPE_METADATA_SERVER
                 then Ret (set_finish true (finish_snapshot st) (finish_checkpoint st) st)
                 else
                   let* _ := await (finish_snapshot st) snapshot_awaited in
                   let* _ := await (finish_checkpoint st) checkpoint_awaited in
                   let* _ := ready mk (B "LOCKED") in
                   Ret (set_finish true true true st) in
      Ret (if 0 <? server_fd st
           then mkFinishing (finish_threads st) (finish_garbage_collector st) (finish_snapshot st)
                  (finish_checkpoint st) FINISH_SYSTEM_STATUS (server_fd st) (action st)
           else st)
  | Some _ => Ret (set_action (B "remove") st)
  end.

(** ** Every worker has its slot *)

Section threads.
Context (w : workers_env) (mk : marker_env) (type : ascii).
Context (Hi : forall j, init_worker_ok_at w j = true) (Hq : forall j, query_ok_at w j = true).

Lemma deploy_workers n j pre : length pre = j ->
  deploy w mk type (seq (extra_threads type + j) n) (pre ++ repeat None n)
  = Ret (Some (pre ++ ((fun i => Some (address_at w i)) <$> seq j n))).
Proof.
  revert j pre. induction n as [|n IH]; intros j pre Hj; [done|]. cbn [seq deploy].
  assert (service_of type (extra_threads type + j) = ServeRequests j) as ->.
  { unfold service_of, extra_threads. destruct (is_data type); simpl; [by rewrite Nat.sub_0_r|].
    rewrite andb_false_r. by rewrite Nat.sub_0_r. }
  rewrite Hi, Hq. cbn [negb orb]. unfold put_slot, put_at. rewrite length_app. cbn [repeat length].
  destruct (Nat.ltb_spec j (length pre + S (length (repeat (@None bytes) n)))); [|lia]. cbn [obind].
  rewrite insert_app_r_alt, Hj, Nat.sub_diag by lia. cbn [insert list_insert].
  rewrite cons_middle, app_assoc, <- Nat.add_succ_r, IH by (rewrite length_app; simpl; lia).
  by rewrite <- app_assoc.
Qed.

(** Both kinds of server start one thread for every worker, each with the
    address of its own worker in the slot the dispatcher gives clients. *)
Lemma threads_fill_slots (a : arguments) :
  start_threads w mk type a
  = Ret (Some ((fun i => Some (address_at w i)) <$> seq 0 (Z.to_nat (u16 (thread_pool a))))).
Proof.
  unfold start_threads, total_threads. rewrite Nat.add_comm, seq_app.
  pose proof (deploy_workers (Z.to_nat (u16 (thread_pool a))) 0 [] eq_refl) as Hd. cbn [app] in Hd.
  rewrite Nat.add_0_l. rewrite Nat.add_0_r in Hd. rewrite <- Hd. clear Hd.
  unfold extra_threads. by destruct (is_data type) eqn:E; cbn [seq app deploy service_of]; rewrite ?E.
Qed.
End threads.

(** ** The instance at the metadata servers *)

(** The structure with one more server. *)
Definition with_server (im : imss_info) (host : bytes) : imss_info :=
  mkImss (imss_uri im) (imss_type im) (ips im ++ [host]) (num_active_storages im) (num_storages im + 1)
    (imss_session_plcy im) (conn_port im).

Definition host_ok (host : bytes) : Prop := meta_word URI_ host /\ strlen host < LINE_LENGTH.

Lemma AddIPS_joined host im : host_ok host -> num_storages im = Z.of_nat (length (ips im)) ->
  AddIPS host im = Ret (0, with_server im host).
Proof.
  intros [(Hne & Hw & _) Hl] Hn. unfold AddIPS.
  destruct (Z.eqb_spec (strlen host) 0) as [H0|_]; [destruct host; [done|unfold strlen in H0; simpl in H0; lia]|].
  destruct (Z.leb_spec LINE_LENGTH (strlen host)); [lia|]. rewrite Hn, Nat2Z.id, Nat.eqb_refl. cbn [negb orb].
  assert (last_is "010"%char host = false) as ->; [|unfold with_server; by rewrite Hn].
  unfold last_is. destruct (last host) as [c|] eqn:E; [|done]. apply ascii_eqb_false. intros <-.
  apply last_Some_elem_of in E. unfold no_space in Hw. rewrite Forall_forall in Hw.
  by specialize (Hw _ E).
Qed.

Section metadata.
Context (x : menv) (uri : bytes) (Hserves : meta_serves x) (Huri : meta_word URI_ uri)
  (Hroot : rooted (map_key x uri)).
#[local] Abbreviation key := (map_key x uri).

(** The server has the instance, and points at it. *)
Definition instance_at (im : imss_info) (m : mserver) : Prop :=
  curr_global_imss m = Some key /\ exists v, entry key m = Ret (Some v) /\ data v = Instance_ im.

(** The server has no instance yet. *)
Definition no_instance (m : mserver) : Prop := curr_global_imss m = None /\ entry key m = Ret None.

Lemma set_instance im msg n ptr m :
  0 <= n < 2 ^ 31 -> imss_uri im = uri -> rooted uri -> imss_fits im -> send_imss ptr im = Ret (Some msg) ->
  no_instance m ->
  exists m', stat_worker_helper (with_mpayload msg x) (meta_line IMSS_INFO (B "SET") (print_u n) uri) m
      = Ret (0, [Msg MSG_OK_OP], m') /\ instance_at im m'.
Proof.
  intros Hn Hu Hr Hf Hmsg [Hg Hk]. destruct Hserves as (Hs & Hre & Ha).
  rewrite set_line_dispatch by (done || (unfold IMSS_INFO; lia)).
  change (map_key (with_mpayload msg x) uri) with key. unfold mset_op. rewrite Hk. cbn [obind].
  destruct (imss_stream_roundtrip ptr im) as (msg' & Hm' & Hlen & Hrecv); [by rewrite Hu|done|].
  rewrite Hmsg in Hm'. injection Hm' as <-. pose proof (ifits_num _ Hf) as Hnum.
  unfold create_op. cbn [with_mpayload m_payload m_malloc_ok m_recv_ok operation].
  destruct (Z.eqb_spec (strlen msg) 0) as [H0|_]; [unfold sizeof_imss, LINE_LENGTH in Hlen; lia|].
  rewrite Ha, Hre. cbn [negb]. rewrite Z.eqb_refl, Hrecv. cbn [obind].
  destruct (HierarchicalMapPut_new key (Instance_ im) (strlen msg) true true (mstore m) Hroot Hk) as (h & Hh & Hget & _).
  { intros _. by eexists. }
  rewrite Hh. cbn [obind]. unfold msay. cbn [with_mpayload m_send_ok]. rewrite Hs. eexists. split; [done|].
  split; [done|]. by eexists.
Qed.

Lemma server_request id ip host m :
  0 <= id < 100 -> meta_word 16 ip -> host_ok host -> m_connect_ok x = true ->
  stat_worker_helper (with_mpayload [] x) (setserver_line id ip host) m
  = setserver_op x (mkMreq id (B "SETSERVER") ip host 4 []) m.
Proof.
  intros Hid Hip [Hw _] Hc. unfold setserver_line. rewrite print_d_u by lia.
  change (print_u id ++ sp :: B "SETSERVER" ++ sp :: ip ++ sp :: host) with (meta_line id (B "SETSERVER") ip host).
  unfold stat_worker_helper. rewrite meta_line_not_ack by lia.
  rewrite parse_meta_line; [reflexivity|lia| |done|done].
  split; [done|]. split; [by repeat constructor|done].
Qed.

Lemma add_server_there id ip host im m :
  0 <= id < 100 -> meta_word 16 ip -> host_ok host -> m_connect_ok x = true ->
  num_storages im = Z.of_nat (length (ips im)) -> instance_at im m ->
  exists m', stat_worker_helper (with_mpayload [] x) (setserver_line id ip host) m = Ret (0, [], m') /\
    instance_at (with_server im host) m'.
Proof.
  intros Hid Hip Hh Hc Hn (Hg & v & Hk & Hv). rewrite server_request by done.
  unfold setserver_op. rewrite Hc. cbn [negb operation muri]. destruct (Z.leb_spec 100 id); [lia|].
  unfold global_instance. cbn [set_el curr_global_imss mstore]. rewrite Hg, Hk. cbn [obind]. rewrite Hv. cbn [obind].
  rewrite AddIPS_joined by done. cbn [obind]. unfold store_instance. cbn [set_el curr_global_imss mstore].
  rewrite Hg, Hk. cbn [obind].
  destruct (store_block_ok key v (mkBuf (Instance_ (with_server im host)) (bsize v)) _ Hk) as [h Hst]. rewrite Hst. cbn [obind].
  eexists. split; [done|]. apply store_block_get in Hst as [Hst _]. split; [done|]. by eexists.
Qed.

(** A data server that announces itself before the instance exists stops the
    metadata server. *)
Lemma early_server_request id ip host m :
  0 <= id < 100 -> meta_word 16 ip -> host_ok host -> m_connect_ok x = true -> no_instance m ->
  stat_worker_helper (with_mpayload [] x) (setserver_line id ip host) m = Undef NullDeref.
Proof.
  intros Hid Hip Hh Hc [Hg _]. rewrite server_request by done. unfold setserver_op. rewrite Hc.
  cbn [negb operation muri]. destruct (Z.leb_spec 100 id); [lia|].
  unfold global_instance. cbn [set_el curr_global_imss]. by rewrite Hg.
Qed.
End metadata.

(** ** The loops over the metadata servers *)

Section loops.
Context (e : env) (menv_of : Z -> menv) (sending : send_ok e = true).

(** The endpoints of the first [n] metadata servers are usable. *)
Definition usable (n : nat) (eps : list (option bytes)) : Prop :=
  forall i, (i < n)%nat -> exists a, send_ep eps (Z.of_nat i) = Ret a.

Lemma announce_all line msg eps (P : nat -> mserver -> Prop) k j s :
  strlen line < REQUEST_SIZE -> length (metas s) = (j + k)%nat -> usable (j + k) eps ->
  (forall i m, (j <= i)%nat -> metas s !! i = Some m ->
     exists r out m', stat_worker_helper (with_mpayload msg (menv_of (Z.of_nat i))) line m = Ret (r, out, m') /\ P i m') ->
  (forall i m, (i < j)%nat -> metas s !! i = Some m -> P i m) ->
  exists s', announce e menv_of k (Z.of_nat j) line msg eps s = Ret (true, s') /\
    length (metas s') = length (metas s) /\ (forall i m, metas s' !! i = Some m -> P i m) /\ wld s' = wld s.
Proof.
  intros Hl. revert j s. induction k as [|k IH]; intros j s Hlen Hu Hstep Hdone.
  - exists s. split; [done|]. split; [done|]. split; [|done]. intros i m Hm. apply (Hdone i m); [|done].
    apply lookup_lt_Some in Hm. lia.
  - cbn [announce]. destruct (Hu j ltac:(lia)) as [a ->]. cbn [obind].
    destruct (metas s !! j) as [m|] eqn:Hm; [|apply lookup_ge_None in Hm; lia].
    destruct (Hstep j m ltac:(lia) Hm) as (r & out & m' & Hw & HP).
    rewrite (ask_ok e menv_of (Z.of_nat j) line msg s m r out m') by (done || by rewrite Nat2Z.id). cbn [obind].
    replace (Z.of_nat j + 1) with (Z.of_nat (S j)) by lia.
    set (s1 := set_mbox _ _). assert (metas s1 = <[j := m']> (metas s)) as Hms by (unfold s1; simpl; by rewrite Nat2Z.id).
    assert (wld s1 = wld s) as <- by done.
    assert (length (metas s) = length (metas s1)) as -> by (rewrite Hms; by rewrite length_insert).
    apply IH.
    + rewrite Hms, length_insert. lia.
    + by rewrite <- Nat.add_succ_comm in Hu.
    + intros i m2 Hi. rewrite Hms, list_lookup_insert_ne by lia. apply Hstep. lia.
    + intros i m2 Hi. rewrite Hms. destruct (decide (i = j)) as [->|Hne].
      * rewrite list_lookup_insert_eq by (by eapply lookup_lt_Some). by intros [= <-].
      * rewrite list_lookup_insert_ne by done. apply Hdone. lia.
Qed.

(** What the metadata servers know of the instance. *)
Definition all_know (uri : bytes) (r : option imss_info) (s : session) : Prop :=
  forall i m, metas s !! i = Some m ->
    match r with
    | None => no_instance (menv_of (Z.of_nat i)) uri m
    | Some im => instance_at (menv_of (Z.of_nat i)) uri im m
    end.

(** The number a server goes on with: number 0 is taken when the instance
    exists. *)
Definition number_for (r : option imss_info) (id : Z) : Z :=
  if id =? 0 then match r with Some im => num_storages im | None => 0 end else id.

Lemma ask_uri_answer uri (r : option imss_info) i eps id taken s :
  (i < length (metas s))%nat -> (exists a, send_ep eps (Z.of_nat i) = Ret a) -> mbox s = [] ->
  meta_serves (menv_of (Z.of_nat i)) -> meta_word URI_ uri -> all_know uri r s ->
  (forall im, r = Some im -> imss_fits im /\ rooted (imss_uri im)) ->
  exists t, ask_uri e menv_of (Z.of_nat i) uri eps id taken s = Ret (Some (number_for r id, t), s).
Proof.
  intros Hi [a Ha] Hb (Hs & _) Hu Hk Hf. unfold ask_uri, number_for.
  destruct (Z.eqb_spec id 0) as [->|_]; cbn [negb]; [|by eexists]. rewrite Ha. cbn [obind].
  apply lookup_lt_is_Some in Hi as [m Hm]. specialize (Hk i m Hm).
  assert (strlen (meta_line IMSS_INFO (B "GET") (B "0") uri) < REQUEST_SIZE) as Hl.
  { apply meta_line_short; [by vm_compute|by vm_compute|]. destruct Hu as (_ & _ & Hu). unfold URI_ in Hu. lia. }
  assert (metas s !! Z.to_nat (Z.of_nat i) = Some m) as Hm' by by rewrite Nat2Z.id.
  assert (forall y, stat_worker_helper (with_mpayload [] y) (meta_line IMSS_INFO (B "GET") (B "0") uri) m
    = mread_op (with_mpayload [] y) (mkMreq IMSS_INFO (B "GET") (print_u 0) uri 4 []) (map_key y uri) m) as Hreq.
  { intros y. change (B "0") with (print_u 0). rewrite get_line_dispatch by (done || (unfold IMSS_INFO; lia)). done. }
  destruct r as [im|].
  - destruct Hk as (_ & v & Hv & Hd). destruct (Hf im eq_refl) as [Hfits Hroot].
    destruct (imss_stream_roundtrip (m_ptr (menv_of (Z.of_nat i))) im Hroot Hfits) as (msg & Hmsg & Hlen & Hrecv).
    pose proof (ifits_num _ Hfits) as Hn.
    assert (strlen msg <> 0 /\ i32 (strlen msg) <> -1) as [Hne Hni].
    { rewrite Hlen. unfold i32, sizeof_imss, LINE_LENGTH.
      pose proof (Z.div_mod (288 + 512 * num_storages im + 2 ^ 31) (2 ^ 32) ltac:(lia)). lia. }
    rewrite (exchange_ok e menv_of _ _ [] s m 0 (Data msg) m); try done.
    + rewrite put_meta_same by done. cbn [obind reply_bytes]. rewrite Hrecv. cbn [obind].
      destruct (Z.eqb_spec (i32 (strlen msg)) (-1)); [done|]. rewrite Z.max_r by lia. by eexists.
    + rewrite Hreq. unfold mread_op. rewrite Hv. cbn [obind operation]. rewrite Z.eqb_refl, Hd.
      cbn [with_mpayload m_ptr m_send_ok]. rewrite Hmsg. cbn [obind]. by rewrite Hs.
    + cbn [reply_bytes]. by destruct msg.
  - destruct Hk as [_ Hv]. rewrite (exchange_ok e menv_of _ _ [] s m 0 (Msg err_code) m); try done.
    + rewrite put_meta_same by done. by eexists.
    + rewrite Hreq. unfold mread_op. rewrite Hv. cbn [obind]. unfold mconfirm, msay. cbn [with_mpayload m_send_ok].
      by rewrite Hs.
Qed.
End loops.

Lemma number_for_idem r id : number_for r (number_for r id) = number_for r id.
Proof.
  unfold number_for. destruct (Z.eqb_spec id 0) as [->|H]; [|by rewrite (proj2 (Z.eqb_neq _ _) H)].
  destruct r as [im|]; [|done]. by destruct (Z.eqb_spec (num_storages im) 0).
Qed.

(** ** Starting data servers *)

Section starting.
Context (e : env) (menv_of : Z -> menv) (sending : send_ok e = true).
Context (getaddrinfo : bytes -> bytes -> option (list nat)) (socket_ok sock_send_ok : nat -> bool)
  (hangup : nat -> option Z) (malloc_ok : Z -> bool) (ep_ok : bytes -> bool).
Context (memory : forall z, 0 <= z -> malloc_ok z = true).

Abbreviation served_by := (serves getaddrinfo socket_ok sock_send_ok malloc_ok ep_ok).
Abbreviation ready_to_start := (can_start getaddrinfo socket_ok sock_send_ok malloc_ok ep_ok).

Lemma main_greeted k host port ds id :
  served_by k port ds host -> 0 < k -> 0 <= id < 2 ^ 32 ->
  exists addr ds', main_greet getaddrinfo socket_ok sock_send_ok hangup malloc_ok host port id ds = Ret (Some addr, ds') /\
    later 1 ds ds' /\ addr_ok malloc_ok ep_ok addr.
Proof.
  intros Hs Hk Hid.
  assert (join_ok id (B "MAIN!QUERRY")) as Hj.
  { split; [done|]. split; [by apply strchr_None|]. split; [by vm_compute|]. right. by exists (B "QUERRY"). }
  destruct (handshake_served getaddrinfo socket_ok sock_send_ok hangup malloc_ok ep_ok k host port ds id _ Hs Hk Hj)
    as (addr & ds' & Hh & Hl & _ & Hok).
  exists addr, ds'. split; [|done]. revert Hh. unfold handshake, main_greet.
  destruct (connect_common _ _ _ _ _) as [a|]; [|done]. destruct (ds !! a) as [d|]; [|done].
  destruct (negb (sock_send_ok a)); [done|].
  destruct (Dispatcher_turn _ _ _ _) as [[[[|o out]|] d']| |]; cbn [obind]; try done.
  - intros [= <- _]. by destruct Hok as [? _].
  - by destruct (malloc_ok _).
  - destruct (hangup a) as [z|]; [|done]. destruct (z <? 0); [done|]. intros [= <- _]. by destruct Hok as [? _].
Qed.

(** The loop over the hostfile connects to every host and finds out whether the
    URI is taken. *)
Lemma query_loop_ok uri r hosts k i port hello id taken eps c :
  Z.of_nat (length hosts) <= k -> Forall plain_host hosts -> Forall (served_by k port (dispatchers c)) hosts ->
  0 <= hello < 2 ^ 32 -> 0 <= id < 2 ^ 32 -> 0 <= number_for r id < 2 ^ 32 -> (i + length hosts <= length (metas (ses c)))%nat ->
  length eps = i -> usable i eps -> mbox (ses c) = [] -> (forall j, meta_serves (menv_of j)) -> meta_word URI_ uri ->
  all_know menv_of uri r (ses c) -> (forall im, r = Some im -> imss_fits im /\ rooted (imss_uri im)) ->
  exists t eps' ds',
    query_loop e menv_of getaddrinfo socket_ok sock_send_ok hangup malloc_ok ep_ok (length hosts) (Z.of_nat i)
      (concat (host_line <$> hosts)) port uri hello id taken eps c
    = Ret (Some (if (length hosts =? 0)%nat then id else number_for r id, t, eps'), set_dispatchers ds' c) /\
    later (Z.of_nat (length hosts)) (dispatchers c) ds' /\ usable (i + length hosts) eps'.
Proof.
  revert k i id taken eps c. induction hosts as [|host hosts IH];
    intros k i id taken eps c Hk Hp Hs Hhello Hid Hid' Hlen He Hu Hb Hms Hw Hkn Hf.
  - exists taken, eps, (dispatchers c). rewrite Nat.add_0_r. split; [by destruct c|]. split; [by apply later_refl|done].
  - apply Forall_cons in Hs as [Hh Hs]. apply Forall_cons in Hp as [[Hnl Hnul] Hp]. cbn [length] in *.
    destruct (main_greeted k host port (dispatchers c) hello Hh) as (addr & ds1 & Hg & Hl1 & Hok); [lia|done|].
    cbn [query_loop fmap list_fmap concat]. rewrite getline_host, chomp_host by done. rewrite Hg. cbn [obind].
    rewrite (ep_created malloc_ok ep_ok _ Hok). cbn [obind].
    assert (usable (i + 1) (eps ++ [Some addr])) as Hu1.
    { intros j Hj. unfold send_ep. rewrite Nat2Z.id. destruct (decide (j = i)) as [->|Hne].
      - rewrite lookup_app_r, He, Nat.sub_diag by lia. by eexists.
      - destruct (Hu j ltac:(lia)) as [a Ha]. unfold send_ep in Ha. rewrite Nat2Z.id in Ha.
        rewrite lookup_app_l by lia. by eexists. }
    destruct (ask_uri_answer e menv_of sending uri r i (eps ++ [Some addr]) id taken (ses c)) as [t Ha];
      [lia|apply Hu1; lia|done..|].
    change (ses (set_dispatchers ds1 c)) with (ses c). rewrite Ha. cbn [obind].
    assert (set_ses (ses c) (set_dispatchers ds1 c) = set_dispatchers ds1 c) as -> by by destruct c.
    replace (Z.of_nat i + 1) with (Z.of_nat (i + 1)) by lia.
    destruct (IH (k - 1) (i + 1)%nat (number_for r id) t (eps ++ [Some addr]) (set_dispatchers ds1 c))
      as (t' & eps' & ds2 & -> & Hl2 & Hu2); try done; try lia.
    { eapply Forall_impl; [exact Hs|]. intros h. apply serves_later; [done|lia]. }
    { by rewrite number_for_idem. }
    { cbn. lia. }
    { rewrite length_app. simpl. lia. }
    exists t', eps', ds2. split.
    + rewrite number_for_idem. by destruct (length hosts =? 0)%nat.
    + split; [|by rewrite <- Nat.add_assoc in Hu2]. rewrite Nat2Z.inj_succ, <- Z.add_1_l. by eapply later_both.
Qed.

(** What [stat_init] leaves as it was, and the IP it finds. *)
Lemma stat_init_frame x port rank c r c' l ip :
  stat_init getaddrinfo socket_ok sock_send_ok hangup malloc_ok ep_ok x port rank c = Ret (r, c') -> r <> -1 ->
  ifaddrs x = Some l -> pick_ip l = Some ip ->
  client_ip c' = ip /\ metas (ses c') = metas (ses c) /\ mbox (ses c') = mbox (ses c).
Proof.
  #[local] Opaque ELEMENTS. intros H Hr Hl Hip. unfold stat_init in H.
  destruct (negb (malloc_ok _)); [by injection H as <- _|].
  destruct (negb (init_context_ok x) || negb (init_worker_ok x)); [by injection H as <- _|].
  destruct (hostname x) as [node|]; [|by injection H as <- _]. rewrite Hl, Hip in H.
  destruct (stat_hostfile x) as [f|]; [|by injection H as <- _].
  destruct (negb (malloc_ok _)); [done|]. apply obind_Ret in H as ([[[? ?] ?] ?] & _ & H). injection H as _ <-.
  change (tables (set_vector ?v ?f ?n (set_rank rank c))) with (tables c). by destruct (tables c).
Qed.

Lemma can_start_later x port k mhosts c c' n :
  ready_to_start x port k mhosts c -> n <= k -> later n (dispatchers c) (dispatchers c') ->
  ready_to_start x port (k - n) mhosts c'.
Proof.
  intros [] Hn Hl. split; try done. eapply Forall_impl; [exact st_serves|]. intros h. by apply serves_later.
Qed.

Lemma ready_plain mk msg : strlen msg < 16 -> msg <> B "ERROR" -> exists r, ready mk msg = Ret r.
Proof.
  intros Hl He. unfold ready. rewrite strlen_app. change (strlen (B "STATUS = ")) with 9.
  destruct (Z.leb_spec 25 (9 + strlen msg)); [lia|]. apply streq_false in He. rewrite He.
  repeat case_match; eauto.
Qed.

(** The instance server 0 announces. *)
Definition announced (a : arguments) (init_number : Z) : imss_info :=
  mkImss (args_imss_uri a) TYPE_HERCULES_INSTANCE [] init_number 0 0 (u16 (data_port a)).

(** A data server that can be started: its settings, its node with the
    address [ip], its workers and the metadata servers. *)
Record startable (x : init_env) (w : workers_env) (a : arguments) (init_number k : Z) (mhosts : list bytes) (ip : bytes)
    (c : client) : Prop := {
  sb_file : meta_hostfile a <> [];
  sb_hosts : mhosts <> [];
  sb_start : ready_to_start x (stat_port a) k mhosts c;
  sb_room : 2 * Z.of_nat (length mhosts) <= k;
  sb_number : num_metadata_servers a = Z.of_nat (length mhosts);
  sb_metas : length mhosts = length (metas (ses c));
  sb_port : stat_port a <> 0;
  sb_box : mbox (ses c) = [];
  sb_workers : forall j, init_worker_ok_at w j = true;
  sb_addresses : forall j, query_ok_at w j = true;
  sb_ip : meta_word 16 ip;
  sb_pick : exists l, ifaddrs x = Some l /\ pick_ip l = Some ip;
  sb_name : host_ok (data_hostname a);
  sb_uri : meta_word URI_ (args_imss_uri a) /\ rooted (args_imss_uri a) /\ NUL ∉ args_imss_uri a;
  sb_init : 0 <= init_number < 2 ^ 20;
  sb_serves : forall j, meta_serves (menv_of j) /\ m_connect_ok (menv_of j) = true /\
                        rooted (map_key (menv_of j) (args_imss_uri a))
}.

Lemma announced_fits x w a n k mhosts ip c : startable x w a n k mhosts ip c -> imss_fits (announced a n).
Proof.
  intros []. destruct sb_uri0 as ((_ & _ & Hl) & _ & Hn). split; cbn [announced imss_uri ips num_storages conn_port length].
  - split; [done|]. unfold strlen, URI_ in Hl. lia.
  - done.
  - done.
  - repeat (apply Forall_cons; split; [unfold int_fits; cbn; lia|]). done.
  - apply u16_range.
Qed.

(** What the first server makes of the metadata servers. *)
Lemma announce_instance_ok x w a n ptr k mhosts ip c s eps :
  startable x w a n k mhosts ip c -> length (metas s) = length mhosts -> usable (length mhosts) eps ->
  all_know menv_of (args_imss_uri a) None s ->
  exists s', announce_instance e menv_of a n ptr eps s = Ret (true, s') /\ length (metas s') = length (metas s) /\
    all_know menv_of (args_imss_uri a) (Some (announced a n)) s' /\ wld s' = wld s.
Proof.
  intros Hst Hlen Hu Hk. pose proof (announced_fits _ _ _ _ _ _ _ _ Hst) as Hf.
  destruct (sb_uri _ _ _ _ _ _ _ _ Hst) as (Hw & Hr & Hnul). pose proof (sb_init _ _ _ _ _ _ _ _ Hst) as Hn.
  destruct (imss_stream_roundtrip ptr (announced a n) Hr Hf) as (msg & Hmsg & _).
  unfold announce_instance, new_instance. pose proof (proj2 (proj2 Hw)) as Hl.
  destruct (Z.leb_spec URI_ (strlen (args_imss_uri a))); [lia|]. cbn [obind]. fold (announced a n). rewrite Hmsg. cbn [obind].
  rewrite (sb_number _ _ _ _ _ _ _ _ Hst), Nat2Z.id.
  pose proof (announce_all e menv_of sending (announce_line (announced a n)) msg eps
    (fun i m => instance_at (menv_of (Z.of_nat i)) (args_imss_uri a) (announced a n) m) (length mhosts) 0 s) as Ha.
  apply Ha; clear Ha; try done; [| |intros; lia].
  - unfold announce_line. apply meta_line_short; [by vm_compute|apply strlen_print_u|].
    cbn [announced imss_uri]. unfold URI_ in Hl. lia.
  - intros i m _ Hm. destruct (sb_serves _ _ _ _ _ _ _ _ Hst (Z.of_nat i)) as (Hs & _ & Hroot).
    unfold announce_line. rewrite u64_small by (cbn [announced num_active_storages]; unfold sizeof_imss, LINE_LENGTH; lia).
    cbn [announced imss_uri].
    destruct (set_instance (menv_of (Z.of_nat i)) (args_imss_uri a) Hs Hw Hroot (announced a n) msg
      (sizeof_imss + n * LINE_LENGTH + n * 4 + n * 4) ptr m) as (m' & Hreq & Hin);
      [unfold sizeof_imss, LINE_LENGTH; lia|done|done|done|done|exact (Hk i m Hm)|].
    eexists _, _, m'. split; [exact Hreq|done].
Qed.

(** The new server at the metadata servers. *)
Lemma announce_server_ok x w a n k mhosts ip c s eps id im :
  startable x w a n k mhosts ip c -> length (metas s) = length mhosts -> usable (length mhosts) eps ->
  0 <= id < 100 -> num_storages im = Z.of_nat (length (ips im)) -> all_know menv_of (args_imss_uri a) (Some im) s ->
  exists s', announce e menv_of (length mhosts) 0 (setserver_line id ip (data_hostname a)) [] eps s = Ret (true, s') /\
    length (metas s') = length (metas s) /\
    all_know menv_of (args_imss_uri a) (Some (with_server im (data_hostname a))) s' /\ wld s' = wld s.
Proof.
  intros Hst Hlen Hu Hid Hn Hk. pose proof (sb_ip _ _ _ _ _ _ _ _ Hst) as Hip. pose proof (sb_name _ _ _ _ _ _ _ _ Hst) as Hh.
  apply (announce_all e menv_of sending (setserver_line id ip (data_hostname a)) [] eps
    (fun i m => instance_at (menv_of (Z.of_nat i)) (args_imss_uri a) (with_server im (data_hostname a)) m) (length mhosts) 0 s);
    try done; [| |intros; lia].
  - unfold setserver_line. rewrite print_d_u by lia. destruct Hip as (_ & _ & Hl), Hh as [(_ & _ & Hl') _].
    apply (meta_line_short id (B "SETSERVER") ip); [by vm_compute|lia|]. unfold URI_ in Hl'. lia.
  - intros i m _ Hm. destruct (sb_serves _ _ _ _ _ _ _ _ Hst (Z.of_nat i)) as (_ & Hc & _).
    destruct (add_server_there (menv_of (Z.of_nat i)) (args_imss_uri a) id ip (data_hostname a) im m) as (m' & Hreq & Hin);
      try done; [exact (Hk i m Hm)|]. eexists _, _, m'. by split.
Qed.

Lemma usable_endpoints port ds eps hosts : Forall2 (leads_to getaddrinfo socket_ok port ds) eps hosts ->
  usable (length hosts) eps.
Proof.
  intros H i Hi. rewrite <- (Forall2_length _ _ _ H) in Hi. apply lookup_lt_is_Some in Hi as [ep Hl].
  destruct (Forall2_lookup_l _ _ _ _ _ H Hl) as (h & _ & ? & ? & a & _ & _ & _ & ->).
  exists a. unfold send_ep. by rewrite Nat2Z.id, Hl.
Qed.

Lemma all_know_ext uri r s s' : metas s' = metas s -> all_know menv_of uri r s -> all_know menv_of uri r s'.
Proof. intros Hm H i m. rewrite Hm. apply H. Qed.

(** [main] up to the question whether server 0 announces the instance. *)
Lemma data_main_asked x w mk a n k mhosts ip c id ptr r :
  startable x w a n k mhosts ip c -> 0 <= id < 2 ^ 32 -> 0 <= number_for r id < 2 ^ 32 ->
  all_know menv_of (args_imss_uri a) r (ses c) ->
  (forall im, r = Some im -> imss_fits im /\ rooted (imss_uri im)) ->
  exists eps ds,
    let id' := number_for r id in
    data_main e menv_of getaddrinfo socket_ok sock_send_ok hangup malloc_ok ep_ok x w mk a id n ptr c
    = (let addrs := (fun i => Some (address_at w i)) <$> seq 0 (Z.to_nat (u16 (thread_pool a))) in
       let* (ok, s) := if id' =? 0 then announce_instance e menv_of a n ptr eps (ses c) else Ret (true, ses c) in
       if negb ok then Ret (None, set_ses s (set_dispatchers ds c))
       else
         let* (r, c) := stat_init getaddrinfo socket_ok sock_send_ok hangup malloc_ok ep_ok x (stat_port a) id'
                          (set_ses (set_mbox [] s) (set_dispatchers ds c)) in
         if r =? -1 then Ret (None, c)
         else
           let* (ok, s) := announce e menv_of (length mhosts) 0
                             (setserver_line id' (client_ip c) (data_hostname a)) [] (stat_eps c) (ses c) in
           if negb ok then Ret (None, set_ses s c) else Ret (Some (id', addrs), set_ses s c)) /\
    usable (length mhosts) eps /\ later (Z.of_nat (length mhosts)) (dispatchers c) ds.
Proof.
  intros Hst Hid Hid' Hk Hf. pose proof Hst as [Hfile Hne Hcs Hroom Hnum Hmet Hport Hbox Hwi Hwq _ _ _ (Hu & _ & _) _ Hserves].
  pose proof Hcs as [_ _ _ _ Hsf Hcl Hplain Hsv].
  destruct (query_loop_ok (args_imss_uri a) r mhosts k 0 (stat_port a) id id false [] c) as (t & eps & ds & Hq & Hl & Hus);
    try done; try lia.
  { intros j Hj. lia. }
  { intros j. apply Hserves. }
  exists eps, ds. cbn zeta. split; [|by split]. unfold data_main. rewrite Hsf.
  destruct (meta_hostfile a) eqn:Em; [done|]. clear Em.
  rewrite Hnum, Nat2Z.id, (u32_small id) by lia. change 0 with (Z.of_nat 0) at 1. rewrite Hq. cbn [obind].
  assert ((length mhosts =? 0)%nat = false) as -> by (apply Nat.eqb_neq; by destruct mhosts).
  rewrite Hcl. cbn [negb]. rewrite threads_fill_slots by done. cbn [obind].
  apply Z.eqb_neq in Hport. rewrite Hport, andb_true_r. cbn [negb].
  change (ses (set_dispatchers ds c)) with (ses c). f_equal.
  destruct (ready_plain mk (B "OK")) as [y Hy]; [by vm_compute|done|]. rewrite Hy. cbn [obind]. done.
Qed.

Definition fits_network (im : imss_info) : Prop :=
  imss_fits im /\ rooted (imss_uri im) /\ 0 < num_storages im < 100.

(** The tail of [main]: the second connection and the request that adds the
    server. *)
Lemma join_tail x w a n k mhosts ip c ds s id im :
  startable x w a n k mhosts ip c -> 0 <= id < 100 -> later (Z.of_nat (length mhosts)) (dispatchers c) ds ->
  length (metas s) = length mhosts -> all_know menv_of (args_imss_uri a) (Some im) s ->
  num_storages im = Z.of_nat (length (ips im)) ->
  exists c1 s1,
    stat_init getaddrinfo socket_ok sock_send_ok hangup malloc_ok ep_ok x (stat_port a) id
      (set_ses (set_mbox [] s) (set_dispatchers ds c)) = Ret (0, c1) /\
    announce e menv_of (length mhosts) 0 (setserver_line id (client_ip c1) (data_hostname a)) [] (stat_eps c1) (ses c1)
      = Ret (true, s1) /\
    length (metas s1) = length (metas s) /\
    all_know menv_of (args_imss_uri a) (Some (with_server im (data_hostname a))) s1 /\
    later (2 * Z.of_nat (length mhosts)) (dispatchers c) (dispatchers c1).
Proof.
  intros Hst Hid Hla Hlen Hk Hn. pose proof Hst as [_ _ Hcs Hroom _ _ _ _ _ _ _ (l & Hl & Hp) _ _ _ _].
  set (c0 := set_ses (set_mbox [] s) (set_dispatchers ds c)).
  assert (ready_to_start x (stat_port a) (k - Z.of_nat (length mhosts)) mhosts c0) as Hcs0.
  { eapply can_start_later; [exact Hcs|lia|exact Hla]. }
  destruct (stat_init_connects [] e menv_of getaddrinfo socket_ok sock_send_ok hangup malloc_ok ep_ok memory x (stat_port a) id
    (k - Z.of_nat (length mhosts)) mhosts c0) as (c1 & Hi & Heps & Hla1 & _); [lia|lia|done|done|].
  pose proof Hi as Hfr. eapply stat_init_frame in Hfr as (Hip1 & Hm1 & Hb1); [|lia|exact Hl|exact Hp].
  destruct (announce_server_ok x w a n k mhosts ip c (ses c1) (stat_eps c1) id im Hst) as (s1 & Ha & Hlen1 & Hk1 & _).
  { by rewrite Hm1. }
  { by eapply usable_endpoints. }
  { done. } { done. }
  { by eapply all_know_ext. }
  exists c1, s1. split; [done|]. rewrite Hip1. split; [done|]. split; [by rewrite Hlen1, Hm1|]. split; [done|].
  replace (2 * _) with (Z.of_nat (length mhosts) + Z.of_nat (length mhosts)) by lia. by eapply later_both.
Qed.

(** A data server that starts is in the instance at every metadata server: the
    first one makes the instance and is its server 0, every other one becomes its
    last server, and a server that is told to be number 0 although the instance
    exists takes the next free number.  Its dispatcher gets the address of every
    worker thread. *)
Theorem data_server_joins (x : init_env) (w : workers_env) (mk : marker_env) (a : arguments) (id n ptr k : Z)
  (mhosts : list bytes) (ip : bytes) (r : option imss_info) (c : client)
  (Hst : startable x w a n k mhosts ip c) (Hid : 0 <= id < 100)
  (Hfirst : r = None -> id = 0) (Hr : forall im, r = Some im -> fits_network im)
  (Hk : all_know menv_of (args_imss_uri a) r (ses c)) :
  exists c', data_main e menv_of getaddrinfo socket_ok sock_send_ok hangup malloc_ok ep_ok x w mk a id n ptr c
      = Ret (Some (number_for r id, (fun i => Some (address_at w i)) <$> seq 0 (Z.to_nat (u16 (thread_pool a)))), c') /\
    all_know menv_of (args_imss_uri a) (Some (with_server (default (announced a n) r) (data_hostname a))) (ses c') /\
    length (metas (ses c')) = length (metas (ses c)) /\
    later (2 * Z.of_nat (length mhosts)) (dispatchers c) (dispatchers c').
Proof.
  pose proof (sb_metas _ _ _ _ _ _ _ _ Hst) as Hmet.
  assert (0 <= number_for r id < 100) as Hid'.
  { unfold number_for. destruct (id =? 0); [|done]. destruct r as [im|]; [|lia]. destruct (Hr im eq_refl) as (_ & _ & ?). lia. }
  destruct (data_main_asked x w mk a n k mhosts ip c id ptr r Hst) as (eps & ds & Hmain & Hus & Hla); try done; try lia.
  { intros im Him. destruct (Hr im Him) as (? & ? & _). done. }
  cbv zeta in Hmain. rewrite Hmain. clear Hmain.
  assert (exists s im, (if number_for r id =? 0 then announce_instance e menv_of a n ptr eps (ses c) else Ret (true, ses c))
      = Ret (true, s) /\ length (metas s) = length mhosts /\ all_know menv_of (args_imss_uri a) (Some im) s /\
      num_storages im = Z.of_nat (length (ips im)) /\ im = default (announced a n) r) as (s & im & -> & Hls & Hks & Hn & ->).
  { destruct r as [im|].
    - destruct (Hr im eq_refl) as (Hf & _ & Hpos). exists (ses c), im. pose proof (ifits_num _ Hf).
      assert (number_for (Some im) id =? 0 = false) as ->; [|by split_and!].
      unfold number_for. destruct (Z.eqb_spec id 0); apply Z.eqb_neq; lia.
    - rewrite (Hfirst eq_refl). destruct (announce_instance_ok x w a n ptr k mhosts ip c (ses c) eps Hst) as (s & Ha & Hl & Hks & _);
        [done|done|done|]. exists s, (announced a n). rewrite Hl. by split_and!. }
  cbn [obind negb].
  destruct (join_tail x w a n k mhosts ip c ds s (number_for r id) _ Hst Hid' Hla Hls Hks Hn)
    as (c1 & s1 & -> & Ha & Hl1 & Hk1 & Hla1).
  cbn [obind]. change (0 =? -1) with false. cbn iota. rewrite Ha. cbn [obind negb].
  eexists. split; [reflexivity|]. split; [done|]. split; [cbn; lia|done].
Qed.

(** A data server other than the first that starts before the instance exists
    stops the metadata server. *)
Theorem early_server_stops_metadata (x : init_env) (w : workers_env) (mk : marker_env) (a : arguments) (id n ptr k : Z)
  (mhosts : list bytes) (ip : bytes) (c : client)
  (Hst : startable x w a n k mhosts ip c) (Hid : 0 < id < 100)
  (Hk : all_know menv_of (args_imss_uri a) None (ses c)) :
  data_main e menv_of getaddrinfo socket_ok sock_send_ok hangup malloc_ok ep_ok x w mk a id n ptr c = Undef NullDeref.
Proof.
  pose proof Hst as [_ Hne Hcs Hroom _ Hmet _ _ _ _ Hip (l & Hl & Hp) Hname _ _ Hserves].
  assert (number_for None id = id) as Hn by (unfold number_for; by destruct (Z.eqb_spec id 0); [lia|]).
  destruct (data_main_asked x w mk a n k mhosts ip c id ptr None Hst) as (eps & ds & Hmain & _ & Hla); try done; try lia.
  cbv zeta in Hmain. rewrite Hmain, Hn. clear Hmain. destruct (Z.eqb_spec id 0); [lia|]. cbn [obind negb].
  set (c0 := set_ses _ _).
  destruct (stat_init_connects [] e menv_of getaddrinfo socket_ok sock_send_ok hangup malloc_ok ep_ok memory x (stat_port a) id
    (k - Z.of_nat (length mhosts)) mhosts c0) as (c1 & Hi & Heps & _); [lia|lia| |done|].
  { eapply can_start_later; [exact Hcs|lia|exact Hla]. }
  pose proof Hi as Hfr. eapply stat_init_frame in Hfr as (Hip1 & Hm1 & _); [|lia|exact Hl|exact Hp].
  rewrite Hi. cbn [obind]. change (0 =? -1) with false. cbn iota.
  destruct mhosts as [|h hs]; [done|]. cbn [length announce].
  destruct (usable_endpoints _ _ _ _ Heps 0%nat ltac:(simpl; lia)) as [ad Had]. change (Z.of_nat 0) with 0 in Had.
  rewrite Had. cbn [obind].
  destruct (metas (ses c1) !! 0%nat) as [m|] eqn:Hm; [|apply lookup_ge_None in Hm; rewrite Hm1 in Hm; simpl in *; lia].
  assert (no_instance (menv_of 0) (args_imss_uri a) m) as Hnone.
  { rewrite Hm1 in Hm. exact (Hk 0%nat m Hm). }
  unfold ask. rewrite Hip1.
  destruct (Z.leb_spec REQUEST_SIZE (strlen (setserver_line id ip (data_hostname a)))) as [Hbig|_].
  { exfalso. unfold setserver_line in Hbig. rewrite print_d_u in Hbig by lia. destruct Hip as (_ & _ & Hli), Hname as [(_ & _ & Hlh) _].
    pose proof (meta_line_short id (B "SETSERVER") ip (data_hostname a)) as Hsh. unfold meta_line in Hsh. unfold URI_ in Hlh.
    specialize (Hsh ltac:(by vm_compute) ltac:(lia) ltac:(lia)). lia. }
  rewrite sending. cbn [negb]. change (Z.to_nat 0) with 0%nat. rewrite Hm.
  rewrite (early_server_request (menv_of 0) (args_imss_uri a) id ip (data_hostname a) m); [done|lia|done|done| |done].
  apply Hserves.
Qed.

(** ** A deployment *)

(** A process that is started: what its node answers, its settings, its number,
    the initial number of servers, and its IP. *)
Record process := mkProcess {
  p_init : init_env;
  p_workers : workers_env;
  p_marker : marker_env;
  p_args : arguments;
  p_id : Z;
  p_number : Z;
  p_ip : bytes
}.

(** A process is new: it shares the metadata servers and the network with the
    others, but not the rest of its memory, [blank]. *)
Definition new_process (blank : client) (ms : list mserver) (ds : list dispatcher) : client :=
  set_dispatchers ds
    (set_ses (mkSession (wld (ses blank)) ms [] None (curr_imss (ses blank)) (entry_number (ses blank))) blank).

(** Data servers that start one after the other, and the numbers they get. *)
Fixpoint start_all (blank : client) (l : list process) (ms : list mserver) (ds : list dispatcher)
  : outcome (option (list Z) * list mserver * list dispatcher) :=
  match l with
  | [] => Ret (Some [], ms, ds)
  | p :: rest =>
      let* (r, c) := data_main e menv_of getaddrinfo socket_ok sock_send_ok hangup malloc_ok ep_ok (p_init p)
                       (p_workers p) (p_marker p) (p_args p) (p_id p) (p_number p) 0 (new_process blank ms ds) in
      match r with
      | None => Ret (None, metas (ses c), dispatchers c)
      | Some (id, _) =>
          let* (ids, ms, ds) := start_all blank rest (metas (ses c)) (dispatchers c) in
          Ret (cons id <$> ids, ms, ds)
      end
  end.

Lemma startable_later x w a n k mhosts ip c c' m :
  startable x w a n k mhosts ip c -> 2 * Z.of_nat (length mhosts) + m <= k -> 0 <= m ->
  later m (dispatchers c) (dispatchers c') -> length (metas (ses c')) = length (metas (ses c)) -> mbox (ses c') = [] ->
  startable x w a n (k - m) mhosts ip c'.
Proof.
  intros [] Hm H0 Hl Hlen Hb. split; try done; [|lia|by rewrite Hlen].
  eapply can_start_later; [exact sb_start0|lia|exact Hl].
Qed.

Lemma joined_fits im host : fits_network im -> num_storages im + 1 < 100 -> str_fits 512 host ->
  fits_network (with_server im host).
Proof.
  intros ([Hu Hi Hn Hint Hp] & Hr & Hpos) Hl Hh. split; [|split; [done|cbn; lia]]. split; cbn; try done.
  - apply Forall_app_2; [done|]. by constructor.
  - rewrite length_app. simpl. lia.
  - rewrite !Forall_cons in *. destruct Hint as (? & _ & ? & _). split_and!; try done. unfold int_fits. lia.
Qed.

(** Every process of the list can be started as it is. *)
Definition all_startable (uri : bytes) (k : Z) (mhosts : list bytes) (c : client) (l : list process) : Prop :=
  Forall (fun p => startable (p_init p) (p_workers p) (p_args p) (p_number p) k mhosts (p_ip p) c /\
                   args_imss_uri (p_args p) = uri /\ str_fits 512 (data_hostname (p_args p))) l.

Definition hostnames (l : list process) : list bytes := (fun p => data_hostname (p_args p)) <$> l.

(** The others join one after the other. *)
Lemma later_servers blank uri mhosts k l ms ds im :
  all_startable uri k mhosts (new_process blank ms ds) l ->
  2 * Z.of_nat (length mhosts) * (Z.of_nat (length l) + 1) <= k -> fits_network im ->
  num_storages im + Z.of_nat (length l) < 100 ->
  Forall2 (fun p i => p_id p = num_storages im + Z.of_nat i) l (seq 0 (length l)) ->
  all_know menv_of uri (Some im) (ses (new_process blank ms ds)) ->
  exists ms' ds' im', start_all blank l ms ds = Ret (Some (p_id <$> l), ms', ds') /\
    all_know menv_of uri (Some im') (ses (new_process blank ms' ds')) /\ ips im' = ips im ++ hostnames l /\
    num_storages im' = num_storages im + Z.of_nat (length l) /\
    num_active_storages im' = num_active_storages im /\ length ms' = length ms.
Proof.
  revert k ms ds im. induction l as [|p l IH]; intros k ms ds im Hl Hk Hf Hn Hids Hkn.
  - exists ms, ds, im. rewrite app_nil_r, Z.add_0_r. by split_and!.
  - apply Forall_cons in Hl as [(Hst & Hu & Hs) Hl]. cbn [length] in *. rewrite <- cons_seq in Hids.
    apply Forall2_cons in Hids as [Hid Hids].
    pose proof (proj1 (proj2 (proj2 Hf))) as Hpos.
    destruct (data_server_joins _ (p_workers p) (p_marker p) _ (p_id p) _ 0 k mhosts _ (Some im) _ Hst) as (c & Hrun & Hkn' & Hlen & Hla);
      [lia|done| |by rewrite Hu|].
    { intros i [= <-]. done. }
    cbn [start_all]. rewrite Hrun. cbn [obind].
    assert (number_for (Some im) (p_id p) = p_id p) as -> by (unfold number_for; by destruct (Z.eqb_spec (p_id p) 0); [lia|]).
    rewrite Hu in Hkn'. cbn [default] in Hkn'.
    destruct (IH (k - 2 * Z.of_nat (length mhosts)) (metas (ses c)) (dispatchers c) (with_server im (data_hostname (p_args p))))
      as (ms' & ds' & im' & -> & Hk1 & Hip & Hnum & Hact & Hlen').
    + eapply Forall_impl; [exact Hl|]. intros q (Hq & ? & ?). split; [|done].
      eapply startable_later; [exact Hq|lia|lia|exact Hla|exact Hlen|done].
    + lia.
    + apply joined_fits; [done|lia|done].
    + cbn. lia.
    + rewrite <- fmap_S_seq in Hids. apply Forall2_fmap_r in Hids. eapply Forall2_impl; [exact Hids|].
      intros q i Hq. cbn in *. lia.
    + intros i m Hm. exact (Hkn' i m Hm).
    + exists ms', ds', im'. split; [done|]. split; [done|]. cbn in Hip, Hnum, Hact. rewrite <- app_assoc in Hip.
      split; [done|]. split; [lia|]. split; [done|]. rewrite Hlen', Hlen. done.
Qed.

(** C18. Data servers 0, 1, 2, ... that start one after the other on metadata servers
    without an instance all succeed, keep their numbers, and every metadata
    server ends up with the instance whose servers are their hosts in this
    order. *)
Theorem deployment_lists_servers (blank : client) (uri : bytes) (mhosts : list bytes) (k : Z) (l : list process)
  (ms : list mserver) (ds : list dispatcher)
  (Hl : all_startable uri k mhosts (new_process blank ms ds) l) (Hne : l <> [])
  (Hk : 2 * Z.of_nat (length mhosts) * (Z.of_nat (length l) + 1) <= k) (Hn : Z.of_nat (length l) < 100)
  (Hids : Forall2 (fun p i => p_id p = Z.of_nat i) l (seq 0 (length l)))
  (Hfresh : all_know menv_of uri None (ses (new_process blank ms ds))) :
  exists ms' ds' im, start_all blank l ms ds = Ret (Some (p_id <$> l), ms', ds') /\
    length ms' = length ms /\ all_know menv_of uri (Some im) (ses (new_process blank ms' ds')) /\
    ips im = hostnames l /\ num_storages im = Z.of_nat (length l) /\
    Some (num_active_storages im) = p_number <$> head l.
Proof.
  destruct l as [|p l]; [done|]. apply Forall_cons in Hl as [(Hst & Hu & Hs) Hl]. cbn [length] in *.
  rewrite <- cons_seq in Hids. apply Forall2_cons in Hids as [Hid Hids]. change (Z.of_nat 0) with 0 in Hid.
  destruct (data_server_joins _ (p_workers p) (p_marker p) _ (p_id p) _ 0 k mhosts _ None _ Hst) as (c & Hrun & Hkn & Hlen & Hla);
    [lia|done|done|by rewrite Hu|].
  cbn [start_all]. rewrite Hrun. cbn [obind]. rewrite Hid in *. change (number_for None 0) with 0.
  rewrite Hu in Hkn. cbn [default] in Hkn. set (im0 := with_server _ _) in Hkn.
  assert (fits_network im0) as Hf0.
  { pose proof (announced_fits _ _ _ _ _ _ _ _ Hst) as [Hau _ _ Hai Hap]. destruct (sb_uri _ _ _ _ _ _ _ _ Hst) as (_ & Hroot & _).
    split; [|split; [done|cbn; lia]]. split; cbn; try done; [by constructor|].
    rewrite !Forall_cons in *. destruct Hai as (? & _ & ? & _). split_and!; try done. }
  destruct (later_servers blank uri mhosts (k - 2 * Z.of_nat (length mhosts)) l (metas (ses c)) (dispatchers c) im0)
    as (ms' & ds' & im' & -> & Hk1 & Hip & Hnum & Hact & Hlen').
  - eapply Forall_impl; [exact Hl|]. intros q (Hq & ? & ?). split; [|done].
    eapply startable_later; [exact Hq|lia|lia|exact Hla|exact Hlen|done].
  - lia.
  - done.
  - cbn. lia.
  - rewrite <- fmap_S_seq in Hids. apply Forall2_fmap_r in Hids. eapply Forall2_impl; [exact Hids|].
    intros q i Hq. cbn in *. lia.
  - intros i m Hm. exact (Hkn i m Hm).
  - exists ms', ds', im'. split; [cbn [obind fmap option_fmap option_map]; rewrite fmap_cons, Hid; done|].
    split; [by rewrite Hlen', Hlen|]. split; [done|]. split; [done|]. cbn in Hnum. split; [lia|]. cbn. by rewrite Hact.
Qed.
End starting.

(** ** Signals *)

(** A server that is told to stop finishes everything and closes its dispatcher;
    a data server whose snapshots are not finished and do not answer never
    returns from the handler.  Any other operation only renames the marker that is
    written at the end. *)
Theorem signal_outcomes (type : ascii) (b : bytes) (sa ca : bool) (mk : marker_env) (st : finish_vars) :
  handle_signal_server type (Some (Some b)) sa ca mk st
  = if negb (atoi (cstr (take 9 b)) =? 1) then Ret (set_action (B "remove") st)
    else if negb (ascii_eqb type TYPE_METADATA_SERVER) && negb ((finish_snapshot st || sa) && (finish_checkpoint st || ca))
    then Undef Deadlock
    else Ret (mkFinishing true true
                (if ascii_eqb type TYPE_METADATA_SERVER then finish_snapshot st else true)
                (if ascii_eqb type TYPE_METADATA_SERVER then finish_checkpoint st else true)
                (if 0 <? server_fd st then FINISH_SYSTEM_STATUS else finish_dispatcher st) (server_fd st) (B "stop")).
Proof.
  unfold handle_signal_server, pkill_operation. cbn [obind].
  destruct (Z.eqb_spec (atoi (cstr (take 9 b))) 1) as [->|Hne].
  - destruct (ready_plain mk (B "LOCKED")) as [y Hy]; [by vm_compute|done|]. rewrite Hy. unfold await.
    cbn [set_action finish_snapshot finish_checkpoint server_fd finish_dispatcher negb].
    destruct (ascii_eqb type TYPE_METADATA_SERVER); cbn [negb andb obind].
    + cbn. by destruct (0 <? server_fd st).
    + destruct (finish_snapshot st || sa); [|done]. destruct (finish_checkpoint st || ca); [|done].
      cbn. by destruct (0 <? server_fd st).
  - cbn [negb]. destruct (atoi _) as [|[p|p|]|p]; done.
Qed.

(** ** A sample deployment

    Two data servers on one node, with the metadata server [meta]. *)

Definition deploy_args (host : bytes) : arguments :=
  mkArguments [] [] IMSS_ROOT [] (B "RR") (B "hosts") [] [] [] [] [] host [] 7500 0 2 0 0 7501 2 1 0 0 0 dzero 1 0 0 512 0 0
    (mkLogging 0 0 0).
Definition deploy_workers_env : workers_env := mkWorkers (fun _ => true) (fun _ => true) (fun i => [chr (Z.of_nat i + 65)]).
Definition marker_fine : marker_env := mkMarker true true (fun b => length b) true.
Definition server_process (id : Z) (host : bytes) : process :=
  mkProcess (node1_env (host_line (B "meta"))) deploy_workers_env marker_fine (deploy_args host) id 2 (B "10.0.0.1").
Definition empty_metas : list mserver := [mkMserver (mkHier ∅ 0 1000000 []) None idle ∅].

Lemma sample_host_ok h : forallb (fun a => negb (isspace a)) h && (strlen h <? URI_) && negb (streq h []) = true -> host_ok h.
Proof.
  rewrite !andb_true_iff, negb_true_iff, streq_false, Z.ltb_lt, forallb_forall. intros [[Hs Hl] Hn].
  split; [split; [done|split; [|done]]|unfold URI_, LINE_LENGTH in *; lia].
  apply Forall_forall. intros a Ha. apply list_elem_of_In in Ha. specialize (Hs a Ha). by apply negb_true_iff in Hs.
Qed.

Lemma sample_startable host n c :
  host_ok host -> dispatchers c = sample_ds -> metas (ses c) = empty_metas -> mbox (ses c) = [] -> 0 <= n < 2 ^ 20 ->
  startable (fun _ => sample_menv) sample_hosts on on all_memory all_eps (node1_env (host_line (B "meta")))
    deploy_workers_env (deploy_args host) n 100 [B "meta"] (B "10.0.0.1") c.
Proof.
  intros Hh Hd Hm Hb Hn.
  pose proof (proj1 (sample_host_ok IMSS_ROOT eq_refl)) as Hroot.
  split; try done.
  - apply sample_start; [done|by vm_compute| |].
    + apply Forall_singleton. split; apply strchr_None; reflexivity.
    + apply Forall_singleton. by eexists.
  - by rewrite Hm.
  - split; [done|]. split; [|done]. unfold no_space. by repeat constructor.
  - eexists. split; [reflexivity|reflexivity].
  - split; [done|]. split; [by exists []|]. apply strchr_None. reflexivity.
  - intros _. split; [by repeat split|]. split; [done|]. by exists [].
Qed.

Lemma sample_fresh : all_know (fun _ => sample_menv) IMSS_ROOT None (ses (new_process before_start empty_metas sample_ds)).
Proof. intros i m Hm. destruct i as [|i]; [|by destruct i]. cbn in Hm. injection Hm as <-. by vm_compute. Qed.

Lemma deployment_lists_servers_witness :
  exists ms' ds' im,
    start_all (big_env 4096) (fun _ => sample_menv) sample_hosts on on no_hangup all_memory all_eps before_start
      [server_process 0 (B "node1"); server_process 1 (B "node10")] empty_metas sample_ds = Ret (Some [0; 1], ms', ds') /\
    all_know (fun _ => sample_menv) IMSS_ROOT (Some im) (ses (new_process before_start ms' ds')) /\
    ips im = [B "node1"; B "node10"] /\ num_active_storages im = 2.
Proof.
  destruct (deployment_lists_servers (big_env 4096) (fun _ => sample_menv) eq_refl sample_hosts on on no_hangup all_memory
    all_eps (fun _ _ => eq_refl) before_start IMSS_ROOT [B "meta"] 100
    [server_process 0 (B "node1"); server_process 1 (B "node10")] empty_metas sample_ds)
    as (ms' & ds' & im & Hrun & _ & Hk & Hip & _ & Hact).
  - assert (forall id h, host_ok h -> str_fits 512 h -> startable (fun _ => sample_menv) sample_hosts on on all_memory all_eps
      (node1_env (host_line (B "meta"))) deploy_workers_env (deploy_args h) 2 100 [B "meta"] (B "10.0.0.1")
      (new_process before_start empty_metas sample_ds) /\
      args_imss_uri (p_args (server_process id h)) = IMSS_ROOT /\ str_fits 512 h) as H.
    { intros id h Hh Hs. split; [|by split]. by apply sample_startable. }
    apply Forall_cons_2; [|apply Forall_cons_2; [|by apply Forall_nil_2]];
      (apply H; [by apply sample_host_ok|split; [apply strchr_None; reflexivity|simpl; lia]]).
  - done.
  - simpl. lia.
  - simpl. lia.
  - apply Forall2_cons_2; [done|]. apply Forall2_cons_2; [done|]. by apply Forall2_nil_2.
  - exact sample_fresh.
  - exists ms', ds', im. split; [exact Hrun|]. split; [exact Hk|]. split; [exact Hip|]. by injection Hact.
Defined.

Lemma data_server_joins_witness :
  exists c', data_main (big_env 4096) (fun _ => sample_menv) sample_hosts on on no_hangup all_memory all_eps
      (node1_env (host_line (B "meta"))) deploy_workers_env marker_fine (deploy_args (B "node1")) 0 2 0
      (new_process before_start empty_metas sample_ds) = Ret (Some (0, [Some (B "A"); Some (B "B")]), c') /\
    exists im, all_know (fun _ => sample_menv) IMSS_ROOT (Some im) (ses c') /\ ips im = [B "node1"].
Proof.
  destruct (data_server_joins (big_env 4096) (fun _ => sample_menv) eq_refl sample_hosts on on no_hangup all_memory
    all_eps (fun _ _ => eq_refl) (node1_env (host_line (B "meta"))) deploy_workers_env marker_fine (deploy_args (B "node1"))
    0 2 0 100 [B "meta"] (B "10.0.0.1") None (new_process before_start empty_metas sample_ds)) as (c' & H1 & H2 & _).
  - apply sample_startable; [by apply sample_host_ok|done|done|done|lia].
  - lia.
  - done.
  - done.
  - exact sample_fresh.
  - exists c'. split; [exact H1|]. eexists. split; [exact H2|done].
Defined.

Lemma early_server_stops_metadata_witness :
  data_main (big_env 4096) (fun _ => sample_menv) sample_hosts on on no_hangup all_memory all_eps
    (node1_env (host_line (B "meta"))) deploy_workers_env marker_fine (deploy_args (B "node10")) 1 2 0
    (new_process before_start empty_metas sample_ds) = Undef NullDeref.
Proof.
  apply (early_server_stops_metadata (big_env 4096) (fun _ => sample_menv) eq_refl sample_hosts on on no_hangup all_memory
    all_eps (fun _ _ => eq_refl) (node1_env (host_line (B "meta"))) deploy_workers_env marker_fine (deploy_args (B "node10"))
    1 2 0 100 [B "meta"] (B "10.0.0.1")).
  - apply sample_startable; [by apply sample_host_ok|done|done|done|lia].
  - lia.
  - exact sample_fresh.
Defined.
