(* ===== verification/Tree.v ===== *)
(** * The directory tree

    src/src/directory.c keeps the names of files and directories in a GLib
    tree ([GNode]) whose nodes hold full paths; the path of a directory ends in
    a slash.  src/app/dirr.c exercises it, the metadata server has its calls
    commented out and uses the maps of MetaStore.v.

    A node is its address, its text and its children; a pointer is an address,
    and following one to a node that is not in the tree is a use after free.
    What GLib does to a tree is the interface [GLib] with its documented
    behaviour as laws. *)

From S2P Require Import Prelude Types.

(** [struct GNode]: the address of the node, [data], [children] in order. *)
Inductive gnode := GNode (addr : Z) (data : bytes) (children : list gnode).

Definition gaddr (n : gnode) : Z := let '(GNode a _ _) := n in a.
Definition gdata (n : gnode) : bytes := let '(GNode _ d _) := n in d.
Definition gchildren (n : gnode) : list gnode := let '(GNode _ _ cs) := n in cs.

(** Induction with the hypothesis for all children. *)
Section gnode_ind.
Context (P : gnode -> Prop) (Hnode : forall a d cs, Forall P cs -> P (GNode a d cs)).

Fixpoint gnode_ind' (t : gnode) : P t :=
  let '(GNode a d cs) := t in
  Hnode a d cs ((fix go (cs : list gnode) : List.Forall P cs := match cs return List.Forall P cs with
                              | [] => @List.Forall_nil _ P
                              | c :: cs' => @List.Forall_cons _ P c cs' (gnode_ind' c) (go cs')
                              end) cs).
End gnode_ind.

(** A node and everything below it, parents first. *)
Fixpoint subnodes (t : gnode) : list gnode :=
  let '(GNode _ _ cs) := t in t :: concat (subnodes <$> cs).

Definition paths (t : gnode) : list bytes := gdata <$> subnodes t.
Definition addrs (t : gnode) : list Z := gaddr <$> subnodes t.

(** The node a pointer leads to. *)
Definition node_at (p : Z) (t : gnode) : option gnode :=
  List.find (fun n => gaddr n =? p) (subnodes t).

(** What is used of GLib: [g_node_append] makes a node the last child of
    another one, [g_node_destroy] takes a node and its descendants out of the
    tree, [g_node_traverse] visits every node ([G_TRAVERSE_ALL]). *)
Class GLib := {
  g_node_append : Z -> gnode -> gnode -> gnode;
  g_node_destroy : Z -> gnode -> option gnode;
  g_node_traverse : gnode -> list Z
}.

Class GLibLaws `{GLib} := {
  append_node : forall p n a d cs, g_node_append p n (GNode a d cs) =
    if decide (a = p) then GNode a d (cs ++ [n]) else GNode a d (g_node_append p n <$> cs);
  destroy_node : forall p a d cs, g_node_destroy p (GNode a d cs) =
    if decide (a = p) then None else Some (GNode a d (omap (g_node_destroy p) cs));
  traverse_all : forall t, g_node_traverse t ≡ₚ addrs t
}.

(** The globals of the file; [None] as the root is a root that was freed. *)
Record tree_state := mkTree { tree_root : option gnode; last_parent : option Z }.

Definition root_of (s : tree_state) : outcome gnode :=
  match tree_root s with Some t => Ret t | None => Undef UseAfterFree end.

Definition deref (p : Z) (t : gnode) : outcome gnode :=
  match node_at p t with Some n => Ret n | None => Undef UseAfterFree end.

Section directory.
Context `{GLib}.

(** [GTree_search_]: result, [*found_node] and [last_parent].  A text that is
    read before its first byte is out of bounds. *)
Fixpoint GTree_search_ (parent : gnode) (desired : bytes) (lp : option Z)
  : outcome (Z * Z * option Z) :=
  let* _ := guard (0 <? strlen desired) OutOfBounds in
  let is_directory := last_is slash desired in
  let '(GNode a _ cs) := parent in
  (fix loop (cs : list gnode) (found : Z) (lp : option Z) :=
     match cs with
     | [] => Ret (0, found, Some a)
     | child :: cs' =>
         let str := gdata child in
         if is_directory && prefixb str desired then
           if streq str desired then Ret (1, gaddr child, lp)
           else GTree_search_ child desired lp
         else if negb is_directory && prefixb str desired then
           if streq str desired then Ret (1, gaddr child, lp)
           else
             let* _ := guard (0 <? strlen str) OutOfBounds in
             if (strlen str <? strlen desired) && last_is slash str then
               let* (r, f, lp') := GTree_search_ child desired lp in
               if r =? 0 then loop cs' f lp' else Ret (1, f, lp')
             else loop cs' found lp
         else loop cs' found lp
     end) cs a lp.

(** [GTree_search]. *)
Definition GTree_search (parent : gnode) (desired : bytes) (lp : option Z)
  : outcome (Z * Z * option Z) :=
  if streq (gdata parent) desired then Ret (1, gaddr parent, lp)
  else GTree_search_ parent desired lp.

(** The length of the path of the directory of a name, its slash included. *)
Fixpoint slash_before (n : nat) (d : bytes) : nat :=
  match n with
  | O => O
  | S m => if decide (d !! m = Some slash) then n else slash_before m d
  end.

Definition father_length (d : bytes) : nat :=
  if last_is slash d then
    if Nat.eqb (length d) 1 then O else slash_before (length d - 1) d
  else match strrchr slash d with Some i => S i | None => O end.

(** [GTree_insert] with the address [g_node_new] gets; the result, [*new_node]
    and the state. *)
Definition append_below (closest : Z) (desired : bytes) (new_node : Z) (t : gnode)
  (lp : option Z) : outcome (Z * Z * tree_state) :=
  let* _ := deref closest t in
  Ret (0, new_node, mkTree (Some (g_node_append closest (GNode new_node desired []) t)) lp).

Definition GTree_insert (desired : bytes) (new_node : Z) (s : tree_state)
  : outcome (Z * Z * tree_state) :=
  let* t := root_of s in
  let* closest :=
    match last_parent s with
    | Some p =>
        let* n := deref p t in
        let len := father_length desired in
        Ret (if Nat.eqb (length (gdata n)) len && strneq len (gdata n) desired then Some p else None)
    | None => Ret None
    end in
  match closest with
  | Some p => append_below p desired new_node t (last_parent s)
  | None =>
      let* (r, f, lp) := GTree_search t desired (last_parent s) in
      if r =? 0 then append_below f desired new_node t lp
      else Ret (0, f, mkTree (Some t) lp)
  end.

(** [GTree_delete]. *)
Definition GTree_delete (desired : bytes) (s : tree_state) : outcome (Z * tree_state) :=
  let* t := root_of s in
  let* (r, f, lp) := GTree_search t desired (last_parent s) in
  if r =? 1 then
    let* n := deref f t in
    if streq desired (gdata n) then Ret (1, mkTree (g_node_destroy f t) lp)
    else Ret (r, mkTree (Some t) lp)
  else Ret (r, mkTree (Some t) lp).

(** [GTree_rename]. *)
Definition GTree_rename (old_desired new_desired : bytes) (new_node : Z) (s : tree_state)
  : outcome (Z * tree_state) :=
  let* t := root_of s in
  let* (r, f, lp) := GTree_search t old_desired (last_parent s) in
  if r =? 1 then
    let* n := deref f t in
    if streq old_desired (gdata n) then
      let* (r', _, s') := GTree_insert new_desired new_node (mkTree (g_node_destroy f t) lp) in
      Ret (if r' =? -1 then -1 else 1, s')
    else Ret (1, mkTree (Some t) lp)
  else Ret (-1, mkTree (Some t) lp).

(** [update_node_path]: the text after the length of the old prefix, whatever
    it is, behind the new prefix, in an array of [PATH_MAX]. *)
Definition update_node_path (old_prefix new_prefix path : bytes) : outcome bytes :=
  let* _ := guard (strlen old_prefix <=? strlen path) OutOfBounds in
  let new_full_path := new_prefix ++ drop (length old_prefix) path in
  let* _ := guard (strlen new_full_path <? PATH_MAX) OutOfBounds in
  Ret new_full_path.

Fixpoint set_data_at (p : Z) (v : bytes) (t : gnode) : gnode :=
  let '(GNode a d cs) := t in
  GNode a (if decide (a = p) then v else d) (set_data_at p v <$> cs).

(** [rename_dir_traverse_func] on the nodes of a traversal. *)
Fixpoint rename_nodes (old_prefix new_prefix : bytes) (ps : list Z) (t : gnode) : outcome gnode :=
  match ps with
  | [] => Ret t
  | p :: ps' =>
      let* n := deref p t in
      let* v := update_node_path old_prefix new_prefix (gdata n) in
      rename_nodes old_prefix new_prefix ps' (set_data_at p v t)
  end.

(** [GTree_rename_dir_dir]; [None] is a null [dir_node]. *)
Definition GTree_rename_dir_dir (old_dir rdir_dest : bytes) (dir_node : option Z) (s : tree_state)
  : outcome (Z * tree_state) :=
  match dir_node with
  | None => Ret (-1, s)
  | Some p =>
      let* t := root_of s in
      let* n := deref p t in
      let* t' := rename_nodes old_dir rdir_dest (g_node_traverse n) t in
      Ret (0, mkTree (Some t') (last_parent s))
  end.

(** [serialize_dir_childrens]: the names of the children that the garbage
    collector does not know, in slots of [URI_]; [search] is
    [HierarchicalMapSearchInGarbageCollector].  The buffer, where its pointer
    stands and the number of children left out. *)
Fixpoint serialize_dir_childrens (children : list gnode) (search : bytes -> outcome Z)
  (buffer : bytes) (pos dirty : Z) : outcome (bytes * Z * Z) :=
  match children with
  | [] => Ret (buffer, pos, dirty)
  | child :: cs =>
      let* found := search (gdata child) in
      if found =? 0 then
        let* buffer' := write_at buffer pos (gdata child) in
        serialize_dir_childrens cs search buffer' (pos + URI_) dirty
      else serialize_dir_childrens cs search buffer pos (dirty + 1)
  end.

(** [GTree_getdir]: the buffer and [*numdir_elems]. *)
Definition GTree_getdir (desired_dir : bytes) (search : bytes -> outcome Z) (s : tree_state)
  : outcome (option bytes * Z * tree_state) :=
  let* t := root_of s in
  let* (r, f, lp) := GTree_search t desired_dir (last_parent s) in
  if r =? 0 then Ret (None, -1, mkTree (Some t) lp)
  else
    let* n := deref f t in
    let num_children := Z.of_nat (length (gchildren n)) in
    if num_children =? 0 then Ret (None, 0, mkTree (Some t) lp)
    else
      let dir_elements_buff := replicate (Z.to_nat ((num_children + 1) * URI_)) "000"%char in
      let* (buffer, _, dirty) := serialize_dir_childrens (gchildren n) search dir_elements_buff 0 0 in
      Ret (Some buffer, num_children - dirty, mkTree (Some t) lp).

(** [serialize_dir]: a directory, then its children, directories with all they
    contain. *)
Definition put_uri (data buffer : bytes) (pos : Z) : outcome (bytes * Z) :=
  let* b1 := write_at buffer pos (replicate (Z.to_nat URI_) "000"%char) in
  let* b2 := write_at b1 pos data in
  Ret (b2, pos + URI_).

Fixpoint serialize_dir (t : gnode) (buffer : bytes) (pos : Z) : outcome (bytes * Z) :=
  let '(GNode _ d cs) := t in
  let* (b, p) := put_uri d buffer pos in
  (fix loop (cs : list gnode) (b : bytes) (p : Z) :=
     match cs with
     | [] => Ret (b, p)
     | child :: cs' =>
         let* (b', p') := match gchildren child with
                          | [] => put_uri (gdata child) b p
                          | _ :: _ => serialize_dir child b p
                          end in
         loop cs' b' p'
     end) cs b p.
End directory.

(** ** Well-formed trees *)

(** [p] is the path of an entry of directory [d]: of a file, or of a
    directory. *)
Definition entry_in (d p : bytes) : Prop :=
  exists name, name <> [] /\ slash ∉ name /\ (p = d ++ name \/ p = d ++ name ++ [slash]).

Inductive wf_node : gnode -> Prop :=
| wf_intro a d cs : (cs <> [] -> last_is slash d = true) -> Forall (fun c => entry_in d (gdata c)) cs ->
    NoDup (gdata <$> cs) -> Forall wf_node cs -> wf_node (GNode a d cs).

(** A directory [p] can be found: no file's path is a prefix of it. *)
Definition clear (t : gnode) (p : bytes) : Prop :=
  last_is slash p = true ->
  forall n, n ∈ subnodes t -> last_is slash (gdata n) = false -> ~ gdata n `prefix_of` p.

Lemma elem_subnodes n a d cs :
  n ∈ subnodes (GNode a d cs) <-> n = GNode a d cs \/ exists c, c ∈ cs /\ n ∈ subnodes c.
Proof.
  cbn [subnodes]. rewrite elem_of_cons. split; (intros [?|Hn]; [by left|right]).
  - apply list_elem_of_In, in_concat in Hn as (l & Hl & Hn). apply list_elem_of_In in Hl, Hn.
    apply list_elem_of_fmap in Hl as (c & -> & Hc). eauto.
  - destruct Hn as (c & Hc & Hn). apply list_elem_of_In, in_concat. exists (subnodes c).
    split; apply list_elem_of_In; [|done]. apply list_elem_of_fmap. eauto.
Qed.

Lemma subnodes_self t : t ∈ subnodes t.
Proof. destruct t. apply elem_subnodes. by left. Qed.

Lemma entry_prefix d p : entry_in d p -> d `prefix_of` p.
Proof. intros (n & _ & _ & [-> | ->]); eexists; done. Qed.

Lemma below_prefix t n : wf_node t -> n ∈ subnodes t -> gdata t `prefix_of` gdata n.
Proof.
  intros Hwf. revert n. induction t as [a d cs IH] using gnode_ind'. intros n.
  inversion Hwf as [? ? ? _ Hent _ Hcs]; subst. rewrite elem_subnodes. intros [->|(c & Hc & Hn)]; [done|].
  rewrite Forall_forall in IH, Hent, Hcs. etrans; [apply entry_prefix, Hent, Hc|]. apply IH; auto.
Qed.

Lemma first_component (n1 n2 x y : bytes) :
  slash ∉ n1 -> slash ∉ n2 -> n1 ++ slash :: x = n2 ++ slash :: y -> n1 = n2.
Proof.
  revert n2. induction n1 as [|c n1 IH]; intros [|c2 n2] H1 H2 [=]; subst; try set_solver.
  f_equal. apply IH; [set_solver..|done].
Qed.

(** The one child in which a path can be: it is that child or lies below it. *)
Definition relevant (p : bytes) (c : gnode) : Prop :=
  gdata c `prefix_of` p /\ (gdata c = p \/ last_is slash (gdata c) = true).

Lemma last_slash_dir d name p : name <> [] -> slash ∉ name ->
  p = d ++ name \/ p = d ++ name ++ [slash] -> last_is slash p = true -> p = d ++ name ++ [slash].
Proof.
  intros Hn Hs [->|?]; [|done]. destruct (exists_last Hn) as (u & c & ->).
  rewrite app_assoc, last_is_snoc. intros Hc%ascii_eqb_true. set_solver.
Qed.

Lemma relevant_unique d p c1 c2 :
  entry_in d (gdata c1) -> entry_in d (gdata c2) -> relevant p c1 -> relevant p c2 -> gdata c1 = gdata c2.
Proof.
  intros (n1 & Hn1 & Hs1 & H1) (n2 & Hn2 & Hs2 & H2) [[x Hx] R1] [[y Hy] R2].
  destruct (decide (last_is slash (gdata c1) = true)) as [L1|L1];
    destruct (decide (last_is slash (gdata c2) = true)) as [L2|L2].
  - apply last_slash_dir in H1, H2; try done. rewrite H1, H2 in *. do 2 f_equal.
    rewrite Hx, <- !app_assoc in Hy. apply app_inv_head in Hy. by eapply first_component in Hy.
  - apply last_slash_dir in H1; try done. destruct R2 as [R2|?]; [|done]. rewrite <- R2 in Hx.
    destruct H2 as [H2|H2]; [|rewrite H2, app_assoc, last_is_snoc in L2; done].
    rewrite H1, H2, <- !app_assoc in Hx. apply app_inv_head in Hx. set_solver.
  - apply last_slash_dir in H2; try done. destruct R1 as [R1|?]; [|done]. rewrite <- R1 in Hy.
    destruct H1 as [H1|H1]; [|rewrite H1, app_assoc, last_is_snoc in L1; done].
    rewrite H1, H2, <- !app_assoc in Hy. apply app_inv_head in Hy. set_solver.
  - destruct R1, R2; congruence.
Qed.

(** ** The search *)

(** The loop of [GTree_search_] over the children. *)
Definition search_loop (desired : bytes) (a : Z) :=
  fix loop (cs : list gnode) (found : Z) (lp : option Z) :=
    match cs with
    | [] => Ret (0, found, Some a)
    | child :: cs' =>
        let str := gdata child in
        if last_is slash desired && prefixb str desired then
          if streq str desired then Ret (1, gaddr child, lp)
          else GTree_search_ child desired lp
        else if negb (last_is slash desired) && prefixb str desired then
          if streq str desired then Ret (1, gaddr child, lp)
          else
            let* _ := guard (0 <? strlen str) OutOfBounds in
            if (strlen str <? strlen desired) && last_is slash str then
              let* (r, f, lp') := GTree_search_ child desired lp in
              if r =? 0 then loop cs' f lp' else Ret (1, f, lp')
            else loop cs' found lp
        else loop cs' found lp
    end.

Lemma GTree_search_eq a d cs p lp :
  p <> [] -> GTree_search_ (GNode a d cs) p lp = search_loop p a cs a lp.
Proof. intros Hp%strlen_pos. cbn [GTree_search_]. apply Z.ltb_lt in Hp. by rewrite Hp. Qed.

(** A child that the loop passes by. *)
Definition passed (p : bytes) (c : gnode) : Prop :=
  gdata c <> [] /\ ~ relevant p c /\ (last_is slash p = true -> ~ gdata c `prefix_of` p).

Lemma search_loop_skip p a l cs found lp :
  Forall (passed p) l -> search_loop p a (l ++ cs) found lp = search_loop p a cs found lp.
Proof.
  induction 1 as [|c l (Hne & Hr & Hd) _ IH]; [done|]. cbn [app search_loop]. cbn zeta.
  destruct (prefixb (gdata c) p) eqn:Hp; [|by rewrite !andb_false_r].
  assert (gdata c `prefix_of` p) as Hpre by (by apply prefixb_spec in Hp).
  rewrite !andb_true_r. destruct (last_is slash p) eqn:Hs; [by destruct Hd|]. cbn [negb].
  rewrite (proj2 (streq_false _ _)) by (intros He; apply Hr; split; auto).
  apply strlen_pos, Z.ltb_lt in Hne. rewrite Hne. cbn [guard obind].
  destruct (last_is slash (gdata c)) eqn:Hc; [destruct Hr; by split; [|right]|].
  by rewrite andb_false_r.
Qed.

Lemma prefix_strlen (u p : bytes) : u `prefix_of` p -> u <> p -> strlen u < strlen p.
Proof.
  intros [v ->] Hne. rewrite strlen_app. destruct v; [by rewrite app_nil_r in Hne|].
  unfold strlen. simpl. lia.
Qed.

(** At the child that can hold the path. *)
Lemma search_loop_hit p a c cs found lp :
  gdata c = p -> search_loop p a (c :: cs) found lp = Ret (1, gaddr c, lp).
Proof.
  intros Hc. cbn [search_loop]. cbn zeta. rewrite Hc, streq_refl.
  assert (prefixb p p = true) as -> by (apply prefixb_spec; exists []; by rewrite app_nil_r).
  by destruct (last_is slash p).
Qed.

Lemma search_loop_enter p a c cs found lp r f lp' :
  gdata c `prefix_of` p -> gdata c <> p -> last_is slash (gdata c) = true -> r = 0 \/ r = 1 ->
  Forall (passed p) cs -> GTree_search_ c p lp = Ret (r, f, lp') ->
  exists lp'', search_loop p a (c :: cs) found lp = Ret (r, f, lp'') /\ (lp'' = lp' \/ lp'' = Some a).
Proof.
  intros Hpre Hne Hs Hr Hcs Hc. cbn [search_loop]. cbn zeta.
  assert (gdata c <> []) as Hnil by (by destruct (gdata c)).
  assert (prefixb (gdata c) p = true) as -> by (by apply prefixb_spec).
  rewrite (proj2 (streq_false _ _)) by done. rewrite !andb_true_r, Hs.
  destruct (last_is slash p); cbn [negb].
  - rewrite Hc. eauto.
  - apply strlen_pos, Z.ltb_lt in Hnil. rewrite Hnil. cbn [guard obind].
    pose proof (prefix_strlen _ _ Hpre Hne) as Hlt. apply Z.ltb_lt in Hlt. rewrite Hlt, Hc. cbn [andb obind].
    destruct Hr as [-> | ->]; [|eauto]. cbn [Z.eqb].
    rewrite <- (app_nil_r cs), search_loop_skip by done. cbn. eauto.
Qed.

(** What a search comes to: the node of the path, or the directory that holds
    more of it than every other one. *)
Definition search_result (t : gnode) (p : bytes) (r f : Z) : Prop :=
  exists n, n ∈ subnodes t /\ gaddr n = f /\
    ((r = 1 /\ gdata n = p) \/
     (r = 0 /\ p ∉ paths t /\ (forall m, m ∈ subnodes t -> last_is slash (gdata m) = true ->
        gdata m `prefix_of` p -> gdata m `prefix_of` gdata n) /\
        gdata n `prefix_of` p /\ last_is slash (gdata n) = true)).

Lemma clear_child t p a d cs c : t = GNode a d cs -> c ∈ cs -> clear t p -> clear c p.
Proof. intros -> Hc Hcl Hp n Hn. apply Hcl; [done|]. apply elem_subnodes. eauto. Qed.

Lemma entry_nonempty d p : entry_in d p -> p <> [].
Proof. intros (n & Hn & _ & [-> | ->]); destruct d, n; done. Qed.

Lemma elem_paths p t : p ∈ paths t <-> exists n, n ∈ subnodes t /\ gdata n = p.
Proof. unfold paths. rewrite list_elem_of_fmap. naive_solver. Qed.

#[global] Instance relevant_dec p c : Decision (relevant p c).
Proof. unfold relevant. apply _. Defined.

Lemma children_entries a d cs c : wf_node (GNode a d cs) -> c ∈ cs -> entry_in d (gdata c).
Proof. inversion 1 as [? ? ? _ H1 _ _]; subst. rewrite Forall_forall in H1. auto. Qed.

Lemma children_wf a d cs c : wf_node (GNode a d cs) -> c ∈ cs -> wf_node c.
Proof. inversion 1 as [? ? ? _ _ _ H1]; subst. rewrite Forall_forall in H1. auto. Qed.

Section searching.
Context (p : bytes) (a : Z) (d : bytes) (cs : list gnode).
Context (Hwf : wf_node (GNode a d cs)) (Hclear : clear (GNode a d cs) p).
Context (Hd : d `prefix_of` p) (Hne : d <> p).

Lemma not_relevant_passed c : c ∈ cs -> ~ relevant p c -> passed p c.
Proof.
  intros Hc Hr. split; [by eapply entry_nonempty, children_entries|]. split; [done|]. intros Hp Hpre.
  destruct (last_is slash (gdata c)) eqn:Hs.
  - apply Hr. by split; [|right].
  - eapply Hclear; [done| |exact Hs|done]. apply elem_subnodes. right. exists c. split; [done|apply subnodes_self].
Qed.

(** Below a child that is no candidate there is nothing on the way to [p]. *)
Lemma not_relevant_below c m : c ∈ cs -> ~ relevant p c -> m ∈ subnodes c ->
  gdata m <> p /\ ~ (last_is slash (gdata m) = true /\ gdata m `prefix_of` p).
Proof.
  intros Hc Hr Hm. pose proof (children_wf _ _ _ c Hwf Hc) as Hwc. pose proof (below_prefix c m Hwc Hm) as Hpre.
  assert (gdata m `prefix_of` p -> m = c) as Hself.
  { intros Hmp. destruct c as [ca cd ccs]. apply elem_subnodes in Hm as [->|(c' & Hc' & _)]; [done|].
    exfalso. apply Hr. split; [by etrans|]. right.
    inversion Hwc as [? ? ? Hs _ _ _]; subst. apply Hs. by intros ->; apply not_elem_of_nil in Hc'. }
  split.
  - intros Hmp. rewrite <- Hmp in *. apply Hr. rewrite <- Hself by done. split; [done|by left].
  - intros [Hs Hmp]. apply Hr. rewrite <- Hself by done. split; [done|by right].
Qed.

Lemma all_passed : ~ Exists (relevant p) cs -> Forall (passed p) cs.
Proof.
  intros Hn. apply Forall_forall. intros c Hc. apply not_relevant_passed; [done|].
  intros Hr. apply Hn, Exists_exists. eauto.
Qed.

Lemma one_relevant c l1 l2 : cs = l1 ++ c :: l2 -> relevant p c ->
  forall c', c' ∈ l1 \/ c' ∈ l2 -> ~ relevant p c'.
Proof.
  intros Hcs Hr c' Hc' Hr'.
  assert (gdata c' = gdata c) as He.
  { apply (relevant_unique d p); [apply (children_entries a d cs _ Hwf); subst; set_solver..|done|done]. }
  inversion Hwf as [? ? ? _ _ Hnd _]; subst. rewrite fmap_app, fmap_cons in Hnd.
  apply NoDup_app in Hnd as (_ & H1 & [H2 _]%NoDup_cons).
  destruct Hc' as [Hc'|Hc'].
  - apply (H1 (gdata c')); [by apply list_elem_of_fmap_2|]. rewrite He. set_solver.
  - apply H2. rewrite <- He. by apply list_elem_of_fmap_2.
Qed.

Lemma search_without : last_is slash d = true -> ~ Exists (relevant p) cs -> search_result (GNode a d cs) p 0 a.
Proof.
  intros Hsl Hn.
  assert (forall c, c ∈ cs -> ~ relevant p c) as Hno.
  { intros c Hc Hr. apply Hn, Exists_exists. eauto. }
  exists (GNode a d cs). split; [apply subnodes_self|]. split; [done|]. right. split; [done|]. split; [|split].
  - rewrite elem_paths. intros (n & [->|(c & Hc & Hin)]%elem_subnodes & Hp); [done|].
    by destruct (not_relevant_below c n Hc (Hno c Hc) Hin).
  - intros m [->|(c & Hc & Hin)]%elem_subnodes Hs Hp; [done|].
    by destruct (not_relevant_below c m Hc (Hno c Hc) Hin) as [_ []].
  - done.
Qed.

Lemma search_within c r f : c ∈ cs -> relevant p c -> (forall c', c' ∈ cs -> relevant p c' -> c' = c) ->
  search_result c p r f -> search_result (GNode a d cs) p r f.
Proof.
  intros Hc Hr Huniq (n & Hn & Hf & Hres).
  assert (n ∈ subnodes (GNode a d cs)) as Hin by (apply elem_subnodes; eauto).
  exists n. split; [done|]. split; [done|].
  destruct Hres as [?|(-> & Hnp & Hlong & Hnpre & Hnsl)]; [by left|right]. split; [done|]. split; [|split; [|done]].
  - rewrite elem_paths. intros (m & [->|(c' & Hc' & Hm)]%elem_subnodes & Hp); [done|].
    destruct (decide (relevant p c')) as [Hr'|Hr'].
    + apply Hnp, elem_paths. rewrite <- (Huniq c' Hc' Hr'). eauto.
    + by destruct (not_relevant_below c' m Hc' Hr' Hm).
  - intros m [->|(c' & Hc' & Hm)]%elem_subnodes Hs Hp; [by apply (below_prefix _ _ Hwf Hin)|].
    destruct (decide (relevant p c')) as [Hr'|Hr'].
    + rewrite (Huniq c' Hc' Hr') in Hm. auto.
    + by destruct (not_relevant_below c' m Hc' Hr' Hm) as [_ []].
Qed.
End searching.

Definition lp_ok (t : gnode) (lp : option Z) : Prop :=
  match lp with Some q => q ∈ addrs t | None => True end.

Lemma addrs_child q a d cs c : c ∈ cs -> q ∈ addrs c -> q ∈ addrs (GNode a d cs).
Proof.
  unfold addrs. rewrite !list_elem_of_fmap. intros Hc (n & -> & Hn). exists n. split; [done|].
  apply elem_subnodes. eauto.
Qed.

(** [GTree_search_] below a node finds the path or the closest directory. *)
Lemma search_spec t p lp : wf_node t -> clear t p -> gdata t `prefix_of` p -> gdata t <> p ->
  last_is slash (gdata t) = true -> exists r f lp', GTree_search_ t p lp = Ret (r, f, lp') /\ search_result t p r f /\
    (lp' = lp \/ lp_ok t lp').
Proof.
  revert lp. induction t as [a d cs IH] using gnode_ind'. intros lp Hwf Hcl Hd Hne Hsl. simpl in Hd, Hne, Hsl.
  rewrite GTree_search_eq by (intros ->; apply prefix_nil_inv in Hd; done).
  assert (a ∈ addrs (GNode a d cs)) as Ha by (apply list_elem_of_here).
  destruct (decide (Exists (relevant p) cs)) as [Hex|Hno].
  - apply Exists_exists in Hex as (c & Hc & Hr). pose proof Hc as Hin.
    apply list_elem_of_split in Hc as (l1 & l2 & Hcs).
    pose proof (one_relevant p a d cs Hwf Hcl Hd Hne c l1 l2 Hcs Hr) as Honly.
    assert (forall c', c' ∈ l1 \/ c' ∈ l2 -> passed p c') as Hpass.
    { intros c' Hc'. eapply (not_relevant_passed p a d cs); [done..| |auto]. subst. set_solver. }
    assert (forall c', c' ∈ cs -> relevant p c' -> c' = c) as Huniq.
    { intros c' Hc' Hr'. rewrite Hcs, elem_of_app, elem_of_cons in Hc'.
      destruct Hc' as [?|[?|?]]; [exfalso; by eapply Honly; eauto|done|exfalso; by eapply Honly; eauto]. }
    rewrite Hcs, search_loop_skip, <- Hcs by (apply Forall_forall; auto).
    destruct (decide (gdata c = p)) as [He|He].
    + rewrite search_loop_hit by done. exists 1, (gaddr c), lp. split; [done|]. split; [|by left].
      eapply search_within; [done..|].
      exists c. split; [apply subnodes_self|]. auto.
    + pose proof Hr as [Hpre [?|Hs]]; [done|]. rewrite Forall_forall in IH.
      destruct (IH c Hin lp) as (r & f & lp' & Hrun & Hres & Hlp).
      { by eapply children_wf. } { by eapply clear_child. } { done. } { done. } { done. }
      assert (r = 0 \/ r = 1) as Hr01 by (destruct Hres as (? & _ & _ & [[-> _]|[-> _]]); auto).
      destruct (search_loop_enter p a c l2 a lp r f lp' Hpre He Hs Hr01) as (lp'' & Hrun' & Hlp'); [|done|].
      { apply Forall_forall. auto. }
      exists r, f, lp''. split; [done|]. split.
      * by eapply search_within.
      * destruct Hlp' as [-> | ->]; [|by right]. destruct Hlp as [?|Hok]; [by left|right].
        destruct lp'; [|done]. by apply (addrs_child _ a d cs c).
  - pose proof (search_loop_skip p a cs [] a lp) as Hskip. rewrite app_nil_r in Hskip.
    rewrite Hskip by (eapply all_passed; eauto). cbn.
    exists 0, a, (Some a). split; [done|]. split; [by eapply search_without|]. by right.
Qed.

(** ** Paths name nodes *)

Lemma NoDup_fmap_eq {A C} (f : A -> C) (l : list A) x y :
  NoDup (f <$> l) -> x ∈ l -> y ∈ l -> f x = f y -> x = y.
Proof.
  intros Hnd (i & Hi)%list_elem_of_lookup (j & Hj)%list_elem_of_lookup Hf.
  assert (i = j) as ->; [|congruence].
  eapply NoDup_lookup; [exact Hnd|by rewrite list_lookup_fmap, Hi|by rewrite list_lookup_fmap, Hj, Hf].
Qed.

Lemma fmap_concat_subnodes {C} (f : gnode -> C) a d cs :
  f <$> subnodes (GNode a d cs) = f (GNode a d cs) :: concat ((fun c => f <$> subnodes c) <$> cs).
Proof.
  cbn [subnodes]. rewrite fmap_cons. f_equal. induction cs as [|c cs IH]; [done|].
  rewrite !fmap_cons. cbn [concat]. by rewrite fmap_app, IH.
Qed.

Lemma below_relevant c m : wf_node c -> m ∈ subnodes c -> relevant (gdata m) c.
Proof.
  intros Hwf Hm. split; [by apply below_prefix|]. destruct c as [a d cs].
  apply elem_subnodes in Hm as [->|(c & Hc & _)]; [by left|right].
  inversion Hwf as [? ? ? Hs _ _ _]; subst. apply Hs. by intros ->; apply not_elem_of_nil in Hc.
Qed.

Lemma entry_longer d p : entry_in d p -> p `prefix_of` d -> False.
Proof.
  intros (n & Hn & _ & H) Hp%prefix_length.
  destruct H as [-> | ->]; rewrite !length_app in Hp; destruct n; simpl in Hp; done || lia.
Qed.

Lemma paths_nodup t : wf_node t -> NoDup (paths t).
Proof.
  induction t as [a d cs IH] using gnode_ind'. intros Hwf.
  pose proof (fun c => children_entries a d cs c Hwf) as Hent. pose proof (fun c => children_wf a d cs c Hwf) as Hcwf.
  unfold paths. rewrite fmap_concat_subnodes. apply NoDup_cons. split.
  - intros Hin%list_elem_of_In%in_concat. destruct Hin as (l & Hl%list_elem_of_In & Hin%list_elem_of_In).
    apply list_elem_of_fmap in Hl as (c & -> & Hc). apply list_elem_of_fmap in Hin as (m & Hm & Hin).
    simpl in Hm. apply (entry_longer d (gdata c)); [by apply Hent|]. rewrite Hm. by apply below_prefix; [apply Hcwf|].
  - inversion Hwf as [? ? ? _ _ Hnd _]; subst. clear Hwf.
    induction cs as [|c cs IHcs]; [constructor|]. cbn. apply NoDup_app.
    apply Forall_cons in IH as [IHc IH]. rewrite fmap_cons in Hnd. apply NoDup_cons in Hnd as [Hnin Hnd].
    split; [apply IHc, Hcwf; set_solver|]. split.
    + intros x Hx Hin%list_elem_of_In%in_concat.
      destruct Hin as (l & Hl%list_elem_of_In & Hin%list_elem_of_In).
      apply list_elem_of_fmap in Hl as (c' & -> & Hc'). apply list_elem_of_fmap in Hin as (m' & -> & Hm').
      apply list_elem_of_fmap in Hx as (m & He & Hm). apply Hnin. apply list_elem_of_fmap.
      exists c'. split; [|done]. apply (relevant_unique d (gdata m')); [apply Hent; set_solver..| |].
      * rewrite He. apply below_relevant; [apply Hcwf; set_solver|done].
      * apply below_relevant; [apply Hcwf; set_solver|done].
    + apply IHcs; [done|intros; apply Hent; set_solver|intros; apply Hcwf; set_solver|done].
Qed.

Lemma path_node_unique t n m : wf_node t -> n ∈ subnodes t -> m ∈ subnodes t -> gdata n = gdata m -> n = m.
Proof. intros Hwf. apply NoDup_fmap_eq, paths_nodup, Hwf. Qed.

Lemma node_at_spec t n : NoDup (addrs t) -> n ∈ subnodes t -> node_at (gaddr n) t = Some n.
Proof.
  intros Hnd Hn. unfold node_at. destruct (List.find _ _) as [m|] eqn:Hf.
  - apply find_some in Hf as [Hm%list_elem_of_In He%Z.eqb_eq]. f_equal. by eapply NoDup_fmap_eq.
  - exfalso. apply list_elem_of_In in Hn. pose proof (find_none _ _ Hf n Hn) as Hx. simpl in Hx.
    by rewrite Z.eqb_refl in Hx.
Qed.

Lemma node_at_some t p n : node_at p t = Some n -> n ∈ subnodes t /\ gaddr n = p.
Proof. intros [Hm%list_elem_of_In He%Z.eqb_eq]%find_some. done. Qed.

(** ** Appending *)

Lemma addrs_node a d cs : addrs (GNode a d cs) = a :: concat (addrs <$> cs).
Proof. unfold addrs at 1. by rewrite fmap_concat_subnodes. Qed.

Lemma paths_node a d cs : paths (GNode a d cs) = d :: concat (paths <$> cs).
Proof. unfold paths at 1. by rewrite fmap_concat_subnodes. Qed.

(** The child below which an address lies is the only one. *)
Lemma locate a t : NoDup (addrs t) -> a ∈ addrs t ->
  gaddr t = a \/ exists b d l1 c l2, t = GNode b d (l1 ++ c :: l2) /\ b <> a /\ NoDup (addrs c) /\
    a ∈ addrs c /\ (forall c', c' ∈ l1 \/ c' ∈ l2 -> a ∉ addrs c').
Proof.
  destruct t as [b d cs]. rewrite addrs_node. intros [Hb Hnd]%NoDup_cons Ha.
  destruct (decide (b = a)) as [->|Hne]; [by left|right].
  apply elem_of_cons in Ha as [->|Ha]; [done|].
  apply list_elem_of_In, in_concat in Ha as (l & Hl%list_elem_of_In & Ha%list_elem_of_In).
  apply list_elem_of_fmap in Hl as (c & -> & Hc). apply list_elem_of_split in Hc as (l1 & l2 & ->).
  rewrite fmap_app, fmap_cons, concat_app in Hnd. cbn [concat] in Hnd.
  apply NoDup_app in Hnd as (_ & H1 & Hnd). apply NoDup_app in Hnd as (Hc & H2 & _).
  assert (forall l c', c' ∈ l -> a ∈ addrs c' -> a ∈ concat (addrs <$> l)) as Hcat.
  { intros l c' Hc' Hac. apply list_elem_of_In, in_concat. exists (addrs c').
    split; apply list_elem_of_In; [|done]. by apply list_elem_of_fmap_2. }
  exists b, d, l1, c, l2. split; [done|]. do 3 (split; [done|]). intros c' [Hc'|Hc'] Hac.
  - apply (H1 a); [by eapply Hcat|]. apply elem_of_app. by left.
  - apply (H2 a); [done|by eapply Hcat].
Qed.

Lemma node_at_child a b d l1 c l2 m : b <> a -> NoDup (addrs c) ->
  (forall c', c' ∈ l1 \/ c' ∈ l2 -> a ∉ addrs c') ->
  node_at a (GNode b d (l1 ++ c :: l2)) = Some m -> node_at a c = Some m.
Proof.
  intros Hne Hnd Hno [Hin Hma]%node_at_some.
  apply elem_subnodes in Hin as [->|(c' & Hc' & Hin)]; [simpl in Hma; done|].
  rewrite <- Hma. apply node_at_spec; [done|]. rewrite elem_of_app, elem_of_cons in Hc'.
  assert (a ∈ addrs c') as Hac' by (rewrite <- Hma; by apply list_elem_of_fmap_2).
  destruct Hc' as [?|[->|?]]; [exfalso; by eapply Hno; eauto|done|exfalso; by eapply Hno; eauto].
Qed.

Lemma node_at_addrs a t m : node_at a t = Some m -> a ∈ addrs t.
Proof. intros [Hin <-]%node_at_some. by apply list_elem_of_fmap_2. Qed.

Section appending.
Context `{GLibLaws}.

Lemma append_absent a n t : a ∉ addrs t -> g_node_append a n t = t.
Proof.
  induction t as [b d cs IH] using gnode_ind'. rewrite addrs_node, append_node.
  intros [Hne Hcs]%not_elem_of_cons. rewrite decide_False by done. f_equal.
  induction cs as [|c cs IHcs]; [done|]. apply Forall_cons in IH as [IHc IH]. rewrite fmap_cons in *.
  cbn [concat] in Hcs. apply not_elem_of_app in Hcs as [Hc Hcs]. by rewrite IHc, IHcs.
Qed.

Lemma append_gdata a n t : gdata (g_node_append a n t) = gdata t.
Proof. destruct t. rewrite append_node. by case_decide. Qed.

Lemma append_gaddr a n t : gaddr (g_node_append a n t) = gaddr t.
Proof. destruct t. rewrite append_node. by case_decide. Qed.

(** Below the root, appending changes one child only. *)
Lemma append_child a n b d l1 c l2 : b <> a -> (forall c', c' ∈ l1 \/ c' ∈ l2 -> a ∉ addrs c') ->
  g_node_append a n (GNode b d (l1 ++ c :: l2)) = GNode b d (l1 ++ g_node_append a n c :: l2).
Proof.
  intros Hne Hno. rewrite append_node, decide_False by done. f_equal. rewrite fmap_app, fmap_cons.
  assert (forall l : list gnode, (forall c', c' ∈ l -> a ∉ addrs c') -> g_node_append a n <$> l = l) as Hid.
  { induction l as [|x l IHl]; intros Hl; [done|]. rewrite fmap_cons, append_absent, IHl; [done|set_solver..]. }
  by rewrite !Hid by auto.
Qed.

Lemma append_here a n d cs : g_node_append a n (GNode a d cs) = GNode a d (cs ++ [n]).
Proof. by rewrite append_node, decide_True. Qed.

(** What hangs in the tree afterwards, for texts and for addresses. *)
Lemma append_all {C} (f : gnode -> C) (g : Z -> bytes -> C) (Hf : forall x, f x = g (gaddr x) (gdata x)) a n t :
  NoDup (addrs t) -> a ∈ addrs t -> f <$> subnodes (g_node_append a n t) ≡ₚ (f <$> subnodes n) ++ (f <$> subnodes t).
Proof.
  induction t as [b d cs IH] using gnode_ind'. intros Hnd Ha.
  destruct (locate a _ Hnd Ha) as [Hb|(b' & d' & l1 & c & l2 & [= <- <- ->] & Hne & Hndc & Hac & Hno)].
  - simpl in Hb. subst b. rewrite append_here, !fmap_concat_subnodes, !Hf, fmap_app, concat_app. cbn.
    rewrite app_nil_r. solve_Permutation.
  - rewrite append_child by done. rewrite !fmap_concat_subnodes, !Hf, !fmap_app, !fmap_cons, !concat_app. cbn [concat].
    rewrite Forall_forall in IH. rewrite (IH c) by (done || set_solver). cbn. solve_Permutation.
Qed.

Lemma append_wf a x p m t :
  wf_node t -> NoDup (addrs t) -> node_at a t = Some m -> entry_in (gdata m) p ->
  last_is slash (gdata m) = true -> p ∉ paths t -> wf_node (g_node_append a (GNode x p []) t).
Proof.
  induction t as [b d cs IH] using gnode_ind'. intros Hwf Hnd Hm Hent Hs Hp.
  pose proof (node_at_addrs _ _ _ Hm) as Ha.
  pose proof Hwf as Hwf0. inversion Hwf as [? ? ? Hsl Hents Hndd Hcs]; subst a0 d0 cs0.
  destruct (locate a _ Hnd Ha) as [Hb|(b' & d' & l1 & c & l2 & [= <- <- ->] & Hne & Hndc & Hac & Hno)].
  - simpl in Hb. subst b. rewrite append_here. pose proof (node_at_spec _ _ Hnd (subnodes_self _)) as Hself.
    simpl in Hself. rewrite Hself in Hm. injection Hm as <-. simpl in Hent, Hs. constructor; [done| | |].
    + apply Forall_app. split; [done|]. by constructor.
    + rewrite fmap_app. apply NoDup_app. split; [done|]. split; [|apply NoDup_singleton].
      intros y (c & -> & Hc)%list_elem_of_fmap Hy%list_elem_of_singleton. apply Hp, elem_paths.
      exists c. split; [|done]. apply elem_subnodes. right. exists c. split; [done|apply subnodes_self].
    + apply Forall_app. split; [done|]. constructor; [|done]. constructor; [done|constructor..].
  - rewrite append_child by done. rewrite Forall_forall in IH.
    assert (c ∈ l1 ++ c :: l2) as Hcin by set_solver.
    apply Forall_app in Hents as [He1 [Hec He2]%Forall_cons]. apply Forall_app in Hcs as [Hw1 [Hwc Hw2]%Forall_cons].
    constructor.
    + intros _. apply Hsl. by destruct l1.
    + apply Forall_app. split; [done|]. constructor; [by rewrite append_gdata|done].
    + rewrite fmap_app, fmap_cons in *. by rewrite append_gdata.
    + apply Forall_app. split; [done|]. constructor; [|done]. apply IH; [done..| |done|done|].
      * by eapply node_at_child.
      * intros (y & Hy & Hyp)%elem_paths. apply Hp, elem_paths. exists y. split; [|done].
        apply elem_subnodes. eauto.
Qed.

(** The node appended to has the new one as its last child. *)
Lemma append_children a n m t : NoDup (addrs t) -> node_at a t = Some m ->
  GNode a (gdata m) (gchildren m ++ [n]) ∈ subnodes (g_node_append a n t).
Proof.
  induction t as [b d cs IH] using gnode_ind'. intros Hnd Hm.
  pose proof (node_at_addrs _ _ _ Hm) as Ha.
  destruct (locate a _ Hnd Ha) as [Hb|(b' & d' & l1 & c & l2 & [= <- <- ->] & Hne & Hndc & Hac & Hno)].
  - simpl in Hb. subst b. rewrite append_here. pose proof (node_at_spec _ _ Hnd (subnodes_self _)) as Hself.
    simpl in Hself. rewrite Hself in Hm. injection Hm as <-. apply subnodes_self.
  - rewrite append_child by done. rewrite Forall_forall in IH. apply elem_subnodes. right.
    exists (g_node_append a n c). split; [set_solver|]. apply IH; [set_solver|done|by eapply node_at_child].
Qed.
End appending.

(** ** Inserting and listing *)

(** The state between operations: the root is a directory, addresses and paths
    name nodes, and the remembered parent is in the tree. *)
Definition tree_ok (s : tree_state) (t : gnode) : Prop :=
  tree_root s = Some t /\ wf_node t /\ NoDup (addrs t) /\ last_is slash (gdata t) = true /\
  lp_ok t (last_parent s).

Lemma slash_before_skip d name k u :
  last_is slash d = true -> slash ∉ name -> (k <= length name)%nat ->
  slash_before (length d + k) (d ++ name ++ u) = length d.
Proof.
  intros Hd Hn. assert (exists d', d = d' ++ [slash]) as (d' & ->).
  { destruct d as [|c d] using rev_ind; [done|]. rewrite last_is_snoc, ascii_eqb_true in Hd. subst. eauto. }
  induction k as [|k IH]; intros Hk.
  - rewrite length_app, Nat.add_0_r. replace (length d' + length [slash])%nat with (S (length d')) by (simpl; lia).
    cbn [slash_before]. rewrite decide_True; [done|]. rewrite <- app_assoc. cbn [app]. by rewrite list_lookup_middle.
  - rewrite Nat.add_succ_r. cbn [slash_before]. rewrite decide_False; [apply IH; lia|].
    rewrite lookup_app_r by lia. replace (length (d' ++ [slash]) + k - length (d' ++ [slash]))%nat with k by lia.
    rewrite lookup_app_l by lia. intros Hl%list_elem_of_lookup_2. done.
Qed.

(** The path of an entry up to its last component is its directory. *)
Lemma father_length_entry d p : entry_in d p -> last_is slash d = true -> father_length p = length d.
Proof.
  intros (name & Hne & Hns & Hp) Hd. unfold father_length. destruct (last_is slash p) eqn:Hl.
  - rewrite (last_slash_dir d name p Hne Hns Hp Hl). rewrite !length_app. simpl length.
    destruct (Nat.eqb_spec (length d + (length name + 1)) 1); [by destruct d, name; simpl in *; lia|].
    replace (length d + (length name + 1) - 1)%nat with (length d + length name)%nat by lia.
    by apply slash_before_skip.
  - destruct Hp as [-> | ->]; [|by rewrite app_assoc, last_is_snoc in Hl].
    destruct d as [|c d _] using rev_ind; [done|]. rewrite last_is_snoc, ascii_eqb_true in Hd. subst c.
    rewrite <- app_assoc. cbn [app]. rewrite strrchr_app_last by done. rewrite length_app. simpl. lia.
Qed.

Lemma entry_father d p : entry_in d p -> take (length d) p = d.
Proof. intros [u ->]%entry_prefix. by rewrite take_app_length. Qed.

(** The closest directory of a new entry is its directory. *)
Lemma closest_is_father t m n p : wf_node t -> m ∈ subnodes t -> n ∈ subnodes t ->
  entry_in (gdata m) p -> gdata n <> p -> gdata n `prefix_of` p -> last_is slash (gdata n) = true ->
  gdata m `prefix_of` gdata n -> n = m.
Proof.
  intros Hwf Hm Hn Hent Hne Hpre Hs [u Hu]. eapply path_node_unique; [done..|]. rewrite Hu.
  destruct u as [|c u _] using rev_ind; [by rewrite app_nil_r|]. exfalso.
  rewrite Hu, app_assoc, last_is_snoc, ascii_eqb_true in Hs. subst c.
  destruct Hent as (name & Hnn & Hns & Hp). destruct Hpre as [v Hv]. rewrite Hu, <- !app_assoc in Hv.
  destruct Hp as [Hp|Hp]; rewrite Hp in Hv; apply app_inv_head in Hv.
  - rewrite Hv in Hns. set_solver.
  - destruct v as [|c v _] using rev_ind.
    + apply Hne. rewrite Hu, Hp. f_equal. cbn in Hv. done.
    + rewrite !app_assoc in Hv. apply app_inj_tail in Hv as [-> _]. set_solver.
Qed.

Section operations.
Context `{GLibLaws}.

Lemma insert_run s t m p x :
  tree_ok s t -> m ∈ subnodes t -> last_is slash (gdata m) = true -> entry_in (gdata m) p ->
  p ∉ paths t -> clear t p ->
  exists lp, GTree_insert p x s =
    Ret (0, x, mkTree (Some (g_node_append (gaddr m) (GNode x p []) t)) lp) /\ lp_ok t lp.
Proof.
  intros (Hroot & Hwf & Hnd & Hts & Hlp) Hm Hms Hent Hp Hcl. unfold GTree_insert, root_of. rewrite Hroot. cbn [obind].
  assert (forall lp, append_below (gaddr m) p x t lp =
    Ret (0, x, mkTree (Some (g_node_append (gaddr m) (GNode x p []) t)) lp)) as Happ.
  { intros lp. unfold append_below, deref. by rewrite (node_at_spec t m). }
  assert (exists lp, (let* (r, f, lp) := GTree_search t p (last_parent s) in
      if r =? 0 then append_below f p x t lp else Ret (0, f, mkTree (Some t) lp)) =
    Ret (0, x, mkTree (Some (g_node_append (gaddr m) (GNode x p []) t)) lp) /\ lp_ok t lp) as Hsearch.
  { assert (gdata t <> p) as Htp by (intros <-; apply Hp, elem_paths; exists t; split; [apply subnodes_self|done]).
    unfold GTree_search. rewrite (proj2 (streq_false _ _)) by done.
    destruct (search_spec t p (last_parent s) Hwf Hcl) as (r & f & lp' & Hrun & Hres & Hlp'); [|done|done|].
    { etrans; [by apply below_prefix|by apply entry_prefix]. }
    rewrite Hrun. cbn [obind]. destruct Hres as (n & Hn & <- & [[_ Hnp]|(-> & _ & Hlong & Hpre & Hns)]).
    - destruct Hp. apply elem_paths. eauto.
    - assert (n = m) as ->.
      { eapply (closest_is_father t m n p); try done; [|by apply Hlong; [..|apply entry_prefix]].
        intros Hnp. apply Hp, elem_paths. eauto. }
      cbn [Z.eqb]. exists lp'. split; [by rewrite Happ|]. by destruct Hlp' as [-> |]. }
  destruct (last_parent s) as [q|] eqn:Hq; [|done]. cbn in Hlp.
  apply list_elem_of_fmap in Hlp as (n & -> & Hn). unfold deref. rewrite (node_at_spec t n) by done. cbn [obind].
  rewrite (father_length_entry _ _ Hent Hms).
  destruct (Nat.eqb (length (gdata n)) (length (gdata m)) && strneq (length (gdata m)) (gdata n) p) eqn:Hsame; [|done].
  apply andb_true_iff in Hsame as [Hlen%Nat.eqb_eq Heq%bool_decide_eq_true].
  rewrite (entry_father _ _ Hent), <- Hlen, take_ge in Heq by done.
  rewrite (path_node_unique t n m) by done. exists (Some (gaddr m)). split; [apply Happ|].
  by apply list_elem_of_fmap_2.
Qed.

Lemma append_nodup x p m t : NoDup (addrs t) -> m ∈ subnodes t -> x ∉ addrs t ->
  NoDup (addrs (g_node_append (gaddr m) (GNode x p []) t)).
Proof.
  intros Hnd Hm Hx. unfold addrs. rewrite (append_all gaddr (fun a _ => a)); [|done|done|by apply list_elem_of_fmap_2].
  cbn. by constructor.
Qed.

Lemma insert_ok s t m p x :
  tree_ok s t -> m ∈ subnodes t -> last_is slash (gdata m) = true -> entry_in (gdata m) p ->
  p ∉ paths t -> clear t p -> x ∉ addrs t ->
  exists t' lp, GTree_insert p x s = Ret (0, x, mkTree (Some t') lp) /\ tree_ok (mkTree (Some t') lp) t' /\
    paths t' ≡ₚ p :: paths t /\
    GNode (gaddr m) (gdata m) (gchildren m ++ [GNode x p []]) ∈ subnodes t'.
Proof.
  intros Hok Hm Hms Hent Hp Hcl Hx. destruct (insert_run s t m p x Hok Hm Hms Hent Hp Hcl) as (lp & Hrun & Hlp).
  destruct Hok as (Hroot & Hwf & Hnd & Hts & _). eexists _, lp. split; [exact Hrun|].
  pose proof (node_at_spec t m Hnd Hm) as Hat.
  assert (gaddr m ∈ addrs t) as Hin by (by eapply node_at_addrs). split; [|split].
  - split; [done|]. split; [by eapply append_wf|]. split; [by apply append_nodup|].
    split; [by rewrite append_gdata|]. destruct lp as [q|]; [|done]. cbn in Hlp |- *.
    unfold addrs. rewrite (append_all gaddr (fun a _ => a)) by done. by apply list_elem_of_further.
  - unfold paths. rewrite (append_all gdata (fun _ d => d)) by done. done.
  - by apply append_children.
Qed.

Lemma search_finds t n lp : wf_node t -> last_is slash (gdata t) = true -> n ∈ subnodes t -> clear t (gdata n) ->
  exists lp', GTree_search t (gdata n) lp = Ret (1, gaddr n, lp') /\ (lp' = lp \/ lp_ok t lp').
Proof.
  intros Hwf Hts Hn Hcl. unfold GTree_search. destruct (streq (gdata t) (gdata n)) eqn:He.
  - apply streq_true in He. rewrite (path_node_unique t t n) by (done || apply subnodes_self). eauto.
  - apply streq_false in He.
    destruct (search_spec t (gdata n) lp Hwf Hcl) as (r & f & lp' & Hrun & Hres & Hlp'); [by apply below_prefix|done..|].
    exists lp'. split; [|done]. rewrite Hrun.
    destruct Hres as (n' & Hn' & <- & [[-> Hd]|(_ & Hnp & _)]).
    + by rewrite (path_node_unique t n' n).
    + destruct Hnp. apply elem_paths. eauto.
Qed.

(** ** The buffer of a listing *)

Definition nuls (n : Z) : bytes := replicate (Z.to_nat n) "000"%char.
Definition slot (d : bytes) : bytes := d ++ nuls (URI_ - strlen d).

Lemma strlen_nuls n : 0 <= n -> strlen (nuls n) = n.
Proof. intros. unfold strlen, nuls. rewrite length_replicate. lia. Qed.

Lemma drop_nuls n m : 0 <= m <= n -> drop (Z.to_nat m) (nuls n) = nuls (n - m).
Proof. intros. unfold nuls. rewrite drop_replicate. f_equal. lia. Qed.

Lemma write_uri_slot pre d n : strlen d <= URI_ -> URI_ <= n ->
  write_at (pre ++ nuls n) (strlen pre) d = Ret ((pre ++ slot d) ++ nuls (n - URI_)).
Proof.
  intros Hd Hn. pose proof (strlen_nonneg d). pose proof (strlen_nonneg pre). assert (URI_ = 256) as HU by done.
  unfold write_at. rewrite strlen_app, strlen_nuls by lia.
  rewrite (proj2 (Z.leb_le 0 _)), (proj2 (Z.leb_le _ _)) by lia. cbn [andb]. f_equal.
  unfold strlen at 1. rewrite Nat2Z.id, take_app_length. rewrite <- app_assoc. f_equal.
  unfold slot. rewrite <- app_assoc. f_equal.
  replace (Z.to_nat (strlen pre) + length d)%nat with (length pre + Z.to_nat (strlen d))%nat by (unfold strlen; lia).
  rewrite <- drop_drop, drop_app_length, drop_nuls by lia.
  unfold nuls. rewrite <- replicate_add. f_equal. lia.
Qed.

Lemma serialize_children_run (dirty : bytes -> bool) cs : forall pre n k,
  (forall c, c ∈ cs -> strlen (gdata c) <= URI_) -> Z.of_nat (length cs) * URI_ <= n ->
  let kept := filter (fun d => dirty d = false) (gdata <$> cs) in
  serialize_dir_childrens cs (fun d => Ret (if dirty d then 1 else 0)) (pre ++ nuls n) (strlen pre) k =
  Ret (pre ++ concat (slot <$> kept) ++ nuls (n - Z.of_nat (length kept) * URI_),
       strlen pre + Z.of_nat (length kept) * URI_, k + (Z.of_nat (length cs) - Z.of_nat (length kept))).
Proof.
  assert (URI_ = 256) as HU by done.
  induction cs as [|c cs IH]; intros pre n k Hlen Hn; cbn zeta.
  - cbn [serialize_dir_childrens fmap list_fmap filter list_filter length concat app Z.of_nat].
    rewrite Z.mul_0_l, !Z.sub_0_r, !Z.add_0_r. done.
  - assert (strlen (gdata c) <= URI_) as Hc by (apply Hlen; set_solver).
    cbn [serialize_dir_childrens]. rewrite fmap_cons, filter_cons. cbn [length] in Hn.
    destruct (dirty (gdata c)) eqn:Hd; cbn [obind Z.eqb].
    + rewrite IH by (set_solver || lia). rewrite decide_False by done. cbn [length]. do 2 f_equal. lia.
    + rewrite write_uri_slot by (set_solver || lia). cbn [obind].
      replace (strlen pre + URI_) with (strlen (pre ++ slot (gdata c))).
      2: { unfold slot. rewrite !strlen_app, strlen_nuls; lia. }
      rewrite IH by (set_solver || lia). rewrite decide_True by done. cbn [length]. rewrite fmap_cons. cbn [concat].
      rewrite <- !app_assoc. do 2 f_equal; [f_equal|].
      * do 4 f_equal. lia.
      * rewrite strlen_app. unfold slot. rewrite strlen_app, strlen_nuls; lia.
      * lia.
Qed.
End operations.

(** A concrete GLib, which shows the laws consistent and runs the examples. *)
Module ListGLib.
Fixpoint append (p : Z) (n t : gnode) : gnode :=
  let '(GNode a d cs) := t in
  if decide (a = p) then GNode a d (cs ++ [n]) else GNode a d (map (append p n) cs).

Fixpoint destroy (p : Z) (t : gnode) : option gnode :=
  let '(GNode a d cs) := t in
  if decide (a = p) then None
  else Some (GNode a d
         ((fix go (cs : list gnode) : list gnode :=
             match cs with
             | [] => []
             | c :: cs' => match destroy p c with Some c' => c' :: go cs' | None => go cs' end
             end) cs)).

#[export] Instance list_glib : GLib := {
  g_node_append := append; g_node_destroy := destroy; g_node_traverse := addrs }.

#[export] Instance list_glib_laws : GLibLaws.
Proof.
  split; [done| |done]. intros p a d cs. reflexivity.
Qed.

(** The tree that src/app/dirr.c starts with. *)
Definition empty : tree_state := mkTree (Some (GNode 0 IMSS_ROOT [])) None.

Fixpoint inserts (ps : list bytes) (next : Z) (s : tree_state) : outcome tree_state :=
  match ps with
  | [] => Ret s
  | p :: ps' => let* (_, _, s') := GTree_insert p next s in inserts ps' (next + 1) s'
  end.

Definition clean : bytes -> outcome Z := fun _ => Ret 0.
End ListGLib.
Import ListGLib.

(** ** Removal *)

Section removing.
Context `{GLibLaws}.

Lemma destroy_absent a t : a ∉ addrs t -> g_node_destroy a t = Some t.
Proof.
  induction t as [b d cs IH] using gnode_ind'. rewrite addrs_node, destroy_node.
  intros [Hne Hcs]%not_elem_of_cons. rewrite decide_False by done. do 2 f_equal.
  induction cs as [|c cs IHcs]; [done|]. apply Forall_cons in IH as [IHc IH]. rewrite fmap_cons in *.
  cbn [concat] in Hcs. apply not_elem_of_app in Hcs as [Hc Hcs]. cbn. by rewrite IHc, IHcs.
Qed.

Lemma destroy_child a b d l1 c l2 : b <> a -> (forall c', c' ∈ l1 \/ c' ∈ l2 -> a ∉ addrs c') ->
  g_node_destroy a (GNode b d (l1 ++ c :: l2)) =
  Some (GNode b d (l1 ++ option_list (g_node_destroy a c) ++ l2)).
Proof.
  intros Hne Hno. rewrite destroy_node, decide_False by done. do 2 f_equal.
  assert (forall l : list gnode, (forall c', c' ∈ l -> a ∉ addrs c') -> omap (g_node_destroy a) l = l) as Hid.
  { induction l as [|x l IHl]; intros Hl; [done|]. cbn. rewrite destroy_absent, IHl; [done|set_solver..]. }
  rewrite omap_app. cbn. rewrite !Hid by auto. by destruct (g_node_destroy a c).
Qed.

(** Taking out a node below the root takes out its paths and no others. *)
Lemma destroy_ok a t m : wf_node t -> NoDup (addrs t) -> node_at a t = Some m -> a <> gaddr t ->
  exists t', g_node_destroy a t = Some t' /\ paths m ++ paths t' ≡ₚ paths t /\ wf_node t' /\
    gdata t' = gdata t.
Proof.
  induction t as [b d cs IH] using gnode_ind'. intros Hwf Hnd Hm Hroot. simpl in Hroot.
  pose proof (node_at_addrs _ _ _ Hm) as Ha.
  inversion Hwf as [? ? ? Hsl Hents Hndd Hcs]; subst a0 d0 cs0.
  destruct (locate a _ Hnd Ha) as [Hb|(b' & d' & l1 & c & l2 & [= <- <- ->] & Hne & Hndc & Hac & Hno)]; [done|].
  rewrite destroy_child by done. eexists. split; [done|]. pose proof Hents as Hents0. pose proof Hcs as Hcs0.
  apply Forall_app in Hents as [He1 [Hec He2]%Forall_cons]. apply Forall_app in Hcs as [Hw1 [Hwc Hw2]%Forall_cons].
  rewrite fmap_app, fmap_cons in Hndd. pose proof (node_at_child _ _ _ _ _ _ _ Hne Hndc Hno Hm) as Hmc.
  destruct (decide (gaddr c = a)) as [Hca|Hca].
  - assert (g_node_destroy a c = None) as -> by (destruct c; rewrite destroy_node; by rewrite decide_True).
    assert (m = c) as ->.
    { rewrite <- Hca, (node_at_spec c c Hndc (subnodes_self c)) in Hmc. congruence. }
    change (option_list None ++ l2) with l2. split; [|split].
    + rewrite !paths_node, !fmap_app, fmap_cons, !concat_app. cbn [concat]. solve_Permutation.
    + constructor; [intros _; apply Hsl; by destruct l1|by apply Forall_app| |by apply Forall_app].
      rewrite fmap_app. apply NoDup_app in Hndd as (? & ? & [_ ?]%NoDup_cons). apply NoDup_app.
      split; [done|]. split; [|done]. set_solver.
    + done.
  - rewrite Forall_forall in IH. destruct (IH c) as (c' & -> & Hp & Hw & Hd); [set_solver|done|done|done|done|].
    change (option_list (Some c') ++ l2) with (c' :: l2). split; [|split].
    + rewrite !paths_node, !fmap_app, !fmap_cons, !concat_app. cbn [concat]. rewrite <- Hp. solve_Permutation.
    + constructor; [intros _; apply Hsl; by destruct l1| | |].
      * apply Forall_app. split; [done|]. constructor; [by rewrite Hd|done].
      * by rewrite fmap_app, fmap_cons, Hd.
      * apply Forall_app. split; [done|]. by constructor.
    + done.
Qed.
End removing.

(** ** Renaming a directory *)

Definition labels (t : gnode) : list (Z * bytes) := (fun n => (gaddr n, gdata n)) <$> subnodes t.

Lemma labels_set p v t :
  labels (set_data_at p v t) = (fun '(a, d) => (a, if decide (a = p) then v else d)) <$> labels t.
Proof.
  unfold labels. induction t as [a d cs IH] using gnode_ind'. cbn [set_data_at].
  rewrite !fmap_concat_subnodes. rewrite fmap_cons. cbn [gaddr gdata]. f_equal.
  induction cs as [|c cs IHcs]; [done|]. apply Forall_cons in IH as [IHc IH].
  rewrite !fmap_cons. cbn [concat]. rewrite fmap_app, <- IHc. f_equal. by apply IHcs.
Qed.

Lemma labels_addrs t : (labels t).*1 = addrs t.
Proof. unfold labels, addrs. rewrite <- list_fmap_compose. done. Qed.

Lemma node_at_labels p t : NoDup (addrs t) -> p ∈ addrs t ->
  exists n, node_at p t = Some n /\ (p, gdata n) ∈ labels t.
Proof.
  intros Hnd Hp. pose proof Hp as (n & -> & Hn)%list_elem_of_fmap. exists n.
  split; [by apply node_at_spec|]. by apply (list_elem_of_fmap_2 (fun n => (gaddr n, gdata n))).
Qed.

(** [rename_nodes] gives every visited node the new prefix. *)
Lemma rename_nodes_run old new ps : forall t,
  NoDup ps -> NoDup (addrs t) -> (forall p, p ∈ ps -> p ∈ addrs t) ->
  (forall p d, p ∈ ps -> (p, d) ∈ labels t ->
     strlen old <= strlen d /\ strlen (new ++ drop (length old) d) < PATH_MAX) ->
  exists t', rename_nodes old new ps t = Ret t' /\
    labels t' = (fun '(a, d) => (a, if decide (a ∈ ps) then new ++ drop (length old) d else d)) <$> labels t.
Proof.
  induction ps as [|p ps IH]; intros t Hps Hnd Hin Hlen.
  - exists t. split; [done|]. symmetry. etrans; [|apply list_fmap_id]. apply list_fmap_ext.
    intros i [a d] _. cbn. by rewrite decide_False by (apply not_elem_of_nil).
  - apply NoDup_cons in Hps as [Hp Hps].
    destruct (node_at_labels p t Hnd) as (n & Hn & Hl); [apply Hin; set_solver|].
    destruct (Hlen p (gdata n)) as [H1 H2]; [set_solver|done|].
    cbn [rename_nodes]. unfold deref. rewrite Hn. cbn [obind]. unfold update_node_path.
    rewrite (proj2 (Z.leb_le _ _)), (proj2 (Z.ltb_lt _ _)) by done. cbn [guard obind].
    set (v := new ++ drop (length old) (gdata n)).
    assert (addrs (set_data_at p v t) = addrs t) as Ha.
    { rewrite <- !labels_addrs, labels_set, <- list_fmap_compose. apply list_fmap_ext. by intros ? [] _. }
    assert (forall q d, (q, d) ∈ labels (set_data_at p v t) -> q <> p -> (q, d) ∈ labels t) as Hother.
    { intros q d Hq Hqp. rewrite labels_set in Hq. apply list_elem_of_fmap in Hq as ([a' d'] & [= -> ->] & Hq).
      by rewrite decide_False by done. }
    destruct (IH (set_data_at p v t)) as (t' & -> & Hlab); [done|by rewrite Ha| | |].
    { intros q Hq. rewrite Ha. apply Hin. set_solver. }
    { intros q d Hq Hqd. apply (Hlen q); [set_solver|]. apply Hother; [done|]. by intros ->. }
    exists t'. split; [done|]. rewrite Hlab, labels_set, <- list_fmap_compose. apply list_fmap_ext.
    intros i [a d] Hi. cbn. f_equal. apply list_elem_of_lookup_2 in Hi. destruct (decide (a = p)) as [->|Hap].
    + rewrite (decide_False (P := p ∈ ps)) by done. rewrite decide_True by set_solver. unfold v. do 2 f_equal.
      assert ((p, gdata n) = (p, d)) as [= ->]; [|done].
      eapply (NoDup_fmap_eq fst); [by rewrite labels_addrs|done..].
    + destruct (decide (a ∈ ps)); [rewrite decide_True by set_solver|rewrite decide_False by set_solver]; done.
Qed.

(** ** What the operations do to the directory *)

Section theorems.
Context `{GLibLaws}.

(** A new entry of a directory of the tree is inserted: the paths of the tree
    are the old ones and its own, and the next listing of the directory has its
    old names, without those the garbage collector keeps, and the new one. *)
Theorem GTree_insert_lists (s : tree_state) (t m : gnode) (p : bytes) (x : Z) (dirty : bytes -> bool)
  (Hok : tree_ok s t) (Hm : m ∈ subnodes t) (Hdir : last_is slash (gdata m) = true)
  (Hent : entry_in (gdata m) p) (Hnew : p ∉ paths t) (Hclear : clear t p) (Hclearm : clear t (gdata m))
  (Hx : x ∉ addrs t) (Hlen : forall q, q ∈ p :: paths t -> strlen q <= URI_)
  (Hfew : Z.of_nat (length (gchildren m)) < 2 ^ 31 - 1) :
  exists s' t', GTree_insert p x s = Ret (0, x, s') /\ tree_ok s' t' /\ paths t' ≡ₚ p :: paths t /\
    let kept := filter (fun d => dirty d = false) ((gdata <$> gchildren m) ++ [p]) in
    let all := Z.of_nat (length (gchildren m)) + 1 in
    exists s'', GTree_getdir (gdata m) (fun d => Ret (if dirty d then 1 else 0)) s' =
      Ret (Some (concat (slot <$> kept) ++ nuls ((all + 1 - Z.of_nat (length kept)) * URI_)),
           Z.of_nat (length kept), s'').
Proof.
  destruct (insert_ok s t m p x Hok Hm Hdir Hent Hnew Hclear Hx) as (t' & lp & Hrun & Hok' & Hpaths & Hin).
  eexists _, t'. split; [exact Hrun|]. split; [done|]. split; [done|]. cbn zeta.
  destruct Hok' as (_ & Hwf' & Hnd' & Hts' & Hlp'). set (m' := GNode _ _ _) in Hin.
  destruct (search_finds t' m' lp Hwf' Hts' Hin) as (lp' & Hfind & _).
  { intros _ n Hn Hns Hpre. assert (gdata n ∈ p :: paths t) as [Hnp|Hold]%elem_of_cons.
    - rewrite <- Hpaths. apply elem_paths. eauto.
    - rewrite Hnp in Hpre. by apply (entry_longer (gdata m) p).
    - apply elem_paths in Hold as (n' & Hn' & Hd). apply (Hclearm Hdir n' Hn'); by rewrite Hd. }
  unfold GTree_getdir, root_of. cbn [tree_root last_parent obind].
  replace (gdata m) with (gdata m') by done. rewrite Hfind. cbn [obind Z.eqb].
  unfold deref. rewrite (node_at_spec t' m' Hnd' Hin). cbn [obind m' gchildren].
  rewrite length_app. cbn [length]. rewrite Nat2Z.inj_add. change (Z.of_nat 1) with 1.
  destruct (Z.eqb_spec (Z.of_nat (length (gchildren m)) + 1) 0); [lia|].
  pose proof (serialize_children_run dirty (gchildren m ++ [GNode x p []]) []
    ((Z.of_nat (length (gchildren m)) + 1 + 1) * URI_) 0) as Hser.
  cbn [app] in Hser. change (strlen []) with 0 in Hser. unfold nuls in Hser at 1. rewrite Hser.
  - cbn [obind]. rewrite fmap_app, length_app. cbn [fmap list_fmap gdata length]. eexists. do 3 f_equal.
    + do 3 f_equal. lia.
    + lia.
  - intros c Hc. apply Hlen. rewrite <- Hpaths. apply elem_paths. exists c. split; [|done].
    clear -Hin Hc. revert Hin. generalize t'. intros t1 Hin.
    assert (forall u, m' ∈ subnodes u -> c ∈ subnodes u) as Htrans; [|auto].
    intros u. induction u as [a d cs IH] using gnode_ind'. rewrite Forall_forall in IH.
    intros [He|(c' & Hc' & Hin')]%elem_subnodes; apply elem_subnodes; right.
    + assert (cs = gchildren m ++ [GNode x p []]) as -> by (by injection He).
      exists c. split; [done|apply subnodes_self].
    + eauto.
  - rewrite length_app. cbn [length]. assert (URI_ = 256) by done. lia.
Qed.

(** [GTree_delete] takes out the entry and everything below it. *)
Theorem GTree_delete_removes (s : tree_state) (t n : gnode)
  (Hok : tree_ok s t) (Hn : n ∈ subnodes t) (Hroot : gdata n <> gdata t) (Hclear : clear t (gdata n)) :
  exists s' t', GTree_delete (gdata n) s = Ret (1, s') /\ tree_root s' = Some t' /\ wf_node t' /\
    paths n ++ paths t' ≡ₚ paths t.
Proof.
  destruct Hok as (Ht & Hwf & Hnd & Hts & Hlp).
  destruct (search_finds t n (last_parent s) Hwf Hts Hn Hclear) as (lp' & Hfind & _).
  unfold GTree_delete, root_of. rewrite Ht. cbn [obind]. rewrite Hfind. cbn [obind Z.eqb Pos.eqb].
  unfold deref. pose proof (node_at_spec t n Hnd Hn) as Hat. rewrite Hat. cbn [obind]. rewrite streq_refl.
  destruct (destroy_ok (gaddr n) t n Hwf Hnd Hat) as (t' & -> & Hp & Hw & _).
  { intros He. apply Hroot. f_equal. eapply (NoDup_fmap_eq gaddr); [exact Hnd|done|apply subnodes_self|done]. }
  eexists _, t'. split; [done|]. done.
Qed.

(** [GTree_search] is exact where no file's path is a prefix of the directory
    asked for. *)
Theorem GTree_search_correct (t : gnode) (p : bytes) (lp : option Z)
  (Hwf : wf_node t) (Hdir : last_is slash (gdata t) = true) (Hbelow : gdata t `prefix_of` p) (Hclear : clear t p) :
  exists r f lp', GTree_search t p lp = Ret (r, f, lp') /\
    (r = 1 /\ (exists n, n ∈ subnodes t /\ gaddr n = f /\ gdata n = p) \/ r = 0 /\ p ∉ paths t).
Proof.
  unfold GTree_search. destruct (streq (gdata t) p) eqn:He.
  - apply streq_true in He. do 3 eexists. split; [done|]. left. split; [done|].
    exists t. split; [apply subnodes_self|done].
  - apply streq_false in He.
    destruct (search_spec t p lp Hwf Hclear Hbelow He Hdir) as (r & f & lp' & -> & (n & Hn & Hf & Hres) & _).
    do 3 eexists. split; [done|]. destruct Hres as [[-> Hp]|(-> & Hp & _)]; [left|by right]. eauto.
Qed.

(** Renaming a directory gives its node and all below the new prefix, and
    leaves the nodes where they are. *)
Theorem GTree_rename_dir_dir_prefix (s : tree_state) (t n : gnode) (old new : bytes)
  (Hok : tree_ok s t) (Hn : n ∈ subnodes t) (Hold : gdata n = old)
  (Hlen : forall q, q ∈ paths n -> strlen new + (strlen q - strlen old) < PATH_MAX) :
  exists t', GTree_rename_dir_dir old new (Some (gaddr n)) s = Ret (0, mkTree (Some t') (last_parent s)) /\
    labels t' = (fun '(a, d) => (a, if decide (a ∈ addrs n) then new ++ drop (length old) d else d)) <$> labels t.
Proof.
  destruct Hok as (Ht & Hwf & Hnd & Hts & Hlp). unfold GTree_rename_dir_dir, root_of. rewrite Ht. cbn [obind].
  unfold deref. rewrite (node_at_spec t n Hnd Hn). cbn [obind].
  assert (forall u, wf_node u -> n ∈ subnodes u -> wf_node n /\ sublist (subnodes n) (subnodes u)) as Hsub.
  { intros u. induction u as [a d cs IH] using gnode_ind'. rewrite Forall_forall in IH.
    intros Hu [->|(c & Hc & Hnc)]%elem_subnodes; [done|].
    destruct (IH c Hc (children_wf _ _ _ c Hu Hc) Hnc) as [Hw Hs]. split; [done|].
    etrans; [exact Hs|]. cbn [subnodes]. apply sublist_cons.
    apply list_elem_of_split in Hc as (l1 & l2 & ->). rewrite fmap_app, fmap_cons, concat_app. cbn [concat].
    apply sublist_inserts_l, sublist_inserts_r. done. }
  destruct (Hsub t Hwf Hn) as [Hwn Hsl]. pose proof (fmap_sublist gaddr _ _ Hsl) as Hsla.
  destruct (rename_nodes_run old new (g_node_traverse n) t) as (t' & -> & Hlab).
  - rewrite traverse_all. by eapply sublist_NoDup.
  - done.
  - intros p. rewrite traverse_all. intros Hp. by eapply elem_of_sublist.
  - intros p d. rewrite traverse_all. intros (m & -> & Hm)%list_elem_of_fmap Hpd.
    assert (d = gdata m) as ->.
    { assert ((gaddr m, gdata m) ∈ labels t) as Hml.
      { apply (list_elem_of_fmap_2 (fun n => (gaddr n, gdata n))). by eapply elem_of_sublist. }
      assert ((gaddr m, d) = (gaddr m, gdata m)) as [= ->]; [|done].
      eapply (NoDup_fmap_eq fst); [by rewrite labels_addrs|done..]. }
    pose proof (below_prefix n m Hwn Hm) as [u Hu]. rewrite Hold in Hu. rewrite Hu, strlen_app.
    split; [pose proof (strlen_nonneg u); lia|]. rewrite drop_app_length, strlen_app.
    assert (gdata m ∈ paths n) as Hmn by (apply elem_paths; eauto).
    specialize (Hlen _ Hmn). rewrite Hu, strlen_app in Hlen. lia.
  - cbn [obind]. exists t'. split; [done|]. rewrite Hlab. apply list_fmap_ext. intros i [a d] _. f_equal.
    destruct (decide (a ∈ addrs n)) as [Hi|Hi]; [rewrite decide_True|rewrite decide_False];
      (done || by rewrite traverse_all).
Qed.
End theorems.

(** ** A small tree *)

Module SmallTree.
(** imss:// with a file foo and a directory a/ that holds f. *)
Definition dir_a : gnode := GNode 2 (B "imss://a/") [GNode 3 (B "imss://a/f") []].
Definition tree : gnode := GNode 0 IMSS_ROOT [GNode 1 (B "imss://foo") []; dir_a].
Definition state : tree_state := mkTree (Some tree) (Some 0).

Lemma entry_file (d p name : bytes) : name <> [] -> forallb (fun c => negb (ascii_eqb c slash)) name = true ->
  p = d ++ name \/ p = d ++ name ++ [slash] -> entry_in d p.
Proof.
  intros Hn Hs Hp. exists name. split; [done|]. split; [|done]. intros Hin%list_elem_of_In.
  rewrite forallb_forall in Hs. specialize (Hs _ Hin). by rewrite ascii_eqb_refl in Hs.
Qed.

Lemma wf_tree : wf_node tree.
Proof.
  repeat first [constructor | apply (bool_decide_unpack _); vm_compute; exact I].
  - by apply (entry_file _ _ (B "foo")); [..|left].
  - by apply (entry_file _ _ (B "a")); [..|right].
  - by apply (entry_file _ _ (B "f")); [..|left].
Qed.

Lemma clear_small p : forallb (fun n => last_is slash (gdata n) || negb (prefixb (gdata n) p)) (subnodes tree) = true ->
  clear tree p.
Proof.
  intros Hall _ n Hn%list_elem_of_In Hs Hp. rewrite forallb_forall in Hall. specialize (Hall _ Hn).
  apply prefixb_spec in Hp. by rewrite Hs, Hp in Hall.
Qed.

Lemma ok_small : tree_ok state tree.
Proof.
  split; [done|]. split; [apply wf_tree|]. split; [apply (bool_decide_unpack _); vm_compute; exact I|].
  split; [done|]. apply list_elem_of_here.
Qed.
End SmallTree.
Import SmallTree.

Lemma GTree_insert_lists_witness :
  exists s' t', GTree_insert (B "imss://a/g") 4 state = Ret (0, 4, s') /\ tree_ok s' t' /\
    paths t' ≡ₚ B "imss://a/g" :: paths tree.
Proof.
  destruct (GTree_insert_lists state tree dir_a (B "imss://a/g") 4 (fun _ => false)) as (s' & t' & H1 & H2 & H3 & _).
  - apply ok_small.
  - apply (list_elem_of_lookup_2 _ 2%nat). reflexivity.
  - reflexivity.
  - by apply (entry_file _ _ (B "g")); [..|left].
  - apply (bool_decide_unpack _). vm_compute. exact I.
  - by apply clear_small.
  - by apply clear_small.
  - apply (bool_decide_unpack _). vm_compute. exact I.
  - intros q Hq%list_elem_of_In. vm_compute in Hq. repeat destruct Hq as [<-|Hq]; done.
  - vm_compute. reflexivity.
  - eauto.
Defined.

Lemma GTree_delete_removes_witness :
  exists s' t', GTree_delete (B "imss://a/") state = Ret (1, s') /\ tree_root s' = Some t' /\ wf_node t' /\
    paths dir_a ++ paths t' ≡ₚ paths tree.
Proof.
  apply (GTree_delete_removes state tree dir_a).
  - apply ok_small.
  - apply (list_elem_of_lookup_2 _ 2%nat). reflexivity.
  - done.
  - by apply clear_small.
Defined.

Lemma GTree_search_correct_witness : exists r f lp', GTree_search tree (B "imss://b/") None = Ret (r, f, lp') /\
    (r = 1 /\ (exists n, n ∈ subnodes tree /\ gaddr n = f /\ gdata n = B "imss://b/") \/
     r = 0 /\ B "imss://b/" ∉ paths tree).
Proof.
  apply (GTree_search_correct tree).
  - apply wf_tree.
  - done.
  - by exists (B "b/").
  - by apply clear_small.
Defined.

Lemma GTree_rename_dir_dir_prefix_witness : exists t',
  GTree_rename_dir_dir (B "imss://a/") (B "imss://dir/") (Some 2) state = Ret (0, mkTree (Some t') (Some 0)) /\
    labels t' = (fun '(a, d) => (a, if decide (a ∈ addrs dir_a) then B "imss://dir/" ++ drop 9 d else d)) <$> labels tree.
Proof.
  apply (GTree_rename_dir_dir_prefix state tree dir_a).
  - apply ok_small.
  - apply (list_elem_of_lookup_2 _ 2%nat). reflexivity.
  - done.
  - intros q Hq%list_elem_of_In. vm_compute in Hq. repeat destruct Hq as [<-|Hq]; done.
Defined.

(** ** Where the tree goes wrong *)

(** A file inserted twice below the root is there twice: the second time its
    directory is the remembered parent, and the search is left out. *)
Theorem insert_twice_duplicates :
  (let* s := inserts [B "imss://f"; B "imss://f"] 1 empty in
   let* (_, n, _) := GTree_getdir IMSS_ROOT clean s in Ret n) = Ret 2.
Proof. vm_compute. reflexivity. Qed.

(** After the removal of the directory that is the remembered parent, the next
    insertion reads freed memory. *)
Theorem delete_leaves_parent_dangling :
  (let* s := inserts [B "imss://a/"; B "imss://a/b/"] 1 empty in
   let* (_, s') := GTree_delete (B "imss://a/") s in
   GTree_insert (B "imss://c") 9 s') = Undef UseAfterFree.
Proof. vm_compute. reflexivity. Qed.

(** A directory is not found behind a file whose name begins its own. *)
Theorem file_hides_directory :
  (let* s := inserts [B "imss://foo"; B "imss://foobar/"] 1 empty in
   let* (_, n, _) := GTree_getdir (B "imss://foobar/") clean s in Ret n) = Ret (-1).
Proof. vm_compute. reflexivity. Qed.

(** A directory renamed to another place keeps its parent, and is not found
    under its new name. *)
Theorem renamed_directory_stays :
  (let* s := inserts [B "imss://a/"; B "imss://b/"; B "imss://a/c/"] 1 empty in
   let* (_, s') := GTree_rename_dir_dir (B "imss://a/c/") (B "imss://b/c/") (Some 3) s in
   let* (_, n, _) := GTree_getdir (B "imss://b/c/") clean s' in Ret n) = Ret (-1).
Proof. vm_compute. reflexivity. Qed.
