(* ===== verification/Transport.v ===== *)
(** * Messages over UCX

    The functions of src/src/comms.c that send and receive over UCX by posting
    an operation and driving the worker until it is over, and the count of
    asynchronous operations ([async_data_worker_progress], src/src/imss.c).

    UCX is the interface [Ucx], with its documented behaviour as the laws
    [UcxLaws]: messages of a tag arrive in the order they were sent, and an
    operation handed out as a request finishes after enough progress, when UCX
    calls its callback.  What the callbacks do is the program's: they set
    [completed] in the structure the program keeps in the memory of the request
    ([struct ucx_context]).  UCX hands a released request out again as it is,
    [request_init] runs once; so the flag must be cleared before.

    The other parts of the development let replies queue up and take the first;
    [receive_takes_first] shows that this is what polling does.

    A loop that drives the worker runs on fuel; [Undef Deadlock] is a run that
    would go on. *)

From S2P Require Import Prelude Types.

Inductive ucs_status := UCS_OK | UCS_INPROGRESS | UCS_ERR (code : Z).

Definition status_ok (s : ucs_status) : bool := match s with UCS_OK => true | _ => false end.

(** A status pointer: null, an error ([UCS_PTR_IS_ERR]), a request. *)
Inductive ucs_ptr := PNull | PErr (code : Z) | PReq (id : Z).

(** [UCS_PTR_STATUS]. *)
Definition ptr_status (p : ucs_ptr) : ucs_status :=
  match p with PErr c => UCS_ERR c | _ => UCS_OK end.

(** The callback an operation is posted with: one that sets [completed]
    ([send_handler_data], [send_handler_req], [recv_handler]), or one of the
    asynchronous operations, which releases the request and counts down
    ([server_send_completion_callback], [server_recv_completion_callback]). *)
Inductive callback := SetCompleted | CountDown.

(** What is called of UCX; [W] is a worker with what is on its way to it.
    [ucp_worker_progress] names the requests posted with [SetCompleted] whose
    callbacks are due and says how many of those of asynchronous operations are.
    [completed] and [set_completed] read and write the flag in the memory of a
    request.  A receive names the room it offers; what it has stored there
    comes with it when it is over at once, and with [request_data] later. *)
Class Ucx (W : Type) := {
  ucp_worker_progress : W -> list Z * nat * W;
  ucp_tag_probe_nb : bool -> Z -> W -> option (Z * Z) * W;
  ucp_tag_recv_nbx : callback -> Z -> Z -> W -> ucs_ptr * bytes * W;
  ucp_tag_msg_recv_nbx : Z -> Z -> W -> ucs_ptr * bytes * W;
  ucp_tag_send_nbx : callback -> Z -> bytes -> Z -> W -> ucs_ptr * W;
  ucp_ep_close_nbx : Z -> Z -> W -> ucs_ptr * W;
  ucp_ep_flush_nbx : Z -> W -> ucs_ptr * W;
  ucp_worker_flush_nb : W -> W;
  ucp_request_check_status : Z -> W -> ucs_status;
  ucp_request_free : Z -> W -> W;
  request_data : Z -> W -> bytes;
  completed : Z -> W -> bool;
  set_completed : bool -> Z -> W -> W
}.

Section comms.
Context {W : Type} `{Ucx W}.

(** The callbacks [recv_handler], [send_handler_req] and [send_handler_data]. *)
Definition recv_handler (request : Z) (w : W) : W := set_completed true request w.

(** [request->completed = 0]. *)
Definition clear_completed (request : Z) (w : W) : W := set_completed false request w.

(** What a turn of the worker gives: the requests whose callbacks are due, the
    number of those of asynchronous operations, the worker. *)
Definition due_handlers (w : W) : list Z := (ucp_worker_progress w).1.1.
Definition due_countdowns (w : W) : nat := (ucp_worker_progress w).1.2.
Definition after_turn (w : W) : W := (ucp_worker_progress w).2.

(** A turn with the callbacks that set the flags. *)
Definition progress (w : W) : W := foldr recv_handler (after_turn w) (due_handlers w).

(** [while (!request->completed) ucp_worker_progress(ucp_worker);] *)
Fixpoint wait_completed (fuel : nat) (id : Z) (w : W) : outcome W :=
  if completed id w then Ret w
  else match fuel with
       | O => Undef Deadlock
       | S fuel' => wait_completed fuel' id (progress w)
       end.

(** [ucx_wait]: the status, what the request has stored and the worker. *)
Definition ucx_wait (fuel : nat) (request : ucs_ptr) (w : W) : outcome (ucs_status * bytes * W) :=
  match request with
  | PErr c => Ret (UCS_ERR c, [], w)
  | PNull => Ret (UCS_OK, [], w)
  | PReq id =>
      let* w1 := wait_completed fuel id w in
      let w2 := clear_completed id w1 in
      Ret (ucp_request_check_status id w2, request_data id w2, ucp_request_free id w2)
  end.

(** [send_data]: the status of the wait is not looked at. *)
Definition send_data (fuel : nat) (ep : Z) (msg : bytes) (from : Z) (w : W) : outcome (Z * W) :=
  let '(request, w1) := ucp_tag_send_nbx SetCompleted ep msg from w in
  let* (_, _, w2) := ucx_wait fuel request w1 in
  Ret (match request with PErr _ => 0 | _ => strlen msg end, w2).

(** [isend_data]: posted and left to itself. *)
Definition isend_data (ep : Z) (msg : bytes) (from : Z) (w : W) : Z * W :=
  let '(request, w1) := ucp_tag_send_nbx SetCompleted ep msg from w in
  (match request with PErr _ => 0 | _ => strlen msg end, w1).

(** [isend_data2]: the request, and whether the structure that tracks it has
    been released. *)
Definition isend_data2 (ep : Z) (msg : bytes) (from : Z) (w : W) : ucs_ptr * bool * W :=
  let '(request, w1) := ucp_tag_send_nbx CountDown ep msg from w in
  (request, match request with PReq _ => false | _ => true end, w1).

(** [irecv_data]. *)
Definition irecv_data (buffer_len tag : Z) (w : W) : ucs_ptr * bytes * W :=
  ucp_tag_recv_nbx CountDown buffer_len tag w.

(** [get_recv_data_length], [get_recv_data_length_2]: drive the worker until a
    message of the tag is there; the second takes it out and returns its
    handle. *)
Fixpoint get_recv_data_length (fuel : nat) (dest : Z) (w : W) : outcome (Z * W) :=
  match fuel with
  | O => Undef Deadlock
  | S fuel' =>
      let '(msg_tag, w1) := ucp_tag_probe_nb false dest (progress w) in
      match msg_tag with
      | None => get_recv_data_length fuel' dest w1
      | Some (_, length) => Ret (length, w1)
      end
  end.

Fixpoint get_recv_data_length_2 (fuel : nat) (dest : Z) (w : W) : outcome (Z * Z * W) :=
  match fuel with
  | O => Undef Deadlock
  | S fuel' =>
      let '(msg_tag, w1) := ucp_tag_probe_nb true dest (progress w) in
      match msg_tag with
      | None => get_recv_data_length_2 fuel' dest w1
      | Some (handle, length) => Ret (length, handle, w1)
      end
  end.

(** What an operation leaves in the buffer it was given: the room it was told
    of can be more than the buffer has. *)
Definition store (request : ucs_ptr) (now later buf : bytes) : outcome bytes :=
  match request with
  | PErr _ => Ret buf
  | PNull => write_at buf 0 now
  | PReq _ => write_at buf 0 later
  end.

(** [recv_data] into [buf]. *)
Definition recv_data (fuel : nat) (buf : bytes) (msg_length dest : Z) (w : W) : outcome (Z * bytes * W) :=
  let '(request, now, w1) := ucp_tag_recv_nbx SetCompleted msg_length dest w in
  let* (status, later, w2) := ucx_wait fuel request w1 in
  let* buf' := store request now later buf in
  Ret (if status_ok status then msg_length else 0, buf', w2).

(** [recv_data_2]: the message that [get_recv_data_length_2] has taken. *)
Definition recv_data_2 (fuel : nat) (buf : bytes) (msg_length info_length msg_tag : Z) (w : W)
  : outcome (Z * bytes * W) :=
  let '(request, now, w1) := ucp_tag_msg_recv_nbx info_length msg_tag w in
  let* (status, later, w2) := ucx_wait fuel request w1 in
  let* buf' := store request now later buf in
  Ret (if status_ok status then msg_length else 0, buf', w2).

(** [start_recv_data_async]. *)
Definition start_recv_data_async (msg_length dest : Z) (w : W) : ucs_ptr * bytes * W :=
  let '(request, now, w1) := ucp_tag_recv_nbx SetCompleted msg_length dest w in
  (match request with PErr _ => PNull | _ => request end, now, w1).

(** [recv_data_opt]: [msg] is the buffer, [None] to have it allocated ([fresh]
    gives the bytes, [None] when there is no memory); it is released on an
    error. *)
Definition recv_data_opt (fuel : nat) (fresh : Z -> option bytes) (msg : option bytes) (dest : Z) (w : W)
  : outcome (Z * option bytes * W) :=
  let* (msg_length, w1) := get_recv_data_length fuel dest w in
  if msg_length <=? 0 then Ret (0, msg, w1)
  else
    let* buf := match msg with
                | Some b => Ret b
                | None => match fresh msg_length with Some b => Ret b | None => Undef NullDeref end
                end in
    let* (n, buf', w2) := recv_data fuel buf msg_length dest w1 in
    if n =? 0 then Ret (0, None, w2) else Ret (n, Some buf', w2).

(** [while ((status = ucp_request_check_status(request)) == UCS_INPROGRESS)]
    after a first turn, in [ep_close] and [flush_ep]. *)
Fixpoint drive (fuel : nat) (id : Z) (w : W) : outcome (ucs_status * W) :=
  match fuel with
  | O => Undef Deadlock
  | S fuel' =>
      let w1 := progress w in
      match ucp_request_check_status id w1 with
      | UCS_INPROGRESS => drive fuel' id w1
      | status => Ret (status, w1)
      end
  end.

(** [request_wait] waits for a field that only [send_cb] sets;
    [ctx_complete] reads it. *)
Fixpoint wait_ctx (fuel : nat) (ctx_complete : W -> bool) (w : W) : outcome W :=
  if ctx_complete w then Ret w
  else match fuel with
       | O => Undef Deadlock
       | S fuel' => wait_ctx fuel' ctx_complete (progress w)
       end.

Definition request_wait (fuel : nat) (request : ucs_ptr) (ctx_complete : W -> bool) (w : W)
  : outcome (ucs_status * W) :=
  match request with
  | PNull => Ret (UCS_OK, w)
  | PErr c => Ret (UCS_ERR c, w)
  | PReq id =>
      let* w1 := wait_ctx fuel ctx_complete w in
      Ret (ucp_request_check_status id w1, ucp_request_free id w1)
  end.

Definition request_finalize (fuel : nat) (request : ucs_ptr) (ctx_complete : W -> bool) (w : W)
  : outcome (Z * W) :=
  let* (status, w1) := request_wait fuel request ctx_complete w in
  Ret (if status_ok status then 0 else -1, w1).

(** [ep_close], [close_ucx_endpoint] and [ep_close_err_mode]; the outcome of the
    close is only written to the log. *)
Definition ep_close (fuel : nat) (ep flags : Z) (w : W) : outcome W :=
  let '(close_req, w1) := ucp_ep_close_nbx ep flags w in
  match close_req with
  | PReq id => let* (_, w2) := drive fuel id w1 in Ret (ucp_request_free id w2)
  | _ => Ret w1
  end.

Definition UCP_EP_CLOSE_MODE_FLUSH : Z := 1.

Definition close_ucx_endpoint (fuel : nat) (ep : Z) (w : W) : outcome W :=
  let* w1 := ep_close fuel ep UCP_EP_CLOSE_MODE_FLUSH w in Ret (progress w1).

Definition ep_close_err_mode (fuel : nat) (ep : Z) (w : W) : outcome W := ep_close fuel ep 0 w.

(** [flush_ep]. *)
Definition flush_ep (fuel : nat) (ep : Z) (w : W) : outcome (ucs_status * W) :=
  let '(request, w1) := ucp_ep_flush_nbx ep w in
  match request with
  | PNull => Ret (UCS_OK, w1)
  | PErr c => Ret (UCS_ERR c, w1)
  | PReq id => let* (status, w2) := drive fuel id w1 in Ret (status, ucp_request_free id w2)
  end.

(** [worker_flush] posts a flush and does not wait for it. *)
Definition worker_flush (w : W) : ucs_status * W := (UCS_OK, ucp_worker_flush_nb w).

(** ** Asynchronous operations *)

(** [outstanding_sends], an unsigned counter, with the worker. *)
Record async_state := mkAsync { outstanding_sends : Z; ucp_worker_data : W }.

(** What the callbacks do to the counter, whatever the status; the callback of
    a receive differs in what it releases. *)
Definition server_send_completion_callback (outstanding : Z) : Z := u64 (outstanding - 1).

(** A turn of the worker, with the callbacks it runs. *)
Definition progress_async (a : async_state) : async_state :=
  let w := ucp_worker_data a in
  mkAsync (Nat.iter (due_countdowns w) server_send_completion_callback (outstanding_sends a)) (progress w).

(** [async_data_worker_progress]; the limit is converted to the type of the
    counter. *)
Fixpoint async_data_worker_progress (fuel : nat) (umbral : Z) (a : async_state) : outcome async_state :=
  if outstanding_sends a <=? u64 umbral then Ret a
  else match fuel with
       | O => Undef Deadlock
       | S fuel' => async_data_worker_progress fuel' umbral (progress_async a)
       end.

(** The asynchronous branch of [set_data]: the bytes taken as sent. *)
Definition set_data_async_send (fuel : nat) (ep : Z) (buffer : bytes) (uid curr_imss_storages : Z)
  (a : async_state) : outcome (Z * async_state) :=
  let* a1 := async_data_worker_progress fuel curr_imss_storages a in
  let '(request, _, w) := isend_data2 ep buffer uid (ucp_worker_data a1) in
  Ret match request with
      | PReq _ => (strlen buffer, mkAsync (u64 (outstanding_sends a1 + 1)) w)
      | PErr _ => (0, mkAsync (outstanding_sends a1) w)
      | PNull => (strlen buffer, mkAsync (outstanding_sends a1) w)
      end.

(** The asynchronous branch of [get_ndata]: what is in the buffer when it
    returns. *)
Definition get_ndata_async_recv (fuel : nat) (buf : bytes) (msg_length uid curr_imss_storages : Z)
  (a : async_state) : outcome (Z * bytes * async_state) :=
  let* a1 := async_data_worker_progress fuel curr_imss_storages a in
  let '(request, now, w) := irecv_data msg_length uid (ucp_worker_data a1) in
  match request with
  | PReq _ => Ret (msg_length, buf, mkAsync (u64 (outstanding_sends a1 + 1)) w)
  | PErr _ => Ret (0, buf, mkAsync (outstanding_sends a1) w)
  | PNull => let* buf' := write_at buf 0 now in Ret (msg_length, buf', mkAsync (outstanding_sends a1) w)
  end.

(** The end of the prefetching read of the handler: the tracking structure is
    released by [isend_data2] when the send fails, and once more by the
    handler. *)
Definition send_prefetched (ep : Z) (prefetch_buffer : bytes) (uid : Z) (w : W) : outcome W :=
  let '(request, released, w1) := isend_data2 ep prefetch_buffer uid w in
  match request with
  | PErr _ => let* _ := guard (negb released) UseAfterFree in Ret w1
  | _ => Ret w1
  end.
End comms.

(** ** What UCX promises *)

(** The requests posted with [SetCompleted] are in use until they are released;
    [request_of] is what a request in use will have stored and its status, and
    [todo] bounds the turns it still needs.  [inbox] and [flight] are the messages
    of a tag that have arrived and that will, and [lag] bounds the turns until
    the next one is there; [pending] and [pending_lag] are the same for
    asynchronous operations. *)
Class UcxLaws (W : Type) `{Ucx W} := {
  inbox : W -> Z -> list bytes;
  flight : W -> Z -> list bytes;
  lag : W -> Z -> nat;
  request_of : Z -> W -> option (bytes * ucs_status);
  todo : Z -> W -> nat;
  pending : W -> nat;
  pending_lag : W -> nat;
  turn_messages : forall w t, inbox (after_turn w) t ++ flight (after_turn w) t = inbox w t ++ flight w t;
  turn_keeps : forall w t, inbox w t <> [] -> inbox (after_turn w) t <> [];
  turn_arrives : forall w t, inbox w t = [] -> flight w t <> [] ->
    inbox (after_turn w) t <> [] \/ (lag (after_turn w) t < lag w t)%nat;
  turn_request : forall w id, request_of id (after_turn w) = request_of id w;
  turn_todo : forall w id, (todo id (after_turn w) <= pred (todo id w))%nat;
  (** A callback is called in the turn in which its request is over; UCX itself
      does not touch the flag. *)
  turn_handlers : forall w id, id ∈ due_handlers w <->
    request_of id w <> None /\ todo id w <> O /\ todo id (after_turn w) = O;
  turn_flag : forall w id, completed id (after_turn w) = completed id w;
  turn_pending : forall w, pending w = (due_countdowns w + pending (after_turn w))%nat;
  turn_counts : forall w, pending w <> O -> due_countdowns w <> O \/
    (pending_lag (after_turn w) < pending_lag w)%nat;
  probe_messages : forall w t, exists h, ucp_tag_probe_nb false t w =
    (match inbox w t with [] => None | m :: _ => Some (h, strlen m) end, w);
  status_done : forall w id d st, request_of id w = Some (d, st) -> todo id w = O ->
    ucp_request_check_status id w = st /\ request_data id w = d;
  free_messages : forall w id t, inbox (ucp_request_free id w) t = inbox w t /\ flight (ucp_request_free id w) t = flight w t;
  free_requests : forall w id id', request_of id' (ucp_request_free id w) = (if decide (id' = id) then None else request_of id' w) /\
    (id' <> id -> todo id' (ucp_request_free id w) = todo id' w) /\
    completed id' (ucp_request_free id w) = completed id' w;
  (** The flag is memory of the program: a write changes what is read from it
      and nothing else. *)
  set_messages : forall b w id t, inbox (set_completed b id w) t = inbox w t /\
    flight (set_completed b id w) t = flight w t /\ lag (set_completed b id w) t = lag w t;
  set_requests : forall b w id id', request_of id' (set_completed b id w) = request_of id' w /\
    todo id' (set_completed b id w) = todo id' w /\
    completed id' (set_completed b id w) = (if decide (id' = id) then b else completed id' w);
  set_pending : forall b w id, pending (set_completed b id w) = pending w /\
    pending_lag (set_completed b id w) = pending_lag w;
  (** A request is handed out unfinished, with the flag it was released with. *)
  send_posts : forall w ep msg t p w', ucp_tag_send_nbx SetCompleted ep msg t w = (p, w') ->
    (forall t', inbox w' t' = inbox w t' /\ flight w' t' = flight w t') /\
    (forall id', completed id' w' = completed id' w) /\
    match p with
    | PReq id => request_of id w = None /\ (exists st, request_of id w' = Some ([], st)) /\ todo id w' <> O /\
        (forall id', id' <> id -> request_of id' w' = request_of id' w /\ todo id' w' = todo id' w)
    | _ => forall id', request_of id' w' = request_of id' w /\ todo id' w' = todo id' w
    end;
  recv_posts : forall w room t m ms, inbox w t = m :: ms -> strlen m <= room ->
    exists p d w', ucp_tag_recv_nbx SetCompleted room t w = (p, d, w') /\
      inbox w' t = ms /\ flight w' t = flight w t /\
      (forall t', t' <> t -> inbox w' t' = inbox w t' /\ flight w' t' = flight w t') /\
      (forall id', completed id' w' = completed id' w) /\
      match p with
      | PErr _ => False
      | PNull => d = m /\ forall id', request_of id' w' = request_of id' w /\ todo id' w' = todo id' w
      | PReq id => request_of id w = None /\ request_of id w' = Some (m, UCS_OK) /\ todo id w' <> O /\
          (forall id', id' <> id -> request_of id' w' = request_of id' w /\ todo id' w' = todo id' w)
      end;
  async_send_posts : forall w ep msg t p w', ucp_tag_send_nbx CountDown ep msg t w = (p, w') ->
    pending w' = match p with PReq _ => S (pending w) | _ => pending w end
}.

Section receiving.
Context {W : Type} `{UcxLaws W}.

(** The callbacks of a turn touch the flags only. *)
Lemma handlers_messages w ids t : let w' := foldr recv_handler w ids in
  inbox w' t = inbox w t /\ flight w' t = flight w t /\ lag w' t = lag w t.
Proof.
  induction ids as [|id ids IH]; [done|]. cbn. unfold recv_handler at 1 3 5.
  destruct (set_messages true (foldr recv_handler w ids) id t) as (-> & -> & ->). exact IH.
Qed.

Lemma handlers_requests w ids id : let w' := foldr recv_handler w ids in
  request_of id w' = request_of id w /\ todo id w' = todo id w /\
  (completed id w' = true <-> completed id w = true \/ id ∈ ids).
Proof.
  induction ids as [|i ids IH]; cbn.
  - split; [done|]. split; [done|]. split; [by left|]. intros [?|?%elem_of_nil]; done.
  - cbn zeta in IH. unfold recv_handler at 1 3 5.
    destruct (set_requests true (foldr recv_handler w ids) i id) as (-> & -> & ->).
    destruct IH as (IH1 & IH2 & IH3). split; [done|]. split; [done|]. rewrite elem_of_cons.
    case_decide as Hid; [split; [intros _; by right; left|done]|]. rewrite IH3. naive_solver.
Qed.

Lemma handlers_pending w ids : let w' := foldr recv_handler w ids in
  pending w' = pending w /\ pending_lag w' = pending_lag w.
Proof.
  induction ids as [|id ids IH]; [done|]. cbn. unfold recv_handler at 1 3.
  destruct (set_pending true (foldr recv_handler w ids) id) as [-> ->]. exact IH.
Qed.

(** A turn with its callbacks. *)
Lemma progress_messages w t : inbox (progress w) t ++ flight (progress w) t = inbox w t ++ flight w t.
Proof.
  unfold progress. destruct (handlers_messages (after_turn w) (due_handlers w) t) as (-> & -> & _). apply turn_messages.
Qed.

Lemma progress_keeps w t : inbox w t <> [] -> inbox (progress w) t <> [].
Proof.
  unfold progress. destruct (handlers_messages (after_turn w) (due_handlers w) t) as (-> & _ & _). apply turn_keeps.
Qed.

Lemma progress_arrives w t : inbox w t = [] -> flight w t <> [] ->
  inbox (progress w) t <> [] \/ (lag (progress w) t < lag w t)%nat.
Proof.
  unfold progress. destruct (handlers_messages (after_turn w) (due_handlers w) t) as (-> & _ & ->). apply turn_arrives.
Qed.

Lemma progress_request w id : request_of id (progress w) = request_of id w.
Proof.
  unfold progress. destruct (handlers_requests (after_turn w) (due_handlers w) id) as (-> & _ & _). apply turn_request.
Qed.

Lemma progress_todo w id : (todo id (progress w) <= pred (todo id w))%nat.
Proof.
  unfold progress. destruct (handlers_requests (after_turn w) (due_handlers w) id) as (_ & -> & _). apply turn_todo.
Qed.

(** The flag goes up in the turn in which the request is over. *)
Lemma progress_completed w id : completed id (progress w) = true <->
  completed id w = true \/ (request_of id w <> None /\ todo id w <> O /\ todo id (progress w) = O).
Proof.
  unfold progress. destruct (handlers_requests (after_turn w) (due_handlers w) id) as (_ & -> & ->).
  by rewrite turn_flag, turn_handlers.
Qed.

Lemma progress_pending w : pending w = (due_countdowns w + pending (progress w))%nat.
Proof.
  unfold progress. destruct (handlers_pending (after_turn w) (due_handlers w)) as [-> _]. apply turn_pending.
Qed.

Lemma progress_counts w : pending w <> O -> due_countdowns w <> O \/ (pending_lag (progress w) < pending_lag w)%nat.
Proof.
  unfold progress. destruct (handlers_pending (after_turn w) (due_handlers w)) as [_ ->]. apply turn_counts.
Qed.

Lemma clear_messages w id t : inbox (clear_completed id w) t = inbox w t /\ flight (clear_completed id w) t = flight w t.
Proof. destruct (set_messages false w id t) as (? & ? & _). done. Qed.

Lemma clear_requests w id id' : request_of id' (clear_completed id w) = request_of id' w /\
  todo id' (clear_completed id w) = todo id' w /\
  completed id' (clear_completed id w) = (if decide (id' = id) then false else completed id' w).
Proof. apply set_requests. Qed.

(** All messages of a tag, those still under way last. *)
Definition messages (w : W) (t : Z) : list bytes := inbox w t ++ flight w t.

(** The flags say which of the requests in use are over; those of released
    requests are down. *)
Definition flags_ok (w : W) : Prop :=
  forall id, completed id w = true <-> request_of id w <> None /\ todo id w = O.

Lemma flags_progress w : flags_ok w -> flags_ok (progress w).
Proof.
  intros Hw id. rewrite progress_completed, progress_request, (Hw id). pose proof (progress_todo w id).
  destruct (decide (todo id w = O)) as [Hz|Hz]; [rewrite Hz in *; cbn in *|].
  - split; [intros [[? _]|(? & ? & _)]; [split; [done|lia]|done]|intros [? _]; by left].
  - split; [intros [[_ ?]|(? & _ & ?)]; done|intros [? ?]; by right].
Qed.

Lemma wait_completed_run id o : forall n w, flags_ok w -> request_of id w = Some o -> (todo id w <= n)%nat ->
  exists w', (forall f, (n <= f)%nat -> wait_completed f id w = Ret w') /\ flags_ok w' /\
    request_of id w' = Some o /\ todo id w' = O /\ forall t, messages w' t = messages w t.
Proof.
  induction n as [|n IH]; intros w Hw Ho Hn.
  - exists w. assert (completed id w = true) as Hc by (apply Hw; split; [congruence|lia]).
    split; [by intros [|f] _; simpl; rewrite Hc|]. split; [done|]. split; [done|]. split; [lia|done].
  - destruct (completed id w) eqn:Hc.
    + exists w. split; [by intros [|f] _; simpl; rewrite Hc|]. apply Hw in Hc as [_ Hc]. done.
    + destruct (IH (progress w)) as (w' & Hrun & Hw' & Ho' & Ht & Hm).
      * by apply flags_progress.
      * by rewrite progress_request.
      * pose proof (progress_todo w id). lia.
      * exists w'. split; [|split; [done|split; [done|split; [done|]]]].
        -- intros [|f] Hf; [lia|]. simpl. rewrite Hc. apply Hrun. lia.
        -- intros t. rewrite Hm. apply progress_messages.
Qed.

(** Waiting for a request releases it with its flag down. *)
Lemma ucx_wait_run id d st w : flags_ok w -> request_of id w = Some (d, st) ->
  exists w' n, (forall f, (n <= f)%nat -> ucx_wait f (PReq id) w = Ret (st, d, w')) /\ flags_ok w' /\
    forall t, messages w' t = messages w t.
Proof.
  intros Hw Ho. destruct (wait_completed_run id (d, st) (todo id w) w Hw Ho) as (w1 & Hrun & Hw1 & Ho1 & Ht1 & Hm1); [lia|].
  exists (ucp_request_free id (clear_completed id w1)), (todo id w). split; [|split].
  - intros f Hf. unfold ucx_wait. rewrite Hrun by done. cbn [obind].
    destruct (clear_requests w1 id id) as (Hr & Ht & _).
    destruct (status_done (clear_completed id w1) id d st) as [-> ->]; [congruence|congruence|done].
  - intros id'. destruct (free_requests (clear_completed id w1) id id') as (Hr & Ht & Hc).
    destruct (clear_requests w1 id id') as (Hr' & Ht' & Hc'). rewrite Hc, Hr, Hc'.
    case_decide as Hid; [split; [done|intros [? _]; done]|]. rewrite Hr', Ht, Ht' by done. apply Hw1.
  - intros t. rewrite <- Hm1. unfold messages.
    destruct (free_messages (clear_completed id w1) id t) as [-> ->]. by destruct (clear_messages w1 id t) as [-> ->].
Qed.

(** The probe finds the first message. *)
Lemma get_recv_data_length_run t m ms : forall n w, flags_ok w -> messages w t = m :: ms -> (lag w t <= n)%nat ->
  exists w', (forall f, (S n <= f)%nat -> get_recv_data_length f t w = Ret (strlen m, w')) /\ flags_ok w' /\
    (exists ms', inbox w' t = m :: ms') /\ forall t', messages w' t' = messages w t'.
Proof.
  assert (forall w, flags_ok w -> messages w t = m :: ms -> inbox (progress w) t <> [] ->
    exists w', (forall f, (1 <= f)%nat -> get_recv_data_length f t w = Ret (strlen m, w')) /\ flags_ok w' /\
    (exists ms', inbox w' t = m :: ms') /\ forall t', messages w' t' = messages w t') as Hnow.
  { intros w Hw Hm Hin. exists (progress w).
    assert (exists ms', inbox (progress w) t = m :: ms') as [ms' Hms'].
    { pose proof (progress_messages w t) as Hp. unfold messages in Hm. rewrite Hm in Hp.
      destruct (inbox (progress w) t) as [|m' ms']; [done|]. injection Hp as -> _. eauto. }
    split; [|split; [by apply flags_progress|split; [eauto|intros; apply progress_messages]]].
    intros [|f] Hf; [lia|]. simpl. destruct (probe_messages (progress w) t) as [h ->]. by rewrite Hms'. }
  induction n as [|n IH]; intros w Hw Hm Hlag.
  - apply Hnow; [done..|]. destruct (inbox w t) eqn:Hin; [|apply progress_keeps; by rewrite Hin].
    destruct (progress_arrives w t Hin) as [?|?]; [|done|lia].
    unfold messages in Hm. rewrite Hin in Hm. cbn in Hm. by rewrite Hm.
  - destruct (decide (inbox (progress w) t = [])) as [Hin|Hin].
    + destruct (inbox w t) eqn:Hin0; [|exfalso; apply (progress_keeps w t); [by rewrite Hin0|done]].
      destruct (progress_arrives w t Hin0) as [?|Hl]; [|done|].
      { unfold messages in Hm. rewrite Hin0 in Hm. cbn in Hm. by rewrite Hm. }
      destruct (IH (progress w)) as (w' & Hrun & Hw' & Hin' & Hm').
      * by apply flags_progress.
      * unfold messages. rewrite progress_messages. exact Hm.
      * lia.
      * exists w'. split; [|split; [done|split; [done|]]].
        -- intros [|f] Hf; [lia|]. simpl. destruct (probe_messages (progress w) t) as [h ->]. rewrite Hin. apply Hrun. lia.
        -- intros t'. rewrite Hm'. apply progress_messages.
    + destruct (Hnow w Hw Hm Hin) as (w' & Hrun & Hrest). exists w'. split; [|done]. intros f Hf. apply Hrun. lia.
Qed.

Lemma write_whole (m buf : bytes) : strlen m <= strlen buf -> write_at buf 0 m = Ret (m ++ drop (length m) buf).
Proof.
  intros Hl. unfold write_at. rewrite (proj2 (Z.leb_le _ _)) by lia. simpl. by rewrite (proj2 (Z.leb_le _ _)) by lia.
Qed.

(** Receiving the message that has arrived, whatever the room of the buffer. *)
Lemma recv_data_run t m ms w : flags_ok w -> inbox w t = m :: ms ->
  exists w' n, (forall f buf, (n <= f)%nat -> recv_data f buf (strlen m) t w =
      let* buf' := write_at buf 0 m in Ret (strlen m, buf', w')) /\ flags_ok w' /\
    messages w' t = ms ++ flight w t /\ forall t', t' <> t -> messages w' t' = messages w t'.
Proof.
  intros Hw Hin. destruct (recv_posts w (strlen m) t m ms Hin) as (p & d & w1 & Hrecv & Hi & Hf & Ho & Hc & Hp); [lia|].
  unfold recv_data. rewrite Hrecv.
  assert (messages w1 t = ms ++ flight w t) as Hmt by (unfold messages; congruence).
  assert (forall t', t' <> t -> messages w1 t' = messages w t') as Hmo.
  { intros t' Ht'. unfold messages. by destruct (Ho t' Ht') as [-> ->]. }
  destruct p as [| |id]; [|done|].
  - destruct Hp as [-> Hreq]. exists w1, O. split; [done|]. split; [|done].
    intros id. rewrite Hc. destruct (Hreq id) as [-> ->]. apply Hw.
  - destruct Hp as (Hnone & Hsome & Htodo & Hreq).
    destruct (ucx_wait_run id m UCS_OK w1) as (w2 & n & Hrun & Hw2 & Hm2); [|done|].
    { intros id'. rewrite Hc. destruct (decide (id' = id)) as [->|Hid].
      - rewrite (Hw id), Hnone, Hsome. split; [by intros [? _]|by intros [_ ?]].
      - destruct (Hreq id' Hid) as [-> ->]. apply Hw. }
    exists w2, n. split; [|split; [done|split; [by rewrite Hm2|intros t' Ht'; rewrite Hm2; auto]]].
    intros f buf Hf'. rewrite Hrun by done. done.
Qed.
End receiving.

(** A message behind the tag is waited for and taken, as every function of the
    client library does. *)
Definition recv_message {W} `{Ucx W} (fuel : nat) (buf : bytes) (dest : Z) (w : W) : outcome (Z * bytes * W) :=
  let* (msg_length, w1) := get_recv_data_length fuel dest w in
  recv_data fuel buf msg_length dest w1.

Fixpoint receive_all {W} `{Ucx W} (fuel : nat) (dest : Z) (bufs : list bytes) (w : W) : outcome (list bytes * W) :=
  match bufs with
  | [] => Ret ([], w)
  | buf :: bufs' =>
      let* (_, buf', w1) := recv_message fuel buf dest w in
      let* (out, w2) := receive_all fuel dest bufs' w1 in
      Ret (buf' :: out, w2)
  end.

(** A buffer that a message was written to. *)
Definition filled (m buf : bytes) : bytes := m ++ drop (length m) buf.

Section theorems.
Context {W : Type} `{UcxLaws W}.

Lemma receive_run t m ms w : flags_ok w -> messages w t = m :: ms ->
  exists w' n, (forall f buf, (n <= f)%nat -> recv_message f buf t w =
      let* buf' := write_at buf 0 m in Ret (strlen m, buf', w')) /\ flags_ok w' /\
    messages w' t = ms /\ forall t', t' <> t -> messages w' t' = messages w t'.
Proof.
  intros Hw Hm.
  destruct (get_recv_data_length_run t m ms (lag w t) w Hw Hm) as (w1 & Hrun1 & Hw1 & [ms' Hin] & Hm1); [lia|].
  destruct (recv_data_run t m ms' w1 Hw1 Hin) as (w2 & n & Hrun2 & Hw2 & Hmt & Hmo).
  exists w2, (Nat.max n (S (lag w t))). split; [|split; [done|split]].
  - intros f buf Hf. unfold recv_message. rewrite Hrun1 by lia. cbn [obind]. apply Hrun2. lia.
  - specialize (Hm1 t). rewrite Hm in Hm1. unfold messages in Hm1. rewrite Hin in Hm1. cbn [app] in Hm1.
    rewrite Hmt. congruence.
  - intros t' Ht'. rewrite Hmo by done. apply Hm1.
Qed.

(** C19. Polling is a queue: receives with one tag into buffers with enough room get
    the messages of the tag one by one in the order in which they were sent, also
    those that are still under way, and leave the rest and the other tags. *)
Theorem receives_in_order (w : W) (t : Z) (ms rest bufs : list bytes)
  (Hflags : flags_ok w) (Hms : messages w t = ms ++ rest)
  (Hroom : Forall2 (fun m b => strlen m <= strlen b) ms bufs) :
  exists w' n, (forall f, (n <= f)%nat -> receive_all f t bufs w = Ret (zip_with filled ms bufs, w')) /\
    messages w' t = rest /\ (forall t', t' <> t -> messages w' t' = messages w t') /\ flags_ok w'.
Proof.
  revert w Hflags Hms. induction Hroom as [|m b ms bufs Hlen _ IH]; intros w Hw Hms.
  - exists w, O. done.
  - cbn [app] in Hms. destruct (receive_run t m _ w Hw Hms) as (w1 & n1 & Hrun1 & Hw1 & Hm1 & Ho1).
    destruct (IH w1 Hw1 Hm1) as (w2 & n2 & Hrun2 & Hm2 & Ho2 & Hw2).
    exists w2, (Nat.max n1 n2). split; [|split; [done|split; [|done]]].
    + intros f Hf. cbn [receive_all]. rewrite Hrun1 by lia. rewrite write_whole by done. cbn [obind].
      rewrite Hrun2 by lia. done.
    + intros t' Ht'. rewrite Ho2 by done. by apply Ho1.
Qed.

(** The receive is told the length of the message, not the room of the buffer:
    a message that is longer than the buffer is written behind its end. *)
Theorem long_message_overflows (w : W) (t : Z) (m buf : bytes) (ms : list bytes)
  (Hflags : flags_ok w) (Hm : messages w t = m :: ms) (Hshort : strlen buf < strlen m) :
  exists n, forall f, (n <= f)%nat -> recv_message f buf t w = Undef OutOfBounds.
Proof.
  destruct (receive_run t m ms w Hflags Hm) as (w1 & n & Hrun & _). exists n. intros f Hf. rewrite Hrun by done.
  unfold write_at. rewrite (proj2 (Z.leb_gt (0 + strlen m) _)) by lia. by rewrite andb_false_r.
Qed.

(** [send_data] returns the length of a message whose sending fails after it was
    posted. *)
Theorem send_data_hides_failure (w w1 : W) (ep t id c : Z) (msg : bytes)
  (Hflags : flags_ok w) (Hpost : ucp_tag_send_nbx SetCompleted ep msg t w = (PReq id, w1))
  (Hfails : request_of id w1 = Some ([], UCS_ERR c)) :
  exists w' n, forall f, (n <= f)%nat -> send_data f ep msg t w = Ret (strlen msg, w').
Proof.
  destruct (send_posts w ep msg t (PReq id) w1 Hpost) as (_ & Hc & Hnone & _ & Htodo & Hreq).
  destruct (ucx_wait_run id [] (UCS_ERR c) w1) as (w2 & n & Hrun & _); [|done|].
  - intros id'. rewrite Hc. destruct (decide (id' = id)) as [->|Hid].
    + rewrite (Hflags id), Hnone, Hfails. split; [by intros [? _]|by intros [_ ?]].
    + destruct (Hreq id' Hid) as [-> ->]. apply Hflags.
  - exists w2, n. intros f Hf. unfold send_data. rewrite Hpost, Hrun by done. done.
Qed.

(** ** Asynchronous operations *)

(** The counter is the number of operations that are not over. *)
Definition counted (a : async_state (W := W)) : Prop :=
  outstanding_sends a = Z.of_nat (pending (ucp_worker_data a)) /\ outstanding_sends a < 2 ^ 64.

Lemma callbacks_run n x : Z.of_nat n <= x < 2 ^ 64 ->
  Nat.iter n server_send_completion_callback x = x - Z.of_nat n.
Proof.
  induction n as [|n IH]; intros Hx; [simpl; lia|].
  change (server_send_completion_callback (Nat.iter n server_send_completion_callback x) = x - Z.of_nat (S n)).
  rewrite IH by lia.
  unfold server_send_completion_callback. rewrite u64_small; lia.
Qed.

Lemma counted_progress a : counted a -> counted (progress_async a) /\
  (outstanding_sends (progress_async a) <= outstanding_sends a).
Proof.
  intros [Hc Hlt]. unfold counted, progress_async. pose proof (progress_pending (ucp_worker_data a)) as Hp.
  cbn [outstanding_sends ucp_worker_data]. rewrite callbacks_run; lia.
Qed.

Lemma progress_async_data a : ucp_worker_data (progress_async a) = progress (ucp_worker_data a).
Proof. done. Qed.

Lemma async_progress_run k : 0 <= k < 2 ^ 64 -> forall p l a, counted a ->
  (pending (ucp_worker_data a) <= p)%nat -> (pending_lag (ucp_worker_data a) <= l)%nat ->
  exists n a', (forall f, (n <= f)%nat -> async_data_worker_progress f k a = Ret a') /\ counted a' /\
    outstanding_sends a' <= k.
Proof.
  intros Hk. induction p as [p IHp] using lt_wf_ind. induction l as [l IHl] using lt_wf_ind. intros a Ha Hp Hl.
  destruct (Z.leb_spec (outstanding_sends a) k) as [Hle|Hgt].
  - exists O, a. split; [|done]. intros [|f] _; simpl; rewrite u64_small, (proj2 (Z.leb_le _ _)) by lia; done.
  - destruct (counted_progress a Ha) as [Hc' _].
    assert (exists n a', (forall f, (n <= f)%nat -> async_data_worker_progress f k (progress_async a) = Ret a') /\
      counted a' /\ outstanding_sends a' <= k) as (n & a' & Hrun & Hok).
    { destruct Ha as [Ha Hlt]. pose proof (progress_pending (ucp_worker_data a)) as Hpp.
      rewrite <- progress_async_data in Hpp.
      destruct (decide (pending (ucp_worker_data (progress_async a)) < pending (ucp_worker_data a))%nat) as [Hn|Hn].
      - apply (IHp (pending (ucp_worker_data (progress_async a))) ltac:(lia)
          (pending_lag (ucp_worker_data (progress_async a))) _ Hc'); lia.
      - destruct (progress_counts (ucp_worker_data a)) as [Hz|Hz]; [lia..|]. rewrite <- progress_async_data in Hz.
        apply (IHl (pending_lag (ucp_worker_data (progress_async a)))); [lia|done|lia|done]. }
    exists (S n), a'. split; [|done]. intros [|f] Hf; [lia|]. simpl.
    rewrite u64_small, (proj2 (Z.leb_gt _ _)) by lia. apply Hrun. lia.
Qed.

(** Driving the worker ends with at most as many operations under way as asked
    for; asked for none, all of them are over. *)
Theorem async_data_worker_progress_ends (a : async_state (W := W)) (k : Z)
  (Ha : counted a) (Hk : 0 <= k < 2 ^ 64) :
  exists n a', (forall f, (n <= f)%nat -> async_data_worker_progress f k a = Ret a') /\ counted a' /\
    outstanding_sends a' <= k /\ (k = 0 -> pending (ucp_worker_data a') = O).
Proof.
  destruct (async_progress_run k Hk _ _ a Ha (le_n _) (le_n _)) as (n & a' & Hrun & Hc & Hle).
  exists n, a'. split; [done|]. split; [done|]. split; [done|]. intros ->. destruct Hc. lia.
Qed.

(** Writing asynchronously keeps at most one more operation under way than there
    are servers. *)
Theorem async_sends_bounded (a : async_state (W := W)) (ep uid k : Z) (buffer : bytes)
  (Ha : counted a) (Hk : 0 <= k < 2 ^ 64 - 1) :
  exists n r a', (forall f, (n <= f)%nat -> set_data_async_send f ep buffer uid k a = Ret (r, a')) /\
    counted a' /\ outstanding_sends a' <= k + 1.
Proof.
  destruct (async_progress_run k ltac:(lia) _ _ a Ha (le_n _) (le_n _)) as (n & a1 & Hrun & [Hc Hlt] & Hle).
  unfold set_data_async_send, isend_data2.
  destruct (ucp_tag_send_nbx CountDown ep buffer uid (ucp_worker_data a1)) as [p w] eqn:Hsend.
  pose proof (async_send_posts _ _ _ _ _ _ Hsend) as Hp. exists n.
  destruct p as [|c|id]; eexists _, _; (split; [intros f Hf; rewrite Hrun by done; cbn [obind]; rewrite Hsend; reflexivity|]);
    unfold counted; cbn; rewrite ?u64_small; lia.
Qed.

(** A process that does not count its sends, as a data server, has a counter
    that wraps when the first of them is over. *)
Lemma uncounted_send_wraps (w : W) : due_countdowns w = 1%nat ->
  outstanding_sends (progress_async (mkAsync 0 w)) = 2 ^ 64 - 1.
Proof. unfold progress_async. cbn. by intros ->. Qed.

(** A prefetch buffer that cannot be sent makes the handler release the tracking
    structure twice. *)
Theorem failed_prefetch_frees_twice (w w1 : W) (ep uid c : Z) (buffer : bytes)
  (Hfails : ucp_tag_send_nbx CountDown ep buffer uid w = (PErr c, w1)) :
  send_prefetched ep buffer uid w = Undef UseAfterFree.
Proof. unfold send_prefetched, isend_data2. by rewrite Hfails. Qed.
End theorems.

(** ** A UCX worker that satisfies the laws

    A message arrives with every turn, a request needs one turn, and an
    asynchronous operation is over with every turn. *)
Module Loopback.
Record sim := mkSim {
  s_flight : list (Z * bytes);
  s_inbox : list (Z * bytes);
  s_reqs : gmap Z (bytes * ucs_status * nat);
  s_flags : gset Z;
  s_async : nat;
  s_fail : bool
}.

Definition of_tag (t : Z) (l : list (Z * bytes)) : list bytes := snd <$> filter (fun p => p.1 = t) l.

Fixpoint remove_first (t : Z) (l : list (Z * bytes)) : list (Z * bytes) :=
  match l with
  | [] => []
  | p :: l' => if decide (p.1 = t) then l' else p :: remove_first t l'
  end.

Definition turn (w : sim) : list Z * nat * sim :=
  (elements (dom (filter (fun kv => kv.2.2 = 1%nat) (s_reqs w))), Nat.min 1 (s_async w),
   mkSim (tail (s_flight w)) (s_inbox w ++ take 1 (s_flight w)) (prod_map id pred <$> s_reqs w)
     (s_flags w) (pred (s_async w)) (s_fail w)).

Definition add_request (d : bytes) (st : ucs_status) (w : sim) : ucs_ptr * sim :=
  let id := fresh (dom (s_reqs w)) in
  (PReq id, mkSim (s_flight w) (s_inbox w) (<[id := (d, st, 1%nat)]> (s_reqs w)) (s_flags w) (s_async w) (s_fail w)).

Definition take_message (t : Z) (w : sim) : sim :=
  mkSim (s_flight w) (remove_first t (s_inbox w)) (s_reqs w) (s_flags w) (s_async w) (s_fail w).

Definition recv (cb : callback) (room t : Z) (w : sim) : ucs_ptr * bytes * sim :=
  match of_tag t (s_inbox w) with
  | m :: _ => let '(p, w') := add_request m UCS_OK (take_message t w) in (p, [], w')
  | [] => (PErr (-1), [], w)
  end.

Definition send (cb : callback) (ep : Z) (msg : bytes) (t : Z) (w : sim) : ucs_ptr * sim :=
  match cb with
  | SetCompleted => add_request [] (if s_fail w then UCS_ERR (-80) else UCS_OK) w
  | CountDown =>
      if s_fail w then (PErr (-80), w)
      else (PReq 0, mkSim (s_flight w) (s_inbox w) (s_reqs w) (s_flags w) (S (s_async w)) (s_fail w))
  end.

Definition state (id : Z) (w : sim) : ucs_status :=
  match s_reqs w !! id with Some (_, st, O) => st | Some _ => UCS_INPROGRESS | None => UCS_OK end.

#[export] Instance loopback : Ucx sim := {
  ucp_worker_progress := turn;
  ucp_tag_probe_nb remove t w :=
    (match of_tag t (s_inbox w) with [] => None | m :: _ => Some (0, strlen m) end,
     if remove : bool then take_message t w else w);
  ucp_tag_recv_nbx := recv;
  ucp_tag_msg_recv_nbx room h w := (PErr (-1), [], w);
  ucp_tag_send_nbx := send;
  ucp_ep_close_nbx ep flags w := (PNull, w);
  ucp_ep_flush_nbx ep w := (PNull, w);
  ucp_worker_flush_nb w := w;
  ucp_request_check_status := state;
  ucp_request_free id w :=
    mkSim (s_flight w) (s_inbox w) (delete id (s_reqs w)) (s_flags w) (s_async w) (s_fail w);
  request_data id w := match s_reqs w !! id with Some (d, _, _) => d | None => [] end;
  completed id w := bool_decide (id ∈ s_flags w);
  set_completed b id w :=
    mkSim (s_flight w) (s_inbox w) (s_reqs w) (if b : bool then {[id]} ∪ s_flags w else s_flags w ∖ {[id]}) (s_async w)
      (s_fail w) }.

#[local] Arguments of_tag : simpl never.

Lemma of_tag_app t a b : of_tag t (a ++ b) = of_tag t a ++ of_tag t b.
Proof. unfold of_tag. by rewrite filter_app, fmap_app. Qed.

Lemma remove_first_same t l m ms : of_tag t l = m :: ms -> of_tag t (remove_first t l) = ms.
Proof.
  unfold of_tag. induction l as [|p l IH]; [done|]. cbn [remove_first]. rewrite filter_cons.
  case_decide as Hp; [by intros [= _ <-]|]. rewrite filter_cons, decide_False by done. apply IH.
Qed.

Lemma remove_first_other t t' l : t' <> t -> of_tag t' (remove_first t l) = of_tag t' l.
Proof.
  intros Hne. unfold of_tag. induction l as [|p l IH]; [done|]. cbn [remove_first].
  case_decide as Hp; [by rewrite filter_cons, decide_False by congruence|].
  rewrite !filter_cons. case_decide; [|done]. cbn. by rewrite IH.
Qed.

Definition todo_of (id : Z) (w : sim) : nat := match s_reqs w !! id with Some (_, _, n) => n | None => O end.
Definition result_of (id : Z) (w : sim) : option (bytes * ucs_status) := fst <$> s_reqs w !! id.

(** A new request in the table. *)
Lemma add_request_posts d st w p w' : add_request d st w = (p, w') ->
  exists id, p = PReq id /\ s_inbox w' = s_inbox w /\ s_flight w' = s_flight w /\ s_flags w' = s_flags w /\
    result_of id w = None /\ result_of id w' = Some (d, st) /\ todo_of id w' <> O /\
    forall id', id' <> id -> result_of id' w' = result_of id' w /\ todo_of id' w' = todo_of id' w.
Proof.
  intros [= <- <-]. eexists. split; [done|]. do 3 (split; [done|]). unfold result_of, todo_of. cbn.
  rewrite lookup_insert_eq. split; [|split; [done|split; [done|]]].
  - assert (s_reqs w !! fresh (dom (s_reqs w)) = None) as -> by (apply not_elem_of_dom, is_fresh). done.
  - intros id' Hne. by rewrite lookup_insert_ne by done.
Qed.

#[export] Instance loopback_laws : UcxLaws sim.
Proof.
  unshelve refine {| inbox w t := of_tag t (s_inbox w); flight w t := of_tag t (s_flight w);
    lag w _ := length (s_flight w); request_of := result_of; todo := todo_of;
    pending := s_async; pending_lag _ := O |}.
  - intros [[|x fl] ib r f a e] t; cbn; rewrite ?app_nil_r; [done|]. rewrite of_tag_app, <- app_assoc. f_equal.
    rewrite <- of_tag_app. done.
  - intros w t. cbn. rewrite of_tag_app. by destruct (of_tag t (s_inbox w)).
  - intros [[|x fl] ib r f a e] t _ Hf; [done|]. right. cbn. lia.
  - intros w id. cbn. unfold result_of. cbn. rewrite lookup_fmap. by destruct (s_reqs w !! id) as [[[]]|].
  - intros w id. cbn. unfold todo_of. cbn. rewrite lookup_fmap. by destruct (s_reqs w !! id) as [[[]]|].
  - intros w id. cbn. unfold due_handlers, result_of, todo_of. cbn. rewrite elem_of_elements, lookup_fmap.
    assert (id ∈ dom (filter (fun kv : Z * (bytes * ucs_status * nat) => kv.2.2 = 1%nat) (s_reqs w)) <->
      exists d, s_reqs w !! id = Some (d, 1%nat)) as ->.
    { rewrite elem_of_dom. unfold is_Some. setoid_rewrite map_lookup_filter_Some.
      split; [intros ([d n] & Hd & Hn); cbn in Hn; subst; eauto|intros (d & Hd); by exists (d, 1%nat)]. }
    destruct (s_reqs w !! id) as [[[b st] [|[|n]]]|]; cbn; split; intros Hx.
    all: first [by destruct Hx as (? & ? & ?) | by destruct Hx as [? [=]] | by eauto | by repeat split].
  - done.
  - intros [fl ib r f [|a] e]; cbn; lia.
  - intros [fl ib r f [|a] e] Hw; [done|]. left. cbn. lia.
  - intros w t. exists 0. done.
  - intros w id d st Hr Ht. cbn. unfold state, result_of, todo_of in *. destruct (s_reqs w !! id) as [[[]]|]; [|done].
    injection Hr as -> ->. by rewrite Ht.
  - done.
  - intros w id id'. cbn. unfold result_of, todo_of. cbn. case_decide as Hid; [subst; by rewrite lookup_delete_eq|].
    by rewrite lookup_delete_ne by done.
  - done.
  - intros b w id id'. cbn. split; [done|]. split; [done|]. case_decide as Hid; destruct b.
    + apply bool_decide_eq_true. set_solver.
    + apply bool_decide_eq_false. set_solver.
    + apply bool_decide_ext. set_solver.
    + apply bool_decide_ext. set_solver.
  - done.
  - intros w ep msg t p w' Hs. cbn in Hs. apply add_request_posts in Hs as (id & -> & Hi & Hf & Hg & Hn & Hs & Ht & Ho).
    cbn. rewrite Hi, Hf, Hg. split; [done|]. split; [done|]. split; [done|]. split; [eauto|]. done.
  - intros w room t m ms Hi _. cbn. unfold recv. rewrite Hi.
    destruct (add_request m UCS_OK (take_message t w)) as [p w'] eqn:Ha.
    apply add_request_posts in Ha as (id & -> & Hi' & Hf & Hg & Hn & Hs & Ht & Ho).
    eexists _, _, _. split; [done|]. cbn in *. rewrite Hi', Hf, Hg.
    split; [by eapply remove_first_same|]. split; [done|].
    split; [intros t' Ht'; split; [by apply remove_first_other|done]|]. split; [done|]. done.
  - intros w ep msg t p w'. cbn. destruct (s_fail w); by intros [= <- <-].
Defined.

(** A worker to which messages are on their way. *)
Definition start (ms : list (Z * bytes)) (fail : bool) : sim := mkSim ms [] ∅ ∅ 0 fail.

Lemma start_flags ms fail : flags_ok (start ms fail).
Proof. intros id. cbn. unfold result_of. cbn. rewrite lookup_empty. split; [by intros ?%bool_decide_eq_true|by intros [? _]]. Qed.
End Loopback.
Import Loopback.

Lemma receives_in_order_witness :
  let w := start [(7, B "first"); (8, B "other"); (7, B "second")] false in
  exists w' n, (forall f, (n <= f)%nat -> receive_all f 7 [B "-----"; B "-------"] w =
    Ret (zip_with filled [B "first"; B "second"] [B "-----"; B "-------"], w')) /\
    messages w' 7 = [] /\ (forall t', t' <> 7 -> messages w' t' = messages w t') /\ flags_ok w'.
Proof.
  apply (receives_in_order (start [(7, B "first"); (8, B "other"); (7, B "second")] false) 7 [B "first"; B "second"] []).
  - apply start_flags.
  - vm_compute. reflexivity.
  - repeat constructor; vm_compute; discriminate.
Defined.

Lemma long_message_overflows_witness :
  exists n, forall f, (n <= f)%nat -> recv_message f (B "12") 7 (start [(7, B "$ERRIMSS_NO_KEY_AVAIL$")] false) = Undef OutOfBounds.
Proof.
  apply (long_message_overflows _ 7 (B "$ERRIMSS_NO_KEY_AVAIL$") (B "12") []).
  - apply start_flags.
  - vm_compute. reflexivity.
  - vm_compute. reflexivity.
Defined.

Lemma send_data_hides_failure_witness :
  exists w' n, forall f, (n <= f)%nat -> send_data f 1 (B "abc") 7 (start [] true) = Ret (strlen (B "abc"), w').
Proof.
  eapply (send_data_hides_failure (start [] true) _ 1 7 _ (-80) (B "abc")).
  - apply start_flags.
  - reflexivity.
  - vm_compute. reflexivity.
Defined.

Lemma async_data_worker_progress_ends_witness :
  exists n a', (forall f, (n <= f)%nat ->
      async_data_worker_progress f 0 (mkAsync 3 (mkSim [] [] ∅ ∅ 3 false)) = Ret a') /\ counted a' /\
    outstanding_sends a' <= 0 /\ (0 = 0 -> pending (ucp_worker_data a') = O).
Proof. apply async_data_worker_progress_ends; [split; [done|]; cbn; lia|lia]. Defined.

Lemma async_sends_bounded_witness :
  exists n r a', (forall f, (n <= f)%nat ->
      set_data_async_send f 1 (B "abc") 7 2 (mkAsync 3 (mkSim [] [] ∅ ∅ 3 false)) = Ret (r, a')) /\
    counted a' /\ outstanding_sends a' <= 2 + 1.
Proof. apply async_sends_bounded; [split; [done|]; cbn; lia|lia]. Defined.

Lemma failed_prefetch_frees_twice_witness : send_prefetched 1 (B "abc") 7 (start [] true) = Undef UseAfterFree.
Proof. eapply (failed_prefetch_frees_twice (start [] true) _ 1 7 (-80)). reflexivity. Defined.
