(* ===== verification/Vectored.v ===== *)
(** * Reads and writes that ask a server for many blocks

    [readv_multiple], [split_location_servers], [split_writev], [split_readv]
    (src/src/imss.c) and [imss_vread_no_prefetch], [imss_split_writev],
    [imss_split_readv] (src/fuse/imss_posix_api.c), the modes of
    [MULTIPLE_READ] and [MULTIPLE_WRITE] other than 0.  The split operations
    start a thread per server; a thread holds [lock_network] from its first
    request to its last reply, so the threads run one after the other, here in
    the order they are created. *)

From S2P Require Import Prelude Types Policies Paths Store DataServer Wire Sessions Client BlockService FileIO EndToEnd.

(** The room for [rpath] (src/fuse/imss_posix_api.c). *)
Definition rpath_room : Z := 256.
(** [lenght_message], the room for the list of blocks of a server. *)
Definition lenght_message : Z := 102400.

(** ** Requests *)

(** ["GET 8 0 %s$%d %d %ld %ld %ld"]. *)
Definition vread_request (uri : bytes) (curr_block end_block blocksize start_offset size : Z) : bytes :=
  B "GET 8 0" ++ sp :: block_key uri curr_block ++ sp :: print_d end_block ++ sp :: print_d (i64 blocksize)
  ++ sp :: print_d start_offset ++ sp :: print_d size.

(** ["GET 9 0 %s %ld %ld %d %d"]. *)
Definition split_read_request (path : bytes) (blksize start_offset stats_size msg_length : Z) : bytes :=
  B "GET 9 0" ++ sp :: path ++ sp :: print_d (i64 blksize) ++ sp :: print_d start_offset
  ++ sp :: print_d stats_size ++ sp :: print_d msg_length.

(** ["SET %d 0 [OP]=2 %s %ld %ld %d %s"]. *)
Definition split_write_request (entity_size : Z) (path : bytes) (blksize start_offset stats_size : Z) (msg : bytes)
  : bytes :=
  B "SET" ++ sp :: print_d entity_size ++ sp :: B "0" ++ sp :: B "[OP]=2" ++ sp :: path
  ++ sp :: print_d (i64 blksize) ++ sp :: print_d start_offset ++ sp :: print_d stats_size ++ sp :: msg.

Section vectored.
Context (stack : bytes) (e : env) (N_SERVERS IMSS_BLKSIZE : Z).

(** [get_recv_data_length] polls until a message is there: without one the
    call never returns. *)
Definition await_reply (w : world) : outcome (bytes * world) :=
  match receive w with
  | (Some m, w) => Ret (m, w)
  | (None, _) => Undef Deadlock
  end.

(** [recv_data(..., (void ** )&buffer, msg_length, ...)] takes the address of
    the memory to fill and is given the address of the pointer: the message
    overwrites the pointer and what lies behind it, and the pointer is then
    followed. An empty message is an error. *)
Definition recv_over_pointer (m : bytes) (w : world) : outcome world :=
  match m with [] => Ret w | _ => Undef OutOfBounds end.

(** The servers of the replicas, a local one moved to the front. *)
Fixpoint order_replicas (k : nat) (i n_server storages : Z) (di : dataset_info) (repl_servers : list Z)
  : outcome (list Z) :=
  match k with
  | O => Ret repl_servers
  | S k' =>
      let* n_server_ := replica n_server i storages (repl_factor di) in
      order_replicas k' (i + 1) n_server storages di
        (match repl_servers with
         | first :: rest => if n_server_ =? local_conn di then n_server_ :: rest ++ [first]
                            else repl_servers ++ [n_server_]
         | [] => [n_server_]
         end)
  end.

(** ** [readv_multiple] *)

(** The request to the first of the replicas: every reply ends the
    function. *)
Definition ask_first (req msg : bytes) (repl_servers : list Z) (w : world) : outcome world :=
  match repl_servers with
  | [] => Ret w
  | n :: _ =>
      if negb (send_ok e) then Ret w
      else
        let* w := deliver e n req msg w in
        let* (m, w) := await_reply w in
        recv_over_pointer m w
  end.

Definition readv_multiple (dataset_uri : bytes) (curr_block end_block start_offset size : Z) (w : world)
  : outcome (Z * world) :=
  let* (n_server, curr, w) := get_data_location stack dataset_uri curr_block GET w in
  match curr with
  | None => Ret (-1, w)
  | Some (di, im) =>
      if n_server =? -1 then Ret (-1, w)
      else
        let* repl_servers := order_replicas (Z.to_nat (repl_factor di)) 0 n_server (num_storages im) di [] in
        let* w := ask_first (vread_request (uri_ di) curr_block end_block IMSS_BLKSIZE start_offset size) []
                    repl_servers w in
        Ret (-1, w)
  end.

(** ** The blocks of each server *)

(** [list_servers[n_server][i] = curr_blk]. *)
Definition mark (n_server i curr_blk : Z) (ls : list (list Z)) : outcome (list (list Z)) :=
  if (n_server <? 0) || (i <? 0) then Undef OutOfBounds
  else match ls !! Z.to_nat n_server with
       | None => Undef OutOfBounds
       | Some row =>
           if (Z.to_nat i <? length row)%nat then Ret (<[Z.to_nat n_server := <[Z.to_nat i := curr_blk]> row]> ls)
           else Undef OutOfBounds
       end.

(** The dataset and instance that are current at the end come along. *)
Fixpoint split_location_servers (k : nat) (dataset_uri : bytes) (i curr_blk : Z) (ls : list (list Z))
    (cur : option (dataset_info * imss_info)) (w : world)
  : outcome (Z * list (list Z) * option (dataset_info * imss_info) * world) :=
  match k with
  | O => Ret (0, ls, cur, w)
  | S k' =>
      let* (n_server, found, w) := get_data_location stack dataset_uri curr_blk GET w in
      let cur := match found with Some _ => found | None => cur end in
      if n_server =? -1 then Ret (-1, ls, cur, w)
      else
        let* ls := mark n_server i curr_blk ls in
        split_location_servers k' dataset_uri (i + 1) (curr_blk + 1) ls cur w
  end.

(** The first [total] entries of the row of a server. *)
Definition row_part (total : Z) (row : list Z) : outcome (list Z) :=
  if total <=? Z.of_nat (length row) then Ret (take (Z.to_nat total) row) else Undef OutOfBounds.

Definition picked (row : list Z) : list Z := filter (fun b => 0 < b) row.
Definition amount (row : list Z) : Z := Z.of_nat (length (picked row)).

(** The number of blocks of a server and their list. *)
Definition block_list (row : list Z) : bytes := concat ((fun b => dollar :: print_d b) <$> picked row).
Definition message (row : list Z) : outcome bytes :=
  let msg := print_d (amount row) ++ block_list row in
  if strlen msg <? lenght_message then Ret msg else Undef OutOfBounds.

Context `{BlockOps world} (dceil : Z -> Z -> Z).

(** ** Scattering a buffer *)

(** Whole blocks are copied from [buf + i * IMSS_DATA_BSIZE] behind each
    other. *)
Fixpoint scatter_blocks (row : list Z) (i count : Z) (buf dst : bytes) : outcome bytes :=
  match row with
  | [] => Ret dst
  | b :: row' =>
      if 0 <? b then
        let* src := read_at buf (i * BSIZE) BSIZE in
        let* dst := write_at dst count src in
        scatter_blocks row' (i + 1) (i32 (count + BSIZE)) buf dst
      else scatter_blocks row' (i + 1) count buf dst
  end.

(** [calloc]. *)
Definition calloc_zeros (n : Z) : bytes := repeat "000"%char (Z.to_nat n).

Definition server_buffer (buf : bytes) (row : list Z) : outcome bytes :=
  scatter_blocks row 0 0 buf (calloc_zeros (amount row * BSIZE)).

(** [split_writev]: the requests to the replicas of one server. The replies
    are not received. *)
Fixpoint split_writev (k : nat) (i n_server : Z) (di : dataset_info) (im : imss_info) (req data : bytes) (w : world)
  : outcome world :=
  match k with
  | O => Ret w
  | S k' =>
      let* n_server_ := replica n_server i (num_storages im) (repl_factor di) in
      if negb (send_ok e) then Ret w
      else
        let* w := deliver e n_server_ req data w in
        split_writev k' (i + 1) n_server di im req data w
  end.

(** The list of blocks of every server, and what is copied for it. *)
Fixpoint block_lists (rows : list (list Z)) : outcome (list bytes) :=
  match rows with
  | [] => Ret []
  | row :: rows' => let* m := message row in let* ms := block_lists rows' in Ret (m :: ms)
  end.
Fixpoint server_buffers (buf : bytes) (rows : list (list Z)) : outcome (list bytes) :=
  match rows with
  | [] => Ret []
  | row :: rows' => let* b := server_buffer buf row in let* bs := server_buffers buf rows' in Ret (b :: bs)
  end.

(** The threads of the servers that have blocks to write. *)
Fixpoint write_threads (l : list (list Z * (bytes * bytes))) (server : Z) (cur : option (dataset_info * imss_info))
    (path : bytes) (start_offset stats_size : Z) (w : world) : outcome world :=
  match l with
  | [] => Ret w
  | (row, (msg, data)) :: l' =>
      let* w :=
        (if amount row =? 0 then Ret w
         else match cur with
              | None => Undef NullDeref
              | Some (di, im) =>
                  let* payload := read_at data 0 (amount row * (IMSS_BLKSIZE * 1024)) in
                  split_writev (Z.to_nat (repl_factor di)) 0 server di im
                    (split_write_request (data_entity_size di) path IMSS_BLKSIZE start_offset stats_size msg)
                    payload w
              end) in
      write_threads l' (server + 1) cur path start_offset stats_size w
  end.

Fixpoint row_parts (total : Z) (ls : list (list Z)) : outcome (list (list Z)) :=
  match ls with
  | [] => Ret []
  | row :: ls' =>
      let* r := row_part total row in
      let* rs := row_parts total ls' in
      Ret (r :: rs)
  end.

(** The rows of the blocks [curr_blk .. end_blk]. A location that is not found
    ends the marking, its error is not looked at. *)
Definition list_servers (path : bytes) (size curr_blk end_blk : Z) (w : world)
  : outcome (list (list Z) * option (dataset_info * imss_info) * world) :=
  let total := i32 (end_blk - curr_blk + 1) in
  let* (_, ls, cur, w) := split_location_servers (Z.to_nat total) path 0 curr_blk
                            (repeat (repeat 0 (Z.to_nat size)) (Z.to_nat N_SERVERS)) None w in
  let* rows := row_parts total ls in
  Ret (rows, cur, w).

(** ** [imss_split_writev] *)

Definition imss_split_writev (path buf : bytes) (size off : Z) (f : fstate world) : outcome (Z * fstate world) :=
  if BSIZE =? 0 then Undef DivByZero
  else
    let curr_blk := u64 off / BSIZE + 1 in
    let start_offset := u64 off mod BSIZE in
    let end_blk := dceil (u64 (off + size)) BSIZE in
    let rpath := get_iuri path in
    if rpath_room <=? strlen rpath then Undef OutOfBounds
    else
      let '(fd, stats) := fd_lookup rpath f in
      if fd =? -2 then Ret (- ENOENT, f)
      else
        let* (rows, cur, w) := list_servers path size curr_blk end_blk (svc f) in
        let* msgs := block_lists rows in
        let* bufs := server_buffers buf rows in
        match stats with
        | None => Undef Uninitialised
        | Some st =>
            let* w := write_threads (zip rows (zip msgs bufs)) 0 cur path start_offset (i32 (st_size st)) w in
            Ret (i32 size, map_update rpath fd (set_size (i64 (size + off)) (end_blk - 1) st) (set_svc w f))
        end.

(** ** Gathering the blocks of the servers *)

Record gstate := mkG { g_first : bool; byte_count_servers : list Z; byte_count : Z; g_buf : bytes }.

(** [memcpy(buf + byte_count, buffer_servers[server] + from, n)] and the
    counters. *)
Definition gather_copy (server : nat) (src : bytes) (from n : Z) (g : gstate) : outcome gstate :=
  let* part := read_at src from n in
  let* buf := write_at (g_buf g) (byte_count g) part in
  Ret (mkG false (alter (Z.add n) server (byte_count_servers g)) (byte_count g + n) buf).

(** A block that is found. The second test for the end of the file, after the
    one at the start of [imss_split_readv], never holds. *)
Definition gather_block (size st_size_ start_offset total curr_blk end_blk : Z) (server : nat) (src : bytes)
    (g : gstate) : outcome gstate :=
  let done_ := default 0 (byte_count_servers g !! server) in
  if g_first g then
    let to_read :=
      if (size <? u64 (st_size_ - start_offset)) && (size <? BSIZE) && (total =? 1) then size
      else if u64 st_size_ <? BSIZE then st_size_ - start_offset
      else BSIZE - start_offset in
    gather_copy server src start_offset to_read g
  else if negb (curr_blk =? end_blk) then gather_copy server src done_ BSIZE g
  else gather_copy server src done_ (size - byte_count g) g.

(** The servers in turn for one block. *)
Fixpoint gather_servers (size st_size_ start_offset total i curr_blk end_blk : Z) (server : nat)
    (l : list (list Z * bytes)) (g : gstate) : outcome gstate :=
  match l with
  | [] => Ret g
  | (row, src) :: l' =>
      let* g := (if bool_decide (row !! Z.to_nat i = Some curr_blk)
                 then gather_block size st_size_ start_offset total curr_blk end_blk server src g
                 else Ret g) in
      gather_servers size st_size_ start_offset total i curr_blk end_blk (S server) l' g
  end.

Fixpoint gather_blocks (k : nat) (size st_size_ start_offset total i curr_blk end_blk : Z) (l : list (list Z * bytes))
    (g : gstate) : outcome gstate :=
  match k with
  | O => Ret g
  | S k' =>
      let* g := gather_servers size st_size_ start_offset total i curr_blk end_blk 0 l g in
      gather_blocks k' size st_size_ start_offset total (i + 1) (curr_blk + 1) end_blk l g
  end.

(** ** [imss_split_readv] *)

(** [split_readv] for one server. *)
Definition split_readv (server : Z) (di : dataset_info) (im : imss_info) (path msg : bytes)
    (start_offset stats_size : Z) (w : world) : outcome world :=
  let* repl_servers := order_replicas (Z.to_nat (repl_factor di)) 0 server (num_storages im) di [] in
  ask_first (split_read_request path IMSS_BLKSIZE start_offset stats_size (strlen msg + 1)) (msg ++ ["000"%char])
    repl_servers w.

(** The threads of the servers that have blocks to read. *)
Fixpoint read_threads (l : list (list Z * bytes)) (server : Z) (cur : option (dataset_info * imss_info))
    (path : bytes) (start_offset stats_size : Z) (w : world) : outcome world :=
  match l with
  | [] => Ret w
  | (row, msg) :: l' =>
      let* w :=
        (if amount row =? 0 then Ret w
         else match cur with
              | None => Undef NullDeref
              | Some (di, im) => split_readv server di im path msg start_offset stats_size w
              end) in
      read_threads l' (server + 1) cur path start_offset stats_size w
  end.

(** No thread that ends has put anything into the buffer of its server. *)
Definition imss_split_readv (path buf : bytes) (size offset : Z) (f : fstate world)
  : outcome (Z * bytes * fstate world) :=
  if BSIZE =? 0 then Undef DivByZero
  else
    let curr_blk := u64 offset / BSIZE + 1 in
    let start_offset := u64 offset mod BSIZE in
    let rpath := get_iuri path in
    if rpath_room <=? strlen rpath then Undef OutOfBounds
    else
      match fd_lookup rpath f with
      | (_, None) => Undef Uninitialised
      | (fd, Some st) =>
          let end_blk := if u64 (st_size st) <? size then dceil (u64 (offset + st_size st)) BSIZE
                         else dceil (u64 (offset + size)) BSIZE in
          if st_size st <=? start_offset then Ret (0, buf, f)
          else if fd =? -2 then Ret (- ENOENT, buf, f)
          else
            let total := i32 (end_blk - curr_blk + 1) in
            let* (rows, cur, w) := list_servers path size curr_blk end_blk (svc f) in
            let* msgs := block_lists rows in
            let* w := read_threads (zip rows msgs) 0 cur path start_offset (i32 (st_size st)) w in
            let l := (fun row => (row, calloc_zeros (amount row * BSIZE))) <$> rows in
            let* g := gather_blocks (Z.to_nat total) size (st_size st) start_offset total 0 curr_blk end_blk l
                        (mkG true (repeat 0 (Z.to_nat N_SERVERS)) 0 buf) in
            Ret (i32 (byte_count g), g_buf g, set_svc w f)
      end.

(** ** [imss_vread_no_prefetch]

    The start that the three reads of [MULTIPLE_READ] 1, 2 and 3 share: the
    range is cut at a file of less than a block; [inl] is the answer when
    nothing is to be read. *)
Definition vread_prepare (path buf : bytes) (size offset : Z) (f : fstate world)
  : outcome (bytes * (Z + Z * stat * Z * Z * Z * Z)) :=
  if BSIZE =? 0 then Undef DivByZero
  else
    let curr_blk := u64 offset / BSIZE + 1 in
    let start_offset := u64 offset mod BSIZE in
    let rpath := get_iuri path in
    if rpath_room <=? strlen rpath then Undef OutOfBounds
    else
      let '(fd, stats) := fd_lookup rpath f in
      if fd =? -2 then Ret (buf, inl (- ENOENT))
      else
        let* buf := write_at buf 0 (calloc_zeros size) in
        match stats with
        | None => Undef Uninitialised
        | Some st =>
            let size := if (u64 (st_size st) <? size) && (u64 (st_size st) <? BSIZE) then u64 (st_size st) else size in
            let end_blk := dceil (u64 (offset + size)) BSIZE in
            if st_size st <=? start_offset then Ret (buf, inl 0)
            else Ret (buf, inr (if 0 <=? fd then fd else 0, st, size, start_offset, curr_blk, end_blk))
        end.

(** The first iteration of the loop returns, so what follows the first read in
    its body is never executed. *)
Definition imss_vread_no_prefetch (path buf : bytes) (size offset : Z) (f : fstate world)
  : outcome (Z * bytes * fstate world) :=
  let total := i32 size in
  let* (buf, r) := vread_prepare path buf size offset f in
  match r with
  | inl ret => Ret (ret, buf, f)
  | inr (_, _, size, start_offset, curr_blk, end_blk) =>
      if end_blk <? curr_blk then Ret (0, buf, f)
      else
        let* (err, w) := readv_multiple path (i32 curr_blk) (i32 end_blk) start_offset total (svc f) in
        Ret (if err =? -1 then -1 else i32 size, buf, set_svc w f)
  end.
End vectored.

(** ** The rows of [list_servers] *)

(** Server [n] has the number of block [blk + i] at place [i] when it is the
    home of the block. *)
Fixpoint row_of (homes : list Z) (blk n : Z) : list Z :=
  match homes with
  | [] => []
  | h :: homes' => (if h =? n then blk else 0) :: row_of homes' (blk + 1) n
  end.
Definition rows_of (N : nat) (blk : Z) (homes : list Z) : list (list Z) :=
  (fun n => row_of homes blk (Z.of_nat n)) <$> seq 0 N.

Lemma row_of_length homes blk n : length (row_of homes blk n) = length homes.
Proof. revert blk. induction homes as [|h homes IH]; intros blk; simpl; [done|by rewrite IH]. Qed.

Lemma row_of_snoc homes blk n h :
  row_of (homes ++ [h]) blk n = row_of homes blk n ++ [if h =? n then blk + Z.of_nat (length homes) else 0].
Proof.
  revert blk. induction homes as [|a homes IH]; intros blk; simpl.
  - by rewrite Z.add_0_r.
  - rewrite IH. repeat f_equal. destruct (h =? n); [lia|done].
Qed.

Lemma row_of_lookup homes blk n i :
  1 <= blk -> row_of homes blk n !! i = Some (blk + Z.of_nat i) <-> homes !! i = Some n.
Proof.
  revert blk i. induction homes as [|h homes IH]; intros blk i Hb; simpl; [by rewrite !lookup_nil|].
  destruct i as [|i]; simpl.
  - rewrite Z.add_0_r. destruct (Z.eqb_spec h n) as [->|Hn]; split; try done; intros [= E]; lia.
  - replace (blk + Z.of_nat (S i)) with (blk + 1 + Z.of_nat i) by lia. apply IH. lia.
Qed.

(** The rows while they are marked: zeros behind the blocks looked up. *)
Definition marked (N : nat) (blk : Z) (homes : list Z) (size : nat) : list (list Z) :=
  (fun row => row ++ repeat 0 (size - length homes)) <$> rows_of N blk homes.

Lemma marked_nil N blk size : marked N blk [] size = repeat (repeat 0 size) N.
Proof.
  unfold marked, rows_of. rewrite <- list_fmap_compose. generalize 0%nat.
  induction N as [|N IH]; intros a; [done|]. simpl. by rewrite IH, Nat.sub_0_r.
Qed.

Lemma mark_next N blk homes size h :
  0 <= h < Z.of_nat N -> (length homes < size)%nat ->
  mark h (Z.of_nat (length homes)) (blk + Z.of_nat (length homes)) (marked N blk homes size)
  = Ret (marked N blk (homes ++ [h]) size).
Proof.
  intros Hh Hs. unfold mark. destruct (Z.ltb_spec h 0); [lia|].
  destruct (Z.ltb_spec (Z.of_nat (length homes)) 0); [lia|]. cbn [orb]. rewrite Nat2Z.id.
  set (row n := row_of homes blk (Z.of_nat n) ++ repeat 0 (size - length homes)).
  assert (forall n : nat, (n < N)%nat -> marked N blk homes size !! n = Some (row n)) as Hrow.
  { intros n Hn. unfold marked, rows_of. rewrite !list_lookup_fmap, lookup_seq_lt by lia. done. }
  rewrite Hrow by lia. unfold row at 1. rewrite length_app, row_of_length, repeat_length.
  destruct (Nat.ltb_spec (length homes) (length homes + (size - length homes))); [|lia].
  f_equal. apply list_eq. intros n. unfold marked at 2, rows_of. rewrite !list_lookup_fmap.
  destruct (decide (n < N)%nat) as [Hn|Hn].
  - rewrite lookup_seq_lt by lia. simpl. rewrite row_of_snoc, <- app_assoc.
    assert (size - length homes = S (size - length (homes ++ [h])))%nat as Hsz
      by (rewrite length_app; simpl; lia).
    destruct (decide (n = Z.to_nat h)) as [->|Hne].
    + rewrite list_lookup_insert_eq; [|apply lookup_lt_Some with (row (Z.to_nat h)), Hrow; lia].
      rewrite Z2Nat.id by lia. rewrite Z.eqb_refl. f_equal. unfold row. rewrite Hsz.
      rewrite Z2Nat.id by lia.
      rewrite insert_app_r_alt by (rewrite row_of_length; lia). rewrite row_of_length, Nat.sub_diag. done.
    + rewrite list_lookup_insert_ne by done. rewrite Hrow by done. f_equal. unfold row. rewrite Hsz.
      destruct (Z.eqb_spec h (Z.of_nat n)); [lia|]. done.
  - rewrite (lookup_ge_None_2 (seq 0 N)) by (rewrite length_seq; lia). simpl.
    apply lookup_ge_None. unfold marked, rows_of. rewrite length_insert, !length_fmap, length_seq. lia.
Qed.

Lemma row_parts_marked N blk homes size :
  (length homes <= size)%nat ->
  row_parts (Z.of_nat (length homes)) (marked N blk homes size) = Ret (rows_of N blk homes).
Proof.
  intros Hs. unfold marked, rows_of. generalize 0%nat. induction N as [|N IH]; intros a; [done|].
  cbn [seq fmap list_fmap row_parts]. rewrite IH. unfold row_part.
  rewrite length_app, repeat_length, row_of_length.
  destruct (Z.leb_spec (Z.of_nat (length homes)) (Z.of_nat (length homes + (size - length homes)))); [|lia].
  cbn [obind]. rewrite Nat2Z.id, take_app_length'; [done|by rewrite row_of_length].
Qed.

(** ** One file *)

Section file.
Context (stack : bytes) (e : env) (u : bytes) (di : dataset_info) (im : imss_info) (IMSS_BLKSIZE : Z).
Context (FS : file_session stack e u di im).

Abbreviation home := (home stack di im).

Definition homes (blk : Z) (k : nat) : list Z := (fun i => home (blk + Z.of_nat i)) <$> seq 0 k.

Lemma homes_snoc blk k : homes blk (S k) = homes blk k ++ [home (blk + Z.of_nat k)].
Proof. unfold homes. by rewrite seq_S, fmap_app. Qed.

Lemma homes_length blk k : length (homes blk k) = k.
Proof. unfold homes. by rewrite length_fmap, length_seq. Qed.

(** Every block is marked in the row of its home. *)
Lemma split_location_marks w blk size k i cur :
  world_ok e u di im w -> 1 <= blk -> num_storages im + blk + Z.of_nat (i + k) <= 2 ^ 31 ->
  (i + k <= size)%nat ->
  exists cur',
    split_location_servers stack k u (Z.of_nat i) (blk + Z.of_nat i)
      (marked (Z.to_nat (num_storages im)) blk (homes blk i) size) cur w
    = Ret (0, marked (Z.to_nat (num_storages im)) blk (homes blk (i + k)) size, cur', w) /\
    (k <> 0%nat -> cur' = Some (di, im)).
Proof.
  intros Hw Hb. pose proof (fs_servers _ _ _ _ _ FS). revert i cur.
  induction k as [|k IH]; intros i cur Hbd Hsz; cbn [split_location_servers].
  - exists cur. by rewrite Nat.add_0_r.
  - assert (numbered im (blk + Z.of_nat i)) as Hid by (unfold numbered; lia).
    rewrite (location_ok stack e u di im FS) by done. cbn [obind].
    destruct (home_spec stack e u di im FS (blk + Z.of_nat i) GET Hid) as [_ Hh].
    destruct (Z.eqb_spec (home (blk + Z.of_nat i)) (-1)); [lia|].
    pose proof (mark_next (Z.to_nat (num_storages im)) blk (homes blk i) size (home (blk + Z.of_nat i))) as Hm.
    rewrite homes_length in Hm. rewrite Hm by lia. clear Hm.
    cbn [obind]. rewrite <- homes_snoc.
    replace (Z.of_nat i + 1) with (Z.of_nat (S i)) by lia.
    replace (blk + Z.of_nat i + 1) with (blk + Z.of_nat (S i)) by lia.
    replace (i + S k)%nat with (S i + k)%nat in * by lia.
    destruct (IH (S i) (Some (di, im))) as (cur' & Hrun & Hc); [lia|lia|].
    exists cur'. split; [exact Hrun|]. intros _. destruct k as [|k]; [|by apply Hc].
    cbn [split_location_servers] in Hrun. by injection Hrun.
Qed.

Lemma list_servers_ok w blk k size :
  world_ok e u di im w -> 1 <= blk -> num_storages im + blk + Z.of_nat k <= 2 ^ 31 ->
  (0 < k)%nat -> Z.of_nat k <= size ->
  list_servers stack (num_storages im) u size blk (blk + Z.of_nat k - 1) w
  = Ret (rows_of (Z.to_nat (num_storages im)) blk (homes blk k), Some (di, im), w).
Proof.
  intros Hw Hb Hbd Hk Hsz. pose proof (fs_servers _ _ _ _ _ FS). unfold list_servers.
  replace (blk + Z.of_nat k - 1 - blk + 1) with (Z.of_nat k) by lia. rewrite i32_small by lia.
  rewrite Nat2Z.id, <- (marked_nil _ blk).
  destruct (split_location_marks w blk (Z.to_nat size) k 0 None Hw Hb) as (cur & Hrun & Hc); [lia|lia|].
  rewrite Z.add_0_r in Hrun. change (homes blk 0) with (@nil Z) in Hrun. change (Z.of_nat 0) with 0 in Hrun.
  rewrite Hrun. cbn [obind Nat.add].
  replace (Z.of_nat k) with (Z.of_nat (length (homes blk k))) by (by rewrite homes_length).
  rewrite row_parts_marked by (rewrite homes_length; lia). cbn [obind]. rewrite Hc by lia. done.
Qed.
End file.

(** ** Scatter and gather are inverse *)

Section scatter_gather.
Context `{BlockOps world} (HB : 0 < BSIZE).

(** Block [i] of a buffer, and the blocks of server [n] behind each other. *)
Definition block_part (buf : bytes) (i : nat) : bytes := take (Z.to_nat BSIZE) (drop (i * Z.to_nat BSIZE) buf).
Fixpoint part_of (buf : bytes) (n : Z) (i : nat) (homes : list Z) : bytes :=
  match homes with
  | [] => []
  | h :: homes' => (if h =? n then block_part buf i else []) ++ part_of buf n (S i) homes'
  end.

Lemma part_of_app buf n i hs1 hs2 :
  part_of buf n i (hs1 ++ hs2) = part_of buf n i hs1 ++ part_of buf n (i + length hs1) hs2.
Proof.
  revert i. induction hs1 as [|h hs1 IH]; intros i; simpl; [by rewrite Nat.add_0_r|].
  rewrite IH, <- app_assoc. do 3 f_equal. lia.
Qed.

Lemma block_part_length buf i : (S i * Z.to_nat BSIZE <= length buf)%nat -> length (block_part buf i) = Z.to_nat BSIZE.
Proof. intros Hi. unfold block_part. rewrite length_take, length_drop. lia. Qed.

Lemma block_part_read buf i :
  (S i * Z.to_nat BSIZE <= length buf)%nat -> read_at buf (Z.of_nat i * BSIZE) BSIZE = Ret (block_part buf i).
Proof.
  intros Hi. unfold read_at, strlen.
  destruct (Z.leb_spec 0 (Z.of_nat i * BSIZE)); [|nia]. destruct (Z.leb_spec 0 BSIZE); [|lia].
  destruct (Z.leb_spec (Z.of_nat i * BSIZE + BSIZE) (Z.of_nat (length buf))); [|nia].
  cbn [andb]. unfold block_part. repeat f_equal. nia.
Qed.

Lemma amount_row homes blk n :
  1 <= blk -> amount (row_of homes blk n) = Z.of_nat (length (filter (fun h => h = n) homes)).
Proof.
  unfold amount, picked. revert blk. induction homes as [|h homes IH]; intros blk Hb; [done|].
  cbn [row_of]. rewrite !filter_cons. destruct (Z.eqb_spec h n) as [->|Hn].
  - destruct (decide (0 < blk)); [|lia]. destruct (decide (n = n)); [|done].
    simpl length. specialize (IH (blk + 1) ltac:(lia)). lia.
  - destruct (decide (0 < 0)); [lia|]. destruct (decide (h = n)); [done|]. apply IH. lia.
Qed.

Lemma part_of_length buf n i homes :
  ((i + length homes) * Z.to_nat BSIZE <= length buf)%nat ->
  length (part_of buf n i homes) = (length (filter (fun h => h = n) homes) * Z.to_nat BSIZE)%nat.
Proof.
  revert i. induction homes as [|h homes IH]; intros i Hi; [done|].
  cbn [part_of]. simpl in Hi. rewrite filter_cons, length_app, IH by lia.
  destruct (Z.eqb_spec h n) as [->|Hn].
  - destruct (decide (n = n)); [|done]. rewrite block_part_length by lia. simpl. lia.
  - destruct (decide (h = n)); [done|]. done.
Qed.

(** What is left to fill of a buffer is overwritten from its front. *)
Lemma write_next (pre src rest : bytes) m :
  length src = m -> (m <= length rest)%nat ->
  write_at (pre ++ rest) (strlen pre) src = Ret (pre ++ src ++ drop m rest).
Proof.
  intros <- Hm. unfold write_at, strlen. rewrite length_app.
  destruct (Z.leb_spec 0 (Z.of_nat (length pre))); [|lia].
  destruct (Z.leb_spec (Z.of_nat (length pre) + Z.of_nat (length src)) (Z.of_nat (length pre + length rest)));
    [|lia].
  cbn [andb]. rewrite Nat2Z.id, take_app_length, <- drop_drop, drop_app_length. done.
Qed.

(** [scatter_blocks] writes the part of the server. *)
Lemma scatter_row buf n homes blk i pre :
  1 <= blk -> ((i + length homes) * Z.to_nat BSIZE <= length buf)%nat -> strlen buf < 2 ^ 31 ->
  (length pre <= i * Z.to_nat BSIZE)%nat ->
  scatter_blocks (row_of homes blk n) (Z.of_nat i) (strlen pre) buf
    (pre ++ calloc_zeros (Z.of_nat (length (part_of buf n i homes))))
  = Ret (pre ++ part_of buf n i homes).
Proof.
  intros Hb Hbuf Hsmall. revert blk i pre Hb Hbuf.
  induction homes as [|h homes IH]; intros blk i pre Hb Hbuf Hpre; [done|].
  cbn [row_of scatter_blocks part_of]. simpl in Hbuf.
  destruct (Z.eqb_spec h n) as [->|Hn].
  - destruct (Z.ltb_spec 0 blk); [|lia]. rewrite block_part_read by lia. cbn [obind].
    pose proof (block_part_length buf i ltac:(lia)) as Hl.
    rewrite length_app, Hl.
    rewrite (write_next _ _ _ (Z.to_nat BSIZE)) by (done || unfold calloc_zeros; rewrite repeat_length; lia).
    cbn [obind]. replace (Z.of_nat i + 1) with (Z.of_nat (S i)) by lia.
    assert (strlen (pre ++ block_part buf i) = strlen pre + BSIZE) as Hsum.
    { rewrite strlen_app. unfold strlen at 2. rewrite Hl. lia. }
    rewrite i32_small by (unfold strlen in *; lia). rewrite <- Hsum, !app_assoc.
    rewrite <- (IH (blk + 1) (S i) (pre ++ block_part buf i)) by (rewrite ?length_app; lia).
    f_equal. f_equal. unfold calloc_zeros. rewrite !Nat2Z.id, repeat_app, drop_app_length'; [done|].
    by rewrite repeat_length.
  - destruct (Z.ltb_spec 0 0); [lia|]. cbn [app]. replace (Z.of_nat i + 1) with (Z.of_nat (S i)) by lia.
    apply IH; lia.
Qed.

Lemma server_buffer_part buf homes blk n :
  1 <= blk -> (length homes * Z.to_nat BSIZE <= length buf)%nat -> strlen buf < 2 ^ 31 ->
  server_buffer buf (row_of homes blk n) = Ret (part_of buf n 0 homes).
Proof.
  intros Hb Hbuf Hs. unfold server_buffer. rewrite amount_row by done.
  pose proof (scatter_row buf n homes blk 0 [] Hb ltac:(done) Hs ltac:(simpl; lia)) as Hrun.
  rewrite part_of_length in Hrun by done. cbn [app] in Hrun. rewrite <- Hrun.
  change (strlen []) with 0. change (Z.of_nat 0) with 0. f_equal. unfold calloc_zeros. f_equal. nia.
Qed.

Lemma server_buffers_parts buf N blk homes :
  1 <= blk -> (length homes * Z.to_nat BSIZE <= length buf)%nat -> strlen buf < 2 ^ 31 ->
  server_buffers buf (rows_of N blk homes) = Ret ((fun n => part_of buf (Z.of_nat n) 0 homes) <$> seq 0 N).
Proof.
  intros Hb Hbuf Hs. unfold rows_of. generalize 0%nat at 1 3. induction N as [|N IH]; intros a; [done|].
  cbn [seq fmap list_fmap server_buffers]. rewrite server_buffer_part by done. cbn [obind].
  by rewrite IH.
Qed.

(** Only the home of a block contributes to it. *)
Lemma gather_servers_home size sz so total i cur_blk end_blk l server h row src g :
  l !! h = Some (row, src) -> row !! Z.to_nat i = Some cur_blk ->
  (forall n row' src', n <> h -> l !! n = Some (row', src') -> row' !! Z.to_nat i <> Some cur_blk) ->
  gather_servers size sz so total i cur_blk end_blk server l g
  = gather_block size sz so total cur_blk end_blk (server + h) src g.
Proof.
  revert server h g. induction l as [|[r s] l IH]; intros server h g Hl Hrow Hother; [done|].
  assert (forall l' server' g', (forall n row' src', l' !! n = Some (row', src') -> row' !! Z.to_nat i <> Some cur_blk) ->
    gather_servers size sz so total i cur_blk end_blk server' l' g' = Ret g') as Hnone.
  { clear. intros l'. induction l' as [|[r s] l' IH]; intros server' g' Hn; [done|].
    cbn [gather_servers]. rewrite bool_decide_eq_false_2 by apply (Hn 0%nat r s eq_refl). cbn [obind].
    apply IH. intros n. apply (Hn (S n)). }
  destruct h as [|h]; cbn [gather_servers].
  - injection Hl as -> ->. rewrite bool_decide_eq_true_2 by done. rewrite Nat.add_0_r.
    destruct (gather_block _ _ _ _ _ _ _ _ _) as [g'| |]; [|done..]. cbn [obind].
    apply Hnone. intros n row' src' Hn. by apply (Hother (S n) row' src').
  - rewrite bool_decide_eq_false_2 by by apply (Hother 0%nat r s). cbn [obind].
    rewrite (IH (S server) h g Hl Hrow).
    + f_equal. lia.
    + intros n row' src' Hne. apply (Hother (S n)). lia.
Qed.

(** The state after [i] blocks. *)
Definition gathered (buf out : bytes) (homes : list Z) (N i : nat) : gstate :=
  mkG (bool_decide (i = 0%nat)) ((fun n => strlen (part_of buf (Z.of_nat n) 0 (take i homes))) <$> seq 0 N)
    (Z.of_nat (i * Z.to_nat BSIZE)) (take (i * Z.to_nat BSIZE) buf ++ drop (i * Z.to_nat BSIZE) out).

Lemma read_middle (a b c : bytes) : read_at (a ++ b ++ c) (strlen a) (strlen b) = Ret b.
Proof.
  unfold read_at, strlen. rewrite !length_app.
  destruct (Z.leb_spec 0 (Z.of_nat (length a))); [|lia]. destruct (Z.leb_spec 0 (Z.of_nat (length b))); [|lia].
  destruct (Z.leb_spec (Z.of_nat (length a) + Z.of_nat (length b))
    (Z.of_nat (length a + (length b + length c)))); [|lia].
  cbn [andb]. by rewrite !Nat2Z.id, drop_app_length, take_app_length.
Qed.

Lemma gather_copy_block buf out homes N i h :
  homes !! i = Some (Z.of_nat h) -> (h < N)%nat -> (length homes * Z.to_nat BSIZE = length buf)%nat ->
  length out = length buf ->
  gather_copy h (part_of buf (Z.of_nat h) 0 homes) (strlen (part_of buf (Z.of_nat h) 0 (take i homes))) BSIZE
    (gathered buf out homes N i)
  = Ret (gathered buf out homes N (S i)).
Proof.
  intros Hi Hh Hbuf Hout. pose proof (lookup_lt_Some _ _ _ Hi) as Hlt.
  assert ((S i * Z.to_nat BSIZE <= length buf)%nat) as Hroom by nia.
  pose proof (block_part_length buf i Hroom) as Hl.
  assert (strlen (block_part buf i) = BSIZE) as Hl' by (unfold strlen; lia).
  assert (forall n, part_of buf (Z.of_nat n) 0 (take (S i) homes)
            = part_of buf (Z.of_nat n) 0 (take i homes) ++ (if decide (n = h) then block_part buf i else [])) as Hnext.
  { intros n. rewrite (take_S_r _ _ _ Hi), part_of_app. cbn [part_of]. rewrite length_take_le, app_nil_r by lia.
    f_equal. destruct (decide (n = h)) as [->|Hn]; [by rewrite Z.eqb_refl|].
    destruct (Z.eqb_spec (Z.of_nat h) (Z.of_nat n)); [lia|done]. }
  unfold gather_copy. rewrite <- (take_drop_middle homes i _ Hi) at 1.
  rewrite part_of_app. cbn [part_of]. rewrite Z.eqb_refl, length_take_le by lia. rewrite <- Hl' at 1.
  rewrite read_middle. cbn [obind gathered g_buf byte_count byte_count_servers].
  assert (length (take (i * Z.to_nat BSIZE) buf) = i * Z.to_nat BSIZE)%nat as Htk by (rewrite length_take; lia).
  replace (Z.of_nat (i * Z.to_nat BSIZE)) with (strlen (take (i * Z.to_nat BSIZE) buf)) at 1
    by (unfold strlen; lia).
  rewrite (write_next _ _ _ (Z.to_nat BSIZE)) by (done || rewrite length_drop; lia). cbn [obind].
  unfold gathered. f_equal. f_equal.
  - apply list_eq. intros n. destruct (decide (n < N)%nat) as [Hn|Hn].
    + destruct (decide (n = h)) as [->|Hne].
      * rewrite list_lookup_alter_eq, !list_lookup_fmap, lookup_seq_lt by lia. simpl. f_equal.
        rewrite Hnext, strlen_app, decide_True by done. lia.
      * rewrite list_lookup_alter_ne, !list_lookup_fmap, lookup_seq_lt by lia. simpl. f_equal.
        by rewrite Hnext, decide_False, app_nil_r.
    + rewrite !lookup_ge_None_2; [done| |]; rewrite ?length_alter, length_fmap, length_seq; lia.
  - lia.
  - rewrite drop_drop, app_assoc. unfold block_part. rewrite take_take_drop.
    do 2 f_equal; lia.
Qed.

Lemma gather_home_block buf out homes N blk i h :
  homes !! i = Some (Z.of_nat h) -> (h < N)%nat -> (length homes * Z.to_nat BSIZE = length buf)%nat ->
  length out = length buf -> strlen buf < 2 ^ 31 ->
  gather_block (strlen buf) (strlen buf) 0 (Z.of_nat (length homes)) (blk + Z.of_nat i)
    (blk + Z.of_nat (length homes) - 1) h (part_of buf (Z.of_nat h) 0 homes) (gathered buf out homes N i)
  = Ret (gathered buf out homes N (S i)).
Proof.
  intros Hi Hh Hbuf Hout Hs. pose proof (lookup_lt_Some _ _ _ Hi) as Hlt.
  rewrite <- (gather_copy_block buf out homes N i h) by done. unfold gather_block.
  assert (default 0 (byte_count_servers (gathered buf out homes N i) !! h)
          = strlen (part_of buf (Z.of_nat h) 0 (take i homes))) as ->.
  { cbn [gathered byte_count_servers]. rewrite list_lookup_fmap, lookup_seq_lt by lia. done. }
  cbn [gathered g_first byte_count]. pose proof (strlen_nonneg buf).
  destruct (decide (i = 0%nat)) as [->|Hi0].
  - rewrite bool_decide_eq_true_2 by done. rewrite Z.sub_0_r, !u64_small by lia.
    destruct (Z.ltb_spec (strlen buf) (strlen buf)); [lia|]. cbn [andb].
    destruct (Z.ltb_spec (strlen buf) BSIZE); [unfold strlen in *; nia|]. by rewrite Z.sub_0_r.
  - rewrite bool_decide_eq_false_2 by done.
    destruct (Z.eqb_spec (blk + Z.of_nat i) (blk + Z.of_nat (length homes) - 1)) as [He|He]; [|done].
    cbn [negb]. f_equal. unfold strlen. nia.
Qed.

Lemma gather_blocks_all buf out homes N blk k i :
  1 <= blk -> (i + k = length homes)%nat -> Forall (fun h => 0 <= h < Z.of_nat N) homes ->
  (length homes * Z.to_nat BSIZE = length buf)%nat -> length out = length buf -> strlen buf < 2 ^ 31 ->
  gather_blocks k (strlen buf) (strlen buf) 0 (Z.of_nat (length homes)) (Z.of_nat i) (blk + Z.of_nat i)
    (blk + Z.of_nat (length homes) - 1)
    (zip (rows_of N blk homes) ((fun n => part_of buf (Z.of_nat n) 0 homes) <$> seq 0 N))
    (gathered buf out homes N i)
  = Ret (gathered buf out homes N (length homes)).
Proof.
  intros Hb Hik Hhomes Hbuf Hout Hs. revert i Hik.
  induction k as [|k IH]; intros i Hik; cbn [gather_blocks]; [by rewrite <- Hik, Nat.add_0_r|].
  destruct (lookup_lt_is_Some_2 homes i) as [h Hi]; [lia|].
  pose proof (Forall_lookup_1 _ _ _ _ Hhomes Hi) as Hh. simpl in Hh.
  assert (forall n, (n < N)%nat ->
    zip (rows_of N blk homes) ((fun n => part_of buf (Z.of_nat n) 0 homes) <$> seq 0 N) !! n
    = Some (row_of homes blk (Z.of_nat n), part_of buf (Z.of_nat n) 0 homes)) as Hz.
  { intros n Hn. unfold rows_of. rewrite lookup_zip_with, !list_lookup_fmap, lookup_seq_lt by lia. done. }
  rewrite (gather_servers_home _ _ _ _ _ _ _ _ 0 (Z.to_nat h) (row_of homes blk h) (part_of buf h 0 homes)).
  - rewrite <- (Z2Nat.id h) in Hi |- * by lia. rewrite Nat2Z.id. cbn [Nat.add].
    rewrite gather_home_block by (done || lia). cbn [obind].
    replace (Z.of_nat i + 1) with (Z.of_nat (S i)) by lia.
    replace (blk + Z.of_nat i + 1) with (blk + Z.of_nat (S i)) by lia. apply IH. lia.
  - rewrite Hz by lia. by rewrite Z2Nat.id by lia.
  - rewrite Nat2Z.id. by apply row_of_lookup.
  - intros n row' src' Hne Hl. rewrite Nat2Z.id. intros Hr.
    destruct (decide (n < N)%nat) as [Hn|Hn].
    + rewrite Hz in Hl by done. injection Hl as <- <-. apply row_of_lookup in Hr; [|done].
      rewrite Hi in Hr. injection Hr as ->. lia.
    + rewrite lookup_ge_None_2 in Hl; [done|]. unfold rows_of.
      rewrite length_zip_with, !length_fmap, length_seq. lia.
Qed.
End scatter_gather.

(** ** What the modes do *)

Section session.
Context (stack : bytes) (e : env) (u : bytes) (di : dataset_info) (im : imss_info) (IMSS_BLKSIZE : Z).
Context (FS : file_session stack e u di im).

Lemma scan_tail_word_rest size off k w r :
  w <> [] -> no_space w -> strlen w < URI_ ->
  exists n, scan_tail size off k (sp :: w ++ sp :: r) = Ret (mkReq size off k w n).
Proof.
  intros Hne Hw Hl. unfold scan_tail, scan_str. rewrite scan_s_sp by done.
  destruct (Z.ltb_spec (strlen w) URI_); [|lia]. cbn [obind]. by eexists.
Qed.

(** A word before the space of the tail. *)
Lemma parse_word m a b w r :
  m <> [] -> no_space m -> strlen m < MODE_SIZE -> 0 <= a < 2 ^ 32 -> 0 <= b < 2 ^ 32 ->
  w <> [] -> no_space w -> strlen w < URI_ ->
  exists n, parse_request true (m ++ sp :: print_u a ++ sp :: print_u b ++ sp :: w ++ sp :: r)
    = Ret (m, mkReq a b (-1) w n).
Proof.
  intros. rewrite parse_default by done. destruct (scan_tail_word_rest a b (-1) w r) as [n ->]; try done. by exists n.
Qed.

Lemma order_replicas_in_range k i n l :
  0 <= n < num_storages im -> 0 <= i -> i + Z.of_nat k <= repl_factor di ->
  Forall (fun x => 0 <= x < num_storages im) l ->
  exists l', order_replicas k i n (num_storages im) di l = Ret l' /\
    Forall (fun x => 0 <= x < num_storages im) l' /\ length l' = (length l + k)%nat.
Proof.
  intros Hn. revert i l. induction k as [|k IH]; intros i l Hi Hk Hl; cbn [order_replicas].
  - exists l. split; [done|]. split; [done|]. lia.
  - destruct (replica_range stack e u di im FS n i Hn) as (r & -> & Hr & _); [lia|]. cbn [obind].
    match goal with |- exists l', order_replicas _ _ _ _ _ ?l2 = _ /\ _ =>
      destruct (IH (i + 1) l2) as (l' & Hrun & Hf & Hlen); [lia|lia| |exists l'; split; [exact Hrun|]; split; [done|]] end.
    + destruct l as [|a l]; [by constructor|]. apply Forall_cons in Hl as [Ha Hl].
      destruct (r =? local_conn di); [|apply Forall_app; split; [by constructor|by constructor]].
      constructor; [done|]. apply Forall_app. by split; [|constructor].
    + rewrite Hlen. destruct l as [|a l]; simpl; [done|].
      destruct (r =? local_conn di); simpl; rewrite length_app; simpl; lia.
Qed.

(** The replicas of a block include a server that exists. *)
Lemma first_replica w n :
  world_ok e u di im w -> 0 <= n < num_storages im ->
  exists a rest s, order_replicas (Z.to_nat (repl_factor di)) 0 n (num_storages im) di [] = Ret (a :: rest) /\
    0 <= a /\ servers w !! Z.to_nat a = Some s /\ server_ok e u s.
Proof.
  intros (_ & _ & _ & Hlen & Hall) Hn. pose proof (fs_repl _ _ _ _ _ FS) as Hr.
  destruct (order_replicas_in_range (Z.to_nat (repl_factor di)) 0 n [] Hn) as (l & Hrun & Hf & Hl);
    [lia|lia|by constructor|].
  destruct l as [|a rest]; [simpl in Hl; lia|]. apply Forall_cons in Hf as [Ha _].
  destruct (lookup_lt_is_Some_2 (servers w) (Z.to_nat a)) as [s Hs]; [lia|].
  exists a, rest, s. split; [done|]. split; [lia|]. split; [done|]. by eapply Forall_lookup_1.
Qed.

(** *** Reads of several blocks *)

Lemma int_fields_word n w z : " "%char ∉ w -> stoi w = Some z -> int_fields n w = Some (repeat z n).
Proof.
  intros Hw Hz. induction n as [|n IH]; [done|]. cbn [int_fields]. unfold next_field.
  apply strchr_None in Hw. by rewrite Hw, Hz, IH.
Qed.

Lemma stoi_print_u id : 0 <= id < 2 ^ 31 -> stoi (print_u id) = Some id.
Proof.
  intros Hid. unfold stoi. pose proof (scan_d_print id [] ltac:(lia) Logic.I) as Hs.
  rewrite app_nil_r in Hs. change (scan_d (sp :: print_u id)) with (scan_d (print_u id)) in Hs. rewrite Hs.
  destruct (Z.leb_spec (- 2 ^ 31) id); [|lia]. destruct (Z.ltb_spec id (2 ^ 31)); [done|lia].
Qed.

(** A server looks for one block, in a map that holds none. *)
Lemma server_vread s blk end_blk so n :
  server_ok e u s -> 1 <= blk < 2 ^ 31 - 1 ->
  exists r b, srv_worker_helper (with_payload [] e) (vread_request u blk end_blk IMSS_BLKSIZE so n) s
    = Ret (r, [Msg err_code; Data b], s).
Proof.
  intros (_ & Hm & _) Hb. unfold vread_request.
  change (B "GET 8 0" ++ ?r) with (B "GET" ++ sp :: print_u 8 ++ sp :: print_u 0 ++ r).
  rewrite get_line by done.
  destruct (block_key_wire u blk (fs_wire _ _ _ _ _ FS) ltac:(lia)) as (Hne & Hsp & Hl).
  destruct (parse_word (B "GET") 8 0 (block_key u blk)
    (print_d end_blk ++ sp :: print_d (i64 IMSS_BLKSIZE) ++ sp :: print_d so ++ sp :: print_d n))
    as (m & ->); try done; [by repeat constructor|]. cbn [obind].
  change (read_op (with_payload [] e) false (mkReq 8 0 (-1) (block_key u blk) m) s)
    with (readv_op (with_payload [] e) (mkReq 8 0 (-1) (block_key u blk) m) s).
  unfold readv_op. cbn [key]. unfold block_key.
  destruct (fs_name _ _ _ _ _ FS) as (_ & _ & Hd). rewrite strchr_app_first by done.
  replace (drop (S (length u)) (u ++ dollar :: print_d blk)) with (print_u blk).
  2: { rewrite print_d_u by lia. replace (S (length u)) with (length u + 1)%nat by lia.
       rewrite <- drop_drop, drop_app_length. done. }
  rewrite (int_fields_word 5 _ blk (print_u_no " "%char blk eq_refl ltac:(lia)) (stoi_print_u blk ltac:(lia))).
  cbn [repeat]. cbn [with_payload send_ok malloc]. rewrite (fs_send _ _ _ _ _ FS). cbn [negb]. rewrite andb_false_r.
  destruct (Z.leb_spec blk blk); [|lia]. destruct (Z.eqb_spec blk (2 ^ 31 - 1)); [lia|]. cbn [andb].
  destruct (fs_memory _ _ _ _ _ FS (u64 blk)) as [b Hmal]; [apply u64_range|]. rewrite Hmal.
  replace (Z.to_nat (blk - blk + 1)) with 1%nat by lia. by eexists _, b.
Qed.

Lemma readv_multiple_overwrites (w : world) (blk end_blk so n : Z) :
  world_ok e u di im w -> block_no im blk -> blk < 2 ^ 31 - 1 ->
  readv_multiple stack e IMSS_BLKSIZE u blk end_blk so n w = Undef OutOfBounds.
Proof.
  intros Hw Hblk Hmax. pose proof Hblk as [Hb1 Hb2]. pose proof Hw as (Hin & _).
  destruct (home_spec stack e u di im FS blk GET (block_numbered im _ Hblk)) as [_ Hh].
  unfold readv_multiple. rewrite (location_ok stack e u di im FS) by (done || by apply block_numbered).
  cbn [obind]. destruct (Z.eqb_spec (home stack di im blk) (-1)); [lia|].
  destruct (first_replica w _ Hw Hh) as (a & rest & s & -> & Ha & Hs & Hok). cbn [obind ask_first].
  rewrite (fs_send _ _ _ _ _ FS). cbn [negb]. unfold deliver. destruct (Z.ltb_spec a 0); [lia|].
  rewrite Hs, (fs_uri _ _ _ _ _ FS).
  destruct (server_vread s blk end_blk so n Hok) as (r & b & ->); [lia|]. cbn [obind].
  unfold await_reply, receive. cbn [inbox]. rewrite Hin. reflexivity.
Qed.

(** A read of several blocks never returns data: inside an open file the
    server answers, and the answer is received over the pointer to the buffer
    on the stack of the client instead of into the buffer. *)
Theorem vectored_read_overwrites_stack {ops : BlockOps world} (dceil : Z -> Z -> Z) (buf : bytes)
  (size off fd : Z) (st : stat) (f : fstate world)
  (Hdc : forall x b, 0 <= x < 2 ^ 53 -> 0 < b < 2 ^ 53 -> dceil x b = (x + b - 1) / b)
  (HB : 0 < BSIZE < 2 ^ 53) (Hw : world_ok e u di im (svc f)) (Hu : get_iuri u = u) (Hl : strlen u < rpath_room)
  (Hfile : files f !! u = Some (fd, st)) (Hfd : fd <> -2)
  (Hoff : 0 <= off) (Hsize : 0 < size <= strlen buf) (Hin : off + size <= st_size st) (Hst : st_size st < 2 ^ 53)
  (Hblk : num_storages im + ((off + size - 1) / BSIZE + 1) < 2 ^ 31) :
  imss_vread_no_prefetch stack e IMSS_BLKSIZE dceil u buf size off f = Undef OutOfBounds.
Proof.
  pose proof (fs_servers _ _ _ _ _ FS). unfold imss_vread_no_prefetch, vread_prepare.
  destruct (Z.eqb_spec BSIZE 0); [lia|]. rewrite Hu. destruct (Z.leb_spec rpath_room (strlen u)); [lia|].
  unfold fd_lookup. rewrite Hfile. destruct (Z.eqb_spec fd (-2)); [done|].
  unfold write_at at 1, calloc_zeros. unfold strlen at 1. rewrite repeat_length.
  destruct (Z.leb_spec (0 + Z.of_nat (Z.to_nat size)) (strlen buf)); [|lia]. cbn [Z.leb andb obind].
  change (0 <=? 0) with true. cbn [andb obind].
  rewrite (u64_small off), (u64_small (st_size st)) by lia.
  destruct (Z.ltb_spec (st_size st) size); [lia|]. cbn [andb]. rewrite (u64_small (off + size)) by lia.
  rewrite Hdc by lia.
  assert (off mod BSIZE <= off) by (apply Z.mod_le; lia).
  destruct (Z.leb_spec (st_size st) (off mod BSIZE)); [lia|]. cbn [obind].
  assert (0 <= off / BSIZE) as Hq by (apply Z.div_pos; lia).
  assert ((off + size + BSIZE - 1) / BSIZE = (off + size - 1) / BSIZE + 1) as ->.
  { replace (off + size + BSIZE - 1) with (off + size - 1 + 1 * BSIZE) by lia. apply Z.div_add. lia. }
  assert (off / BSIZE <= (off + size - 1) / BSIZE) by (apply Z.div_le_mono; lia).
  destruct (Z.ltb_spec ((off + size - 1) / BSIZE + 1) (off / BSIZE + 1)); [lia|].
  rewrite !i32_small by lia. rewrite readv_multiple_overwrites; [done|done|split; lia|lia].
Qed.

(** *** Split reads and writes *)

(** A server that is asked for its blocks of a file does not answer: the path
    [%s] reads has no space, and the list is looked for behind one. The client
    polls for ever, with [lock_network] held. *)
Theorem split_read_never_answered (w : world) (server so st_ : Z) (msg : bytes)
  (Hw : world_ok e u di im w) (Hserver : 0 <= server < num_storages im) :
  split_readv e IMSS_BLKSIZE server di im u msg so st_ w = Undef Deadlock.
Proof.
  pose proof Hw as (Hin & _). unfold split_readv.
  destruct (first_replica w server Hw Hserver) as (a & rest & s & -> & Ha & Hs & Hok). cbn [obind ask_first].
  rewrite (fs_send _ _ _ _ _ FS). cbn [negb]. unfold deliver. destruct (Z.ltb_spec a 0); [lia|]. rewrite Hs.
  unfold split_read_request.
  change (B "GET 9 0" ++ ?r) with (B "GET" ++ sp :: print_u 9 ++ sp :: print_u 0 ++ r).
  destruct Hok as (_ & Hm & _). rewrite get_line by done.
  destruct (fs_wire _ _ _ _ _ FS) as [Hsp Hl].
  assert (u <> []) as Hne.
  { destruct (fs_name _ _ _ _ _ FS) as ([p ->] & _). unfold IMSS_ROOT. by intros [=]. }
  destruct (parse_word (B "GET") 9 0 u
    (print_d (i64 IMSS_BLKSIZE) ++ sp :: print_d so ++ sp :: print_d st_ ++ sp :: print_d (strlen msg + 1)))
    as (m & ->); try done; [by repeat constructor|lia|]. cbn [obind].
  change (read_op (with_payload (msg ++ ["000"%char]) e) false (mkReq 9 0 (-1) u m) s)
    with (split_readv_op (with_payload (msg ++ ["000"%char]) e) (mkReq 9 0 (-1) u m) s).
  unfold split_readv_op. cbn [key].
  assert (strchr " "%char u = None) as ->.
  { apply strchr_None. intros Hi. unfold no_space in Hsp. rewrite Forall_forall in Hsp. by specialize (Hsp _ Hi). }
  cbn [obind]. unfold await_reply, receive. cbn [inbox]. by rewrite Hin.
Qed.

(** A server that is sent its blocks of a file takes [[OP]=2] for the name of
    the block, which is shorter than the root: the search for the parent
    directory runs out of the name. *)
Theorem split_write_crashes_server (w : world) (server so st_ : Z) (msg data : bytes)
  (Hw : world_ok e u di im w) (Hserver : 0 <= server < num_storages im)
  (Hentity : 0 <= data_entity_size di < 2 ^ 32) :
  split_writev e (Z.to_nat (repl_factor di)) 0 server di im
    (split_write_request (data_entity_size di) u IMSS_BLKSIZE so st_ msg) data w = Undef OutOfBounds.
Proof.
  pose proof (fs_repl _ _ _ _ _ FS). destruct (Z.to_nat (repl_factor di)) as [|k] eqn:Hk; [lia|].
  cbn [split_writev]. destruct (replica_range stack e u di im FS server 0 Hserver) as (a & -> & Ha & _); [lia|].
  cbn [obind]. rewrite (fs_send _ _ _ _ _ FS). cbn [negb]. unfold deliver. destruct (Z.ltb_spec a 0); [lia|].
  destruct (lookup_lt_is_Some_2 (servers w) (Z.to_nat a)) as [s Hs].
  { destruct Hw as (_ & _ & _ & Hlen & _). lia. }
  rewrite Hs. unfold split_write_request. rewrite print_d_u by lia.
  change (sp :: B "0" ++ ?r) with (sp :: print_u 0 ++ r). rewrite set_line by done.
  destruct (parse_word (B "SET") (data_entity_size di) 0 (B "[OP]=2")
    (u ++ sp :: print_d (i64 IMSS_BLKSIZE) ++ sp :: print_d so ++ sp :: print_d st_ ++ sp :: msg))
    as (m & ->); [done|by repeat constructor|done|lia|lia|done|by repeat constructor|done|]. cbn [obind].
  unfold write_op, HierarchicalMapGet, get_child_unsafe. cbn [key].
  assert (parent_dir (B "[OP]=2") = Undef OutOfBounds) as -> by by vm_compute. reflexivity.
Qed.
End session.

(** The parts that a split write sends to the servers, had they been
    stored and read back, are put together to the buffer again by a split read:
    for every number of servers and every location of the blocks, when the
    buffer is whole blocks of a file that starts with it. *)
Theorem split_blocks_return (stack : bytes) (e : env) (u : bytes) (di : dataset_info) (im : imss_info)
  {ops : BlockOps world} (w : world) (blk : Z) (k : nat) (buf out : bytes)
  (FS : file_session stack e u di im) (Hw : world_ok e u di im w) (HB : 0 < BSIZE)
  (Hblk : 1 <= blk) (Hmax : num_storages im + blk + Z.of_nat k <= 2 ^ 31) (Hk : (0 < k)%nat)
  (Hbuf : strlen buf = Z.of_nat k * BSIZE) (Hsmall : strlen buf < 2 ^ 31) (Hout : length out = length buf) :
  let last := blk + Z.of_nat k - 1 in
  exists rows bufs g,
    list_servers stack (num_storages im) u (strlen buf) blk last w = Ret (rows, Some (di, im), w) /\
    server_buffers buf rows = Ret bufs /\
    gather_blocks k (strlen buf) (strlen buf) 0 (Z.of_nat k) 0 blk last (zip rows bufs)
      (mkG true (repeat 0 (Z.to_nat (num_storages im))) 0 out) = Ret g /\
    byte_count g = strlen buf /\ g_buf g = buf.
Proof.
  intros last. pose proof (fs_servers _ _ _ _ _ FS).
  set (N := Z.to_nat (num_storages im)). set (hs := homes stack di im blk k).
  assert (length hs = k) as Hhs by apply homes_length.
  assert ((length hs * Z.to_nat BSIZE = length buf)%nat) as Hlen by (unfold strlen in *; rewrite Hhs; nia).
  assert (Forall (fun h => 0 <= h < Z.of_nat N) hs) as Hrange.
  { apply Forall_fmap, Forall_forall. intros i Hi. apply elem_of_seq in Hi. simpl.
    destruct (home_spec stack e u di im FS (blk + Z.of_nat i) GET) as [_ Hh]; [unfold numbered; lia|].
    unfold N. lia. }
  exists (rows_of N blk hs), ((fun n => part_of buf (Z.of_nat n) 0 hs) <$> seq 0 N),
    (gathered buf out hs N k).
  split; [|split; [|split; [|split]]].
  - apply (list_servers_ok stack e u di im FS); try done. rewrite Hbuf. nia.
  - apply server_buffers_parts; (done || lia).
  - pose proof (gather_blocks_all HB buf out hs N blk k 0 Hblk ltac:(lia) Hrange Hlen Hout Hsmall) as Hg.
    rewrite Hhs in Hg. change (Z.of_nat 0) with 0 in Hg. rewrite Z.add_0_r in Hg. rewrite <- Hg.
    f_equal. unfold gathered. rewrite Nat.mul_0_l, take_0, drop_0. cbn [app].
    f_equal. apply list_eq. intros n. rewrite list_lookup_fmap.
    destruct (decide (n < N)%nat) as [Hn|Hn].
    + rewrite lookup_seq_lt by lia. cbn [fmap option_fmap option_map].
      clear Hg Hrange. revert n Hn. induction N as [|N' IH]; intros [|n] Hn; [lia|lia|done|].
      apply (IH n). lia.
    + rewrite (lookup_ge_None_2 (seq 0 N)) by (rewrite length_seq; lia).
      by rewrite lookup_ge_None_2 by (rewrite repeat_length; lia).
  - cbn [gathered byte_count]. rewrite <- Hhs. unfold strlen. lia.
  - cbn [gathered g_buf]. rewrite <- Hhs, Hlen, take_ge, drop_ge by lia. by rewrite app_nil_r.
Qed.

(** ** Examples: blocks of 4 bytes on two servers *)

Abbreviation small_ops := (client_ops [] (big_env 4) (fun _ => -1) 0 cluster_file).

Lemma split_blocks_return_witness :
  exists rows bufs g,
    @list_servers [] 2 cluster_file 12 1 3 (cluster 1) = Ret (rows, Some (cluster_info 1, cluster_imss), cluster 1) /\
    @server_buffers small_ops (B "hello world.") rows = Ret bufs /\
    @gather_blocks small_ops 3 12 12 0 3 0 1 3 (zip rows bufs) (mkG true [0; 0] 0 (B "............")) = Ret g /\
    byte_count g = 12 /\ g_buf g = B "hello world.".
Proof.
  apply (@split_blocks_return [] (big_env 4) cluster_file (cluster_info 1) cluster_imss small_ops (cluster 1) 1 3
    (B "hello world.") (B "............")).
  - apply cluster_session; lia.
  - apply cluster_ok.
  - reflexivity.
  - lia.
  - vm_compute. discriminate.
  - lia.
  - reflexivity.
  - reflexivity.
  - reflexivity.
Defined.

Lemma vectored_read_overwrites_stack_witness :
  @imss_vread_no_prefetch [] (big_env 4) 1 small_ops div_up cluster_file (B "............") 7 2
    (cluster_state 12 (cluster 2)) = Undef OutOfBounds.
Proof.
  apply (@vectored_read_overwrites_stack [] (big_env 4) cluster_file (cluster_info 2) cluster_imss 1
    (cluster_session 4 2 ltac:(lia) ltac:(lia)) small_ops div_up (B "............") 7 2 0 (mkStat 12 0 1 33188)
    (cluster_state 12 (cluster 2))).
  - intros x b _ _. reflexivity.
  - simpl. lia.
  - apply cluster_ok.
  - reflexivity.
  - reflexivity.
  - apply cluster_file_state.
  - lia.
  - lia.
  - vm_compute. split; [reflexivity|discriminate].
  - simpl. lia.
  - simpl. lia.
  - reflexivity.
Defined.

Lemma split_read_never_answered_witness :
  split_readv (big_env 4) 1 0 (cluster_info 2) cluster_imss cluster_file (B "2$1$3") 0 12 (cluster 2) = Undef Deadlock.
Proof.
  apply (split_read_never_answered [] (big_env 4) cluster_file (cluster_info 2) cluster_imss 1
    (cluster_session 4 2 ltac:(lia) ltac:(lia)) (cluster 2) 0 0 12 (B "2$1$3")); [apply cluster_ok|simpl; lia].
Defined.

Lemma split_write_crashes_server_witness :
  split_writev (big_env 4) 2 0 0 (cluster_info 2) cluster_imss
    (split_write_request 4 cluster_file 1 0 12 (B "2$1$3")) (B "hellorld") (cluster 2) = Undef OutOfBounds.
Proof.
  apply (split_write_crashes_server [] (big_env 4) cluster_file (cluster_info 2) cluster_imss 1
    (cluster_session 4 2 ltac:(lia) ltac:(lia)) (cluster 2) 0 0 12 (B "2$1$3") (B "hellorld"));
    [apply cluster_ok|simpl; lia|simpl; lia].
Defined.

(** With an offset inside the first block the counter of its server falls
    behind the block, so the next block of the same server is taken from the
    wrong place: bytes 1 to 7 of [abcdefgh] come out shifted. *)
Theorem gather_offset_shifts :
  exists g, @gather_blocks small_ops 2 7 8 1 2 0 1 2 [([1; 2], B "abcdefgh")] (mkG true [0] 0 (B "......."))
    = Ret g /\ byte_count g = 7 /\ g_buf g = B "bcddefg".
Proof. eexists. split; [vm_compute; reflexivity|]. by split. Qed.

(** Whole blocks are copied to the servers, also behind the end of the
    caller's buffer. *)
Theorem scatter_reads_past_buffer :
  @server_buffer small_ops (B "hello") [1; 2] = Undef OutOfBounds.
Proof. by vm_compute. Qed.
