(* ===== verification/PrefetchMap.v ===== *)
(** * The map of prefetched buffers and the reads that use it

    src/fuse/mapprefetch.cpp, a map from files to a range of blocks and a
    buffer; [imss_vread_prefetch], [imss_vread_2x] and the choice of a read
    mode in [imss_read] (src/fuse/imss_posix_api.c); [prefetch_function]
    (src/tools/imss_posix.c).  The reads with several blocks are those of
    Vectored.v.  The prefetched blocks of the default read mode are in
    Prefetch.v. *)

From S2P Require Import Prelude Types Policies Paths Store MetaStore DataServer Wire Sessions Client BlockService FileIO EndToEnd Vectored.

(** ** The map *)

(** [struct PrefetchItem]. *)
Record item := mkItem { item_first : Z; item_last : Z; item_buf : bytes }.
Abbreviation MapPrefetch := (gmap bytes item).

Definition map_create_prefetch : MapPrefetch := ∅.

(** The range of blocks and the buffer, [None] for NULL. *)
Definition map_get_buffer_prefetch (path : bytes) (m : MapPrefetch) : option (Z * Z * bytes) :=
  match m !! path with
  | Some i => Some (item_first i, item_last i, item_buf i)
  | None => None
  end.

Definition map_update_prefetch (path : bytes) (first_block last_block : Z) (m : MapPrefetch) : MapPrefetch :=
  match m !! path with
  | Some i => <[path := mkItem first_block last_block (item_buf i)]> m
  | None => m
  end.

Definition map_release_prefetch (path : bytes) (m : MapPrefetch) : MapPrefetch := delete path m.

(** An entry that is there is not replaced; a negative size throws. *)
Definition map_init_prefetch (path : bytes) (buf_size : Z) (m : MapPrefetch) : outcome MapPrefetch :=
  if buf_size <? 0 then Exit ABORTED
  else Ret (match m !! path with
            | Some _ => m
            | None => <[path := mkItem 0 0 (calloc_zeros buf_size)]> m
            end).

(** [m->extract(old)], the new key, [m->insert(node)]: a node whose key is
    taken is dropped. *)
Definition move_item (old new : bytes) (m : MapPrefetch) : outcome MapPrefetch :=
  match m !! old with
  | None => Undef NullDeref
  | Some i =>
      let m := delete old m in
      Ret (match m !! new with Some _ => m | None => <[new := i]> m end)
  end.

Definition map_rename_prefetch (oldname newname : bytes) (m : MapPrefetch) : outcome (Z * MapPrefetch) :=
  let* m := move_item oldname newname m in Ret (1, m).

(** The keys in which [old_dir] occurs, the last one first. *)
Definition keys_below (old_dir : bytes) (m : MapPrefetch) : list bytes :=
  reverse (filter (fun k => is_Some (find_sub old_dir k)) (foldr insert_key [] (map_to_list m).*1)).

(** [key.erase(0, strlen(old_dir) - 1)] behind the new directory. *)
Definition below_new (old_dir rdir_dest key : bytes) : bytes :=
  rdir_dest ++ (match old_dir with [] => [] | _ => drop (length old_dir - 1) key end).

Fixpoint move_items (f : bytes -> bytes) (keys : list bytes) (m : MapPrefetch) : outcome MapPrefetch :=
  match keys with
  | [] => Ret m
  | k :: keys' => let* m := move_item k (f k) m in move_items f keys' m
  end.

Definition map_rename_dir_dir_prefetch (old_dir rdir_dest : bytes) (m : MapPrefetch) : outcome (Z * MapPrefetch) :=
  let* m := move_items (below_new old_dir rdir_dest) (keys_below old_dir m) m in Ret (1, m).

Definition free_prefetch (m : MapPrefetch) : Z * MapPrefetch := (0, ∅).

(** ** The state the readers share with the prefetching thread *)

Definition i16 (x : Z) : Z := (x + 2 ^ 15) mod 2 ^ 16 - 2 ^ 15.

(** [map_prefetch] is NULL until it is created; [prefetch_uri] is never
    assigned. *)
Record prefetcher := mkPrefetcher {
  map_prefetch : option MapPrefetch;
  prefetch_uri : option bytes;
  prefetch_ds : Z;
  prefetch_path : bytes;
  prefetch_first_block : Z;
  prefetch_last_block : Z;
  prefetch_offset : Z;
  PREFETCH : Z
}.

Definition set_map (m : MapPrefetch) (p : prefetcher) : prefetcher :=
  mkPrefetcher (Some m) (prefetch_uri p) (prefetch_ds p) (prefetch_path p) (prefetch_first_block p)
    (prefetch_last_block p) (prefetch_offset p) (PREFETCH p).
Definition set_PREFETCH (n : Z) (p : prefetcher) : prefetcher :=
  mkPrefetcher (map_prefetch p) (prefetch_uri p) (prefetch_ds p) (prefetch_path p) (prefetch_first_block p)
    (prefetch_last_block p) (prefetch_offset p) n.
Definition set_ds (ds : Z) (p : prefetcher) : prefetcher :=
  mkPrefetcher (map_prefetch p) (prefetch_uri p) ds (prefetch_path p) (prefetch_first_block p)
    (prefetch_last_block p) (prefetch_offset p) (PREFETCH p).

Definition the_map (p : prefetcher) : outcome MapPrefetch :=
  match map_prefetch p with Some m => Ret m | None => Undef NullDeref end.

(** The blocks to fetch next: from [first] to [PREFETCH] blocks behind
    [end_blk], in the file. *)
Definition aim (ds : Z) (rpath : bytes) (first end_blk st_blocks_ : Z) (p : prefetcher) : prefetcher :=
  mkPrefetcher (map_prefetch p) (prefetch_uri p) (i16 ds) rpath (i32 first)
    (i32 (if end_blk + PREFETCH p <=? st_blocks_ then end_blk + PREFETCH p else st_blocks_))
    (prefetch_offset p) (PREFETCH p).
Definition set_offset (off : Z) (p : prefetcher) : prefetcher :=
  mkPrefetcher (map_prefetch p) (prefetch_uri p) (prefetch_ds p) (prefetch_path p) (prefetch_first_block p)
    (prefetch_last_block p) (i32 off) (PREFETCH p).

Section reads.
Context (stack : bytes) (e : env) (N_SERVERS IMSS_BLKSIZE : Z).
Context `{BlockOps world} (dceil : Z -> Z -> Z).

(** Copying a block out of the prefetched buffer, from [base] on: the first
    block, a middle one, the last one. The second test for the end of the file
    never holds. *)
Definition copy_block (size st_size_ start_offset curr_blk end_blk base : Z) (first : bool) (aux : bytes)
    (count : Z) (buf : bytes) : outcome (Z * bytes) :=
  let '(from, n) :=
    if first then
      (base + start_offset,
       if size <? u64 (st_size_ - start_offset) then BSIZE - start_offset
       else if u64 st_size_ <? BSIZE then st_size_ - start_offset
       else BSIZE - start_offset)
    else if negb (curr_blk =? end_blk) then (base, BSIZE)
    else (base, size - count) in
  let* part := read_at aux from n in
  let* buf := write_at buf (if first then 0 else count) part in
  Ret (count + n, buf).

(** *** [imss_vread_prefetch] *)

(** [inl]: the function returns from inside the loop. [err] is not initialised
    before the first block is found. *)
Fixpoint vread_prefetch_loop (fuel : nat) (path rpath : bytes) (ds size : Z) (st : stat)
    (start_offset curr_blk end_blk : Z) (first : bool) (err : option Z) (count : Z) (buf : bytes)
    (p : prefetcher) (w : world) : outcome ((Z + Z) * bytes * prefetcher * world) :=
  match fuel with
  | O => Ret (inr count, buf, p, w)
  | S f =>
      if end_blk <? curr_blk then Ret (inr count, buf, p, w)
      else
        let* m := the_map p in
        match map_get_buffer_prefetch rpath m with
        | Some (first_blk, last_blk, aux) =>
            if (first_blk <=? curr_blk) && (curr_blk <=? last_blk) then
              let* (count, buf) := copy_block size (st_size st) start_offset curr_blk end_blk
                                     (BSIZE * i32 (curr_blk - first_blk)) first aux count buf in
              vread_prefetch_loop f path rpath ds size st start_offset (curr_blk + 1) end_blk false (Some 1)
                count buf p w
            else
              let* (ret, w) := readv_multiple stack e IMSS_BLKSIZE path (i32 curr_blk) (i32 end_blk) start_offset
                                 (i64 (if first then size else BSIZE * (end_blk - curr_blk + 1))) w in
              let p := set_offset start_offset (aim ds rpath (end_blk + 1) end_blk (st_blocks st) p) in
              Ret (inl (if ret =? -1 then -1 else i32 size), buf, p, w)
        | None =>
            match err with
            | None => Undef Uninitialised
            | Some err => if err =? -1 then Ret (inl (- ENOENT), buf, p, w) else Undef NullDeref
            end
        end
  end.

Definition imss_vread_prefetch (path buf : bytes) (size offset : Z) (p : prefetcher) (f : fstate world)
  : outcome (Z * bytes * prefetcher * fstate world) :=
  let* (buf, r) := vread_prepare dceil path buf size offset f in
  match r with
  | inl ret => Ret (ret, buf, p, f)
  | inr (ds, st, size, start_offset, curr_blk, end_blk) =>
      let rpath := get_iuri path in
      let* (r, buf, p, w) := vread_prefetch_loop (Z.to_nat (end_blk - curr_blk + 1)) path rpath ds size st
                               start_offset curr_blk end_blk true None 0 buf p (svc f) in
      match r with
      | inl ret => Ret (ret, buf, p, set_svc w f)
      | inr count =>
          Ret (i32 count, buf, set_offset start_offset (aim ds rpath (end_blk + 1) end_blk (st_blocks st) p),
               set_svc w f)
      end
  end.

(** *** [imss_vread_2x] *)

(** A block that is not in the buffer: the rest of the range is read, then the
    blocks behind it, unless there are none. The result of the first read is
    not looked at; the buffer of the second is that of the map. *)
Definition read_ahead (path rpath : bytes) (ds size : Z) (st : stat) (start_offset curr_blk end_blk : Z)
    (first : bool) (p : prefetcher) (w : world) : outcome (Z * prefetcher * world) :=
  let* (_, w) := readv_multiple stack e IMSS_BLKSIZE path (i32 curr_blk) (i32 end_blk) start_offset
                   (i64 (if first then size else IMSS_BLKSIZE * 1024 * (end_blk - curr_blk))) w in
  let p := aim ds rpath (if first then end_blk else end_blk + 1) end_blk (st_blocks st) p in
  if prefetch_last_block p <? prefetch_first_block p then Ret (i32 size, p, w)
  else
    let p := set_offset start_offset p in
    let* m := the_map p in
    let* (err, w) := readv_multiple stack e IMSS_BLKSIZE path (prefetch_first_block p) (prefetch_last_block p)
                       (prefetch_offset p)
                       (i64 (IMSS_BLKSIZE * 1024 * (prefetch_last_block p - prefetch_first_block p))) w in
    let p := set_map (map_update_prefetch (prefetch_path p) (prefetch_first_block p) (prefetch_last_block p) m) p in
    Ret (if err =? -1 then -1 else i32 size, p, w).

Fixpoint vread_2x_loop (fuel : nat) (path rpath : bytes) (ds size : Z) (st : stat)
    (start_offset curr_blk end_blk : Z) (first : bool) (count : Z) (buf : bytes)
    (p : prefetcher) (w : world) : outcome (Z * bytes * prefetcher * world) :=
  match fuel with
  | O => Ret (i32 count, buf, p, w)
  | S f =>
      if end_blk <? curr_blk then Ret (i32 count, buf, p, w)
      else
        let* m := the_map p in
        match map_get_buffer_prefetch rpath m with
        | None => Undef Uninitialised
        | Some (first_blk, last_blk, aux) =>
            if (first_blk <=? curr_blk) && (curr_blk <=? last_blk) then
              let* (count, buf) := copy_block size (st_size st) start_offset curr_blk end_blk
                                     (IMSS_BLKSIZE * 1024 * i32 (curr_blk - first_blk)) first aux count buf in
              vread_2x_loop f path rpath ds size st start_offset (curr_blk + 1) end_blk false count buf p w
            else
              let* (ret, p, w) := read_ahead path rpath ds size st start_offset curr_blk end_blk first p w in
              Ret (ret, buf, p, w)
        end
  end.

Definition imss_vread_2x (path buf : bytes) (size offset : Z) (p : prefetcher) (f : fstate world)
  : outcome (Z * bytes * prefetcher * fstate world) :=
  let* (buf, r) := vread_prepare dceil path buf size offset f in
  match r with
  | inl ret => Ret (ret, buf, p, f)
  | inr (ds, st, size, start_offset, curr_blk, end_blk) =>
      let p := set_PREFETCH (u16 ((end_blk - curr_blk) * 3)) p in
      let* (ret, buf, p, w) := vread_2x_loop (Z.to_nat (end_blk - curr_blk + 1)) path (get_iuri path) ds size st
                                 start_offset curr_blk end_blk true 0 buf p (svc f) in
      Ret (ret, buf, p, set_svc w f)
  end.

(** *** The prefetching thread

    One turn of [prefetch_function] once [lock] is held; nothing happens while
    [prefetch_ds] is negative, and after an error the thread turns again at
    once. *)
Definition prefetch_function (p : prefetcher) (w : world) : outcome (prefetcher * world) :=
  if prefetch_ds p <? 0 then Ret (p, w)
  else if (prefetch_first_block p <? prefetch_last_block p) && negb (prefetch_first_block p =? -1) then
    let* m := the_map p in
    match prefetch_uri p with
    | None => Undef NullDeref
    | Some uri =>
        let* (err, w) := readv_multiple stack e IMSS_BLKSIZE uri (prefetch_first_block p) (prefetch_last_block p)
                           (prefetch_offset p)
                           (i64 (BSIZE * (prefetch_last_block p - prefetch_first_block p))) w in
        if err =? -1 then Ret (p, w)
        else Ret (set_ds (-1) (set_map (map_update_prefetch (prefetch_path p) (prefetch_first_block p)
                                          (prefetch_last_block p) m) p), w)
    end
  else Ret (set_ds (-1) p, w).

(** *** [imss_read] *)

Definition imss_read (BEST_PERFORMANCE_READ MULTIPLE_READ threshold_read_servers : Z) (path buf : bytes)
    (size off : Z) (p : prefetcher) (f : fstate world) : outcome (Z * bytes * prefetcher * fstate world) :=
  let plain := let* (n, buf, f) := imss_sread dceil path buf size off f in Ret (n, buf, p, f) in
  let split := let* (n, buf, f) := imss_split_readv stack e N_SERVERS IMSS_BLKSIZE dceil path buf size off f in
               Ret (n, buf, p, f) in
  if BEST_PERFORMANCE_READ =? 0 then
    if MULTIPLE_READ =? 1 then imss_vread_prefetch path buf size off p f
    else if MULTIPLE_READ =? 2 then
      let* (n, buf, f) := imss_vread_no_prefetch stack e IMSS_BLKSIZE dceil path buf size off f in
      Ret (n, buf, p, f)
    else if MULTIPLE_READ =? 3 then imss_vread_2x path buf size off p f
    else if MULTIPLE_READ =? 4 then split
    else plain
  else if BEST_PERFORMANCE_READ =? 1 then
    if N_SERVERS <? threshold_read_servers then plain else split
  else Undef Uninitialised.
End reads.

(** ** Renaming a directory *)

Lemma move_items_spec f keys m :
  NoDup keys -> (forall k, k ∈ keys -> is_Some (m !! k)) -> (forall k, k ∈ keys -> m !! f k = None) ->
  (forall k k', k ∈ keys -> k' ∈ keys -> f k = f k' -> k = k') ->
  exists m', move_items f keys m = Ret m' /\
    (forall k, k ∈ keys -> m' !! f k = m !! k) /\
    (forall x, x ∉ keys -> (forall k, k ∈ keys -> x <> f k) -> m' !! x = m !! x).
Proof.
  revert m. induction keys as [|k keys IH]; intros m Hnd Hin Hout Hinj; cbn [move_items].
  { exists m. split; [done|]. split; [by intros k ?%not_elem_of_nil|done]. }
  apply NoDup_cons in Hnd as [Hk Hnd]. unfold move_item.
  destruct (Hin k) as [i Hi]; [left|]. rewrite Hi.
  assert (f k <> k) as Hfk by (intros E; specialize (Hout k ltac:(left)); congruence).
  rewrite lookup_delete_ne by done. rewrite (Hout k) by left. cbn [obind].
  assert (forall k', k' ∈ keys -> k' <> f k) as Hfresh.
  { intros k' Hk' ->. destruct (Hin (f k)) as [j Hj]; [by right|]. rewrite (Hout k) in Hj by left. done. }
  destruct (IH (<[f k := i]> (delete k m))) as (m' & Hrun & Hmoved & Hrest); try done.
  - intros k' Hk'. rewrite lookup_insert_ne by (intros E; by apply (Hfresh k')).
    rewrite lookup_delete_ne by (intros ->; done). apply Hin. by right.
  - intros k' Hk'. rewrite lookup_insert_ne.
    2: { intros E. apply Hk. rewrite (Hinj k k') by (done || left || by right). done. }
    destruct (decide (f k' = k)) as [->|Hne]; [apply lookup_delete_eq|].
    rewrite lookup_delete_ne by done. apply Hout. by right.
  - intros x y Hx Hy. apply Hinj; by right.
  - exists m'. split; [done|]. split.
    + intros k' [->|Hk']%elem_of_cons.
      * rewrite Hrest; [by rewrite lookup_insert_eq| |].
        { intros Hf. by apply (Hfresh (f k)). }
        intros k' Hk' E. apply Hk. rewrite (Hinj k k') by (done || left || by right). done.
      * rewrite (Hmoved k' Hk'). rewrite lookup_insert_ne by (intros E; by apply (Hfresh k')).
        by rewrite lookup_delete_ne by (intros ->; done).
    + intros x Hx Hnf. apply not_elem_of_cons in Hx as [Hxk Hx].
      rewrite Hrest; [|done|intros k' Hk'; apply Hnf; by right].
      rewrite lookup_insert_ne by (intros E; apply (Hnf k); [left|done]).
      by rewrite lookup_delete_ne by done.
Qed.

Lemma keys_below_spec old m k : k ∈ keys_below old m <-> is_Some (m !! k) /\ is_Some (find_sub old k).
Proof.
  unfold keys_below. rewrite elem_of_reverse, list_elem_of_filter, sort_keys_perm, list_elem_of_fmap. split.
  - intros [Hf ([k' i] & -> & Hi%elem_of_map_to_list)]. by eauto.
  - intros [[i Hi] Hf]. split; [done|]. exists (k, i). split; [done|]. by apply elem_of_map_to_list.
Qed.

Lemma keys_below_NoDup old m : NoDup (keys_below old m).
Proof.
  unfold keys_below. rewrite reverse_Permutation. apply NoDup_filter. rewrite sort_keys_perm. apply NoDup_fst_map_to_list.
Qed.

Lemma find_sub_at_start p s : prefixb p s = true -> is_Some (find_sub p s).
Proof. intros Hp. destruct s; cbn [find_sub]; by rewrite Hp. Qed.

(** Renaming a directory moves what is fetched for the files below it to their
    new names, buffers and ranges unchanged, and leaves the rest alone: when
    the old name occurs in a key only at its start, and nothing is below the
    new name yet. *)
Theorem map_rename_dir_dir_prefetch_moves (old_dir rdir_dest : bytes) (m : MapPrefetch)
  (Hne : old_dir <> [])
  (Hstart : forall k, is_Some (m !! k) -> is_Some (find_sub old_dir k) -> prefixb old_dir k = true)
  (Hfree : forall k, is_Some (m !! k) -> prefixb rdir_dest k = false) :
  exists m', map_rename_dir_dir_prefetch old_dir rdir_dest m = Ret (1, m') /\
    (forall t, is_Some (m !! (old_dir ++ t)) ->
       m' !! (rdir_dest ++ drop (length old_dir - 1) old_dir ++ t) = m !! (old_dir ++ t)) /\
    (forall x, prefixb old_dir x = false -> prefixb rdir_dest x = false -> m' !! x = m !! x).
Proof.
  unfold map_rename_dir_dir_prefetch. set (f := below_new old_dir rdir_dest).
  assert (forall t, f (old_dir ++ t) = rdir_dest ++ drop (length old_dir - 1) old_dir ++ t) as Hf.
  { intros t. unfold f, below_new. destruct old_dir as [|c d]; [done|].
    f_equal. rewrite drop_app_le by (simpl; lia). done. }
  assert (forall k, k ∈ keys_below old_dir m -> exists t, k = old_dir ++ t) as Hkey.
  { intros k [Hk Hs]%keys_below_spec. apply prefixb_spec. by apply Hstart. }
  destruct (move_items_spec f (keys_below old_dir m) m) as (m' & Hrun & Hmoved & Hrest).
  - apply keys_below_NoDup.
  - intros k Hk. by apply keys_below_spec in Hk as [? _].
  - intros k Hk. destruct (Hkey k Hk) as [t ->]. rewrite Hf.
    destruct (m !! (rdir_dest ++ _)) eqn:E; [|done].
    assert (prefixb rdir_dest (rdir_dest ++ drop (length old_dir - 1) old_dir ++ t) = true) as Hp
      by (apply prefixb_spec; by eexists).
    rewrite Hfree in Hp by (rewrite E; by eexists). done.
  - intros k k' Hk Hk'. destruct (Hkey k Hk) as [t ->], (Hkey k' Hk') as [t' ->]. rewrite !Hf.
    intros E. by apply app_inv_head, app_inv_head in E as ->.
  - exists m'. rewrite Hrun. split; [done|]. split.
    + intros t Ht. rewrite <- Hf. apply Hmoved, keys_below_spec. split; [done|].
      apply find_sub_at_start, prefixb_spec. by exists t.
    + intros x Hx Hd. apply Hrest.
      * intros Hk. destruct (Hkey x Hk) as [t ->].
        assert (prefixb old_dir (old_dir ++ t) = true) by (apply prefixb_spec; by exists t). congruence.
      * intros k Hk ->. destruct (Hkey k Hk) as [t ->]. rewrite Hf in Hd.
        assert (prefixb rdir_dest (rdir_dest ++ drop (length old_dir - 1) old_dir ++ t) = true)
          by (apply prefixb_spec; by eexists). congruence.
Qed.

Definition two_files : MapPrefetch :=
  {[ B "imss://d/a" := mkItem 1 2 (B "aaaa"); B "imss://e" := mkItem 3 3 (B "ee") ]}.

Lemma two_files_keys k : is_Some (two_files !! k) -> k = B "imss://d/a" \/ k = B "imss://e".
Proof.
  intros [i Hi]. unfold two_files in Hi.
  apply lookup_insert_Some in Hi as [[<- _]|[_ Hi]]; [by left|].
  apply lookup_singleton_Some in Hi as [<- _]. by right.
Qed.

Lemma map_rename_dir_dir_prefetch_moves_witness :
  exists m', map_rename_dir_dir_prefetch (B "imss://d/") (B "imss://n") two_files = Ret (1, m') /\
    (forall t, is_Some (two_files !! (B "imss://d/" ++ t)) ->
       m' !! (B "imss://n" ++ drop (length (B "imss://d/") - 1) (B "imss://d/") ++ t)
       = two_files !! (B "imss://d/" ++ t)) /\
    (forall x, prefixb (B "imss://d/") x = false -> prefixb (B "imss://n") x = false -> m' !! x = two_files !! x).
Proof.
  apply (map_rename_dir_dir_prefetch_moves (B "imss://d/") (B "imss://n") two_files).
  - discriminate.
  - intros k [-> | ->]%two_files_keys; [done|]. intros Hs. vm_compute in Hs. by destruct Hs.
  - by intros k [-> | ->]%two_files_keys.
Defined.

(** ** Reads that find their blocks *)

Section hits.
Context (stack : bytes) (e : env) (IMSS_BLKSIZE : Z).
Context {ops : BlockOps world} (dceil : Z -> Z -> Z).

(** The first [c] bytes of a buffer are those of [aux] from [base] on. *)
Definition copied (aux : bytes) (base : Z) (buf0 : bytes) (c : Z) : bytes :=
  take (Z.to_nat c) (drop (Z.to_nat base) aux) ++ drop (Z.to_nat c) buf0.

Lemma fill_step aux base buf0 c n :
  0 <= base -> 0 <= c -> 0 <= n -> base + c + n <= strlen aux -> c + n <= strlen buf0 ->
  exists part, read_at aux (base + c) n = Ret part /\
    write_at (copied aux base buf0 c) c part = Ret (copied aux base buf0 (c + n)).
Proof.
  intros Hb Hc Hn Ha Hl. unfold strlen in *.
  exists (take (Z.to_nat n) (drop (Z.to_nat (base + c)) aux)). split.
  - unfold read_at, strlen. destruct (Z.leb_spec 0 (base + c)); [|lia]. destruct (Z.leb_spec 0 n); [|lia].
    by destruct (Z.leb_spec (base + c + n) (Z.of_nat (length aux))); [|lia].
  - unfold copied. set (pre := take (Z.to_nat c) (drop (Z.to_nat base) aux)).
    assert (strlen pre = c) as Hp by (unfold strlen, pre; rewrite length_take, length_drop; lia).
    rewrite <- Hp at 2. rewrite (write_next _ _ _ (Z.to_nat n)).
    + f_equal. rewrite app_assoc, drop_drop. unfold pre. f_equal; [|f_equal; lia].
      replace (Z.to_nat (base + c)) with (Z.to_nat base + Z.to_nat c)%nat by lia.
      rewrite <- drop_drop, take_take_drop. f_equal. lia.
    + rewrite length_take, length_drop. lia.
    + rewrite length_drop. lia.
Qed.

Context (path rpath aux buf0 : bytes) (ds size st_off c0 end_blk first_blk last_blk : Z) (st : stat)
  (m : MapPrefetch) (p : prefetcher) (w : world).
Context (HB : 0 < BSIZE) (Hmap : map_prefetch p = Some m)
  (Hitem : m !! rpath = Some (mkItem first_blk last_blk aux))
  (Hrange : first_blk <= c0 /\ end_blk <= last_blk) (Hint : 0 <= first_blk /\ last_blk < 2 ^ 31)
  (Hso : 0 <= st_off < BSIZE)
  (Hsize : (end_blk - c0) * BSIZE - st_off < size <= (end_blk - c0 + 1) * BSIZE - st_off)
  (Haux : (last_blk - first_blk + 1) * BSIZE <= strlen aux) (Hroom : size <= strlen buf0).

Abbreviation base := ((c0 - first_blk) * BSIZE + st_off).

Lemma hit_loop fuel curr :
  (Z.to_nat (end_blk - curr + 1) <= fuel)%nat -> c0 < curr <= end_blk ->
  let count := (curr - c0) * BSIZE - st_off in
  vread_prefetch_loop stack e IMSS_BLKSIZE fuel path rpath ds size st st_off curr end_blk false (Some 1) count
    (copied aux base buf0 count) p w
  = Ret (inr size, copied aux base buf0 size, p, w).
Proof.
  revert curr. induction fuel as [|fuel IH]; intros curr Hf Hc; [lia|]. intros count.
  cbn [vread_prefetch_loop]. destruct (Z.ltb_spec end_blk curr); [lia|].
  unfold the_map. rewrite Hmap. cbn [obind]. unfold map_get_buffer_prefetch. rewrite Hitem.
  cbn [item_first item_last item_buf].
  destruct (Z.leb_spec first_blk curr); [|lia]. destruct (Z.leb_spec curr last_blk); [|lia]. cbn [andb].
  rewrite i32_small by lia. unfold copy_block.
  assert (base + count = BSIZE * (curr - first_blk)) as Hbase by (unfold count; lia).
  destruct (Z.eqb_spec curr end_blk) as [->|Hne]; cbn [negb].
  - destruct (fill_step aux base buf0 count (size - count)) as (part & Hr & Hw); unfold count in *; [nia..|].
    rewrite <- Hbase, Hr. cbn [obind]. rewrite Hw. cbn [obind].
    replace ((end_blk - c0) * BSIZE - st_off + (size - ((end_blk - c0) * BSIZE - st_off))) with size by lia.
    destruct fuel as [|fuel]; [done|]. cbn [vread_prefetch_loop].
    by destruct (Z.ltb_spec end_blk (end_blk + 1)); [|lia].
  - destruct (fill_step aux base buf0 count BSIZE) as (part & Hr & Hw); unfold count in *; [nia..|].
    rewrite <- Hbase, Hr. cbn [obind]. rewrite Hw. cbn [obind].
    replace ((curr - c0) * BSIZE - st_off + BSIZE) with ((curr + 1 - c0) * BSIZE - st_off) by lia.
    apply IH; lia.
Qed.

Lemma hit_all fuel (err : option Z) :
  (Z.to_nat (end_blk - c0 + 1) <= fuel)%nat -> c0 < end_blk -> st_off + size <= st_size st -> st_size st < 2 ^ 63 ->
  vread_prefetch_loop stack e IMSS_BLKSIZE fuel path rpath ds size st st_off c0 end_blk true err 0 buf0 p w
  = Ret (inr size, copied aux base buf0 size, p, w).
Proof.
  intros Hf Hc Hst Hst63. destruct fuel as [|fuel]; [lia|].
  cbn [vread_prefetch_loop]. destruct (Z.ltb_spec end_blk c0); [lia|].
  unfold the_map. rewrite Hmap. cbn [obind]. unfold map_get_buffer_prefetch. rewrite Hitem.
  cbn [item_first item_last item_buf].
  destruct (Z.leb_spec first_blk c0); [|lia]. destruct (Z.leb_spec c0 last_blk); [|lia]. cbn [andb].
  rewrite i32_small by lia. unfold copy_block.
  assert (BSIZE <= st_size st) as Hbig by nia.
  assert ((if size <? u64 (st_size st - st_off) then BSIZE - st_off
           else if u64 (st_size st) <? BSIZE then st_size st - st_off else BSIZE - st_off) = BSIZE - st_off) as ->.
  { rewrite !u64_small by nia. destruct (size <? _); [done|]. by destruct (Z.ltb_spec (st_size st) BSIZE); [lia|]. }
  destruct (fill_step aux base buf0 0 (BSIZE - st_off)) as (part & Hr & Hw); [nia..|].
  replace (BSIZE * (c0 - first_blk) + st_off) with (base + 0) by lia. rewrite Hr. cbn [obind].
  replace (copied aux base buf0 0) with buf0 in Hw by (unfold copied; by rewrite take_0).
  rewrite Hw. cbn [obind].
  replace (0 + (BSIZE - st_off)) with ((c0 + 1 - c0) * BSIZE - st_off) by lia. apply hit_loop; lia.
Qed.
End hits.

(** A read of more than one block whose blocks are in the prefetched buffer
    asks no server: it returns the size, fills the caller's buffer from the
    place of the range in the prefetched one, and tells the prefetching thread
    to go on behind the range. *)
Theorem vread_prefetch_hits (stack : bytes) (e : env) (IMSS_BLKSIZE : Z) {ops : BlockOps world} (dceil : Z -> Z -> Z)
  (path buf : bytes) (size off fd : Z) (st : stat) (i : item) (m : MapPrefetch) (p : prefetcher) (f : fstate world)
  (Hdc : forall x b, 0 <= x < 2 ^ 53 -> 0 < b < 2 ^ 53 -> dceil x b = (x + b - 1) / b)
  (HB : 0 < BSIZE < 2 ^ 53) (Hl : strlen (get_iuri path) < rpath_room)
  (Hfile : files f !! get_iuri path = Some (fd, st)) (Hfd : 0 <= fd)
  (Hmap : map_prefetch p = Some m) (Hitem : m !! get_iuri path = Some i)
  (Hoff : 0 <= off) (Hsize : 0 < size <= strlen buf) (Hsmall : size < 2 ^ 31)
  (Hin : off + size <= st_size st) (Hst : st_size st < 2 ^ 53)
  (Hspan : off / BSIZE < (off + size - 1) / BSIZE)
  (Hrange : 0 <= item_first i <= off / BSIZE + 1 /\ (off + size - 1) / BSIZE + 1 <= item_last i < 2 ^ 31)
  (Hbuf : (item_last i - item_first i + 1) * BSIZE <= strlen (item_buf i)) :
  let base := (off / BSIZE + 1 - item_first i) * BSIZE + off mod BSIZE in
  let end_blk := (off + size - 1) / BSIZE + 1 in
  imss_vread_prefetch stack e IMSS_BLKSIZE dceil path buf size off p f
  = Ret (size, take (Z.to_nat size) (drop (Z.to_nat base) (item_buf i)) ++ drop (Z.to_nat size) buf,
         set_offset (off mod BSIZE) (aim fd (get_iuri path) (end_blk + 1) end_blk (st_blocks st) p), f).
Proof.
  intros base end_blk. unfold imss_vread_prefetch, vread_prepare.
  destruct (Z.eqb_spec BSIZE 0); [lia|]. destruct (Z.leb_spec rpath_room (strlen (get_iuri path))); [lia|].
  unfold fd_lookup. rewrite Hfile. destruct (Z.eqb_spec fd (-2)); [lia|].
  assert (write_at buf 0 (calloc_zeros size) = Ret (calloc_zeros size ++ drop (Z.to_nat size) buf)) as ->.
  { rewrite write_at_front; unfold calloc_zeros; unfold strlen in *; rewrite repeat_length; [done|lia]. }
  cbn [obind]. rewrite (u64_small off), (u64_small (st_size st)) by lia.
  destruct (Z.ltb_spec (st_size st) size); [lia|]. cbn [andb]. rewrite (u64_small (off + size)) by lia.
  rewrite Hdc by lia.
  assert (0 <= off mod BSIZE < BSIZE) as Hmod by (apply Z.mod_pos_bound; lia).
  assert (off = BSIZE * (off / BSIZE) + off mod BSIZE) as Hdm by (apply Z.div_mod; lia).
  assert (off mod BSIZE <= off) by (apply Z.mod_le; lia).
  destruct (Z.leb_spec (st_size st) (off mod BSIZE)); [lia|]. cbn [obind].
  assert ((off + size + BSIZE - 1) / BSIZE = end_blk) as ->.
  { unfold end_blk. replace (off + size + BSIZE - 1) with (off + size - 1 + 1 * BSIZE) by lia. apply Z.div_add. lia. }
  destruct (Z.leb_spec 0 fd); [|lia].
  assert (BSIZE * ((off + size - 1) / BSIZE) <= off + size - 1) as Hq1 by (apply Z.mul_div_le; lia).
  assert (off + size - 1 < BSIZE * Z.succ ((off + size - 1) / BSIZE)) as Hq2 by (apply Z.mul_succ_div_gt; lia).
  fold end_blk in Hrange.
  destruct i as [fb lb aux]. cbn [item_first item_last item_buf] in *.
  assert (size <= strlen (calloc_zeros size ++ drop (Z.to_nat size) buf)) as Hroom.
  { unfold strlen, calloc_zeros. rewrite length_app, repeat_length, length_drop. unfold strlen in Hsize. lia. }
  set (c0 := off / BSIZE + 1) in *.
  assert ((end_blk - c0) * BSIZE - off mod BSIZE < size <= (end_blk - c0 + 1) * BSIZE - off mod BSIZE) as Hsz
    by (unfold end_blk, c0; lia).
  rewrite (hit_all stack e IMSS_BLKSIZE path (get_iuri path) aux (calloc_zeros size ++ drop (Z.to_nat size) buf) fd size
    (off mod BSIZE) c0 end_blk fb lb st m p (svc f) (proj1 HB) Hmap Hitem ltac:(lia) ltac:(lia) Hmod Hsz Hbuf Hroom
    (Z.to_nat (end_blk - c0 + 1)) None (le_n _) ltac:(unfold end_blk, c0; lia) ltac:(lia) ltac:(lia)).
  cbn [obind]. rewrite i32_small by lia. destruct f as [w fs]. unfold set_svc. cbn [svc files].
  unfold copied. by rewrite drop_app_length' by (unfold calloc_zeros; by rewrite repeat_length).
Qed.

(** ** Examples: blocks of 4 bytes *)

Abbreviation small_ops := (client_ops [] (big_env 4) (fun _ => -1) 0 cluster_file).

Definition fetched (first last : Z) (b : bytes) : prefetcher :=
  mkPrefetcher (Some {[ cluster_file := mkItem first last b ]}) None (-1) [] (-1) (-1) 0 6.

Lemma vread_prefetch_hits_witness :
  @imss_vread_prefetch [] (big_env 4) 1 small_ops div_up cluster_file (B "............") 9 2
    (fetched 1 3 (B "hello world.")) (cluster_state 12 (cluster 1))
  = Ret (9, B "llo world...", set_offset 2 (aim 0 cluster_file 4 3 0 (fetched 1 3 (B "hello world."))),
         cluster_state 12 (cluster 1)).
Proof.
  rewrite (@vread_prefetch_hits [] (big_env 4) 1 small_ops div_up cluster_file (B "............") 9 2 0
    (mkStat 12 0 1 33188) (mkItem 1 3 (B "hello world."))
    {[ cluster_file := mkItem 1 3 (B "hello world.") ]} (fetched 1 3 (B "hello world."))
    (cluster_state 12 (cluster 1))).
  - reflexivity.
  - intros x b _ _. reflexivity.
  - simpl. lia.
  - reflexivity.
  - apply cluster_file_state.
  - lia.
  - reflexivity.
  - apply lookup_singleton_eq.
  - lia.
  - vm_compute. split; [reflexivity|discriminate].
  - lia.
  - simpl. lia.
  - simpl. lia.
  - reflexivity.
  - simpl. repeat split; discriminate || reflexivity.
  - vm_compute. discriminate.
Defined.

(** A read inside one block takes the rest of the block: three bytes more than
    were asked for, behind the end of a buffer of their size. *)
Theorem short_hit_returns_too_much :
  (exists p, @imss_vread_prefetch [] (big_env 4) 1 small_ops div_up cluster_file (B "......") 1 4
     (fetched 1 3 (B "hello world.")) (cluster_state 12 (cluster 1))
   = Ret (4, B "o wo..", p, cluster_state 12 (cluster 1))) /\
  @imss_vread_prefetch [] (big_env 4) 1 small_ops div_up cluster_file (B ".") 1 4
    (fetched 1 3 (B "hello world.")) (cluster_state 12 (cluster 1)) = Undef OutOfBounds.
Proof. split; [eexists; vm_compute; reflexivity|by vm_compute]. Qed.

(** In the preloaded library the map is never created, and without an entry
    for the file the error code of no read at all is tested. *)
Theorem vread_without_map (p : prefetcher) (Hmap : map_prefetch p = None) :
  @imss_vread_prefetch [] (big_env 4) 1 small_ops div_up cluster_file (B ".") 1 0 p (cluster_state 12 (cluster 1))
    = Undef NullDeref /\
  @imss_vread_prefetch [] (big_env 4) 1 small_ops div_up cluster_file (B ".") 1 0 (set_map ∅ p)
    (cluster_state 12 (cluster 1)) = Undef Uninitialised.
Proof. destruct p as [mp pu pd pp pf pl po pn]. simpl in Hmap. subst. by split; vm_compute. Qed.

Lemma vread_without_map_witness :
  @imss_vread_prefetch [] (big_env 4) 1 small_ops div_up cluster_file (B ".") 1 0
    (mkPrefetcher None None 0 [] (-1) (-1) 0 6) (cluster_state 12 (cluster 1)) = Undef NullDeref.
Proof. apply (vread_without_map (mkPrefetcher None None 0 [] (-1) (-1) 0 6)). reflexivity. Defined.

(** The prefetching thread dereferences a name that is never assigned as soon
    as a read has told it what to fetch. *)
Theorem prefetch_thread_crashes (p : prefetcher) (w : world) (m : MapPrefetch)
  (Hmap : map_prefetch p = Some m) (Huri : prefetch_uri p = None) (Hds : 0 <= prefetch_ds p)
  (Hblocks : 0 <= prefetch_first_block p < prefetch_last_block p) :
  @prefetch_function [] (big_env 4) 1 small_ops p w = Undef NullDeref.
Proof.
  unfold prefetch_function, the_map. rewrite Hmap, Huri.
  destruct (Z.ltb_spec (prefetch_ds p) 0); [lia|].
  destruct (Z.ltb_spec (prefetch_first_block p) (prefetch_last_block p)); [|lia].
  by destruct (Z.eqb_spec (prefetch_first_block p) (-1)); [lia|].
Qed.

Lemma prefetch_thread_crashes_witness :
  @prefetch_function [] (big_env 4) 1 small_ops (mkPrefetcher (Some ∅) None 0 cluster_file 4 5 0 6) (cluster 1)
    = Undef NullDeref.
Proof. by apply (prefetch_thread_crashes (mkPrefetcher (Some ∅) None 0 cluster_file 4 5 0 6) (cluster 1) ∅). Defined.

(** With the defaults of the preloaded library a read is [imss_sread]. *)
Lemma imss_read_default stack e N K {ops : BlockOps world} dceil threshold path buf size off p f :
  imss_read stack e N K dceil 0 0 threshold path buf size off p f
  = (let* (n, buf, f) := imss_sread dceil path buf size off f in Ret (n, buf, p, f)).
Proof. reflexivity. Qed.
