(* ===== verification/Segments.v ===== *)
(** * Shared-memory segments of a node

    src/src/shared_memory.c: the keys, identifiers and contents of System V
    segments, through which a client and the data server of its node exchange
    blocks.  The kernel's table of segments is the state; which identifier it
    gives to a new segment, or that it refuses one, is the parameter
    [fresh_id].  DataServer.v and Client.v use an abstraction of it, a map from
    identifiers to contents. *)

From S2P Require Import Prelude Types Store DataServer.

(** A segment: its key, the bytes, how often it is attached, and whether it is
    to be destroyed with the last detachment. *)
Record segment := mkSegment { seg_key : Z; seg_data : bytes; nattch : nat; removed : bool }.
Abbreviation segments := (gmap Z segment).

Definition IPC_PRIVATE : Z := 0.
Definition IPC_RMID : Z := 0.

(** ** System calls *)

Definition has_key (key : Z) (k : segments) : option Z :=
  match filter (fun p => seg_key p.2 = key /\ removed p.2 = false) (map_to_list k) with
  | [] => None
  | (id, _) :: _ => Some id
  end.

Section kernel.
Context (fresh_id : segments -> Z -> Z).

(** A new segment is filled with zeros; one of no bytes is refused. *)
Definition new_segment (key size : Z) (k : segments) : Z * segments :=
  if size <? 1 then (-1, k)
  else
    let id := fresh_id k size in
    if id =? -1 then (-1, k)
    else (id, <[id := mkSegment key (repeat "000"%char (Z.to_nat size)) 0 false]> k).

(** [shmget(key, size, IPC_CREAT | 0666)], with [IPC_EXCL] when [excl]. *)
Definition shmget (excl : bool) (key size : Z) (k : segments) : Z * segments :=
  if key =? IPC_PRIVATE then new_segment key size k
  else match has_key key k with
       | None => new_segment key size k
       | Some id =>
           if excl then (-1, k)
           else match k !! id with
                | Some s => if strlen (seg_data s) <? size then (-1, k) else (id, k)
                | None => (-1, k)
                end
       end.

(** [shmat]: [None] is [(void * )-1]. *)
Definition shmat (id : Z) (k : segments) : option (bytes * segments) :=
  match k !! id with
  | None => None
  | Some s => Some (seg_data s, <[id := mkSegment (seg_key s) (seg_data s) (S (nattch s)) (removed s)]> k)
  end.

(** [shmdt] of a pointer into segment [id]. *)
Definition shmdt (id : Z) (k : segments) : Z * segments :=
  match k !! id with
  | None => (-1, k)
  | Some s =>
      match nattch s with
      | O => (-1, k)
      | S n =>
          (0, if removed s && (n =? 0)%nat then delete id k
              else <[id := mkSegment (seg_key s) (seg_data s) n (removed s)]> k)
      end
  end.

(** [shmctl] with the command to remove. *)
Definition shm_remove (id : Z) (k : segments) : segments :=
  match k !! id with
  | None => k
  | Some s =>
      if (nattch s =? 0)%nat then delete id k
      else <[id := mkSegment (seg_key s) (seg_data s) (nattch s) true]> k
  end.

(** Writing through an attached pointer. *)
Definition shm_write (id : Z) (content : bytes) (k : segments) : outcome segments :=
  match k !! id with
  | None => Undef OutOfBounds
  | Some s =>
      let* d := write_at (seg_data s) 0 content in
      Ret (<[id := mkSegment (seg_key s) d (nattch s) (removed s)]> k)
  end.

(** ** Keys *)

Definition mul_i32 (x y : Z) : outcome Z := if in_i32 (x * y) then Ret (x * y) else Undef SignedOverflow.

(** One character: [h ^= *key; h *= 0x5bd1e995; h ^= h >> 15], with [key_t] an
    [int]. *)
Definition murmur_step (h : Z) (c : ascii) : outcome Z :=
  let h := Z.lxor h (scharZ c) in
  let* h := mul_i32 h 0x5bd1e995 in
  Ret (Z.lxor h (Z.shiftr h 15)).
Fixpoint murmur_loop (h : Z) (key : bytes) : outcome Z :=
  match key with
  | [] => Ret h
  | c :: key' => let* h := murmur_step h c in murmur_loop h key'
  end.
Definition MurmurOAAT32 (key : bytes) : outcome Z :=
  let* h := murmur_loop 335 key in
  if h =? - 2 ^ 31 then Undef SignedOverflow else Ret (Z.abs h).

(** [None]: [gethostname] fails. *)
Definition getKeySM (hostname : option bytes) : outcome Z :=
  match hostname with None => Ret (-1) | Some h => MurmurOAAT32 h end.

(** [ftok]: of the identifier only the last eight bits are used; [None] when
    the file is not there. *)
Definition ftok (file : option (Z * Z)) (id : Z) : option Z :=
  match file with
  | None => None
  | Some (dev, ino) =>
      Some (i32 (Z.lor (Z.land ino 0xffff)
                   (Z.lor (Z.shiftl (Z.land dev 0xff) 16) (Z.shiftl (Z.land (u32 id) 0xff) 24))))
  end.

(** The file is always the same one, a path of one installation; the name of
    the dataset is not used. [unique_value] counts down. *)
Definition getKeySMByBlock (file : option (Z * Z)) (file_name : bytes) (block_id unique_value : Z)
  : outcome (Z * Z) :=
  let* (block_id, unique_value) :=
    (if block_id =? 0
     then if unique_value =? - 2 ^ 31 then Undef SignedOverflow else Ret (unique_value - 1, unique_value - 1)
     else Ret (block_id, unique_value)) in
  match ftok file block_id with
  | None => Exit 1
  | Some (-1) => Exit 1
  | Some key => Ret (key, unique_value)
  end.

(** ** Identifiers *)

(** The retries with keys made of the process number and [rand()]. *)
Fixpoint retry_key (tries : nat) (pid : Z) (rands : nat -> Z) (n : nat) (size : Z) (k : segments)
  : outcome (Z * segments) :=
  match tries with
  | O => Ret (-1, k)
  | S t =>
      let* key := mul_i32 pid (rands n) in
      let '(id, k) := shmget true key size k in
      if id =? -1 then retry_key t pid rands (S n) size k else Ret (id, k)
  end.

Definition getIdentifierSM (pid : Z) (rands : nat -> Z) (keySM sizeSM : Z) (k : segments) : outcome (Z * segments) :=
  if keySM =? -1 then Ret (-1, k)
  else if sizeSM <? 0 then Ret (-1, k)
  else
    let '(id, k) := shmget true keySM sizeSM k in
    if id =? -1 then retry_key 100 pid rands 0 sizeSM k else Ret (id, k).

(** ** Contents *)

(** The test for NULL does not see a failure, which is [(void * )-1]: the
    pointer returned is that of an attached segment or [None], which callers
    take for a pointer. *)
Definition createSM (idSM : Z) (k : segments) : option bytes * segments :=
  match shmat idSM k with
  | Some (d, k) => (Some d, k)
  | None => (None, k)
  end.

Definition copyContentSM (dst content : bytes) (contentSize : Z) : outcome bytes :=
  let* src := read_at content 0 contentSize in write_at dst 0 src.

Definition unlinkSM (id : Z) (k : segments) : segments := snd (shmdt id k).

(** [shmctl(idSM, 0, IPC_RMID)]: command and buffer are exchanged, but the
    command to remove is number 0, too. *)
Definition freeSM (idSM : Z) (k : segments) : segments :=
  if 0 =? IPC_RMID then shm_remove idSM k else k.

(** [None] is NULL; [content] is not NULL. *)
Definition setContentSMByID (id contentSize : Z) (content : bytes) (k : segments) : outcome (option Z * segments) :=
  if id <? 0 then Ret (None, k)
  else match shmat id k with
       | None => Ret (None, k)
       | Some (_, k) =>
           let* src := read_at content 0 contentSize in
           let* k := shm_write id src k in
           Ret (Some id, k)
       end.

Definition getContentSMByID (id : Z) (k : segments) : option bytes * segments :=
  if id <? 0 then (None, k)
  else match shmat id k with
       | None => (None, k)
       | Some (d, k) => (Some d, k)
       end.

(** [struct SharedMemory]. *)
Record SharedMemory := mkSM { sm_size : Z; sm_key : Z; sm_id : Z }.

(** The retries of [setContentSM] have no bound: without an end they go on for
    ever. *)
Fixpoint retry_forever (fuel : nat) (pid : Z) (rands : nat -> Z) (n : nat) (size key : Z) (id : Z) (k : segments)
  : outcome (Z * Z * segments) :=
  if negb (id =? -1) then Ret (key, id, k)
  else match fuel with
       | O => Undef Deadlock
       | S f =>
           let* key := mul_i32 pid (rands n) in
           let '(id, k) := shmget true key size k in
           retry_forever f pid rands (S n) size key id k
       end.

Definition setContentSM (fuel : nat) (pid : Z) (rands : nat -> Z) (key contentSize : Z) (content : bytes)
    (k : segments) : outcome (SharedMemory * segments) :=
  let '(id, k) := shmget true key contentSize k in
  let* (key, id, k) := retry_forever fuel pid rands 0 contentSize key id k in
  match shmat id k with
  | None => Undef OutOfBounds
  | Some (_, k) =>
      let* src := read_at content 0 contentSize in
      let* k := shm_write id src k in
      Ret (mkSM contentSize key id, k)
  end.

Definition getContentSM (key contentSize : Z) (k : segments) : outcome (option SharedMemory * segments) :=
  if key <? 0 then Ret (None, k)
  else if contentSize <=? 0 then Ret (None, k)
  else
    let '(id, k) := shmget false key contentSize k in
    if id =? -1 then Exit 1
    else match shmat id k with
         | None => Ret (Some (mkSM contentSize key id), k)
         | Some (_, k) => Ret (Some (mkSM contentSize key id), k)
         end.
End kernel.

(** ** Keys *)

Lemma murmur_first_overflows c : murmur_step 335 c = Undef SignedOverflow.
Proof. destruct c as [[] [] [] [] [] [] [] []]; vm_compute; reflexivity. Qed.

(** The hash multiplies a signed [int]: it overflows at the first character of
    every name. *)
Theorem host_key_overflows (c : ascii) (name : bytes) :
  getKeySM (Some (c :: name)) = Undef SignedOverflow.
Proof. unfold getKeySM, MurmurOAAT32. cbn [murmur_loop]. by rewrite murmur_first_overflows. Qed.

Lemma land_byte_mod a : Z.land (u32 a) 0xff = a mod 256.
Proof.
  change 0xff with (Z.ones 8). rewrite Z.land_ones by lia. unfold u32.
  change (2 ^ 32) with (2 ^ 8 * 2 ^ 24). rewrite Z.rem_mul_r by lia.
  change (2 ^ 8) with 256. rewrite Z.mul_comm, Z.mod_add by lia. by apply Z.mod_mod.
Qed.

(** All files of a node share 256 keys: the key depends on the last byte of the
    block number alone. *)
Theorem blocks_share_keys (file : option (Z * Z)) (name1 name2 : bytes) (a b v : Z)
  (Ha : a <> 0) (Hb : b <> 0) (Hab : a mod 256 = b mod 256) :
  getKeySMByBlock file name1 a v = getKeySMByBlock file name2 b v.
Proof.
  unfold getKeySMByBlock. destruct (Z.eqb_spec a 0), (Z.eqb_spec b 0); try done. cbn [obind].
  assert (ftok file a = ftok file b) as ->; [|done].
  unfold ftok. destruct file as [[dev ino]|]; [|done]. by rewrite !land_byte_mod, Hab.
Qed.

Lemma blocks_share_keys_witness :
  getKeySMByBlock (Some (64, 7)) (B "imss://a") 1 0 = getKeySMByBlock (Some (64, 7)) (B "imss://b") 257 0.
Proof. by apply blocks_share_keys. Defined.

(** On a node without the file no key is made: the process ends. *)
Theorem key_file_missing (file_name : bytes) (block_id unique_value : Z) (Hu : - 2 ^ 31 < unique_value) :
  getKeySMByBlock None file_name block_id unique_value = Exit 1.
Proof.
  unfold getKeySMByBlock. destruct (block_id =? 0); [|done].
  destruct (Z.eqb_spec unique_value (- 2 ^ 31)); [lia|done].
Qed.

Lemma key_file_missing_witness : getKeySMByBlock None (B "imss://f") 0 0 = Exit 1.
Proof. by apply key_file_missing. Defined.

(** ** Identifiers name new segments *)

Section segments.
Context (fresh_id : segments -> Z -> Z).
Context (fresh_new : forall k n, fresh_id k n <> -1 -> k !! fresh_id k n = None).

(** A segment of [n] zeros under a new identifier. *)
Definition created (n id : Z) (k k' : segments) : Prop :=
  k !! id = None /\ 1 <= n /\
  exists key, k' = <[id := mkSegment key (repeat "000"%char (Z.to_nat n)) 0 false]> k.

Lemma new_segment_created key n k id k' :
  new_segment fresh_id key n k = (id, k') -> (id = -1 /\ k' = k) \/ (id <> -1 /\ created n id k k').
Proof.
  unfold new_segment. destruct (Z.ltb_spec n 1); [intros [= <- <-]; by left|].
  destruct (Z.eqb_spec (fresh_id k n) (-1)); intros [= <- <-]; [by left|right].
  split; [done|]. split; [by apply fresh_new|]. split; [lia|]. by eexists.
Qed.

Lemma shmget_excl key n k id k' :
  shmget fresh_id true key n k = (id, k') -> (id = -1 /\ k' = k) \/ (id <> -1 /\ created n id k k').
Proof.
  unfold shmget. destruct (key =? IPC_PRIVATE); [apply new_segment_created|].
  destruct (has_key key k); [intros [= <- <-]; by left|apply new_segment_created].
Qed.

Lemma retry_key_created tries pid rands n size k id k' :
  retry_key fresh_id tries pid rands n size k = Ret (id, k') ->
  (id = -1 /\ k' = k) \/ (id <> -1 /\ created size id k k').
Proof.
  revert n k. induction tries as [|t IH]; intros n k; cbn [retry_key]; [intros [= <- <-]; by left|].
  unfold mul_i32. destruct (in_i32 _); [|done]. cbn [obind].
  destruct (shmget _ _ _ _ _) as [id1 k1] eqn:E. apply shmget_excl in E.
  destruct (Z.eqb_spec id1 (-1)) as [->|Hne].
  - destruct E as [[_ ->]|[? _]]; [apply IH|done].
  - destruct E as [[? _]|E]; [done|]. intros [= <- <-]. by right.
Qed.

Lemma getIdentifierSM_created pid rands key size k id k' :
  getIdentifierSM fresh_id pid rands key size k = Ret (id, k') ->
  (id = -1 /\ k' = k) \/ (id <> -1 /\ created size id k k').
Proof.
  unfold getIdentifierSM. destruct (key =? -1); [intros [= <- <-]; by left|].
  destruct (size <? 0); [intros [= <- <-]; by left|].
  destruct (shmget _ _ _ _ _) as [id1 k1] eqn:E. apply shmget_excl in E.
  destruct (Z.eqb_spec id1 (-1)) as [->|Hne].
  - destruct E as [[_ ->]|[? _]]; [apply retry_key_created|done].
  - destruct E as [[? _]|E]; [done|]. intros [= <- <-]. by right.
Qed.

Lemma write_at_zeros p n :
  strlen p <= n -> write_at (repeat "000"%char (Z.to_nat n)) 0 p
                   = Ret (p ++ repeat "000"%char (Z.to_nat (n - strlen p))).
Proof.
  intros Hp. unfold write_at, strlen in *. rewrite repeat_length. change (0 <=? 0) with true.
  destruct (Z.leb_spec (0 + Z.of_nat (length p)) (Z.of_nat (Z.to_nat n))); [|lia]. cbn [andb].
  rewrite take_0. simpl app. do 2 f_equal.
  replace (Z.to_nat n) with (length p + Z.to_nat (n - Z.of_nat (length p)))%nat by lia.
  rewrite repeat_app, drop_app_length' by (by rewrite repeat_length). done.
Qed.

(** A block goes through a segment and leaves nothing behind: the client makes
    it, the server fills it and detaches it, the client reads what the server
    wrote, detaches it and frees it, and the table is what it was before. *)
Theorem segment_exchange (pid : Z) (rands : nat -> Z) (key size id : Z) (p : bytes) (k k1 : segments)
  (Hid : getIdentifierSM fresh_id pid rands key size k = Ret (id, k1)) (Hok : 0 <= id)
  (Hp : strlen p <= size) :
  exists k2 k3,
    setContentSMByID id (strlen p) p k1 = Ret (Some id, k2) /\
    getContentSMByID id (unlinkSM id k2)
      = (Some (p ++ repeat "000"%char (Z.to_nat (size - strlen p))), k3) /\
    freeSM id (unlinkSM id k3) = k.
Proof.
  destruct (getIdentifierSM_created _ _ _ _ _ _ _ Hid) as [[-> _]|[_ (Hnew & Hs & kk & ->)]]; [lia|].
  unfold setContentSMByID. destruct (Z.ltb_spec id 0); [lia|].
  unfold shmat at 1. rewrite lookup_insert_eq. cbn [seg_key seg_data nattch removed].
  rewrite insert_insert_eq.
  assert (read_at p 0 (strlen p) = Ret p) as ->.
  { unfold read_at, strlen. change (0 <=? 0) with true. destruct (Z.leb_spec 0 (Z.of_nat (length p))); [|lia].
    destruct (Z.leb_spec (0 + Z.of_nat (length p)) (Z.of_nat (length p))); [|lia]. cbn [andb].
    by rewrite Nat2Z.id, drop_0, take_ge. }
  cbn [obind]. unfold shm_write. rewrite lookup_insert_eq. cbn [seg_key seg_data nattch removed].
  rewrite write_at_zeros by done. cbn [obind]. rewrite insert_insert_eq.
  eexists _, _. split; [done|]. unfold unlinkSM at 1, shmdt. rewrite lookup_insert_eq. cbn.
  rewrite insert_insert_eq. unfold getContentSMByID. destruct (Z.ltb_spec id 0); [lia|].
  unfold shmat. rewrite lookup_insert_eq. cbn. rewrite insert_insert_eq. split; [done|].
  unfold unlinkSM, shmdt. rewrite lookup_insert_eq. cbn. rewrite insert_insert_eq.
  unfold freeSM, shm_remove. change (0 =? IPC_RMID) with true. cbv iota. rewrite lookup_insert_eq. cbn.
  by apply delete_insert_id.
Qed.
End segments.

(** ** The abstraction of the handlers *)

(** What the model of the data server keeps of the table. *)
Definition contents (k : segments) : gmap Z bytes := seg_data <$> k.

(** Attaching and writing are those of the data server on the contents. *)
Theorem contents_refined (id : Z) (p : bytes) (k : segments) (s : server) (Hs : shm s = contents k) :
  fst (getContentSMByID id k) = DataServer.getContentSMByID id s /\
  contents (snd (getContentSMByID id k)) = shm s /\
  match setContentSMByID id (strlen p) p k, DataServer.setContentSMByID id p s with
  | Ret (r, k'), Ret s' => (r = None <-> s' = None) /\ forall s1, s' = Some s1 -> shm s1 = contents k'
  | Undef _, Undef _ => True
  | _, _ => False
  end.
Proof.
  assert (read_at p 0 (strlen p) = Ret p) as Hp.
  { unfold read_at, strlen. change (0 <=? 0) with true. destruct (Z.leb_spec 0 (Z.of_nat (length p))); [|lia].
    destruct (Z.leb_spec (0 + Z.of_nat (length p)) (Z.of_nat (length p))); [|lia]. cbn [andb].
    by rewrite Nat2Z.id, drop_0, take_ge. }
  unfold getContentSMByID, setContentSMByID, DataServer.setContentSMByID, DataServer.getContentSMByID.
  rewrite Hs. destruct (id <? 0); [by split|].
  assert (contents k !! id = seg_data <$> k !! id) as Hl by apply lookup_fmap. rewrite !Hl. unfold shmat.
  destruct (k !! id) as [g|] eqn:Hg; [|by split]. cbn [fmap option_fmap option_map fst snd].
  assert (forall n r, seg_data <$> <[id := mkSegment (seg_key g) (seg_data g) n r]> k = contents k) as Hsame.
  { intros n r. unfold contents. rewrite fmap_insert. cbn [seg_data]. apply insert_id. by rewrite lookup_fmap, Hg. }
  split; [done|]. split; [apply Hsame|]. rewrite Hp. cbn [obind]. unfold shm_write. rewrite lookup_insert_eq.
  cbn [seg_data seg_key nattch removed]. destruct (write_at (seg_data g) 0 p) as [d| |] eqn:Hw; cbn [obind].
  - split; [done|]. intros s1 [= <-]. cbn [set_shm shm]. unfold contents.
    rewrite insert_insert_eq, fmap_insert. done.
  - unfold write_at in Hw. by case_match.
  - done.
Qed.

(** Freeing a segment that nobody has attached is the removal of the data
    server. *)
Theorem free_refined (id : Z) (g : segment) (k : segments) (s : server)
  (Hs : shm s = contents k) (Hg : k !! id = Some g) (Hn : nattch g = 0%nat) :
  shm (DataServer.freeSM id s) = contents (freeSM id k).
Proof.
  unfold freeSM, shm_remove, DataServer.freeSM. change (0 =? IPC_RMID) with true. cbv iota.
  rewrite Hg, Hn. cbn. rewrite Hs. unfold contents. by rewrite fmap_delete.
Qed.

(** One that is attached is only marked: its bytes stay readable through the
    pointer until the last detachment destroys it. *)
Theorem free_waits_for_detachment (id : Z) (g : segment) (k : segments)
  (Hg : k !! id = Some g) (Hn : nattch g = 1%nat) :
  contents (freeSM id k) = contents k /\ unlinkSM id (freeSM id k) = delete id k.
Proof.
  unfold freeSM, shm_remove. change (0 =? IPC_RMID) with true. cbv iota. rewrite Hg, Hn. cbn. split.
  - unfold contents. rewrite fmap_insert. cbn. apply insert_id. by rewrite lookup_fmap, Hg.
  - unfold unlinkSM, shmdt. rewrite lookup_insert_eq. cbn. apply delete_insert_eq.
Qed.

(** ** Examples *)

(** Identifiers one after the other. *)
Definition next_id (k : segments) (n : Z) : Z := foldr Z.max 0 (map_to_list k).*1 + 1.

Lemma next_id_new k n : next_id k n <> -1 -> k !! next_id k n = None.
Proof.
  intros _. destruct (k !! next_id k n) as [g|] eqn:Hg; [|done]. exfalso.
  assert (forall l x, x ∈ l -> x <= foldr Z.max 0 l) as Hmax.
  { intros l x Hx. induction l as [|y l IH]; [by apply not_elem_of_nil in Hx|].
    apply elem_of_cons in Hx as [->|Hx]; simpl; [lia|]. specialize (IH Hx). lia. }
  assert (next_id k n ∈ (map_to_list k).*1) as Hin.
  { apply list_elem_of_fmap. exists (next_id k n, g). split; [done|]. by apply elem_of_map_to_list. }
  apply Hmax in Hin. unfold next_id in Hin. lia.
Qed.

Definition one_segment : segments := {[ 5 := mkSegment 77 (B "........") 0 false ]}.

Lemma segment_exchange_witness :
  exists k2 k3,
    setContentSMByID 6 5 (B "hello") (<[6 := mkSegment 99 (repeat "000"%char 8) 0 false]> one_segment)
      = Ret (Some 6, k2) /\
    getContentSMByID 6 (unlinkSM 6 k2) = (Some (B "hello" ++ repeat "000"%char 3), k3) /\
    freeSM 6 (unlinkSM 6 k3) = one_segment.
Proof.
  apply (segment_exchange next_id next_id_new 4 (fun _ => 0) 99 8 6 (B "hello") one_segment).
  - vm_compute. reflexivity.
  - lia.
  - vm_compute. discriminate.
Defined.

Lemma contents_refined_witness :
  fst (getContentSMByID 5 one_segment) = DataServer.getContentSMByID 5 (set_shm (contents one_segment) sample_server).
Proof. by apply (contents_refined 5 [] one_segment). Defined.

Lemma free_refined_witness :
  shm (DataServer.freeSM 5 (set_shm (contents one_segment) sample_server)) = contents (freeSM 5 one_segment).
Proof. by apply (free_refined 5 (mkSegment 77 (B "........") 0 false)). Defined.

Lemma free_waits_for_detachment_witness :
  unlinkSM 5 (freeSM 5 {[ 5 := mkSegment 77 (B "........") 1 false ]}) = delete 5 {[ 5 := mkSegment 77 (B "........") 1 false ]}.
Proof. by apply (free_waits_for_detachment 5 (mkSegment 77 (B "........") 1 false)). Defined.

(** A key that is in use makes the client try others, the first of them 0 when
    [rand()] gives 0; with the usual numbers the product overflows. *)
Theorem used_key_overflows :
  getIdentifierSM next_id 4242 (fun _ => 1804289383) 77 8 one_segment = Undef SignedOverflow.
Proof. by vm_compute. Qed.
