(* ===== verification/Fork.v ===== *)
(** * Processes that fork, and the end of a process

    [fork], [wait], [waitpid], [vfork] and the destructor [run_me_last] of
    src/tools/imss_posix.c on the client of Connect.v.  A child has a copy of
    the globals and its own queues of replies; the servers are those of the
    parent. *)

From S2P Require Import Prelude Types Policies Paths Store DataServer Wire Sessions Client Comms MetaStore Elasticity MetaServer Datasets Lifecycle BlockService FileIO Posix LocalMap Dispatcher Connect Removal.

Section fork.
Context (stack : bytes) (e : env) (menv_of : Z -> menv) (POLICY : bytes).
Context (getaddrinfo : bytes -> bytes -> option (list nat)) (socket_ok sock_send_ok : nat -> bool)
  (hangup : nat -> option Z) (malloc_ok : Z -> bool) (ep_ok : bytes -> bool).

(** The globals the child resets: the addresses and endpoints of the metadata
    servers, and the UCX objects, with which the replies under way are left to
    the parent. *)
Definition child_globals (c : client) : client :=
  set_stat [] [] (set_ses (set_mbox [] (set_wld (set_inbox [] (wld (ses c))) (ses c))) c).

(** [fork] in the process that sees [pid] as the result of the system call;
    [mypid] is its own number, [init] whether the library has started. *)
Definition fork (init : bool) (pid mypid : Z) (host : option bytes) (x : init_env) (port : Z) (imss_root : bytes)
    (c : client) : outcome (Z * client) :=
  if negb init then Ret (pid, c)
  else if pid =? -1 then Ret (-1, c)
  else if pid =? 0 then
    let* rank := GetRank host mypid in
    let* (_, c) := init_network_resources stack e menv_of POLICY getaddrinfo socket_ok sock_send_ok hangup malloc_ok
                     ep_ok x port rank imss_root (child_globals c) in
    Ret (pid, c)
  else Ret (pid, c).

(** [wait], [waitpid] and [vfork] only pass on what the system answers: the
    process and, when it is asked for, its status. *)
Definition wait (real : Z * option Z) : Z * option Z := real.
Definition waitpid (real : Z * option Z) : Z * option Z := real.
Definition vfork (real : Z) : Z := real.

(** [run_me_last] at the end of a process: the results of the two releases are
    not looked at; the maps are emptied and deleted. *)
Definition run_me_last (c : client) (hmap : HierarchicalMap) (map_fd : fd_map)
  : outcome (client * HierarchicalMap * fd_map) :=
  let* (_, c) := release_imss e (B "imss://") c in
  let* (_, c) := stat_release e menv_of c in
  Ret (c, ∅, ∅).

(** ** What a connection changes *)

Lemma connect_servers_keeps info c k c' :
  connect_servers getaddrinfo socket_ok sock_send_ok hangup malloc_ok ep_ok info c = Ret (k, c') ->
  metas (ses c') = metas (ses c) /\ process_rank c' = process_rank c.
Proof.
  unfold connect_servers. destruct (_ || _); [done|]. destruct (negb _); [done|].
  intros H. apply obind_Ret in H as ([[[ok kk] m] ds] & _ & H). by injection H as _ <-.
Qed.

Lemma open_imss_keeps uri im n c c' :
  stat_imss stack e menv_of uri c = Ret (1, Some im, c) ->
  open_imss stack e menv_of POLICY getaddrinfo socket_ok sock_send_ok hangup malloc_ok ep_ok uri c = Ret (n, c') ->
  metas (ses c') = metas (ses c) /\ process_rank c' = process_rank c.
Proof.
  intros Hs. unfold open_imss. rewrite Hs. cbn [obind]. change (1 =? 2) with false. cbn iota.
  intros H. apply obind_Ret in H as ([k c1] & Hc & H). apply connect_servers_keeps in Hc as [Hc Hr].
  destruct k as [k|]; [|by injection H as _ <-].
  apply obind_Ret in H as ([[[pos v] free] max] & _ & H). apply obind_Ret in H as (_ & _ & H).
  injection H as _ <-. rewrite <- Hc, <- Hr. done.
Qed.

Context (memory : forall z, 0 <= z -> malloc_ok z = true).

Abbreviation served_by := (serves getaddrinfo socket_ok sock_send_ok malloc_ok ep_ok).
Abbreviation endpoint_of := (leads_to getaddrinfo socket_ok).
Abbreviation start_ok := (can_start getaddrinfo socket_ok sock_send_ok malloc_ok ep_ok).

Lemma init_connects (x : init_env) (port rank k : Z) (uri : bytes) (n : Z) (im : imss_info)
  (mhosts : list bytes) (c : client) :
  0 <= rank < 2 ^ 32 -> Z.of_nat (length mhosts + length (ips im)) <= k ->
  start_ok x port k mhosts c -> length mhosts = length (metas (ses c)) -> tables c = Live ->
  registered stack e menv_of uri n im (ses c) ->
  Forall (served_by k (conn_port im) (dispatchers c)) (ips im) ->
  exists c' kc,
    init_network_resources stack e menv_of POLICY getaddrinfo socket_ok sock_send_ok hangup malloc_ok ep_ok
      x port rank uri c = Ret (0, c') /\
    Forall2 (endpoint_of port (dispatchers c)) (stat_eps c') mhosts /\
    vector c' = [(opened POLICY im, kc)] /\
    Forall2 (endpoint_of (conn_port im) (dispatchers c)) (conn_eps kc) (ips im) /\
    metas (ses c') = metas (ses c) /\ process_rank c' = rank /\
    (forall d t, known (ses c) !! d = Some t -> known (ses c') !! d = Some t).
Proof.
  intros Hr Hk Hstart Hm Ht Hreg Hs.
  destruct (stat_init_loop getaddrinfo socket_ok sock_send_ok hangup malloc_ok ep_ok memory x port rank k mhosts c Hr
    ltac:(lia) Hstart ltac:(lia)) as (c0 & as_ & es & Hi & Heps & Hla & Hv & Hf & Ha & Ht1 & Hmm & Hb & Hc & Hkn & Hrk).
  rewrite Hm, Nat.sub_diag in Hi. cbn [stat_loop obind andb] in Hi.
  set (c1 := set_stat as_ es (set_dispatchers (dispatchers c0) c0)) in Hi.
  assert (registered stack e menv_of uri n im (ses c1)) as Hreg1 by (by eapply registered_ext; [..|exact Hreg]).
  assert (tables c1 = Live) as Htl by (change (tables c1) with (tables c0); by rewrite Ht1, Ht).
  pose proof (home_connected stack e menv_of getaddrinfo socket_ok _ _ _ _ _ _ _ _ Hreg Hm Heps) as Hep.
  destruct (open_imss_connects stack e menv_of POLICY getaddrinfo socket_ok sock_send_ok hangup malloc_ok ep_ok memory
    uri n im (k - Z.of_nat (length mhosts)) c1)
    as (c' & kc & Ho & He' & Hv' & Hto & Hmat & Hci & Him & Hkn' & Ha' & _); try done; [by rewrite <- Hrk in Hr|lia| |].
  { eapply Forall_impl; [exact Hs|]. intros h. apply serves_later; [done|lia]. }
  exists c', kc. unfold init_network_resources. rewrite Hi. cbn [obind]. change (0 =? -1) with false. cbn iota.
  pose proof (ifits_num _ (rg_fits _ _ _ _ _ _ _ Hreg1)) as Hn.
  assert (metas (ses c') = metas (ses c1) /\ process_rank c' = process_rank c1) as [Hmetas Hrank].
  { rewrite Htl in Ho. cbn [in_use obind] in Ho. eapply open_imss_keeps; [|exact Ho]. by eapply ask_instance. }
  rewrite Ho, Htl. cbn [in_use obind]. destruct (Z.ltb_spec (num_storages im) 0); [lia|]. split; [done|].
  split; [by rewrite He'|]. split; [done|]. split.
  { eapply Forall2_impl; [exact Hto|]. intros. by eapply leads_to_later. }
  split; [by rewrite Hmetas, <- Hmm|]. split; [by rewrite Hrank, <- Hrk|].
  intros d t Hd. rewrite Hkn'. change (known (ses c1)) with (known (ses c0)). rewrite Hkn, Ht. unfold add_root_table.
  destruct (known (ses c) !! IMSS_ROOT) as [r|] eqn:E; [done|].
  rewrite lookup_insert_ne; [done|]. intros <-. congruence.
Qed.

(** A child is connected on its own and knows what its parent knew, under a
    rank of its own; the metadata servers are not told that there is another
    user of the files that are open, so their counters stay what they are. The
    parent and a process that fails to fork are not touched. *)
Theorem fork_child_uncounted (mypid : Z) (host : option bytes) (x : init_env) (port rank k : Z) (uri : bytes) (n : Z)
  (im : imss_info) (mhosts : list bytes) (c : client)
  (Hrank : GetRank host mypid = Ret rank)
  (Hk : Z.of_nat (length mhosts + length (ips im)) <= k)
  (Hstart : start_ok x port k mhosts c) (Hm : length mhosts = length (metas (ses c))) (Ht : tables c = Live)
  (Hreg : registered stack e menv_of uri n im (ses (child_globals c)))
  (Hs : Forall (served_by k (conn_port im) (dispatchers c)) (ips im)) :
  (exists c' kc,
    fork true 0 mypid host x port uri c = Ret (0, c') /\
    Forall2 (endpoint_of port (dispatchers c)) (stat_eps c') mhosts /\
    vector c' = [(opened POLICY im, kc)] /\
    Forall2 (endpoint_of (conn_port im) (dispatchers c)) (conn_eps kc) (ips im) /\
    process_rank c' = rank /\ metas (ses c') = metas (ses c) /\
    (forall d t, known (ses c) !! d = Some t -> known (ses c') !! d = Some t)) /\
  (forall pid, pid <> 0 -> fork true pid mypid host x port uri c = Ret (pid, c)).
Proof.
  pose proof (rank_in_range host mypid rank Hrank) as Hr.
  split.
  - destruct (init_connects x port rank k uri n im mhosts (child_globals c)) as (c' & kc & Hi & H1 & H2 & H3 & H4 & H5 & H6);
      try done; [lia|by destruct Hstart|].
    exists c', kc. unfold fork. cbn [negb]. change (0 =? -1) with false. change (0 =? 0) with true. cbn iota.
    rewrite Hrank. cbn [obind]. rewrite Hi. by repeat split.
  - intros pid Hpid. unfold fork. cbn [negb]. destruct (Z.eqb_spec pid (-1)) as [->|]; [done|].
    by destruct (Z.eqb_spec pid 0).
Qed.

(** Whatever the servers answer, a process that ends has no instance, no
    endpoint of a metadata server and no open file left, and what it used is
    destroyed. *)
Theorem run_me_last_forgets (c c' : client) (hmap hmap' : HierarchicalMap) (fds fds' : fd_map)
  (Hrun : run_me_last c hmap fds = Ret (c', hmap', fds')) :
  vector c' = [] /\ free_imssd c' = [] /\ stat_eps c' = [] /\ arrays c' = Destroyed /\ tables c' = Destroyed /\
  hmap' = ∅ /\ fds' = ∅.
Proof.
  unfold run_me_last in Hrun. apply obind_Ret in Hrun as ([r1 c1] & _ & Hrun).
  apply obind_Ret in Hrun as ([r2 c2] & Hs & Hrun). injection Hrun as <- <- <-.
  unfold stat_release in Hs. apply obind_Ret in Hs as (? & _ & Hs). apply obind_Ret in Hs as (? & _ & Hs).
  apply obind_Ret in Hs as (s & _ & Hs). by injection Hs as _ <-.
Qed.
End fork.

(** ** Examples *)

(** The client of Connect.v, which has started before. *)
Definition forking : client := set_containers Live Live before_start.

Lemma fork_child_uncounted_witness :
  exists c' kc,
    fork [] (big_env 4096) (fun _ => sample_menv) (B "RR") sample_hosts on on no_hangup all_memory all_eps true 0 42
      (Some (B "node1")) (node1_env (host_line (B "meta"))) 7501 IMSS_ROOT forking = Ret (0, c') /\
    vector c' = [(opened (B "RR") the_instance, kc)] /\ metas (ses c') = [the_meta].
Proof.
  destruct (GetRank (Some (B "node1")) 42) as [rank| |] eqn:Hr; [|by vm_compute in Hr..].
  destruct (fork_child_uncounted [] (big_env 4096) (fun _ => sample_menv) (B "RR") sample_hosts on on no_hangup
    all_memory all_eps (fun _ _ => eq_refl) 42 (Some (B "node1")) (node1_env (host_line (B "meta"))) 7501 rank 100
    IMSS_ROOT 0 the_instance [B "meta"] forking) as [(c' & kc & H1 & _ & H3 & _ & _ & H6 & _) _].
  - exact Hr.
  - simpl. lia.
  - apply sample_start; [done|by vm_compute| |].
    + apply Forall_singleton. split; apply strchr_None; reflexivity.
    + apply Forall_singleton. by eexists.
  - done.
  - done.
  - by apply sample_registered.
  - apply Forall_cons_2; [by apply sample_served; [lia|eexists]|].
    apply Forall_cons_2; [by apply sample_served; [lia|eexists]|]. by apply Forall_nil_2.
  - exists c', kc. split; [exact H1|]. split; [exact H3|exact H6].
Defined.

Lemma run_me_last_forgets_witness :
  exists c', run_me_last (big_env 4096) (fun _ => sample_menv) joined ∅ ∅ = Ret (c', ∅, ∅) /\ vector c' = [].
Proof.
  destruct (run_me_last (big_env 4096) (fun _ => sample_menv) joined ∅ ∅) as [[[c' h'] f']| |] eqn:Hrun;
    [|by vm_compute in Hrun..].
  destruct (run_me_last_forgets (big_env 4096) (fun _ => sample_menv) joined c' ∅ h' ∅ f' Hrun)
    as (H1 & _ & _ & _ & _ & -> & ->).
  by exists c'.
Defined.
